(* ===== verification/_CoqProject ===== *)
-Q . S2P
Prelude.v
OrdMap.v
Wire.v
Frame.v
Frontend.v
Startup.v
PreStartup.v
Backend.v
Replication.v
Demux.v
Cancel.v
BackendHold.v
Fsm.v
Grammar.v
Pipeline.v
PipelineTables.v
PipelineProofs.v
PipelineSpec.v
PipelineFifo.v
Resources.v
Transport.v
Machine.v
Middleware.v
RuntimeMiddleware.v
Tls.v
PipelineTyped.v
Session.v
SessionSpec.v
ServerSession.v
ServerSessionSpec.v
Scram.v
ScramSpec.v
Auth.v
AuthSpec.v
Handshake.v
Erased.v
Intermediary.v
Relay.v
RelayProofs.v
RelayHold.v
RelaySpec.v
RelayWire.v
Establish.v
EstablishProofs.v
ResourceSession.v
ClientComponent.v
TlsModel.v
ClientSpec.v
ServerComponent.v
ServerSpec.v
Conversation.v
EstablishErrors.v
IntermediaryEstablish.v
IntermediaryAccept.v
ReceiveTyped.v
Text.v
Civil.v
Catalogue.v
CatalogueSpec.v
CatalogueData.v
SoakSchedule.v
Soak.v
SoakSpec.v
Performance.v
PerformanceSpec.v
BurnIn.v
BurnInSpec.v
Cli.v
CliSpec.v
FsmTyped.v
FsmSyntax.v
FsmDiagram.v
FsmParse.v
FsmParseSpec.v
FsmCompile.v
Scripted.v
