(* ===== verification/Prelude.v ===== *)
(** * pg-proto: a verified model of a PostgreSQL protocol library

    pg-proto is a Rust crate for writing PostgreSQL clients, servers and
    proxies. Bytes come in through a buffered transport, are cut into frames
    and decoded into frontend or backend messages; backend messages pass the
    demultiplexer that separates asynchronous traffic from the session stream;
    a grammar compiled by the macro crate pg-proto-fsm says which message is
    legal in which phase; typed connections authenticate and run sessions in
    either role, their phases following the grammars; middleware inspects and
    replaces messages; a proxy keeps a ledger of outstanding requests (the
    pipeline), rewrites statement and portal names (the resources), translates
    cancellation keys, and forwards traffic between its two roles, holding
    backend messages in batches.

    This library translates those parts into executable Rocq definitions, one
    file per part, and proves the properties that make them correct.

    ** Files and what they model

    - [Prelude] (this file): results with errors and panics, machine integers
      and big-endian bytes, ordering of byte strings; shared tactics and hints.
    - [OrdMap]: the ordered parameter map ([BTreeMap<Bytes, Bytes>]) as a sorted
      association list, with the laws of insertion and lookup.
    - [Wire]: the take_ and put_ helpers of src/src/codec.rs with their error
      texts, the interfaces [WireWriter] and [WireFormat] that say a writer
      appends a fixed image and a reader inverts it, and their instances for
      integers, C strings, nullable values and counted collections.
    - [Frame]: [Frame], [PgCodec], [decode_frame], encode and decode of
      src/src/codec.rs, and the [Direction] interface with its laws.
    - [Frontend], [Backend]: the two message families of src/src/codec.rs, their
      [to_frame] and decoders; each discharges [DirectionLaws].
    - [Startup]: src/src/startup.rs.
    - [PreStartup]: src/src/pre_startup.rs and the typed connection [Conn] of
      src/src/lib.rs, whose phase and cleanliness parameters are indices.
    - [Replication]: src/src/replication.rs.
    - [Demux]: src/src/demux.rs. [Cancel]: src/src/cancel.rs, with the trait
      [CancelKeyRegistry] as a class. [BackendHold]: src/src/backend_hold.rs.
    - [Fsm]: the grammar compiler of src/pg-proto-fsm/src/lib.rs: validation,
      the transition table, the projections and the runtime machine.
      [FsmTyped]: the event alphabet, the messages of each phase, the connections
      they project to and the typestate sessions. [FsmSyntax]: declarations with
      their associations, templates and generated implementations. [FsmDiagram]:
      the tree of the railroad diagram. [FsmParse]: the parser over token trees,
      in a state and error monad; [FsmParseSpec]: its round trip. [FsmCompile]:
      the macro as a whole, with the identifiers it builds. syn's parsers of Rust syntax are parameters with the
      laws [SynLaws].
    - [Grammar]: the six grammars of src/src/grammar.rs as data for [Fsm].
    - [Pipeline]: the ledger of src/src/pipeline.rs. [PipelineTables] holds the
      facts about the backend grammar the ledger relies on, found by
      evaluating the table; [PipelineProofs] the invariants of every
      operation; [PipelineSpec] the properties and the executions that show
      where the ledger departs from its intent; [PipelineFifo] the abstract
      queue of obligations and the simulation. [PipelineTyped]: its typed
      interception of responses, the waiting future, and histories of all
      operations, untyped and typed.
    - [Resources]: the resource scope of src/src/resources.rs. [ResourceSession]:
      its resource-aware connection, a scope paired with the typed connection of
      [Session], and the name table an observer of the wire keeps.
    - [Transport]: [Buffered] of src/src/transport.rs: buffering and flush, the
      receive loops, the session stream, encryption replies and TLS upgrades.
    - [Machine]: runs of a deterministic step function, shared by the session
      and authentication specifications.
    - [Middleware]: src/src/middleware.rs and the middleware receives of
      src/src/transport.rs. [ReceiveTyped]: its typed receives of every message
      family. [RuntimeMiddleware]: src/src/runtime_middleware.rs.
    - [Session], [ServerSession]: the typestates of src/src/session.rs and
      src/src/server_session.rs: a phase is an index of [Conn], an operation a
      function between connections of its phases. [SessionSpec] and
      [ServerSessionSpec] run them as machines and relate them to the grammars.
    - [Scram]: src/src/scram.rs and src/src/credentials.rs; the hash functions,
      base64 and saslprep are the interface [Crypto] with laws [CryptoLaws].
      [ScramSpec]: the RFC 5802 client and what the verifier accepts.
    - [Auth]: src/src/auth.rs and src/src/server_auth.rs. [AuthSpec]: evidence
      and grammars of both roles. [Handshake]: the two roles and the verifier
      composed to a login.
    - [Erased]: src/src/erased.rs and src/src/cleanliness.rs.
    - [Intermediary]: data, interfaces and registries of
      src/src/intermediary_component.rs, the role cores' message operations of
      src/src/server_component.rs and client_component.rs, and the session pair
      of src/src/intermediary.rs. [Relay]: the forwarding driver, in a state and
      error monad over [IntermediaryConnection]. [RelayProofs]: a program logic
      for it and the account of all traffic; [RelayHold]: the hold and the
      local-response loop; [RelaySpec]: the properties over histories of calls;
      [RelayWire]: the driver over the buffered streams of [Transport].
    - [Tls]: src/src/tls.rs and src/src/net.rs; rustls, the certificate parser
      and the socket options are the interfaces [Rustls], [Certificates],
      [TlsLibrary] and [TcpSocket].
    - [Establish]: the step monad of the establishment code and the drop
      assertion of [Conn] in src/src/lib.rs. [EstablishProofs]: a logic for it.
    - [ClientComponent]: src/src/client_component.rs. [ServerComponent]:
      src/src/server_component.rs. [IntermediaryEstablish]: the builder and the
      accept path of src/src/intermediary_component.rs, which ends in the
      connection [Relay] drives. The application's callbacks (connector,
      policies, providers, resolvers, middleware) are classes over a world they
      may change. [ClientSpec], [ServerSpec], [IntermediaryAccept]: what a
      returned connection is. [Conversation]: a client and a server log in with
      each other over scripted streams. [TlsModel]: concrete libraries on which
      the theorems are run. [EstablishErrors]: establishment against particular
      peers and build profiles.
    - The burn-in harness, src/pg-proto-burn-in/src: [Text]: string functions of
      the language it uses. [Civil]: dates of run_all.rs, catalogue.rs and
      trends.rs. [Catalogue], [CatalogueSpec]: the audit of catalogue.rs;
      [CatalogueData]: the generated catalogue against the grammars of
      [Grammar]. [SoakSchedule], [Soak], [SoakSpec]: soak.rs, from the random
      schedule over the driver and the execution to recording, replay and
      reduction; processes and containers are the interface [Os].
      [Performance], [PerformanceSpec]: the statistics, loops and gates of
      performance.rs. [BurnIn], [BurnInSpec]: of lib.rs the cancellation registry
      and the observer, instances of the interfaces of [Intermediary], the
      coverage report and the raw packets. [Scripted]: the packets of scripted.rs.
      [Cli], [CliSpec]: cli.rs, run_all.rs, report.rs and performance_delegate.rs.

    ** How the code is represented

    A Rust [Result] is [result], with a third outcome [Panic] for code that
    would unwind, so that freedom from panics is a theorem. [io::Error] keeps
    its kind and text. Integers are [Z] with their width written out where the
    code checks, saturates or truncates ([checked_add], [saturating_add],
    [be_bytes]). [Bytes] and [BytesMut] are byte lists: a function that consumes
    a buffer returns what is left of it. A [HashMap] is stdpp's [gmap], a
    [VecDeque] or [Vec] a list. A method with [&mut self] takes and returns its
    state. Phases and events of a grammar are named by strings, as in the
    macro's input. An await in [Transport] is a poll of the stream interface
    [AsyncIo], whose contract is [AsyncIoLaws]; at each pending poll a schedule
    decides whether the future is dropped and the call repeated. In [Middleware]
    and [Relay] a handler's future has completed and an await is a call; which
    receive of a select completes first is an argument. A trait is a class; the
    wires of the forwarding driver are the class [MessageWire], which the buffered
    streams of [Transport] implement ([RelayWire]). Establishment runs in the
    monad [Establish.M] over the handler, the state and the world, with three
    outcomes beside success: an error, a panic, and [None] for a future that is
    still waiting; [?] with a live connection in scope is [raise_dropping], which
    panics under [debug_assertions] (class [BuildProfile]), as [Drop for Conn]
    does. A shared store (the cancellation registry behind its mutex) is passed
    along: what other sessions do to it in between is not modelled.

    ** Fuel

    [take_parameters] (Startup), [take_mechanisms] and [take_diagnostic_fields]
    (Backend) get the length of the input plus one: each iteration consumes a
    byte, and running out would be [Panic], which is proved never to happen.
    The loops of [Transport] take a step count; two steps per read and one more
    per receive, and one per buffered byte and one more per flush, are proved
    sufficient. An outcome [None] there is a future that is still running.
    [flush_local_loop] (Relay) gets one step per queued entry and message and one
    more, proved sufficient and independent of any excess. [connect_with_retry]
    (Tls) gets one step per retry and one more, proved sufficient. The
    establishment functions take one step count for every loop and receive;
    twice the reads and two more complete the login of [Conversation].
    [railroad_state_node] (FsmDiagram) gets the number of states and one, the
    loops of [FsmParse] the number of tokens and one; both are proved enough.
    [reduce_loop] (Soak) has the eight executions of the code, [run_batches] one
    step per entry, [histogram_buckets] (Performance) 66 doublings for 64-bit
    samples and the loops of synthetic samples and arrivals one step per element,
    each proved sufficient.

    ** What the theorems show

    - Codec: encoding and decoding are inverse in both directions for frames,
      both message families, first packets and replication payloads; decoding
      is total, bounded by the limit and never panics.
    - Transport: messages arrive as sent under every cutting of the bytes and
      every cancellation; flushing conserves bytes; the session stream is the
      demultiplexer's; no plaintext crosses a TLS upgrade on either side.
    - Demultiplexer, cancellation: event order, attribution of notices,
      evidence for pooling; key translation over histories, end to end.
    - Grammars: well-formedness; outside the extended protocol and resets,
      compatibility of the session grammars of the two roles; duality before
      startup.
    - Grammar compiler: on any tokens the macro expands to the table of a valid
      declaration or reports an error, and panics only on a raw module name; a written
      declaration parses back; associations are coherent; the diagram shows every
      reachable phase and transition once; the typed messages and sessions of a
      grammar refine its runtime machine.
    - Pipeline: every operation is a run of a first-in first-out queue of
      obligations; responses leave in request order; response
      states belong to their operations; capacity; recovery after errors;
      sequences and replacements are equivalent to single steps; no panic over
      histories of all operations outside COPY BOTH and one kind of replacement.
    - Resources: every message a resource-aware connection sends is in scope for
      an observer of the wire and reaches the resource its token was issued for;
      stale tokens stay stale; names are injective; prepare and bind behave as
      documented on every branch.
    - Sessions: runs of the typestates of both roles are paths of the grammars,
      and the server's take and refuse exactly what its grammar does;
      a dirtied connection is pooled only after a confirmed reset; sessions
      recover from every phase; a failed pipeline resumes at its Sync.
    - Authentication: ready needs the evidence of the exchange; both roles follow
      their grammars; the SCRAM verifier accepts the RFC client and, short of a
      second preimage, only it; a whole login succeeds.
    - Middleware: typed and checked interception agree, for single messages and
      for session streams; chains are monoids; typed interception of responses is
      acceptance of the replacement.
    - Forwarding: responses reach the client in request order under any
      middleware, interleaving and failure, as messages of the connection's own
      ledger and as bytes on its streams; without middleware the intermediary
      is transparent; releases are atomic, the hold is bounded, refused requests
      are retained, and the local-response loop ends.
    - Establishment: whatever the peers, the middleware and the callbacks do, a
      returned client, server or intermediary connection is what its TLS,
      authentication and routing policies demand, and release builds do not
      panic (policies are assumed not to panic on an answer to a question they
      asked, which the trust and MD5 policies meet); the cancellation registry keeps exactly the routes of sessions; a
      client and a server with static credentials log in with each other under
      every cutting of the bytes; connection retries end and their delays are
      bounded.
    - Burn-in: printed dates are calendar days; an audit accounts for every entry
      of the catalogue, which is that of the grammars, and an approved one for
      exactly what the reviewed registry stands for; a soak opens exactly the
      connections it announces, records no secret and reduces a failure to a
      bracketed prefix; histograms, windows and gates are exact; observation
      changes no message; scripted malformed packets are refused by the layer
      they are meant for; command lines are read back and a full run fills the
      report.
    - Departures found: the named theorems at the ends of [PipelineSpec],
      [PipelineTyped], [Startup], [Backend], [ServerSessionSpec], [AuthSpec],
      [RelaySpec], [ResourceSession] and [CliSpec], those of [EstablishErrors],
      and single ones in [Grammar], [FsmCompile], [SoakSchedule], [SoakSpec] and
      [BurnInSpec].

    ** Not modelled

    The platform security engines (src/src/integrations.rs), rustls, the
    certificate parser, the SCRAM client library and the socket API are other
    libraries, present as interfaces; examples, benches, tests and fuzz targets
    are not part of the library. Of the burn-in harness the child processes,
    containers, SQL scenarios, faults, conversations of scripted peers, hardware
    capture and charts are effects of the operating system or other libraries.
    Of the macro the layout and text of the SVG, and the dual sessions, which
    repeat the sessions under other names. Debug and Display formatting and accessors are left out
    throughout. TLS record protection is not modelled: an encrypted stream is an
    [AsyncIo] of the TLS library.

    ** Plan

    What could follow: whole logins of SCRAM through the role components, the
    composition of [IntermediaryAccept] with the histories of [RelaySpec], and the
    harness's fault scenarios over a model of the server. *)

From Stdlib Require Import ZArith Lia String Ascii.
From Stdlib Require Import Init.Byte Strings.Byte.
From stdpp Require Import prelude gmap.

Declare Scope pg_scope.
Delimit Scope pg_scope with pg.
Global Open Scope pg_scope.
Global Open Scope Z_scope.

(** ** Fallible computations: Rust's [Result] and [io::Error] *)

(** [Panic] is the outcome of an operation that unwinds: an index or a
    [bytes] accessor out of range, [unwrap], [expect] or [unreachable!]. *)
Inductive result (A E : Type) : Type :=
| Ok (a : A)
| Err (e : E)
| Panic.
Arguments Ok {A E} a.
Arguments Err {A E} e.
Arguments Panic {A E}.

(** [std::io::ErrorKind], the kinds the crate constructs. *)
Inductive ErrorKind : Type :=
| InvalidData
| InvalidInput
| UnexpectedEof
| WriteZero
| PermissionDenied
| ConnectionAborted
| Unsupported
| Other.

(** [std::io::Error] built from a kind and a message. *)
Record io_error : Type := mkError { kind : ErrorKind; message : string }.

Abbreviation io A := (result A io_error).

(** [let? p := c in k] is Rust's [let p = c?; k]. *)
Notation "'let?' p := c 'in' k" :=
  (match c with Ok p => k | Err e => Err e | Panic => Panic end)
    (at level 10, p pattern, c at level 100, k at level 200) : pg_scope.

Definition result_map {A B E} (f : A -> B) (r : result A E) : result B E :=
  match r with Ok a => Ok (f a) | Err e => Err e | Panic => Panic end.

Definition map_err {A E F} (f : E -> F) (r : result A E) : result A F :=
  match r with Ok a => Ok a | Err e => Err (f e) | Panic => Panic end.

Definition is_ok {A E} (r : result A E) : bool :=
  match r with Ok _ => true | _ => false end.

Lemma Ok_inj {A E} (a b : A) : @Ok A E a = Ok b -> a = b.
Proof. congruence. Qed.

#[export] Instance ErrorKind_eq_dec : EqDecision ErrorKind.
Proof. solve_decision. Defined.

#[export] Instance io_error_eq_dec : EqDecision io_error.
Proof. solve_decision. Defined.

(** ** Bytes *)

Abbreviation bytes := (list byte).

#[export] Instance byte_eq_decision : EqDecision byte := Byte.byte_eq_dec.

#[export] Program Instance byte_countable : Countable byte :=
  inj_countable Byte.to_N Byte.of_N _.
Next Obligation. intros b. apply Byte.of_to_N. Qed.

Definition byte_val (b : byte) : Z := Z.of_N (Byte.to_N b).

(** Truncating conversion to [u8]. *)
Definition byte_of (z : Z) : byte := default x00 (Byte.of_N (Z.to_N (z mod 256))).

Lemma byte_val_range (b : byte) : 0 <= byte_val b < 256.
Proof. unfold byte_val. pose proof (Byte.to_N_bounded b). lia. Qed.

Lemma byte_of_val (b : byte) : byte_of (byte_val b) = b.
Proof.
  unfold byte_of. rewrite Z.mod_small by apply byte_val_range.
  unfold byte_val. now rewrite N2Z.id, Byte.of_to_N.
Qed.

Lemma byte_val_of (z : Z) : byte_val (byte_of z) = z mod 256.
Proof.
  unfold byte_val, byte_of.
  pose proof (Z.mod_pos_bound z 256 ltac:(lia)) as Hz.
  destruct (Byte.of_N (Z.to_N (z mod 256))) as [b|] eqn:Hb; simpl.
  - apply Byte.to_of_N in Hb. lia.
  - apply Byte.of_N_None_iff in Hb. lia.
Qed.

Lemma byte_val_inj (a b : byte) : byte_val a = byte_val b -> a = b.
Proof. intros H. rewrite <- (byte_of_val a), <- (byte_of_val b). now f_equal. Qed.

(** ** Big-endian integers of [n] bytes *)

Fixpoint be_bytes (n : nat) (v : Z) : bytes :=
  match n with
  | O => []
  | S m => byte_of (Z.shiftr v (8 * Z.of_nat m)) :: be_bytes m v
  end.

Fixpoint be_value (l : bytes) : Z :=
  match l with
  | [] => 0
  | b :: t => Z.shiftl (byte_val b) (8 * Z.of_nat (length t)) + be_value t
  end.

Lemma length_be_bytes n v : length (be_bytes n v) = n.
Proof. induction n; simpl; congruence. Qed.

Lemma take_be_bytes n v rest : take n (be_bytes n v ++ rest) = be_bytes n v.
Proof. now rewrite take_app_length' by (now rewrite length_be_bytes). Qed.

Lemma be_value_range l : 0 <= be_value l < 2 ^ (8 * Z.of_nat (length l)).
Proof.
  induction l as [|b t IH]; [simpl; lia|].
  cbn [be_value length]. pose proof (byte_val_range b).
  rewrite Z.shiftl_mul_pow2 by lia.
  replace (8 * Z.of_nat (S (length t))) with (8 + 8 * Z.of_nat (length t)) by lia.
  rewrite Z.pow_add_r by lia. nia.
Qed.

Lemma be_value_bytes n v : be_value (be_bytes n v) = v mod 2 ^ (8 * Z.of_nat n).
Proof.
  induction n as [|n IH]; [simpl; now rewrite Z.mod_1_r|].
  cbn [be_bytes be_value]. rewrite length_be_bytes, IH, byte_val_of.
  rewrite Z.shiftl_mul_pow2, Z.shiftr_div_pow2 by lia.
  set (p := 2 ^ (8 * Z.of_nat n)).
  assert (0 < p) by (apply Z.pow_pos_nonneg; lia).
  replace (2 ^ (8 * Z.of_nat (S n))) with (p * 256).
  - rewrite Z.rem_mul_r by lia. lia.
  - unfold p. change 256 with (2 ^ 8). rewrite <- Z.pow_add_r by lia. f_equal. lia.
Qed.

Lemma be_bytes_mod n m v : (n <= m)%nat ->
  be_bytes n (v mod 2 ^ (8 * Z.of_nat m)) = be_bytes n v.
Proof.
  induction n as [|n IH]; intros Hn; [reflexivity|].
  cbn [be_bytes]. rewrite IH by lia. f_equal.
  apply byte_val_inj. rewrite !byte_val_of, !Z.shiftr_div_pow2 by lia.
  replace (8 * Z.of_nat m) with (8 * Z.of_nat n + 8 * Z.of_nat (m - n)) by lia.
  rewrite Z.pow_add_r by lia.
  set (p := 2 ^ (8 * Z.of_nat n)).
  assert (0 < p) by (apply Z.pow_pos_nonneg; lia).
  rewrite Z.rem_mul_r by (try apply Z.pow_nonzero; lia).
  replace (v mod p + p * ((v / p) mod 2 ^ (8 * Z.of_nat (m - n))))
    with ((v / p) mod 2 ^ (8 * Z.of_nat (m - n)) * p + v mod p) by ring.
  rewrite Z.div_add_l by lia. rewrite (Z.div_small (v mod p)) by (apply Z.mod_pos_bound; lia).
  rewrite Z.add_0_r.
  replace (8 * Z.of_nat (m - n)) with (8 + 8 * Z.of_nat (m - S n)) by lia.
  rewrite Z.pow_add_r by lia. change (2 ^ 8) with 256.
  rewrite Z.rem_mul_r by (try apply Z.pow_nonzero; lia).
  rewrite Z.mul_comm, Z.mod_add by lia. now rewrite Z.mod_mod by lia.
Qed.

Lemma be_bytes_value l : be_bytes (length l) (be_value l) = l.
Proof.
  induction l as [|b t IH]; [reflexivity|].
  cbn [be_bytes be_value length]. pose proof (be_value_range t) as Ht.
  set (p := 2 ^ (8 * Z.of_nat (length t))) in *.
  assert (0 < p) by (apply Z.pow_pos_nonneg; lia).
  f_equal.
  - apply byte_val_inj.
    rewrite byte_val_of, Z.shiftr_div_pow2, Z.shiftl_mul_pow2 by lia. fold p.
    rewrite Z.div_add_l, Z.div_small by lia. rewrite Z.add_0_r.
    apply Z.mod_small, byte_val_range.
  - rewrite <- (be_bytes_mod _ (length t)), Z.shiftl_mul_pow2 by lia. fold p.
    rewrite Z.add_comm, Z.mod_add, Z.mod_small by lia. exact IH.
Qed.

(** Two's complement reading of a [w]-bit unsigned value. *)
Definition to_signed (w : Z) (u : Z) : Z :=
  if u <? 2 ^ (w - 1) then u else u - 2 ^ w.

Definition in_u (w v : Z) : Prop := 0 <= v < 2 ^ w.
Definition in_i (w v : Z) : Prop := - 2 ^ (w - 1) <= v < 2 ^ (w - 1).

Lemma pow2_half w : 0 < w -> 2 ^ w = 2 * 2 ^ (w - 1).
Proof. intros. rewrite <- Z.pow_succ_r by lia. f_equal. lia. Qed.

Lemma to_signed_mod w v : 0 < w -> in_i w v -> to_signed w (v mod 2 ^ w) = v.
Proof.
  intros Hw Hv. unfold to_signed, in_i in *. pose proof (pow2_half w Hw).
  assert (0 < 2 ^ (w - 1)) by (apply Z.pow_pos_nonneg; lia).
  destruct (Z.leb_spec 0 v).
  - rewrite Z.mod_small by lia. destruct (Z.ltb_spec v (2 ^ (w - 1))); lia.
  - rewrite <- (Z.mod_add v 1), Z.mod_small by lia.
    destruct (Z.ltb_spec (v + 1 * 2 ^ w) (2 ^ (w - 1))); lia.
Qed.

Lemma mod_to_signed w u : 0 < w -> in_u w u -> to_signed w u mod 2 ^ w = u.
Proof.
  intros Hw Hu. unfold to_signed, in_u in *.
  destruct (u <? _); [apply Z.mod_small; lia|].
  replace (u - 2 ^ w) with (u + (-1) * 2 ^ w) by ring.
  rewrite Z.mod_add by lia. apply Z.mod_small; lia.
Qed.

Lemma to_signed_range w u : 0 < w -> in_u w u -> in_i w (to_signed w u).
Proof.
  intros Hw Hu. unfold to_signed, in_u, in_i in *. pose proof (pow2_half w Hw).
  destruct (Z.ltb_spec u (2 ^ (w - 1))); lia.
Qed.

(** Largest [usize] (64-bit targets), [u32], [i32] and [u16] values. *)
Definition USIZE_MAX : Z := 2 ^ 64 - 1.
Definition U64_MAX : Z := 2 ^ 64 - 1.
Definition U32_MAX : Z := 2 ^ 32 - 1.
Definition I32_MAX : Z := 2 ^ 31 - 1.
Definition U16_MAX : Z := 2 ^ 16 - 1.

(** [slice.len()] as a [usize]. *)
Definition len {A} (l : list A) : Z := Z.of_nat (length l).

(** [usize::checked_add], [checked_mul] and [saturating_add]. *)
Definition checked_add (a b : Z) : option Z :=
  if a + b <=? USIZE_MAX then Some (a + b) else None.
Definition checked_mul (a b : Z) : option Z :=
  if a * b <=? USIZE_MAX then Some (a * b) else None.
Definition saturating_add (max a b : Z) : Z := Z.min max (a + b).

Lemma len_nonneg {A} (l : list A) : 0 <= len l.
Proof. unfold len. lia. Qed.

Lemma len_app {A} (l k : list A) : len (l ++ k) = len l + len k.
Proof. unfold len. rewrite length_app. lia. Qed.

Lemma len_cons {A} (x : A) (l : list A) : len (x :: l) = 1 + len l.
Proof. unfold len. simpl. lia. Qed.

(** ** Lexicographic order on byte strings ([Ord] for [Bytes]) *)

Fixpoint bytes_cmp (a b : bytes) : comparison :=
  match a, b with
  | [], [] => Eq
  | [], _ => Lt
  | _, [] => Gt
  | x :: a', y :: b' =>
      match byte_val x ?= byte_val y with
      | Eq => bytes_cmp a' b'
      | c => c
      end
  end.

Definition bytes_lt (a b : bytes) : Prop := bytes_cmp a b = Lt.

Lemma bytes_cmp_eq a b : bytes_cmp a b = Eq <-> a = b.
Proof.
  revert b; induction a as [|x a IH]; intros [|y b]; simpl; try easy.
  destruct (Z.compare_spec (byte_val x) (byte_val y)) as [H|H|H]; split; intros E;
    try discriminate.
  - apply byte_val_inj in H. apply IH in E. congruence.
  - apply IH. congruence.
  - simplify_eq. lia.
  - simplify_eq. lia.
Qed.

Lemma bytes_cmp_antisym a b : bytes_cmp b a = CompOpp (bytes_cmp a b).
Proof.
  revert b; induction a as [|x a IH]; intros [|y b]; simpl; try easy.
  rewrite (Z.compare_antisym (byte_val x)), IH.
  destruct (byte_val x ?= byte_val y); reflexivity.
Qed.

Lemma bytes_lt_trans a b c : bytes_lt a b -> bytes_lt b c -> bytes_lt a c.
Proof.
  unfold bytes_lt. revert b c; induction a as [|x a IH]; intros [|y b] [|z c]; simpl; try easy.
  destruct (Z.compare_spec (byte_val x) (byte_val y)),
           (Z.compare_spec (byte_val y) (byte_val z)),
           (Z.compare_spec (byte_val x) (byte_val z)); intros; try easy; try lia; eauto.
Qed.

(** ** Proof automation *)

Create HintDb pgwire.

(** Open every [let?] of a hypothesis that equates it with [Ok]. *)
Ltac inv_ok :=
  repeat match goal with
  | H : Ok _ = Ok _ |- _ => injection H as H
  | H : Err _ = Ok _ |- _ => discriminate H
  | H : Ok _ = Err _ |- _ => discriminate H
  | H : Panic = Ok _ |- _ => discriminate H
  | H : match ?c with Ok _ => _ | Err _ => _ | Panic => _ end = Ok _ |- _ =>
      let E := fresh "E" in destruct c eqn:E; [|discriminate H|discriminate H]
  | H : (let (_, _) := ?p in _) = Ok _ |- _ => destruct p
  | H : (_, _) = (_, _) |- _ => injection H as H
  end; simplify_eq/=.

Ltac deex :=
  repeat match goal with
  | H : exists x, _ |- _ => let y := fresh x in destruct H as [y H]
  | H : _ /\ _ |- _ => destruct H
  end.
