(* ===== verification/OrdMap.v ===== *)
(** [BTreeMap<Bytes, Bytes>] as a key-sorted association list: the iteration
    order of the map is the order of the list. *)

From Stdlib Require Import ZArith Lia Sorting.Sorted Sorting.Permutation.
From Stdlib Require Import Init.Byte.
From stdpp Require Import prelude.
From S2P Require Import Prelude.

Abbreviation BTreeMap := (list (bytes * bytes)).

(** [BTreeMap::insert] returns the replaced value, if any. *)
Fixpoint btree_insert (k v : bytes) (m : BTreeMap) : option bytes * BTreeMap :=
  match m with
  | [] => (None, [(k, v)])
  | (k', v') :: m' =>
      match bytes_cmp k k' with
      | Lt => (None, (k, v) :: m)
      | Eq => (Some v', (k, v) :: m')
      | Gt => let (old, m'') := btree_insert k v m' in (old, (k', v') :: m'')
      end
  end.

Fixpoint btree_get (k : bytes) (m : BTreeMap) : option bytes :=
  match m with
  | [] => None
  | (k', v') :: m' => if decide (k = k') then Some v' else btree_get k m'
  end.

Definition key_lt (p q : bytes * bytes) : Prop := bytes_lt p.1 q.1.

(** The representation invariant: keys strictly increase. *)
Definition btree_sorted (m : BTreeMap) : Prop := StronglySorted key_lt m.

Lemma bytes_lt_irrefl k : ~ bytes_lt k k.
Proof. unfold bytes_lt. now rewrite (proj2 (bytes_cmp_eq k k) eq_refl). Qed.

Lemma key_lt_trans p q r : key_lt p q -> key_lt q r -> key_lt p r.
Proof. apply bytes_lt_trans. Qed.

Lemma bytes_gt_lt a b : bytes_cmp a b = Gt -> bytes_lt b a.
Proof. unfold bytes_lt. rewrite (bytes_cmp_antisym a b). now intros ->. Qed.

Lemma btree_insert_Forall P k v m :
  P (k, v) -> Forall P m -> Forall P (btree_insert k v m).2.
Proof.
  intros Hp. induction m as [|[k' v'] m IH]; intros Hm; simpl; [now constructor|].
  inversion Hm; subst. destruct (bytes_cmp k k'); simpl; [now constructor..|].
  destruct (btree_insert k v m); simpl in *. constructor; auto.
Qed.

Lemma btree_insert_sorted k v m : btree_sorted m -> btree_sorted (btree_insert k v m).2.
Proof.
  induction 1 as [|[k' v'] m Hs IH Hf]; simpl; [repeat constructor|].
  destruct (bytes_cmp k k') eqn:C; simpl.
  - apply bytes_cmp_eq in C as ->. constructor; [done|].
    eapply Forall_impl; [exact Hf|]. intros []; auto.
  - constructor; [now constructor|]. constructor; [exact C|].
    eapply Forall_impl; [exact Hf|]. intros p. now apply key_lt_trans.
  - destruct (btree_insert k v m) as [old m'] eqn:E. simpl in *. constructor; [done|].
    change m' with (old, m').2. rewrite <- E. apply btree_insert_Forall; [|done].
    now apply bytes_gt_lt.
Qed.

Lemma btree_get_notin k m : Forall (fun p => bytes_lt k p.1) m -> btree_get k m = None.
Proof.
  induction 1 as [|[k' v'] m Hk Hm IH]; simpl; [done|].
  rewrite decide_False; [done|]. intros ->. now apply bytes_lt_irrefl in Hk.
Qed.

Lemma btree_get_insert j k v m : btree_sorted m ->
  btree_get j (btree_insert k v m).2 = if decide (j = k) then Some v else btree_get j m.
Proof.
  induction 1 as [|[k' v'] m Hs IH Hf]; simpl; [done|].
  destruct (bytes_cmp k k') eqn:C; simpl.
  - apply bytes_cmp_eq in C as ->. repeat case_decide; congruence.
  - repeat case_decide; try congruence.
  - destruct (btree_insert k v m) as [old m'] eqn:E. simpl in *. rewrite IH.
    repeat case_decide; subst; try done.
    now rewrite (proj2 (bytes_cmp_eq _ _) eq_refl) in C.
Qed.

(** Inserting a key above every stored key appends. *)
Lemma btree_insert_last k v m :
  Forall (fun p => bytes_lt p.1 k) m -> btree_insert k v m = (None, m ++ [(k, v)]).
Proof.
  induction 1 as [|[k' v'] m Hk Hm IH]; simpl; [done|].
  simpl in Hk. unfold bytes_lt in Hk. rewrite (bytes_cmp_antisym k' k), Hk. simpl. now rewrite IH.
Qed.

(** A fresh insertion permutes the entries; a refused one reports the key. *)
Lemma btree_insert_perm k v m m' :
  btree_insert k v m = (None, m') -> Permutation m' ((k, v) :: m) .
Proof.
  revert m'; induction m as [|[k' v'] m IH]; intros m' H; simpl in H; [now simplify_eq|].
  destruct (bytes_cmp k k'); simplify_eq; [done|].
  destruct (btree_insert k v m) as [old m''] eqn:E. simplify_eq.
  rewrite (IH _ eq_refl). apply perm_swap.
Qed.

(** Sorted maps with the same entries are the same list. *)
Lemma btree_perm_eq m m' : btree_sorted m -> btree_sorted m' -> Permutation m m' -> m = m'.
Proof.
  intros Hs. revert m'. induction Hs as [|p m Hs IH Hf]; intros m' Hs' Hp.
  - now apply Permutation_nil in Hp.
  - destruct m' as [|q m']; [now apply Permutation_sym, Permutation_nil in Hp|].
    inversion Hs' as [|? ? Hs'' Hf']; subst.
    assert (p = q) as ->.
    { assert (List.In q (p :: m)) as Hq by (rewrite Hp; now left).
      assert (List.In p (q :: m')) as Hpin by (rewrite <- Hp; now left).
      destruct Hq as [|Hq]; [done|]. destruct Hpin as [|Hpin]; [done|].
      rewrite List.Forall_forall in Hf, Hf'. specialize (Hf _ Hq). specialize (Hf' _ Hpin).
      exfalso. apply (bytes_lt_irrefl p.1). eapply bytes_lt_trans; [exact Hf|exact Hf']. }
    f_equal. apply IH; [done|]. now apply Permutation_cons_inv in Hp.
Qed.

(** A key that is not stored is inserted without replacing anything. *)
Lemma btree_insert_fresh k v m :
  k ∉ m.*1 -> exists m', btree_insert k v m = (None, m').
Proof.
  induction m as [|[k' v'] m IH]; intros Hk; simpl; [eauto|].
  apply not_elem_of_cons in Hk as [Hne Hk]. destruct (bytes_cmp k k') eqn:C; [|eauto|].
  - apply bytes_cmp_eq in C. easy.
  - destruct (IH Hk) as [m' ->]. eauto.
Qed.

Lemma btree_sorted_NoDup m : btree_sorted m -> NoDup m.*1.
Proof.
  induction 1 as [|p m Hs IH Hf]; simpl; constructor; [|done].
  rewrite list_elem_of_fmap. intros (q & E & Hq). rewrite Forall_forall in Hf.
  specialize (Hf _ Hq). unfold key_lt in Hf. rewrite E in Hf. now apply bytes_lt_irrefl in Hf.
Qed.
