(* ===== verification/Wire.v ===== *)
(** Wire primitives of src/codec.rs: the [bytes] accessors the codec uses, the
    [take_*]/[put_*] helpers built on them, and the interface [WireFormat] that
    a pair of a writer and a reader promises to the message codecs. *)

From Stdlib Require Import ZArith Lia String Ascii.
From Stdlib Require Import Init.Byte Strings.Byte.
From stdpp Require Import prelude.
From S2P Require Import Prelude.

(** ** Buffers

    [Bytes] and [BytesMut] are byte lists; a cursor read removes a prefix and
    panics when the buffer is too short, an append extends the end. *)

Definition get_uint (n : nat) (body : bytes) : io (Z * bytes) :=
  if (length body <? n)%nat then Panic
  else Ok (be_value (take n body), drop n body).

Definition get_int (n : nat) (body : bytes) : io (Z * bytes) :=
  let? (u, body) := get_uint n body in
  Ok (to_signed (8 * Z.of_nat n) u, body).

Definition get_u8 (body : bytes) : io (byte * bytes) :=
  match body with [] => Panic | b :: rest => Ok (b, rest) end.

Definition split_to (n : nat) (body : bytes) : io (bytes * bytes) :=
  if (length body <? n)%nat then Panic else Ok (take n body, drop n body).

Definition advance (n : nat) (body : bytes) : io bytes :=
  if (length body <? n)%nat then Panic else Ok (drop n body).

Definition put_u8 (b : byte) (body : bytes) : bytes := body ++ [b].
Definition put_uint (n : nat) (v : Z) (body : bytes) : bytes := body ++ be_bytes n v.

Definition put_u16 := put_uint 2.
Definition put_u32 := put_uint 4.
Definition put_u64 := put_uint 8.
Definition put_i16 := put_uint 2.
Definition put_i32 := put_uint 4.
Definition put_i64 := put_uint 8.

(** ** Errors *)

Definition invalid (m : string) : io_error := mkError InvalidData m.
Definition invalid_input (m : string) : io_error := mkError InvalidInput m.

(** [format!("{:02x}", b)] *)
Definition hex_digit (n : Z) : string :=
  match String.get (Z.to_nat n) "0123456789abcdef" with
  | Some a => String a EmptyString
  | None => EmptyString
  end.
Definition hex02 (b : byte) : string :=
  (hex_digit (byte_val b / 16) ++ hex_digit (byte_val b mod 16))%string.

Definition unknown_tag (direction : string) (tag : byte) : io_error :=
  mkError InvalidData ("unknown " ++ direction ++ " message tag 0x" ++ hex02 tag)%string.

(** ** Readers *)

Definition require (body : bytes) (length : nat) : io unit :=
  if len body <? Z.of_nat length then Err (invalid "truncated message body") else Ok tt.

Definition require_empty (body : bytes) : io unit :=
  match body with [] => Ok tt | _ :: _ => Err (invalid "trailing message bytes") end.

Definition take_u16 (body : bytes) : io (Z * bytes) :=
  let? _ := require body 2 in get_uint 2 body.
Definition take_i16 (body : bytes) : io (Z * bytes) :=
  let? _ := require body 2 in get_int 2 body.
Definition take_u32 (body : bytes) : io (Z * bytes) :=
  let? _ := require body 4 in get_uint 4 body.
Definition take_i32 (body : bytes) : io (Z * bytes) :=
  let? _ := require body 4 in get_int 4 body.

(** [body.iter().position(|byte| *byte == 0)] *)
Fixpoint position_nul (body : bytes) : option nat :=
  match body with
  | [] => None
  | b :: rest => if decide (b = x00) then Some O else S <$> position_nul rest
  end.

Definition take_cstr (body : bytes) : io (bytes * bytes) :=
  match position_nul body with
  | None => Err (invalid "unterminated string")
  | Some fin =>
      let? (value, body) := split_to fin body in
      let? body := advance 1 body in
      Ok (value, body)
  end.

Definition require_collection_bytes
    (count remaining minimum_item_len : Z) (description : string) : io unit :=
  match checked_mul count minimum_item_len with
  | None => Err (mkError InvalidData (description ++ " overflows message size"))
  | Some minimum_len =>
      if minimum_len >? remaining
      then Err (mkError InvalidData (description ++ " exceeds remaining message body"))
      else Ok tt
  end.

(** [for _ in 0..count { items.push(take(&mut body)?); }] *)
Fixpoint take_n {A} (take_item : bytes -> io (A * bytes)) (count : nat) (body : bytes)
    : io (list A * bytes) :=
  match count with
  | O => Ok ([], body)
  | S count =>
      let? (item, body) := take_item body in
      let? (items, body) := take_n take_item count body in
      Ok (item :: items, body)
  end.

(** The length-prefixed nullable value shared by [take_nullable] and the
    parameter loop of [decode_bind], which differ in the error text. *)
Definition take_optional (negative : string) (body : bytes) : io (option bytes * bytes) :=
  let? (length, body) := take_i32 body in
  if length =? -1 then Ok (None, body)
  else if length <? 0 then Err (invalid negative)
  else
    let? _ := require body (Z.to_nat length) in
    let? (value, body) := split_to (Z.to_nat length) body in
    Ok (Some value, body).

Definition take_nullable : bytes -> io (option bytes * bytes) :=
  take_optional "negative value length".

(** A [u16] item count, the check that the remaining body can hold that many
    items, and the loop: the shape of every counted field of the codec. *)
Definition take_counted {A} (take_item : bytes -> io (A * bytes)) (minimum_item_len : Z)
    (description : string) (body : bytes) : io (list A * bytes) :=
  let? (count, body) := take_u16 body in
  let? _ := require_collection_bytes count (len body) minimum_item_len description in
  take_n take_item (Z.to_nat count) body.

Definition take_i16_vec (body : bytes) : io (list Z * bytes) :=
  take_counted take_i16 2 "format count" body.

(** ** Writers *)

Definition put_count (count : Z) (body : bytes) : io bytes :=
  if count <=? U16_MAX then Ok (put_u16 count body)
  else Err (invalid_input "message item count exceeds u16").

Definition put_cstr (value : bytes) (body : bytes) : io bytes :=
  if decide (x00 ∈ value) then Err (invalid_input "message string contains a NUL byte")
  else Ok (put_u8 x00 (body ++ value)).

(** [for item in items { put(item, &mut body)?; }] *)
Fixpoint put_all {A} (put_item : A -> bytes -> io bytes) (items : list A) (body : bytes) : io bytes :=
  match items with
  | [] => Ok body
  | item :: items => let? body := put_item item body in put_all put_item items body
  end.

Definition put_optional (too_large : string) (value : option bytes) (body : bytes) : io bytes :=
  match value with
  | None => Ok (put_i32 (-1) body)
  | Some value =>
      if len value <=? I32_MAX then Ok (put_i32 (len value) body ++ value)
      else Err (invalid_input too_large)
  end.

Definition put_nullable : option bytes -> bytes -> io bytes := put_optional "value is too large".

(** [put_count(items.len(), &mut body)?] followed by the loop over the items. *)
Definition put_counted {A} (put_item : A -> bytes -> io bytes) (items : list A) (body : bytes)
    : io bytes :=
  let? body := put_count (len items) body in
  put_all put_item items body.

Definition put_i16_vec (values : list Z) (body : bytes) : io bytes :=
  put_counted (fun value body => Ok (put_i16 value body)) values body.

(** ** The interface between primitives and message codecs *)

(** [put] appends exactly [w] for [v], whatever the buffer holds. *)
Definition writes {A} (put : A -> bytes -> io bytes) (v : A) (w : bytes) : Prop :=
  forall b, put v b = Ok (b ++ w).

(** A writer only appends, and what it appends depends on the value alone. *)
Class WireWriter {A} (put : A -> bytes -> io bytes) : Prop :=
  wire_put v b b' : put v b = Ok b' -> exists w, b' = b ++ w /\ writes put v w.

(** A reader inverts the writer on [typed] values, consumes exactly what the
    writer would have produced, and never panics; [min] bounds the encoding of
    an item from below. *)
Class WireFormat {A} (put : A -> bytes -> io bytes) (read : bytes -> io (A * bytes))
    (typed : A -> Prop) (min : nat) : Prop := {
  wire_writer : WireWriter put;
  wire_put_read v w rest : typed v -> writes put v w -> read (w ++ rest) = Ok (v, rest);
  wire_read_put bs v rest :
    read bs = Ok (v, rest) -> typed v /\ exists w, bs = w ++ rest /\ writes put v w;
  wire_min v w : writes put v w -> (min <= length w)%nat;
  wire_no_panic bs : read bs <> Panic
}.

Lemma writes_inj {A} (put : A -> bytes -> io bytes) v w w' :
  writes put v w -> writes put v w' -> w = w'.
Proof. intros H H'. specialize (H []). specialize (H' []). simpl in *. congruence. Qed.

Lemma writes_append {A} (f : A -> bytes -> bytes) v w :
  writes (fun v b => Ok (f v b)) v w -> forall b, f v b = b ++ w.
Proof. intros H b. specialize (H b). now inv_ok. Qed.

(** *** Integers *)

Lemma get_uint_be n (l rest : bytes) : length l = n -> get_uint n (l ++ rest) = Ok (be_value l, rest).
Proof.
  intros <-. unfold get_uint. rewrite length_app.
  destruct (Nat.ltb_spec (length l + length rest) (length l)); [lia|].
  now rewrite take_app_length, drop_app_length.
Qed.

Lemma get_uint_inv n bs v rest :
  get_uint n bs = Ok (v, rest) ->
  exists l, bs = l ++ rest /\ length l = n /\ v = be_value l.
Proof.
  unfold get_uint. destruct (Nat.ltb_spec (length bs) n); intros; [discriminate|]. inv_ok.
  exists (take n bs). now rewrite take_drop, length_take_le by lia.
Qed.

Lemma require_ok body n : require body n = Ok tt <-> (n <= length body)%nat.
Proof. unfold require, len. destruct (Z.ltb_spec (Z.of_nat (length body)) (Z.of_nat n)); split; try easy; lia. Qed.

Lemma require_cases body n :
  ((n <= length body)%nat /\ require body n = Ok tt) \/
  ((length body < n)%nat /\ require body n = Err (invalid "truncated message body")).
Proof. unfold require, len. destruct (Z.ltb_spec (Z.of_nat (length body)) (Z.of_nat n)); [right|left]; split; auto; lia. Qed.

Lemma get_uint_no_panic n body : (n <= length body)%nat -> get_uint n body <> Panic.
Proof. unfold get_uint. destruct (Nat.ltb_spec (length body) n); [lia|easy]. Qed.

Section Integers.
Variable n : nat.
Hypothesis n_pos : (0 < n)%nat.

Definition read_uint (body : bytes) : io (Z * bytes) :=
  let? _ := require body n in get_uint n body.
Definition read_int (body : bytes) : io (Z * bytes) :=
  let? _ := require body n in get_int n body.

Lemma read_uint_app l rest : length l = n -> read_uint (l ++ rest) = Ok (be_value l, rest).
Proof.
  intros H. unfold read_uint.
  rewrite (proj2 (require_ok _ _)) by (rewrite length_app; lia). now apply get_uint_be.
Qed.

Lemma read_uint_inv bs v rest : read_uint bs = Ok (v, rest) ->
  exists l, bs = l ++ rest /\ length l = n /\ v = be_value l.
Proof. unfold read_uint. intros H. inv_ok. now apply get_uint_inv. Qed.

Lemma read_uint_no_panic bs : read_uint bs <> Panic.
Proof.
  unfold read_uint. destruct (require_cases bs n) as [[H ->]|[H ->]]; [|easy].
  now apply get_uint_no_panic.
Qed.

Lemma read_int_eq bs : read_int bs = (let? (u, rest) := read_uint bs in Ok (to_signed (8 * Z.of_nat n) u, rest)).
Proof. unfold read_int, read_uint, get_int. now destruct (require bs n). Qed.

Lemma writes_uint v w : writes (fun v b => Ok (put_uint n v b)) v w <-> w = be_bytes n v.
Proof.
  unfold writes, put_uint. split; [|intros ->; easy].
  intros H. specialize (H []). simpl in H. now inv_ok.
Qed.

#[export] Instance uint_writer : WireWriter (fun v b => Ok (put_uint n v b)).
Proof. intros v b b' H. inv_ok. exists (be_bytes n v). now rewrite writes_uint. Qed.

#[export] Instance uint_format :
  WireFormat (fun v b => Ok (put_uint n v b)) read_uint (in_u (8 * Z.of_nat n)) n.
Proof.
  split.
  - apply uint_writer.
  - intros v w rest Hv ->%writes_uint. rewrite read_uint_app by apply length_be_bytes.
    rewrite be_value_bytes, Z.mod_small by apply Hv. reflexivity.
  - intros bs v rest (l & -> & Hl & ->)%read_uint_inv. split.
    + red. rewrite <- Hl. apply be_value_range.
    + exists l. rewrite writes_uint. split; [done|]. rewrite <- Hl. symmetry. apply be_bytes_value.
  - intros v w ->%writes_uint. now rewrite length_be_bytes.
  - apply read_uint_no_panic.
Qed.

#[export] Instance int_format :
  WireFormat (fun v b => Ok (put_uint n v b)) read_int (in_i (8 * Z.of_nat n)) n.
Proof.
  split.
  - apply uint_writer.
  - intros v w rest Hv ->%writes_uint.
    rewrite read_int_eq, read_uint_app by apply length_be_bytes.
    rewrite be_value_bytes, to_signed_mod by (try apply Hv; lia). reflexivity.
  - intros bs v rest H. rewrite read_int_eq in H. inv_ok.
    apply read_uint_inv in E as (l & -> & Hl & ->).
    assert (in_u (8 * Z.of_nat n) (be_value l)) by (red; rewrite <- Hl; apply be_value_range).
    split; [apply to_signed_range; [lia|done]|].
    exists l. rewrite writes_uint. split; [done|].
    rewrite <- (be_bytes_mod _ n), mod_to_signed by (lia || done).
    rewrite <- Hl. symmetry. apply be_bytes_value.
  - intros v w ->%writes_uint. now rewrite length_be_bytes.
  - intros bs. rewrite read_int_eq. pose proof (read_uint_no_panic bs).
    destruct (read_uint bs) as [[]| |]; easy.
Qed.
End Integers.

#[export] Instance u16_writer : WireWriter (fun v b => Ok (put_u16 v b)).
Proof. apply uint_writer. Qed.
#[export] Instance i16_writer : WireWriter (fun v b => Ok (put_i16 v b)).
Proof. apply uint_writer. Qed.
#[export] Instance u32_writer : WireWriter (fun v b => Ok (put_u32 v b)).
Proof. apply uint_writer. Qed.
#[export] Instance i32_writer : WireWriter (fun v b => Ok (put_i32 v b)).
Proof. apply uint_writer. Qed.
#[export] Instance u64_writer : WireWriter (fun v b => Ok (put_u64 v b)).
Proof. apply uint_writer. Qed.
#[export] Instance i64_writer : WireWriter (fun v b => Ok (put_i64 v b)).
Proof. apply uint_writer. Qed.

#[export] Instance u16_format : WireFormat (fun v b => Ok (put_u16 v b)) take_u16 (in_u 16) 2.
Proof. apply (uint_format 2); lia. Qed.
#[export] Instance i16_format : WireFormat (fun v b => Ok (put_i16 v b)) take_i16 (in_i 16) 2.
Proof. apply (int_format 2). lia. Qed.
#[export] Instance u32_format : WireFormat (fun v b => Ok (put_u32 v b)) take_u32 (in_u 32) 4.
Proof. apply (uint_format 4); lia. Qed.
#[export] Instance i32_format : WireFormat (fun v b => Ok (put_i32 v b)) take_i32 (in_i 32) 4.
Proof. apply (int_format 4). lia. Qed.

Lemma take_u16_be v rest : in_u 16 v -> take_u16 (be_bytes 2 v ++ rest) = Ok (v, rest).
Proof. intros Hv. now apply (wire_put_read (WireFormat := u16_format)). Qed.
Lemma take_i16_be v rest : in_i 16 v -> take_i16 (be_bytes 2 v ++ rest) = Ok (v, rest).
Proof. intros Hv. now apply (wire_put_read (WireFormat := i16_format)). Qed.
Lemma take_u32_be v rest : in_u 32 v -> take_u32 (be_bytes 4 v ++ rest) = Ok (v, rest).
Proof. intros Hv. now apply (wire_put_read (WireFormat := u32_format)). Qed.
Lemma take_i32_be v rest : in_i 32 v -> take_i32 (be_bytes 4 v ++ rest) = Ok (v, rest).
Proof. intros Hv. now apply (wire_put_read (WireFormat := i32_format)). Qed.

(** *** C strings *)

Lemma position_nul_app v rest : x00 ∉ v -> position_nul (v ++ x00 :: rest) = Some (length v).
Proof.
  induction v as [|b v IH]; intros Hv; simpl; [done|].
  apply not_elem_of_cons in Hv as [Hb Hv].
  rewrite decide_False by congruence. now rewrite IH.
Qed.

Lemma position_nul_inv bs fin : position_nul bs = Some fin ->
  exists v rest, bs = v ++ (x00 :: rest) /\ x00 ∉ v /\ length v = fin.
Proof.
  revert fin; induction bs as [|b bs IH]; intros fin H; simpl in H; [done|].
  case_decide; simplify_eq.
  - exists [], bs. split; [done|]. split; [apply not_elem_of_nil|done].
  - apply fmap_Some in H as (m & Hm & ->).
    destruct (IH _ Hm) as (v & rest & -> & Hv & <-).
    exists (b :: v), rest. rewrite not_elem_of_cons. repeat split; auto.
Qed.

Lemma take_cstr_app v rest : x00 ∉ v -> take_cstr (v ++ x00 :: rest) = Ok (v, rest).
Proof.
  intros Hv. unfold take_cstr, split_to, advance. rewrite position_nul_app, length_app by done.
  destruct (Nat.ltb_spec (length v + length (x00 :: rest)) (length v)); [lia|].
  now rewrite take_app_length, drop_app_length.
Qed.

Lemma take_cstr_inv bs v rest : take_cstr bs = Ok (v, rest) -> bs = v ++ x00 :: rest /\ x00 ∉ v.
Proof.
  intros H. pose proof H as H'. unfold take_cstr in H'.
  destruct (position_nul bs) as [fin|] eqn:E; [|done].
  apply position_nul_inv in E as (u & r & -> & Hu & _).
  rewrite take_cstr_app in H by done. now inv_ok.
Qed.

Lemma take_cstr_no_panic bs : take_cstr bs <> Panic.
Proof.
  unfold take_cstr. destruct (position_nul bs) as [fin|] eqn:E; [|done].
  apply position_nul_inv in E as (u & r & -> & Hu & <-).
  unfold split_to, advance. rewrite length_app.
  destruct (Nat.ltb_spec (length u + length (x00 :: r)) (length u)); [lia|].
  now rewrite drop_app_length.
Qed.

Lemma put_cstr_inv v b b' : put_cstr v b = Ok b' -> b' = b ++ v ++ [x00] /\ x00 ∉ v.
Proof.
  unfold put_cstr, put_u8. case_decide; intros; [done|]. inv_ok.
  now rewrite <- app_assoc.
Qed.

Lemma writes_cstr v w : writes put_cstr v w <-> w = v ++ [x00] /\ x00 ∉ v.
Proof.
  split.
  - intros H. specialize (H []). apply put_cstr_inv in H. simpl in H. tauto.
  - intros [-> Hv] b. unfold put_cstr, put_u8. rewrite decide_False by done. now rewrite <- app_assoc.
Qed.

#[export] Instance cstr_writer : WireWriter put_cstr.
Proof. intros v b b' [-> Hv]%put_cstr_inv. exists (v ++ [x00]). now rewrite writes_cstr. Qed.

#[export] Instance cstr_format : WireFormat put_cstr take_cstr (fun _ => True) 1.
Proof.
  split.
  - apply _.
  - intros v w rest _ [-> Hv]%writes_cstr. rewrite <- app_assoc. now apply take_cstr_app.
  - intros bs v rest [-> Hv]%take_cstr_inv. split; [done|]. exists (v ++ [x00]).
    rewrite writes_cstr, <- app_assoc. easy.
  - intros v w [-> _]%writes_cstr. rewrite length_app. simpl. lia.
  - apply take_cstr_no_panic.
Qed.

(** *** Length-prefixed nullable values *)

(** A Rust slice never exceeds [isize::MAX] bytes; no range is needed here. *)
Lemma writes_optional m v w : writes (put_optional m) v w <->
  match v with
  | None => w = be_bytes 4 (-1)
  | Some u => len u <= I32_MAX /\ w = be_bytes 4 (len u) ++ u
  end.
Proof.
  unfold writes, put_optional. destruct v as [u|].
  - destruct (Z.leb_spec (len u) I32_MAX) as [Hu|Hu].
    + unfold put_i32, put_uint. split.
      * intros H. specialize (H []). inv_ok. easy.
      * intros [_ ->] b. now rewrite app_assoc.
    + split; [intros H; specialize (H []); easy|lia].
  - unfold put_i32, put_uint. split; [intros H; specialize (H []); now inv_ok|now intros ->].
Qed.

#[export] Instance optional_writer m : WireWriter (put_optional m).
Proof.
  intros [u|] b b' H; unfold put_optional in H.
  - destruct (Z.leb_spec (len u) I32_MAX); [|done]. inv_ok.
    exists (be_bytes 4 (len u) ++ u). rewrite writes_optional.
    unfold put_i32, put_uint. now rewrite app_assoc.
  - inv_ok. exists (be_bytes 4 (-1)). now rewrite writes_optional.
Qed.

Lemma optional_format m m' :
  WireFormat (put_optional m) (take_optional m') (fun _ => True) 4.
Proof.
  split.
  - apply _.
  - intros [u|] w rest _ Hw%writes_optional; unfold take_optional.
    + destruct Hw as [Hu ->]. rewrite <- app_assoc. pose proof (len_nonneg u).
      unfold I32_MAX in Hu.
      rewrite take_i32_be by (red; change (2 ^ (32 - 1)) with (2 ^ 31); lia).
      destruct (Z.eqb_spec (len u) (-1)); [lia|]. destruct (Z.ltb_spec (len u) 0); [lia|].
      unfold len. rewrite Nat2Z.id.
      rewrite (proj2 (require_ok _ _)) by (rewrite length_app; lia).
      unfold split_to. rewrite length_app.
      destruct (Nat.ltb_spec (length u + length rest) (length u)); [lia|].
      now rewrite take_app_length, drop_app_length.
    + subst w. now rewrite take_i32_be.
  - intros bs v rest H. split; [done|]. unfold take_optional in H. inv_ok.
    apply (wire_read_put (WireFormat := i32_format)) in E as (Hz & w & -> & Hw%(writes_uint 4)).
    destruct (Z.eqb_spec z (-1)); [inv_ok; eexists; now rewrite writes_optional|].
    destruct (Z.ltb_spec z 0); [done|]. inv_ok.
    unfold split_to in E0. destruct (Nat.ltb_spec (length l) (Z.to_nat z)); [done|]. inv_ok.
    exists (be_bytes 4 z ++ take (Z.to_nat z) l). rewrite writes_optional, <- app_assoc, take_drop.
    unfold len. rewrite length_take_le by lia. rewrite Z2Nat.id by lia.
    red in Hz. change (2 ^ (32 - 1)) with (2 ^ 31) in Hz. unfold I32_MAX. repeat split; lia.
  - intros [u|] w Hw%writes_optional; [destruct Hw as [_ ->]; rewrite length_app|subst];
      rewrite ?length_be_bytes; lia.
  - intros bs. unfold take_optional.
    pose proof (wire_no_panic (WireFormat := i32_format) bs).
    destruct (take_i32 bs) as [[z l]| |]; [|done|done].
    destruct (z =? -1); [done|]. destruct (Z.ltb_spec z 0); [done|].
    destruct (require_cases l (Z.to_nat z)) as [[Hl ->]|[Hl ->]]; [|done].
    unfold split_to. destruct (Nat.ltb_spec (length l) (Z.to_nat z)); [lia|done].
Qed.

#[export] Instance nullable_format : WireFormat put_nullable take_nullable (fun _ => True) 4.
Proof. apply optional_format. Qed.

(** *** Single bytes *)

Definition take_u8 (body : bytes) : io (byte * bytes) :=
  let? _ := require body 1 in get_u8 body.

Lemma take_u8_cons b bs : take_u8 (b :: bs) = Ok (b, bs).
Proof. unfold take_u8. rewrite (proj2 (require_ok _ _)) by (simpl; lia). reflexivity. Qed.

Lemma writes_u8 v w : writes (fun v b => Ok (put_u8 v b)) v w <-> w = [v].
Proof. unfold writes, put_u8. split; [intros H; specialize (H []); now inv_ok|now intros ->]. Qed.

#[export] Instance u8_writer : WireWriter (fun v b => Ok (put_u8 v b)).
Proof. intros v b b' H. inv_ok. exists [v]. now rewrite writes_u8. Qed.

#[export] Instance u8_format : WireFormat (fun v b => Ok (put_u8 v b)) take_u8 (fun _ => True) 1.
Proof.
  pose proof writes_u8 as Hw. split.
  - apply _.
  - intros v w rest _ ->%Hw. apply take_u8_cons.
  - intros [|b bs] v rest H; [done|]. rewrite take_u8_cons in H. inv_ok.
    split; [done|]. exists [v]. now rewrite Hw.
  - intros v w ->%Hw. simpl. lia.
  - intros [|b bs]; [done|]. now rewrite take_u8_cons.
Qed.

(** *** Sequences of items *)

Section Writers.
Context {A} {put : A -> bytes -> io bytes} `{!WireWriter put}.

Lemma put_all_writes vs b b' : put_all put vs b = Ok b' ->
  exists w, b' = b ++ w /\ writes (put_all put) vs w.
Proof.
  revert b; induction vs as [|v vs IH]; intros b H; simpl in H.
  - inv_ok. exists []. rewrite app_nil_r. split; [done|]. intros b. simpl. now rewrite app_nil_r.
  - inv_ok. apply wire_put in E as (w & -> & Hw). apply IH in H as (w' & -> & Hw').
    exists (w ++ w'). rewrite app_assoc. split; [done|].
    intros c. simpl. rewrite Hw, Hw'. now rewrite app_assoc.
Qed.

Lemma writes_all_cons v vs w : writes (put_all put) (v :: vs) w ->
  exists w1 w2, w = w1 ++ w2 /\ writes put v w1 /\ writes (put_all put) vs w2.
Proof.
  intros H. pose proof (H []) as H0. simpl in H0. inv_ok.
  apply wire_put in E as (w1 & -> & Hw1). apply put_all_writes in H0 as (w2 & -> & Hw2).
  exists w1, w2. easy.
Qed.

Lemma writes_all_nil w : writes (put_all put) [] w -> w = [].
Proof. intros H. specialize (H []). simpl in H. now inv_ok. Qed.

Lemma put_all_app vs vs' w w' : writes (put_all put) vs w -> writes (put_all put) vs' w' ->
  writes (put_all put) (vs ++ vs') (w ++ w').
Proof.
  revert w; induction vs as [|v vs IH]; intros w Hw Hw'.
  - now apply writes_all_nil in Hw as ->.
  - apply writes_all_cons in Hw as (w1 & w2 & -> & H1 & H2). intros b. simpl.
    rewrite H1, (IH _ H2 Hw'). now rewrite <- !app_assoc.
Qed.

Lemma put_count_inv n b b' : put_count n b = Ok b' -> n <= U16_MAX /\ b' = b ++ be_bytes 2 n.
Proof. unfold put_count. destruct (Z.leb_spec n U16_MAX); intros; [|done]. now inv_ok. Qed.

Lemma writes_counted vs w : writes (put_counted put) vs w <->
  len vs <= U16_MAX /\ exists w', w = be_bytes 2 (len vs) ++ w' /\ writes (put_all put) vs w'.
Proof.
  unfold writes at 1, put_counted. split.
  - intros H. specialize (H []). inv_ok. apply put_count_inv in E as [Hn ->].
    apply put_all_writes in H as (w' & -> & Hw'). split; [done|]. now exists w'.
  - intros (Hn & w' & -> & Hw') b. unfold put_count.
    destruct (Z.leb_spec (len vs) U16_MAX); [|lia]. rewrite Hw'.
    unfold put_u16, put_uint. now rewrite app_assoc.
Qed.

#[export] Instance counted_writer : WireWriter (put_counted put).
Proof.
  intros vs b b' H. unfold put_counted in H. inv_ok. apply put_count_inv in E as [Hn ->].
  apply put_all_writes in H as (w & -> & Hw). exists (be_bytes 2 (len vs) ++ w).
  rewrite writes_counted, app_assoc. eauto.
Qed.
End Writers.

Section Items.
Context {A} {put : A -> bytes -> io bytes} {read : bytes -> io (A * bytes)}
  {typed : A -> Prop} {min : nat} `{HF : !WireFormat put read typed min}.
#[local] Existing Instance wire_writer.

Lemma take_n_put vs w rest : Forall typed vs -> writes (put_all put) vs w ->
  take_n read (length vs) (w ++ rest) = Ok (vs, rest).
Proof.
  revert w; induction vs as [|v vs IH]; intros w Hvs Hw.
  - now apply writes_all_nil in Hw as ->.
  - apply writes_all_cons in Hw as (w1 & w2 & -> & H1 & H2).
    inversion Hvs as [|? ? Hv Hvs']; subst.
    simpl. rewrite <- app_assoc, (wire_put_read _ _ _ Hv H1), (IH _ Hvs' H2). reflexivity.
Qed.

Lemma take_n_inv n bs vs rest : take_n read n bs = Ok (vs, rest) ->
  length vs = n /\ Forall typed vs /\ exists w, bs = w ++ rest /\ writes (put_all put) vs w.
Proof.
  revert bs vs; induction n as [|n IH]; intros bs vs H; simpl in H.
  - inv_ok. repeat split; [constructor|]. exists []. split; [done|].
    intros b. simpl. now rewrite app_nil_r.
  - inv_ok. apply wire_read_put in E as (Hv & w & -> & Hw).
    apply IH in E0 as (Hn & Hvs & w' & -> & Hw').
    repeat split; [simpl; congruence|now constructor|].
    exists (w ++ w'). rewrite app_assoc. split; [done|].
    intros b. simpl. rewrite Hw, Hw'. now rewrite app_assoc.
Qed.

Lemma writes_all_min vs w : writes (put_all put) vs w -> (length vs * min <= length w)%nat.
Proof.
  revert w; induction vs as [|v vs IH]; intros w Hw; [simpl; lia|].
  apply writes_all_cons in Hw as (w1 & w2 & -> & H1 & H2).
  apply wire_min in H1. apply IH in H2. rewrite length_app. simpl. lia.
Qed.

Lemma take_n_no_panic n bs : take_n read n bs <> Panic.
Proof.
  revert bs; induction n as [|n IH]; intros bs; simpl; [done|].
  pose proof (wire_no_panic bs). destruct (read bs) as [[v r]| |]; [|done|done].
  specialize (IH r). destruct (take_n read n r) as [[]| |]; done.
Qed.

(** The count check accepts whatever the loop can read. *)
Lemma require_collection_fits vs w rest d :
  writes (put_all put) vs w -> len vs * Z.of_nat min <= USIZE_MAX ->
  require_collection_bytes (len vs) (len (w ++ rest)) (Z.of_nat min) d = Ok tt.
Proof.
  intros Hw Hmax. apply writes_all_min in Hw. unfold require_collection_bytes, checked_mul.
  destruct (Z.leb_spec (len vs * Z.of_nat min) USIZE_MAX); [|lia].
  rewrite len_app. unfold len in *. rewrite Z.gtb_ltb.
  destruct (Z.ltb_spec (Z.of_nat (length w) + Z.of_nat (length rest))
              (Z.of_nat (length vs) * Z.of_nat min)); [nia|done].
Qed.

Lemma counted_format (small : (min <= 1024)%nat) d :
  WireFormat (put_counted put) (take_counted read (Z.of_nat min) d) (Forall typed) 2.
Proof.
  split.
  - apply counted_writer.
  - intros vs w rest Hvs (Hn & w' & -> & Hw')%writes_counted. unfold take_counted.
    pose proof (len_nonneg vs). unfold U16_MAX in Hn.
    rewrite <- app_assoc, (wire_put_read (WireFormat := u16_format) (len vs) (be_bytes 2 (len vs)));
      [|red; lia|easy].
    rewrite (require_collection_fits _ _ _ _ Hw') by (unfold USIZE_MAX; nia).
    unfold len. rewrite Nat2Z.id. now apply take_n_put.
  - intros bs vs rest H. unfold take_counted in H. inv_ok.
    apply (wire_read_put (WireFormat := u16_format)) in E as (Hz & w & -> & Hw%(writes_uint 2)).
    apply take_n_inv in H as (Hn & Hvs & w' & -> & Hw'). split; [done|].
    assert (z = len vs) as -> by (unfold len; destruct Hz; lia).
    exists (w ++ w'). rewrite app_assoc, writes_counted. split; [done|].
    split; [destruct Hz; unfold U16_MAX; lia|]. exists w'. now subst.
  - intros vs w (_ & w' & -> & _)%writes_counted. rewrite length_app, length_be_bytes. lia.
  - intros bs. unfold take_counted. pose proof (wire_no_panic (WireFormat := u16_format) bs).
    destruct (take_u16 bs) as [[z r]| |]; [|done|done]. unfold require_collection_bytes.
    destruct (checked_mul _ _); [|done]. destruct (_ >? _); [done|]. apply take_n_no_panic.
Qed.
End Items.

#[export] Instance i16_vec_writer : WireWriter put_i16_vec.
Proof. apply counted_writer. Qed.

#[export] Instance nullable_writer : WireWriter put_nullable.
Proof. apply optional_writer. Qed.

#[export] Instance i16_vec_format : WireFormat put_i16_vec take_i16_vec (Forall (in_i 16)) 2.
Proof. apply (counted_format (min := 2)); [lia]. Qed.

#[export] Instance u32_vec_format d :
  WireFormat (put_counted (fun v b => Ok (put_u32 v b))) (take_counted take_u32 4 d)
    (Forall (in_u 32)) 2.
Proof. apply (counted_format (min := 4)); [lia]. Qed.

Lemma optional_vec_format m m' d :
  WireFormat (put_counted (put_optional m)) (take_counted (take_optional m') 4 d)
    (Forall (fun _ => True)) 2.
Proof. apply (counted_format (min := 4) (HF := optional_format m m')); [lia]. Qed.

#[export] Instance nullable_vec_format d :
  WireFormat (put_counted put_nullable) (take_counted take_nullable 4 d) (Forall (fun _ => True)) 2.
Proof. apply optional_vec_format. Qed.

(** ** Composing formats *)

Lemma require_empty_inv body u : require_empty body = Ok u -> body = [].
Proof. now destruct body. Qed.

(** Name the bytes an infallible append of the goal wrote. *)
Ltac wire_append f v b :=
  let w := fresh "w" in let Hb := fresh "Hb" in let Hw := fresh "Hw" in
  destruct (wire_put (put := fun x c => Ok (f x c)) v b _ eq_refl) as (w & Hb & Hw);
  rewrite Hb; clear Hb.

Ltac wire_appends :=
  repeat match goal with
  | |- context [put_u8 ?v ?b] => wire_append put_u8 v b
  | |- context [put_u16 ?v ?b] => wire_append put_u16 v b
  | |- context [put_i16 ?v ?b] => wire_append put_i16 v b
  | |- context [put_u32 ?v ?b] => wire_append put_u32 v b
  | |- context [put_i32 ?v ?b] => wire_append put_i32 v b
  | |- context [put_u64 ?v ?b] => wire_append put_u64 v b
  | |- context [put_i64 ?v ?b] => wire_append put_i64 v b
  end.

(** Replace every successful write in the context by the bytes it appended. *)
Ltac wire_writes :=
  repeat match goal with
  | E : ?f ?v ?b = Ok _ |- _ =>
      let w := fresh "w" in let Hw := fresh "Hw" in
      apply wire_put in E as (w & -> & Hw)
  end; wire_appends.

(** Open a chain of [let?] without simplifying its steps. *)
Ltac open_ok :=
  repeat match goal with
  | H : match ?c with Ok _ => _ | Err _ => _ | Panic => _ end = Ok _ |- _ =>
      let E := fresh "E" in destruct c eqn:E; [|discriminate H|discriminate H]
  | H : (let (_, _) := ?p in _) = Ok _ |- _ => destruct p
  end.

(** Replace every successful read in the context by the bytes it consumed. *)
Ltac wire_reads :=
  repeat match goal with
  | E : require_empty ?l = Ok _ |- _ => apply require_empty_inv in E as ->
  | E : _ ?l = Ok (_, _) |- _ =>
      let t := fresh "Ht" in let w := fresh "w" in let Hw := fresh "Hw" in
      apply wire_read_put in E as (t & w & -> & Hw)
  end.

(** Read back what was written, left to right. *)
Ltac wire_read_back :=
  rewrite ?app_nil_l, <- ?app_assoc;
  repeat match goal with
  | Hw : writes ?put ?v ?w |- context [?f (?w ++ ?rest)] =>
      rewrite (wire_put_read (put := put) (read := f) v w rest) by (first [eassumption | tauto | done]);
      clear Hw
  | Hw : writes ?put ?v ?w |- context [?f ?w] =>
      rewrite <- (app_nil_r w);
      rewrite (wire_put_read (put := put) (read := f) v w []) by (first [eassumption | tauto | done]);
      clear Hw
  end; cbn [require_empty].

(** Write again what was read, left to right. *)
Ltac wire_write_back :=
  repeat match goal with
  | Hw : writes ?put ?v ?w |- _ =>
      let Hb := fresh "Hb" in
      first [pose proof (writes_append _ _ _ Hw) as Hb; cbv beta in Hb | pose proof Hw as Hb];
      rewrite Hb; clear Hb Hw
  end; rewrite ?app_nil_l, ?app_nil_r, <- ?app_assoc.


Lemma require_empty_no_panic b : require_empty b <> Panic.
Proof. now destruct b. Qed.

Lemma require_no_panic b n : require b n <> Panic.
Proof. unfold require. now destruct (_ <? _). Qed.

(** A chain of readers does not panic when none of its steps does. *)
Ltac no_panic_step :=
  first [apply wire_no_panic | apply require_empty_no_panic | apply require_no_panic | eassumption].

Ltac no_panic :=
  repeat match goal with
  | |- Ok _ <> Panic => discriminate
  | |- Err _ <> Panic => discriminate
  | |- (let (_, _) := ?p in _) <> Panic => destruct p
  | |- match ?c with Ok _ => _ | Err _ => _ | Panic => _ end <> Panic =>
      let Hp := fresh "Hp" in
      assert (Hp : c <> Panic) by no_panic_step;
      destruct c; [clear Hp|discriminate|congruence]
  end.
