(* ===== verification/Frame.v ===== *)
(** Tagged framing: [Frame], [PgCodec] and [decode_frame] of src/codec.rs, and
    the [Direction] interface a message family implements. *)

From Stdlib Require Import ZArith Lia String.
From Stdlib Require Import Init.Byte.
From stdpp Require Import prelude.
From S2P Require Import Prelude Wire.

(** A tagged frame, without its length field. *)
Record Frame : Type := mkFrame { tag : byte; body : bytes }.

#[export] Instance Frame_eq_dec : EqDecision Frame.
Proof. solve_decision. Defined.

(** The message family of one direction of the connection. *)
Class Direction (Message : Type) : Type := {
  decode : Frame -> io Message;
  to_frame : Message -> io Frame
}.

(** What a direction promises to the framed stream: reconstruction inverts
    decoding on the nose, and decoding inverts the reconstruction of every
    message [canonical] accepts. *)
Class DirectionLaws (Message : Type) `{Direction Message} (canonical : Message -> Prop) : Prop := {
  decode_to_frame m f : canonical m -> to_frame m = Ok f -> decode f = Ok m;
  to_frame_decode f m : decode f = Ok m -> canonical m /\ to_frame m = Ok f;
  decode_no_panic f : decode f <> Panic
}.

Record PgCodec : Type := mkPgCodec { max_frame_len : Z }.

Definition MAX_PROTOCOL_FRAME_LEN : Z := I32_MAX + 1.
Definition DEFAULT_MAX_FRAME_LEN : Z := 16 * 1024 * 1024.

Definition PgCodec_default : PgCodec := mkPgCodec DEFAULT_MAX_FRAME_LEN.

Definition with_max_frame_len (max_frame_len : Z) : io PgCodec :=
  if negb ((5 <=? max_frame_len) && (max_frame_len <=? MAX_PROTOCOL_FRAME_LEN))
  then Err (mkError InvalidInput "frame limit is outside PostgreSQL's tagged-frame range")
  else Ok (mkPgCodec max_frame_len).

(** [decode_frame] returns its result and the source buffer it leaves. *)
Definition decode_frame (source : bytes) (max_frame_len : Z) : io (option Frame) * bytes :=
  if len source <? 5 then (Ok None, source)
  else
    let length := be_value (take 4 (drop 1 source)) in
    if length <? 4
    then (Err (invalid "message length is smaller than its length field"), source)
    else match checked_add length 1 with
    | None => (Err (invalid "message length overflow"), source)
    | Some frame_length =>
        if frame_length >? MAX_PROTOCOL_FRAME_LEN
        then (Err (invalid "message length exceeds PostgreSQL's signed int32 range"), source)
        else if frame_length >? max_frame_len
        then (Err (invalid "message exceeds configured frame limit"), source)
        else if len source <? frame_length then (Ok None, source)
        else match source with
        | [] => (Panic, source)
        | tag :: _ =>
            match split_to (Z.to_nat frame_length) source with
            | Ok (data, source) =>
                (let? body := advance 5 data in Ok (Some (mkFrame tag body)), source)
            | Err e => (Err e, source)
            | Panic => (Panic, source)
            end
        end
    end.

(** [Encoder::encode]: the destination buffer after appending the frame. *)
Definition PgCodec_encode (codec : PgCodec) (item : Frame) (destination : bytes) : io bytes :=
  match checked_add (len (body item)) 5 with
  | None => Err (invalid_input "frame too large")
  | Some frame_len =>
      if frame_len >? max_frame_len codec
      then Err (invalid_input "frame exceeds configured limit")
      else match checked_add (len (body item)) 4 with
      | Some length =>
          if length <=? U32_MAX
          then Ok (put_u32 length (put_u8 (tag item) destination) ++ body item)
          else Err (invalid_input "frame too large")
      | None => Err (invalid_input "frame too large")
      end
  end.

(** [Decoder::decode]: an error of the direction is wrapped with the tag. *)
Definition PgCodec_decode {Message} `{Direction Message} (codec : PgCodec) (source : bytes)
    : io (option Message) * bytes :=
  match decode_frame source (max_frame_len codec) with
  | (Ok None, source) => (Ok None, source)
  | (Ok (Some frame), source) =>
      (map_err (fun e => mkError (kind e)
                  ("message tag 0x" ++ hex02 (tag frame) ++ ": " ++ message e))
               (result_map Some (decode frame)), source)
  | (Err e, source) => (Err e, source)
  | (Panic, source) => (Panic, source)
  end.

(** ** Specification *)

(** The wire image of a frame. *)
Definition wire_image (f : Frame) : bytes :=
  tag f :: be_bytes 4 (len (body f) + 4) ++ body f.

(** A codec obtained from [default] or [with_max_frame_len]. *)
Definition codec_valid (codec : PgCodec) : Prop :=
  5 <= max_frame_len codec <= MAX_PROTOCOL_FRAME_LEN.

Lemma codec_default_valid : codec_valid PgCodec_default.
Proof. unfold codec_valid. vm_compute. split; discriminate. Qed.

Lemma with_max_frame_len_valid n codec : with_max_frame_len n = Ok codec -> codec_valid codec.
Proof.
  unfold with_max_frame_len, codec_valid. intros H.
  destruct (Z.leb_spec 5 n), (Z.leb_spec n MAX_PROTOCOL_FRAME_LEN); simpl in H; inv_ok; lia.
Qed.

Lemma len_wire_image f : len (wire_image f) = len (body f) + 5.
Proof. unfold wire_image. rewrite len_cons, len_app. unfold len at 1. rewrite length_be_bytes. lia. Qed.

Lemma encode_image codec f b b' : codec_valid codec ->
  PgCodec_encode codec f b = Ok b' <->
  b' = b ++ wire_image f /\ len (body f) + 5 <= max_frame_len codec.
Proof.
  intros [Hlo Hhi]. unfold PgCodec_encode, checked_add, MAX_PROTOCOL_FRAME_LEN, I32_MAX in *.
  pose proof (len_nonneg (body f)). unfold USIZE_MAX, U32_MAX in *.
  destruct (Z.leb_spec (len (body f) + 5) (2 ^ 64 - 1)); [|split; [done|lia]]. rewrite Z.gtb_ltb.
  destruct (Z.ltb_spec (max_frame_len codec) (len (body f) + 5)); [split; [done|lia]|].
  destruct (Z.leb_spec (len (body f) + 4) (2 ^ 64 - 1)); [|lia].
  destruct (Z.leb_spec (len (body f) + 4) (2 ^ 32 - 1)); [|lia].
  unfold put_u32, put_uint, put_u8, wire_image. rewrite <- !app_assoc. simpl.
  split; [intros; inv_ok; split; [done|lia]|now intros [-> _]].
Qed.

(** The header test of [decode_frame], read off any source of five bytes. *)
Lemma decode_frame_header (source : bytes) : 5 <= len source ->
  exists t h rest, source = t :: h ++ rest /\ length h = 4%nat /\
    take 4 (drop 1 source) = h.
Proof.
  unfold len. intros H. destruct source as [|t src]; simpl in H; [lia|].
  exists t, (take 4 src), (drop 4 src). rewrite take_drop. simpl. repeat split.
  rewrite length_take_le; lia.
Qed.

Lemma header_length_field (t : byte) (h rest : bytes) :
  length h = 4%nat -> take 4 (drop 1 (t :: h ++ rest)) = h.
Proof. intros Hh. change (drop 1 (t :: h ++ rest)) with (h ++ rest). now apply take_app_length'. Qed.

Lemma decode_frame_complete t h rest limit :
  length h = 4%nat -> 4 <= be_value h ->
  be_value h + 1 <= MAX_PROTOCOL_FRAME_LEN -> be_value h + 1 <= limit ->
  be_value h <= len rest + 4 ->
  decode_frame (t :: h ++ rest) limit =
    (Ok (Some (mkFrame t (take (Z.to_nat (be_value h - 4)) rest))),
     drop (Z.to_nat (be_value h - 4)) rest).
Proof.
  intros Hh H4 Hmax Hlim Hrest. unfold decode_frame.
  rewrite header_length_field by done.
  assert (Hl : len (t :: h ++ rest) = len rest + 5)
    by (rewrite len_cons, len_app; unfold len at 1; rewrite Hh; lia).
  rewrite Hl. pose proof (len_nonneg rest).
  destruct (Z.ltb_spec (len rest + 5) 5); [lia|]. destruct (Z.ltb_spec (be_value h) 4); [lia|].
  unfold checked_add, MAX_PROTOCOL_FRAME_LEN, I32_MAX, USIZE_MAX in *.
  destruct (Z.leb_spec (be_value h + 1) (2 ^ 64 - 1)); [|lia]. rewrite !Z.gtb_ltb.
  destruct (Z.ltb_spec (2 ^ 31 - 1 + 1) (be_value h + 1)); [lia|].
  destruct (Z.ltb_spec limit (be_value h + 1)); [lia|].
  destruct (Z.ltb_spec (len rest + 5) (be_value h + 1)); [lia|].
  unfold split_to. unfold len in Hl, Hrest.
  destruct (Nat.ltb_spec (length (t :: h ++ rest)) (Z.to_nat (be_value h + 1))); [lia|].
  assert (Hlen5 : length (t :: h) = 5%nat) by (simpl; lia).
  replace (Z.to_nat (be_value h + 1)) with (length (t :: h) + Z.to_nat (be_value h - 4))%nat by lia.
  pose proof (take_app_add (t :: h) rest (Z.to_nat (be_value h - 4))) as Htake.
  pose proof (drop_app_add (t :: h) rest (Z.to_nat (be_value h - 4))) as Hdrop.
  rewrite <- app_comm_cons in Htake, Hdrop. rewrite Htake, Hdrop. unfold advance.
  rewrite length_app, Hlen5.
  destruct (Nat.ltb_spec (5 + length (take (Z.to_nat (be_value h - 4)) rest)) 5); [lia|].
  now rewrite drop_app_length' by done.
Qed.

(** The outcomes of [decode_frame] on a source that holds a whole header. *)
Lemma decode_frame_incomplete t h rest limit :
  length h = 4%nat ->
  decode_frame (t :: h ++ rest) limit =
    if be_value h <? 4
    then (Err (invalid "message length is smaller than its length field"), t :: h ++ rest)
    else if be_value h + 1 >? MAX_PROTOCOL_FRAME_LEN
    then (Err (invalid "message length exceeds PostgreSQL's signed int32 range"), t :: h ++ rest)
    else if be_value h + 1 >? limit
    then (Err (invalid "message exceeds configured frame limit"), t :: h ++ rest)
    else if len rest + 4 <? be_value h then (Ok None, t :: h ++ rest)
    else (Ok (Some (mkFrame t (take (Z.to_nat (be_value h - 4)) rest))),
          drop (Z.to_nat (be_value h - 4)) rest).
Proof.
  intros Hh. pose proof (be_value_range h) as Hr. rewrite Hh in Hr.
  change (8 * Z.of_nat 4) with 32 in Hr. pose proof (len_nonneg rest).
  rewrite !Z.gtb_ltb.
  destruct (Z.ltb_spec (be_value h) 4) as [?|H4],
    (Z.ltb_spec MAX_PROTOCOL_FRAME_LEN (be_value h + 1)) as [?|Hmax],
    (Z.ltb_spec limit (be_value h + 1)) as [?|Hlim],
    (Z.ltb_spec (len rest + 4) (be_value h)) as [?|Hrest];
    try (apply decode_frame_complete; easy || lia);
    unfold decode_frame;
    rewrite header_length_field by done;
    (replace (len (t :: h ++ rest)) with (len rest + 5)
      by (rewrite len_cons, len_app; unfold len; rewrite Hh; lia));
    (destruct (Z.ltb_spec (len rest + 5) 5); [lia|]);
    (destruct (Z.ltb_spec (be_value h) 4); [easy || lia|]); try lia;
    unfold checked_add, USIZE_MAX;
    (destruct (Z.leb_spec (be_value h + 1) (2 ^ 64 - 1)); [|lia]);
    rewrite !Z.gtb_ltb;
    (destruct (Z.ltb_spec MAX_PROTOCOL_FRAME_LEN (be_value h + 1)); [easy || lia|]); try lia;
    (destruct (Z.ltb_spec limit (be_value h + 1)); [easy || lia|]); try lia;
    (destruct (Z.ltb_spec (len rest + 5) (be_value h + 1)); [easy || lia|]); lia.
Qed.

Lemma decode_frame_short source limit : len source < 5 -> decode_frame source limit = (Ok None, source).
Proof. intros H. unfold decode_frame. destruct (Z.ltb_spec (len source) 5); [done|lia]. Qed.

Lemma decode_frame_some source limit f rest :
  decode_frame source limit = (Ok (Some f), rest) ->
  source = wire_image f ++ rest /\ len (body f) + 5 <= limit /\
  len (body f) + 5 <= MAX_PROTOCOL_FRAME_LEN.
Proof.
  intros H. destruct (Z.ltb_spec (len source) 5); [now rewrite decode_frame_short in H|].
  destruct (decode_frame_header source) as (t & h & r & -> & Hh & _); [lia|].
  rewrite decode_frame_incomplete in H by done. rewrite !Z.gtb_ltb in H.
  destruct (Z.ltb_spec (be_value h) 4); [done|].
  destruct (Z.ltb_spec MAX_PROTOCOL_FRAME_LEN (be_value h + 1)); [done|].
  destruct (Z.ltb_spec limit (be_value h + 1)); [done|].
  destruct (Z.ltb_spec (len r + 4) (be_value h)); [done|]. simplify_eq.
  assert (len (take (Z.to_nat (be_value h - 4)) r) = be_value h - 4) as Hl.
  { unfold len in *. rewrite length_take_le; lia. }
  cbn [body]. rewrite Hl. split; [|lia].
  unfold wire_image. cbn [tag body]. rewrite Hl, Z.sub_add, <- app_comm_cons, <- app_assoc, take_drop.
  pose proof (be_bytes_value h) as Hb. rewrite Hh in Hb. now rewrite Hb.
Qed.

Lemma decode_frame_image f rest limit :
  len (body f) + 5 <= limit -> len (body f) + 5 <= MAX_PROTOCOL_FRAME_LEN ->
  decode_frame (wire_image f ++ rest) limit = (Ok (Some f), rest).
Proof.
  intros Hlim Hmax. pose proof (len_nonneg (body f)).
  unfold wire_image. rewrite <- app_comm_cons, <- app_assoc.
  rewrite decode_frame_incomplete by apply length_be_bytes.
  unfold MAX_PROTOCOL_FRAME_LEN, I32_MAX in *.
  rewrite be_value_bytes, Z.mod_small by lia. rewrite !Z.gtb_ltb, len_app.
  pose proof (len_nonneg rest).
  destruct (Z.ltb_spec (len (body f) + 4) 4); [lia|].
  destruct (Z.ltb_spec (2 ^ 31 - 1 + 1) (len (body f) + 4 + 1)); [lia|].
  destruct (Z.ltb_spec limit (len (body f) + 4 + 1)); [lia|].
  destruct (Z.ltb_spec (len (body f) + len rest + 4) (len (body f) + 4)); [lia|].
  rewrite Z.add_simpl_r. unfold len. rewrite Nat2Z.id, take_app_length, drop_app_length.
  now destruct f.
Qed.

Lemma decode_frame_wait f p q limit :
  wire_image f = p ++ q -> q <> [] ->
  len (body f) + 5 <= limit -> len (body f) + 5 <= MAX_PROTOCOL_FRAME_LEN ->
  decode_frame p limit = (Ok None, p).
Proof.
  intros Hpq Hq Hlim Hmax. destruct (Z.ltb_spec (len p) 5); [now apply decode_frame_short|].
  destruct (decode_frame_header p) as (t & h & r & -> & Hh & _); [lia|].
  unfold wire_image in Hpq. rewrite <- app_comm_cons, <- app_assoc in Hpq.
  assert (Htail : be_bytes 4 (len (body f) + 4) ++ body f = h ++ r ++ q) by congruence.
  apply app_inj_1 in Htail as [Hh' Hr]; [|now rewrite length_be_bytes].
  subst h. rewrite decode_frame_incomplete by done.
  pose proof (len_nonneg (body f)). unfold MAX_PROTOCOL_FRAME_LEN, I32_MAX in *.
  rewrite be_value_bytes, Z.mod_small by lia. rewrite !Z.gtb_ltb.
  destruct (Z.ltb_spec (len (body f) + 4) 4); [lia|].
  destruct (Z.ltb_spec (2 ^ 31 - 1 + 1) (len (body f) + 4 + 1)); [lia|].
  destruct (Z.ltb_spec limit (len (body f) + 4 + 1)); [lia|].
  destruct (Z.ltb_spec (len r + 4) (len (body f) + 4)); [done|].
  destruct q; [done|]. rewrite Hr, len_app, len_cons in *. pose proof (len_nonneg q). lia.
Qed.

(** ** Properties of the framing layer *)

(** Framing round trip. Whatever [encode] appends for a frame is decoded
    back to exactly that frame, and the bytes behind it are left untouched. *)
Theorem frame_roundtrip codec f destination out rest :
  codec_valid codec ->
  PgCodec_encode codec f destination = Ok out ->
  exists w, out = destination ++ w /\
    decode_frame (w ++ rest) (max_frame_len codec) = (Ok (Some f), rest).
Proof.
  intros Hc [-> Hlen]%encode_image; [|done]. exists (wire_image f). split; [done|].
  apply decode_frame_image; [done|]. destruct Hc. lia.
Qed.

Lemma frame_roundtrip_witness :
  let f := mkFrame "Q"%byte ["h"; "i"; "000"]%byte in
  exists w, [ "z"%byte; "Q"%byte; x00; x00; x00; x07; "h"%byte; "i"%byte; x00 ] = ["z"%byte] ++ w /\
    decode_frame (w ++ [x01]) DEFAULT_MAX_FRAME_LEN = (Ok (Some f), [x01]).
Proof.
  apply (frame_roundtrip PgCodec_default _ ["z"%byte] _ [x01] codec_default_valid).
  reflexivity.
Defined.

(** Framing is lossless. The bytes a successful [decode_frame] consumed
    are exactly the bytes [encode] produces for the frame it returned. *)
Theorem frame_lossless codec source f rest :
  codec_valid codec ->
  decode_frame source (max_frame_len codec) = (Ok (Some f), rest) ->
  exists w, source = w ++ rest /\
    forall destination, PgCodec_encode codec f destination = Ok (destination ++ w).
Proof.
  intros Hc (-> & Hlim & _)%decode_frame_some. exists (wire_image f). split; [done|].
  intros d. now apply encode_image.
Qed.

Lemma frame_lossless_witness :
  exists w, ["S"%byte; x00; x00; x00; x04; "H"%byte] = w ++ ["H"%byte] /\
    forall d, PgCodec_encode PgCodec_default (mkFrame "S"%byte []) d = Ok (d ++ w).
Proof. apply frame_lossless; [apply codec_default_valid|reflexivity]. Defined.

(** Incremental decoding. On every proper prefix of an encodable frame the
    decoder asks for more input and consumes nothing. *)
Theorem frame_incremental codec f p q :
  codec_valid codec ->
  PgCodec_encode codec f [] = Ok (p ++ q) ->
  q <> [] ->
  decode_frame p (max_frame_len codec) = (Ok None, p).
Proof.
  intros Hc [Hpq Hlen]%encode_image Hq; [|done].
  apply (decode_frame_wait f p q); try done. destruct Hc. lia.
Qed.

Lemma frame_incremental_witness :
  decode_frame ["Q"%byte; x00; x00; x00; x05] DEFAULT_MAX_FRAME_LEN
  = (Ok None, ["Q"%byte; x00; x00; x00; x05]).
Proof.
  apply (frame_incremental PgCodec_default (mkFrame "Q"%byte [x00]) _ [x00]);
    [apply codec_default_valid|reflexivity|discriminate].
Defined.

(** C29: Total behaviour of [decode_frame] on arbitrary bytes. It never
    panics; an error is [InvalidData], is raised only by a length field below
    four or above the configured limit, and consumes nothing; a returned
    frame fits the limit and shortens the source. *)
Theorem decode_frame_total codec source :
  codec_valid codec ->
  match decode_frame source (max_frame_len codec) with
  | (Panic, _) => False
  | (Err e, rest) =>
      rest = source /\ kind e = InvalidData /\ 5 <= len source /\
      (be_value (take 4 (drop 1 source)) < 4 \/
       max_frame_len codec < be_value (take 4 (drop 1 source)) + 1)
  | (Ok None, rest) => rest = source
  | (Ok (Some f), rest) => len (wire_image f) <= max_frame_len codec /\ len rest < len source
  end.
Proof.
  intros [Hlo Hhi]. destruct (Z.ltb_spec (len source) 5); [now rewrite decode_frame_short|].
  destruct (decode_frame_header source) as (t & h & r & -> & Hh & Hlen); [lia|].
  rewrite Hlen, decode_frame_incomplete by done. rewrite !Z.gtb_ltb.
  destruct (Z.ltb_spec (be_value h) 4); [repeat split; auto; lia|].
  destruct (Z.ltb_spec MAX_PROTOCOL_FRAME_LEN (be_value h + 1)); [repeat split; auto; lia|].
  destruct (Z.ltb_spec (max_frame_len codec) (be_value h + 1)); [repeat split; auto; lia|].
  destruct (Z.ltb_spec (len r + 4) (be_value h)); [done|].
  rewrite len_wire_image, len_cons, len_app. cbn [body]. unfold len in *.
  rewrite length_drop, length_take. lia.
Qed.

Lemma decode_frame_total_witness :
  match decode_frame ["Q"%byte; x00; x00; x00; x03] DEFAULT_MAX_FRAME_LEN with
  | (Err e, rest) => kind e = InvalidData
  | _ => False
  end.
Proof.
  pose proof (decode_frame_total PgCodec_default ["Q"%byte; x00; x00; x00; x03]
                codec_default_valid) as H.
  vm_compute in H |- *. exact (proj1 (proj2 H)).
Defined.
