(* ===== verification/Frontend.v ===== *)
(** Messages sent by a frontend: the types of src/codec.rs, their
    reconstruction ([to_frame]) and their decoding, and the proof that the two
    are inverse to each other. *)

From Stdlib Require Import ZArith Lia String.
From Stdlib Require Import Init.Byte.
From stdpp Require Import prelude.
From S2P Require Import Prelude Wire Frame.

(** ** Message types *)

Record Parse : Type := mkParse {
  parse_statement : bytes;
  parse_query : bytes;
  parse_parameter_types : list Z (* u32 *)
}.

Record Bind : Type := mkBind {
  bind_portal : bytes;
  bind_statement : bytes;
  bind_parameter_formats : list Z (* i16 *);
  bind_parameters : list (option bytes);
  bind_result_formats : list Z (* i16 *)
}.

Inductive DescribeTarget : Type := Statement | Portal.

Record Describe : Type := mkDescribe { describe_target : DescribeTarget; describe_name : bytes }.

Record Close : Type := mkClose { close_target : DescribeTarget; close_name : bytes }.

Record Execute : Type := mkExecute { execute_portal : bytes; execute_max_rows : Z (* i32 *) }.

Record FunctionCall : Type := mkFunctionCall {
  function_oid : Z (* u32 *);
  argument_formats : list Z (* i16 *);
  arguments : list (option bytes);
  result_format : Z (* i16 *)
}.

Inductive FrontendMessage : Type :=
| F_Parse (m : Parse)
| F_Bind (m : Bind)
| F_Describe (m : Describe)
| F_Close (m : Close)
| F_Execute (m : Execute)
| F_FunctionCall (m : FunctionCall)
| F_Query (query : bytes)
| F_Flush
| F_Sync
| F_Terminate
| F_CopyData (data : bytes)
| F_CopyDone
| F_CopyFail (reason : bytes)
| F_PasswordResponse (data : bytes).

#[export] Instance DescribeTarget_eq_dec : EqDecision DescribeTarget.
Proof. solve_decision. Defined.
#[export] Instance Parse_eq_dec : EqDecision Parse.
Proof. solve_decision. Defined.
#[export] Instance Bind_eq_dec : EqDecision Bind.
Proof. solve_decision. Defined.
#[export] Instance Describe_eq_dec : EqDecision Describe.
Proof. solve_decision. Defined.
#[export] Instance Close_eq_dec : EqDecision Close.
Proof. solve_decision. Defined.
#[export] Instance Execute_eq_dec : EqDecision Execute.
Proof. solve_decision. Defined.
#[export] Instance FunctionCall_eq_dec : EqDecision FunctionCall.
Proof. solve_decision. Defined.
#[export] Instance FrontendMessage_eq_dec : EqDecision FrontendMessage.
Proof. solve_decision. Defined.

(** ** Reconstruction *)

Definition target_byte (target : DescribeTarget) : byte :=
  match target with Statement => "S"%byte | Portal => "P"%byte end.

Definition Parse_to_frame (m : Parse) : io Frame :=
  let? body := put_cstr (parse_statement m) [] in
  let? body := put_cstr (parse_query m) body in
  let? body := put_counted (fun oid body => Ok (put_u32 oid body)) (parse_parameter_types m) body in
  Ok (mkFrame "P"%byte body).

Definition Bind_to_frame (m : Bind) : io Frame :=
  let? body := put_cstr (bind_portal m) [] in
  let? body := put_cstr (bind_statement m) body in
  let? body := put_i16_vec (bind_parameter_formats m) body in
  let? body := put_counted (put_optional "Bind parameter is too large") (bind_parameters m) body in
  let? body := put_i16_vec (bind_result_formats m) body in
  Ok (mkFrame "B"%byte body).

Definition Describe_to_frame (m : Describe) : io Frame :=
  let? body := Ok (put_u8 (target_byte (describe_target m)) []) in
  let? body := put_cstr (describe_name m) body in
  Ok (mkFrame "D"%byte body).

Definition named_target_frame (tag : byte) (target : DescribeTarget) (name : bytes) : io Frame :=
  let? body := Ok (put_u8 (target_byte target) []) in
  let? body := put_cstr name body in
  Ok (mkFrame tag body).

Definition Close_to_frame (m : Close) : io Frame :=
  named_target_frame "C"%byte (close_target m) (close_name m).

Definition Execute_to_frame (m : Execute) : io Frame :=
  let? body := put_cstr (execute_portal m) [] in
  let? body := Ok (put_i32 (execute_max_rows m) body) in
  Ok (mkFrame "E"%byte body).

Definition FunctionCall_to_frame (m : FunctionCall) : io Frame :=
  let? body := Ok (put_u32 (function_oid m) []) in
  let? body := put_i16_vec (argument_formats m) body in
  let? body := put_counted put_nullable (arguments m) body in
  let? body := Ok (put_i16 (result_format m) body) in
  Ok (mkFrame "F"%byte body).

Definition cstr_message (tag : byte) (value : bytes) : io Frame :=
  let? body := put_cstr value [] in
  Ok (mkFrame tag body).

Definition empty_message (tag : byte) : Frame := mkFrame tag [].

Definition FrontendMessage_to_frame (m : FrontendMessage) : io Frame :=
  match m with
  | F_Parse m => Parse_to_frame m
  | F_Bind m => Bind_to_frame m
  | F_Describe m => Describe_to_frame m
  | F_Close m => Close_to_frame m
  | F_Execute m => Execute_to_frame m
  | F_FunctionCall m => FunctionCall_to_frame m
  | F_Query query => cstr_message "Q"%byte query
  | F_Flush => Ok (empty_message "H"%byte)
  | F_Sync => Ok (empty_message "S"%byte)
  | F_Terminate => Ok (empty_message "X"%byte)
  | F_CopyData data => Ok (mkFrame "d"%byte data)
  | F_CopyDone => Ok (empty_message "c"%byte)
  | F_CopyFail reason => cstr_message "f"%byte reason
  | F_PasswordResponse data => Ok (mkFrame "p"%byte data)
  end.

(** ** Decoding *)

Definition take_target (body : bytes) : io (DescribeTarget * bytes) :=
  let? _ := require body 1 in
  let? (b, body) := get_u8 body in
  match b with
  | "S"%byte => Ok (Statement, body)
  | "P"%byte => Ok (Portal, body)
  | _ => Err (invalid "invalid statement or portal target")
  end.

Definition decode_parse (body : bytes) : io Parse :=
  let? (statement, body) := take_cstr body in
  let? (query, body) := take_cstr body in
  let? (parameter_types, body) := take_counted take_u32 4 "parameter type count" body in
  let? _ := require_empty body in
  Ok (mkParse statement query parameter_types).

Definition decode_bind (body : bytes) : io Bind :=
  let? (portal, body) := take_cstr body in
  let? (statement, body) := take_cstr body in
  let? (parameter_formats, body) := take_i16_vec body in
  let? (parameters, body) :=
    take_counted (take_optional "negative parameter length") 4 "parameter count" body in
  let? (result_formats, body) := take_i16_vec body in
  let? _ := require_empty body in
  Ok (mkBind portal statement parameter_formats parameters result_formats).

Definition decode_describe (body : bytes) : io Describe :=
  let? (target, body) := take_target body in
  let? (name, body) := take_cstr body in
  let? _ := require_empty body in
  Ok (mkDescribe target name).

Definition decode_close (body : bytes) : io Close :=
  let? (target, body) := take_target body in
  let? (name, body) := take_cstr body in
  let? _ := require_empty body in
  Ok (mkClose target name).

Definition decode_execute (body : bytes) : io Execute :=
  let? (portal, body) := take_cstr body in
  let? (max_rows, body) := take_i32 body in
  let? _ := require_empty body in
  Ok (mkExecute portal max_rows).

Definition decode_function_call (body : bytes) : io FunctionCall :=
  let? (function_oid, body) := take_u32 body in
  let? (argument_formats, body) := take_i16_vec body in
  let? (arguments, body) := take_counted take_nullable 4 "argument count" body in
  let? (result_format, body) := take_i16 body in
  let? _ := require_empty body in
  Ok (mkFunctionCall function_oid argument_formats arguments result_format).

Definition decode_cstr_body (body : bytes) : io bytes :=
  let? (value, body) := take_cstr body in
  let? _ := require_empty body in
  Ok value.

Definition decode_empty (body : bytes) : io unit := require_empty body.

Definition Frontend_decode (frame : Frame) : io FrontendMessage :=
  match tag frame with
  | "P"%byte => result_map F_Parse (decode_parse (body frame))
  | "B"%byte => result_map F_Bind (decode_bind (body frame))
  | "D"%byte => result_map F_Describe (decode_describe (body frame))
  | "C"%byte => result_map F_Close (decode_close (body frame))
  | "E"%byte => result_map F_Execute (decode_execute (body frame))
  | "F"%byte => result_map F_FunctionCall (decode_function_call (body frame))
  | "H"%byte => result_map (fun _ => F_Flush) (decode_empty (body frame))
  | "Q"%byte => result_map F_Query (decode_cstr_body (body frame))
  | "S"%byte => result_map (fun _ => F_Sync) (decode_empty (body frame))
  | "X"%byte => result_map (fun _ => F_Terminate) (decode_empty (body frame))
  | "c"%byte => result_map (fun _ => F_CopyDone) (decode_empty (body frame))
  | "d"%byte => Ok (F_CopyData (body frame))
  | "f"%byte => result_map F_CopyFail (decode_cstr_body (body frame))
  | "p"%byte => Ok (F_PasswordResponse (body frame))
  | tag => Err (unknown_tag "frontend" tag)
  end.

#[export] Instance Frontend : Direction FrontendMessage := {
  decode := Frontend_decode;
  to_frame := FrontendMessage_to_frame
}.

(** ** Well-typed values: every integer is within its Rust type *)

Definition Bind_typed (m : Bind) : Prop :=
  Forall (in_i 16) (bind_parameter_formats m) /\ Forall (in_i 16) (bind_result_formats m).

Definition FunctionCall_typed (m : FunctionCall) : Prop :=
  in_u 32 (function_oid m) /\ Forall (in_i 16) (argument_formats m) /\ in_i 16 (result_format m).

Definition FrontendMessage_typed (m : FrontendMessage) : Prop :=
  match m with
  | F_Parse m => Forall (in_u 32) (parse_parameter_types m)
  | F_Bind m => Bind_typed m
  | F_Execute m => in_i 32 (execute_max_rows m)
  | F_FunctionCall m => FunctionCall_typed m
  | _ => True
  end.

Lemma Forall_any {A} (l : list A) : Forall (fun _ => True) l.
Proof. now apply Forall_forall. Qed.
#[export] Hint Resolve Forall_any : core.

(** ** Formats of the message bodies *)

Lemma writes_target t w :
  writes (fun t b => Ok (put_u8 (target_byte t) b)) t w <-> w = [target_byte t].
Proof. unfold writes, put_u8. split; [intros H; specialize (H []); now inv_ok|now intros ->]. Qed.

Lemma take_target_u8 bs : take_target bs =
  let? (b, rest) := take_u8 bs in
  match b with
  | "S"%byte => Ok (Statement, rest)
  | "P"%byte => Ok (Portal, rest)
  | _ => Err (invalid "invalid statement or portal target")
  end.
Proof. unfold take_target, take_u8. now destruct (require bs 1). Qed.

#[export] Instance target_writer : WireWriter (fun t b => Ok (put_u8 (target_byte t) b)).
Proof. intros t b b' H. inv_ok. eexists. now rewrite writes_target. Qed.

#[export] Instance target_format :
  WireFormat (fun t b => Ok (put_u8 (target_byte t) b)) take_target (fun _ => True) 1.
Proof.
  split.
  - apply _.
  - intros t w rest _ ->%writes_target. rewrite take_target_u8. simpl app.
    rewrite take_u8_cons. now destruct t.
  - intros [|b bs] t rest H; rewrite take_target_u8 in H; [done|]. rewrite take_u8_cons in H.
    split; [done|]. exists [target_byte t]. rewrite writes_target. split; [|done].
    destruct b; inv_ok; done.
  - intros t w ->%writes_target. simpl. lia.
  - intros [|b bs]; rewrite take_target_u8; [done|]. rewrite take_u8_cons. now destruct b.
Qed.

#[export] Instance bind_parameters_format :
  WireFormat (put_counted (put_optional "Bind parameter is too large"))
    (take_counted (take_optional "negative parameter length") 4 "parameter count")
    (Forall (fun _ => True)) 2.
Proof. apply optional_vec_format. Qed.

(** Decode what [to_frame] built / rebuild what [decode] consumed. *)
Ltac frame_decode def :=
  let H := fresh "H" in intros H; unfold def in H; open_ok; injection H as <-; wire_writes;
  split; [done|]; cbn [body].

Ltac frame_rebuild def :=
  let H := fresh "H" in intros H; unfold def in H; open_ok; injection H as <-; wire_reads.

Lemma decode_parse_to_frame m f : Forall (in_u 32) (parse_parameter_types m) ->
  Parse_to_frame m = Ok f -> tag f = "P"%byte /\ decode_parse (body f) = Ok m.
Proof. intros Ht. frame_decode Parse_to_frame. unfold decode_parse. wire_read_back. now destruct m. Qed.

Lemma to_frame_decode_parse b m : decode_parse b = Ok m ->
  Forall (in_u 32) (parse_parameter_types m) /\ Parse_to_frame m = Ok (mkFrame "P"%byte b).
Proof. frame_rebuild decode_parse. split; [done|]. unfold Parse_to_frame. cbn -[put_counted]. wire_write_back. done. Qed.

Lemma decode_bind_to_frame m f : Bind_typed m ->
  Bind_to_frame m = Ok f -> tag f = "B"%byte /\ decode_bind (body f) = Ok m.
Proof.
  intros [? ?]. frame_decode Bind_to_frame. unfold decode_bind. wire_read_back. now destruct m.
Qed.

Lemma to_frame_decode_bind b m : decode_bind b = Ok m ->
  Bind_typed m /\ Bind_to_frame m = Ok (mkFrame "B"%byte b).
Proof.
  frame_rebuild decode_bind. split; [repeat split; done|]. unfold Bind_to_frame. cbn -[put_counted].
  wire_write_back. done.
Qed.

Lemma decode_execute_to_frame m f : in_i 32 (execute_max_rows m) ->
  Execute_to_frame m = Ok f -> tag f = "E"%byte /\ decode_execute (body f) = Ok m.
Proof. intros ?. frame_decode Execute_to_frame. unfold decode_execute. wire_read_back. now destruct m. Qed.

Lemma to_frame_decode_execute b m : decode_execute b = Ok m ->
  in_i 32 (execute_max_rows m) /\ Execute_to_frame m = Ok (mkFrame "E"%byte b).
Proof.
  frame_rebuild decode_execute. split; [done|]. unfold Execute_to_frame. cbn [execute_portal execute_max_rows].
  wire_write_back. done.
Qed.

Lemma decode_function_call_to_frame m f : FunctionCall_typed m ->
  FunctionCall_to_frame m = Ok f -> tag f = "F"%byte /\ decode_function_call (body f) = Ok m.
Proof.
  intros (? & ? & ?). frame_decode FunctionCall_to_frame. unfold decode_function_call.
  wire_read_back. now destruct m.
Qed.

Lemma to_frame_decode_function_call b m : decode_function_call b = Ok m ->
  FunctionCall_typed m /\ FunctionCall_to_frame m = Ok (mkFrame "F"%byte b).
Proof.
  frame_rebuild decode_function_call. split; [unfold FunctionCall_typed; simpl; tauto|]. unfold FunctionCall_to_frame.
  cbn [function_oid argument_formats arguments result_format]. wire_write_back. done.
Qed.

Lemma named_target_writes t target name f : named_target_frame t target name = Ok f ->
  exists w w', f = mkFrame t (w ++ w') /\
    writes (fun t b => Ok (put_u8 (target_byte t) b)) target w /\ writes put_cstr name w'.
Proof.
  unfold named_target_frame. intros H. open_ok. injection H as <-.
  destruct (wire_put (put := fun t b => Ok (put_u8 (target_byte t) b)) target [] _ eq_refl)
    as (w & Hb & Hw). rewrite Hb in E. wire_writes. eauto.
Qed.

Lemma decode_describe_to_frame m f :
  Describe_to_frame m = Ok f -> tag f = "D"%byte /\ decode_describe (body f) = Ok m.
Proof.
  change (Describe_to_frame m) with (named_target_frame "D"%byte (describe_target m) (describe_name m)).
  intros (w & w' & -> & Hw & Hw')%named_target_writes. split; [done|].
  unfold decode_describe. cbn [body]. wire_read_back. now destruct m.
Qed.

Lemma to_frame_decode_describe b m :
  decode_describe b = Ok m -> Describe_to_frame m = Ok (mkFrame "D"%byte b).
Proof.
  frame_rebuild decode_describe. unfold Describe_to_frame. cbn [describe_target describe_name].
  wire_write_back. done.
Qed.

Lemma decode_close_to_frame m f :
  Close_to_frame m = Ok f -> tag f = "C"%byte /\ decode_close (body f) = Ok m.
Proof.
  intros (w & w' & -> & Hw & Hw')%named_target_writes. split; [done|].
  unfold decode_close. cbn [body]. wire_read_back. now destruct m.
Qed.

Lemma to_frame_decode_close b m :
  decode_close b = Ok m -> Close_to_frame m = Ok (mkFrame "C"%byte b).
Proof.
  frame_rebuild decode_close. unfold Close_to_frame, named_target_frame.
  cbn [close_target close_name]. wire_write_back. done.
Qed.

Lemma decode_cstr_message t v f :
  cstr_message t v = Ok f -> tag f = t /\ decode_cstr_body (body f) = Ok v.
Proof. frame_decode cstr_message. unfold decode_cstr_body. wire_read_back. done. Qed.

Lemma cstr_message_decode t b v : decode_cstr_body b = Ok v -> cstr_message t v = Ok (mkFrame t b).
Proof. frame_rebuild decode_cstr_body. unfold cstr_message. wire_write_back. done. Qed.

Lemma decode_empty_inv b u : decode_empty b = Ok u -> b = [].
Proof. apply require_empty_inv. Qed.

(** The direction decodes only by tag. *)
Lemma decode_tag_cases (f : Frame) (m : FrontendMessage) : Frontend_decode f = Ok m ->
  FrontendMessage_typed m /\ FrontendMessage_to_frame m = Ok f.
Proof.
  destruct f as [t b]. unfold Frontend_decode, result_map. cbn [tag body].
  destruct t; intros H; open_ok; try discriminate H; injection H as <-;
    cbn [FrontendMessage_typed FrontendMessage_to_frame];
    try (apply decode_empty_inv in E as ->; now split);
    try (now split; [|apply cstr_message_decode]);
    auto using to_frame_decode_parse, to_frame_decode_bind, to_frame_decode_execute,
      to_frame_decode_function_call, to_frame_decode_describe, to_frame_decode_close.
Qed.

Lemma Frontend_decode_no_panic f : Frontend_decode f <> Panic.
Proof.
  destruct f as [t b]. unfold Frontend_decode, result_map. cbn [tag body].
  assert (decode_parse b <> Panic) by (unfold decode_parse; no_panic).
  assert (decode_bind b <> Panic) by (unfold decode_bind; no_panic).
  assert (decode_describe b <> Panic) by (unfold decode_describe; no_panic).
  assert (decode_close b <> Panic) by (unfold decode_close; no_panic).
  assert (decode_execute b <> Panic) by (unfold decode_execute; no_panic).
  assert (decode_function_call b <> Panic) by (unfold decode_function_call; no_panic).
  assert (decode_cstr_body b <> Panic) by (unfold decode_cstr_body; no_panic).
  assert (decode_empty b <> Panic) by apply require_empty_no_panic.
  destruct t; no_panic.
Qed.

Lemma decode_frontend_to_frame m f : FrontendMessage_typed m ->
  FrontendMessage_to_frame m = Ok f -> Frontend_decode f = Ok m.
Proof.
  destruct m; cbn [FrontendMessage_typed FrontendMessage_to_frame]; intros Ht H.
  1: apply decode_parse_to_frame in H as [Htag H]; [|done].
  2: apply decode_bind_to_frame in H as [Htag H]; [|done].
  3: apply decode_describe_to_frame in H as [Htag H].
  4: apply decode_close_to_frame in H as [Htag H].
  5: apply decode_execute_to_frame in H as [Htag H]; [|done].
  6: apply decode_function_call_to_frame in H as [Htag H]; [|done].
  7, 13: apply decode_cstr_message in H as [Htag H].
  1-8: unfold Frontend_decode; now rewrite Htag, H.
  all: now injection H as <-.
Qed.

#[export] Instance Frontend_laws : DirectionLaws FrontendMessage FrontendMessage_typed.
Proof.
  split; [apply decode_frontend_to_frame|apply decode_tag_cases|apply Frontend_decode_no_panic].
Qed.

(** ** Properties *)

(** C30: A frontend message survives reconstruction. If a well-typed message can
    be turned into a frame at all, decoding that frame yields the same message:
    no field, format code, NULL or parameter value is lost or altered. *)
Theorem frontend_message_roundtrip m f :
  FrontendMessage_typed m ->
  FrontendMessage_to_frame m = Ok f ->
  Frontend_decode f = Ok m.
Proof. apply decode_frontend_to_frame. Qed.

Definition sample_bind : Bind :=
  mkBind ["p"%byte] ["s"%byte] [1; 0] [None; Some ["v"%byte]] [-1].

Lemma frontend_message_roundtrip_witness :
  Frontend_decode (mkFrame "B"%byte
    ["p"%byte; x00; "s"%byte; x00; x00; x02; x00; x01; x00; x00; x00; x02;
     xff; xff; xff; xff; x00; x00; x00; x01; "v"%byte; x00; x01; xff; xff])
  = Ok (F_Bind sample_bind).
Proof.
  apply (frontend_message_roundtrip (F_Bind sample_bind)); [|reflexivity].
  split; repeat constructor; vm_compute; congruence.
Defined.

(** Frontend decoding is lossless. Whatever bytes a frontend sent, if they
    decode to a message then re-encoding the message gives the identical frame,
    so an unmodified message is forwarded byte for byte; the decoded message
    has every integer within its Rust type. *)
Theorem frontend_decode_lossless f m :
  Frontend_decode f = Ok m ->
  FrontendMessage_typed m /\ FrontendMessage_to_frame m = Ok f.
Proof. apply decode_tag_cases. Qed.

Lemma frontend_decode_lossless_witness :
  let f := mkFrame "P"%byte ["s"%byte; x00; "q"%byte; x00; x00; x01; x00; x00; x00; x17] in
  FrontendMessage_to_frame (F_Parse (mkParse ["s"%byte] ["q"%byte] [23])) = Ok f.
Proof.
  intros f. apply (frontend_decode_lossless f (F_Parse (mkParse ["s"%byte] ["q"%byte] [23]))).
  reflexivity.
Defined.
