(* ===== verification/Startup.v ===== *)
(** Untagged startup packets: src/startup.rs. *)

From Stdlib Require Import ZArith Lia String.
From Stdlib Require Import Init.Byte.
From stdpp Require Import prelude.
From S2P Require Import Prelude OrdMap Wire.

Record ProtocolVersion : Type := mkVersion { major : Z (* u16 *); minor : Z (* u16 *) }.

#[export] Instance ProtocolVersion_eq_dec : EqDecision ProtocolVersion.
Proof. solve_decision. Defined.

Definition V3_0 : ProtocolVersion := mkVersion 3 0.
Definition V3_1 : ProtocolVersion := mkVersion 3 1.
Definition V3_2 : ProtocolVersion := mkVersion 3 2.

Record StartupMessage : Type := mkStartup {
  version : ProtocolVersion;
  parameters : BTreeMap
}.

#[export] Instance StartupMessage_eq_dec : EqDecision StartupMessage.
Proof. solve_decision. Defined.

Definition startup_put_cstr (value output : bytes) : io bytes :=
  if decide (x00 ∈ value) then Err (mkError InvalidInput "startup parameter contains a NUL byte")
  else Ok (put_u8 x00 (output ++ value)).

Definition startup_take_cstr (input : bytes) : io (bytes * bytes) :=
  match position_nul input with
  | None => Err (invalid "unterminated startup parameter")
  | Some fin =>
      let? (value, input) := split_to fin input in
      let? input := advance 1 input in
      Ok (value, input)
  end.

(** One iteration of the [for (name, value) in &self.parameters] loop. *)
Definition put_parameter (p : bytes * bytes) (output : bytes) : io bytes :=
  let? output := startup_put_cstr p.1 output in
  startup_put_cstr p.2 output.

Definition StartupMessage_encode (m : StartupMessage) : io bytes :=
  let output := [x00; x00; x00; x00] in
  let output := put_u16 (major (version m)) output in
  let output := put_u16 (minor (version m)) output in
  let? output := put_all put_parameter (parameters m) output in
  let output := put_u8 x00 output in
  if len output <=? I32_MAX
  then Ok (be_bytes 4 (len output) ++ drop 4 output)
  else Err (mkError InvalidInput "startup packet too large").

(** The parameter loop of [decode]. The fuel is the packet length plus one;
    running out of it is [Panic]. *)
Fixpoint take_parameters (fuel : nat) (packet : bytes) (parameters : BTreeMap)
    : io (BTreeMap * bytes) :=
  match fuel with
  | O => Panic
  | S fuel =>
      match packet with
      | [] => Err (invalid "startup parameters have no final terminator")
      | b :: _ =>
          if decide (b = x00) then
            let? packet := advance 1 packet in
            Ok (parameters, packet)
          else
            let? (name, packet) := startup_take_cstr packet in
            let? (value, packet) := startup_take_cstr packet in
            match btree_insert name value parameters with
            | (Some _, _) => Err (invalid "duplicate startup parameter")
            | (None, parameters) => take_parameters fuel packet parameters
            end
      end
  end.

Definition StartupMessage_decode (packet : bytes) : io StartupMessage :=
  if len packet <? 8 then Err (invalid "startup packet is shorter than 8 bytes")
  else
    let? (declared, packet) := get_uint 4 packet in
    if negb (declared =? len packet + 4)
    then Err (invalid "startup packet length does not match its bytes")
    else
      let? (major, packet) := get_uint 2 packet in
      let? (minor, packet) := get_uint 2 packet in
      let? (parameters, packet) := take_parameters (S (length packet)) packet [] in
      match packet with
      | _ :: _ => Err (invalid "startup packet has trailing bytes")
      | [] => Ok (mkStartup (mkVersion major minor) parameters)
      end.

(** ** Canonical messages: a sorted map, no empty name, a 16-bit version *)

Definition StartupMessage_canonical (m : StartupMessage) : Prop :=
  in_u 16 (major (version m)) /\ in_u 16 (minor (version m)) /\
  btree_sorted (parameters m) /\ Forall (fun p => p.1 <> []) (parameters m).

(** *** The C string helpers agree with those of the codec *)

Lemma startup_take_cstr_ok bs r : startup_take_cstr bs = Ok r <-> take_cstr bs = Ok r.
Proof. unfold startup_take_cstr, take_cstr. now destruct (position_nul bs). Qed.

Lemma startup_take_cstr_no_panic bs : startup_take_cstr bs <> Panic.
Proof.
  pose proof (take_cstr_no_panic bs) as H. unfold startup_take_cstr, take_cstr in *.
  now destruct (position_nul bs).
Qed.

Lemma startup_put_cstr_ok v b b' : startup_put_cstr v b = Ok b' <-> put_cstr v b = Ok b'.
Proof. unfold startup_put_cstr, put_cstr. now case_decide. Qed.

Lemma writes_parameter p w : writes put_parameter p w <->
  x00 ∉ p.1 /\ x00 ∉ p.2 /\ w = p.1 ++ [x00] ++ p.2 ++ [x00].
Proof.
  unfold writes, put_parameter. split.
  - intros H. specialize (H []). open_ok. apply startup_put_cstr_ok, put_cstr_inv in E as [-> Hn].
    apply startup_put_cstr_ok, put_cstr_inv in H as [Hw Hv]. rewrite <- !app_assoc in Hw.
    repeat split; auto.
  - intros (Hn & Hv & ->) b. unfold startup_put_cstr, put_u8. rewrite !decide_False by done.
    now rewrite <- !app_assoc.
Qed.

#[export] Instance parameter_writer : WireWriter put_parameter.
Proof.
  intros p b b' H. unfold put_parameter in H. open_ok.
  apply startup_put_cstr_ok, put_cstr_inv in E as [-> Hn].
  apply startup_put_cstr_ok, put_cstr_inv in H as [-> Hv].
  eexists. rewrite writes_parameter, <- !app_assoc. eauto.
Qed.

(** *** What the parameter loop accepts *)

Definition parameters_image (ps : list (bytes * bytes)) : bytes :=
  concat (map (fun p => p.1 ++ [x00] ++ p.2 ++ [x00]) ps).

(** Names and values a packet can carry. *)
Definition parameter_ok (p : bytes * bytes) : Prop := p.1 <> [] /\ x00 ∉ p.1 /\ x00 ∉ p.2.

Lemma take_parameter p rest : parameter_ok p ->
  exists b packet, parameters_image [p] ++ rest = b :: packet /\ b <> x00 /\
    startup_take_cstr (b :: packet) = Ok (p.1, p.2 ++ x00 :: rest) /\
    startup_take_cstr (p.2 ++ x00 :: rest) = Ok (p.2, rest).
Proof.
  destruct p as [[|b k] v]; intros (Hne & Hk & Hv); simpl in *; [done|].
  exists b, (k ++ x00 :: v ++ x00 :: rest). rewrite !app_nil_r, <- !app_assoc. simpl.
  rewrite <- !app_assoc. split; [done|]. pose proof Hk as Hk'. apply not_elem_of_cons in Hk' as [Hb _].
  split; [congruence|]. split; apply startup_take_cstr_ok; [|now apply take_cstr_app].
  now apply (take_cstr_app (b :: k)).
Qed.

Lemma take_parameters_image ps : forall fuel acc m rest,
  (length ps < fuel)%nat -> Forall parameter_ok ps -> btree_sorted acc -> btree_sorted m ->
  Permutation m (acc ++ ps) ->
  take_parameters fuel (parameters_image ps ++ x00 :: rest) acc = Ok (m, rest).
Proof.
  induction ps as [|p ps IH]; intros [|fuel] acc m rest Hf Hok Ha Hm Hp; simpl in Hf; try lia.
  - simpl. do 2 f_equal. rewrite app_nil_r in Hp. symmetry. now apply btree_perm_eq.
  - inversion Hok as [|? ? Hpok Hok']; subst.
    change (parameters_image (p :: ps)) with ((p.1 ++ [x00] ++ p.2 ++ [x00]) ++ parameters_image ps).
    destruct (take_parameter p (parameters_image ps ++ x00 :: rest) Hpok)
      as (b & packet & E & Hb & E1 & E2).
    unfold parameters_image in E at 1. simpl in E. rewrite app_nil_r in E.
    rewrite <- app_assoc. simpl in *. rewrite E. simpl. rewrite decide_False by done.
    rewrite E1, E2.
    assert (p.1 ∉ acc.*1) as Hfresh.
    { pose proof (btree_sorted_NoDup _ Hm) as Hnd. rewrite Hp, fmap_app, fmap_cons in Hnd.
      apply NoDup_app in Hnd as (_ & Hd & _). intros Hin. apply (Hd _ Hin). now left. }
    destruct (btree_insert_fresh p.1 p.2 acc Hfresh) as [acc' Ei]. rewrite Ei. apply IH; auto; [lia| |].
    + change acc' with (@None bytes, acc').2. rewrite <- Ei. now apply btree_insert_sorted.
    + apply btree_insert_perm in Ei. rewrite Hp, Ei, <- surjective_pairing. symmetry. apply Permutation_middle.
Qed.

Lemma take_parameters_inv fuel : forall packet acc m rest,
  btree_sorted acc -> take_parameters fuel packet acc = Ok (m, rest) ->
  exists ps, packet = parameters_image ps ++ x00 :: rest /\ Forall parameter_ok ps /\
    btree_sorted m /\ Permutation m (acc ++ ps).
Proof.
  induction fuel as [|fuel IH]; intros packet acc m rest Ha H; simpl in H; [done|].
  destruct packet as [|b packet]; [done|]. case_decide as Hb.
  - simpl in H. inv_ok. exists []. rewrite app_nil_r. easy.
  - destruct (startup_take_cstr (b :: packet)) as [[name packet1]| |] eqn:E; [|done..].
    destruct (startup_take_cstr packet1) as [[value packet2]| |] eqn:E0; [|done..].
    destruct (btree_insert name value acc) as [[old|] acc'] eqn:Ei; [done|].
    apply startup_take_cstr_ok, take_cstr_inv in E as [E Hn].
    apply startup_take_cstr_ok, take_cstr_inv in E0 as [-> Hv].
    apply IH in H as (ps & -> & Hok & Hm & Hp).
    + exists ((name, value) :: ps). apply btree_insert_perm in Ei. repeat split; auto.
      * rewrite E. unfold parameters_image. simpl. rewrite <- !app_assoc. simpl. now rewrite <- app_assoc.
      * constructor; [|done]. repeat split; auto. simpl. intros ->. simpl in E. congruence.
      * rewrite Hp, Ei. simpl. apply Permutation_middle.
    + change acc' with (@None bytes, acc').2. rewrite <- Ei. now apply btree_insert_sorted.
Qed.

Lemma take_parameters_no_panic fuel : forall packet acc,
  (length packet < fuel)%nat -> take_parameters fuel packet acc <> Panic.
Proof.
  induction fuel as [|fuel IH]; intros packet acc Hf; simpl; [lia|].
  destruct packet as [|b packet]; [done|]. case_decide as Hb; [done|].
  destruct (startup_take_cstr (b :: packet)) as [[name packet1]| |] eqn:E1; [|done|].
  - destruct (startup_take_cstr packet1) as [[value packet2]| |] eqn:E2; [|done|].
    + destruct (btree_insert name value acc) as [[old|] acc']; [done|]. apply IH.
      apply startup_take_cstr_ok, take_cstr_inv in E1 as [E1 _].
      apply startup_take_cstr_ok, take_cstr_inv in E2 as [-> _].
      apply (f_equal length) in E1. rewrite !length_app in E1. simpl in E1, Hf.
      rewrite length_app in E1. simpl in E1. lia.
    + now apply startup_take_cstr_no_panic in E2.
  - now apply startup_take_cstr_no_panic in E1.
Qed.

(** *** Whole packets *)

Definition startup_body (v : ProtocolVersion) (ps : list (bytes * bytes)) : bytes :=
  be_bytes 2 (major v) ++ be_bytes 2 (minor v) ++ parameters_image ps ++ [x00].

(** The packet that lists [ps] in this order. *)
Definition startup_image (v : ProtocolVersion) (ps : list (bytes * bytes)) : bytes :=
  be_bytes 4 (4 + len (startup_body v ps)) ++ startup_body v ps.

Lemma len_startup_image v ps : len (startup_image v ps) = 4 + len (startup_body v ps).
Proof. unfold startup_image. rewrite len_app. unfold len at 1. now rewrite length_be_bytes. Qed.

Lemma len_startup_body v ps : len (startup_body v ps) = 5 + len (parameters_image ps).
Proof.
  unfold startup_body. rewrite !len_app. unfold len. rewrite !length_be_bytes. simpl. lia.
Qed.

Lemma parameters_image_perm ps qs :
  Permutation ps qs -> len (parameters_image ps) = len (parameters_image qs).
Proof.
  unfold parameters_image. induction 1; cbn [map concat]; rewrite ?(len_app (_ ++ _ ++ _ ++ _)); lia.
Qed.

Lemma writes_parameters ps w : writes (put_all put_parameter) ps w <->
  Forall (fun p => x00 ∉ p.1 /\ x00 ∉ p.2) ps /\ w = parameters_image ps.
Proof.
  revert w; induction ps as [|p ps IH]; intros w; split.
  - intros ->%writes_all_nil. easy.
  - intros [_ ->] b. simpl. now rewrite app_nil_r.
  - intros (w1 & w2 & -> & Hp & Hps)%writes_all_cons.
    apply writes_parameter in Hp as (Hn & Hv & ->). apply IH in Hps as [Hf ->]. split; [now constructor|done].
  - intros [Hf ->] b. inversion Hf as [|? ? [Hn Hv] Hf']; subst.
    cbn [put_all]. rewrite (proj2 (writes_parameter p _) (conj Hn (conj Hv eq_refl))).
    rewrite (proj2 (IH _) (conj Hf' eq_refl)). unfold parameters_image. simpl. now rewrite <- !app_assoc.
Qed.

Lemma StartupMessage_encode_no_panic m : StartupMessage_encode m <> Panic.
Proof.
  unfold StartupMessage_encode. set (head := put_u16 _ _). clearbody head.
  assert (forall ps o, put_all put_parameter ps o <> Panic) as Hput.
  { induction ps as [|p ps IH]; intros o; cbn; [done|]. unfold put_parameter, startup_put_cstr.
    case_decide; [done|]. case_decide; [done|]. apply IH. }
  specialize (Hput (parameters m) head). destruct (put_all put_parameter (parameters m) head); [|done..].
  now destruct (_ <=? _).
Qed.

Lemma StartupMessage_encode_image m p : StartupMessage_encode m = Ok p <->
  Forall (fun p => x00 ∉ p.1 /\ x00 ∉ p.2) (parameters m) /\
  p = startup_image (version m) (parameters m) /\ len p <= I32_MAX.
Proof.
  unfold StartupMessage_encode, put_u16, put_uint, put_u8.
  set (head := ([x00; x00; x00; x00] ++ _) ++ _).
  assert (forall tl, drop 4 ((head ++ tl) ++ [x00]) =
    be_bytes 2 (major (version m)) ++ be_bytes 2 (minor (version m)) ++ tl ++ [x00]) as Hd.
  { intros tl. subst head. rewrite <- !app_assoc. reflexivity. }
  assert (forall tl, len ((head ++ tl) ++ [x00]) = 9 + len tl) as Hl.
  { intros tl. subst head. rewrite !len_app. unfold len. rewrite !length_be_bytes. simpl. lia. }
  split.
  - destruct (put_all _ _ _) as [b| |] eqn:E; [|done..].
    apply put_all_writes in E as (w & -> & Hw). apply writes_parameters in Hw as [Hf ->].
    rewrite Hd, Hl. destruct (Z.leb_spec (9 + len (parameters_image (parameters m))) I32_MAX); [|done].
    intros Hp. apply Ok_inj in Hp as <-. split; [done|].
    rewrite len_app. fold (startup_body (version m) (parameters m)). unfold startup_image.
    rewrite len_startup_body. unfold len at 3. rewrite length_be_bytes. split; [|lia]. do 2 f_equal. lia.
  - intros (Hf & -> & Hle). rewrite (proj2 (writes_parameters _ _) (conj Hf eq_refl)), Hd, Hl.
    rewrite len_startup_image, len_startup_body in Hle.
    rewrite (proj2 (Z.leb_le _ _)) by lia. unfold startup_image. rewrite len_startup_body.
    do 2 f_equal. f_equal. lia.
Qed.

Lemma StartupMessage_decode_image m p : StartupMessage_decode p = Ok m <->
  exists ps, p = startup_image (version m) ps /\ len p < 2 ^ 32 /\ Forall parameter_ok ps /\
    in_u 16 (major (version m)) /\ in_u 16 (minor (version m)) /\
    btree_sorted (parameters m) /\ Permutation (parameters m) ps.
Proof.
  split.
  - unfold StartupMessage_decode. destruct (len p <? 8); [done|].
    destruct (get_uint 4 p) as [[declared body]| |] eqn:E; [|done..].
    apply get_uint_inv in E as (l & -> & Hl & ->).
    destruct (Z.eqb_spec (be_value l) (len body + 4)) as [Hlen|]; [|done]. simpl negb. cbv iota.
    destruct (get_uint 2 body) as [[mj b1]| |] eqn:E1; [|done..].
    apply get_uint_inv in E1 as (l1 & -> & Hl1 & ->).
    destruct (get_uint 2 b1) as [[mn b2]| |] eqn:E2; [|done..].
    apply get_uint_inv in E2 as (l2 & -> & Hl2 & ->).
    destruct (take_parameters _ b2 []) as [[ps rest]| |] eqn:E3; [|done..].
    apply take_parameters_inv in E3 as (qs & -> & Hok & Hs & Hp); [|constructor].
    destruct rest; [|done]. intros H. apply Ok_inj in H as <-. exists qs. cbn [version parameters major minor].
    assert (startup_body (mkVersion (be_value l1) (be_value l2)) qs =
            l1 ++ l2 ++ parameters_image qs ++ [x00]) as Hb.
    { unfold startup_body. cbn [major minor]. pose proof (be_bytes_value l1) as B1. pose proof (be_bytes_value l2) as B2.
      rewrite Hl1 in B1. rewrite Hl2 in B2. now rewrite B1, B2. }
    pose proof (be_value_range l) as R. pose proof (be_value_range l1) as R1.
    pose proof (be_value_range l2) as R2. rewrite Hl in R. rewrite Hl1 in R1. rewrite Hl2 in R2.
    unfold startup_image. rewrite Hb.
    pose proof (be_bytes_value l) as Bl. rewrite Hl, Hlen in Bl.
    split; [rewrite Z.add_comm, Bl; done|]. split; [|easy].
    rewrite len_app. unfold len at 1. rewrite Hl. lia.
  - intros (ps & -> & Hlt & Hok & Hmj & Hmn & Hs & Hp). destruct m as [[mj mn] params]. cbn [version parameters major minor] in *.
    unfold StartupMessage_decode. pose proof Hlt as Hlt'. rewrite len_startup_image, len_startup_body in Hlt.
    rewrite len_startup_image, len_startup_body. pose proof (len_nonneg (parameters_image ps)).
    rewrite (proj2 (Z.ltb_ge _ _)) by lia. unfold startup_image at 1.
    rewrite get_uint_be by apply length_be_bytes.
    rewrite be_value_bytes, Z.mod_small by (rewrite len_startup_body; lia).
    rewrite (proj2 (Z.eqb_eq _ _)) by lia. simpl negb. cbv iota. unfold startup_body at 1. cbn [major minor].
    rewrite get_uint_be by apply length_be_bytes. rewrite get_uint_be by apply length_be_bytes.
    rewrite !be_value_bytes, !Z.mod_small by assumption.
    rewrite (take_parameters_image ps _ [] params []); auto; [|constructor].
    rewrite length_app. simpl. unfold parameters_image. clear. induction ps; simpl in *; [lia|].
    rewrite !length_app. simpl. lia.
Qed.

Lemma StartupMessage_decode_encode m p :
  StartupMessage_canonical m -> StartupMessage_encode m = Ok p -> StartupMessage_decode p = Ok m.
Proof.
  intros (Hmj & Hmn & Hs & Hne) (Hf & -> & Hle)%StartupMessage_encode_image.
  apply StartupMessage_decode_image. exists (parameters m). unfold I32_MAX in Hle.
  split; [done|]. split; [lia|]. split; [|easy].
  rewrite Forall_forall in *. intros q Hq. unfold parameter_ok. naive_solver.
Qed.

Lemma StartupMessage_decode_no_panic p : StartupMessage_decode p <> Panic.
Proof.
  unfold StartupMessage_decode. destruct (Z.ltb_spec (len p) 8) as [|H8]; [done|]. unfold len in H8.
  destruct (get_uint 4 p) as [[d b]| |] eqn:E; [|done|now apply get_uint_no_panic in E; [|lia]].
  apply get_uint_inv in E as (l & -> & Hl & ->). rewrite length_app, Hl in H8. destruct (negb _); [done|].
  destruct (get_uint 2 b) as [[mj b1]| |] eqn:E; [|done|now apply get_uint_no_panic in E; [|lia]].
  apply get_uint_inv in E as (l1 & -> & Hl1 & ->). rewrite length_app, Hl1 in H8.
  destruct (get_uint 2 b1) as [[mn b2]| |] eqn:E; [|done|now apply get_uint_no_panic in E; [|lia]].
  pose proof (take_parameters_no_panic (S (length b2)) b2 []) as Hp.
  destruct (take_parameters _ _ _) as [[ps [|]]| |]; try done. now specialize (Hp ltac:(lia)).
Qed.

(** ** Properties *)

(** A startup message whose parameters form a [BTreeMap] with non-empty
    names and whose version numbers are 16-bit decodes back from its encoding. *)
Theorem startup_roundtrip m p :
  StartupMessage_canonical m -> StartupMessage_encode m = Ok p -> StartupMessage_decode p = Ok m.
Proof. apply StartupMessage_decode_encode. Qed.

Definition startup_example : StartupMessage :=
  mkStartup V3_2 [([x61], [x62]); ([x75], [])].

Lemma startup_roundtrip_witness :
  exists p, StartupMessage_encode startup_example = Ok p /\ StartupMessage_decode p = Ok startup_example.
Proof.
  eexists. split; [vm_compute; reflexivity|]. apply startup_roundtrip; [|reflexivity].
  repeat split; try (vm_compute; congruence); repeat (constructor; try done).
Defined.

(** What a proxy does to a startup packet it decodes and encodes again: the
    packet it forwards lists exactly the received parameters, in name order, has
    the received length and version, and decodes to the same message. *)
Theorem startup_reencode p m :
  StartupMessage_decode p = Ok m -> len p <= I32_MAX ->
  exists ps, p = startup_image (version m) ps /\ Permutation ps (parameters m) /\
    StartupMessage_encode m = Ok (startup_image (version m) (parameters m)) /\
    len (startup_image (version m) (parameters m)) = len p /\
    StartupMessage_decode (startup_image (version m) (parameters m)) = Ok m.
Proof.
  intros (ps & -> & Hlt & Hok & Hmj & Hmn & Hs & Hp)%StartupMessage_decode_image Hle.
  exists ps. pose proof (parameters_image_perm _ _ Hp) as Hlen.
  rewrite !len_startup_image, !len_startup_body in *.
  assert (Forall parameter_ok (parameters m)) as Hok' by (now rewrite Hp).
  split; [done|]. split; [done|]. split; [|split; [lia|]].
  - apply StartupMessage_encode_image. rewrite len_startup_image, len_startup_body.
    split; [|split; [done|lia]]. eapply Forall_impl; [exact Hok'|]. unfold parameter_ok. naive_solver.
  - apply StartupMessage_decode_image. exists (parameters m).
    rewrite len_startup_image, len_startup_body. split; [done|]. split; [lia|easy].
Qed.

(** A packet whose parameters are not in name order. *)
Definition unsorted_packet : bytes := startup_image V3_0 [([x75], [x31]); ([x64], [x32])].

Lemma startup_reencode_witness :
  exists m, StartupMessage_decode unsorted_packet = Ok m /\
    exists p', StartupMessage_encode m = Ok p' /\ len p' = len unsorted_packet.
Proof.
  eexists. split; [vm_compute; reflexivity|].
  destruct (startup_reencode unsorted_packet (mkStartup V3_0 [([x64], [x32]); ([x75], [x31])]))
    as (ps & _ & _ & He & Hl & _); [vm_compute; reflexivity|vm_compute; congruence|].
  eexists. split; [exact He|exact Hl].
Defined.

(** Decoding an arbitrary byte string as a startup packet returns: no slice
    access is out of range and the parameter loop ends. *)
Theorem startup_decode_never_panics p : StartupMessage_decode p <> Panic.
Proof. apply StartupMessage_decode_no_panic. Qed.

(** The decoded form does not retain the received bytes: a packet whose
    parameters are not in name order is encoded differently than received. *)
Theorem startup_not_lossless : exists m p',
  StartupMessage_decode unsorted_packet = Ok m /\ StartupMessage_encode m = Ok p' /\ p' <> unsorted_packet.
Proof. do 2 eexists. split; [|split]; [vm_compute; reflexivity..|]. vm_compute. congruence. Qed.
