(* ===== verification/PreStartup.v ===== *)
(** The untagged packets that precede message framing and the encryption
    negotiation they drive: src/pre_startup.rs, with the typestate connection
    [Conn] of src/lib.rs. *)

From Stdlib Require Import ZArith Lia String.
From Stdlib Require Import Init.Byte.
From stdpp Require Import prelude.
From S2P Require Import Prelude OrdMap Wire Startup.

(** ** Typestate connections *)

Module Phase.
(** The phase markers of src/pre_startup.rs. *)
Inductive t : Type :=
| PreStartup
| Startup
| AwaitingSslReply
| AwaitingGssReply
| TlsHandshake
| GssHandshake
| Terminated
| ServerSslDecision
| ServerGssDecision.
End Phase.

(** The cleanliness markers of src/lib.rs. *)
Inductive Cleanliness : Type := Pristine | Dirty.

#[export] Instance Cleanliness_eq_dec : EqDecision Cleanliness.
Proof. solve_decision. Defined.

(** [PhantomData<(Phase, Cleanliness)>] is the pair of indices; every module
    that adds phases has its own type [Ph] of them. The transport is an [Option]
    because a transition takes it out of the consumed value. *)
Record Conn (T : Type) {Ph : Type} (P : Ph) (C : Cleanliness) : Type := mkConn { transport : option T }.
Arguments mkConn {T Ph P C} transport.
Arguments transport {T Ph P C} _.

Definition Conn_new {T} (t : T) : Conn T Phase.PreStartup Pristine := mkConn (Some t).

Definition transition {T} {Ph Ph' : Type} {P : Ph} {C} (P' : Ph') C' (c : Conn T P C) : Conn T P' C' :=
  mkConn (transport c).
Arguments transition {T Ph Ph' P C} {P' C'} c.

Definition into_transport {T} {Ph : Type} {P : Ph} {C} (c : Conn T P C) : io T :=
  match transport c with Some t => Ok t | None => Panic end.

Definition map_transport {T T'} {Ph : Type} {P : Ph} {C} (f : T -> T') (c : Conn T P C) : io (Conn T' P C) :=
  match transport c with Some t => Ok (mkConn (Some (f t))) | None => Panic end.

(** ** Packets *)

Definition SSL_REQUEST_CODE : Z := 80877103.
Definition GSSENC_REQUEST_CODE : Z := 80877104.
Definition CANCEL_REQUEST_CODE : Z := 80877102.
Definition DEFAULT_MAX_PRE_STARTUP_PACKET_LEN : Z := 10000.

Inductive EncryptionReply : Type := Accepted | Rejected | LegacyError.

Definition EncryptionReply_as_byte (r : EncryptionReply) : byte :=
  match r with
  | Accepted => x53 (* b'S' *)
  | Rejected => x4e (* b'N' *)
  | LegacyError => x45 (* b'E' *)
  end.

(** The error is [InvalidEncryptionReply(byte)]. *)
Definition EncryptionReply_try_from (value : byte) : result EncryptionReply byte :=
  match value with
  | x53 => Ok Accepted
  | x4e => Ok Rejected
  | x45 => Ok LegacyError
  | b => Err b
  end.

Inductive PreStartupMessage : Type :=
| SslRequest
| GssEncRequest
| CancelRequest (process_id : Z (* u32 *)) (secret_key : bytes)
| MsgStartup (message : StartupMessage).

Definition request_packet (code : Z) : bytes := be_bytes 4 8 ++ be_bytes 4 code.
Definition ssl_request_packet : bytes := request_packet SSL_REQUEST_CODE.
Definition gssenc_request_packet : bytes := request_packet GSSENC_REQUEST_CODE.

(** [(lo..=hi).contains(&v)] *)
Definition contains (lo hi v : Z) : bool := (lo <=? v) && (v <=? hi).

Definition cancel_packet (process_id : Z) (secret_key : bytes) : io bytes :=
  if negb (contains 4 256 (len secret_key))
  then Err (mkError InvalidInput "cancellation key length is outside 4..=256")
  else if U32_MAX <? len secret_key then Err (invalid "cancellation key length overflow")
  else
    let packet := put_u32 (12 + len secret_key) [] in
    let packet := put_u32 CANCEL_REQUEST_CODE packet in
    let packet := put_u32 process_id packet in
    Ok (packet ++ secret_key).

Definition to_packet (m : PreStartupMessage) : io bytes :=
  match m with
  | SslRequest => Ok (request_packet SSL_REQUEST_CODE)
  | GssEncRequest => Ok (request_packet GSSENC_REQUEST_CODE)
  | CancelRequest process_id secret_key => cancel_packet process_id secret_key
  | MsgStartup message => StartupMessage_encode message
  end.

(** [u32::from_be_bytes([b[i], b[i + 1], b[i + 2], b[i + 3]])] *)
Definition be_u32_at (i : nat) (b : bytes) : io Z :=
  if (length b <? i + 4)%nat then Panic else Ok (be_value (take 4 (drop i b))).

(** Dispatch on the code word of a complete packet. *)
Definition decode_packet (packet : bytes) : io (option PreStartupMessage) :=
  let length := len packet in
  let? code := be_u32_at 4 packet in
  if (code =? SSL_REQUEST_CODE) && (length =? 8) then Ok (Some SslRequest)
  else if (code =? GSSENC_REQUEST_CODE) && (length =? 8) then Ok (Some GssEncRequest)
  else if code =? CANCEL_REQUEST_CODE then
    if negb (contains 16 268 length) then Err (invalid "invalid CancelRequest length")
    else
      let? process_id := be_u32_at 8 packet in
      let secret_key := drop 12 packet in
      Ok (Some (CancelRequest process_id secret_key))
  else result_map Some (result_map MsgStartup (StartupMessage_decode packet)).

(** The second component is what [input] holds afterwards. *)
Definition decode_pre_startup_with_limit (input : bytes) (max_packet_len : Z)
    : io (option PreStartupMessage) * bytes :=
  if negb (contains 8 I32_MAX max_packet_len)
  then (Err (invalid "pre-startup packet limit must be between 8 and i32::MAX bytes"), input)
  else if len input <? 4 then (Ok None, input)
  else
    match be_u32_at 0 input with
    | Ok length =>
        if length <? 8 then (Err (invalid "pre-startup packet is shorter than 8 bytes"), input)
        else if I32_MAX <? length
        then (Err (invalid "pre-startup packet length exceeds i32::MAX"), input)
        else if max_packet_len <? length
        then (Err (invalid "pre-startup packet exceeds configured limit"), input)
        else if len input <? length then (Ok None, input)
        else (decode_packet (take (Z.to_nat length) input), drop (Z.to_nat length) input)
    | Err e => (Err e, input)
    | Panic => (Panic, input)
    end.

Definition decode_pre_startup (input : bytes) : io (option PreStartupMessage) * bytes :=
  decode_pre_startup_with_limit input DEFAULT_MAX_PRE_STARTUP_PACKET_LEN.

(** ** SSL policy *)

Inductive SslMode : Type := Disable | Allow | Prefer | Require_ | VerifyCa | VerifyFull.

Inductive CertificateVerification : Type :=
| VerifyNone
| CertificateAuthority
| CertificateAuthorityAndHost.

Record SslStrategy : Type := mkStrategy {
  request_on_first_connection : bool;
  retry_with_ssl_after_plaintext_failure : bool;
  allow_server_rejection : bool;
  verification : CertificateVerification
}.

Definition strategy (mode : SslMode) : SslStrategy :=
  match mode with
  | Disable => mkStrategy false false true VerifyNone
  | Allow => mkStrategy false true true VerifyNone
  | Prefer => mkStrategy true false true VerifyNone
  | Require_ => mkStrategy true false false VerifyNone
  | VerifyCa => mkStrategy true false false CertificateAuthority
  | VerifyFull => mkStrategy true false false CertificateAuthorityAndHost
  end.

(** ** The negotiation *)

Section Negotiation.
Context {T : Type}.

Inductive PreStartupOffer (C : Cleanliness) : Type :=
| Offer_Ssl (conn : Conn T Phase.ServerSslDecision C)
| Offer_Gss (conn : Conn T Phase.ServerGssDecision C)
| Offer_Cancel (conn : Conn T Phase.Terminated C) (process_id : Z) (secret_key : bytes)
| Offer_Startup (conn : Conn T Phase.Startup C) (message : StartupMessage).

Inductive Negotiation (H : Phase.t) (C : Cleanliness) : Type :=
| Neg_Accepted (conn : Conn T H C)
| Neg_Rejected (conn : Conn T Phase.PreStartup C)
| Neg_LegacyError (conn : Conn T Phase.Terminated C).

Inductive SslModeNegotiation (C : Cleanliness) : Type :=
| Ssl_Accepted (conn : Conn T Phase.TlsHandshake C)
| Ssl_Plaintext (conn : Conn T Phase.PreStartup C)
| Ssl_RequiredRejected (conn : Conn T Phase.Terminated C) (mode : SslMode)
| Ssl_LegacyError (conn : Conn T Phase.Terminated C).

Definition ssl_request (c : Conn T Phase.PreStartup Pristine)
    : Conn T Phase.AwaitingSslReply Pristine * bytes :=
  (transition c, ssl_request_packet).

Definition gssenc_request (c : Conn T Phase.PreStartup Pristine)
    : Conn T Phase.AwaitingGssReply Pristine * bytes :=
  (transition c, gssenc_request_packet).

Definition startup (c : Conn T Phase.PreStartup Pristine) (message : StartupMessage)
    : io (Conn T Phase.Startup Pristine * bytes) :=
  let? packet := StartupMessage_encode message in Ok (transition c, packet).

Definition cancel_request (c : Conn T Phase.PreStartup Pristine) (process_id : Z) (secret_key : bytes)
    : io (Conn T Phase.Terminated Pristine * bytes) :=
  if negb (contains 4 256 (len secret_key))
  then Err (mkError InvalidInput "cancellation key length is outside 4..=256")
  else let? packet := cancel_packet process_id secret_key in Ok (transition c, packet).

Section AnyCleanliness.
Context {C : Cleanliness}.

Definition offer_pre_startup (c : Conn T Phase.PreStartup C) (message : PreStartupMessage)
    : PreStartupOffer C :=
  match message with
  | SslRequest => Offer_Ssl C (transition c)
  | GssEncRequest => Offer_Gss C (transition c)
  | CancelRequest process_id secret_key => Offer_Cancel C (transition c) process_id secret_key
  | MsgStartup message => Offer_Startup C (transition c) message
  end.

Definition reject_ssl (c : Conn T Phase.ServerSslDecision C) : Conn T Phase.PreStartup C * byte :=
  (transition c, EncryptionReply_as_byte Rejected).
Definition accept_ssl (c : Conn T Phase.ServerSslDecision C) : Conn T Phase.TlsHandshake C * byte :=
  (transition c, EncryptionReply_as_byte Accepted).
Definition legacy_ssl_error (c : Conn T Phase.ServerSslDecision C) : Conn T Phase.Terminated C * byte :=
  (transition c, EncryptionReply_as_byte LegacyError).

Definition reject_gss (c : Conn T Phase.ServerGssDecision C) : Conn T Phase.PreStartup C * byte :=
  (transition c, EncryptionReply_as_byte Rejected).
Definition accept_gss (c : Conn T Phase.ServerGssDecision C) : Conn T Phase.GssHandshake C * byte :=
  (transition c, EncryptionReply_as_byte Accepted).
Definition legacy_gss_error (c : Conn T Phase.ServerGssDecision C) : Conn T Phase.Terminated C * byte :=
  (transition c, EncryptionReply_as_byte LegacyError).

Definition receive_ssl_reply (c : Conn T Phase.AwaitingSslReply C) (reply : EncryptionReply)
    : Negotiation Phase.TlsHandshake C :=
  match reply with
  | Accepted => Neg_Accepted _ _ (transition c)
  | Rejected => Neg_Rejected _ _ (transition c)
  | LegacyError => Neg_LegacyError _ _ (transition c)
  end.

Definition apply_ssl_reply (c : Conn T Phase.AwaitingSslReply C) (reply : EncryptionReply) (mode : SslMode)
    : SslModeNegotiation C :=
  match reply with
  | Accepted => Ssl_Accepted C (transition c)
  | Rejected =>
      if allow_server_rejection (strategy mode) then Ssl_Plaintext C (transition c)
      else Ssl_RequiredRejected C (transition c) mode
  | LegacyError => Ssl_LegacyError C (transition c)
  end.

Definition receive_gss_reply (c : Conn T Phase.AwaitingGssReply C) (reply : EncryptionReply)
    : Negotiation Phase.GssHandshake C :=
  match reply with
  | Accepted => Neg_Accepted _ _ (transition c)
  | Rejected => Neg_Rejected _ _ (transition c)
  | LegacyError => Neg_LegacyError _ _ (transition c)
  end.

Definition finish_tls {T'} (c : Conn T Phase.TlsHandshake C) (upgrade : T -> T')
    : io (Conn T' Phase.PreStartup C) :=
  let? c := map_transport upgrade c in Ok (transition c).

Definition finish_server_tls {T'} (c : Conn T Phase.TlsHandshake C) (upgrade : T -> T')
    : io (Conn T' Phase.PreStartup C) :=
  let? c := map_transport upgrade c in Ok (transition c).

Definition finish_server_gss {T'} (c : Conn T Phase.GssHandshake C) (upgrade : T -> T')
    : io (Conn T' Phase.PreStartup C) :=
  let? c := map_transport upgrade c in Ok (transition c).
End AnyCleanliness.

Definition finish_gss {T'} (c : Conn T Phase.GssHandshake Pristine) (upgrade : T -> T')
    : io (Conn T' Phase.PreStartup Pristine) :=
  let? t := into_transport c in Ok (Conn_new (upgrade t)).
End Negotiation.
Arguments PreStartupOffer : clear implicits.
Arguments SslModeNegotiation : clear implicits.
Arguments Offer_Ssl {T C} conn.
Arguments Offer_Gss {T C} conn.
Arguments Offer_Cancel {T C} conn process_id secret_key.
Arguments Offer_Startup {T C} conn message.
Arguments Ssl_Accepted {T C} conn.
Arguments Ssl_Plaintext {T C} conn.
Arguments Ssl_RequiredRejected {T C} conn mode.
Arguments Ssl_LegacyError {T C} conn.

(** ** Packets and their code words *)

(** A message that a peer can send: field widths, and a startup version other
    than the one that spells the cancellation code. *)
Definition PreStartupMessage_canonical (m : PreStartupMessage) : Prop :=
  match m with
  | SslRequest | GssEncRequest => True
  | CancelRequest process_id _ => in_u 32 process_id
  | MsgStartup message =>
      StartupMessage_canonical message /\ version message <> mkVersion 1234 5678
  end.

(** Eight bytes or more, the first four of which hold the length. *)
Definition packet_framed (p : bytes) : Prop :=
  exists body, p = be_bytes 4 (4 + len body) ++ body /\ 4 <= len body /\ 4 + len body <= I32_MAX.

Lemma be_u32_at_app pre l rest i : length pre = i -> length l = 4%nat ->
  be_u32_at i (pre ++ l ++ rest) = Ok (be_value l).
Proof.
  intros <- Hl. unfold be_u32_at. rewrite (proj2 (Nat.ltb_ge _ _)) by (rewrite !length_app; lia).
  rewrite drop_app_length, <- Hl, take_app_length. done.
Qed.

Lemma packet_framed_len body p : p = be_bytes 4 (4 + len body) ++ body -> len p = 4 + len body.
Proof. intros ->. rewrite len_app. unfold len at 1. now rewrite length_be_bytes. Qed.

Lemma be_value_small n v : 0 <= v < 2 ^ (8 * Z.of_nat n) -> be_value (be_bytes n v) = v.
Proof. intros. now rewrite be_value_bytes, Z.mod_small. Qed.

Lemma to_packet_framed m p : to_packet m = Ok p -> packet_framed p.
Proof.
  destruct m as [| |pid key|message]; cbn [to_packet].
  - intros H. apply Ok_inj in H as <-. exists (be_bytes 4 SSL_REQUEST_CODE). vm_compute. easy.
  - intros H. apply Ok_inj in H as <-. exists (be_bytes 4 GSSENC_REQUEST_CODE). vm_compute. easy.
  - unfold cancel_packet, contains. destruct (Z.leb_spec 4 (len key)); [|done].
    destruct (Z.leb_spec (len key) 256); [|done]. cbn [negb andb].
    destruct (U32_MAX <? len key); [done|]. intros Hp. apply Ok_inj in Hp as <-.
    exists (be_bytes 4 CANCEL_REQUEST_CODE ++ be_bytes 4 pid ++ key). rewrite !len_app.
    unfold put_u32, put_uint. rewrite <- !app_assoc, app_nil_l. unfold len. rewrite !length_be_bytes.
    unfold len in *. split; [|unfold I32_MAX; lia]. do 2 f_equal. lia.
  - intros (Hf & -> & Hle)%StartupMessage_encode_image. rewrite len_startup_image in Hle.
    exists (startup_body (version message) (parameters message)). split; [done|].
    pose proof (len_nonneg (parameters_image (parameters message))).
    rewrite len_startup_body in *. lia.
Qed.

Lemma decode_complete p rest max : packet_framed p -> contains 8 I32_MAX max = true -> len p <= max ->
  decode_pre_startup_with_limit (p ++ rest) max = (decode_packet p, rest).
Proof.
  intros (body & Hp & H4 & Hi) Hmax Hle. pose proof (packet_framed_len _ _ Hp) as Hl.
  unfold decode_pre_startup_with_limit. rewrite Hmax. cbn [negb]. unfold I32_MAX in *.
  pose proof (len_nonneg rest). rewrite len_app.
  rewrite (proj2 (Z.ltb_ge (len p + len rest) 4)) by lia.
  assert (be_u32_at 0 (p ++ rest) = Ok (len p)) as ->.
  { rewrite Hl, Hp, <- app_assoc. change (be_bytes 4 _ ++ _) with ([] ++ be_bytes 4 (4 + len body) ++ body ++ rest).
    rewrite be_u32_at_app by (try apply length_be_bytes; done). now rewrite be_value_small by (simpl; lia). }
  rewrite !(proj2 (Z.ltb_ge _ _)) by lia. unfold len. rewrite Nat2Z.id.
  now rewrite take_app_length, drop_app_length.
Qed.

Lemma version_code v ps : in_u 16 (major v) -> in_u 16 (minor v) ->
  be_u32_at 4 (startup_image v ps) = Ok (major v * 2 ^ 16 + minor v).
Proof.
  intros Hj Hn. unfold startup_image, startup_body. rewrite (app_assoc (be_bytes 2 _)).
  rewrite be_u32_at_app by (rewrite ?length_app, ?length_be_bytes; done).
  assert (forall l k, be_value (l ++ k) = be_value l * 2 ^ (8 * Z.of_nat (length k)) + be_value k) as Happ.
  { intros l k. induction l as [|b l IH]; [done|]. cbn [be_value app]. rewrite IH, length_app.
    rewrite !Z.shiftl_mul_pow2 by lia.
    replace (8 * Z.of_nat (length l + length k)) with (8 * Z.of_nat (length l) + 8 * Z.of_nat (length k)) by lia.
    rewrite Z.pow_add_r by lia. ring. }
  rewrite Happ, length_be_bytes, !be_value_small by (apply Hj || apply Hn). done.
Qed.

Lemma decode_packet_to_packet m p : PreStartupMessage_canonical m -> to_packet m = Ok p ->
  decode_packet p = Ok (Some m).
Proof.
  destruct m as [| |pid key|message]; intros Hc Hp.
  - apply Ok_inj in Hp as <-. reflexivity.
  - apply Ok_inj in Hp as <-. reflexivity.
  - cbn [to_packet] in Hp. unfold cancel_packet, contains in Hp.
    destruct (Z.leb_spec 4 (len key)); [|done]. destruct (Z.leb_spec (len key) 256); [|done].
    cbn [negb andb] in Hp. destruct (U32_MAX <? len key); [done|]. apply Ok_inj in Hp as <-.
    unfold put_u32, put_uint. rewrite <- !app_assoc, app_nil_l.
    unfold decode_packet.
    rewrite be_u32_at_app by apply length_be_bytes.
    change (be_value (be_bytes 4 CANCEL_REQUEST_CODE)) with CANCEL_REQUEST_CODE. cbn [Z.eqb andb].
    change (CANCEL_REQUEST_CODE =? SSL_REQUEST_CODE) with false.
    change (CANCEL_REQUEST_CODE =? GSSENC_REQUEST_CODE) with false.
    change (CANCEL_REQUEST_CODE =? CANCEL_REQUEST_CODE) with true. cbn [andb].
    assert (contains 16 268 (len (be_bytes 4 (12 + len key) ++ be_bytes 4 CANCEL_REQUEST_CODE ++
        be_bytes 4 pid ++ key)) = true) as ->.
    { unfold contains. rewrite !len_app. unfold len in *. rewrite !length_be_bytes.
      apply andb_true_intro; split; apply Z.leb_le; lia. }
    cbn [negb]. rewrite (app_assoc (be_bytes 4 (12 + _))).
    rewrite be_u32_at_app by (rewrite ?length_app, ?length_be_bytes; done).
    rewrite be_value_small by apply Hc. rewrite app_assoc.
    rewrite drop_app_length' by (rewrite !length_app, !length_be_bytes; done). done.
  - destruct Hc as [Hc Hv]. cbn [to_packet] in Hp. pose proof Hp as Hp'.
    apply StartupMessage_encode_image in Hp' as (Hf & -> & Hle). destruct Hc as (Hj & Hn & Hs & Hne).
    unfold decode_packet. rewrite version_code by done. rewrite len_startup_image, len_startup_body.
    pose proof (len_nonneg (parameters_image (parameters message))).
    rewrite (proj2 (Z.eqb_neq (4 + _) 8)) by lia. rewrite !andb_false_r.
    assert (major (version message) * 2 ^ 16 + minor (version message) =? CANCEL_REQUEST_CODE = false) as ->.
    { apply Z.eqb_neq. intros E. apply Hv. unfold in_u, CANCEL_REQUEST_CODE in *.
      destruct (version message) as [j n]. simpl in *. f_equal; lia. }
    rewrite (StartupMessage_decode_encode message); done.
Qed.

Lemma be_u32_at_split i b v : be_u32_at i b = Ok v ->
  b = take i b ++ be_bytes 4 v ++ drop (i + 4) b /\ in_u 32 v /\ (i + 4 <= length b)%nat.
Proof.
  unfold be_u32_at. destruct (Nat.ltb_spec (length b) (i + 4)); [done|]. intros E. apply Ok_inj in E as <-.
  pose proof (be_bytes_value (take 4 (drop i b))) as Hb. pose proof (be_value_range (take 4 (drop i b))) as Hr.
  rewrite length_take_le in Hb, Hr by (rewrite length_drop; lia). rewrite Hb.
  split; [|split; [exact Hr|lia]]. rewrite <- drop_drop, take_drop. now rewrite take_drop.
Qed.

(** The special requests a complete packet decodes to reproduce its bytes. *)
Lemma decode_packet_inv p m : packet_framed p -> decode_packet p = Ok (Some m) ->
  match m with
  | MsgStartup message => StartupMessage_decode p = Ok message
  | _ => to_packet m = Ok p
  end.
Proof.
  intros (body & Hp & H4 & Hi). pose proof (packet_framed_len _ _ Hp) as Hl.
  unfold decode_packet. destruct (be_u32_at 4 p) as [code| |] eqn:Ec; [|done..].
  apply be_u32_at_split in Ec as (Hsplit & Hcode & Hlen).
  assert (take 4 p = be_bytes 4 (len p)) as Ht by (now rewrite Hl, Hp, take_be_bytes).
  rewrite Ht in Hsplit. cbn [Nat.add] in Hsplit.
  assert (len p = 8 -> drop 8 p = []) as H8 by (intros; apply drop_ge; unfold len in *; lia).
  destruct ((code =? SSL_REQUEST_CODE) && (len p =? 8)) eqn:E1.
  { apply andb_true_iff in E1 as [->%Z.eqb_eq E8%Z.eqb_eq]. intros E. apply Ok_inj in E. injection E as <-.
    cbn [to_packet]. unfold request_packet. rewrite Hsplit at 1. now rewrite E8, H8, app_nil_r. }
  destruct ((code =? GSSENC_REQUEST_CODE) && (len p =? 8)) eqn:E2.
  { apply andb_true_iff in E2 as [->%Z.eqb_eq E8%Z.eqb_eq]. intros E. apply Ok_inj in E. injection E as <-.
    cbn [to_packet]. unfold request_packet. rewrite Hsplit at 1. now rewrite E8, H8, app_nil_r. }
  destruct (Z.eqb_spec code CANCEL_REQUEST_CODE) as [->|].
  - unfold contains. destruct (Z.leb_spec 16 (len p)); [|done]. destruct (Z.leb_spec (len p) 268); [|done].
    cbn [negb andb]. destruct (be_u32_at 8 p) as [pid| |] eqn:Ep; [|done..]. intros E. apply Ok_inj in E. injection E as <-.
    apply be_u32_at_split in Ep as (Hs8 & _ & _). cbn [Nat.add] in Hs8.
    cbn [to_packet]. unfold cancel_packet, contains.
    assert (len (drop 12 p) = len p - 12) as -> by (unfold len in *; rewrite length_drop; lia).
    rewrite (proj2 (Z.leb_le 4 _)), (proj2 (Z.leb_le _ 256)), (proj2 (Z.ltb_ge _ _)) by (unfold U32_MAX; lia).
    cbn [negb andb]. unfold put_u32, put_uint. rewrite <- !app_assoc, app_nil_l. f_equal.
    rewrite Hsplit at 3. f_equal; [f_equal; lia|]. f_equal.
    rewrite Hs8 at 2. rewrite drop_app_length' by (rewrite length_take; unfold len in *; lia). done.
  - destruct (StartupMessage_decode p) as [message| |]; intros E; cbn [result_map] in E; [|done..].
    apply Ok_inj in E. now injection E as <-.
Qed.

Lemma decode_pre_startup_cases input max :
  let '(r, rest) := decode_pre_startup_with_limit input max in
  (rest = input /\ r <> Panic /\ forall m, r <> Ok (Some m)) \/
  (exists p, input = p ++ rest /\ packet_framed p /\ len p <= max /\ r = decode_packet p).
Proof.
  unfold decode_pre_startup_with_limit. destruct (contains 8 I32_MAX max) eqn:Hm; cbn [negb]; [|left; easy].
  destruct (Z.ltb_spec (len input) 4) as [|H4]; [left; easy|].
  destruct (be_u32_at 0 input) as [n| |] eqn:E; [|left; easy|].
  2:{ unfold be_u32_at in E. unfold len in H4. rewrite (proj2 (Nat.ltb_ge _ _)) in E by lia. done. }
  apply be_u32_at_split in E as (Hs & Hn & Hl). rewrite take_0, app_nil_l in Hs. cbn [Nat.add] in *.
  destruct (Z.ltb_spec n 8); [left; easy|]. destruct (Z.ltb_spec I32_MAX n); [left; easy|].
  destruct (Z.ltb_spec max n); [left; easy|]. destruct (Z.ltb_spec (len input) n); [left; easy|].
  right. exists (take (Z.to_nat n) input). rewrite take_drop.
  assert (len (take (Z.to_nat n) input) = n) as Hlen by (unfold len in *; rewrite length_take; lia).
  split; [done|]. split; [|split; [lia|done]].
  exists (drop 4 (take (Z.to_nat n) input)).
  assert (len (drop 4 (take (Z.to_nat n) input)) = n - 4) as -> by (unfold len in *; rewrite length_drop; lia).
  replace (4 + (n - 4)) with n by lia. split; [|lia].
  assert (be_bytes 4 n = take 4 (take (Z.to_nat n) input)) as ->; [|now rewrite take_drop].
  rewrite take_take, Nat.min_l by lia. rewrite Hs. now rewrite take_be_bytes.
Qed.

Lemma decode_packet_no_panic p : packet_framed p -> decode_packet p <> Panic.
Proof.
  intros (body & Hp & H4 & Hi). pose proof (packet_framed_len _ _ Hp) as Hl. unfold len in Hl, H4.
  unfold decode_packet, be_u32_at. rewrite (proj2 (Nat.ltb_ge _ _)) by lia.
  destruct (_ && _); [done|]. destruct (_ && _); [done|]. destruct (_ =? CANCEL_REQUEST_CODE).
  - unfold contains. destruct (Z.leb_spec 16 (len p)); [|done]. unfold len in *.
    destruct (_ <=? 268); [|done]. cbn [negb andb]. rewrite (proj2 (Nat.ltb_ge _ _)) by lia. done.
  - pose proof (StartupMessage_decode_no_panic p). now destruct (StartupMessage_decode p).
Qed.

Lemma decode_incomplete p k max :
  packet_framed p -> contains 8 I32_MAX max = true -> len p <= max -> (k < length p)%nat ->
  decode_pre_startup_with_limit (take k p) max = (Ok None, take k p).
Proof.
  intros (body & Hp & H4 & Hi) Hm Hle Hk.
  pose proof (packet_framed_len _ _ Hp) as Hl. unfold decode_pre_startup_with_limit. rewrite Hm. cbn [negb].
  assert (len (take k p) = Z.of_nat k) as -> by (unfold len; rewrite length_take; lia).
  destruct (Z.ltb_spec (Z.of_nat k) 4); [done|].
  assert (be_u32_at 0 (take k p) = Ok (len p)) as ->.
  { unfold be_u32_at. rewrite length_take, (proj2 (Nat.ltb_ge _ _)) by lia. rewrite drop_0.
    rewrite take_take, Nat.min_l by lia. rewrite Hl, Hp, take_be_bytes.
    rewrite be_value_small by (unfold I32_MAX in *; simpl; lia). done. }
  unfold I32_MAX in *. rewrite !(proj2 (Z.ltb_ge _ _)) by lia.
  rewrite (proj2 (Z.ltb_lt _ _)) by (unfold len; lia). done.
Qed.

(** ** Properties *)

(** First-packet round trip. The raw packet built for a canonical message is
    decoded back to it, whatever follows on the stream, provided the packet is
    within a valid limit; exactly the packet is consumed. *)
Theorem pre_startup_roundtrip m p rest max :
  PreStartupMessage_canonical m -> to_packet m = Ok p ->
  contains 8 I32_MAX max = true -> len p <= max ->
  decode_pre_startup_with_limit (p ++ rest) max = (Ok (Some m), rest).
Proof.
  intros Hc Hp Hm Hle. pose proof (to_packet_framed _ _ Hp).
  rewrite decode_complete by done. now rewrite (decode_packet_to_packet m).
Qed.

Lemma pre_startup_roundtrip_witness :
  exists p, to_packet (CancelRequest 7 [x01; x02; x03; x04]) = Ok p /\
    decode_pre_startup_with_limit (p ++ [x51]) DEFAULT_MAX_PRE_STARTUP_PACKET_LEN =
      (Ok (Some (CancelRequest 7 [x01; x02; x03; x04])), [x51]).
Proof.
  eexists. split; [vm_compute; reflexivity|]. apply pre_startup_roundtrip.
  - unfold PreStartupMessage_canonical, in_u. lia.
  - reflexivity.
  - reflexivity.
  - vm_compute. congruence.
Defined.

(** Incremental first-packet decoding. On a proper prefix of a packet within
    the limit the decoder asks for more input and leaves the buffer alone. *)
Theorem pre_startup_incremental m p k max :
  to_packet m = Ok p -> contains 8 I32_MAX max = true -> len p <= max -> (k < length p)%nat ->
  decode_pre_startup_with_limit (take k p) max = (Ok None, take k p).
Proof. intros Hp%to_packet_framed. now apply decode_incomplete. Qed.

Lemma pre_startup_incremental_witness :
  decode_pre_startup_with_limit (take 6 ssl_request_packet) 10000 = (Ok None, take 6 ssl_request_packet).
Proof.
  apply (pre_startup_incremental SslRequest); [reflexivity|reflexivity|vm_compute; congruence|simpl; lia].
Defined.

(** First-packet decoding of arbitrary input. It never panics; when it does
    not return a message before splitting off a packet, the buffer is untouched;
    otherwise it removes one packet of 8 to [max] bytes whose length word is its
    length, and a decoded special request re-encodes to exactly those bytes. *)
Theorem pre_startup_total input max :
  let '(r, rest) := decode_pre_startup_with_limit input max in
  r <> Panic /\
  ((rest = input /\ forall m, r <> Ok (Some m)) \/
   exists p, input = p ++ rest /\ packet_framed p /\ len p <= max /\
     forall m, r = Ok (Some m) ->
       match m with
       | MsgStartup message => StartupMessage_decode p = Ok message
       | _ => to_packet m = Ok p
       end).
Proof.
  pose proof (decode_pre_startup_cases input max) as H.
  destruct (decode_pre_startup_with_limit input max) as [r rest].
  destruct H as [(-> & Hp & Hm)|(p & -> & Hf & Hle & ->)]; [auto|].
  split; [now apply decode_packet_no_panic|]. right. exists p.
  repeat split; auto. intros m. now apply decode_packet_inv.
Qed.

(** The server's three possible answers to [SSLRequest]. *)
Inductive SslDecision : Type := DecideAccept | DecideReject | DecideLegacy.

(** One SSL negotiation over the wire: the client sends its request, the server
    decodes it and answers, the client reads the answering byte and applies its
    mode. The outcome is both parties' next connection. *)
Definition ssl_exchange {T U} (client : T) (server : U) (mode : SslMode) (d : SslDecision)
    : option (SslModeNegotiation T Pristine * (Phase.t * option U)) :=
  let (c, packet) := ssl_request (Conn_new client) in
  match decode_pre_startup packet with
  | (Ok (Some m), []) =>
      match offer_pre_startup (Conn_new server) m with
      | Offer_Ssl s =>
          let answer :=
            match d with
            | DecideAccept => let (s, b) := accept_ssl s in (Phase.TlsHandshake, transport s, b)
            | DecideReject => let (s, b) := reject_ssl s in (Phase.PreStartup, transport s, b)
            | DecideLegacy => let (s, b) := legacy_ssl_error s in (Phase.Terminated, transport s, b)
            end in
          match EncryptionReply_try_from answer.2 with
          | Ok reply => Some (apply_ssl_reply c reply mode, answer.1)
          | _ => None
          end
      | _ => None
      end
  | _ => None
  end.

Definition ssl_outcome {T C} (n : SslModeNegotiation T C) : Phase.t * option T :=
  match n with
  | Ssl_Accepted c => (Phase.TlsHandshake, transport c)
  | Ssl_Plaintext c => (Phase.PreStartup, transport c)
  | Ssl_RequiredRejected c _ => (Phase.Terminated, transport c)
  | Ssl_LegacyError c => (Phase.Terminated, transport c)
  end.

(** The two roles of an SSL negotiation agree. Every exchange completes with
    both transports live; the client starts a TLS handshake exactly when the
    server does; both return to plaintext startup exactly when the server
    rejects and the mode allows it; and a mode that checks certificates, or
    requires TLS, never continues in plaintext. *)
Theorem ssl_negotiation_agreement {T U} (client : T) (server : U) mode d :
  exists n sp, ssl_exchange client server mode d = Some (n, (sp, Some server)) /\
    (ssl_outcome n).2 = Some client /\
    ((ssl_outcome n).1 = Phase.TlsHandshake <-> sp = Phase.TlsHandshake) /\
    ((ssl_outcome n).1 = Phase.PreStartup <->
       sp = Phase.PreStartup /\ (mode = Disable \/ mode = Allow \/ mode = Prefer)) /\
    (verification (strategy mode) <> VerifyNone \/ mode = Require_ ->
       (ssl_outcome n).1 <> Phase.PreStartup).
Proof.
  destruct mode, d; do 2 eexists; (split; [vm_compute; reflexivity|]); simpl;
    repeat split; try congruence; try tauto; try (intros [H1 H2]; congruence);
    try (intros [? [?|[?|?]]]; congruence); intros [|]; congruence.
Qed.
