(* ===== verification/Backend.v ===== *)
(** Messages sent by a backend: the types of src/codec.rs, their
    reconstruction ([to_frame]) and their decoding, and the proof that the two
    are inverse to each other. *)

From Stdlib Require Import ZArith Lia String.
From Stdlib Require Import Init.Byte.
From stdpp Require Import prelude.
From S2P Require Import Prelude Wire Frame Startup Frontend.

(** ** Message types *)

Record FieldDescription : Type := mkField {
  field_name : bytes;
  table_oid : Z (* u32 *);
  column : Z (* i16 *);
  type_oid : Z (* u32 *);
  type_size : Z (* i16 *);
  type_modifier : Z (* i32 *);
  field_format : Z (* i16 *)
}.

Record RowDescription : Type := mkRowDescription { row_fields : list FieldDescription }.

Inductive Authentication : Type :=
| A_Ok
| A_KerberosV5
| A_CleartextPassword
| A_Md5Password (salt : bytes (* [u8; 4] *))
| A_Gss
| A_GssContinue (data : bytes)
| A_Sspi
| A_Sasl (mechanisms : list bytes)
| A_SaslContinue (data : bytes)
| A_SaslFinal (data : bytes).

Inductive TransactionStatus : Type := Idle | InTransaction | FailedTransaction.

Record NegotiateProtocolVersion : Type := mkNegotiate {
  newest : ProtocolVersion;
  unsupported_options : list bytes
}.

Record DiagnosticField : Type := mkDiagnosticField { code : byte; value : bytes }.

Record DiagnosticResponse : Type := mkDiagnostic { fields : list DiagnosticField }.

Record CopyResponse : Type := mkCopyResponse {
  overall_format : byte;
  column_formats : list Z (* i16 *)
}.

Record DataRow : Type := mkDataRow { columns : list (option bytes) }.

Inductive BackendMessage : Type :=
| B_RowDescription (m : RowDescription)
| B_Authentication (m : Authentication)
| B_ParseComplete
| B_BindComplete
| B_CloseComplete
| B_CommandComplete (command_tag : bytes)
| B_CopyData (data : bytes)
| B_CopyDone
| B_CopyInResponse (m : CopyResponse)
| B_CopyOutResponse (m : CopyResponse)
| B_CopyBothResponse (m : CopyResponse)
| B_DataRow (m : DataRow)
| B_EmptyQueryResponse
| B_ErrorResponse (m : DiagnosticResponse)
| B_NoData
| B_ParameterStatus (name value : bytes)
| B_NoticeResponse (m : DiagnosticResponse)
| B_NotificationResponse (process_id : Z (* u32 *)) (channel payload : bytes)
| B_BackendKeyData (process_id : Z (* u32 *)) (secret_key : bytes)
| B_ReadyForQuery (status : TransactionStatus)
| B_ParameterDescription (types : list Z (* u32 *))
| B_PortalSuspended
| B_FunctionCallResponse (data : bytes)
| B_NegotiateProtocolVersion (m : NegotiateProtocolVersion).

#[export] Instance FieldDescription_eq_dec : EqDecision FieldDescription.
Proof. solve_decision. Defined.
#[export] Instance RowDescription_eq_dec : EqDecision RowDescription.
Proof. solve_decision. Defined.
#[export] Instance Authentication_eq_dec : EqDecision Authentication.
Proof. solve_decision. Defined.
#[export] Instance TransactionStatus_eq_dec : EqDecision TransactionStatus.
Proof. solve_decision. Defined.
#[export] Instance NegotiateProtocolVersion_eq_dec : EqDecision NegotiateProtocolVersion.
Proof. solve_decision. Defined.
#[export] Instance DiagnosticField_eq_dec : EqDecision DiagnosticField.
Proof. solve_decision. Defined.
#[export] Instance DiagnosticResponse_eq_dec : EqDecision DiagnosticResponse.
Proof. solve_decision. Defined.
#[export] Instance CopyResponse_eq_dec : EqDecision CopyResponse.
Proof. solve_decision. Defined.
#[export] Instance DataRow_eq_dec : EqDecision DataRow.
Proof. solve_decision. Defined.
#[export] Instance BackendMessage_eq_dec : EqDecision BackendMessage.
Proof. solve_decision. Defined.

(** ** Reconstruction *)

Definition put_field (field : FieldDescription) (body : bytes) : io bytes :=
  let? body := put_cstr (field_name field) body in
  let body := put_u32 (table_oid field) body in
  let body := put_i16 (column field) body in
  let body := put_u32 (type_oid field) body in
  let body := put_i16 (type_size field) body in
  let body := put_i32 (type_modifier field) body in
  let body := put_i16 (field_format field) body in
  Ok body.

Definition RowDescription_to_frame (m : RowDescription) : io Frame :=
  let? body := put_counted put_field (row_fields m) [] in
  Ok (mkFrame "T"%byte body).

(** The match of [authentication_frame] on the request kind. *)
Definition authentication_body (authentication : Authentication) (body : bytes) : io bytes :=
  match authentication with
  | A_Ok => Ok (put_u32 0 body)
  | A_KerberosV5 => Ok (put_u32 2 body)
  | A_CleartextPassword => Ok (put_u32 3 body)
  | A_Md5Password salt => Ok (put_u32 5 body ++ salt)
  | A_Gss => Ok (put_u32 7 body)
  | A_GssContinue data => Ok (put_u32 8 body ++ data)
  | A_Sspi => Ok (put_u32 9 body)
  | A_Sasl mechanisms =>
      let? body := put_all put_cstr mechanisms (put_u32 10 body) in
      Ok (put_u8 x00 body)
  | A_SaslContinue data => Ok (put_u32 11 body ++ data)
  | A_SaslFinal data => Ok (put_u32 12 body ++ data)
  end.

Definition authentication_frame (authentication : Authentication) : io Frame :=
  let? body := authentication_body authentication [] in
  Ok (mkFrame "R"%byte body).

Definition as_byte (status : TransactionStatus) : byte :=
  match status with
  | Idle => "I"%byte
  | InTransaction => "T"%byte
  | FailedTransaction => "E"%byte
  end.

Definition NegotiateProtocolVersion_to_frame (m : NegotiateProtocolVersion) : io Frame :=
  let body := put_u32 (Z.lor (Z.shiftl (major (newest m)) 16) (minor (newest m))) [] in
  let? count :=
    if len (unsupported_options m) <=? U32_MAX then Ok (len (unsupported_options m))
    else Err (invalid_input "unsupported option count exceeds u32") in
  let body := put_u32 count body in
  let? body := put_all put_cstr (unsupported_options m) body in
  Ok (mkFrame "v"%byte body).

Definition DataRow_to_frame (m : DataRow) : io Frame :=
  let? body := put_counted put_nullable (columns m) [] in
  Ok (mkFrame "D"%byte body).

Definition put_diagnostic_field (field : DiagnosticField) (body : bytes) : io bytes :=
  if decide (code field = x00) then Err (invalid_input "diagnostic field code cannot be zero")
  else put_cstr (value field) (put_u8 (code field) body).

Definition diagnostic_frame (tag : byte) (response : DiagnosticResponse) : io Frame :=
  let? body := put_all put_diagnostic_field (fields response) [] in
  Ok (mkFrame tag (put_u8 x00 body)).

Definition copy_response_frame (tag : byte) (response : CopyResponse) : io Frame :=
  let? body := put_i16_vec (column_formats response) (put_u8 (overall_format response) []) in
  Ok (mkFrame tag body).

Definition BackendMessage_to_frame (m : BackendMessage) : io Frame :=
  match m with
  | B_RowDescription m => RowDescription_to_frame m
  | B_Authentication m => authentication_frame m
  | B_ParseComplete => Ok (empty_message "1"%byte)
  | B_BindComplete => Ok (empty_message "2"%byte)
  | B_CloseComplete => Ok (empty_message "3"%byte)
  | B_CommandComplete tag => cstr_message "C"%byte tag
  | B_CopyData data => Ok (mkFrame "d"%byte data)
  | B_CopyDone => Ok (empty_message "c"%byte)
  | B_CopyInResponse response => copy_response_frame "G"%byte response
  | B_CopyOutResponse response => copy_response_frame "H"%byte response
  | B_CopyBothResponse response => copy_response_frame "W"%byte response
  | B_DataRow row => DataRow_to_frame row
  | B_EmptyQueryResponse => Ok (empty_message "I"%byte)
  | B_ErrorResponse response => diagnostic_frame "E"%byte response
  | B_NoData => Ok (empty_message "n"%byte)
  | B_ParameterStatus name value =>
      let? body := put_cstr name [] in
      let? body := put_cstr value body in
      Ok (mkFrame "S"%byte body)
  | B_NoticeResponse response => diagnostic_frame "N"%byte response
  | B_NotificationResponse process_id channel payload =>
      let? body := put_cstr channel (put_u32 process_id []) in
      let? body := put_cstr payload body in
      Ok (mkFrame "A"%byte body)
  | B_BackendKeyData process_id secret_key =>
      if negb ((4 <=? len secret_key) && (len secret_key <=? 256))
      then Err (invalid_input "cancellation key length is outside 4..=256")
      else Ok (mkFrame "K"%byte (put_u32 process_id [] ++ secret_key))
  | B_ReadyForQuery status => Ok (mkFrame "Z"%byte [as_byte status])
  | B_ParameterDescription types =>
      let? body := put_counted (fun oid body => Ok (put_u32 oid body)) types [] in
      Ok (mkFrame "t"%byte body)
  | B_PortalSuspended => Ok (empty_message "s"%byte)
  | B_FunctionCallResponse data => Ok (mkFrame "V"%byte data)
  | B_NegotiateProtocolVersion m => NegotiateProtocolVersion_to_frame m
  end.

(** ** Decoding *)

(** [while !body.is_empty() && body[0] != 0 { mechanisms.push(take_cstr(&mut body)?); }]
    The fuel is the body length plus one; running out of it is [Panic]. *)
Fixpoint take_mechanisms (fuel : nat) (body : bytes) : io (list bytes * bytes) :=
  match fuel with
  | O => Panic
  | S fuel =>
      match body with
      | [] => Ok ([], body)
      | b :: _ =>
          if decide (b = x00) then Ok ([], body)
          else
            let? (mechanism, body) := take_cstr body in
            let? (mechanisms, body) := take_mechanisms fuel body in
            Ok (mechanism :: mechanisms, body)
      end
  end.

(** The match of [decode_authentication] on the request kind. *)
Definition take_authentication (kind : Z) (body : bytes) : io (Authentication * bytes) :=
  match kind with
  | 0 => Ok (A_Ok, body)
  | 2 => Ok (A_KerberosV5, body)
  | 3 => Ok (A_CleartextPassword, body)
  | 5 =>
      let? _ := require body 4 in
      let? (salt, body) := split_to 4 body in
      Ok (A_Md5Password salt, body)
  | 7 => Ok (A_Gss, body)
  | 8 => let? (data, body) := split_to (length body) body in Ok (A_GssContinue data, body)
  | 9 => Ok (A_Sspi, body)
  | 10 =>
      let? (mechanisms, body) := take_mechanisms (S (length body)) body in
      let? _ := require body 1 in
      let? body := advance 1 body in
      Ok (A_Sasl mechanisms, body)
  | 11 => let? (data, body) := split_to (length body) body in Ok (A_SaslContinue data, body)
  | 12 => let? (data, body) := split_to (length body) body in Ok (A_SaslFinal data, body)
  | _ => Err (invalid "unknown authentication request")
  end.

Definition decode_authentication (body : bytes) : io Authentication :=
  let? (kind, body) := take_u32 body in
  let? (auth, body) := take_authentication kind body in
  let? _ := require_empty body in
  Ok auth.

Definition decode_parameter_status (body : bytes) : io BackendMessage :=
  let? (name, body) := take_cstr body in
  let? (value, body) := take_cstr body in
  let? _ := require_empty body in
  Ok (B_ParameterStatus name value).

Definition decode_notification (body : bytes) : io BackendMessage :=
  let? (process_id, body) := take_u32 body in
  let? (channel, body) := take_cstr body in
  let? (payload, body) := take_cstr body in
  let? _ := require_empty body in
  Ok (B_NotificationResponse process_id channel payload).

Definition decode_backend_key_data (body : bytes) : io BackendMessage :=
  let? (process_id, body) := take_u32 body in
  if negb ((4 <=? len body) && (len body <=? 256))
  then Err (invalid "cancellation key length is outside 4..=256")
  else Ok (B_BackendKeyData process_id body).

Definition decode_ready (body : bytes) : io BackendMessage :=
  let? _ := require body 1 in
  let? (b, body) := get_u8 body in
  let? status :=
    match b with
    | "I"%byte => Ok Idle
    | "T"%byte => Ok InTransaction
    | "E"%byte => Ok FailedTransaction
    | _ => Err (invalid "unknown transaction status")
    end in
  let? _ := require_empty body in
  Ok (B_ReadyForQuery status).

Definition decode_negotiate_protocol_version (body : bytes) : io BackendMessage :=
  let? (newest, body) := take_u32 body in
  let? major :=
    if Z.shiftr newest 16 <=? U16_MAX then Ok (Z.shiftr newest 16)
    else Err (invalid "protocol major overflow") in
  let? minor :=
    if Z.land newest 65535 <=? U16_MAX then Ok (Z.land newest 65535)
    else Err (invalid "protocol minor overflow") in
  let? (count, body) := take_u32 body in
  let? _ := require_collection_bytes count (len body) 1 "unsupported option count" in
  let? (unsupported_options, body) := take_n take_cstr (Z.to_nat count) body in
  let? _ := require_empty body in
  Ok (B_NegotiateProtocolVersion (mkNegotiate (mkVersion major minor) unsupported_options)).

Definition decode_data_row (body : bytes) : io DataRow :=
  let? (columns, body) := take_counted take_nullable 4 "column count" body in
  let? _ := require_empty body in
  Ok (mkDataRow columns).

(** The diagnostic loop: a code byte, zero ending the list, then a C string.
    The fuel is the body length plus one; running out of it is [Panic]. *)
Fixpoint take_diagnostic_fields (fuel : nat) (body : bytes) : io (list DiagnosticField * bytes) :=
  match fuel with
  | O => Panic
  | S fuel =>
      let? _ := require body 1 in
      let? (code, body) := get_u8 body in
      if decide (code = x00) then Ok ([], body)
      else
        let? (value, body) := take_cstr body in
        let? (fields, body) := take_diagnostic_fields fuel body in
        Ok (mkDiagnosticField code value :: fields, body)
  end.

Definition decode_diagnostic (body : bytes) : io DiagnosticResponse :=
  let? (fields, body) := take_diagnostic_fields (S (length body)) body in
  let? _ := require_empty body in
  Ok (mkDiagnostic fields).

Definition decode_copy_response (body : bytes) : io CopyResponse :=
  let? _ := require body 1 in
  let? (overall_format, body) := get_u8 body in
  let? (column_formats, body) := take_i16_vec body in
  let? _ := require_empty body in
  Ok (mkCopyResponse overall_format column_formats).

Definition decode_parameter_description (body : bytes) : io (list Z) :=
  let? (types, body) := take_counted take_u32 4 "parameter type count" body in
  let? _ := require_empty body in
  Ok types.

Definition take_field (body : bytes) : io (FieldDescription * bytes) :=
  let? (name, body) := take_cstr body in
  let? (table_oid, body) := take_u32 body in
  let? (column, body) := take_i16 body in
  let? (type_oid, body) := take_u32 body in
  let? (type_size, body) := take_i16 body in
  let? (type_modifier, body) := take_i32 body in
  let? (format, body) := take_i16 body in
  Ok (mkField name table_oid column type_oid type_size type_modifier format, body).

Definition decode_row_description (body : bytes) : io RowDescription :=
  let? (fields, body) := take_counted take_field 19 "field count" body in
  let? _ := require_empty body in
  Ok (mkRowDescription fields).

Definition Backend_decode (frame : Frame) : io BackendMessage :=
  let b := body frame in
  match tag frame with
  | "1"%byte => result_map (fun _ => B_ParseComplete) (decode_empty b)
  | "2"%byte => result_map (fun _ => B_BindComplete) (decode_empty b)
  | "3"%byte => result_map (fun _ => B_CloseComplete) (decode_empty b)
  | "C"%byte => result_map B_CommandComplete (decode_cstr_body b)
  | "c"%byte => result_map (fun _ => B_CopyDone) (decode_empty b)
  | "d"%byte => Ok (B_CopyData b)
  | "D"%byte => result_map B_DataRow (decode_data_row b)
  | "E"%byte => result_map B_ErrorResponse (decode_diagnostic b)
  | "G"%byte => result_map B_CopyInResponse (decode_copy_response b)
  | "H"%byte => result_map B_CopyOutResponse (decode_copy_response b)
  | "I"%byte => result_map (fun _ => B_EmptyQueryResponse) (decode_empty b)
  | "n"%byte => result_map (fun _ => B_NoData) (decode_empty b)
  | "s"%byte => result_map (fun _ => B_PortalSuspended) (decode_empty b)
  | "t"%byte => result_map B_ParameterDescription (decode_parameter_description b)
  | "T"%byte => result_map B_RowDescription (decode_row_description b)
  | "V"%byte => Ok (B_FunctionCallResponse b)
  | "W"%byte => result_map B_CopyBothResponse (decode_copy_response b)
  | "R"%byte => result_map B_Authentication (decode_authentication b)
  | "S"%byte => decode_parameter_status b
  | "N"%byte => result_map B_NoticeResponse (decode_diagnostic b)
  | "A"%byte => decode_notification b
  | "K"%byte => decode_backend_key_data b
  | "Z"%byte => decode_ready b
  | "v"%byte => decode_negotiate_protocol_version b
  | tag => Err (unknown_tag "backend" tag)
  end.

#[export] Instance Backend : Direction BackendMessage := {
  decode := Backend_decode;
  to_frame := BackendMessage_to_frame
}.

(** ** Canonical values

    Every integer is within its Rust type, an MD5 salt has its four bytes, and
    a SASL mechanism name is not empty: an empty name is the wire terminator. *)

Definition FieldDescription_typed (f : FieldDescription) : Prop :=
  in_u 32 (table_oid f) /\ in_i 16 (column f) /\ in_u 32 (type_oid f) /\
  in_i 16 (type_size f) /\ in_i 32 (type_modifier f) /\ in_i 16 (field_format f).

Definition Authentication_canonical (a : Authentication) : Prop :=
  match a with
  | A_Md5Password salt => length salt = 4%nat
  | A_Sasl mechanisms => Forall (fun m => m <> []) mechanisms
  | _ => True
  end.

Definition BackendMessage_canonical (m : BackendMessage) : Prop :=
  match m with
  | B_RowDescription m => Forall FieldDescription_typed (row_fields m)
  | B_Authentication a => Authentication_canonical a
  | B_CopyInResponse m | B_CopyOutResponse m | B_CopyBothResponse m =>
      Forall (in_i 16) (column_formats m)
  | B_NotificationResponse process_id _ _ => in_u 32 process_id
  | B_BackendKeyData process_id _ => in_u 32 process_id
  | B_ParameterDescription types => Forall (in_u 32) types
  | B_NegotiateProtocolVersion m => in_u 16 (major (newest m)) /\ in_u 16 (minor (newest m))
  | _ => True
  end.

(** ** Formats of the message bodies *)

#[export] Instance field_writer : WireWriter put_field.
Proof.
  intros f b b' H. unfold put_field in H. open_ok. injection H as <-.
  pose proof (wire_put _ _ _ E) as (w & -> & Hw). clear E.
  set (w' := be_bytes 4 (table_oid f) ++ be_bytes 2 (column f) ++ be_bytes 4 (type_oid f)
             ++ be_bytes 2 (type_size f) ++ be_bytes 4 (type_modifier f)
             ++ be_bytes 2 (field_format f)).
  exists (w ++ w'). unfold put_u32, put_i16, put_i32, put_uint, w'. rewrite <- !app_assoc.
  split; [done|]. intros c. unfold put_field. rewrite Hw.
  unfold put_u32, put_i16, put_i32, put_uint. now rewrite <- !app_assoc.
Qed.

Lemma writes_field f w : writes put_field f w <->
  exists w', writes put_cstr (field_name f) w' /\
    w = w' ++ be_bytes 4 (table_oid f) ++ be_bytes 2 (column f) ++ be_bytes 4 (type_oid f)
           ++ be_bytes 2 (type_size f) ++ be_bytes 4 (type_modifier f) ++ be_bytes 2 (field_format f).
Proof.
  unfold put_field, put_u32, put_i16, put_i32, put_uint. split.
  - intros H. pose proof (H []) as H0. cbv beta in H0. open_ok.
    pose proof (wire_put _ _ _ E) as (w' & -> & Hw). exists w'. split; [done|].
    injection H0 as <-. now rewrite <- !app_assoc.
  - intros (w' & Hw & ->) b. rewrite Hw. now rewrite <- !app_assoc.
Qed.

#[export] Instance field_format_ok : WireFormat put_field take_field FieldDescription_typed 19.
Proof.
  split.
  - apply _.
  - intros f w rest Ht (w' & Hw & ->)%writes_field. unfold take_field.
    rewrite <- !app_assoc, (wire_put_read _ _ _ I Hw). destruct Ht as (? & ? & ? & ? & ? & ?).
    rewrite take_u32_be by done.
    rewrite take_i16_be by done.
    rewrite take_u32_be by done.
    rewrite take_i16_be by done.
    rewrite take_i32_be by done.
    rewrite take_i16_be by done.
    now destruct f.
  - intros bs f rest H. unfold take_field in H. open_ok. injection H as <- <-. wire_reads.
    split; [unfold FieldDescription_typed; simpl; tauto|].
    apply (writes_uint 2) in Hw, Hw1, Hw3. apply (writes_uint 4) in Hw0, Hw2, Hw4. subst.
    eexists. rewrite writes_field. simpl. split; [|eexists; split; [eassumption|reflexivity]].
    now rewrite <- !app_assoc.
  - intros f w (w' & Hw%wire_min & ->)%writes_field. rewrite !length_app, !length_be_bytes. lia.
  - intros bs. unfold take_field. no_panic.
Qed.

#[export] Instance fields_format d :
  WireFormat (put_counted put_field) (take_counted take_field 19 d) (Forall FieldDescription_typed) 2.
Proof. apply (counted_format (min := 19)); [lia]. Qed.

(** *** Diagnostic fields *)

Lemma writes_diagnostic_field f w : writes put_diagnostic_field f w <->
  code f <> x00 /\ exists w', writes put_cstr (value f) w' /\ w = code f :: w'.
Proof.
  unfold put_diagnostic_field, put_u8. split.
  - intros H. pose proof (H []) as H0. cbv beta in H0. case_decide; [done|]. split; [done|].
    apply wire_put in H0 as (w' & Hb & Hw). exists w'. split; [done|]. exact Hb.
  - intros (Hc & w' & Hw & ->) b. rewrite decide_False by done. rewrite Hw. now rewrite <- app_assoc.
Qed.

#[export] Instance diagnostic_field_writer : WireWriter put_diagnostic_field.
Proof.
  intros f b b' H. unfold put_diagnostic_field, put_u8 in H. case_decide; [done|].
  apply wire_put in H as (w & -> & Hw). exists (code f :: w). rewrite <- app_assoc. split; [done|].
  rewrite writes_diagnostic_field. eauto.
Qed.

Lemma take_diagnostic_fields_put fs w rest fuel :
  writes (put_all put_diagnostic_field) fs w -> (length w < fuel)%nat ->
  take_diagnostic_fields fuel (w ++ x00 :: rest) = Ok (fs, rest).
Proof.
  revert w fuel; induction fs as [|f fs IH]; intros w [|fuel] Hw Hf; try lia.
  - apply writes_all_nil in Hw as ->. cbn [take_diagnostic_fields app].
    rewrite (proj2 (require_ok _ _)) by (simpl; lia). reflexivity.
  - apply writes_all_cons in Hw as (w1 & w2 & -> & (Hc & w' & Hw' & ->)%writes_diagnostic_field & H2).
    cbn [take_diagnostic_fields app get_u8].
    rewrite (proj2 (require_ok _ _)) by (simpl; lia). rewrite decide_False by done.
    rewrite <- !app_assoc, (wire_put_read _ _ _ I Hw').
    rewrite length_app in Hf. simpl in Hf.
    rewrite (IH _ _ H2) by lia. now destruct f.
Qed.

Lemma take_diagnostic_fields_inv fuel bs fs rest :
  take_diagnostic_fields fuel bs = Ok (fs, rest) ->
  exists w, bs = w ++ x00 :: rest /\ writes (put_all put_diagnostic_field) fs w.
Proof.
  revert bs fs; induction fuel as [|fuel IH]; intros bs fs H; [done|].
  cbn [take_diagnostic_fields] in H. destruct bs as [|c bs]; [done|].
  rewrite (proj2 (require_ok _ _)) in H by (simpl; lia).
  cbn [get_u8] in H. case_decide as Hc.
  { injection H as <- <-. exists []. rewrite Hc. split; [reflexivity|].
    intros b'. simpl. now rewrite app_nil_r. }
  open_ok. injection H as <- <-. apply IH in E0 as (w2 & -> & H2).
  apply wire_read_put in E as (_ & w1 & -> & H1).
  exists ((c :: w1) ++ w2). split; [now rewrite <- app_assoc|].
  intros b'. cbn [put_all].
  assert (Hf : writes put_diagnostic_field (mkDiagnosticField c l) (c :: w1))
    by (apply writes_diagnostic_field; eauto).
  rewrite Hf, H2. now rewrite <- !app_assoc.
Qed.

Lemma take_diagnostic_fields_no_panic fuel bs :
  (length bs < fuel)%nat -> take_diagnostic_fields fuel bs <> Panic.
Proof.
  revert bs; induction fuel as [|fuel IH]; intros bs Hf; [lia|]. cbn [take_diagnostic_fields].
  destruct (require_cases bs 1) as [[Hl ->]|[_ ->]]; [|done].
  destruct bs as [|c bs]; [simpl in Hl; lia|]. cbn [get_u8]. case_decide; [done|].
  pose proof (wire_no_panic (read := take_cstr) bs).
  destruct (take_cstr bs) as [[v r]| |] eqn:Ev; [|done|done].
  apply wire_read_put in Ev as (_ & w & -> & _). simpl in Hf. rewrite length_app in Hf.
  specialize (IH r ltac:(lia)). destruct (take_diagnostic_fields fuel r) as [[]| |]; done.
Qed.

(** *** SASL mechanism lists *)

Lemma take_mechanisms_put ms w rest fuel :
  Forall (fun m => m <> []) ms -> writes (put_all put_cstr) ms w -> (length w < fuel)%nat ->
  take_mechanisms fuel (w ++ x00 :: rest) = Ok (ms, x00 :: rest).
Proof.
  revert w fuel; induction ms as [|m ms IH]; intros w [|fuel] Hm Hw Hf; try lia.
  - now apply writes_all_nil in Hw as ->.
  - apply writes_all_cons in Hw as (w1 & w2 & -> & Hw1 & H2). inversion Hm as [|? ? Hne Hms]; subst.
    rewrite length_app in Hf. pose proof (wire_min _ _ Hw1) as Hmin.
    pose proof Hw1 as [-> Hnul]%writes_cstr. destruct m as [|c m]; [done|].
    cbn [take_mechanisms app]. rewrite decide_False by (intros ->; apply Hnul; left).
    change (c :: ((m ++ [x00]) ++ w2) ++ x00 :: rest) with ((((c :: m) ++ [x00]) ++ w2) ++ x00 :: rest).
    rewrite <- (app_assoc _ w2), (wire_put_read _ _ _ I Hw1), (IH _ _ Hms H2) by lia. done.
Qed.

Lemma take_mechanisms_inv fuel bs ms rest : take_mechanisms fuel bs = Ok (ms, rest) ->
  Forall (fun m => m <> []) ms /\ (rest = [] \/ exists r, rest = x00 :: r) /\
  exists w, bs = w ++ rest /\ writes (put_all put_cstr) ms w.
Proof.
  assert (Hnil : writes (put_all put_cstr) [] []) by (intros b; simpl; now rewrite app_nil_r).
  revert bs ms; induction fuel as [|fuel IH]; intros bs ms H; [done|].
  destruct bs as [|c bs]; cbn [take_mechanisms] in H.
  { injection H as <- <-. split; [constructor|]. split; [now left|]. now exists []. }
  case_decide as Hc.
  { injection H as <- <-. rewrite Hc. split; [constructor|]. split; [right; eauto|]. now exists []. }
  open_ok. injection H as <- <-. apply IH in E0 as (Hms & Hr & w2 & -> & H2).
  apply wire_read_put in E as (_ & w1 & Hb & H1).
  split; [constructor; [|done]|split; [done|]].
  - intros ->. apply writes_cstr in H1 as [-> _]. simpl in Hb. congruence.
  - exists (w1 ++ w2). rewrite Hb, app_assoc. split; [done|]. intros b'. simpl.
    rewrite H1, H2. now rewrite app_assoc.
Qed.

Lemma take_mechanisms_no_panic fuel bs : (length bs < fuel)%nat -> take_mechanisms fuel bs <> Panic.
Proof.
  revert bs; induction fuel as [|fuel IH]; intros bs Hf; [lia|]. cbn [take_mechanisms].
  destruct bs as [|c bs]; [done|]. case_decide; [done|].
  pose proof (wire_no_panic (read := take_cstr) (c :: bs)).
  destruct (take_cstr (c :: bs)) as [[v r]| |] eqn:Ev; [|done|done].
  apply wire_read_put in Ev as (_ & w & Hw & Hmin%wire_min).
  rewrite Hw, length_app in Hf. specialize (IH r ltac:(lia)).
  destruct (take_mechanisms fuel r) as [[]| |]; done.
Qed.

(** ** Message bodies, both ways *)

Lemma decode_row_description_to_frame m f : Forall FieldDescription_typed (row_fields m) ->
  RowDescription_to_frame m = Ok f -> tag f = "T"%byte /\ decode_row_description (body f) = Ok m.
Proof.
  intros ?. frame_decode RowDescription_to_frame. unfold decode_row_description.
  wire_read_back. now destruct m.
Qed.

Lemma to_frame_decode_row_description b m : decode_row_description b = Ok m ->
  Forall FieldDescription_typed (row_fields m) /\ RowDescription_to_frame m = Ok (mkFrame "T"%byte b).
Proof.
  frame_rebuild decode_row_description. split; [done|]. unfold RowDescription_to_frame.
  cbn [row_fields]. wire_write_back. done.
Qed.

Lemma decode_data_row_to_frame m f :
  DataRow_to_frame m = Ok f -> tag f = "D"%byte /\ decode_data_row (body f) = Ok m.
Proof. frame_decode DataRow_to_frame. unfold decode_data_row. wire_read_back. now destruct m. Qed.

Lemma to_frame_decode_data_row b m :
  decode_data_row b = Ok m -> DataRow_to_frame m = Ok (mkFrame "D"%byte b).
Proof.
  frame_rebuild decode_data_row. unfold DataRow_to_frame. cbn [columns]. wire_write_back. done.
Qed.

Lemma decode_copy_response_u8 b : decode_copy_response b =
  let? (overall_format, b) := take_u8 b in
  let? (column_formats, b) := take_i16_vec b in
  let? _ := require_empty b in
  Ok (mkCopyResponse overall_format column_formats).
Proof. unfold decode_copy_response, take_u8. now destruct (require b 1). Qed.

Lemma decode_copy_response_frame t m f : Forall (in_i 16) (column_formats m) ->
  copy_response_frame t m = Ok f -> tag f = t /\ decode_copy_response (body f) = Ok m.
Proof.
  intros ?. frame_decode copy_response_frame. rewrite decode_copy_response_u8.
  wire_read_back. now destruct m.
Qed.

Lemma copy_response_frame_decode t b m : decode_copy_response b = Ok m ->
  Forall (in_i 16) (column_formats m) /\ copy_response_frame t m = Ok (mkFrame t b).
Proof.
  rewrite decode_copy_response_u8. intros H. open_ok. injection H as <-. wire_reads.
  split; [done|]. unfold copy_response_frame. cbn [overall_format column_formats].
  wire_write_back. done.
Qed.

Lemma decode_diagnostic_frame t m f :
  diagnostic_frame t m = Ok f -> tag f = t /\ decode_diagnostic (body f) = Ok m.
Proof.
  unfold diagnostic_frame, put_u8. intros H. open_ok. injection H as <-.
  apply put_all_writes in E as (w & -> & Hw). split; [done|]. unfold decode_diagnostic. cbn [body].
  rewrite app_nil_l, (take_diagnostic_fields_put _ _ [] _ Hw) by (rewrite length_app; lia).
  now destruct m.
Qed.

Lemma diagnostic_frame_decode t b m :
  decode_diagnostic b = Ok m -> diagnostic_frame t m = Ok (mkFrame t b).
Proof.
  unfold decode_diagnostic. intros H. open_ok. injection H as <-. apply require_empty_inv in E0 as ->.
  apply take_diagnostic_fields_inv in E as (w & -> & Hw). unfold diagnostic_frame. cbn [fields].
  rewrite Hw. done.
Qed.

Lemma split_to_all b : split_to (length b) b = Ok (b, []).
Proof. unfold split_to. now rewrite Nat.ltb_irrefl, firstn_all, drop_all. Qed.

Lemma take_authentication_body m b : Authentication_canonical m ->
  authentication_body m [] = Ok b ->
  exists kind w, b = be_bytes 4 kind ++ w /\ in_u 32 kind /\ take_authentication kind w = Ok (m, []).
Proof.
  intros Hc E. unfold authentication_body, put_u32, put_uint in E.
  destruct m as [| | |salt| |data| |ms|data|data]; cbn [Authentication_canonical] in Hc;
    rewrite ?app_nil_l in E; open_ok; apply Ok_inj in E as <-;
    try (eexists _, []; rewrite app_nil_r; split; [reflexivity|]; split; [vm_compute; split; congruence|reflexivity]);
    try (eexists _, data; split; [reflexivity|]; split; [vm_compute; split; congruence|];
         cbn [take_authentication]; now rewrite split_to_all).
  - eexists _, salt. split; [reflexivity|]. split; [vm_compute; split; congruence|].
    cbn [take_authentication]. rewrite (proj2 (require_ok _ _)) by lia.
    rewrite <- Hc, split_to_all. done.
  - apply put_all_writes in E0 as (w & -> & Hw). unfold put_u8.
    eexists _, (w ++ [x00]). rewrite <- app_assoc. split; [reflexivity|].
    split; [vm_compute; split; congruence|]. cbn [take_authentication].
    rewrite (take_mechanisms_put _ _ [] _ Hc Hw) by (rewrite length_app; lia). done.
Qed.

Lemma authentication_body_take kind w m : take_authentication kind w = Ok (m, []) ->
  Authentication_canonical m /\ authentication_body m [] = Ok (be_bytes 4 kind ++ w).
Proof.
  intros H. unfold take_authentication in H. rewrite split_to_all in H.
  destruct kind as [|p|p]; [|repeat (destruct p as [p|p|]; try discriminate H)|discriminate H];
    open_ok; injection H; intros; subst; try (split; [done|]; cbn; now rewrite ?app_nil_r).
  - unfold split_to in E0. destruct (Nat.ltb_spec (length w) 4); [done|]. injection E0 as <- Hd.
    cbn [Authentication_canonical authentication_body]. rewrite length_take_le by lia. split; [done|].
    assert (take 4 w = w) as -> by (rewrite <- (take_drop 4 w) at 2; now rewrite Hd, app_nil_r).
    done.
  - apply take_mechanisms_inv in E as (Hms & Hr & u & -> & Hu). split; [done|].
    unfold advance in E1. destruct (Nat.ltb_spec (length l0) 1); [done|]. injection E1 as Hd.
    destruct Hr as [->|[r ->]]; [simpl in *; lia|]. destruct r; [|discriminate Hd].
    cbn [authentication_body]. rewrite Hu. unfold put_u8. now rewrite <- app_assoc.
Qed.

Lemma decode_authentication_frame m f : Authentication_canonical m ->
  authentication_frame m = Ok f -> tag f = "R"%byte /\ decode_authentication (body f) = Ok m.
Proof.
  intros Hc H. unfold authentication_frame in H. open_ok. apply Ok_inj in H as <-.
  apply take_authentication_body in E as (kind & w & -> & Hk & Hw); [|done]. split; [done|].
  unfold decode_authentication. cbn [body]. now rewrite take_u32_be, Hw.
Qed.

Lemma authentication_frame_decode b m : decode_authentication b = Ok m ->
  Authentication_canonical m /\ authentication_frame m = Ok (mkFrame "R"%byte b).
Proof.
  unfold decode_authentication. intros H. open_ok. injection H as ->.
  apply require_empty_inv in E1 as ->. apply wire_read_put in E as (_ & w & -> & ->%(writes_uint 4)).
  apply authentication_body_take in E0 as [Hc Hb]. split; [done|].
  unfold authentication_frame. now rewrite Hb.
Qed.

(** *** Protocol negotiation: [(major << 16) | minor] and back *)

Lemma lor_shiftl_low a b n : 0 <= n -> 0 <= b < 2 ^ n -> Z.lor (Z.shiftl a n) b = a * 2 ^ n + b.
Proof.
  intros Hn Hb. rewrite <- Z.shiftl_mul_pow2, <- Z.add_lor_land by done.
  replace (Z.land (Z.shiftl a n) b) with 0; [ring|].
  apply Z.bits_inj'. intros i Hi. rewrite Z.land_spec, Z.shiftl_spec, Z.bits_0 by done.
  destruct (Z.ltb_spec i n); [now rewrite Z.testbit_neg_r by lia|].
  rewrite <- (Z.mod_small b (2 ^ n)), Z.mod_pow2_bits_high by lia. now rewrite andb_false_r.
Qed.

Lemma land_u16 w : Z.land w 65535 = w mod 2 ^ 16.
Proof. change 65535 with (Z.ones 16). now rewrite Z.land_ones by lia. Qed.

Lemma version_word_split ma mi : in_u 16 ma -> in_u 16 mi ->
  let w := Z.lor (Z.shiftl ma 16) mi in
  in_u 32 w /\ Z.shiftr w 16 = ma /\ Z.land w 65535 = mi.
Proof.
  unfold in_u. intros Hma Hmi. cbv zeta. rewrite land_u16, Z.shiftr_div_pow2, lor_shiftl_low by lia.
  rewrite Z.div_add_l, Z.div_small, Z.add_0_r by lia.
  rewrite Z.add_comm, Z.mod_add, Z.mod_small by lia. lia.
Qed.

Lemma version_word_join w : in_u 32 w ->
  in_u 16 (Z.shiftr w 16) /\ in_u 16 (Z.land w 65535) /\
  Z.lor (Z.shiftl (Z.shiftr w 16) 16) (Z.land w 65535) = w.
Proof.
  unfold in_u. intros Hw. rewrite land_u16, Z.shiftr_div_pow2 by lia.
  pose proof (Z.mod_pos_bound w (2 ^ 16) ltac:(lia)).
  rewrite lor_shiftl_low by lia. pose proof (Z.div_mod w (2 ^ 16) ltac:(lia)).
  split; [split; [apply Z.div_pos; lia|apply Z.div_lt_upper_bound; lia]|]. lia.
Qed.

Lemma decode_negotiate_to_frame m f :
  in_u 16 (major (newest m)) /\ in_u 16 (minor (newest m)) ->
  NegotiateProtocolVersion_to_frame m = Ok f ->
  tag f = "v"%byte /\ decode_negotiate_protocol_version (body f) = Ok (B_NegotiateProtocolVersion m).
Proof.
  intros [Hma Hmi] H. unfold NegotiateProtocolVersion_to_frame in H.
  destruct (Z.leb_spec (len (unsupported_options m)) U32_MAX) as [Hn|Hn]; [|done]. open_ok.
  apply Ok_inj in H as <-. split; [done|].
  apply put_all_writes in E as (w & -> & Hw). unfold decode_negotiate_protocol_version.
  cbn [body]. unfold put_u32, put_uint. rewrite app_nil_l, <- !app_assoc.
  destruct (version_word_split _ _ Hma Hmi) as (Hw32 & Hs & Hl).
  rewrite take_u32_be, Hs, Hl by done. unfold in_u, U16_MAX, U32_MAX in *.
  destruct (Z.leb_spec (major (newest m)) (2 ^ 16 - 1)); [|lia].
  destruct (Z.leb_spec (minor (newest m)) (2 ^ 16 - 1)); [|lia].
  pose proof (len_nonneg (unsupported_options m)).
  rewrite take_u32_be by (red; lia).
  pose proof (require_collection_fits _ w [] "unsupported option count" Hw) as Hr.
  rewrite app_nil_r in Hr. change (Z.of_nat 1) with 1 in Hr.
  rewrite Hr by (unfold USIZE_MAX; lia). unfold len. rewrite Nat2Z.id, <- (app_nil_r w).
  rewrite (take_n_put (read := take_cstr) _ _ [] (Forall_any _) Hw). now destruct m as [[]].
Qed.

Lemma negotiate_to_frame_decode b m : decode_negotiate_protocol_version b = Ok m ->
  exists n, m = B_NegotiateProtocolVersion n /\
    in_u 16 (major (newest n)) /\ in_u 16 (minor (newest n)) /\
    NegotiateProtocolVersion_to_frame n = Ok (mkFrame "v"%byte b).
Proof.
  unfold decode_negotiate_protocol_version. intros H. open_ok. apply Ok_inj in H as <-.
  apply require_empty_inv in E5 as ->.
  apply take_n_inv in E4 as (Hn & _ & w2 & -> & Hw2).
  apply wire_read_put in E2 as (Hc & w1 & -> & ->%(writes_uint 4)).
  apply wire_read_put in E as (Hz & w0 & -> & ->%(writes_uint 4)).
  destruct (version_word_join _ Hz) as (Hma & Hmi & Hj).
  eexists. split; [reflexivity|]. cbn [newest major minor].
  destruct (_ <=? _) in E0; [|done]. destruct (_ <=? _) in E1; [|done].
  apply Ok_inj in E0 as <-. apply Ok_inj in E1 as <-. split; [done|]. split; [done|].
  unfold NegotiateProtocolVersion_to_frame. cbn [newest unsupported_options major minor].
  rewrite Hj. match goal with |- context [len ?o] => assert (len o = z0) as -> by (unfold len; destruct Hc; lia) end.
  destruct (Z.leb_spec z0 U32_MAX) as [_|Hbig]; [|destruct Hc; unfold U32_MAX in *; lia].
  rewrite Hw2. unfold put_u32, put_uint. now rewrite app_nil_l, app_nil_r, <- !app_assoc.
Qed.

(** ** The whole direction *)

Lemma decode_ready_u8 b : decode_ready b =
  let? (c, b) := take_u8 b in
  let? status :=
    match c with
    | "I"%byte => Ok Idle
    | "T"%byte => Ok InTransaction
    | "E"%byte => Ok FailedTransaction
    | _ => Err (invalid "unknown transaction status")
    end in
  let? _ := require_empty b in
  Ok (B_ReadyForQuery status).
Proof. unfold decode_ready, take_u8. now destruct (require b 1). Qed.

Lemma decode_backend_to_frame m f : BackendMessage_canonical m ->
  BackendMessage_to_frame m = Ok f -> Backend_decode f = Ok m.
Proof.
  destruct m; cbn [BackendMessage_canonical BackendMessage_to_frame]; intros Hc H;
    try (apply Ok_inj in H as <-; reflexivity).
  - apply decode_row_description_to_frame in H as [Ht H]; [|done].
    unfold Backend_decode. now rewrite Ht, H.
  - apply decode_authentication_frame in H as [Ht H]; [|done]. unfold Backend_decode. now rewrite Ht, H.
  - apply decode_cstr_message in H as [Ht H]. unfold Backend_decode. now rewrite Ht, H.
  - apply decode_copy_response_frame in H as [Ht H]; [|done]. unfold Backend_decode. now rewrite Ht, H.
  - apply decode_copy_response_frame in H as [Ht H]; [|done]. unfold Backend_decode. now rewrite Ht, H.
  - apply decode_copy_response_frame in H as [Ht H]; [|done]. unfold Backend_decode. now rewrite Ht, H.
  - apply decode_data_row_to_frame in H as [Ht H]. unfold Backend_decode. now rewrite Ht, H.
  - apply decode_diagnostic_frame in H as [Ht H]. unfold Backend_decode. now rewrite Ht, H.
  - open_ok. apply Ok_inj in H as <-. wire_writes. unfold Backend_decode, decode_parameter_status.
    cbn [tag body]. wire_read_back. done.
  - apply decode_diagnostic_frame in H as [Ht H]. unfold Backend_decode. now rewrite Ht, H.
  - open_ok. apply Ok_inj in H as <-. wire_writes. unfold Backend_decode, decode_notification.
    cbn [tag body]. wire_read_back. done.
  - destruct (Z.leb_spec 4 (len secret_key)), (Z.leb_spec (len secret_key) 256); try discriminate H.
    apply Ok_inj in H as <-. unfold Backend_decode, decode_backend_key_data. cbn [tag body].
    unfold put_u32, put_uint. rewrite app_nil_l, take_u32_be by done.
    destruct (Z.leb_spec 4 (len secret_key)), (Z.leb_spec (len secret_key) 256); lia || done.
  - apply Ok_inj in H as <-. destruct status; reflexivity.
  - open_ok. apply Ok_inj in H as <-. wire_writes. unfold Backend_decode, decode_parameter_description.
    cbn [tag body]. wire_read_back. done.
  - apply decode_negotiate_to_frame in H as [Ht H]; [|done]. unfold Backend_decode. now rewrite Ht, H.
Qed.

Lemma backend_to_frame_decode f m : Backend_decode f = Ok m ->
  BackendMessage_canonical m /\ BackendMessage_to_frame m = Ok f.
Proof.
  destruct f as [t b]. unfold Backend_decode, result_map. cbn [tag body].
  destruct t; intros H; try discriminate H;
    try (open_ok; apply Ok_inj in H as <-; cbn [BackendMessage_canonical BackendMessage_to_frame];
         first [ now apply to_frame_decode_row_description
               | now apply authentication_frame_decode
               | now apply copy_response_frame_decode
               | split; [done|]; first
                   [ apply decode_empty_inv in E as ->; reflexivity
                   | now apply cstr_message_decode
                   | now apply to_frame_decode_data_row
                   | now apply diagnostic_frame_decode ]
               | done ]).
  - unfold decode_notification in H. open_ok. apply Ok_inj in H as <-. wire_reads.
    cbn [BackendMessage_canonical BackendMessage_to_frame]. split; [done|]. wire_write_back. done.
  - unfold decode_backend_key_data in H. open_ok.
    apply wire_read_put in E as (Hz & w & -> & ->%(writes_uint 4)).
    destruct (negb _) eqn:Hn in H; [done|]. apply Ok_inj in H as <-.
    cbn [BackendMessage_canonical BackendMessage_to_frame]. split; [done|]. now rewrite Hn.
  - unfold decode_parameter_status in H. open_ok. apply Ok_inj in H as <-. wire_reads.
    cbn [BackendMessage_canonical BackendMessage_to_frame]. split; [done|]. wire_write_back. done.
  - rewrite decode_ready_u8 in H. destruct b as [|c b]; [done|]. rewrite take_u8_cons in H.
    open_ok. apply require_empty_inv in E0 as ->. apply Ok_inj in H as <-.
    cbn [BackendMessage_canonical BackendMessage_to_frame]. split; [done|].
    destruct c; try discriminate E; now apply Ok_inj in E as <-.
  - unfold decode_parameter_description in H. open_ok. apply Ok_inj in H as <-.
    injection E as <-. wire_reads.
    cbn [BackendMessage_canonical BackendMessage_to_frame]. split; [done|]. wire_write_back. done.
  - apply negotiate_to_frame_decode in H as (n & -> & Hma & Hmi & H). now split.
Qed.

Lemma take_n_cstr_no_panic n b : take_n take_cstr n b <> Panic.
Proof. apply take_n_no_panic. Qed.

Lemma require_collection_no_panic c r k d : require_collection_bytes c r k d <> Panic.
Proof. unfold require_collection_bytes. destruct (checked_mul _ _); [|done]. now destruct (_ >? _). Qed.

Lemma take_authentication_no_panic kind b : take_authentication kind b <> Panic.
Proof.
  assert (Hs : (let? _ := require b 4 in let? (salt, b) := split_to 4 b in
                Ok (A_Md5Password salt, b)) <> Panic).
  { destruct (require_cases b 4) as [[Hl ->]|[Hl ->]]; [|done].
    unfold split_to. destruct (Nat.ltb_spec (length b) 4); [lia|done]. }
  assert (Hm : (let? (ms, b) := take_mechanisms (S (length b)) b in
                let? _ := require b 1 in let? b := advance 1 b in Ok (A_Sasl ms, b)) <> Panic).
  { pose proof (take_mechanisms_no_panic (S (length b)) b ltac:(lia)).
    destruct (take_mechanisms (S (length b)) b) as [[ms r]| |]; [|done|done].
    destruct (require_cases r 1) as [[Hl ->]|[Hl ->]]; [|done].
    unfold advance. destruct (Nat.ltb_spec (length r) 1); [lia|done]. }
  unfold take_authentication. rewrite split_to_all. repeat case_match; done.
Qed.

Lemma decode_negotiate_no_panic b : decode_negotiate_protocol_version b <> Panic.
Proof.
  unfold decode_negotiate_protocol_version. pose proof (wire_no_panic (read := take_u32) b).
  destruct (take_u32 b) as [[v r]| |]; [|done|done].
  destruct (Z.shiftr v 16 <=? U16_MAX); [|done]. destruct (Z.land v 65535 <=? U16_MAX); [|done].
  pose proof (wire_no_panic (read := take_u32) r).
  destruct (take_u32 r) as [[c q]| |]; [|done|done].
  pose proof (require_collection_no_panic c (len q) 1 "unsupported option count").
  pose proof (take_n_cstr_no_panic (Z.to_nat c) q). no_panic.
Qed.

Lemma Backend_decode_no_panic f : Backend_decode f <> Panic.
Proof.
  destruct f as [t b]. unfold Backend_decode, result_map. cbn [tag body].
  assert (decode_cstr_body b <> Panic) by (unfold decode_cstr_body; no_panic).
  assert (decode_empty b <> Panic) by apply require_empty_no_panic.
  assert (decode_data_row b <> Panic) by (unfold decode_data_row; no_panic).
  assert (decode_row_description b <> Panic) by (unfold decode_row_description; no_panic).
  assert (decode_parameter_description b <> Panic) by (unfold decode_parameter_description; no_panic).
  assert (decode_copy_response b <> Panic) by (rewrite decode_copy_response_u8; no_panic).
  assert (decode_diagnostic b <> Panic).
  { unfold decode_diagnostic.
    pose proof (take_diagnostic_fields_no_panic (S (length b)) b ltac:(lia)). no_panic. }
  assert (decode_authentication b <> Panic).
  { unfold decode_authentication. pose proof (wire_no_panic (read := take_u32) b).
    destruct (take_u32 b) as [[k r]| |]; [|done|done].
    pose proof (take_authentication_no_panic k r). no_panic. }
  assert (decode_ready b <> Panic).
  { rewrite decode_ready_u8. pose proof (wire_no_panic (read := take_u8) b).
    destruct (take_u8 b) as [[c r]| |]; [|done|done]. destruct c; no_panic. }
  destruct t; try done; no_panic;
    unfold decode_parameter_status, decode_notification, decode_backend_key_data; no_panic.
  - now destruct (negb _).
  - apply decode_negotiate_no_panic.
Qed.

#[export] Instance Backend_laws : DirectionLaws BackendMessage BackendMessage_canonical.
Proof.
  split; [apply decode_backend_to_frame|apply backend_to_frame_decode|apply Backend_decode_no_panic].
Qed.

(** ** Properties *)

(** A backend message survives reconstruction. If a canonical message can be
    turned into a frame, decoding that frame yields the same message: row
    metadata, NULL columns, diagnostics, SASL offers, cancellation keys and
    negotiated options all come back unchanged. *)
Theorem backend_message_roundtrip m f :
  BackendMessage_canonical m ->
  BackendMessage_to_frame m = Ok f ->
  Backend_decode f = Ok m.
Proof. apply decode_backend_to_frame. Qed.

Definition sample_row_description : RowDescription :=
  mkRowDescription [mkField ["a"%byte] 16384 2 23 4 (-1) 1].

Lemma backend_message_roundtrip_witness :
  Backend_decode (mkFrame "T"%byte
    [x00; x01; "a"%byte; x00; x00; x00; x40; x00; x00; x02; x00; x00; x00; x17;
     x00; x04; xff; xff; xff; xff; x00; x01]) = Ok (B_RowDescription sample_row_description).
Proof.
  apply (backend_message_roundtrip (B_RowDescription sample_row_description)); [|reflexivity].
  repeat constructor; vm_compute; congruence.
Defined.

(** C31: Backend decoding is lossless. If the bytes a backend sent decode to a
    message, re-encoding that message gives the identical frame, so unmodified
    backend traffic is forwarded byte for byte. *)
Theorem backend_decode_lossless f m :
  Backend_decode f = Ok m ->
  BackendMessage_canonical m /\ BackendMessage_to_frame m = Ok f.
Proof. apply backend_to_frame_decode. Qed.

Lemma backend_decode_lossless_witness :
  let f := mkFrame "E"%byte ["S"%byte; "E"%byte; x00; "M"%byte; "m"%byte; x00; x00] in
  BackendMessage_to_frame (B_ErrorResponse (mkDiagnostic
    [mkDiagnosticField "S"%byte ["E"%byte]; mkDiagnosticField "M"%byte ["m"%byte]])) = Ok f.
Proof. intros f. apply (backend_decode_lossless f). reflexivity. Defined.

(** Neither direction's decoder panics or diverges. On every tag and every
    body, of any length and content, decoding returns a message or an error;
    the two terminator-driven loops never exhaust the fuel they are given. *)
Theorem decoders_never_panic f : Frontend_decode f <> Panic /\ Backend_decode f <> Panic.
Proof. split; [apply Frontend_decode_no_panic|apply Backend_decode_no_panic]. Qed.

(** An empty SASL mechanism name is the one value the encoder accepts and
    the decoder rejects: any offer with an empty name encodes to a frame whose
    decoding fails or yields a different message. *)
Theorem sasl_empty_mechanism_not_canonical ms f :
  [] ∈ ms ->
  authentication_frame (A_Sasl ms) = Ok f ->
  decode_authentication (body f) <> Ok (A_Sasl ms).
Proof.
  intros Hin _ Hd. apply authentication_frame_decode in Hd as [Hc _]. cbn in Hc.
  rewrite Forall_forall in Hc. now apply (Hc [] Hin).
Qed.

Lemma sasl_empty_mechanism_not_canonical_witness :
  decode_authentication [x00; x00; x00; x0a; "P"%byte; x00; x00; x00]
  <> Ok (A_Sasl [["P"%byte]; []]).
Proof.
  apply (sasl_empty_mechanism_not_canonical [["P"%byte]; []]
           (mkFrame "R"%byte [x00; x00; x00; x0a; "P"%byte; x00; x00; x00])); [|reflexivity].
  right. left.
Defined.
