(* ===== verification/Replication.v ===== *)
(** Walsender payloads carried inside [CopyData]: src/replication.rs. *)

From Stdlib Require Import ZArith Lia String.
From Stdlib Require Import Init.Byte.
From stdpp Require Import prelude.
From S2P Require Import Prelude Wire.

Inductive BackendReplication : Type :=
| XLogData (wal_start wal_end : Z (* u64 *)) (server_time : Z (* i64 *)) (data : bytes)
| PrimaryKeepalive (wal_end : Z (* u64 *)) (server_time : Z (* i64 *)) (reply_requested : bool)
| BackendUnknown (tag : byte) (body : bytes).

Inductive FrontendReplication : Type :=
| StandbyStatus (written flushed applied : Z (* u64 *)) (client_time : Z (* i64 *))
    (reply_requested : bool)
| HotStandbyFeedback (client_time : Z (* i64 *))
    (xmin xmin_epoch catalog_xmin catalog_xmin_epoch : Z (* u32 *))
| FrontendUnknown (tag : byte) (body : bytes).

Definition take_tag (payload : bytes) : io (byte * bytes) :=
  match payload with
  | [] => Err (invalid "empty replication payload")
  | _ => get_u8 payload
  end.

Definition take_bool (value : byte) : io bool :=
  match value with
  | x00 => Ok false
  | x01 => Ok true
  | _ => Err (invalid "invalid replication Boolean")
  end.

(** [u8::from(bool)] *)
Definition bool_byte (b : bool) : byte := if b then x01 else x00.

Definition replication_require (payload : bytes) (minimum : Z) (message : string) : io unit :=
  if len payload <? minimum then Err (invalid message) else Ok tt.

Definition require_exact (payload : bytes) (length : Z) (message : string) : io unit :=
  if len payload =? length then Ok tt else Err (invalid message).

Definition BackendReplication_decode (payload : bytes) : io BackendReplication :=
  let? (tag, payload) := take_tag payload in
  match tag with
  | x77 (* b'w' *) =>
      let? _ := replication_require payload 24 "truncated XLogData" in
      let? (wal_start, payload) := get_uint 8 payload in
      let? (wal_end, payload) := get_uint 8 payload in
      let? (server_time, payload) := get_int 8 payload in
      Ok (XLogData wal_start wal_end server_time payload)
  | x6b (* b'k' *) =>
      let? _ := require_exact payload 17 "invalid primary keepalive length" in
      let? (wal_end, payload) := get_uint 8 payload in
      let? (server_time, payload) := get_int 8 payload in
      let? (flag, payload) := get_u8 payload in
      let? reply_requested := take_bool flag in
      Ok (PrimaryKeepalive wal_end server_time reply_requested)
  | tag => Ok (BackendUnknown tag payload)
  end.

Definition BackendReplication_encode (m : BackendReplication) : bytes :=
  match m with
  | XLogData wal_start wal_end server_time data =>
      let output := put_u8 x77 [] in
      let output := put_u64 wal_start output in
      let output := put_u64 wal_end output in
      let output := put_i64 server_time output in
      output ++ data
  | PrimaryKeepalive wal_end server_time reply_requested =>
      let output := put_u8 x6b [] in
      let output := put_u64 wal_end output in
      let output := put_i64 server_time output in
      put_u8 (bool_byte reply_requested) output
  | BackendUnknown tag body => put_u8 tag [] ++ body
  end.

Definition FrontendReplication_decode (payload : bytes) : io FrontendReplication :=
  let? (tag, payload) := take_tag payload in
  match tag with
  | x72 (* b'r' *) =>
      let? _ := require_exact payload 33 "invalid standby status length" in
      let? (written, payload) := get_uint 8 payload in
      let? (flushed, payload) := get_uint 8 payload in
      let? (applied, payload) := get_uint 8 payload in
      let? (client_time, payload) := get_int 8 payload in
      let? (flag, payload) := get_u8 payload in
      let? reply_requested := take_bool flag in
      Ok (StandbyStatus written flushed applied client_time reply_requested)
  | x68 (* b'h' *) =>
      let? _ := require_exact payload 24 "invalid hot standby feedback length" in
      let? (client_time, payload) := get_int 8 payload in
      let? (xmin, payload) := get_uint 4 payload in
      let? (xmin_epoch, payload) := get_uint 4 payload in
      let? (catalog_xmin, payload) := get_uint 4 payload in
      let? (catalog_xmin_epoch, payload) := get_uint 4 payload in
      Ok (HotStandbyFeedback client_time xmin xmin_epoch catalog_xmin catalog_xmin_epoch)
  | tag => Ok (FrontendUnknown tag payload)
  end.

Definition FrontendReplication_encode (m : FrontendReplication) : bytes :=
  match m with
  | StandbyStatus written flushed applied client_time reply_requested =>
      let output := put_u8 x72 [] in
      let output := put_u64 written output in
      let output := put_u64 flushed output in
      let output := put_u64 applied output in
      let output := put_i64 client_time output in
      put_u8 (bool_byte reply_requested) output
  | HotStandbyFeedback client_time xmin xmin_epoch catalog_xmin catalog_xmin_epoch =>
      let output := put_u8 x68 [] in
      let output := put_i64 client_time output in
      let output := put_u32 xmin output in
      let output := put_u32 xmin_epoch output in
      let output := put_u32 catalog_xmin output in
      put_u32 catalog_xmin_epoch output
  | FrontendUnknown tag body => put_u8 tag [] ++ body
  end.

(** ** Typed values: field widths, and unknown tags that are really unknown *)

Definition BackendReplication_typed (m : BackendReplication) : Prop :=
  match m with
  | XLogData s e t _ => in_u 64 s /\ in_u 64 e /\ in_i 64 t
  | PrimaryKeepalive e t _ => in_u 64 e /\ in_i 64 t
  | BackendUnknown tag _ => tag <> x77 /\ tag <> x6b
  end.

Definition FrontendReplication_typed (m : FrontendReplication) : Prop :=
  match m with
  | StandbyStatus w f a t _ => in_u 64 w /\ in_u 64 f /\ in_u 64 a /\ in_i 64 t
  | HotStandbyFeedback t x xe c ce => in_i 64 t /\ in_u 32 x /\ in_u 32 xe /\ in_u 32 c /\ in_u 32 ce
  | FrontendUnknown tag _ => tag <> x72 /\ tag <> x68
  end.

(** ** Fixed-width fields *)

Lemma get_uint_put n v rest : in_u (8 * Z.of_nat n) v -> get_uint n (be_bytes n v ++ rest) = Ok (v, rest).
Proof.
  intros Hv. rewrite get_uint_be by apply length_be_bytes.
  now rewrite be_value_bytes, Z.mod_small by apply Hv.
Qed.

Lemma get_int_put n v rest : (0 < n)%nat -> in_i (8 * Z.of_nat n) v ->
  get_int n (be_bytes n v ++ rest) = Ok (v, rest).
Proof.
  intros Hn Hv. unfold get_int. rewrite get_uint_be by apply length_be_bytes.
  now rewrite be_value_bytes, to_signed_mod by (done || lia).
Qed.

Lemma get_uint_split n b v rest : get_uint n b = Ok (v, rest) ->
  b = be_bytes n v ++ rest /\ in_u (8 * Z.of_nat n) v.
Proof.
  intros (l & -> & <- & ->)%get_uint_inv. rewrite be_bytes_value. split; [done|]. apply be_value_range.
Qed.

Lemma get_int_split n b v rest : (0 < n)%nat -> get_int n b = Ok (v, rest) ->
  b = be_bytes n v ++ rest /\ in_i (8 * Z.of_nat n) v.
Proof.
  intros Hn. unfold get_int. destruct (get_uint n b) as [[u r]| |] eqn:E; [|done..]. intros H. inv_ok.
  apply get_uint_split in E as [-> Hu]. split; [|apply to_signed_range; [lia|done]].
  rewrite <- (be_bytes_mod n n (to_signed _ _)), mod_to_signed by (done || lia). done.
Qed.

(** Read every field of a payload that decoded. *)
Ltac read_fields :=
  repeat match goal with
  | H : match ?c with Ok _ => _ | Err _ => _ | Panic => _ end = Ok _ |- _ =>
      let E := fresh "E" in destruct c as [[]| |] eqn:E; [|discriminate H..]
  | E : get_uint _ _ = Ok _ |- _ => apply get_uint_split in E as [-> ?]
  | E : get_int _ _ = Ok _ |- _ => apply get_int_split in E as [-> ?]; [|lia]
  end.

(** Run the decoder over fields that were just written. *)
Ltac write_fields :=
  unfold put_u8, put_u32, put_u64, put_i64, put_uint; rewrite <- ?app_assoc, ?app_nil_l;
  repeat first
    [ rewrite get_uint_put by (assumption || lia)
    | rewrite get_int_put by (assumption || lia) ].

Lemma take_bool_byte b : take_bool (bool_byte b) = Ok b.
Proof. now destruct b. Qed.

Lemma take_bool_inv v b : take_bool v = Ok b -> v = bool_byte b.
Proof. destruct v; intros; simplify_eq/=; done. Qed.

Lemma len_be_bytes n v : len (be_bytes n v) = Z.of_nat n.
Proof. unfold len. now rewrite length_be_bytes. Qed.

Lemma len_1 (b : byte) : len [b] = 1.
Proof. done. Qed.

(** A one-byte tail, from the exact-length guards. *)
Lemma len_0_nil (l : bytes) : len l = 0 -> l = [].
Proof. destruct l; [done|]. rewrite len_cons. pose proof (len_nonneg l). lia. Qed.

(** The trailing flag of an exact-length payload. *)
Ltac finish_flag Hl :=
  match goal with
  | E : get_u8 ?l = Ok (?v, ?r), H : context [take_bool ?v] |- _ =>
      destruct l as [|? l']; simpl in E; [discriminate E|]; injection E as -> ->;
      let F := fresh "F" in destruct (take_bool v) eqn:F; [|discriminate H..];
      apply take_bool_inv in F as ->; apply Ok_inj in H as <-;
      rewrite !len_app, !len_be_bytes, len_cons in Hl;
      assert (len r = 0) as ->%len_0_nil by lia
  end.

Ltac typed_and_exact := split; [hnf; split_and?; assumption|reflexivity].

(** Dispatch on a tag that is none of the known ones. *)
Lemma backend_unknown_decode tag body : tag <> x77 -> tag <> x6b ->
  BackendReplication_decode (tag :: body) = Ok (BackendUnknown tag body).
Proof. destruct tag; try done. Qed.

Lemma frontend_unknown_decode tag body : tag <> x72 -> tag <> x68 ->
  FrontendReplication_decode (tag :: body) = Ok (FrontendUnknown tag body).
Proof. destruct tag; try done. Qed.

Lemma backend_replication_decode_encode m :
  BackendReplication_typed m -> BackendReplication_decode (BackendReplication_encode m) = Ok m.
Proof.
  destruct m as [s e t data|e t b|tag body]; intros Ht; simpl in Ht.
  - destruct Ht as (Hs & He & Ht). unfold BackendReplication_encode. write_fields.
    cbn [app]. unfold BackendReplication_decode. cbn [take_tag get_u8].
    unfold replication_require. rewrite !len_app, !len_be_bytes.
    pose proof (len_nonneg data). rewrite (proj2 (Z.ltb_ge _ _)) by lia. now write_fields.
  - destruct Ht as (He & Ht). unfold BackendReplication_encode. write_fields.
    cbn [app]. unfold BackendReplication_decode. cbn [take_tag get_u8].
    unfold require_exact. rewrite !len_app, !len_be_bytes, len_1. change (_ =? 17) with true. cbv iota. write_fields.
    cbn [get_u8]. now rewrite take_bool_byte.
  - now apply backend_unknown_decode.
Qed.

Lemma backend_replication_encode_decode p m : BackendReplication_decode p = Ok m ->
  BackendReplication_typed m /\ BackendReplication_encode m = p.
Proof.
  destruct p as [|tag p]; [done|].
  destruct (decide (tag = x77)) as [->|Hw]; [|destruct (decide (tag = x6b)) as [->|Hk]].
  - unfold BackendReplication_decode. cbn [take_tag get_u8]. intros H. read_fields.
    inv_ok. unfold BackendReplication_encode. write_fields. typed_and_exact.
  - unfold BackendReplication_decode. cbn [take_tag get_u8]. unfold require_exact.
    destruct (Z.eqb_spec (len p) 17) as [Hl|]; [|done]. intros H. read_fields.
    finish_flag Hl. unfold BackendReplication_encode. write_fields. typed_and_exact.
  - rewrite backend_unknown_decode by done. intros H. inv_ok. easy.
Qed.

Lemma frontend_replication_decode_encode m :
  FrontendReplication_typed m -> FrontendReplication_decode (FrontendReplication_encode m) = Ok m.
Proof.
  destruct m as [w f a t b|t x xe c ce|tag body]; intros Ht; simpl in Ht.
  - destruct Ht as (Hw & Hf & Ha & Ht). unfold FrontendReplication_encode. write_fields.
    cbn [app]. unfold FrontendReplication_decode. cbn [take_tag get_u8].
    unfold require_exact. rewrite !len_app, !len_be_bytes, len_1. change (_ =? 33) with true. cbv iota.
    write_fields. cbn [get_u8]. now rewrite take_bool_byte.
  - destruct Ht as (Ht & Hx & Hxe & Hc & Hce). unfold FrontendReplication_encode. write_fields.
    cbn [app]. unfold FrontendReplication_decode. cbn [take_tag get_u8].
    unfold require_exact. rewrite !len_app, !len_be_bytes. change (_ =? 24) with true. cbv iota.
    rewrite <- (app_nil_r (be_bytes 4 ce)). now write_fields.
  - now apply frontend_unknown_decode.
Qed.

Lemma frontend_replication_encode_decode p m : FrontendReplication_decode p = Ok m ->
  FrontendReplication_typed m /\ FrontendReplication_encode m = p.
Proof.
  destruct p as [|tag p]; [done|].
  destruct (decide (tag = x72)) as [->|Hr]; [|destruct (decide (tag = x68)) as [->|Hh]].
  - unfold FrontendReplication_decode. cbn [take_tag get_u8]. unfold require_exact.
    destruct (Z.eqb_spec (len p) 33) as [Hl|]; [|done]. intros H. read_fields.
    finish_flag Hl. unfold FrontendReplication_encode. write_fields. typed_and_exact.
  - unfold FrontendReplication_decode. cbn [take_tag get_u8]. unfold require_exact.
    destruct (Z.eqb_spec (len p) 24) as [Hl|]; [|done]. intros H. read_fields.
    rewrite !len_app, !len_be_bytes in Hl. apply Ok_inj in H as <-.
    match goal with |- context [_ ++ ?r] => is_var r; assert (len r = 0) as ->%len_0_nil by lia end.
    unfold FrontendReplication_encode. write_fields. rewrite app_nil_r. typed_and_exact.
  - rewrite frontend_unknown_decode by done. intros H. inv_ok. easy.
Qed.

(** ** Totality *)

Lemma get_uint_ok n b : (n <= length b)%nat -> exists v r, get_uint n b = Ok (v, r) /\ length r = (length b - n)%nat.
Proof.
  intros H. unfold get_uint. rewrite (proj2 (Nat.ltb_ge _ _)) by lia.
  do 2 eexists. split; [done|]. apply length_drop.
Qed.

Lemma get_int_ok n b : (n <= length b)%nat -> exists v r, get_int n b = Ok (v, r) /\ length r = (length b - n)%nat.
Proof.
  intros (v & r & E & H)%get_uint_ok. unfold get_int. rewrite E. eauto.
Qed.

Lemma get_u8_ok b : (1 <= length b)%nat -> exists v r, get_u8 b = Ok (v, r) /\ length r = (length b - 1)%nat.
Proof. destruct b as [|v r]; simpl; [lia|]. intros _. exists v, r. split; [done|lia]. Qed.

Ltac run_fields :=
  repeat match goal with
  | |- Ok _ <> Panic => discriminate
  | |- Err _ <> Panic => discriminate
  | |- context [match get_uint ?n ?b with _ => _ end] =>
      destruct (get_uint_ok n b) as (? & ? & -> & ?); [lia|]
  | |- context [match get_int ?n ?b with _ => _ end] =>
      destruct (get_int_ok n b) as (? & ? & -> & ?); [lia|]
  | |- context [match get_u8 ?b with _ => _ end] =>
      destruct (get_u8_ok b) as (? & ? & -> & ?); [lia|]
  | |- match take_bool ?b with _ => _ end <> Panic =>
      assert (take_bool b <> Panic) by (now destruct b); destruct (take_bool b); [|discriminate|congruence]
  end.

Lemma backend_replication_no_panic p : BackendReplication_decode p <> Panic.
Proof.
  destruct p as [|tag p]; [done|].
  destruct (decide (tag = x77)) as [->|Hw]; [|destruct (decide (tag = x6b)) as [->|Hk]].
  - unfold BackendReplication_decode. cbn [take_tag get_u8]. unfold replication_require, len.
    destruct (Z.ltb_spec (Z.of_nat (length p)) 24); [done|]. run_fields.
  - unfold BackendReplication_decode. cbn [take_tag get_u8]. unfold require_exact, len.
    destruct (Z.eqb_spec (Z.of_nat (length p)) 17); [|done]. run_fields.
  - now rewrite backend_unknown_decode.
Qed.

Lemma frontend_replication_no_panic p : FrontendReplication_decode p <> Panic.
Proof.
  destruct p as [|tag p]; [done|].
  destruct (decide (tag = x72)) as [->|Hw]; [|destruct (decide (tag = x68)) as [->|Hk]].
  - unfold FrontendReplication_decode. cbn [take_tag get_u8]. unfold require_exact, len.
    destruct (Z.eqb_spec (Z.of_nat (length p)) 33); [|done]. run_fields.
  - unfold FrontendReplication_decode. cbn [take_tag get_u8]. unfold require_exact, len.
    destruct (Z.eqb_spec (Z.of_nat (length p)) 24); [|done]. run_fields.
  - now rewrite frontend_unknown_decode.
Qed.

(** ** Properties *)

(** Walsender payloads. A backend replication payload decodes to a message
    exactly when the message has fields of their widths (and, if unknown, a tag
    that is neither 'w' nor 'k') and encodes to that payload; no payload panics. *)
Theorem backend_replication_exact p m :
  (BackendReplication_decode p = Ok m <->
   BackendReplication_typed m /\ BackendReplication_encode m = p) /\
  BackendReplication_decode p <> Panic.
Proof.
  split; [split|apply backend_replication_no_panic].
  - apply backend_replication_encode_decode.
  - intros [Ht <-]. now apply backend_replication_decode_encode.
Qed.

(** Standby payloads. A frontend replication payload decodes to a message
    exactly when the message is well typed and encodes to that payload; no
    payload panics. *)
Theorem frontend_replication_exact p m :
  (FrontendReplication_decode p = Ok m <->
   FrontendReplication_typed m /\ FrontendReplication_encode m = p) /\
  FrontendReplication_decode p <> Panic.
Proof.
  split; [split|apply frontend_replication_no_panic].
  - apply frontend_replication_encode_decode.
  - intros [Ht <-]. now apply frontend_replication_decode_encode.
Qed.
