(* ===== verification/Demux.v ===== *)
(** The filtering projection from backend messages to the session stream:
    src/demux.rs. *)

From Stdlib Require Import ZArith Lia String.
From Stdlib Require Import Init.Byte.
From stdpp Require Import prelude.
From S2P Require Import Prelude OrdMap Wire Backend.

(** ** Data *)

(** [CommandIndex(u64)] *)
Abbreviation CommandIndex := Z.

Record TaggedNotice : Type := mkNotice { notice_command : CommandIndex; notice_fields : DiagnosticResponse }.

Record Notification : Type :=
  mkNotification { notification_process_id : Z (* u32 *); channel : bytes; payload : bytes }.

Record ParameterStatus : Type := mkParameterStatus { status_name : bytes; status_value : bytes }.

Inductive AsyncEvent : Type :=
| Async_Notice (notice : TaggedNotice)
| Async_ParameterStatus (status : ParameterStatus)
| Async_Notification (notification : Notification).

Record OrderedAsyncEvent : Type := mkOrdered {
  sequence : Z (* u64 *);
  event_command : CommandIndex;
  event : AsyncEvent
}.

Record CancelKey : Type := mkCancelKey { key_process_id : Z (* u32 *); key_secret : bytes }.

#[export] Instance CancelKey_eq_dec : EqDecision CancelKey.
Proof. solve_decision. Defined.
#[export] Instance TaggedNotice_eq_dec : EqDecision TaggedNotice.
Proof. solve_decision. Defined.

Inductive SessionItem : Type :=
| Item_Message (message : BackendMessage)
| Item_ReadyForQuery (status : TransactionStatus) (parameters_changed : bool)
| Item_CommandComplete (tag : bytes) (command : CommandIndex) (notices : list TaggedNotice).

Definition into_backend_message (item : SessionItem) : BackendMessage :=
  match item with
  | Item_Message message => message
  | Item_ReadyForQuery status _ => B_ReadyForQuery status
  | Item_CommandComplete tag _ _ => B_CommandComplete tag
  end.

Record Demux : Type := mkDemux {
  command : CommandIndex;
  pending_notices : list TaggedNotice;
  notices : list TaggedNotice;
  notifications : list Notification;
  parameter_statuses : list ParameterStatus;
  async_events : list OrderedAsyncEvent;
  next_async_sequence : Z (* u64 *);
  parameters : BTreeMap;
  startup_parameters : option BTreeMap;
  parameters_changed : bool;
  cancel_key : option CancelKey;
  transaction_status : option TransactionStatus
}.

(** [#[derive(Default)]] *)
Definition Demux_default : Demux := mkDemux 0 [] [] [] [] [] 0 [] None false None None.

(** ** Operations *)

Definition is_asynchronous (message : BackendMessage) : bool :=
  match message with
  | B_NoticeResponse _ | B_ParameterStatus _ _ | B_NotificationResponse _ _ _ | B_BackendKeyData _ _ => true
  | _ => false
  end.

Definition push_async (e : AsyncEvent) (d : Demux) : Demux :=
  mkDemux (command d) (pending_notices d) (notices d) (notifications d) (parameter_statuses d)
    (async_events d ++ [mkOrdered (next_async_sequence d) (command d) e])
    (saturating_add U64_MAX (next_async_sequence d) 1)
    (parameters d) (startup_parameters d) (parameters_changed d) (cancel_key d) (transaction_status d).

Definition route_notice (fields : DiagnosticResponse) (d : Demux) : Demux :=
  let notice := mkNotice (command d) fields in
  let d := mkDemux (command d) (pending_notices d ++ [notice]) (notices d ++ [notice])
    (notifications d) (parameter_statuses d) (async_events d) (next_async_sequence d)
    (parameters d) (startup_parameters d) (parameters_changed d) (cancel_key d) (transaction_status d) in
  push_async (Async_Notice notice) d.

Definition route_parameter_status (name value : bytes) (d : Demux) : Demux :=
  let status := mkParameterStatus name value in
  let d := mkDemux (command d) (pending_notices d) (notices d) (notifications d)
    (parameter_statuses d ++ [status]) (async_events d) (next_async_sequence d)
    (btree_insert name value (parameters d)).2 (startup_parameters d) (parameters_changed d)
    (cancel_key d) (transaction_status d) in
  let d := push_async (Async_ParameterStatus status) d in
  match startup_parameters d with
  | None => d
  | Some baseline =>
      mkDemux (command d) (pending_notices d) (notices d) (notifications d) (parameter_statuses d)
        (async_events d) (next_async_sequence d) (parameters d) (startup_parameters d)
        (bool_decide (parameters d <> baseline)) (cancel_key d) (transaction_status d)
  end.

Definition route_notification (process_id : Z) (channel payload : bytes) (d : Demux) : Demux :=
  let notification := mkNotification process_id channel payload in
  let d := mkDemux (command d) (pending_notices d) (notices d) (notifications d ++ [notification])
    (parameter_statuses d) (async_events d) (next_async_sequence d)
    (parameters d) (startup_parameters d) (parameters_changed d) (cancel_key d) (transaction_status d) in
  push_async (Async_Notification notification) d.

Definition route_key_data (process_id : Z) (secret_key : bytes) (d : Demux) : Demux :=
  mkDemux (command d) (pending_notices d) (notices d) (notifications d) (parameter_statuses d)
    (async_events d) (next_async_sequence d) (parameters d) (startup_parameters d)
    (parameters_changed d) (Some (mkCancelKey process_id secret_key)) (transaction_status d).

Definition route_ready (status : TransactionStatus) (d : Demux) : Demux :=
  mkDemux (command d) (pending_notices d) (notices d) (notifications d) (parameter_statuses d)
    (async_events d) (next_async_sequence d) (parameters d)
    (match startup_parameters d with None => Some (parameters d) | Some b => Some b end)
    (parameters_changed d) (cancel_key d) (Some status).

Definition route_complete (d : Demux) : Demux :=
  mkDemux (saturating_add U64_MAX (command d) 1) [] (notices d) (notifications d)
    (parameter_statuses d) (async_events d) (next_async_sequence d)
    (parameters d) (startup_parameters d) (parameters_changed d) (cancel_key d) (transaction_status d).

Definition route (message : BackendMessage) (d : Demux) : option SessionItem * Demux :=
  match message with
  | B_NoticeResponse fields => (None, route_notice fields d)
  | B_ParameterStatus name value => (None, route_parameter_status name value d)
  | B_NotificationResponse process_id channel payload =>
      (None, route_notification process_id channel payload d)
  | B_BackendKeyData process_id secret_key =>
      (Some (Item_Message (B_BackendKeyData process_id secret_key)), route_key_data process_id secret_key d)
  | B_ReadyForQuery status =>
      let d := route_ready status d in
      (Some (Item_ReadyForQuery status (parameters_changed d)), d)
  | B_CommandComplete tag =>
      (Some (Item_CommandComplete tag (command d) (pending_notices d)), route_complete d)
  | message => (Some (Item_Message message), d)
  end.

(** [VecDeque::pop_front] *)
Definition pop_front {A} (q : list A) : option A * list A :=
  match q with [] => (None, []) | x :: q => (Some x, q) end.

Definition pop_notification (d : Demux) : option Notification * Demux :=
  let (x, q) := pop_front (notifications d) in
  (x, mkDemux (command d) (pending_notices d) (notices d) q (parameter_statuses d)
        (async_events d) (next_async_sequence d) (parameters d) (startup_parameters d)
        (parameters_changed d) (cancel_key d) (transaction_status d)).

Definition pop_notice (d : Demux) : option TaggedNotice * Demux :=
  let (x, q) := pop_front (notices d) in
  (x, mkDemux (command d) (pending_notices d) q (notifications d) (parameter_statuses d)
        (async_events d) (next_async_sequence d) (parameters d) (startup_parameters d)
        (parameters_changed d) (cancel_key d) (transaction_status d)).

Definition pop_parameter_status (d : Demux) : option ParameterStatus * Demux :=
  let (x, q) := pop_front (parameter_statuses d) in
  (x, mkDemux (command d) (pending_notices d) (notices d) (notifications d) q
        (async_events d) (next_async_sequence d) (parameters d) (startup_parameters d)
        (parameters_changed d) (cancel_key d) (transaction_status d)).

Definition pop_async_event (d : Demux) : option OrderedAsyncEvent * Demux :=
  let (x, q) := pop_front (async_events d) in
  (x, mkDemux (command d) (pending_notices d) (notices d) (notifications d) (parameter_statuses d)
        q (next_async_sequence d) (parameters d) (startup_parameters d)
        (parameters_changed d) (cancel_key d) (transaction_status d)).

(** ** Histories

    A session interleaves routing with draining the four queues; a trace keeps
    what each step returned. *)

Inductive step : Type :=
| Route (message : BackendMessage)
| PopNotification
| PopNotice
| PopParameterStatus
| PopAsyncEvent.

Inductive output : Type :=
| Out_item (item : option SessionItem)
| Out_notification (n : option Notification)
| Out_notice (n : option TaggedNotice)
| Out_status (s : option ParameterStatus)
| Out_event (e : option OrderedAsyncEvent).

Definition do_step (s : step) (d : Demux) : output * Demux :=
  match s with
  | Route message => let (i, d) := route message d in (Out_item i, d)
  | PopNotification => let (x, d) := pop_notification d in (Out_notification x, d)
  | PopNotice => let (x, d) := pop_notice d in (Out_notice x, d)
  | PopParameterStatus => let (x, d) := pop_parameter_status d in (Out_status x, d)
  | PopAsyncEvent => let (x, d) := pop_async_event d in (Out_event x, d)
  end.

Fixpoint run (h : list step) (d : Demux) : list output * Demux :=
  match h with
  | [] => ([], d)
  | s :: h => let (o, d) := do_step s d in let (os, d) := run h d in (o :: os, d)
  end.

(** ** What a history means

    The reference semantics: functions of the routed messages alone. *)

Definition routed (h : list step) : list BackendMessage :=
  omap (fun s => match s with Route m => Some m | _ => None end) h.

Definition is_complete (m : BackendMessage) : bool :=
  match m with B_CommandComplete _ => true | _ => false end.

(** Messages that [route] consumes: every asynchronous one but the key data. *)
Definition consumed (m : BackendMessage) : bool :=
  match m with B_BackendKeyData _ _ => false | m => is_asynchronous m end.

Definition count (p : BackendMessage -> bool) (ms : list BackendMessage) : Z := len (filter p ms).

(** The event of message [m] arriving after [pre]: its sequence number is the
    number of events before it, its command the number of completed ones. *)
Definition event_after (pre : list BackendMessage) (m : BackendMessage) : option OrderedAsyncEvent :=
  let cmd := Z.min U64_MAX (count is_complete pre) in
  let at_ := mkOrdered (Z.min U64_MAX (count consumed pre)) cmd in
  match m with
  | B_NoticeResponse fields => Some (at_ (Async_Notice (mkNotice cmd fields)))
  | B_ParameterStatus name value => Some (at_ (Async_ParameterStatus (mkParameterStatus name value)))
  | B_NotificationResponse pid ch pl => Some (at_ (Async_Notification (mkNotification pid ch pl)))
  | _ => None
  end.

Fixpoint events_from (pre ms : list BackendMessage) : list OrderedAsyncEvent :=
  match ms with
  | [] => []
  | m :: ms => option_list (event_after pre m) ++ events_from (pre ++ [m]) ms
  end.
Definition events_of : list BackendMessage -> list OrderedAsyncEvent := events_from [].

Definition as_notice (e : OrderedAsyncEvent) : option TaggedNotice :=
  match event e with Async_Notice n => Some n | _ => None end.
Definition as_status (e : OrderedAsyncEvent) : option ParameterStatus :=
  match event e with Async_ParameterStatus s => Some s | _ => None end.
Definition as_notification (e : OrderedAsyncEvent) : option Notification :=
  match event e with Async_Notification n => Some n | _ => None end.

Definition out_items (os : list output) : list SessionItem :=
  omap (fun o => match o with Out_item i => i | _ => None end) os.
Definition out_events (os : list output) : list OrderedAsyncEvent :=
  omap (fun o => match o with Out_event e => e | _ => None end) os.
Definition out_notices (os : list output) : list TaggedNotice :=
  omap (fun o => match o with Out_notice n => n | _ => None end) os.
Definition out_statuses (os : list output) : list ParameterStatus :=
  omap (fun o => match o with Out_status s => s | _ => None end) os.
Definition out_notifications (os : list output) : list Notification :=
  omap (fun o => match o with Out_notification n => n | _ => None end) os.

(** The run-time parameters reported by [ms], and the baseline taken at the
    first [ReadyForQuery]. *)
Definition report (m : BackendMessage) (ps : BTreeMap) : BTreeMap :=
  match m with B_ParameterStatus name value => (btree_insert name value ps).2 | _ => ps end.
Definition reported (ms : list BackendMessage) : BTreeMap := foldl (fun ps m => report m ps) [] ms.

Fixpoint baseline_from (pre ms : list BackendMessage) : option BTreeMap :=
  match ms with
  | [] => None
  | B_ReadyForQuery _ :: _ => Some (reported pre)
  | m :: ms => baseline_from (pre ++ [m]) ms
  end.
Definition baseline : list BackendMessage -> option BTreeMap := baseline_from [].

Definition changed (ms : list BackendMessage) : bool :=
  match baseline ms with None => false | Some b => bool_decide (reported ms <> b) end.

(** The value of [name] in the last status that names it. *)
Fixpoint last_value (name : bytes) (ms : list BackendMessage) : option bytes :=
  match ms with
  | [] => None
  | m :: ms =>
      match last_value name ms with
      | Some v => Some v
      | None =>
          match m with
          | B_ParameterStatus n v => if decide (name = n) then Some v else None
          | _ => None
          end
      end
  end.

(** *** Snoc equations *)

Lemma run_snoc h s d :
  run (h ++ [s]) d =
  let (os, d) := run h d in let (o, d) := do_step s d in (os ++ [o], d).
Proof.
  revert d; induction h as [|t h IH]; intros d; simpl.
  - now destruct (do_step s d).
  - destruct (do_step t d) as [o d']. rewrite IH. destruct (run h d') as [os d''].
    now destruct (do_step s d'').
Qed.

Lemma events_from_snoc pre ms m :
  events_from pre (ms ++ [m]) = events_from pre ms ++ option_list (event_after (pre ++ ms) m).
Proof.
  revert pre; induction ms as [|x ms IH]; intros pre; simpl.
  - now rewrite !app_nil_r.
  - now rewrite IH, <- !app_assoc.
Qed.

Lemma baseline_from_snoc pre ms m :
  baseline_from pre (ms ++ [m]) =
  match baseline_from pre ms, m with
  | Some b, _ => Some b
  | None, B_ReadyForQuery _ => Some (reported (pre ++ ms))
  | None, _ => None
  end.
Proof.
  revert pre; induction ms as [|x ms IH]; intros pre; simpl.
  - rewrite app_nil_r. now destruct m.
  - destruct x; try done; rewrite IH, <- app_assoc; done.
Qed.

Lemma reported_snoc ms m : reported (ms ++ [m]) = report m (reported ms).
Proof. unfold reported. now rewrite foldl_app. Qed.

Lemma count_snoc p ms m : count p (ms ++ [m]) = count p ms + (if p m then 1 else 0).
Proof.
  unfold count. rewrite filter_app, len_app, filter_cons, filter_nil.
  destruct (decide (p m)) as [H|H]; destruct (p m); try done; try (now exfalso); cbn; lia.
Qed.

Lemma routed_snoc h s :
  routed (h ++ [s]) = routed h ++ match s with Route m => [m] | _ => [] end.
Proof. unfold routed. rewrite omap_app. now destruct s. Qed.

Lemma saturating_count n : 0 <= n -> saturating_add U64_MAX (Z.min U64_MAX n) 1 = Z.min U64_MAX (n + 1).
Proof. unfold saturating_add. lia. Qed.

Lemma count_nonneg p ms : 0 <= count p ms.
Proof. apply len_nonneg. Qed.

(** Popping moves the front of a queue into the trace. *)
Lemma pop_front_queue {A} (q q' : list A) x : pop_front q = (x, q') -> q = option_list x ++ q'.
Proof. destruct q; simpl; intros; simplify_eq; done. Qed.

(** *** The invariants of a history *)

Lemma run_ind (P : list step -> list output -> Demux -> Prop) :
  P [] [] Demux_default ->
  (forall h os d s o d', P h os d -> run h Demux_default = (os, d) -> do_step s d = (o, d') ->
     P (h ++ [s]) (os ++ [o]) d') ->
  forall h, let (os, d) := run h Demux_default in P h os d.
Proof.
  intros H0 Hs h. induction h as [|s h IH] using rev_ind; [done|].
  rewrite run_snoc. destruct (run h Demux_default) as [os d] eqn:E.
  destruct (do_step s d) as [o d'] eqn:Es. eauto.
Qed.

(** One step, by the kind of step and of message. *)
Ltac demux_cases :=
  match goal with H : do_step ?s ?d = (?o, ?d') |- _ =>
    destruct s as [m| | | |]; simpl in H;
    [ destruct m; simpl in H; unfold route_parameter_status in H; simpl in H;
      try (destruct (startup_parameters d) eqn:Hstart; simpl in H)
    | unfold pop_notification in H | unfold pop_notice in H
    | unfold pop_parameter_status in H | unfold pop_async_event in H ];
    try (destruct (pop_front _) as [x q] eqn:Hpop; apply pop_front_queue in Hpop);
    injection H as <- <-
  end.

Ltac snocs :=
  rewrite ?routed_snoc, ?app_nil_r, ?count_snoc, ?reported_snoc;
  unfold out_items, out_events, out_notices, out_statuses, out_notifications, events_of, baseline in *;
  rewrite ?omap_app, ?events_from_snoc, ?baseline_from_snoc; simpl.

Lemma run_counters h :
  let (os, d) := run h Demux_default in
  command d = Z.min U64_MAX (count is_complete (routed h)) /\
  next_async_sequence d = Z.min U64_MAX (count consumed (routed h)).
Proof.
  apply (run_ind (fun h _ d => command d = Z.min U64_MAX (count is_complete (routed h)) /\
    next_async_sequence d = Z.min U64_MAX (count consumed (routed h)))); [done|].
  intros ? os d s o d' [Hc Hn] _ H.
  pose proof (count_nonneg is_complete (routed h0)). pose proof (count_nonneg consumed (routed h0)).
  demux_cases; snocs; rewrite ?Hc, ?Hn, ?saturating_count by done; split; f_equal; lia.
Qed.

Lemma run_queues h :
  let (os, d) := run h Demux_default in
  out_events os ++ async_events d = events_of (routed h) /\
  out_notices os ++ notices d = omap as_notice (events_of (routed h)) /\
  out_statuses os ++ parameter_statuses d = omap as_status (events_of (routed h)) /\
  out_notifications os ++ notifications d = omap as_notification (events_of (routed h)).
Proof.
  apply (run_ind (fun h os d => out_events os ++ async_events d = events_of (routed h) /\
    out_notices os ++ notices d = omap as_notice (events_of (routed h)) /\
    out_statuses os ++ parameter_statuses d = omap as_status (events_of (routed h)) /\
    out_notifications os ++ notifications d = omap as_notification (events_of (routed h)))); [done|].
  intros ? os d s o d' (He & Hn & Hs & Hf) Er H. pose proof (run_counters h0) as Hcs.
  rewrite Er in Hcs. destruct Hcs as [Hc Hq].
  demux_cases; try (destruct x; rewrite Hpop in *; clear Hpop);
    snocs; rewrite ?omap_app; simpl; rewrite ?app_nil_r, <- ?Hc, <- ?Hq; simpl in *;
    rewrite ?app_assoc; rewrite <- ?(app_assoc _ [_]); simpl;
    rewrite ?He, ?Hn, ?Hs, ?Hf; done.
Qed.

Lemma run_items h :
  let (os, d) := run h Demux_default in
  map into_backend_message (out_items os) = filter (fun m => ~ consumed m) (routed h).
Proof.
  apply (run_ind (fun h os _ => map into_backend_message (out_items os) =
    filter (fun m => ~ consumed m) (routed h))); [done|].
  intros ? os d s o d' Hi Er H.
  demux_cases; snocs; rewrite ?filter_app, ?map_app, ?Hi; simpl; rewrite ?app_nil_r; done.
Qed.

Definition item_notices (i : SessionItem) : list TaggedNotice :=
  match i with Item_CommandComplete _ _ ns => ns | _ => [] end.

(** Every notice delivered with a completion belongs to the completed command. *)
Definition attributed (i : SessionItem) : Prop :=
  match i with
  | Item_CommandComplete _ c ns => Forall (fun n => notice_command n = c) ns
  | _ => True
  end.

Lemma run_notices h :
  let (os, d) := run h Demux_default in
  concat (map item_notices (out_items os)) ++ pending_notices d =
    omap as_notice (events_of (routed h)) /\
  Forall (fun n => notice_command n = command d) (pending_notices d) /\
  Forall attributed (out_items os).
Proof.
  apply (run_ind (fun h os d => concat (map item_notices (out_items os)) ++ pending_notices d =
      omap as_notice (events_of (routed h)) /\
    Forall (fun n => notice_command n = command d) (pending_notices d) /\
    Forall attributed (out_items os))); [done|].
  intros ? os d s o d' (Hn & Hp & Ha) Er H. pose proof (run_counters h0) as Hcs.
  rewrite Er in Hcs. destruct Hcs as [Hc Hq].
  demux_cases; snocs; rewrite ?omap_app, ?map_app, ?concat_app, ?Forall_app; simpl;
    rewrite ?app_nil_r, <- ?Hc; simpl in *; rewrite ?app_assoc, ?Hn, ?Forall_singleton; naive_solver.
Qed.

Lemma reported_sorted ms : btree_sorted (reported ms).
Proof.
  induction ms as [|m ms IH] using rev_ind; [constructor|]. rewrite reported_snoc.
  destruct m; try done. now apply btree_insert_sorted.
Qed.

Lemma last_value_snoc name ms m :
  last_value name (ms ++ [m]) =
  match m with
  | B_ParameterStatus n v => if decide (name = n) then Some v else last_value name ms
  | _ => last_value name ms
  end.
Proof.
  induction ms as [|x ms IH]; simpl; [now destruct m|]. rewrite IH.
  destruct m; try done. now case_decide.
Qed.

Lemma reported_get ms name : btree_get name (reported ms) = last_value name ms.
Proof.
  induction ms as [|m ms IH] using rev_ind; [done|]. rewrite reported_snoc, last_value_snoc.
  destruct m; simpl; try done. rewrite btree_get_insert by apply reported_sorted. now rewrite IH.
Qed.

Lemma run_parameters h :
  let (os, d) := run h Demux_default in
  parameters d = reported (routed h) /\ startup_parameters d = baseline (routed h) /\
  parameters_changed d = changed (routed h).
Proof.
  apply (run_ind (fun h _ d => parameters d = reported (routed h) /\
    startup_parameters d = baseline (routed h) /\ parameters_changed d = changed (routed h))); [done|].
  intros ? os d s o d' (Hp & Hs & Hc) Er H. unfold changed in *.
  demux_cases; snocs; rewrite ?Hp; try (rewrite <- Hs in *); rewrite ?Hstart in *; simpl; rewrite ?Hc; try done.
  split_and!; try done. symmetry. apply bool_decide_eq_false. intros []; done.
Qed.

(** ** Properties *)

(** Asynchronous events keep their wire order under any interleaving of
    routing and draining. What was popped from a queue followed by what it
    still holds is the sequence of events the routed messages describe: the
    k-th event carries sequence number k (saturating at [u64::MAX]) and the
    number of commands completed before it; the per-kind queues are the
    corresponding subsequences. *)
Theorem demux_async_order h :
  let (os, d) := run h Demux_default in
  out_events os ++ async_events d = events_of (routed h) /\
  out_notices os ++ notices d = omap as_notice (events_of (routed h)) /\
  out_statuses os ++ parameter_statuses d = omap as_status (events_of (routed h)) /\
  out_notifications os ++ notifications d = omap as_notification (events_of (routed h)) /\
  forall k e, events_of (routed h) !! k = Some e -> sequence e = Z.min U64_MAX (Z.of_nat k).
Proof.
  pose proof (run_queues h) as Hq. destruct (run h Demux_default) as [os d].
  destruct Hq as (He & Hn & Hs & Hf). split_and!; try done. clear. generalize (routed h) as ms.
  intros ms. unfold events_of.
  assert (Z.of_nat (length (events_from [] ms)) = count consumed ms /\
    forall k e, events_from [] ms !! k = Some e -> sequence e = Z.min U64_MAX (Z.of_nat k)) as [_ H]; [|exact H].
  induction ms as [|m ms [IHl IH]] using rev_ind; [done|].
  rewrite events_from_snoc, length_app, count_snoc, app_nil_l, <- IHl. split.
  - destruct m; simpl; lia.
  - intros k e. rewrite lookup_app. destruct (events_from [] ms !! k) as [e'|] eqn:E; [naive_solver|].
    apply lookup_ge_None in E. unfold event_after. rewrite <- IHl.
    destruct m; simpl; intros Hk; try done;
      (destruct (k - length (events_from [] ms))%nat eqn:Ek; simpl in Hk; simplify_eq; simpl; f_equal; lia).
Qed.

(** The session stream is the wire without its asynchronous messages. The
    items [route] returns convert back to exactly the routed messages that are
    not notices, parameter reports or notifications, in order; key data is
    recorded and forwarded. *)
Theorem demux_session_projection h :
  let (os, d) := run h Demux_default in
  map into_backend_message (out_items os) = filter (fun m => ~ consumed m) (routed h).
Proof. apply run_items. Qed.

(** Notice attribution. Each notice is delivered with exactly one command
    completion or is still pending, in arrival order; the notices delivered with
    a completion carry that command's index, and pending ones the index of the
    command in progress. *)
Theorem demux_notice_attribution h :
  let (os, d) := run h Demux_default in
  concat (map item_notices (out_items os)) ++ pending_notices d =
    omap as_notice (events_of (routed h)) /\
  Forall attributed (out_items os) /\
  Forall (fun n => notice_command n = command d) (pending_notices d) /\
  command d = Z.min U64_MAX (count is_complete (routed h)).
Proof.
  pose proof (run_notices h) as Hn. pose proof (run_counters h) as Hc.
  destruct (run h Demux_default) as [os d]. naive_solver.
Qed.

(** Pooling evidence. The parameter map holds the last reported value of
    every parameter; readiness freezes the first baseline; and the
    [parameters_changed] flag delivered with [ReadyForQuery] says whether the
    reported parameters then differ from that baseline. *)
Theorem demux_parameters_evidence h status :
  let (os, d) := run h Demux_default in
  (forall name, btree_get name (parameters d) = last_value name (routed h)) /\
  startup_parameters d = baseline (routed h) /\
  parameters_changed d = changed (routed h) /\
  (route (B_ReadyForQuery status) d).1 = Some (Item_ReadyForQuery status (changed (routed h))) /\
  startup_parameters (route (B_ReadyForQuery status) d).2 =
    Some (default (reported (routed h)) (baseline (routed h))).
Proof.
  pose proof (run_parameters h) as Hp. destruct (run h Demux_default) as [os d].
  destruct Hp as (Hp & Hs & Hc). simpl. rewrite Hp, Hs, Hc. split_and!; try done.
  - intros name. apply reported_get.
  - now destruct (baseline (routed h)).
Qed.
