(* ===== verification/Cancel.v ===== *)
(** Cancellation-key translation for proxies: src/cancel.rs. The registry trait
    is a class; [CancelKeyMap] discharges its laws and the forwarding theorem is
    proved against them. *)

From Stdlib Require Import ZArith Lia String.
From Stdlib Require Import Init.Byte.
From stdpp Require Import prelude gmap.
From S2P Require Import Prelude Wire Startup PreStartup Demux.

#[export] Program Instance CancelKey_countable : Countable CancelKey :=
  inj_countable' (fun k => (key_process_id k, key_secret k)) (fun p => mkCancelKey p.1 p.2) _.
Next Obligation. now intros []. Qed.

(** ** The registry interface *)

Class CancelKeyRegistry (R E : Type) : Type := {
  register_cancel_key : CancelKey -> CancelKey -> R -> result unit E * R;
  resolve_cancel_key : CancelKey -> R -> option CancelKey;
  remove_cancel_key : CancelKey -> R -> option CancelKey * R
}.

(** The secret length the protocol accepts. *)
Definition key_valid (k : CancelKey) : Prop := 4 <= len (key_secret k) <= 256.

(** What a proxy relies on: a successful registration of two valid keys adds one
    association and replaces none; a failed one changes nothing; removal detaches
    one client key. *)
Class RegistryLaws (R E : Type) `{CancelKeyRegistry R E} : Prop := {
  register_ok c u r r' : register_cancel_key c u r = (Ok tt, r') ->
    key_valid c /\ key_valid u /\ resolve_cancel_key c r = None /\
    forall k, resolve_cancel_key k r' = if decide (k = c) then Some u else resolve_cancel_key k r;
  register_err c u r e r' : register_cancel_key c u r = (Err e, r') -> r' = r;
  register_no_panic c u r : (register_cancel_key c u r).1 <> Panic;
  remove_ok c r : let (old, r') := remove_cancel_key c r in
    old = resolve_cancel_key c r /\
    forall k, resolve_cancel_key k r' = if decide (k = c) then None else resolve_cancel_key k r
}.

(** ** The in-memory implementation *)

Inductive RegisterError : Type :=
| InvalidClientKeyLength (n : Z)
| InvalidUpstreamKeyLength (n : Z)
| ClientKeyCollision.

Record CancelKeyMap : Type := mkMap { mappings : gmap CancelKey CancelKey }.

Definition CancelKeyMap_new : CancelKeyMap := mkMap ∅.

Definition validate_key (k : CancelKey) : result unit Z :=
  if contains 4 256 (len (key_secret k)) then Ok tt else Err (len (key_secret k)).

Definition register (client upstream : CancelKey) (m : CancelKeyMap)
    : result unit RegisterError * CancelKeyMap :=
  match map_err InvalidClientKeyLength (validate_key client) with
  | Ok _ =>
      match map_err InvalidUpstreamKeyLength (validate_key upstream) with
      | Ok _ =>
          match mappings m !! client with
          | Some _ => (Err ClientKeyCollision, m)
          | None => (Ok tt, mkMap (<[client := upstream]> (mappings m)))
          end
      | Err e => (Err e, m)
      | Panic => (Panic, m)
      end
  | Err e => (Err e, m)
  | Panic => (Panic, m)
  end.

Definition resolve (process_id : Z) (secret_key : bytes) (m : CancelKeyMap) : option CancelKey :=
  mappings m !! mkCancelKey process_id secret_key.

Definition remove (client : CancelKey) (m : CancelKeyMap) : option CancelKey * CancelKeyMap :=
  (mappings m !! client, mkMap (delete client (mappings m))).

Definition map_len (m : CancelKeyMap) : Z := Z.of_nat (size (mappings m)).
Definition map_is_empty (m : CancelKeyMap) : bool := bool_decide (size (mappings m) = 0%nat).

#[export] Instance CancelKeyMap_registry : CancelKeyRegistry CancelKeyMap RegisterError := {
  register_cancel_key := register;
  resolve_cancel_key client m := mappings m !! client;
  remove_cancel_key := remove
}.

Lemma validate_key_ok k u : validate_key k = Ok u <-> key_valid k.
Proof.
  unfold validate_key, contains, key_valid. destruct u.
  destruct (Z.leb_spec 4 (len (key_secret k))), (Z.leb_spec (len (key_secret k)) 256); simpl;
    split; try done; lia.
Qed.

Lemma validate_key_no_panic k : validate_key k <> Panic.
Proof. unfold validate_key. now destruct (contains _ _ _). Qed.

Lemma register_cases c u m :
  (exists e, register c u m = (Err e, m) /\
     (e = InvalidClientKeyLength (len (key_secret c)) /\ ~ key_valid c \/
      e = InvalidUpstreamKeyLength (len (key_secret u)) /\ key_valid c /\ ~ key_valid u \/
      e = ClientKeyCollision /\ key_valid c /\ key_valid u /\ is_Some (mappings m !! c))) \/
  (key_valid c /\ key_valid u /\ mappings m !! c = None /\
     register c u m = (Ok tt, mkMap (<[c := u]> (mappings m)))).
Proof.
  unfold register. destruct (validate_key c) as [[]|n|] eqn:Ec; simpl.
  2:{ left. eexists. split; [done|]. left. unfold validate_key in Ec.
      destruct (contains 4 256 (len (key_secret c))) eqn:E; simplify_eq. split; [done|].
      intros Hv. apply validate_key_ok with (u := tt) in Hv. unfold validate_key in Hv. now rewrite E in Hv. }
  2:{ now apply validate_key_no_panic in Ec. }
  apply validate_key_ok in Ec. destruct (validate_key u) as [[]|n|] eqn:Eu; simpl.
  2:{ left. eexists. split; [done|]. right; left. unfold validate_key in Eu.
      destruct (contains 4 256 (len (key_secret u))) eqn:E; simplify_eq. split_and!; try done.
      intros Hv. apply validate_key_ok with (u := tt) in Hv. unfold validate_key in Hv. now rewrite E in Hv. }
  2:{ now apply validate_key_no_panic in Eu. }
  apply validate_key_ok in Eu. destruct (mappings m !! c) eqn:Em; [left|right]; eauto 10.
Qed.

#[export] Instance CancelKeyMap_laws : RegistryLaws CancelKeyMap RegisterError.
Proof.
  split; simpl.
  - intros c u r r' H. destruct (register_cases c u r) as [(e & E & _)|(Hc & Hu & Hn & E)];
      rewrite E in H; simplify_eq. split_and!; try done. intros k. simpl. case_decide; subst.
    + now rewrite lookup_insert_eq.
    + now rewrite lookup_insert_ne.
  - intros c u r e r' H. destruct (register_cases c u r) as [(e' & E & _)|(Hc & Hu & Hn & E)];
      rewrite E in H; now simplify_eq.
  - intros c u r. destruct (register_cases c u r) as [(e' & -> & _)|(Hc & Hu & Hn & ->)]; done.
  - intros c r. split; [done|]. intros k. simpl. case_decide; subst.
    + now rewrite lookup_delete_eq.
    + now rewrite lookup_delete_ne.
Qed.

(** ** Histories of a registry *)

Section Histories.
Context {R E : Type} `{RegistryLaws R E}.

Inductive registry_op : Type :=
| Register (client upstream : CancelKey)
| Remove (client : CancelKey).

(** Run the operations, keeping whether each registration succeeded. *)
Fixpoint run_registry (h : list registry_op) (r : R) : list (registry_op * bool) * R :=
  match h with
  | [] => ([], r)
  | op :: h =>
      let (ok, r) :=
        match op with
        | Register c u => let (res, r) := register_cancel_key c u r in (is_ok res, r)
        | Remove c => let (_, r) := remove_cancel_key c r in (true, r)
        end in
      let (t, r) := run_registry h r in ((op, ok) :: t, r)
  end.

(** The association a client key has after a trace, read off the trace alone. *)
Fixpoint live (k : CancelKey) (t : list (registry_op * bool)) (before : option CancelKey)
    : option CancelKey :=
  match t with
  | [] => before
  | (Register c u, true) :: t => live k t (if decide (k = c) then Some u else before)
  | (Register _ _, false) :: t => live k t before
  | (Remove c, _) :: t => live k t (if decide (k = c) then None else before)
  end.

Lemma run_registry_live h : forall r t r' k, run_registry h r = (t, r') ->
  resolve_cancel_key k r' = live k t (resolve_cancel_key k r).
Proof.
  induction h as [|op h IH]; intros r t r' k Hr; simpl in Hr; [now simplify_eq|].
  destruct op as [c u|c].
  - destruct (register_cancel_key c u r) as [res r1] eqn:Er.
    destruct (run_registry h r1) as [t1 r2] eqn:Et. simplify_eq. rewrite (IH _ _ _ k Et).
    destruct res as [[]| |]; simpl.
    + apply register_ok in Er as (_ & _ & _ & Hk). now rewrite Hk.
    + apply register_err in Er as ->. done.
    + exfalso. apply (register_no_panic c u r). now rewrite Er.
  - pose proof (remove_ok c r) as Hrm. destruct (remove_cancel_key c r) as [old r1].
    destruct (run_registry h r1) as [t1 r2] eqn:Et. simplify_eq. rewrite (IH _ _ _ k Et).
    destruct Hrm as [_ Hk]. now rewrite Hk.
Qed.

(** A registered association carries a client's request to the upstream: the
    packet the client sends resolves to the upstream key, whose own packet can be
    built and decodes to that key. *)
Lemma forward_cancel c u r r' rest :
  in_u 32 (key_process_id c) -> in_u 32 (key_process_id u) ->
  register_cancel_key c u r = (Ok tt, r') ->
  exists p p', to_packet (CancelRequest (key_process_id c) (key_secret c)) = Ok p /\
    decode_pre_startup (p ++ rest) =
      (Ok (Some (CancelRequest (key_process_id c) (key_secret c))), rest) /\
    resolve_cancel_key (mkCancelKey (key_process_id c) (key_secret c)) r' = Some u /\
    to_packet (CancelRequest (key_process_id u) (key_secret u)) = Ok p' /\
    decode_pre_startup p' = (Ok (Some (CancelRequest (key_process_id u) (key_secret u))), []).
Proof.
  intros Hc Hu (Hvc & Hvu & _ & Hk)%register_ok.
  assert (forall k, key_valid k -> in_u 32 (key_process_id k) -> exists p,
    to_packet (CancelRequest (key_process_id k) (key_secret k)) = Ok p /\ len p <= 268) as Hp.
  { intros k [H4 H256] _. cbn [to_packet]. unfold cancel_packet, contains.
    rewrite (proj2 (Z.leb_le 4 _)), (proj2 (Z.leb_le _ 256)), (proj2 (Z.ltb_ge _ _)) by (unfold U32_MAX; lia).
    eexists. split; [reflexivity|]. unfold put_u32, put_uint. rewrite !len_app. unfold len in *.
    rewrite !length_be_bytes. cbn [length]. lia. }
  destruct (Hp c Hvc Hc) as (p & Ep & Hlp). destruct (Hp u Hvu Hu) as (p' & Ep' & Hlp').
  exists p, p'. unfold decode_pre_startup, DEFAULT_MAX_PRE_STARTUP_PACKET_LEN. split; [done|]. split; [|split; [|split; [done|]]].
  - rewrite decode_complete; [|eapply to_packet_framed; eassumption|done|lia].
    now rewrite (decode_packet_to_packet _ _ (Hc : PreStartupMessage_canonical (CancelRequest _ _)) Ep).
  - rewrite Hk. destruct c. simpl. now rewrite decide_True.
  - rewrite <- (app_nil_r p'). rewrite decode_complete; [|eapply to_packet_framed; eassumption|done|lia].
    now rewrite (decode_packet_to_packet _ _ (Hu : PreStartupMessage_canonical (CancelRequest _ _)) Ep').
Qed.
End Histories.

(** ** Properties *)

(** The in-memory registry implements the association its history
    describes: after any sequence of registrations and removals a client key
    resolves to the upstream key of its last successful registration that was
    not followed by a removal, and to nothing otherwise. *)
Theorem cancel_map_history h t m k :
  run_registry h CancelKeyMap_new = (t, m) ->
  resolve (key_process_id k) (key_secret k) m = live k t None.
Proof.
  intros Hr. pose proof (run_registry_live h _ _ _ k Hr) as Hl. simpl in Hl.
  unfold resolve. destruct k. simpl in *. now rewrite Hl.
Qed.

Definition example_client : CancelKey := mkCancelKey 1 [x01; x02; x03; x04].
Definition example_upstream : CancelKey := mkCancelKey 2 [x05; x06; x07; x08].

Lemma cancel_map_history_witness :
  exists t m, run_registry [Register example_client example_upstream;
      Register example_client example_client] CancelKeyMap_new = (t, m) /\
    resolve 1 [x01; x02; x03; x04] m = Some example_upstream.
Proof.
  do 2 eexists. split; [vm_compute; reflexivity|].
  exact (cancel_map_history [Register example_client example_upstream;
    Register example_client example_client] _ _ example_client eq_refl).
Defined.

(** Registration never replaces an association. It succeeds exactly when
    both secrets have 4 to 256 bytes and the client key is unused, adding that
    one association; on every failure the map is unchanged. *)
Theorem cancel_register_exact c u m :
  let (r, m') := register c u m in
  (r = Ok tt <-> key_valid c /\ key_valid u /\ mappings m !! c = None) /\
  (r = Ok tt -> mappings m' = <[c := u]> (mappings m) /\ map_len m' = map_len m + 1) /\
  (r <> Ok tt -> m' = m) /\ r <> Panic.
Proof.
  destruct (register_cases c u m) as [(e & -> & He)|(Hc & Hu & Hn & ->)].
  - split_and!; try done. split; [done|]. intros (Hc & Hu & Hn).
    destruct He as [[_ He]|[(_ & _ & He)|(_ & _ & _ & [? He])]]; [done|done|congruence].
  - split_and!; try done. intros _. split; [done|]. unfold map_len. simpl.
    rewrite map_size_insert_None by done. lia.
Qed.

(** End to end, a cancellation request reaches the registered upstream: the
    client's raw packet decodes to its key, the key resolves to the upstream one,
    and the upstream packet can be built and decodes to it. *)
Theorem cancel_forwarding c u m m' rest :
  in_u 32 (key_process_id c) -> in_u 32 (key_process_id u) ->
  register c u m = (Ok tt, m') ->
  exists p p', to_packet (CancelRequest (key_process_id c) (key_secret c)) = Ok p /\
    decode_pre_startup (p ++ rest) =
      (Ok (Some (CancelRequest (key_process_id c) (key_secret c))), rest) /\
    resolve (key_process_id c) (key_secret c) m' = Some u /\
    to_packet (CancelRequest (key_process_id u) (key_secret u)) = Ok p' /\
    decode_pre_startup p' = (Ok (Some (CancelRequest (key_process_id u) (key_secret u))), []).
Proof. exact (forward_cancel c u m m' rest). Qed.

Lemma cancel_forwarding_witness :
  exists m', register example_client example_upstream CancelKeyMap_new = (Ok tt, m') /\
    resolve 1 [x01; x02; x03; x04] m' = Some example_upstream.
Proof.
  eexists. split; [reflexivity|].
  destruct (cancel_forwarding example_client example_upstream CancelKeyMap_new _ []
    ltac:(split; vm_compute; congruence) ltac:(split; vm_compute; congruence) eq_refl)
    as (p & p' & _ & _ & Hr & _). exact Hr.
Defined.
