(* ===== verification/BackendHold.v ===== *)
(** Backend messages held by pipeline backpressure: src/backend_hold.rs. *)

From Stdlib Require Import ZArith Lia String.
From Stdlib Require Import Init.Byte.
From stdpp Require Import prelude.
From S2P Require Import Prelude Wire Frame Backend.

Record BackendHold : Type := mkHold {
  pending : option (BackendMessage * Z (* usize *));
  held : list BackendMessage;
  held_bytes : Z (* usize *)
}.

Definition BackendHold_default : BackendHold := mkHold None [] 0.

Definition retained_bytes (message : BackendMessage) : Z :=
  match BackendMessage_to_frame message with
  | Ok frame => saturating_add USIZE_MAX (len (body frame)) 5
  | _ => 0
  end.

Definition set_pending (message : BackendMessage) (h : BackendHold) : io BackendHold :=
  match pending h with
  | Some _ => Panic
  | None => Ok (mkHold (Some (message, retained_bytes message)) (held h) (held_bytes h))
  end.

Definition hold_pending_message (h : BackendHold) : option BackendMessage := fst <$> pending h.

Definition take_pending (h : BackendHold) : option BackendMessage * BackendHold :=
  (fst <$> pending h, mkHold None (held h) (held_bytes h)).

Definition hold_pending (h : BackendHold) : io BackendHold :=
  match pending h with
  | None => Panic
  | Some (message, bytes) =>
      Ok (mkHold None (held h ++ [message]) (saturating_add USIZE_MAX (held_bytes h) bytes))
  end.

Definition hold_len (h : BackendHold) : Z := len (held h).
Definition hold_is_empty (h : BackendHold) : bool := match held h with [] => true | _ => false end.

Definition clear (h : BackendHold) : list BackendMessage * BackendHold :=
  (held h, mkHold (pending h) [] 0).

(** ** Histories *)

Inductive hold_op : Type :=
| SetPending (m : BackendMessage)
| TakePending
| HoldPending
| Clear.

(** What an operation hands out: a taken source and cleared messages. *)
Definition hold_step (op : hold_op) (h : BackendHold) : io (list BackendMessage * BackendHold) :=
  match op with
  | SetPending m => let? h := set_pending m h in Ok ([], h)
  | TakePending => let (m, h) := take_pending h in Ok (option_list m, h)
  | HoldPending => let? h := hold_pending h in Ok ([], h)
  | Clear => let (ms, h) := clear h in Ok (ms, h)
  end.

Fixpoint run_hold (ops : list hold_op) (h : BackendHold) : io (list BackendMessage * BackendHold) :=
  match ops with
  | [] => Ok ([], h)
  | op :: ops =>
      let? (out, h) := hold_step op h in
      let? (outs, h) := run_hold ops h in
      Ok (out ++ outs, h)
  end.

(** Bytes of the held messages, at full width. *)
Definition accounted (ms : list BackendMessage) : Z := foldr Z.add 0 (map retained_bytes ms).

Definition hold_inv (h : BackendHold) : Prop :=
  held_bytes h = Z.min USIZE_MAX (accounted (held h)) /\
  match pending h with Some (m, n) => n = retained_bytes m | None => True end.

Lemma retained_bytes_nonneg m : 0 <= retained_bytes m.
Proof.
  unfold retained_bytes, saturating_add, USIZE_MAX. destruct (BackendMessage_to_frame m) as [f| |]; try lia.
  pose proof (len_nonneg (body f)). lia.
Qed.

Lemma accounted_nonneg ms : 0 <= accounted ms.
Proof.
  unfold accounted. induction ms as [|m ms IH]; simpl; [lia|]. pose proof (retained_bytes_nonneg m). lia.
Qed.

Lemma accounted_app ms ms' : accounted (ms ++ ms') = accounted ms + accounted ms'.
Proof. unfold accounted. induction ms; simpl; lia. Qed.

Lemma hold_step_inv op h out h' : hold_inv h -> hold_step op h = Ok (out, h') -> hold_inv h'.
Proof.
  intros [Hb Hp] H. destruct op; simpl in H.
  - unfold set_pending in H. destruct (pending h) as [[]|]; [done|]. now inv_ok.
  - now inv_ok.
  - unfold hold_pending in H. destruct (pending h) as [[m n]|] eqn:E; [|done]. apply Ok_inj in H. simplify_eq.
    split; simpl; [|done]. rewrite accounted_app, Hb. unfold saturating_add, accounted at 3. simpl.
    pose proof (accounted_nonneg (held h)). pose proof (retained_bytes_nonneg m). lia.
  - now inv_ok.
Qed.

(** The conservation law of one step: messages leave in arrival order, and only
    through [TakePending] (the source being inspected) or [Clear]. *)
Lemma hold_step_conserves op h out h' : hold_step op h = Ok (out, h') ->
  match op with
  | TakePending => held h' = held h /\ pending h' = None /\ out = option_list (fst <$> pending h)
  | Clear => out = held h /\ held h' = [] /\ pending h' = pending h
  | SetPending m => out = [] /\ pending h = None /\ held h' = held h /\ fst <$> pending h' = Some m
  | HoldPending => out = [] /\ pending h' = None /\ exists m, fst <$> pending h = Some m /\ held h' = held h ++ [m]
  end.
Proof.
  destruct op; simpl.
  - unfold set_pending. destruct (pending h) as [[]|]; [done|]. intros H. inv_ok. done.
  - intros H. inv_ok. done.
  - unfold hold_pending. destruct (pending h) as [[m n]|] eqn:E; [|done]. intros H. inv_ok. eauto.
  - intros H. inv_ok. done.
Qed.

Lemma run_hold_inv ops : forall h out h', hold_inv h -> run_hold ops h = Ok (out, h') -> hold_inv h'.
Proof.
  induction ops as [|op ops IH]; intros h out h' Hi H; simpl in H; [now inv_ok|].
  destruct (hold_step op h) as [[o h1]| |] eqn:E; [|done..].
  destruct (run_hold ops h1) as [[os h2]| |] eqn:E2; [|done..]. inv_ok. eauto using hold_step_inv.
Qed.

(** The source pending or held after [ops], and what was handed out: exactly the
    sources set, in order, when each is held before the next one is set. *)
Definition contents (h : BackendHold) : list BackendMessage := held h ++ option_list (fst <$> pending h).

Definition sources (ops : list hold_op) : list BackendMessage :=
  omap (fun op => match op with SetPending m => Some m | _ => None end) ops.

(** Ops that never drop a source out of order: no direct take, and nothing
    cleared while a source is pending would overtake it anyway. *)
Definition no_take (ops : list hold_op) : Prop := TakePending ∉ ops.

Lemma run_hold_order ops : forall h out h', no_take ops -> run_hold ops h = Ok (out, h') ->
  contents h ++ sources ops = out ++ contents h'.
Proof.
  induction ops as [|op ops IH]; intros h out h' Hn H; simpl in H.
  - inv_ok. unfold sources. simpl. now rewrite app_nil_r.
  - apply not_elem_of_cons in Hn as [Hop Hn].
    destruct (hold_step op h) as [[o h1]| |] eqn:E; [|done..].
    destruct (run_hold ops h1) as [[os h2]| |] eqn:E2; [|done..]. apply Ok_inj in H. simplify_eq.
    apply IH in E2; [|done]. apply hold_step_conserves in E. rewrite <- app_assoc, <- E2. unfold contents, sources in *.
    destruct op as [m| | |]; simpl; [|done| |].
    + destruct E as (-> & Hp & Hh & Hp'). rewrite Hp, Hh, Hp'. simpl. now rewrite app_nil_r, <- app_assoc.
    + destruct E as (-> & Hp & m & Hm & Hh). rewrite Hp, Hm, Hh. simpl. now rewrite app_nil_r.
    + destruct E as (-> & Hh & Hp). rewrite Hp, Hh. simpl. now rewrite <- app_assoc.
Qed.

(** ** Properties *)

(** Held backend messages are released in arrival order and accounted
    exactly. After any run of operations from the empty hold that does not panic,
    the byte count is the (saturated) sum of the held messages' frame sizes; and
    when sources leave only through [clear], what was cleared followed by what is
    still held and pending is the sequence of sources set. *)
Theorem backend_hold_order ops out h :
  run_hold ops BackendHold_default = Ok (out, h) ->
  held_bytes h = Z.min USIZE_MAX (accounted (held h)) /\
  (no_take ops -> sources ops = out ++ held h ++ option_list (fst <$> pending h)).
Proof.
  intros H. split.
  - apply (run_hold_inv ops BackendHold_default out h); [split; vm_compute; done|done].
  - intros Hn. apply (run_hold_order ops BackendHold_default out h Hn H).
Qed.

Lemma backend_hold_order_witness : exists out h,
  run_hold [SetPending B_NoData; HoldPending; SetPending B_CopyDone; HoldPending; Clear] BackendHold_default
    = Ok (out, h) /\ out = [B_NoData; B_CopyDone].
Proof.
  do 2 eexists. split; [reflexivity|].
  destruct (backend_hold_order [SetPending B_NoData; HoldPending; SetPending B_CopyDone; HoldPending; Clear]
    _ _ eq_refl) as [_ Ho]. specialize (Ho ltac:(unfold no_take; rewrite !not_elem_of_cons; repeat split; try done; apply not_elem_of_nil)).
  symmetry. exact Ho.
Defined.
