(* ===== verification/Fsm.v ===== *)
(** The protocol compiler of pg-proto-fsm/src/lib.rs: the grammar a [protocol!]
    block declares, its validation, and the runtime tables and state machine the
    macro generates from it. *)

From Stdlib Require Import ZArith Lia String.
From stdpp Require Import prelude strings.
From S2P Require Import Prelude.
Local Open Scope string_scope.

(** ** Grammars *)

Inductive ChoiceKind : Type := Internal | External | Mixed.

#[export] Instance ChoiceKind_eq_dec : EqDecision ChoiceKind.
Proof. solve_decision. Defined.

(** The choice direction seen by the peer role. *)
Definition dual (c : ChoiceKind) : ChoiceKind :=
  match c with Internal => External | External => Internal | Mixed => Mixed end.

Section Compiler.
(** The two message types a [messages] block names. *)
Context {I E : Type}.

(** A projection pattern over the role's or over its peer's messages. *)
Inductive Pattern : Type :=
| on_internal (p : I -> bool)
| on_external (p : E -> bool).

(** States and events are identifiers. *)
Record Transition : Type := mkTransition {
  event : string;
  method : string;
  target : string;
  t_choice : option ChoiceKind;
  cleanliness : option string;
  projection : option Pattern
}.

Record State : Type := mkState {
  name : string;
  s_choice : ChoiceKind;
  transitions : list Transition
}.

Record Protocol : Type := mkProtocol {
  module : string;
  initial : string;
  messages : bool; (* whether a [messages] block is present *)
  states : list State
}.

(** ** Validation *)

Definition is_some {A} (o : option A) : bool := match o with Some _ => true | None => false end.

Definition mem (s : string) (l : list string) : bool := bool_decide (s ∈ l).

(** The loop over one state's transitions; [methods] is the set built so far. *)
Fixpoint validate_transitions (declared methods : list string) (ts : list Transition) : result unit string :=
  match ts with
  | [] => Ok tt
  | t :: ts =>
      if negb (mem (target t) declared) then Err "transition target is not declared"
      else if mem (method t) methods then Err "duplicate transition method in state"
      else validate_transitions declared (method t :: methods) ts
  end.

Definition validate_choice (s : State) : result unit string :=
  match s_choice s with
  | Mixed =>
      if existsb (fun t => negb (is_some (t_choice t))) (transitions s)
      then Err "every transition in a mixed state needs `internal` or `external`" else Ok tt
  | _ =>
      if existsb (fun t => is_some (t_choice t)) (transitions s)
      then Err "transition directions are only valid in a mixed state" else Ok tt
  end.

Fixpoint validate_states (declared : list string) (ss : list State) : result unit string :=
  match ss with
  | [] => Ok tt
  | s :: ss =>
      let? _ := validate_choice s in
      let? _ := validate_transitions declared [] (transitions s) in
      validate_states declared ss
  end.

Definition validate (p : Protocol) : result unit string :=
  if negb (messages p) && existsb (fun t => is_some (projection t)) (flat_map transitions (states p))
  then Err "transition projection requires a `messages` declaration"
  else
    let declared := map name (states p) in
    if negb (mem (initial p) declared) then Err "initial state is not declared"
    else validate_states declared (states p).

(** ** The generated runtime *)

Record RuntimeTransition : Type := mkRuntime {
  id : string;
  r_source : string;
  r_event : string;
  r_target : string;
  r_choice : ChoiceKind
}.

(** [transition.choice.unwrap_or(state.choice)] *)
Definition choice_of (s : State) (t : Transition) : ChoiceKind := default (s_choice s) (t_choice t).

Definition describe (p : Protocol) (s : State) (t : Transition) : RuntimeTransition :=
  mkRuntime (module p ++ "." ++ name s ++ "." ++ event t) (name s) (event t) (target t) (choice_of s t).

Definition TRANSITIONS (p : Protocol) : list RuntimeTransition :=
  flat_map (fun s => map (describe p s) (transitions s)) (states p).

(** [TRANSITIONS.iter().find(..)] *)
Definition transition (p : Protocol) (state event : string) : option RuntimeTransition :=
  List.find (fun t => bool_decide (r_source t = state) && bool_decide (r_event t = event)) (TRANSITIONS p).

(** The match arms of a projector: source, pattern and event, in order. *)
Definition internal_arms (p : Protocol) : list (string * (I -> bool) * string) :=
  flat_map (fun s => omap (fun t =>
    match choice_of s t, projection t with
    | Internal, Some (on_internal pat) => Some (name s, pat, event t)
    | _, _ => None
    end) (transitions s)) (states p).

Definition external_arms (p : Protocol) : list (string * (E -> bool) * string) :=
  flat_map (fun s => omap (fun t =>
    match choice_of s t, projection t with
    | External, Some (on_external pat) => Some (name s, pat, event t)
    | _, _ => None
    end) (transitions s)) (states p).

(** [match (state, message) { arms, _ => None }] *)
Definition first_arm {M} (arms : list (string * (M -> bool) * string)) (state : string) (m : M)
    : option string :=
  snd <$> List.find (fun a => bool_decide (a.1.1 = state) && a.1.2 m) arms.

Definition project_internal (p : Protocol) (state : string) (m : I) : option string :=
  first_arm (internal_arms p) state m.

Definition project_external (p : Protocol) (state : string) (m : E) : option string :=
  first_arm (external_arms p) state m.

(** *** [RuntimeFsm] *)

Record RuntimeFsm : Type := mkFsm { state : string }.
Record TransitionError : Type := mkTransitionError { te_state : string; te_event : string }.
Record ProjectionError : Type := mkProjectionError { pe_state : string }.

Definition fsm_new (p : Protocol) : RuntimeFsm := mkFsm (initial p).

Definition fsm_choice (p : Protocol) (f : RuntimeFsm) : option ChoiceKind :=
  s_choice <$> List.find (fun s => bool_decide (name s = state f)) (states p).

Definition event_choice (p : Protocol) (f : RuntimeFsm) (event : string) : option ChoiceKind :=
  r_choice <$> transition p (state f) event.

Definition dual_event_choice (p : Protocol) (f : RuntimeFsm) (event : string) : option ChoiceKind :=
  dual <$> event_choice p f event.

Definition fsm_step (p : Protocol) (event : string) (f : RuntimeFsm)
    : result unit TransitionError * RuntimeFsm :=
  match transition p (state f) event with
  | Some t => (Ok tt, mkFsm (r_target t))
  | None => (Err (mkTransitionError (state f) event), f)
  end.

Definition step_projected {M} (p : Protocol) (message : M) (project : string -> M -> option string)
    (f : RuntimeFsm) : result string ProjectionError * RuntimeFsm :=
  let s := state f in
  match project s message with
  | None => (Err (mkProjectionError s), f)
  | Some event =>
      match fsm_step p event f with
      | (Ok _, f) => (Ok event, f)
      | (_, f) => (Err (mkProjectionError s), f)
      end
  end.

(** ** Facts about every compiled grammar *)

Definition edge (p : Protocol) (s e t : string) : Prop :=
  exists r, transition p s e = Some r /\ r_target r = t.

(** States a run of the generated machine can be in. *)
Inductive reachable (p : Protocol) : string -> Prop :=
| reach_initial : reachable p (initial p)
| reach_step s e t : reachable p s -> edge p s e t -> reachable p t.

(** No state lists an event twice, so the table is a partial function. *)
Definition deterministic (p : Protocol) : Prop :=
  NoDup (map (fun t => (r_source t, r_event t)) (TRANSITIONS p)).

Lemma TRANSITIONS_in p r : r ∈ TRANSITIONS p <->
  exists s t, s ∈ states p /\ t ∈ transitions s /\ r = describe p s t.
Proof.
  unfold TRANSITIONS. rewrite list_elem_of_In, in_flat_map. split.
  - intros (s & Hs & Hr). apply in_map_iff in Hr as (t & <- & Ht).
    exists s, t. rewrite !list_elem_of_In. eauto.
  - intros (s & t & Hs & Ht & ->). exists s. rewrite <- !list_elem_of_In. split; [done|].
    rewrite list_elem_of_In. apply in_map. now apply list_elem_of_In.
Qed.

Lemma transition_in p s e r : transition p s e = Some r ->
  r ∈ TRANSITIONS p /\ r_source r = s /\ r_event r = e.
Proof.
  unfold transition. intros [Hin Hb]%find_some. apply andb_true_iff in Hb as [H1 H2].
  apply bool_decide_eq_true in H1, H2. rewrite list_elem_of_In. auto.
Qed.

Lemma transition_exists p r : r ∈ TRANSITIONS p -> is_Some (transition p (r_source r) (r_event r)).
Proof.
  intros Hr. unfold transition. destruct (List.find _ _) eqn:Ef; [eauto|].
  exfalso. apply list_elem_of_In in Hr. pose proof (find_none _ _ Ef _ Hr) as Hn. simpl in Hn.
  rewrite !bool_decide_eq_true_2 in Hn by done. done.
Qed.

Lemma transition_unique p r : deterministic p -> r ∈ TRANSITIONS p ->
  transition p (r_source r) (r_event r) = Some r.
Proof.
  intros Hd Hr. destruct (transition_exists p r Hr) as [r' Hr']. rewrite Hr'. f_equal.
  apply transition_in in Hr' as (Hin & Hs & He).
  unfold deterministic in Hd. apply list_elem_of_lookup in Hr as [i Hi], Hin as [j Hj].
  assert (j = i) as ->; [|congruence].
  apply (NoDup_lookup _ _ _ (r_source r, r_event r) Hd); rewrite list_lookup_fmap.
  - rewrite Hj. simpl. now rewrite Hs, He.
  - now rewrite Hi.
Qed.

Lemma first_arm_in {M} (arms : list (string * (M -> bool) * string)) s m e :
  first_arm arms s m = Some e -> exists pat, (s, pat, e) ∈ arms /\ pat m = true.
Proof.
  unfold first_arm. destruct (List.find _ _) as [[[s' pat] e']|] eqn:Ef; simpl; [|done].
  intros. simplify_eq. apply find_some in Ef as [Hin Hb]. apply andb_true_iff in Hb as [H1 H2].
  apply bool_decide_eq_true in H1. simpl in H1. subst. exists pat. now rewrite list_elem_of_In.
Qed.

Lemma internal_arms_in p s pat e : (s, pat, e) ∈ internal_arms p ->
  exists st t, st ∈ states p /\ t ∈ transitions st /\ name st = s /\ event t = e /\
    choice_of st t = Internal /\ projection t = Some (on_internal pat).
Proof.
  unfold internal_arms. rewrite list_elem_of_In, in_flat_map. intros (st & Hst & Ho).
  apply list_elem_of_In, list_elem_of_omap in Ho as (t & Ht & Hm).
  exists st, t. rewrite list_elem_of_In. destruct (choice_of st t), (projection t) as [[]|]; simplify_eq. done.
Qed.

Lemma external_arms_in p s pat e : (s, pat, e) ∈ external_arms p ->
  exists st t, st ∈ states p /\ t ∈ transitions st /\ name st = s /\ event t = e /\
    choice_of st t = External /\ projection t = Some (on_external pat).
Proof.
  unfold external_arms. rewrite list_elem_of_In, in_flat_map. intros (st & Hst & Ho).
  apply list_elem_of_In, list_elem_of_omap in Ho as (t & Ht & Hm).
  exists st, t. rewrite list_elem_of_In. destruct (choice_of st t), (projection t) as [[]|]; simplify_eq. done.
Qed.

(** A projected event is one the table lists at that state. *)
Lemma project_internal_listed p s m e : project_internal p s m = Some e ->
  exists r, r ∈ TRANSITIONS p /\ r_source r = s /\ r_event r = e /\ r_choice r = Internal.
Proof.
  intros (pat & Hin & _)%first_arm_in. apply internal_arms_in in Hin as (st & t & Hs & Ht & <- & <- & Hc & _).
  exists (describe p st t). rewrite TRANSITIONS_in. split; [eauto|]. done.
Qed.

Lemma project_external_listed p s m e : project_external p s m = Some e ->
  exists r, r ∈ TRANSITIONS p /\ r_source r = s /\ r_event r = e /\ r_choice r = External.
Proof.
  intros (pat & Hin & _)%first_arm_in. apply external_arms_in in Hin as (st & t & Hs & Ht & <- & <- & Hc & _).
  exists (describe p st t). rewrite TRANSITIONS_in. split; [eauto|]. done.
Qed.

Lemma validate_transitions_targets declared ts : forall methods,
  validate_transitions declared methods ts = Ok tt -> Forall (fun t => target t ∈ declared) ts.
Proof.
  induction ts as [|t ts IH]; intros methods H; simpl in H; [constructor|].
  unfold mem in H. destruct (bool_decide (target t ∈ declared)) eqn:E1; [|done]. simpl in H.
  destruct (bool_decide (method t ∈ methods)); [done|]. apply bool_decide_eq_true in E1.
  constructor; eauto.
Qed.

Lemma validate_states_targets declared ss : validate_states declared ss = Ok tt ->
  Forall (fun s => Forall (fun t => target t ∈ declared) (transitions s)) ss.
Proof.
  induction ss as [|s ss IH]; intros H; simpl in H; [constructor|].
  destruct (validate_choice s) as [[]| |]; [|done..].
  destruct (validate_transitions declared [] (transitions s)) as [[]| |] eqn:E1; [|done..].
  constructor; [eapply validate_transitions_targets; eassumption|auto].
Qed.

Lemma validate_inv p : validate p = Ok tt ->
  initial p ∈ map name (states p) /\
  Forall (fun s => Forall (fun t => target t ∈ map name (states p)) (transitions s)) (states p).
Proof.
  unfold validate. destruct (negb (messages p) && _); [done|]. unfold mem.
  destruct (bool_decide (initial p ∈ map name (states p))) eqn:Ei; [|done]. apply bool_decide_eq_true in Ei.
  simpl. intros H. split; [done|]. now apply validate_states_targets.
Qed.

(** ** Properties *)

(** A grammar that the macro accepts compiles to a closed machine: every
    state its runtime can reach is a declared one, so the generated enum match of
    [choice] is total on reachable states. *)
Theorem fsm_reachable_declared p s :
  validate p = Ok tt -> reachable p s ->
  s ∈ map name (states p) /\ is_Some (fsm_choice p (mkFsm s)).
Proof.
  intros [Hi Ht]%validate_inv Hr.
  assert (s ∈ map name (states p)) as Hs.
  { induction Hr as [|s e t Hr IH (r & Er & <-)]; [done|].
    apply transition_in in Er as (Hin & _ & _). apply TRANSITIONS_in in Hin as (st & tr & Hst & Htr & ->).
    rewrite Forall_forall in Ht. specialize (Ht _ Hst). rewrite Forall_forall in Ht. now apply Ht. }
  split; [done|]. unfold fsm_choice. simpl.
  destruct (List.find _ _) eqn:Ef; [eauto|]. exfalso.
  apply list_elem_of_In, in_map_iff in Hs as (st & <- & Hst).
  pose proof (find_none _ _ Ef _ Hst) as Hn. simpl in Hn. now rewrite bool_decide_eq_true_2 in Hn.
Qed.

(** Projection is sound for stepping. When a projector maps a wire message
    to an event, the machine has that transition: [step_projected] succeeds with
    the event, and in a deterministic grammar it takes a transition of the
    projector's own direction. When the projector has no arm the machine
    reports its state and does not move. *)
Theorem fsm_step_projected_exact p f (m : I) :
  let (r, f') := step_projected p m (project_internal p) f in
  match project_internal p (state f) m with
  | Some e => r = Ok e /\ edge p (state f) e (state f') /\
      (deterministic p -> event_choice p f e = Some Internal)
  | None => r = Err (mkProjectionError (state f)) /\ f' = f
  end.
Proof.
  unfold step_projected. destruct (project_internal p (state f) m) as [e|] eqn:Ep; [|done].
  apply project_internal_listed in Ep as (r & Hr & Hs & He & Hc).
  destruct (transition_exists p r Hr) as [r' Hr']. rewrite Hs, He in Hr'.
  unfold fsm_step. rewrite Hr'. split; [done|]. split; [now exists r'|].
  intros Hd. unfold event_choice. pose proof (transition_unique p r Hd Hr) as Hu.
  rewrite Hs, He in Hu. rewrite Hu. simpl. now rewrite Hc.
Qed.
End Compiler.
Arguments Pattern : clear implicits.
Arguments Transition : clear implicits.
Arguments State : clear implicits.
Arguments Protocol : clear implicits.
