(* ===== verification/Grammar.v ===== *)
(** The six grammars of src/grammar.rs, transcribed state by state into the
    grammar type of [Fsm], and what they guarantee. *)

From Stdlib Require Import ZArith Lia String.
From Stdlib Require Import Init.Byte.
From stdpp Require Import prelude strings.
From S2P Require Import Prelude Frontend Startup Backend PreStartup Fsm.
Local Open Scope string_scope.
Local Open Scope list_scope.

(** A projection pattern of the grammar. *)
Local Notation "'matches' p" := (fun m => match m with p => true | _ => false end)
  (at level 10, p pattern at level 0, only parsing).

Definition frontend : Protocol FrontendMessage BackendMessage := mkProtocol "frontend" "Ready" true [
  mkState "Ready" Internal [
      mkTransition "Query" "query" "Simple" None (Some "Dirty")
        (Some (on_internal (matches (F_Query _))));
      mkTransition "BeginExtended" "begin_extended" "Building" None None
        None;
      mkTransition "FunctionCall" "function_call" "FunctionCalling" None (Some "Dirty")
        (Some (on_internal (matches (F_FunctionCall _))));
      mkTransition "Reset" "reset" "Resetting" None (Some "Dirty")
        None;
      mkTransition "Terminate" "terminate" "Terminated" None None
        (Some (on_internal (matches F_Terminate)))];
  mkState "FunctionCalling" External [
      mkTransition "FunctionResponse" "function_response" "AwaitingReady" None None
        (Some (on_external (matches (B_FunctionCallResponse _))));
      mkTransition "Error" "error" "Draining" None None
        (Some (on_external (matches (B_ErrorResponse _))))];
  mkState "Simple" External [
      mkTransition "Continue" "continue_response" "Simple" None None
        (Some (on_external (matches (B_RowDescription _ | B_DataRow _ | B_CommandComplete _ | B_EmptyQueryResponse))));
      mkTransition "CopyIn" "enter_copy_in" "CopyIn" None None
        (Some (on_external (matches (B_CopyInResponse _))));
      mkTransition "CopyOut" "enter_copy_out" "CopyOut" None None
        (Some (on_external (matches (B_CopyOutResponse _))));
      mkTransition "CopyBoth" "enter_copy_both" "CopyBoth" None None
        (Some (on_external (matches (B_CopyBothResponse _))));
      mkTransition "Ready" "ready" "Ready" None None
        (Some (on_external (matches (B_ReadyForQuery _))));
      mkTransition "Error" "error" "Draining" None None
        (Some (on_external (matches (B_ErrorResponse _))))];
  mkState "Building" Internal [
      mkTransition "Parse" "parse" "Building" None (Some "Dirty")
        (Some (on_internal (matches (F_Parse _))));
      mkTransition "Describe" "describe" "Building" None None
        (Some (on_internal (matches (F_Describe _))));
      mkTransition "Bind" "bind" "BoundBuilding" None (Some "Dirty")
        (Some (on_internal (matches (F_Bind _))));
      mkTransition "Close" "close" "Building" None None
        (Some (on_internal (matches (F_Close _))));
      mkTransition "Flush" "flush" "Building" None None
        (Some (on_internal (matches F_Flush)));
      mkTransition "Sync" "sync" "AwaitingReady" None None
        (Some (on_internal (matches F_Sync)))];
  mkState "BoundBuilding" Internal [
      mkTransition "Parse" "parse" "BoundBuilding" None (Some "Dirty")
        (Some (on_internal (matches (F_Parse _))));
      mkTransition "Describe" "describe" "BoundBuilding" None None
        (Some (on_internal (matches (F_Describe _))));
      mkTransition "Bind" "bind" "BoundBuilding" None (Some "Dirty")
        (Some (on_internal (matches (F_Bind _))));
      mkTransition "Execute" "execute" "BoundBuilding" None None
        (Some (on_internal (matches (F_Execute _))));
      mkTransition "Close" "close" "BoundBuilding" None None
        (Some (on_internal (matches (F_Close _))));
      mkTransition "Flush" "flush" "BoundBuilding" None None
        (Some (on_internal (matches F_Flush)));
      mkTransition "Sync" "sync" "AwaitingReady" None None
        (Some (on_internal (matches F_Sync)))];
  mkState "AwaitingReady" External [
      mkTransition "Continue" "continue_response" "AwaitingReady" None None
        (Some (on_external (matches (B_ParseComplete | B_BindComplete | B_CloseComplete | B_RowDescription _ | B_NoData | B_ParameterDescription _ | B_DataRow _ | B_CommandComplete _ | B_PortalSuspended | B_EmptyQueryResponse))));
      mkTransition "Ready" "ready" "Ready" None None
        (Some (on_external (matches (B_ReadyForQuery _))));
      mkTransition "Error" "error" "Draining" None None
        (Some (on_external (matches (B_ErrorResponse _))))];
  mkState "CopyIn" Mixed [
      mkTransition "CopyData" "copy_data" "CopyIn" (Some Internal) None
        (Some (on_internal (matches (F_CopyData _))));
      mkTransition "CopyDone" "copy_done" "AwaitingReady" (Some Internal) None
        (Some (on_internal (matches F_CopyDone)));
      mkTransition "CopyFail" "copy_fail" "AwaitingReady" (Some Internal) None
        (Some (on_internal (matches (F_CopyFail _))));
      mkTransition "Error" "error" "Draining" (Some External) None
        (Some (on_external (matches (B_ErrorResponse _))))];
  mkState "CopyOut" External [
      mkTransition "CopyData" "copy_data" "CopyOut" None None
        (Some (on_external (matches (B_CopyData _))));
      mkTransition "CopyDone" "copy_done" "AwaitingReady" None None
        (Some (on_external (matches B_CopyDone)));
      mkTransition "Error" "error" "Draining" None None
        (Some (on_external (matches (B_ErrorResponse _))))];
  mkState "CopyBoth" Mixed [
      mkTransition "SendCopyData" "send_copy_data" "CopyBoth" (Some Internal) None
        (Some (on_internal (matches (F_CopyData _))));
      mkTransition "ReceiveCopyData" "receive_copy_data" "CopyBoth" (Some External) None
        (Some (on_external (matches (B_CopyData _))));
      mkTransition "SendCopyDone" "send_copy_done" "CopyBothClientDone" (Some Internal) None
        (Some (on_internal (matches F_CopyDone)));
      mkTransition "ReceiveCopyDone" "receive_copy_done" "CopyBothServerDone" (Some External) None
        (Some (on_external (matches B_CopyDone)));
      mkTransition "Error" "error" "Draining" (Some External) None
        (Some (on_external (matches (B_ErrorResponse _))))];
  mkState "CopyBothClientDone" External [
      mkTransition "ReceiveCopyData" "receive_copy_data" "CopyBothClientDone" None None
        (Some (on_external (matches (B_CopyData _))));
      mkTransition "ReceiveCopyDone" "receive_copy_done" "AwaitingReady" None None
        (Some (on_external (matches B_CopyDone)));
      mkTransition "Error" "error" "Draining" None None
        (Some (on_external (matches (B_ErrorResponse _))))];
  mkState "CopyBothServerDone" Internal [
      mkTransition "SendCopyData" "send_copy_data" "CopyBothServerDone" None None
        (Some (on_internal (matches (F_CopyData _))));
      mkTransition "SendCopyDone" "send_copy_done" "AwaitingReady" None None
        (Some (on_internal (matches F_CopyDone)))];
  mkState "Draining" External [
      mkTransition "Continue" "continue_response" "Draining" None None
        (Some (on_external (matches (B_RowDescription _ | B_DataRow _ | B_CommandComplete _ | B_EmptyQueryResponse | B_ParseComplete | B_BindComplete | B_CloseComplete | B_NoData | B_ParameterDescription _ | B_PortalSuspended))));
      mkTransition "Ready" "ready" "Ready" None None
        (Some (on_external (matches (B_ReadyForQuery _))))];
  mkState "Resetting" External [
      mkTransition "Continue" "continue_reset" "Resetting" None None
        (Some (on_external (matches (B_RowDescription _ | B_DataRow _ | B_EmptyQueryResponse))));
      mkTransition "DiscardComplete" "discard_complete" "ResetComplete" None None
        (Some (on_external (matches (B_CommandComplete _))));
      mkTransition "Error" "error" "Draining" None None
        (Some (on_external (matches (B_ErrorResponse _))))];
  mkState "ResetComplete" External [
      mkTransition "Continue" "continue_reset" "ResetComplete" None None
        (Some (on_external (matches (B_RowDescription _ | B_DataRow _ | B_CommandComplete _ | B_EmptyQueryResponse))));
      mkTransition "ReadyClean" "ready_clean" "Ready" None (Some "Pristine")
        (Some (on_external (matches (B_ReadyForQuery (Idle)))));
      mkTransition "ReadyDirty" "ready_dirty" "Ready" None (Some "Dirty")
        (Some (on_external (matches (B_ReadyForQuery (InTransaction | FailedTransaction)))));
      mkTransition "Error" "error" "Draining" None None
        (Some (on_external (matches (B_ErrorResponse _))))];
  mkState "Terminated" External []].

Definition pre_startup : Protocol PreStartupMessage EncryptionReply := mkProtocol "pre_startup" "PreStartup" true [
  mkState "PreStartup" Internal [
      mkTransition "SslRequest" "ssl_request" "AwaitingSslReply" None None
        (Some (on_internal (matches SslRequest)));
      mkTransition "GssRequest" "gss_request" "AwaitingGssReply" None None
        (Some (on_internal (matches GssEncRequest)));
      mkTransition "Cancel" "cancel" "Terminated" None None
        (Some (on_internal (matches (CancelRequest _ _))));
      mkTransition "Startup" "startup" "Auth" None None
        (Some (on_internal (matches (MsgStartup _))))];
  mkState "AwaitingSslReply" External [
      mkTransition "Accept" "accept" "TlsHandshake" None None
        (Some (on_external (matches Accepted)));
      mkTransition "Reject" "reject" "PreStartup" None None
        (Some (on_external (matches Rejected)));
      mkTransition "LegacyError" "legacy_error" "Terminated" None None
        (Some (on_external (matches LegacyError)))];
  mkState "AwaitingGssReply" External [
      mkTransition "Accept" "accept" "GssHandshake" None None
        (Some (on_external (matches Accepted)));
      mkTransition "Reject" "reject" "PreStartup" None None
        (Some (on_external (matches Rejected)));
      mkTransition "LegacyError" "legacy_error" "Terminated" None None
        (Some (on_external (matches LegacyError)))];
  mkState "TlsHandshake" Internal [
      mkTransition "HandshakeComplete" "complete" "PreStartup" None None
        None];
  mkState "GssHandshake" Internal [
      mkTransition "HandshakeComplete" "complete" "PreStartup" None None
        None];
  mkState "Auth" External [];
  mkState "Terminated" External []].

Definition server_pre_startup : Protocol EncryptionReply PreStartupMessage := mkProtocol "server_pre_startup" "PreStartup" true [
  mkState "PreStartup" External [
      mkTransition "SslRequest" "ssl_request" "SslDecision" None None
        (Some (on_external (matches SslRequest)));
      mkTransition "GssRequest" "gss_request" "GssDecision" None None
        (Some (on_external (matches GssEncRequest)));
      mkTransition "Cancel" "cancel" "Terminated" None None
        (Some (on_external (matches (CancelRequest _ _))));
      mkTransition "Startup" "startup" "Auth" None None
        (Some (on_external (matches (MsgStartup _))))];
  mkState "SslDecision" Internal [
      mkTransition "Accept" "accept" "TlsHandshake" None None
        (Some (on_internal (matches Accepted)));
      mkTransition "Reject" "reject" "PreStartup" None None
        (Some (on_internal (matches Rejected)));
      mkTransition "LegacyError" "legacy_error" "Terminated" None None
        (Some (on_internal (matches LegacyError)))];
  mkState "GssDecision" Internal [
      mkTransition "Accept" "accept" "GssHandshake" None None
        (Some (on_internal (matches Accepted)));
      mkTransition "Reject" "reject" "PreStartup" None None
        (Some (on_internal (matches Rejected)));
      mkTransition "LegacyError" "legacy_error" "Terminated" None None
        (Some (on_internal (matches LegacyError)))];
  mkState "TlsHandshake" Internal [
      mkTransition "HandshakeComplete" "complete" "PreStartup" None None
        None];
  mkState "GssHandshake" Internal [
      mkTransition "HandshakeComplete" "complete" "PreStartup" None None
        None];
  mkState "Auth" Internal [];
  mkState "Terminated" Internal []].

Definition authentication : Protocol FrontendMessage BackendMessage := mkProtocol "authentication" "Auth" true [
  mkState "Auth" External [
      mkTransition "Negotiate" "negotiate" "Auth" None None
        (Some (on_external (matches (B_NegotiateProtocolVersion _))));
      mkTransition "Ok" "ok" "AwaitingStartupReady" None None
        (Some (on_external (matches (B_Authentication A_Ok))));
      mkTransition "Cleartext" "cleartext" "PasswordResponse" None None
        (Some (on_external (matches (B_Authentication A_CleartextPassword))));
      mkTransition "Md5" "md5" "PasswordResponse" None None
        (Some (on_external (matches (B_Authentication (A_Md5Password _)))));
      mkTransition "Sasl" "sasl" "SaslInitial" None None
        (Some (on_external (matches (B_Authentication (A_Sasl _)))));
      mkTransition "Gss" "gss" "TokenResponse" None None
        (Some (on_external (matches (B_Authentication A_Gss))));
      mkTransition "Sspi" "sspi" "TokenResponse" None None
        (Some (on_external (matches (B_Authentication A_Sspi))));
      mkTransition "KerberosV5" "kerberos_v5" "TokenResponse" None None
        (Some (on_external (matches (B_Authentication A_KerberosV5))));
      mkTransition "Error" "error" "Terminated" None None
        (Some (on_external (matches (B_ErrorResponse _))))];
  mkState "PasswordResponse" Internal [
      mkTransition "Password" "password" "AwaitingAuthOk" None None
        (Some (on_internal (matches (F_PasswordResponse _))))];
  mkState "TokenResponse" Internal [
      mkTransition "Response" "response" "TokenChallenge" None None
        (Some (on_internal (matches (F_PasswordResponse _))))];
  mkState "TokenChallenge" External [
      mkTransition "Continue" "continue_token" "TokenResponse" None None
        (Some (on_external (matches (B_Authentication (A_GssContinue _)))));
      mkTransition "Ok" "ok" "AwaitingStartupReady" None None
        (Some (on_external (matches (B_Authentication A_Ok))));
      mkTransition "Error" "error" "Terminated" None None
        (Some (on_external (matches (B_ErrorResponse _))))];
  mkState "SaslInitial" Internal [
      mkTransition "Initial" "initial" "Sasl" None None
        (Some (on_internal (matches (F_PasswordResponse _))))];
  mkState "Sasl" External [
      mkTransition "Continue" "continue_response" "SaslChallenge" None None
        (Some (on_external (matches (B_Authentication (A_SaslContinue _)))));
      mkTransition "Final" "final_response" "SaslFinal" None None
        (Some (on_external (matches (B_Authentication (A_SaslFinal _)))));
      mkTransition "Error" "error" "Terminated" None None
        (Some (on_external (matches (B_ErrorResponse _))))];
  mkState "SaslChallenge" Internal [
      mkTransition "Response" "response" "Sasl" None None
        (Some (on_internal (matches (F_PasswordResponse _))))];
  mkState "SaslFinal" Internal [
      mkTransition "Verified" "verified" "AwaitingAuthOk" None None
        None];
  mkState "AwaitingAuthOk" External [
      mkTransition "Ok" "ok" "AwaitingStartupReady" None None
        (Some (on_external (matches (B_Authentication A_Ok))));
      mkTransition "Error" "error" "Terminated" None None
        (Some (on_external (matches (B_ErrorResponse _))))];
  mkState "AwaitingStartupReady" External [
      mkTransition "Ready" "ready" "Ready" None None
        (Some (on_external (matches (B_ReadyForQuery _))))];
  mkState "Ready" External [];
  mkState "Terminated" External []].

Definition backend_core_states : list (State BackendMessage FrontendMessage) := [
  mkState "Ready" External [
      mkTransition "Query" "query" "Simple" None (Some "Dirty")
        (Some (on_external (matches (F_Query _))));
      mkTransition "Parse" "parse" "ParseResponse" None (Some "Dirty")
        (Some (on_external (matches (F_Parse _))));
      mkTransition "Bind" "bind" "BindResponse" None (Some "Dirty")
        (Some (on_external (matches (F_Bind _))));
      mkTransition "Describe" "describe" "DescribeResponse" None None
        (Some (on_external (matches (F_Describe _))));
      mkTransition "Execute" "execute" "ExecuteResponse" None (Some "Dirty")
        (Some (on_external (matches (F_Execute _))));
      mkTransition "Close" "close" "CloseResponse" None None
        (Some (on_external (matches (F_Close _))));
      mkTransition "FunctionCall" "function_call" "FunctionResponse" None (Some "Dirty")
        (Some (on_external (matches (F_FunctionCall _))));
      mkTransition "Terminate" "terminate" "Terminated" None None
        (Some (on_external (matches F_Terminate)))];
  mkState "Simple" Internal [
      mkTransition "Continue" "continue_response" "Simple" None None
        (Some (on_internal (matches (B_RowDescription _ | B_DataRow _ | B_CommandComplete _ | B_EmptyQueryResponse))));
      mkTransition "CopyIn" "copy_in" "SimpleCopyIn" None None
        (Some (on_internal (matches (B_CopyInResponse _))));
      mkTransition "CopyOut" "copy_out" "SimpleCopyOut" None None
        (Some (on_internal (matches (B_CopyOutResponse _))));
      mkTransition "CopyBoth" "copy_both" "SimpleCopyBoth" None None
        (Some (on_internal (matches (B_CopyBothResponse _))));
      mkTransition "Ready" "ready" "Ready" None None
        (Some (on_internal (matches (B_ReadyForQuery _))));
      mkTransition "Error" "error" "SimpleError" None None
        (Some (on_internal (matches (B_ErrorResponse _))))];
  mkState "SimpleError" Internal [
      mkTransition "Ready" "ready" "Ready" None None
        (Some (on_internal (matches (B_ReadyForQuery _))))];
  mkState "Building" External [
      mkTransition "Parse" "parse" "ParseResponse" None (Some "Dirty")
        (Some (on_external (matches (F_Parse _))));
      mkTransition "Bind" "bind" "BindResponse" None (Some "Dirty")
        (Some (on_external (matches (F_Bind _))));
      mkTransition "Describe" "describe" "DescribeResponse" None None
        (Some (on_external (matches (F_Describe _))));
      mkTransition "Execute" "execute" "ExecuteResponse" None (Some "Dirty")
        (Some (on_external (matches (F_Execute _))));
      mkTransition "Close" "close" "CloseResponse" None None
        (Some (on_external (matches (F_Close _))));
      mkTransition "Flush" "flush" "Building" None None
        (Some (on_external (matches F_Flush)));
      mkTransition "Sync" "sync" "SyncResponse" None None
        (Some (on_external (matches F_Sync)))];
  mkState "ParseResponse" Internal [
      mkTransition "Complete" "complete" "Building" None None
        (Some (on_internal (matches B_ParseComplete)));
      mkTransition "Error" "error" "ExtendedError" None None
        (Some (on_internal (matches (B_ErrorResponse _))))];
  mkState "BindResponse" Internal [
      mkTransition "Complete" "complete" "Building" None None
        (Some (on_internal (matches B_BindComplete)));
      mkTransition "Error" "error" "ExtendedError" None None
        (Some (on_internal (matches (B_ErrorResponse _))))];
  mkState "DescribeResponse" Internal [
      mkTransition "ParameterDescription" "parameter_description" "DescribeResponse" None None
        (Some (on_internal (matches (B_ParameterDescription _))));
      mkTransition "RowDescription" "row_description" "Building" None None
        (Some (on_internal (matches (B_RowDescription _))));
      mkTransition "NoData" "no_data" "Building" None None
        (Some (on_internal (matches B_NoData)));
      mkTransition "Error" "error" "ExtendedError" None None
        (Some (on_internal (matches (B_ErrorResponse _))))];
  mkState "ExecuteResponse" Internal [
      mkTransition "Continue" "continue_response" "ExecuteResponse" None None
        (Some (on_internal (matches (B_RowDescription _ | B_DataRow _ | B_EmptyQueryResponse))));
      mkTransition "CopyIn" "copy_in" "ExtendedCopyIn" None None
        (Some (on_internal (matches (B_CopyInResponse _))));
      mkTransition "CopyOut" "copy_out" "ExtendedCopyOut" None None
        (Some (on_internal (matches (B_CopyOutResponse _))));
      mkTransition "CopyBoth" "copy_both" "ExtendedCopyBoth" None None
        (Some (on_internal (matches (B_CopyBothResponse _))));
      mkTransition "CommandComplete" "command_complete" "Building" None None
        (Some (on_internal (matches (B_CommandComplete _))));
      mkTransition "PortalSuspended" "portal_suspended" "Building" None None
        (Some (on_internal (matches B_PortalSuspended)));
      mkTransition "Error" "error" "ExtendedError" None None
        (Some (on_internal (matches (B_ErrorResponse _))))];
  mkState "CloseResponse" Internal [
      mkTransition "Complete" "complete" "Building" None None
        (Some (on_internal (matches B_CloseComplete)));
      mkTransition "Error" "error" "ExtendedError" None None
        (Some (on_internal (matches (B_ErrorResponse _))))];
  mkState "ExtendedError" External [
      mkTransition "Discard" "discard" "ExtendedError" None None
        (Some (on_external (matches (F_Parse _ | F_Bind _ | F_Describe _ | F_Execute _ | F_Close _ | F_Flush | F_Query _ | F_FunctionCall _ | F_Terminate | F_CopyData _ | F_CopyDone | F_CopyFail _ | F_PasswordResponse _))));
      mkTransition "Sync" "sync" "SyncResponse" None None
        (Some (on_external (matches F_Sync)))];
  mkState "SyncResponse" Internal [
      mkTransition "Ready" "ready" "Ready" None None
        (Some (on_internal (matches (B_ReadyForQuery _))))];
  mkState "FunctionResponse" Internal [
      mkTransition "Result" "result" "FunctionReady" None None
        (Some (on_internal (matches (B_FunctionCallResponse _))));
      mkTransition "Error" "error" "FunctionReady" None None
        (Some (on_internal (matches (B_ErrorResponse _))))];
  mkState "FunctionReady" Internal [
      mkTransition "Ready" "ready" "Ready" None None
        (Some (on_internal (matches (B_ReadyForQuery _))))]].

Definition backend_copy_states : list (State BackendMessage FrontendMessage) := [
  mkState "SimpleCopyIn" External [
      mkTransition "Data" "data" "SimpleCopyIn" None None
        (Some (on_external (matches (F_CopyData _))));
      mkTransition "Done" "done" "SimpleCopyInDone" None None
        (Some (on_external (matches F_CopyDone)));
      mkTransition "Fail" "fail" "SimpleCopyInFailed" None None
        (Some (on_external (matches (F_CopyFail _))))];
  mkState "SimpleCopyInDone" Internal [
      mkTransition "CommandComplete" "command_complete" "SimpleCopyReady" None None
        (Some (on_internal (matches (B_CommandComplete _))));
      mkTransition "Error" "error" "SimpleCopyReady" None None
        (Some (on_internal (matches (B_ErrorResponse _))))];
  mkState "SimpleCopyInFailed" Internal [
      mkTransition "Error" "error" "SimpleCopyReady" None None
        (Some (on_internal (matches (B_ErrorResponse _))))];
  mkState "SimpleCopyOut" Internal [
      mkTransition "Data" "data" "SimpleCopyOut" None None
        (Some (on_internal (matches (B_CopyData _))));
      mkTransition "Done" "done" "SimpleCopyOutDone" None None
        (Some (on_internal (matches B_CopyDone)));
      mkTransition "Error" "error" "SimpleCopyReady" None None
        (Some (on_internal (matches (B_ErrorResponse _))))];
  mkState "SimpleCopyOutDone" Internal [
      mkTransition "CommandComplete" "command_complete" "SimpleCopyReady" None None
        (Some (on_internal (matches (B_CommandComplete _))))];
  mkState "SimpleCopyReady" Internal [
      mkTransition "Ready" "ready" "Ready" None None
        (Some (on_internal (matches (B_ReadyForQuery _))))];
  mkState "ExtendedCopyIn" External [
      mkTransition "Data" "data" "ExtendedCopyIn" None None
        (Some (on_external (matches (F_CopyData _))));
      mkTransition "Done" "done" "ExtendedCopyInDone" None None
        (Some (on_external (matches F_CopyDone)));
      mkTransition "Fail" "fail" "ExtendedCopyInFailed" None None
        (Some (on_external (matches (F_CopyFail _))))];
  mkState "ExtendedCopyInDone" Internal [
      mkTransition "CommandComplete" "command_complete" "Building" None None
        (Some (on_internal (matches (B_CommandComplete _))));
      mkTransition "Error" "error" "ExtendedError" None None
        (Some (on_internal (matches (B_ErrorResponse _))))];
  mkState "ExtendedCopyInFailed" Internal [
      mkTransition "Error" "error" "ExtendedError" None None
        (Some (on_internal (matches (B_ErrorResponse _))))];
  mkState "ExtendedCopyOut" Internal [
      mkTransition "Data" "data" "ExtendedCopyOut" None None
        (Some (on_internal (matches (B_CopyData _))));
      mkTransition "Done" "done" "ExtendedCopyOutDone" None None
        (Some (on_internal (matches B_CopyDone)));
      mkTransition "Error" "error" "ExtendedError" None None
        (Some (on_internal (matches (B_ErrorResponse _))))];
  mkState "ExtendedCopyOutDone" Internal [
      mkTransition "CommandComplete" "command_complete" "Building" None None
        (Some (on_internal (matches (B_CommandComplete _))))]].

Definition backend_copy_both_states : list (State BackendMessage FrontendMessage) := [
  mkState "SimpleCopyBoth" Mixed [
      mkTransition "SendData" "send_data" "SimpleCopyBoth" (Some Internal) None
        (Some (on_internal (matches (B_CopyData _))));
      mkTransition "ReceiveData" "receive_data" "SimpleCopyBoth" (Some External) None
        (Some (on_external (matches (F_CopyData _))));
      mkTransition "SendDone" "send_done" "SimpleCopyBothServerDone" (Some Internal) None
        (Some (on_internal (matches B_CopyDone)));
      mkTransition "ReceiveDone" "receive_done" "SimpleCopyBothClientDone" (Some External) None
        (Some (on_external (matches F_CopyDone)));
      mkTransition "Fail" "fail" "SimpleCopyBothFailed" (Some External) None
        (Some (on_external (matches (F_CopyFail _))));
      mkTransition "Error" "error" "SimpleCopyReady" (Some Internal) None
        (Some (on_internal (matches (B_ErrorResponse _))))];
  mkState "SimpleCopyBothClientDone" Internal [
      mkTransition "SendData" "send_data" "SimpleCopyBothClientDone" None None
        (Some (on_internal (matches (B_CopyData _))));
      mkTransition "SendDone" "send_done" "SimpleCopyBothDone" None None
        (Some (on_internal (matches B_CopyDone)));
      mkTransition "Error" "error" "SimpleCopyReady" None None
        (Some (on_internal (matches (B_ErrorResponse _))))];
  mkState "SimpleCopyBothServerDone" External [
      mkTransition "ReceiveData" "receive_data" "SimpleCopyBothServerDone" None None
        (Some (on_external (matches (F_CopyData _))));
      mkTransition "ReceiveDone" "receive_done" "SimpleCopyBothDone" None None
        (Some (on_external (matches F_CopyDone)));
      mkTransition "Fail" "fail" "SimpleCopyBothFailed" None None
        (Some (on_external (matches (F_CopyFail _))))];
  mkState "SimpleCopyBothDone" Internal [
      mkTransition "CommandComplete" "command_complete" "SimpleCopyReady" None None
        (Some (on_internal (matches (B_CommandComplete _))))];
  mkState "SimpleCopyBothFailed" Internal [
      mkTransition "Error" "error" "SimpleCopyReady" None None
        (Some (on_internal (matches (B_ErrorResponse _))))];
  mkState "ExtendedCopyBoth" Mixed [
      mkTransition "SendData" "send_data" "ExtendedCopyBoth" (Some Internal) None
        (Some (on_internal (matches (B_CopyData _))));
      mkTransition "ReceiveData" "receive_data" "ExtendedCopyBoth" (Some External) None
        (Some (on_external (matches (F_CopyData _))));
      mkTransition "SendDone" "send_done" "ExtendedCopyBothServerDone" (Some Internal) None
        (Some (on_internal (matches B_CopyDone)));
      mkTransition "ReceiveDone" "receive_done" "ExtendedCopyBothClientDone" (Some External) None
        (Some (on_external (matches F_CopyDone)));
      mkTransition "Fail" "fail" "ExtendedCopyBothFailed" (Some External) None
        (Some (on_external (matches (F_CopyFail _))));
      mkTransition "Error" "error" "ExtendedError" (Some Internal) None
        (Some (on_internal (matches (B_ErrorResponse _))))];
  mkState "ExtendedCopyBothClientDone" Internal [
      mkTransition "SendData" "send_data" "ExtendedCopyBothClientDone" None None
        (Some (on_internal (matches (B_CopyData _))));
      mkTransition "SendDone" "send_done" "ExtendedCopyBothDone" None None
        (Some (on_internal (matches B_CopyDone)));
      mkTransition "Error" "error" "ExtendedError" None None
        (Some (on_internal (matches (B_ErrorResponse _))))];
  mkState "ExtendedCopyBothServerDone" External [
      mkTransition "ReceiveData" "receive_data" "ExtendedCopyBothServerDone" None None
        (Some (on_external (matches (F_CopyData _))));
      mkTransition "ReceiveDone" "receive_done" "ExtendedCopyBothDone" None None
        (Some (on_external (matches F_CopyDone)));
      mkTransition "Fail" "fail" "ExtendedCopyBothFailed" None None
        (Some (on_external (matches (F_CopyFail _))))];
  mkState "ExtendedCopyBothDone" Internal [
      mkTransition "CommandComplete" "command_complete" "Building" None None
        (Some (on_internal (matches (B_CommandComplete _))))];
  mkState "ExtendedCopyBothFailed" Internal [
      mkTransition "Error" "error" "ExtendedError" None None
        (Some (on_internal (matches (B_ErrorResponse _))))];
  mkState "Terminated" External []].

Definition backend : Protocol BackendMessage FrontendMessage :=
  mkProtocol "backend" "Ready" true (backend_core_states ++ backend_copy_states ++ backend_copy_both_states).

Definition server_authentication : Protocol BackendMessage FrontendMessage := mkProtocol "server_authentication" "Startup" true [
  mkState "Startup" Internal [
      mkTransition "Begin" "begin" "Auth" None None
        None;
      mkTransition "Reject" "reject" "Terminated" None None
        (Some (on_internal (matches (B_ErrorResponse _))))];
  mkState "Auth" Internal [
      mkTransition "Negotiate" "negotiate" "Auth" None None
        (Some (on_internal (matches (B_NegotiateProtocolVersion _))));
      mkTransition "Cleartext" "cleartext" "PasswordResponse" None None
        (Some (on_internal (matches (B_Authentication A_CleartextPassword))));
      mkTransition "Md5" "md5" "PasswordResponse" None None
        (Some (on_internal (matches (B_Authentication (A_Md5Password _)))));
      mkTransition "Sasl" "sasl" "SaslInitial" None None
        (Some (on_internal (matches (B_Authentication (A_Sasl _)))));
      mkTransition "Gss" "gss" "TokenResponse" None None
        (Some (on_internal (matches (B_Authentication A_Gss))));
      mkTransition "Sspi" "sspi" "TokenResponse" None None
        (Some (on_internal (matches (B_Authentication A_Sspi))));
      mkTransition "KerberosV5" "kerberos_v5" "TokenResponse" None None
        (Some (on_internal (matches (B_Authentication A_KerberosV5))));
      mkTransition "Ok" "ok" "StartupReady" None None
        (Some (on_internal (matches (B_Authentication A_Ok))));
      mkTransition "Error" "error" "Terminated" None None
        (Some (on_internal (matches (B_ErrorResponse _))))];
  mkState "PasswordResponse" External [
      mkTransition "Response" "response" "Auth" None None
        (Some (on_external (matches (F_PasswordResponse _))))];
  mkState "SaslInitial" External [
      mkTransition "Initial" "initial" "Sasl" None None
        (Some (on_external (matches (F_PasswordResponse _))))];
  mkState "Sasl" Internal [
      mkTransition "Continue" "continue_response" "SaslResponse" None None
        (Some (on_internal (matches (B_Authentication (A_SaslContinue _)))));
      mkTransition "Final" "final_response" "Auth" None None
        (Some (on_internal (matches (B_Authentication (A_SaslFinal _)))));
      mkTransition "Error" "error" "Terminated" None None
        (Some (on_internal (matches (B_ErrorResponse _))))];
  mkState "SaslResponse" External [
      mkTransition "Response" "response" "Sasl" None None
        (Some (on_external (matches (F_PasswordResponse _))))];
  mkState "TokenResponse" External [
      mkTransition "Response" "response" "TokenPolicy" None None
        (Some (on_external (matches (F_PasswordResponse _))))];
  mkState "TokenPolicy" Internal [
      mkTransition "Continue" "continue_token" "TokenResponse" None None
        (Some (on_internal (matches (B_Authentication (A_GssContinue _)))));
      mkTransition "Verified" "verified" "Auth" None None
        None;
      mkTransition "Error" "error" "Terminated" None None
        (Some (on_internal (matches (B_ErrorResponse _))))];
  mkState "StartupReady" Internal [
      mkTransition "ParameterStatus" "parameter_status" "StartupReady" None None
        (Some (on_internal (matches (B_ParameterStatus _ _))));
      mkTransition "BackendKeyData" "backend_key_data" "StartupReady" None None
        (Some (on_internal (matches (B_BackendKeyData _ _))));
      mkTransition "Ready" "ready" "Ready" None None
        (Some (on_internal (matches (B_ReadyForQuery _))))];
  mkState "Ready" External [];
  mkState "Terminated" External []].

(** ** The tables are well formed *)

Definition well_formed {I E} (p : Protocol I E) : Prop :=
  validate p = Ok tt /\ deterministic p.

Lemma well_formed_check {I E} (p : Protocol I E) :
  validate p = Ok tt ->
  bool_decide (NoDup (map (fun t => (r_source t, r_event t)) (TRANSITIONS p))) = true -> well_formed p.
Proof. intros Hv Hd. split; [done|]. now apply bool_decide_eq_true in Hd. Qed.

(** ** Synchronous composition of two roles *)

(** [client] sends a message its grammar projects; [server] receives it. The
    result is the next pair of states, when the receiver has an arm for it. *)
Definition client_sends {I E} (client : Protocol I E) (server : Protocol E I)
    (st : string * string) (m : I) : option (option (string * string)) :=
  match project_internal client st.1 m with
  | None => None
  | Some e =>
      Some (match project_external server st.2 m with
            | None => None
            | Some e' =>
                match transition client st.1 e, transition server st.2 e' with
                | Some t, Some t' => Some (r_target t, r_target t')
                | _, _ => None
                end
            end)
  end.

Definition server_sends {I E} (client : Protocol I E) (server : Protocol E I)
    (st : string * string) (m : E) : option (option (string * string)) :=
  match client_sends server client (st.2, st.1) m with
  | Some (Some (b, a)) => Some (Some (a, b))
  | Some None => Some None
  | None => None
  end.

(** Every message either role may send at [st] is received, and leads into [R]. *)
Definition exchange_safe {I E} (client : Protocol I E) (server : Protocol E I)
    (R : list (string * string)) (st : string * string) : Prop :=
  (forall m, match client_sends client server st m with
             | Some (Some st') => st' ∈ R | Some None => False | None => True end) /\
  (forall m, match server_sends client server st m with
             | Some (Some st') => st' ∈ R | Some None => False | None => True end).

(** The joint states of a simple query, a COPY inside one, and a function call. *)
Definition request_states : list (string * string) :=
  [("Simple", "Simple"); ("Draining", "SimpleError"); ("Draining", "SimpleCopyReady");
   ("CopyIn", "SimpleCopyIn"); ("AwaitingReady", "SimpleCopyInDone");
   ("AwaitingReady", "SimpleCopyInFailed"); ("AwaitingReady", "SimpleCopyReady");
   ("CopyOut", "SimpleCopyOut"); ("AwaitingReady", "SimpleCopyOutDone");
   ("CopyBoth", "SimpleCopyBoth"); ("CopyBothClientDone", "SimpleCopyBothClientDone");
   ("CopyBothServerDone", "SimpleCopyBothServerDone"); ("AwaitingReady", "SimpleCopyBothDone");
   ("FunctionCalling", "FunctionResponse"); ("AwaitingReady", "FunctionReady"); ("Draining", "FunctionReady")].

(** Membership in a concrete list of state pairs. *)
Ltac in_states := apply (bool_decide_eq_true_1 _); vm_compute; reflexivity.

(** Split membership in a concrete list into its elements. *)
Ltac each_state H :=
  repeat (apply elem_of_cons in H as [H|H]; [injection H as -> ->|]); [..|now apply not_elem_of_nil in H].

Definition pair_ok (R : list (string * string)) (r : option (option (string * string))) : bool :=
  match r with Some (Some st) => bool_decide (st ∈ R) | Some None => false | None => true end.

Lemma exchange_safe_check {I E} (client : Protocol I E) (server : Protocol E I) R st :
  (forall m, pair_ok R (client_sends client server st m) = true) ->
  (forall m, pair_ok R (server_sends client server st m) = true) ->
  exchange_safe client server R st.
Proof.
  intros Hc Hs. split; intros m; [specialize (Hc m)|specialize (Hs m)]; unfold pair_ok in *;
    [destruct (client_sends client server st m) as [[]|]|destruct (server_sends client server st m) as [[]|]];
    try done; now apply bool_decide_eq_true in Hc || apply bool_decide_eq_true in Hs.
Qed.

Lemma request_states_safe st : st ∈ request_states ->
  exchange_safe frontend backend (("Ready", "Ready") :: request_states) st.
Proof.
  intros H. destruct st as [f b]. unfold request_states in H. each_state H;
    (apply exchange_safe_check; intros []; vm_compute; reflexivity).
Qed.

(** The client's state at the server's pre-startup state. *)
Definition server_pre_startup_of (s : string) : string :=
  if decide (s = "AwaitingSslReply") then "SslDecision"
  else if decide (s = "AwaitingGssReply") then "GssDecision"
  else s.

Definition dual_edge (a b : option RuntimeTransition) : bool :=
  match a, b with
  | None, None => true
  | Some t, Some u =>
      bool_decide (r_target u = server_pre_startup_of (r_target t)) &&
      bool_decide (r_event u = r_event t) &&
      (bool_decide (r_choice u = dual (r_choice t)) || bool_decide (r_event t = "HandshakeComplete"))
  | _, _ => false
  end.

(** ** Properties *)

(** The macro accepts all six grammars of the crate, and in each the
    transition table is a partial function of state and event. *)
Lemma grammars_well_formed :
  well_formed frontend /\ well_formed pre_startup /\ well_formed server_pre_startup /\
  well_formed authentication /\ well_formed backend /\ well_formed server_authentication.
Proof. split_and!; (apply well_formed_check; vm_compute; reflexivity). Qed.

(** Joint states of the two session roles over wire messages alone, when every
    message is received before the next one is sent. The client's own moves, into an
    extended batch and into a reset, project no message and are not steps here: a
    batch is sent before its responses are read, and a reset sends a query. *)
Inductive joint : string * string -> Prop :=
| joint_start : joint ("Ready", "Ready")
| joint_client st m st' : joint st -> client_sends frontend backend st m = Some (Some st') -> joint st'
| joint_server st m st' : joint st -> server_sends frontend backend st m = Some (Some st') -> joint st'.

Definition session_states : list (string * string) :=
  ("Ready", "Ready") :: ("Terminated", "Terminated") :: request_states.

Lemma session_states_safe st : st ∈ session_states -> exchange_safe frontend backend session_states st.
Proof.
  intros H. destruct st as [f b]. unfold session_states, request_states in H. each_state H;
    (apply exchange_safe_check; intros []; vm_compute; reflexivity).
Qed.

Lemma joint_session st : joint st -> st ∈ session_states.
Proof.
  induction 1 as [|st m st' Hj IH Hs|st m st' Hj IH Hs]; [left| |];
    apply session_states_safe in IH as [Hc Hv]; [specialize (Hc m)|specialize (Hv m)];
    now rewrite Hs in *.
Qed.

(** A message one of the roles can send, as a pair of attempts. *)
Definition can_send (st : string * string) (m : FrontendMessage + BackendMessage) : bool :=
  match m with
  | inl m => is_some (client_sends frontend backend st m)
  | inr m => is_some (server_sends frontend backend st m)
  end.

(** Outside the extended protocol and resets the session grammars of the two roles
    fit together. Whenever each message is received before the next is sent, no
    message one role may send is refused by the other, through simple queries, all
    three COPY modes inside them, function calls, errors and termination; and until
    the session is terminated some message can always be sent. *)
Theorem session_grammars_compatible st :
  joint st ->
  exchange_safe frontend backend session_states st /\
  (st <> ("Terminated", "Terminated") -> exists m, can_send st m = true).
Proof.
  intros Hj%joint_session. split; [now apply session_states_safe|]. intros Ht.
  destruct st as [f b]. unfold session_states, request_states in Hj. each_state Hj; try done;
    first
      [ exists (inr (B_ReadyForQuery Idle)); vm_compute; reflexivity
      | exists (inr (B_CommandComplete [])); vm_compute; reflexivity
      | exists (inr (B_ErrorResponse (mkDiagnostic []))); vm_compute; reflexivity
      | exists (inl (F_Query [])); vm_compute; reflexivity
      | exists (inl (F_CopyData [])); vm_compute; reflexivity ].
Qed.

Lemma session_grammars_compatible_witness :
  joint ("CopyIn", "SimpleCopyIn") /\
  exists m, can_send ("CopyIn", "SimpleCopyIn") m = true.
Proof.
  assert (joint ("CopyIn", "SimpleCopyIn")) as Hj.
  { eapply (joint_server ("Simple", "Simple") (B_CopyInResponse (mkCopyResponse x00 [])));
      [|vm_compute; reflexivity].
    eapply (joint_client ("Ready", "Ready") (F_Query [])); [constructor|vm_compute; reflexivity]. }
  split; [exact Hj|]. destruct (session_grammars_compatible _ Hj) as [_ Hp].
  apply Hp. discriminate.
Defined.

(** An extended batch must start with a request: the client may begin one and then
    synchronise or flush at once, but the server's grammar takes neither in [Ready]. *)
Theorem empty_batch_refused :
  option_map r_target (transition frontend "Ready" "BeginExtended") = Some "Building" /\
  project_internal frontend "Building" F_Sync = Some "Sync" /\ project_external backend "Ready" F_Sync = None /\
  project_internal frontend "Building" F_Flush = Some "Flush" /\ project_external backend "Ready" F_Flush = None.
Proof. split_and!; vm_compute; reflexivity. Qed.

(** The client and server pre-startup grammars are duals. State by state
    (up to the names of the decision states) they list the same events with
    corresponding targets and opposite choosers, the local completion of an
    encryption handshake excepted; and each projects the other's wire messages to
    the same event. *)
Theorem pre_startup_grammars_dual s e :
  s ∈ map name (states pre_startup) -> e ∈ map r_event (TRANSITIONS pre_startup) ->
  dual_edge (transition pre_startup s e) (transition server_pre_startup (server_pre_startup_of s) e) = true /\
  (forall m, project_internal pre_startup s m = project_external server_pre_startup (server_pre_startup_of s) m) /\
  (forall r, project_external pre_startup s r = project_internal server_pre_startup (server_pre_startup_of s) r).
Proof.
  intros Hs He. split_and!.
  - assert (forallb (fun s => forallb (fun e => dual_edge (transition pre_startup s e)
        (transition server_pre_startup (server_pre_startup_of s) e)) (map r_event (TRANSITIONS pre_startup)))
      (map name (states pre_startup)) = true) as H by (vm_compute; reflexivity).
    rewrite forallb_forall in H. apply list_elem_of_In in Hs, He. specialize (H s Hs).
    rewrite forallb_forall in H. now apply H.
  - intros m. simpl in Hs. repeat (apply elem_of_cons in Hs as [->|Hs]; [destruct m; vm_compute; reflexivity|]).
    now apply not_elem_of_nil in Hs.
  - intros m. simpl in Hs. repeat (apply elem_of_cons in Hs as [->|Hs]; [destruct m; vm_compute; reflexivity|]).
    now apply not_elem_of_nil in Hs.
Qed.

Lemma pre_startup_grammars_dual_witness :
  dual_edge (transition pre_startup "AwaitingSslReply" "Accept")
    (transition server_pre_startup "SslDecision" "Accept") = true.
Proof.
  apply (pre_startup_grammars_dual "AwaitingSslReply" "Accept");
    apply (bool_decide_eq_true_1 _); vm_compute; reflexivity.
Defined.

(** Messages with which a client opens a request or leaves. *)
Definition opens_request (m : FrontendMessage) : bool :=
  match m with F_Query _ | F_FunctionCall _ | F_Terminate => true | _ => false end.

Definition is_ready_for_query (m : BackendMessage) : bool :=
  match m with B_ReadyForQuery _ => true | _ => false end.

Definition enters {I E} (p : Protocol I E) (s e t : string) : bool :=
  match transition p s e with Some r => bool_decide (r_target r = t) | None => false end.

(** An implication over every arm of a table, message by message. *)
Definition arms_imply {M} (arms : list (string * (M -> bool) * string)) (premise : string -> string -> M -> bool)
    (conclusion : string -> M -> bool) : Prop :=
  Forall (fun a => forall m, implb (a.1.2 m) (implb (premise a.1.1 a.2 m) (conclusion a.1.1 m)) = true) arms.

Lemma arms_imply_elim {M} (arms : list (string * (M -> bool) * string)) premise conclusion s m e :
  arms_imply arms premise conclusion -> first_arm arms s m = Some e ->
  premise s e m = true -> conclusion s m = true.
Proof.
  unfold arms_imply. rewrite Forall_forall. intros H (pat & Hin & Hm)%first_arm_in Hp.
  specialize (H _ Hin m). simpl in H. now rewrite Hm, Hp in H.
Qed.

Ltac check_arms :=
  match goal with |- arms_imply ?arms _ _ =>
    let l := eval vm_compute in arms in change arms with l end;
  unfold arms_imply; repeat (apply Forall_cons; split; [intros [];
    try match goal with st : TransactionStatus |- _ => destruct st end; vm_compute; reflexivity|]);
  apply Forall_nil; exact Logic.I.

Lemma frontend_arms_request :
  arms_imply (internal_arms frontend) (fun _ _ m => opens_request m) (fun s _ => bool_decide (s = "Ready")).
Proof. check_arms. Qed.

Lemma frontend_arms_ready :
  arms_imply (external_arms frontend) (fun s e _ => enters frontend s e "Ready") (fun _ m => is_ready_for_query m).
Proof. check_arms. Qed.

Lemma backend_arms_ready :
  arms_imply (internal_arms backend) (fun s e _ => enters backend s e "Ready") (fun _ m => is_ready_for_query m).
Proof. check_arms. Qed.

(** One request at a time. In the client grammar a query, a function call
    or termination is projected only in [Ready], and in both roles only a
    [ReadyForQuery] message leads back to [Ready]. *)
Theorem ready_guards_requests :
  (forall s m e, project_internal frontend s m = Some e -> opens_request m = true -> s = "Ready") /\
  (forall s m e, project_external frontend s m = Some e -> enters frontend s e "Ready" = true ->
     is_ready_for_query m = true) /\
  (forall s m e, project_internal backend s m = Some e -> enters backend s e "Ready" = true ->
     is_ready_for_query m = true).
Proof.
  split_and!; intros s m e Hp He.
  - exact (bool_decide_eq_true_1 _ (arms_imply_elim _ _ _ _ _ _ frontend_arms_request Hp He)).
  - exact (arms_imply_elim _ _ _ _ _ _ frontend_arms_ready Hp He).
  - exact (arms_imply_elim _ _ _ _ _ _ backend_arms_ready Hp He).
Qed.

(** Error recovery. In the server's extended-query error state every
    frontend message is consumed: [Sync] starts the synchronising reply, anything
    else is discarded in place, and the server itself has nothing to send. *)
Theorem extended_error_discards m b :
  project_external backend "ExtendedError" m = Some (match m with F_Sync => "Sync" | _ => "Discard" end) /\
  enters backend "ExtendedError" "Sync" "SyncResponse" = true /\
  enters backend "ExtendedError" "Discard" "ExtendedError" = true /\
  project_internal backend "ExtendedError" b = None /\
  project_internal backend "SyncResponse" b = (if is_ready_for_query b then Some "Ready" else None).
Proof. split_and!; try (destruct m; vm_compute; reflexivity); try (destruct b; vm_compute; reflexivity); vm_compute; reflexivity. Qed.

Lemma fsm_reachable_declared_witness :
  reachable frontend "Simple" /\ is_Some (fsm_choice frontend (mkFsm "Simple")).
Proof.
  assert (reachable frontend "Simple") as Hr.
  { eapply (reach_step frontend "Ready" "Query"); [apply reach_initial|].
    eexists. split; [vm_compute; reflexivity|reflexivity]. }
  split; [exact Hr|]. apply (fsm_reachable_declared frontend "Simple"); [vm_compute; reflexivity|exact Hr].
Defined.
