(* ===== verification/Pipeline.v ===== *)
(** The bounded ledger that keeps responses in request order: src/pipeline.rs.

    A [backend::RuntimeState] is a state name of the grammar [Grammar.backend];
    the [Notify] handle, which only wakes tasks, is not part of the state. *)

From Stdlib Require Import ZArith Lia String.
From Stdlib Require Import Init.Byte.
From stdpp Require Import prelude strings.
From S2P Require Import Prelude Frame Frontend Backend Demux Fsm Grammar.
Local Open Scope string_scope.
Local Open Scope list_scope.
Local Open Scope Z_scope.

(** ** Policies *)

Class PipelinePolicy (P : Type) : Type := operation_limit : P -> Z (* usize *).

Inductive NoPipeline : Type := mkNoPipeline.
Record BoundedPipeline : Type := mkBounded { max_operations : Z (* usize *) }.
Inductive PipelineConfigError : Type := mkPipelineConfigError.

Definition BoundedPipeline_new (max_operations : Z) : result BoundedPipeline PipelineConfigError :=
  if max_operations =? 0 then Err mkPipelineConfigError else Ok (mkBounded max_operations).

#[export] Instance NoPipeline_policy : PipelinePolicy NoPipeline := fun _ => 1.
#[export] Instance BoundedPipeline_policy : PipelinePolicy BoundedPipeline := max_operations.

(** ** Data *)

(** [OperationId(u64)] *)
Abbreviation OperationId := Z.

Inductive FrontendHandling : Type := Forward | Local.

Inductive FrontendAction : Type :=
| Action_Forward (id : OperationId) (message : FrontendMessage)
| Action_Discard (id : OperationId).

Inductive FrontendAdmission : Type :=
| Immediate (action : FrontendAction)
| Waiting (action : FrontendAction).

Definition into_action (a : FrontendAdmission) : FrontendAction :=
  match a with Immediate action | Waiting action => action end.

Inductive PipelineState : Type :=
| PS_Ready | PS_Extended | PS_ExtendedError | PS_CopyIn | PS_CopyOut | PS_CopyBoth | PS_Terminated.

Inductive FrontendProjectionError : Type :=
| Capacity (message : FrontendMessage)
| Illegal (state : PipelineState) (message : FrontendMessage).

Inductive BackendAction : Type :=
| Emit (message : BackendMessage)
| Deferred (message : BackendMessage).

Record BackendProjectionError : Type :=
  mkBackendProjectionError { bpe_state : PipelineState; bpe_message : BackendMessage }.

Inductive BackendSequenceError : Type :=
| Cardinality (expected actual : Z)
| Source (message : BackendMessage)
| Replacement (message : BackendMessage)
| DifferentSpan.

Inductive RequestState : Type :=
| RS_Ready | RS_Extended (bound : bool) | RS_ExtendedError | RS_CopyIn | RS_CopyOut | RS_CopyBoth | RS_Terminated.

Definition public (s : RequestState) : PipelineState :=
  match s with
  | RS_Ready => PS_Ready
  | RS_Extended _ => PS_Extended
  | RS_ExtendedError => PS_ExtendedError
  | RS_CopyIn => PS_CopyIn
  | RS_CopyOut => PS_CopyOut
  | RS_CopyBoth => PS_CopyBoth
  | RS_Terminated => PS_Terminated
  end.

Inductive Origin : Type := Forwarded | OriginLocal.

Inductive OperationKind : Type :=
| O_Query | O_FunctionCall | O_Parse | O_Bind | O_Describe | O_Execute | O_Close
| O_Flush | O_Sync | O_CopyData | O_CopyDone | O_CopyFail | O_Terminate.

Record Operation : Type := mkOperation {
  op_id : OperationId;
  kind : OperationKind;
  origin : Origin;
  discarded : bool;
  response_state : string
}.

Inductive PreparedResponse : Type :=
| PR_Asynchronous
| PR_Emit (head : Operation) (response_state : string)
| PR_Deferred
| PR_Illegal.

Inductive FrontendPhase : Type :=
| FP_Ready | FP_Building | FP_ExtendedError | FP_SimpleCopyIn | FP_ExtendedCopyIn
| FP_SimpleCopyBoth | FP_ExtendedCopyBoth.

Record PreparedFrontend : Type := mkPrepared { pf_phase : FrontendPhase; pf_request_state : RequestState }.

#[export] Instance PipelineState_eq_dec : EqDecision PipelineState.
Proof. solve_decision. Defined.
#[export] Instance RequestState_eq_dec : EqDecision RequestState.
Proof. solve_decision. Defined.
#[export] Instance Origin_eq_dec : EqDecision Origin.
Proof. solve_decision. Defined.
#[export] Instance OperationKind_eq_dec : EqDecision OperationKind.
Proof. solve_decision. Defined.
#[export] Instance Operation_eq_dec : EqDecision Operation.
Proof. solve_decision. Defined.

Record Pipeline (P : Type) : Type := mkPipeline {
  policy : P;
  operations : list Operation;
  request_state : RequestState;
  resp_state : option PipelineState; (* field [response_state] *)
  next_id : Z (* u64 *)
}.
Arguments mkPipeline {P} policy operations request_state resp_state next_id.
Arguments policy {P} _.
Arguments operations {P} _.
Arguments request_state {P} _.
Arguments resp_state {P} _.
Arguments next_id {P} _.

(** ** Classification *)

Definition generated_request_state (s : RequestState) : string :=
  match s with
  | RS_Ready => "Ready"
  | RS_Extended _ => "Building"
  | RS_ExtendedError => "ExtendedError"
  | RS_CopyIn => "ExtendedCopyIn"
  | RS_CopyOut => "ExtendedCopyOut"
  | RS_CopyBoth => "ExtendedCopyBoth"
  | RS_Terminated => "Terminated"
  end.

(** [Panic] is the [unreachable!] arm for [Sync]; the error stands for [None]. *)
Definition classify_discard (m : FrontendMessage) : result OperationKind unit :=
  match m with
  | F_Parse _ => Ok O_Parse
  | F_Bind _ => Ok O_Bind
  | F_Describe _ => Ok O_Describe
  | F_Execute _ => Ok O_Execute
  | F_Close _ => Ok O_Close
  | F_Flush => Ok O_Flush
  | F_Query _ => Ok O_Query
  | F_FunctionCall _ => Ok O_FunctionCall
  | F_CopyData _ => Ok O_CopyData
  | F_CopyDone => Ok O_CopyDone
  | F_CopyFail _ => Ok O_CopyFail
  | F_Terminate => Ok O_Terminate
  | F_PasswordResponse _ => Err tt
  | F_Sync => Panic
  end.

Definition classify_frontend (s : RequestState) (m : FrontendMessage)
    : result (OperationKind * RequestState) unit :=
  match s, m with
  | RS_Ready, F_Query _ => Ok (O_Query, RS_Ready)
  | RS_Ready, F_FunctionCall _ => Ok (O_FunctionCall, RS_Ready)
  | RS_Ready, F_Parse _ => Ok (O_Parse, RS_Extended false)
  | (RS_Ready | RS_Extended _), F_Bind _ => Ok (O_Bind, RS_Extended true)
  | RS_Ready, F_Describe _ => Ok (O_Describe, RS_Extended false)
  | (RS_Ready | RS_Extended _), F_Execute _ => Ok (O_Execute, RS_Extended true)
  | RS_Ready, F_Close _ => Ok (O_Close, RS_Extended false)
  | RS_Ready, F_Terminate => Ok (O_Terminate, RS_Terminated)
  | RS_Extended bound, F_Parse _ => Ok (O_Parse, RS_Extended bound)
  | RS_Extended bound, F_Describe _ => Ok (O_Describe, RS_Extended bound)
  | RS_Extended bound, F_Close _ => Ok (O_Close, RS_Extended bound)
  | RS_Extended bound, F_Flush => Ok (O_Flush, RS_Extended bound)
  | (RS_Extended _ | RS_ExtendedError), F_Sync => Ok (O_Sync, RS_Ready)
  | RS_ExtendedError, _ => let? k := classify_discard m in Ok (k, RS_ExtendedError)
  | RS_CopyIn, F_CopyData _ => Ok (O_CopyData, RS_CopyIn)
  | RS_CopyIn, F_CopyDone => Ok (O_CopyDone, RS_Extended true)
  | RS_CopyIn, F_CopyFail _ => Ok (O_CopyFail, RS_ExtendedError)
  | RS_CopyBoth, F_CopyData _ => Ok (O_CopyData, RS_CopyBoth)
  | RS_CopyBoth, F_CopyDone => Ok (O_CopyDone, RS_CopyBoth)
  | _, _ => Err tt
  end.

Definition project_frontend (s : RequestState) (m : FrontendMessage)
    : result (OperationKind * RequestState) unit :=
  match project_external backend (generated_request_state s) m with
  | None => Err tt
  | Some _ => classify_frontend s m
  end.

Definition frontend_phase (s : RequestState) (response_head : option OperationKind)
    : result FrontendPhase FrontendProjectionError :=
  match s, response_head with
  | RS_Ready, _ => Ok FP_Ready
  | RS_Extended _, _ => Ok FP_Building
  | RS_ExtendedError, _ => Ok FP_ExtendedError
  | RS_CopyIn, Some O_Query => Ok FP_SimpleCopyIn
  | RS_CopyIn, Some O_Execute => Ok FP_ExtendedCopyIn
  | RS_CopyBoth, Some O_Query => Ok FP_SimpleCopyBoth
  | RS_CopyBoth, Some O_Execute => Ok FP_ExtendedCopyBoth
  | _, _ => Panic
  end.

Definition initial_response_state (k : OperationKind) : string :=
  match k with
  | O_Query => "Simple"
  | O_FunctionCall => "FunctionResponse"
  | O_Parse => "ParseResponse"
  | O_Bind => "BindResponse"
  | O_Describe => "DescribeResponse"
  | O_Execute => "ExecuteResponse"
  | O_Close => "CloseResponse"
  | O_Sync => "SyncResponse"
  | O_Flush | O_CopyData | O_CopyDone | O_CopyFail | O_Terminate => "Terminated"
  end.

Definition response_fits (o : Operation) (m : BackendMessage) : bool :=
  is_some (project_internal backend (response_state o) m).

Definition response_is_terminal (k : OperationKind) (m : BackendMessage) : bool :=
  match k, m with
  | (O_Query | O_FunctionCall | O_Sync), B_ReadyForQuery _ => true
  | O_Parse, (B_ParseComplete | B_ErrorResponse _) => true
  | O_Bind, (B_BindComplete | B_ErrorResponse _) => true
  | O_Describe, (B_RowDescription _ | B_NoData | B_ErrorResponse _) => true
  | O_Execute, (B_CommandComplete _ | B_PortalSuspended | B_ErrorResponse _) => true
  | O_Close, (B_CloseComplete | B_ErrorResponse _) => true
  | O_CopyDone, (B_CopyDone | B_CommandComplete _ | B_ErrorResponse _) => true
  | O_CopyFail, B_ErrorResponse _ => true
  | (O_Flush | O_CopyData | O_Terminate), _ => true
  | _, _ => false
  end.

Definition is_extended_kind (k : OperationKind) : bool :=
  match k with O_Query | O_FunctionCall | O_Terminate => false | _ => true end.

Definition response_copy_state (s : string) : option RequestState :=
  if decide (s ∈ ["SimpleCopyIn"; "ExtendedCopyIn"]) then Some RS_CopyIn
  else if decide (s ∈ ["SimpleCopyOut"; "ExtendedCopyOut"]) then Some RS_CopyOut
  else if decide (s ∈ ["SimpleCopyBoth"; "SimpleCopyBothClientDone"; "SimpleCopyBothServerDone";
                       "ExtendedCopyBoth"; "ExtendedCopyBothClientDone"; "ExtendedCopyBothServerDone"])
  then Some RS_CopyBoth
  else None.

(** ** Ledger helpers *)

Definition discard (o : Operation) : Operation :=
  mkOperation (op_id o) (kind o) (origin o) true (response_state o).
Definition with_response_state (s : string) (o : Operation) : Operation :=
  mkOperation (op_id o) (kind o) (origin o) (discarded o) s.

(** [iter_mut().rev().find(p)] followed by an update of what it found. *)
Fixpoint update_last (p : Operation -> bool) (f : Operation -> Operation) (l : list Operation)
    : option (list Operation) :=
  match l with
  | [] => None
  | o :: l =>
      match update_last p f l with
      | Some l' => Some (o :: l')
      | None => if p o then Some (f o :: l) else None
      end
  end.

(** The loop that marks operations discarded up to the first [Sync]; the flag is
    [sync_accepted]. *)
Fixpoint discard_to_sync (l : list Operation) : list Operation * bool :=
  match l with
  | [] => ([], false)
  | o :: l' =>
      if decide (kind o = O_Sync) then (l, true)
      else let (l'', sync_accepted) := discard_to_sync l' in (discard o :: l'', sync_accepted)
  end.

Definition inert (o : Operation) : bool :=
  match kind o with
  | O_Flush | O_CopyData | O_CopyDone | O_CopyFail | O_Terminate => true
  | _ => discarded o
  end.

Fixpoint drop_inert (l : list Operation) : list Operation :=
  match l with
  | [] => []
  | o :: l' => if inert o then drop_inert l' else l
  end.

(** A frontend message that belongs to the response head's nested session moves
    the head. *)
Definition advance_head (m : FrontendMessage) (l : list Operation) : list Operation :=
  match l with
  | [] => []
  | head :: tl =>
      match project_external backend (response_state head) m with
      | Some event =>
          match transition backend (response_state head) event with
          | Some t => with_response_state (r_target t) head :: tl
          | None => l
          end
      | None => l
      end
  end.

(** ** Operations of the pipeline *)

Section Operations.
Context {P : Type} `{PipelinePolicy P}.
Implicit Type p : Pipeline P.

Definition Pipeline_new (policy : P) : Pipeline P := mkPipeline policy [] RS_Ready None 0.

Definition set_operations (ops : list Operation) p : Pipeline P :=
  mkPipeline (policy p) ops (request_state p) (resp_state p) (next_id p).
Definition set_request_state (s : RequestState) p : Pipeline P :=
  mkPipeline (policy p) (operations p) s (resp_state p) (next_id p).
Definition set_resp_state (s : option PipelineState) p : Pipeline P :=
  mkPipeline (policy p) (operations p) (request_state p) s (next_id p).

Definition state p : PipelineState := default (public (request_state p)) (resp_state p).
Definition pipeline_len p : Z := len (operations p).
Definition pipeline_is_empty p : bool := match operations p with [] => true | _ => false end.
Definition next_operation_id p : OperationId := next_id p.

Definition remove_inert_heads p : Pipeline P := set_operations (drop_inert (operations p)) p.

Definition in_copy (s : RequestState) : bool :=
  match s with RS_CopyIn | RS_CopyBoth => true | _ => false end.

Definition prepare_frontend (m : FrontendMessage) p : result PreparedFrontend FrontendProjectionError :=
  if (len (operations p) =? operation_limit (policy p)) && negb (in_copy (request_state p))
  then Err (Capacity m)
  else
    match project_frontend (request_state p) m with
    | Err _ => Err (Illegal (state p) m)
    | Panic => Panic
    | Ok _ =>
        let? phase := frontend_phase (request_state p) (kind <$> head (operations p)) in
        Ok (mkPrepared phase (request_state p))
    end.

Definition discard_copy_sync (s : RequestState) (k : OperationKind) (l : list Operation) : list Operation :=
  match s, k with
  | RS_CopyIn, (O_CopyDone | O_CopyFail) =>
      default l (update_last (fun o => bool_decide (kind o = O_Sync) && negb (discarded o)) discard l)
  | _, _ => l
  end.

Definition commit_frontend (prepared : PreparedFrontend) (m : FrontendMessage) (handling : FrontendHandling) p
    : result (FrontendAdmission * Pipeline P) FrontendProjectionError :=
  match classify_frontend (pf_request_state prepared) m with
  | Err _ | Panic => Panic (* expect *)
  | Ok (k, next_state) =>
      let ops := discard_copy_sync (pf_request_state prepared) k (operations p) in
      let waiting := match ops with [] => false | _ => true end in
      let id := next_id p in
      let origin := match handling with Forward => Forwarded | Local => OriginLocal end in
      let ops := advance_head m ops in
      let discarded := bool_decide (next_state = RS_ExtendedError) && negb (bool_decide (k = O_Sync)) in
      let ops := ops ++ [mkOperation id k origin discarded (initial_response_state k)] in
      let action :=
        match handling, discarded with
        | Forward, false => Action_Forward id m
        | _, _ => Action_Discard id
        end in
      let admission := if waiting then Waiting action else Immediate action in
      Ok (admission,
          remove_inert_heads
            (mkPipeline (policy p) ops next_state (resp_state p) (saturating_add U64_MAX (next_id p) 1)))
  end.

Definition accept_frontend (m : FrontendMessage) (handling : FrontendHandling) p
    : result FrontendAdmission FrontendProjectionError * Pipeline P :=
  match prepare_frontend m p with
  | Err e => (Err e, p)
  | Panic => (Panic, p)
  | Ok prepared =>
      match commit_frontend prepared m handling p with
      | Ok (admission, p') => (Ok admission, p')
      | Err e => (Err e, p)
      | Panic => (Panic, p)
      end
  end.

Definition frontend_transition_id (m : FrontendMessage) p : option string :=
  let s := generated_request_state (request_state p) in
  match project_external backend s m with
  | None => None
  | Some event => id <$> transition backend s event
  end.

Record FrontendSequenceItem : Type := mkItem { item_transition : option string; admission : FrontendAdmission }.

Fixpoint project_sequence (messages : list FrontendMessage) (handling : FrontendHandling) p
    : result (Pipeline P * list FrontendSequenceItem) FrontendProjectionError :=
  match messages with
  | [] => Ok (p, [])
  | m :: messages =>
      if negb (is_ok (FrontendMessage_to_frame m)) then Err (Illegal (state p) m)
      else
        let transition := frontend_transition_id m p in
        match accept_frontend m handling p with
        | (Ok admission, p) =>
            let? (p, items) := project_sequence messages handling p in
            Ok (p, mkItem transition admission :: items)
        | (Err e, _) => Err e
        | (Panic, _) => Panic
        end
  end.

Definition prepare_frontend_sequence (messages : list FrontendMessage) (handling : FrontendHandling) p
    : result (Pipeline P * list FrontendSequenceItem) FrontendProjectionError :=
  project_sequence messages handling p.

Definition commit_frontend_sequence (prepared : Pipeline P * list FrontendSequenceItem) p
    : list FrontendSequenceItem * Pipeline P :=
  (prepared.2, prepared.1).

(** *** Typed interception of frontend messages

    [handler] is the phase-typed middleware; its message type is the set of
    messages the grammar projects in the phase. *)

Definition phase_state (ph : FrontendPhase) : string :=
  match ph with
  | FP_Ready => "Ready"
  | FP_Building => "Building"
  | FP_ExtendedError => "ExtendedError"
  | FP_SimpleCopyIn => "SimpleCopyIn"
  | FP_ExtendedCopyIn => "ExtendedCopyIn"
  | FP_SimpleCopyBoth => "SimpleCopyBoth"
  | FP_ExtendedCopyBoth => "ExtendedCopyBoth"
  end.

Definition phase_message (ph : FrontendPhase) (m : FrontendMessage) : bool :=
  is_some (project_external backend (phase_state ph) m).

Definition intercept_frontend {E} (handler : FrontendPhase -> FrontendMessage -> result FrontendMessage E)
    (ph : FrontendPhase) (m : FrontendMessage) : result FrontendMessage E :=
  if phase_message ph m then handler ph m else Panic.

Definition accept_frontend_typed {E} (handler : FrontendPhase -> FrontendMessage -> result FrontendMessage E)
    (m : FrontendMessage) (handling : FrontendHandling) p
    : result FrontendAdmission (E + FrontendProjectionError) * Pipeline P :=
  match prepare_frontend m p with
  | Err e => (Err (inr e), p)
  | Panic => (Panic, p)
  | Ok prepared =>
      match intercept_frontend handler (pf_phase prepared) m with
      | Err e => (Err (inl e), p)
      | Panic => (Panic, p)
      | Ok m' =>
          if negb (is_ok (FrontendMessage_to_frame m')) then (Err (inr (Illegal (state p) m')), p)
          else
            match commit_frontend prepared m' handling p with
            | Ok (admission, p') => (Ok admission, p')
            | Err e => (Err (inr e), p)
            | Panic => (Panic, p)
            end
      end
  end.

(** *** Responses *)

Definition prepare_response (local_id : option OperationId) (m : BackendMessage) p : PreparedResponse :=
  if is_asynchronous m then PR_Asynchronous
  else
    match operations p with
    | [] => PR_Illegal
    | head :: rest =>
        let at_head :=
          if discarded head || negb (response_fits head m) then
            if existsb (fun o => response_fits o m) rest then PR_Deferred else PR_Illegal
          else PR_Emit head (response_state head) in
        match local_id with
        | Some id =>
            if negb (op_id head =? id) then PR_Deferred
            else if bool_decide (origin head <> OriginLocal) then PR_Illegal
            else at_head
        | None =>
            if bool_decide (origin head = OriginLocal) then
              if existsb (fun o => bool_decide (origin o = Forwarded) && response_fits o m) rest
              then PR_Deferred else PR_Illegal
            else at_head
        end
    end.

(** [iter().position(|o| o.id == id)] *)
Fixpoint position (id : OperationId) (l : list Operation) : option nat :=
  match l with
  | [] => None
  | o :: l => if op_id o =? id then Some O else S <$> position id l
  end.

Definition project_deferred_local_error (id : OperationId) p : Pipeline P :=
  match position id (operations p) with
  | None => p
  | Some rejected =>
      match operations p !! rejected with
      | None => p
      | Some o =>
          if bool_decide (origin o <> OriginLocal) || negb (is_extended_kind (kind o)) then p
          else
            let (rest, sync_accepted) := discard_to_sync (drop (S rejected) (operations p)) in
            let p' := set_operations (take (S rejected) (operations p) ++ rest) p in
            if sync_accepted then p' else set_request_state RS_ExtendedError p'
      end
  end.

Definition enter_extended_error p : Pipeline P :=
  let p := set_resp_state None p in
  let (ops, sync_accepted) := discard_to_sync (operations p) in
  let p := set_operations ops p in
  if sync_accepted then p else set_request_state RS_ExtendedError p.

Definition is_error (m : BackendMessage) : bool :=
  match m with B_ErrorResponse _ => true | _ => false end.

Definition commit_response (prepared : PreparedResponse) (m : BackendMessage) p
    : result BackendAction BackendProjectionError * Pipeline P :=
  match prepared with
  | PR_Asynchronous => (Ok (Emit m), p)
  | PR_Deferred => (Ok (Deferred m), p)
  | PR_Illegal => (Err (mkBackendProjectionError (state p) m), p)
  | PR_Emit head response_state =>
      match project_internal backend response_state m with
      | None => (Panic, p)
      | Some event =>
          match transition backend response_state event with
          | None => (Panic, p)
          | Some t =>
              let next_response_state := r_target t in
              let terminal := response_is_terminal (kind head) m in
              let copy_state := response_copy_state next_response_state in
              let p :=
                if terminal then
                  let p := set_operations (tail (operations p)) p in
                  if is_error m && is_extended_kind (kind head) then enter_extended_error p else p
                else
                  match operations p with
                  | [] => p
                  | h :: tl => set_operations (with_response_state next_response_state h :: tl) p
                  end in
              let p := if terminal then p else set_resp_state (public <$> copy_state) p in
              let p :=
                match copy_state with
                | Some s => if in_copy s then set_request_state s p else p
                | None => p
                end in
              let p := if terminal then set_resp_state None p else p in
              (Ok (Emit m), remove_inert_heads p)
          end
      end
  end.

Definition accept_response (local_id : option OperationId) (m : BackendMessage) p
    : result BackendAction BackendProjectionError * Pipeline P :=
  let prepared := prepare_response local_id m p in
  let p :=
    match prepared, local_id with
    | PR_Deferred, Some id => if is_error m then project_deferred_local_error id p else p
    | _, _ => p
    end in
  commit_response prepared m p.

Definition accept_backend (m : BackendMessage) p := accept_response None m p.
Definition try_emit_local (id : OperationId) (m : BackendMessage) p := accept_response (Some id) m p.

Definition backend_transition_id (m : BackendMessage) p : option string :=
  match prepare_response None m p with
  | PR_Emit _ s =>
      match project_internal backend s m with
      | None => None
      | Some event => id <$> transition backend s event
      end
  | _ => None
  end.

Definition backend_operation_id (m : BackendMessage) p : option OperationId :=
  if is_asynchronous m then None
  else
    op_id <$> List.find (fun o =>
      bool_decide (origin o = Forwarded) && negb (discarded o) && response_fits o m) (operations p).

Fixpoint backend_operation_ids (messages : list BackendMessage) p : list (option OperationId) :=
  match messages with
  | [] => []
  | m :: messages =>
      backend_operation_id m p :: backend_operation_ids messages (accept_backend m p).2
  end.

(** Project a backend span, reporting the first message that is not emitted. *)
Fixpoint project_span (checked : bool) (messages : list BackendMessage) p
    : result (Pipeline P) BackendMessage :=
  match messages with
  | [] => Ok p
  | m :: messages =>
      if checked && negb (is_ok (BackendMessage_to_frame m)) then Err m
      else
        match accept_backend m p with
        | (Ok (Emit _), p) => project_span checked messages p
        | (Ok (Deferred m), _) => Err m
        | (Err e, _) => Err (bpe_message e)
        | (Panic, _) => Panic
        end
  end.

Definition prepare_backend_replacements (sources replacements : list BackendMessage) p
    : result (Pipeline P) BackendSequenceError :=
  if negb (len sources =? len replacements) then Err (Cardinality (len sources) (len replacements))
  else
    let? source_projection := map_err Source (project_span false sources p) in
    let? replacement_projection := map_err Replacement (project_span true replacements p) in
    if bool_decide (operations source_projection <> operations replacement_projection) ||
       bool_decide (request_state source_projection <> request_state replacement_projection) ||
       bool_decide (resp_state source_projection <> resp_state replacement_projection)
    then Err DifferentSpan
    else Ok replacement_projection.
End Operations.
