(* ===== verification/PipelineTables.v ===== *)
(** What the transition tables of [Grammar.backend] give the response ledger:
    which states an operation passes through, and how COPY modes are entered. *)

From Stdlib Require Import ZArith Lia String Sorting.Sorted.
From Stdlib Require Import Init.Byte.
From stdpp Require Import prelude strings.
From S2P Require Import Prelude Frame Frontend Backend Demux Fsm Grammar Pipeline.
Local Open Scope string_scope.
Local Open Scope list_scope.
Local Open Scope Z_scope.

(** ** Which response states an operation passes through *)

Definition owned_states (k : OperationKind) : list string :=
  match k with
  | O_Query =>
      ["Simple"; "SimpleError"; "SimpleCopyIn"; "SimpleCopyInDone"; "SimpleCopyInFailed";
       "SimpleCopyOut"; "SimpleCopyOutDone"; "SimpleCopyReady"; "SimpleCopyBoth";
       "SimpleCopyBothClientDone"; "SimpleCopyBothServerDone"; "SimpleCopyBothDone";
       "SimpleCopyBothFailed"]
  | O_Execute =>
      ["ExecuteResponse"; "ExtendedCopyIn"; "ExtendedCopyInDone"; "ExtendedCopyInFailed";
       "ExtendedCopyOut"; "ExtendedCopyOutDone"; "ExtendedCopyBoth"; "ExtendedCopyBothClientDone";
       "ExtendedCopyBothServerDone"; "ExtendedCopyBothDone"; "ExtendedCopyBothFailed"]
  | O_FunctionCall => ["FunctionResponse"; "FunctionReady"]
  | k => [initial_response_state k]
  end.

Definition owns (o : Operation) : Prop := response_state o ∈ owned_states (kind o).

(** The states of a nested COPY in which the client may send. *)
Definition copy_in_states : list string := ["SimpleCopyIn"; "ExtendedCopyIn"].
Definition copy_both_states : list string :=
  ["SimpleCopyBoth"; "SimpleCopyBothClientDone"; "SimpleCopyBothServerDone"; "SimpleCopyBothDone";
   "SimpleCopyBothFailed"; "ExtendedCopyBoth"; "ExtendedCopyBothClientDone";
   "ExtendedCopyBothServerDone"; "ExtendedCopyBothDone"; "ExtendedCopyBothFailed"].

Definition is_copy_in (m : BackendMessage) : bool := match m with B_CopyInResponse _ => true | _ => false end.
Definition is_copy_both (m : BackendMessage) : bool := match m with B_CopyBothResponse _ => true | _ => false end.

Lemma initial_owned k : initial_response_state k ∈ owned_states k.
Proof. destruct k; left. Qed.

(** *** Checks over the grammar's tables *)

Definition target_of (s e : string) : string :=
  match transition backend s e with Some t => r_target t | None => s end.

Definition mem_of (s : string) (l : list string) : bool := bool_decide (s ∈ l).

Definition all_kinds : list OperationKind :=
  [O_Query; O_FunctionCall; O_Parse; O_Bind; O_Describe; O_Execute; O_Close; O_Flush; O_Sync;
   O_CopyData; O_CopyDone; O_CopyFail; O_Terminate].

Lemma all_kinds_in k : List.In k all_kinds.
Proof. destruct k; simpl; tauto. Qed.

(** A response that does not end an operation keeps its state owned. *)
Lemma internal_owned :
  arms_imply (internal_arms backend) (fun _ _ _ => true)
    (fun s m => forallb (fun k => implb (mem_of s (owned_states k))
       (response_is_terminal k m || match project_internal backend s m with
                                    | Some e => mem_of (target_of s e) (owned_states k)
                                    | None => true end)) all_kinds).
Proof. check_arms. Qed.

(** A client message inside a nested session keeps the state owned. *)
Lemma external_owned :
  arms_imply (external_arms backend) (fun _ _ _ => true)
    (fun s m => forallb (fun k => implb (mem_of s (owned_states k))
       (match project_external backend s m with
        | Some e => mem_of (target_of s e) (owned_states k)
        | None => true end)) all_kinds).
Proof. check_arms. Qed.

(** COPY IN and COPY BOTH are entered only by their responses, and left only by
    the client (IN) or within the mode (BOTH). *)
Lemma internal_copy :
  arms_imply (internal_arms backend) (fun _ _ _ => true)
    (fun s m => match project_internal backend s m with
                | Some e =>
                    (negb (mem_of s copy_in_states)) &&
                    implb (mem_of (target_of s e) copy_in_states) (is_copy_in m) &&
                    implb (mem_of (target_of s e) copy_both_states) (mem_of s copy_both_states || is_copy_both m)
                | None => true end).
Proof. check_arms. Qed.

Lemma external_copy :
  arms_imply (external_arms backend) (fun _ _ _ => true)
    (fun s m => match project_external backend s m with
                | Some e =>
                    implb (mem_of (target_of s e) copy_in_states)
                      (mem_of s copy_in_states && bool_decide (target_of s e = s)) &&
                    implb (mem_of (target_of s e) copy_both_states) (mem_of s copy_both_states)
                | None => true end).
Proof. check_arms. Qed.

(** *** The same facts as implications *)

Lemma project_internal_target s m e : project_internal backend s m = Some e ->
  exists t, transition backend s e = Some t /\ r_target t = target_of s e.
Proof.
  intros Hp. apply project_internal_listed in Hp as (r & Hr & <- & <- & _).
  destruct (transition_exists backend r Hr) as [t Ht]. exists t. unfold target_of. now rewrite Ht.
Qed.

Lemma mem_of_true s l : mem_of s l = true <-> s ∈ l.
Proof. apply bool_decide_eq_true. Qed.

Lemma internal_owned_target k s m e : project_internal backend s m = Some e ->
  s ∈ owned_states k -> response_is_terminal k m = false -> target_of s e ∈ owned_states k.
Proof.
  intros Hp Hs Ht. pose proof (arms_imply_elim _ _ _ _ _ _ internal_owned Hp eq_refl) as H.
  rewrite forallb_forall in H. specialize (H k (all_kinds_in k)). rewrite Hp, Ht in H.
  apply mem_of_true in Hs. rewrite Hs in H. now apply mem_of_true.
Qed.

Lemma external_owned_target k s m e : project_external backend s m = Some e ->
  s ∈ owned_states k -> target_of s e ∈ owned_states k.
Proof.
  intros Hp Hs. pose proof (arms_imply_elim _ _ _ _ _ _ external_owned Hp eq_refl) as H.
  rewrite forallb_forall in H. specialize (H k (all_kinds_in k)). rewrite Hp in H.
  apply mem_of_true in Hs. rewrite Hs in H. now apply mem_of_true.
Qed.

Lemma internal_copy_target s m e : project_internal backend s m = Some e ->
  s ∉ copy_in_states /\
  (target_of s e ∈ copy_in_states -> is_copy_in m = true) /\
  (target_of s e ∈ copy_both_states -> s ∈ copy_both_states \/ is_copy_both m = true).
Proof.
  intros Hp. pose proof (arms_imply_elim _ _ _ _ _ _ internal_copy Hp eq_refl) as H. cbv beta in H. rewrite Hp in H.
  apply andb_true_iff in H as [[H1 H2]%andb_true_iff H3]. rewrite <- !mem_of_true.
  split; [intros E; rewrite E in H1; done|]. split; intros E; rewrite E in *; simpl in *; [done|].
  now apply orb_true_iff in H3.
Qed.

Lemma external_copy_target s m e : project_external backend s m = Some e ->
  (target_of s e ∈ copy_in_states -> s ∈ copy_in_states /\ target_of s e = s) /\
  (target_of s e ∈ copy_both_states -> s ∈ copy_both_states).
Proof.
  intros Hp. pose proof (arms_imply_elim _ _ _ _ _ _ external_copy Hp eq_refl) as H. cbv beta in H. rewrite Hp in H.
  apply andb_true_iff in H as [H1 H2]. rewrite <- !mem_of_true. split; intros E; rewrite E in *; simpl in *; [|done].
  apply andb_true_iff in H1 as [H1 H1']. apply bool_decide_eq_true in H1'. done.
Qed.

(** The COPY modes the ledger reads off a response state. *)
Lemma response_copy_state_in s :
  response_copy_state s = Some RS_CopyIn <-> s ∈ copy_in_states.
Proof.
  unfold response_copy_state. fold copy_in_states. split.
  - intros H. repeat case_decide; simplify_eq; done.
  - intros H. now rewrite decide_True.
Qed.

Lemma response_copy_state_both s : response_copy_state s = Some RS_CopyBoth -> s ∈ copy_both_states.
Proof.
  unfold response_copy_state, copy_both_states. intros H. repeat case_decide; simplify_eq.
  match goal with H : s ∈ _ |- _ => revert H end.
  rewrite !elem_of_cons, !elem_of_nil. tauto.
Qed.

Lemma copy_in_owner k s : s ∈ owned_states k -> s ∈ copy_in_states -> k = O_Query \/ k = O_Execute.
Proof.
  intros Ho Hc.
  assert (forallb (fun s => forallb (fun k => implb (mem_of s (owned_states k))
    (bool_decide (k = O_Query) || bool_decide (k = O_Execute))) all_kinds) copy_in_states = true) as H
    by (vm_compute; reflexivity).
  rewrite forallb_forall in H. apply list_elem_of_In in Hc. specialize (H s Hc).
  rewrite forallb_forall in H. specialize (H k (all_kinds_in k)). apply mem_of_true in Ho. rewrite Ho in H.
  simpl in H. apply orb_true_iff in H as [H|H]; apply bool_decide_eq_true in H; auto.
Qed.

(** An error never opens a COPY mode. *)
Lemma internal_error :
  arms_imply (internal_arms backend) (fun _ _ m => match m with B_ErrorResponse _ => true | _ => false end)
    (fun s m => match project_internal backend s m with
                | Some e => bool_decide (response_copy_state (target_of s e) = None)
                | None => true end).
Proof. check_arms. Qed.

Lemma internal_error_target s d e : project_internal backend s (B_ErrorResponse d) = Some e ->
  response_copy_state (target_of s e) = None.
Proof.
  intros Hp. pose proof (arms_imply_elim _ _ _ _ _ _ internal_error Hp eq_refl) as H. cbv beta in H.
  rewrite Hp in H. now apply bool_decide_eq_true in H.
Qed.
