(* ===== verification/PipelineProofs.v ===== *)
(** Invariants of the response ledger of [Pipeline] over arbitrary histories. *)

From Stdlib Require Import ZArith Lia String Sorting.Sorted.
From Stdlib Require Import Init.Byte.
From stdpp Require Import prelude strings.
From S2P Require Import Prelude Frame Frontend Backend Demux Fsm Grammar Pipeline PipelineTables.
Local Open Scope string_scope.
Local Open Scope list_scope.
Local Open Scope Z_scope.

(** ** How the ledger changes *)

Definition ids_of (l : list Operation) : list OperationId := map op_id l.

Lemma ids_update_last q l : forall l', update_last q discard l = Some l' -> ids_of l' = ids_of l.
Proof.
  induction l as [|o l IH]; intros l' H; simpl in H; [done|].
  destruct (update_last q discard l) as [l1|]; [simplify_eq; simpl; f_equal; now apply IH|].
  destruct (q o); now simplify_eq.
Qed.

Lemma ids_discard_copy_sync s k l : ids_of (discard_copy_sync s k l) = ids_of l.
Proof.
  unfold discard_copy_sync. destruct s; try done; destruct k; try done;
    (destruct (update_last _ discard l) eqn:E; [now apply ids_update_last in E|done]).
Qed.

Lemma ids_advance_head m l : ids_of (advance_head m l) = ids_of l.
Proof.
  destruct l as [|o l]; simpl; [done|]. destruct (project_external _ _ _); [|done].
  now destruct (transition _ _ _).
Qed.

Lemma ids_discard_to_sync l : ids_of (discard_to_sync l).1 = ids_of l.
Proof.
  induction l as [|o l IH]; simpl; [done|]. case_decide; [done|].
  destruct (discard_to_sync l) as [l' b]. simpl in *. now rewrite IH.
Qed.

Lemma drop_inert_suffix l : drop_inert l `suffix_of` l.
Proof.
  induction l as [|o l IH]; simpl; [done|]. destruct (inert o); [|done].
  now apply suffix_cons_r.
Qed.

Lemma suffix_ids l l' : l `suffix_of` l' -> ids_of l `suffix_of` ids_of l'.
Proof. intros [k ->]. exists (ids_of k). unfold ids_of. apply map_app. Qed.

Lemma drop_inert_ids l : ids_of (drop_inert l) `suffix_of` ids_of l.
Proof. apply suffix_ids, drop_inert_suffix. Qed.

Section Ledger.
Context {P : Type} `{PipelinePolicy P}.
Implicit Type p : Pipeline P.

Definition ids p : list OperationId := ids_of (operations p).

(** Everything [accept_frontend] does to the ledger when it succeeds. *)
Lemma accept_frontend_ok m h p a p' : accept_frontend m h p = (Ok a, p') ->
  exists k next,
    project_frontend (request_state p) m = Ok (k, next) /\
    (len (operations p) = operation_limit (policy p) -> in_copy (request_state p) = true) /\
    p' = remove_inert_heads (mkPipeline (policy p)
      (advance_head m (discard_copy_sync (request_state p) k (operations p)) ++
       [mkOperation (next_id p) k (match h with Forward => Forwarded | Local => OriginLocal end)
          (bool_decide (next = RS_ExtendedError) && negb (bool_decide (k = O_Sync))) (initial_response_state k)])
      next (resp_state p) (saturating_add U64_MAX (next_id p) 1)).
Proof.
  unfold accept_frontend, prepare_frontend.
  destruct ((len (operations p) =? operation_limit (policy p)) && negb (in_copy (request_state p))) eqn:Ec; [done|].
  destruct (project_frontend (request_state p) m) as [[k next]| |] eqn:Ep; [|done..].
  destruct (frontend_phase _ _) as [ph| |]; [|done..]. simpl.
  assert (classify_frontend (request_state p) m = Ok (k, next)) as Hc.
  { unfold project_frontend in Ep. now destruct (project_external _ _ _). }
  unfold commit_frontend. simpl. rewrite Hc. intros E. simplify_eq. exists k, next.
  split; [done|]. split; [|done]. intros Hl. rewrite Hl, Z.eqb_refl in Ec. simpl in Ec.
  now destruct (in_copy (request_state p)).
Qed.

Lemma accept_frontend_fail m h p r p' :
  accept_frontend m h p = (r, p') -> (forall a, r <> Ok a) -> p' = p.
Proof.
  unfold accept_frontend. destruct (prepare_frontend m p); [|congruence..].
  destruct (commit_frontend _ _ _ _) as [[]| |]; intros ? Hr; simplify_eq; try done.
  now specialize (Hr f).
Qed.

Lemma accept_frontend_ids m h p a p' : accept_frontend m h p = (Ok a, p') ->
  ids p' `suffix_of` (ids p ++ [next_id p]) /\
  next_id p' = saturating_add U64_MAX (next_id p) 1 /\ policy p' = policy p.
Proof.
  intros (k & next & _ & _ & ->)%accept_frontend_ok. unfold ids. simpl. split; [|done].
  etrans; [apply drop_inert_ids|]. unfold ids_of. rewrite map_app. simpl.
  now rewrite (ids_advance_head m), (ids_discard_copy_sync (request_state p) k).
Qed.

Lemma project_deferred_ids id p :
  ids (project_deferred_local_error id p) = ids p /\
  next_id (project_deferred_local_error id p) = next_id p /\
  policy (project_deferred_local_error id p) = policy p.
Proof.
  unfold project_deferred_local_error. destruct (position id (operations p)) as [n|]; [|done].
  destruct (operations p !! n); [|done]. destruct (_ || _); [done|].
  pose proof (ids_discard_to_sync (drop (S n) (operations p))) as Hd.
  destruct (discard_to_sync _) as [rest b]. simpl in Hd.
  assert (ids_of (take (S n) (operations p) ++ rest) = ids p) as Hi.
  { unfold ids, ids_of in *. rewrite map_app, Hd, <- map_app. now rewrite take_drop. }
  destruct b; done.
Qed.

Lemma enter_extended_error_ids p :
  ids (enter_extended_error p) = ids p /\ next_id (enter_extended_error p) = next_id p /\
  policy (enter_extended_error p) = policy p.
Proof.
  unfold enter_extended_error. pose proof (ids_discard_to_sync (operations p)) as Hd. simpl.
  destruct (discard_to_sync (operations p)) as [ops b]. destruct b; done.
Qed.

(** [commit_response] and [accept_response] only drop a prefix of the ledger. *)
Lemma commit_response_ids prepared m p r p' : commit_response prepared m p = (r, p') ->
  ids p' `suffix_of` ids p /\ next_id p' = next_id p /\ policy p' = policy p.
Proof.
  destruct prepared as [|hd s| |]; simpl; [intros; now simplify_eq| |intros; now simplify_eq..].
  destruct (project_internal backend s m) as [e|]; [|intros; now simplify_eq].
  destruct (transition backend s e) as [t|]; [|intros; now simplify_eq].
  intros E. injection E as _ <-. unfold remove_inert_heads.
  match goal with |- context [set_operations (drop_inert (operations ?q)) ?q] => set (q' := q) end.
  assert (ids q' `suffix_of` ids p /\ next_id q' = next_id p /\ policy q' = policy p) as (H1 & H2 & H3).
  { subst q'. destruct (response_is_terminal (kind hd) m).
    - assert (ids (set_operations (tail (operations p)) p) `suffix_of` ids p) as Ht.
      { unfold ids. simpl. destruct (operations p) as [|o l]; [done|]. simpl. now apply suffix_cons_r. }
      pose proof (enter_extended_error_ids (set_operations (tail (operations p)) p)) as (He & Hn & Hp).
      destruct (is_error m && is_extended_kind (kind hd));
        destruct (response_copy_state (r_target t)) as [[]|]; unfold ids in *; simpl in *; rewrite ?He; done.
    - destruct (operations p) as [|o l] eqn:Eo;
        destruct (response_copy_state (r_target t)) as [[]|]; unfold ids; simpl; rewrite ?Eo; done. }
  split; [|done]. unfold ids in *. simpl. etrans; [apply drop_inert_ids|done].
Qed.

Lemma accept_response_ids local m p r p' : accept_response local m p = (r, p') ->
  ids p' `suffix_of` ids p /\ next_id p' = next_id p /\ policy p' = policy p.
Proof.
  unfold accept_response. intros (Hs & Hn & Hp)%commit_response_ids.
  assert (forall id, ids (project_deferred_local_error id p) = ids p /\
    next_id (project_deferred_local_error id p) = next_id p /\
    policy (project_deferred_local_error id p) = policy p) as Hd by (intros; apply project_deferred_ids).
  destruct (prepare_response local m p); try done. destruct local as [id|]; [|done].
  destruct (is_error m); [|done]. destruct (Hd id) as (E1 & E2 & E3). now rewrite E1, E2, E3 in *.
Qed.

(** ** Histories *)

Inductive pipeline_step : Type :=
| AcceptFrontend (m : FrontendMessage) (h : FrontendHandling)
| AcceptSequence (ms : list FrontendMessage) (h : FrontendHandling)
| AcceptBackend (m : BackendMessage)
| EmitLocal (id : OperationId) (m : BackendMessage).

(** The operation a response is emitted for, if it is one. *)
Definition emitted (local : option OperationId) (m : BackendMessage) p : list OperationId :=
  match prepare_response local m p with PR_Emit hd _ => [op_id hd] | _ => [] end.

(** The operations responded to in one step, [None] when the step panics. *)
Definition step_pipeline (s : pipeline_step) p : option (list OperationId) * Pipeline P :=
  match s with
  | AcceptFrontend m h =>
      let (r, p') := accept_frontend m h p in
      (match r with Panic => None | _ => Some [] end, p')
  | AcceptSequence ms h =>
      match prepare_frontend_sequence ms h p with
      | Ok prepared => (Some [], (commit_frontend_sequence prepared p).2)
      | Err _ => (Some [], p)
      | Panic => (None, p)
      end
  | AcceptBackend m =>
      let (r, p') := accept_backend m p in
      (match r with Panic => None | _ => Some (emitted None m p) end, p')
  | EmitLocal id m =>
      let (r, p') := try_emit_local id m p in
      (match r with Panic => None | _ => Some (emitted (Some id) m p) end, p')
  end.

(** Run a history; [None] when a step panics. *)
Fixpoint run_pipeline (h : list pipeline_step) p : option (list OperationId) * Pipeline P :=
  match h with
  | [] => (Some [], p)
  | s :: h =>
      match step_pipeline s p with
      | (None, p) => (None, p)
      | (Some out, p) =>
          let (outs, p) := run_pipeline h p in
          (app out <$> outs, p)
      end
  end.

(** A property of pipelines that single frontend acceptances preserve is
    preserved by sequences of them. *)
Lemma sequence_preserves (Inv : Pipeline P -> Prop) ms h : forall p p' items,
  (forall m q a q', m ∈ ms -> Inv q -> accept_frontend m h q = (Ok a, q') -> Inv q') ->
  Inv p -> project_sequence ms h p = Ok (p', items) -> Inv p'.
Proof.
  induction ms as [|m ms IH]; intros p p' items Hstep Hi Hp; simpl in Hp; [now inv_ok|].
  destruct (negb _); [done|]. destruct (accept_frontend m h p) as [[a|e|] q] eqn:Ea; [|done..].
  destruct (project_sequence ms h q) as [[q' its]| |] eqn:Es; [|done..]. apply Ok_inj in Hp. simplify_eq.
  eapply IH; [|eapply Hstep; [left|exact Hi|exact Ea]|exact Es].
  intros; eapply Hstep; [right; eassumption|eassumption..].
Qed.

(** ** Order *)

(** Outstanding identities increase, are fresh below [next_id], and none is
    below [lo]. *)
Definition ordered (lo : Z) p : Prop :=
  StronglySorted Z.lt (ids p) /\ Forall (fun i => lo <= i < next_id p) (ids p) /\ lo <= next_id p.

Lemma sorted_suffix l l' : l `suffix_of` l' -> StronglySorted Z.lt l' -> StronglySorted Z.lt l.
Proof.
  intros [k ->]. induction k as [|x k IH]; simpl; [done|]. intros Hs. apply IH. now inversion Hs.
Qed.

Lemma Forall_suffix (Q : Z -> Prop) l l' : l `suffix_of` l' -> Forall Q l' -> Forall Q l.
Proof. intros [k ->]. now intros [_ ?]%Forall_app. Qed.

Lemma sorted_snoc l x : StronglySorted Z.lt l -> Forall (fun i => i < x) l -> StronglySorted Z.lt (l ++ [x]).
Proof.
  induction l as [|y l IH]; simpl; intros Hs Hf; [repeat constructor|].
  inversion Hs; inversion Hf; subst. constructor; [auto|]. apply Forall_app. auto.
Qed.

Lemma accept_frontend_ordered lo m h p a p' : ordered lo p -> next_id p' < U64_MAX ->
  accept_frontend m h p = (Ok a, p') -> ordered lo p' /\ next_id p' = next_id p + 1.
Proof.
  intros (Hs & Hf & Hl) Hn (Hsuf & Hid & _)%accept_frontend_ids. unfold saturating_add in Hid.
  assert (next_id p' = next_id p + 1) as Hid' by lia. split; [|done].
  assert (StronglySorted Z.lt (ids p ++ [next_id p])) as Hs'.
  { apply sorted_snoc; [done|]. eapply Forall_impl; [exact Hf|]. simpl. lia. }
  split; [exact (sorted_suffix _ _ Hsuf Hs')|]. split; [|lia]. eapply Forall_suffix; [exact Hsuf|].
  apply Forall_app. split; [|repeat constructor; lia]. eapply Forall_impl; [exact Hf|]. simpl. lia.
Qed.

Lemma accept_response_ordered lo local m p r p' : ordered lo p -> accept_response local m p = (r, p') ->
  Forall (fun i => lo <= i) (emitted local m p) /\ (length (emitted local m p) <= 1)%nat /\
  ordered (default lo (last (emitted local m p))) p' /\ next_id p' = next_id p.
Proof.
  intros (Hs & Hf & Hl) (Hsuf & Hn & _)%accept_response_ids.
  assert (emitted local m p = [] \/ exists hd tl, operations p = hd :: tl /\ emitted local m p = [op_id hd]) as [Ee|(hd & tl & Eo & Ee)].
  { unfold emitted, prepare_response. destruct (is_asynchronous m); [auto|].
    destruct (operations p) as [|hd tl]; [auto|]. repeat case_match; auto; simplify_eq; eauto. }
  - rewrite Ee. simpl. split; [done|]. split; [lia|]. split; [|done].
    split; [exact (sorted_suffix _ _ Hsuf Hs)|]. split; [|lia]. rewrite Hn. exact (Forall_suffix _ _ _ Hsuf Hf).
  - rewrite Ee. simpl. unfold ids in Hs, Hf, Hsuf. rewrite Eo in *. simpl in *.
    inversion Hf as [|? ? [Hlo Hhi] Hf']; subst. inversion Hs as [|? ? Hs' Hlt]; subst.
    split; [repeat constructor; lia|]. split; [lia|]. split; [|done].
    split; [exact (sorted_suffix _ _ Hsuf Hs)|]. split; [|lia]. rewrite Hn. eapply Forall_suffix; [exact Hsuf|]. constructor; [lia|].
    apply Forall_forall. intros x Hx. rewrite Forall_forall in Hlt, Hf'. specialize (Hlt _ Hx). specialize (Hf' _ Hx). lia.
Qed.

Lemma accept_frontend_next m h p r p' : accept_frontend m h p = (r, p') -> next_id p <= U64_MAX -> next_id p <= next_id p' <= U64_MAX.
Proof.
  intros Ha Hn. destruct r as [a| |].
  - apply accept_frontend_ids in Ha as (_ & Hid & _). unfold saturating_add in Hid. lia.
  - apply accept_frontend_fail in Ha as ->; [lia|done].
  - apply accept_frontend_fail in Ha as ->; [lia|done].
Qed.

Lemma sequence_next ms h p p' items : project_sequence ms h p = Ok (p', items) ->
  next_id p <= U64_MAX -> next_id p <= next_id p' <= U64_MAX.
Proof.
  intros Hp Hn. apply (sequence_preserves (fun q => next_id p <= next_id q <= U64_MAX) ms h p p' items); [|lia|done].
  intros m q a q' _ Hq Ha. apply accept_frontend_next in Ha; lia.
Qed.

Lemma sequence_ordered lo ms h : forall p p' items, ordered lo p -> next_id p <= U64_MAX -> next_id p' < U64_MAX ->
  project_sequence ms h p = Ok (p', items) ->
  ordered lo p' /\ next_id p' = next_id p + len ms.
Proof.
  induction ms as [|m ms IH]; intros p p' items Ho Hu Hn Hp; simpl in Hp.
  - apply Ok_inj in Hp. simplify_eq. unfold len. simpl. split; [done|lia].
  - destruct (negb _); [done|]. destruct (accept_frontend m h p) as [[a|e|] q] eqn:Ea; [|done..].
    destruct (project_sequence ms h q) as [[q' its]| |] eqn:Es; [|done..]. apply Ok_inj in Hp. simplify_eq.
    pose proof (accept_frontend_next _ _ _ _ _ Ea Hu). pose proof (sequence_next _ _ _ _ _ Es ltac:(lia)).
    apply (accept_frontend_ordered lo) in Ea as [Hq Hid]; [|done|lia].
    destruct (IH _ _ _ Hq ltac:(lia) Hn Es) as [? ?]. rewrite len_cons. split; [done|lia].
Qed.

Lemma step_next s p out p' : step_pipeline s p = (out, p') ->
  next_id p <= U64_MAX -> next_id p <= next_id p' <= U64_MAX.
Proof.
  intros Hs Hn. destruct s as [m h|ms h|m|id m]; simpl in Hs.
  - destruct (accept_frontend m h p) as [r q] eqn:Ea. apply accept_frontend_next in Ea; [|done].
    destruct r; simplify_eq; lia.
  - unfold prepare_frontend_sequence in Hs. destruct (project_sequence ms h p) as [[q its]| |] eqn:E; simplify_eq/=; try lia.
    apply sequence_next in E; lia.
  - destruct (accept_backend m p) as [r q] eqn:Ea. apply accept_response_ids in Ea as (_ & Hi & _).
    destruct r; simplify_eq; lia.
  - destruct (try_emit_local id m p) as [r q] eqn:Ea. apply accept_response_ids in Ea as (_ & Hi & _).
    destruct r; simplify_eq; lia.
Qed.

Lemma run_next h : forall p out p', run_pipeline h p = (out, p') ->
  next_id p <= U64_MAX -> next_id p <= next_id p' <= U64_MAX.
Proof.
  induction h as [|s h IH]; intros p out p' Hr Hn; simpl in Hr; [simplify_eq; lia|].
  destruct (step_pipeline s p) as [[o|] q] eqn:Es.
  - pose proof (step_next _ _ _ _ Es Hn). destruct (run_pipeline h q) as [os q'] eqn:Er. simplify_eq.
    apply IH in Er; lia.
  - simplify_eq. now apply step_next in Es.
Qed.

Lemma step_ordered lo s p out p' : ordered lo p -> next_id p <= U64_MAX -> next_id p' < U64_MAX ->
  step_pipeline s p = (Some out, p') ->
  Forall (fun i => lo <= i) out /\ (length out <= 1)%nat /\ ordered (default lo (last out)) p'.
Proof.
  intros Ho Hu Hn Hs. destruct s as [m h|ms h|m|id m]; simpl in Hs.
  - destruct (accept_frontend m h p) as [r q] eqn:Ea. destruct r as [a|e|]; simplify_eq; simpl.
    + apply (accept_frontend_ordered lo) in Ea as [Hq _]; [|done|done]. split; [done|]. split; [lia|done].
    + apply accept_frontend_fail in Ea as ->; [|done]. split; [done|]. split; [lia|done].
  - unfold prepare_frontend_sequence in Hs.
    destruct (project_sequence ms h p) as [[q its]| |] eqn:E; simplify_eq/=; (split; [done|]; split; [lia|]); [|done].
    now apply (sequence_ordered lo) in E as [Hq _].
  - destruct (accept_backend m p) as [r q] eqn:Ea. apply (accept_response_ordered lo) in Ea; [|done].
    destruct r; simplify_eq; tauto.
  - destruct (try_emit_local id m p) as [r q] eqn:Ea. apply (accept_response_ordered lo) in Ea; [|done].
    destruct r; simplify_eq; tauto.
Qed.

Lemma run_ordered h : forall lo p out p', ordered lo p -> next_id p <= U64_MAX -> next_id p' < U64_MAX ->
  run_pipeline h p = (Some out, p') ->
  Forall (fun i => lo <= i) out /\ StronglySorted Z.le out /\ exists lo', lo <= lo' /\ ordered lo' p'.
Proof.
  induction h as [|s h IH]; intros lo p out p' Ho Hu Hn Hr; simpl in Hr.
  - simplify_eq. split; [done|]. split; [constructor|]. exists lo. split; [lia|done].
  - destruct (step_pipeline s p) as [[o|] q] eqn:Es; [|done].
    destruct (run_pipeline h q) as [[os|] q'] eqn:Er; simpl in Hr; [|done]. simplify_eq.
    pose proof (step_next _ _ _ _ Es Hu). pose proof (run_next _ _ _ _ Er ltac:(lia)).
    apply (step_ordered lo) in Es as (Hf & Hlen & Hq); [|done|done|lia].
    apply (IH _ _ _ _ Hq ltac:(lia) Hn) in Er as (Hf' & Hs' & lo' & Hlo & Hex).
    destruct o as [|x [|y o]]; simpl in *; [eauto| |lia].
    inversion Hf as [|? ? Hx _]; subst. split; [|split; [now constructor|exists lo'; split; [lia|done]]].
    constructor; [done|]. eapply Forall_impl; [exact Hf'|]. simpl. lia.
Qed.

(** ** Response states stay with their operation *)

(** A predicate on an operation that ignores its identity and discard flag. *)
Definition ledger_all (Q : OperationKind -> string -> Prop) (l : list Operation) : Prop :=
  Forall (fun o => Q (kind o) (response_state o)) l.

Lemma ledger_update_last Q q l : forall l', update_last q discard l = Some l' ->
  ledger_all Q l -> ledger_all Q l'.
Proof.
  induction l as [|o l IH]; intros l' Hu Hl; simpl in Hu; [done|]. inversion Hl; subst.
  destruct (update_last q discard l) as [l1|]; [simplify_eq; constructor; [done|]; now apply IH|].
  destruct (q o); simplify_eq. now constructor.
Qed.

Lemma ledger_discard_copy_sync Q s k l : ledger_all Q l -> ledger_all Q (discard_copy_sync s k l).
Proof.
  intros Hl. unfold discard_copy_sync. destruct s; try done; destruct k; try done;
    (destruct (update_last _ discard l) eqn:E; [exact (ledger_update_last Q _ l _ E Hl)|done]).
Qed.

Lemma ledger_discard_to_sync Q l : ledger_all Q l -> ledger_all Q (discard_to_sync l).1.
Proof.
  induction 1 as [|o l Ho Hl IH]; simpl; [constructor|]. case_decide; [now constructor|].
  destruct (discard_to_sync l). now constructor.
Qed.

Lemma ledger_drop_inert Q l : ledger_all Q l -> ledger_all Q (drop_inert l).
Proof. intros Hl. destruct (drop_inert_suffix l) as [k E]. rewrite E in Hl. now apply Forall_app in Hl as [_ ?]. Qed.

Lemma ledger_advance_head Q m l :
  (forall k s e, project_external backend s m = Some e -> Q k s -> Q k (target_of s e)) ->
  ledger_all Q l -> ledger_all Q (advance_head m l).
Proof.
  intros Hq Hl. destruct Hl as [|o l Ho Hl]; simpl; [constructor|].
  destruct (project_external backend (response_state o) m) as [e|] eqn:E; [|now constructor].
  destruct (transition backend (response_state o) e) as [t|] eqn:Et; [|now constructor].
  constructor; [|done]. simpl. specialize (Hq _ _ _ E Ho). unfold target_of in Hq. now rewrite Et in Hq.
Qed.

(** What the emitted head looks like. *)
Lemma prepare_emit local m p hd s : prepare_response local m p = PR_Emit hd s ->
  exists tl e t, operations p = hd :: tl /\ s = response_state hd /\ discarded hd = false /\
    is_asynchronous m = false /\ project_internal backend s m = Some e /\
    transition backend s e = Some t /\ r_target t = target_of s e.
Proof.
  unfold prepare_response. destruct (is_asynchronous m) eqn:Ha; [done|].
  destruct (operations p) as [|o tl]; [done|].
  assert ((if discarded o || negb (response_fits o m)
           then if existsb (fun o => response_fits o m) tl then PR_Deferred else PR_Illegal
           else PR_Emit o (response_state o)) = PR_Emit hd s ->
    o = hd /\ s = response_state hd /\ discarded hd = false /\ response_fits hd m = true) as Hh.
  { destruct (discarded o) eqn:Ed; simpl; [repeat case_match; done|].
    destruct (response_fits o m) eqn:Ef; simpl; [|repeat case_match; done]. intros E. now simplify_eq. }
  intros E. assert (o = hd /\ s = response_state hd /\ discarded hd = false /\ response_fits hd m = true)
    as (-> & -> & Hd & Hf) by (repeat case_match; try done; now apply Hh).
  unfold response_fits in Hf. destruct (project_internal backend (response_state hd) m) as [e|] eqn:Ep; [|done].
  destruct (project_internal_target _ _ _ Ep) as (t & Ht & Htt). eauto 12.
Qed.

(** The ledger after an emission, before inert heads are removed. *)
Definition after_emit (m : BackendMessage) (hd : Operation) (tl : list Operation) (s' : string) : list Operation :=
  if response_is_terminal (kind hd) m
  then if is_error m && is_extended_kind (kind hd) then (discard_to_sync tl).1 else tl
  else with_response_state s' hd :: tl.

Lemma commit_emit local m p hd s : prepare_response local m p = PR_Emit hd s ->
  exists tl e p', operations p = hd :: tl /\ s = response_state hd /\ discarded hd = false /\
    project_internal backend s m = Some e /\
    accept_response local m p = (Ok (Emit m), p') /\
    operations p' = drop_inert (after_emit m hd tl (target_of s e)) /\
    request_state p' =
      match response_copy_state (target_of s e) with
      | Some RS_CopyIn => RS_CopyIn
      | Some RS_CopyBoth => RS_CopyBoth
      | _ =>
          if response_is_terminal (kind hd) m && is_error m && is_extended_kind (kind hd) &&
             negb (discard_to_sync tl).2
          then RS_ExtendedError else request_state p
      end /\
    resp_state p' = (if response_is_terminal (kind hd) m then None
                     else public <$> response_copy_state (target_of s e)).
Proof.
  intros Hp. pose proof Hp as Hp'. apply prepare_emit in Hp' as (tl & e & t & Eo & Es & Hd & Ha & Ep & Et & Htt).
  exists tl, e. unfold accept_response. rewrite Hp. unfold commit_response. rewrite Ep, Et, Htt, Eo.
  eexists. do 4 (split; [done|]). split; [reflexivity|].
  unfold after_emit, remove_inert_heads. destruct (response_is_terminal (kind hd) m); simpl.
  - unfold enter_extended_error. simpl. destruct (discard_to_sync tl) as [ops b].
    destruct (is_error m), (is_extended_kind (kind hd)), b; simpl;
      destruct (response_copy_state (target_of s e)) as [[]|]; done.
  - destruct (response_copy_state (target_of s e)) as [[]|]; done.
Qed.

(** Without an emission the ledger changes only by a deferred local error. *)
Lemma commit_other local m p : (forall hd s, prepare_response local m p <> PR_Emit hd s) ->
  exists r p', accept_response local m p = (r, p') /\ r <> Panic /\
    (p' = p \/ exists id, local = Some id /\ prepare_response local m p = PR_Deferred /\
                       is_error m = true /\ p' = project_deferred_local_error id p).
Proof.
  intros Hn. unfold accept_response. destruct (prepare_response local m p) as [|hd s| |] eqn:E; simpl.
  - do 2 eexists. split; [done|]. split; [done|]. now left.
  - now destruct (Hn hd s).
  - destruct local as [id|]; [|do 2 eexists; split; [done|]; split; [done|]; now left].
    destruct (is_error m); do 2 eexists; (split; [done|]; split; [done|]); [right; eauto|now left].
  - do 2 eexists. split; [done|]. split; [done|]. now left.
Qed.

Lemma accept_response_no_panic local m p : (accept_response local m p).1 <> Panic.
Proof.
  destruct (prepare_response local m p) as [|hd s| |] eqn:E.
  2:{ apply commit_emit in E as (tl & e & p' & _ & _ & _ & _ & -> & _). done. }
  all: destruct (commit_other local m p) as (r & p' & -> & Hr & _); [rewrite E; done|done].
Qed.

Lemma accept_frontend_ledger (Q : OperationKind -> string -> Prop) m h p a p' :
  (forall k s e, project_external backend s m = Some e -> Q k s -> Q k (target_of s e)) ->
  (forall k, Q k (initial_response_state k)) ->
  ledger_all Q (operations p) -> accept_frontend m h p = (Ok a, p') -> ledger_all Q (operations p').
Proof.
  intros Hx Hi Hl (k & next & _ & _ & ->)%accept_frontend_ok. simpl. apply ledger_drop_inert.
  apply Forall_app. split; [|repeat constructor; apply Hi].
  apply ledger_advance_head; [done|]. now apply ledger_discard_copy_sync.
Qed.

Lemma project_deferred_ledger Q id p :
  ledger_all Q (operations p) -> ledger_all Q (operations (project_deferred_local_error id p)).
Proof.
  intros Hl. unfold project_deferred_local_error. destruct (position id (operations p)) as [n|]; [|done].
  destruct (operations p !! n); [|done]. destruct (_ || _); [done|].
  rewrite <- (take_drop (S n) (operations p)) in Hl. apply Forall_app in Hl as [H1 H2].
  apply ledger_discard_to_sync in H2. destruct (discard_to_sync _) as [rest b]. simpl in H2.
  assert (ledger_all Q (take (S n) (operations p) ++ rest)) by (now apply Forall_app). now destruct b.
Qed.

Lemma accept_response_ledger (Q : OperationKind -> string -> Prop) local m p r p' :
  (forall k s e, project_internal backend s m = Some e -> Q k s -> response_is_terminal k m = false ->
     Q k (target_of s e)) ->
  ledger_all Q (operations p) -> accept_response local m p = (r, p') -> ledger_all Q (operations p').
Proof.
  intros Hq Hl Ha. destruct (prepare_response local m p) as [|hd s| |] eqn:E.
  2:{ apply commit_emit in E as (tl & e & q & Eo & Es & Hd & Ep & Hacc & Hops & _). rewrite Hacc in Ha. simplify_eq.
      rewrite Hops. apply ledger_drop_inert. rewrite Eo in Hl. inversion Hl as [|? ? Hh Ht]; subst.
      unfold after_emit. destruct (response_is_terminal (kind hd) m) eqn:Eterm.
      - destruct (_ && _); [now apply ledger_discard_to_sync|done].
      - constructor; [|done]. simpl. eauto. }
  all: destruct (commit_other local m p) as (r' & q & Hacc & _ & [->|(id & _ & _ & _ & ->)]);
    [rewrite E; done|rewrite Hacc in Ha; simplify_eq; done|
     rewrite Hacc in Ha; simplify_eq; now apply project_deferred_ledger].
Qed.

(** An invariant of single steps is an invariant of histories. *)
Definition frontend_of (s : pipeline_step) (m : FrontendMessage) : Prop :=
  match s with AcceptFrontend m' _ => m = m' | AcceptSequence ms _ => m ∈ ms | _ => False end.
Definition backend_of (s : pipeline_step) (m : BackendMessage) : Prop :=
  match s with AcceptBackend m' | EmitLocal _ m' => m = m' | _ => False end.

Lemma step_invariant (Inv : Pipeline P -> Prop) s p out p' :
  (forall m h q a q', frontend_of s m -> Inv q -> accept_frontend m h q = (Ok a, q') -> Inv q') ->
  (forall local m q r q', backend_of s m -> Inv q -> accept_response local m q = (r, q') -> Inv q') ->
  Inv p -> step_pipeline s p = (out, p') -> Inv p'.
Proof.
  intros Hf Hb Hi Hs. destruct s as [m h|ms h|m|id m]; simpl in Hs.
  - destruct (accept_frontend m h p) as [[a|e|] q] eqn:Ea; simplify_eq.
    + exact (Hf _ _ _ _ _ eq_refl Hi Ea).
    + apply accept_frontend_fail in Ea as ->; done.
    + apply accept_frontend_fail in Ea as ->; done.
  - unfold prepare_frontend_sequence in Hs. destruct (project_sequence ms h p) as [[q its]| |] eqn:E; simplify_eq/=; try done.
    eapply (sequence_preserves Inv); [|exact Hi|exact E]. intros; eapply Hf; [|eassumption..]. done.
  - destruct (accept_backend m p) as [r q] eqn:Ea. apply (Hb _ _ _ _ _ eq_refl Hi) in Ea. destruct r; now simplify_eq.
  - destruct (try_emit_local id m p) as [r q] eqn:Ea. apply (Hb _ _ _ _ _ eq_refl Hi) in Ea. destruct r; now simplify_eq.
Qed.

Lemma run_invariant (Inv : Pipeline P -> Prop) (ok : pipeline_step -> Prop) h :
  (forall s p out p', ok s -> Inv p -> step_pipeline s p = (out, p') -> Inv p') ->
  forall p out p', Forall ok h -> Inv p -> run_pipeline h p = (out, p') -> Inv p'.
Proof.
  intros Hstep. induction h as [|s h IH]; intros p out p' Hok Hi Hr; simpl in Hr; [now simplify_eq|].
  inversion Hok; subst. destruct (step_pipeline s p) as [[o|] q] eqn:Es; [|simplify_eq; eauto].
  destruct (run_pipeline h q) as [os q'] eqn:Er. simplify_eq. eauto.
Qed.

Lemma owned_step s p out p' :
  ledger_all (fun k st => st ∈ owned_states k) (operations p) -> step_pipeline s p = (out, p') ->
  ledger_all (fun k st => st ∈ owned_states k) (operations p').
Proof.
  intros Hl Hs. eapply (step_invariant (fun q => ledger_all (fun k st => st ∈ owned_states k) (operations q)));
    [| |exact Hl|exact Hs].
  - intros m h q a q' _ Hq Ha. eapply accept_frontend_ledger; [| |exact Hq|exact Ha].
    + intros. eapply external_owned_target; eassumption.
    + apply initial_owned.
  - intros local m q r q' _ Hq Ha. eapply accept_response_ledger; [|exact Hq|exact Ha].
    intros. eapply internal_owned_target; eassumption.
Qed.

(** ** COPY modes *)

(** While COPY IN is open to the client its request is the response head, and no
    COPY BOTH is in progress. *)
Definition copy_inv p : Prop :=
  ledger_all (fun k st => st ∈ owned_states k) (operations p) /\
  ledger_all (fun _ st => st ∉ copy_both_states) (operations p) /\
  request_state p <> RS_CopyBoth /\
  (request_state p = RS_CopyIn -> exists hd tl, operations p = hd :: tl /\
     response_state hd ∈ copy_in_states /\ discarded hd = false).

Lemma not_inert_owner o : response_state o ∈ owned_states (kind o) -> response_state o ∈ copy_in_states ->
  discarded o = false -> inert o = false.
Proof.
  intros Ho Hc Hd. destruct (copy_in_owner _ _ Ho Hc) as [Hk|Hk]; unfold inert; now rewrite Hk.
Qed.

Lemma classify_copy s m k next : classify_frontend s m = Ok (k, next) ->
  (next = RS_CopyIn -> s = RS_CopyIn /\ k = O_CopyData /\ exists d, m = F_CopyData d) /\
  (next = RS_CopyBoth -> s = RS_CopyBoth) /\ next <> RS_CopyOut.
Proof.
  destruct s, m; simpl; intros E; simplify_eq; split_and!; try done; eauto; intros; simplify_eq.
Qed.

Lemma project_frontend_classify s m r : project_frontend s m = Ok r -> classify_frontend s m = Ok r.
Proof. unfold project_frontend. now destruct (project_external _ _ _). Qed.

Lemma copy_data_stays s d : s ∈ copy_in_states -> exists e, project_external backend s (F_CopyData d) = Some e /\
  exists t, transition backend s e = Some t /\ r_target t = s.
Proof.
  intros Hs. unfold copy_in_states in Hs. apply elem_of_cons in Hs as [->|Hs];
    [|apply elem_of_cons in Hs as [->|Hs]; [|now apply not_elem_of_nil in Hs]];
    (eexists; split; [vm_compute; reflexivity|]; eexists; split; [vm_compute; reflexivity|done]).
Qed.

Lemma copy_inv_frontend m h p a p' : copy_inv p -> accept_frontend m h p = (Ok a, p') -> copy_inv p'.
Proof.
  intros (Ho & Hb & Hr & Hc) Ha.
  assert (ledger_all (fun k st => st ∈ owned_states k) (operations p')) as Ho'.
  { eapply accept_frontend_ledger; [| |exact Ho|exact Ha]; [|apply initial_owned].
    intros. eapply external_owned_target; eassumption. }
  assert (ledger_all (fun _ st => st ∉ copy_both_states) (operations p')) as Hb'.
  { eapply accept_frontend_ledger; [| |exact Hb|exact Ha].
    - intros k st e Hp Hst Hin. now apply (external_copy_target _ _ _ Hp) in Hin.
    - intros []; apply (bool_decide_eq_true_1 _); vm_compute; reflexivity. }
  apply accept_frontend_ok in Ha as (k & next & Hp & _ & ->). apply project_frontend_classify, classify_copy in Hp as (Hin & Hboth & _).
  split; [done|]. split; [done|]. split; [intros E; simpl in E; auto|].
  intros E. simpl in E. destruct (Hin E) as (Es & -> & d & ->). destruct (Hc Es) as (hd & tl & Eo & Hst & Hd).
  simpl. rewrite Es, Eo. simpl. destruct (copy_data_stays _ d Hst) as (e & -> & t & -> & Ht). simpl.
  assert (inert (with_response_state (r_target t) hd) = false) as ->.
  { rewrite Eo in Ho. inversion Ho; subst. apply not_inert_owner; simpl; rewrite ?Ht; done. }
  do 2 eexists. split; [reflexivity|]. simpl. now rewrite Ht.
Qed.

Lemma project_deferred_head id p hd tl : operations p = hd :: tl ->
  exists tl', operations (project_deferred_local_error id p) = hd :: tl'.
Proof.
  intros Eo. unfold project_deferred_local_error. rewrite Eo.
  destruct (position id (hd :: tl)) as [n|]; [|eauto]. destruct ((hd :: tl) !! n); [|eauto].
  destruct (_ || _); [eauto|]. destruct (discard_to_sync _) as [rest []]; simpl; eauto.
Qed.

Lemma project_deferred_request id p :
  request_state (project_deferred_local_error id p) = request_state p \/
  request_state (project_deferred_local_error id p) = RS_ExtendedError.
Proof.
  unfold project_deferred_local_error. destruct (position id (operations p)) as [n|]; [|auto].
  destruct (operations p !! n); [|auto]. destruct (_ || _); [auto|].
  destruct (discard_to_sync _) as [rest []]; simpl; auto.
Qed.

Lemma terminated_silent m : project_internal backend "Terminated" m = None.
Proof. destruct m; vm_compute; reflexivity. Qed.

Lemma copy_in_not_terminal k s m e : project_internal backend s m = Some e -> s ∈ owned_states k ->
  is_copy_in m = true -> response_is_terminal k m = false.
Proof.
  intros Hp Ho Hm. destruct m; try done. destruct k; try done; simpl in Ho;
    apply list_elem_of_singleton in Ho as ->; now rewrite terminated_silent in Hp.
Qed.

Lemma copy_inv_response local m p r p' : is_copy_both m = false -> copy_inv p ->
  accept_response local m p = (r, p') -> copy_inv p'.
Proof.
  intros Hm (Ho & Hb & Hr & Hc) Ha.
  assert (ledger_all (fun k st => st ∈ owned_states k) (operations p')) as Ho'.
  { eapply accept_response_ledger; [|exact Ho|exact Ha]. intros. eapply internal_owned_target; eassumption. }
  assert (ledger_all (fun _ st => st ∉ copy_both_states) (operations p')) as Hb'.
  { eapply accept_response_ledger; [|exact Hb|exact Ha]. intros k st e Hp Hst _ Hin.
    destruct (internal_copy_target _ _ _ Hp) as (_ & _ & Hx). destruct (Hx Hin); [done|congruence]. }
  split; [done|]. split; [done|]. clear Hb'. destruct (prepare_response local m p) as [|hd s| |] eqn:E.
  2:{ apply commit_emit in E as (tl & e & q & Eo & Es & Hd & Ep & Hacc & Hops & Hreq & _).
      rewrite Hacc in Ha. simplify_eq. rewrite Eo in Ho, Hb. inversion Ho as [|? ? Hoh Hot]; subst.
      inversion Hb as [|? ? Hbh Hbt]; subst. destruct (internal_copy_target _ _ _ Ep) as (Hni & Hti & Htb).
      assert (request_state p <> RS_CopyIn) as Hnc.
      { intros Ei. destruct (Hc Ei) as (hd' & tl' & E' & Hin & _). rewrite Eo in E'. now simplify_eq. }
      split.
      - rewrite Hreq. destruct (response_copy_state _) as [[]|] eqn:Ec; try done; try (repeat case_match; done).
        apply response_copy_state_both in Ec. destruct (Htb Ec); [done|congruence].
      - rewrite Hreq. intros Ei. destruct (response_copy_state (target_of (response_state hd) e)) as [cs|] eqn:Ec;
          [|repeat case_match; done].
        destruct cs; try done; try (repeat case_match; done). apply response_copy_state_in in Ec.
        assert (response_is_terminal (kind hd) m = false) as Hterm by (eapply copy_in_not_terminal; eauto).
        rewrite Hops. unfold after_emit. rewrite Hterm. simpl.
        assert (inert (with_response_state (target_of (response_state hd) e) hd) = false) as ->.
        { apply not_inert_owner; simpl; [eapply internal_owned_target; eassumption|done|done]. }
        eauto. }
  all: destruct (commit_other local m p) as (r' & q & Hacc & _ & [->|(id & _ & _ & _ & ->)]);
    [rewrite E; done|rewrite Hacc in Ha; simplify_eq; done|rewrite Hacc in Ha; simplify_eq].
  all: destruct (project_deferred_request id p) as [Eq|Eq]; rewrite Eq; (split; [done|]); [|done].
  all: intros Ei; destruct (Hc Ei) as (hd & tl & Eo & Hin & Hd).
  all: destruct (project_deferred_head id p hd tl Eo) as [tl' ->]; eauto.
Qed.

(** With the invariant no frontend acceptance panics. *)
Lemma copy_inv_no_panic m h p : copy_inv p -> (accept_frontend m h p).1 <> Panic.
Proof.
  intros (Ho & Hb & Hr & Hc). unfold accept_frontend, prepare_frontend.
  destruct (_ && _); [done|]. destruct (project_frontend (request_state p) m) as [[k next]| |] eqn:Ep; [|done|].
  - pose proof (project_frontend_classify _ _ _ Ep) as Hcl.
    assert (exists ph, frontend_phase (request_state p) (kind <$> head (operations p)) = Ok ph) as [ph ->].
    { destruct (request_state p) eqn:Es; try (eexists; reflexivity); try done.
      destruct (Hc eq_refl) as (hd & tl & Eo & Hin & _). rewrite Eo in *. inversion Ho; subst. simpl.
      destruct (copy_in_owner _ _ ltac:(eassumption) Hin) as [->| ->]; eexists; reflexivity. }
    simpl. unfold commit_frontend. simpl. now rewrite Hcl.
  - unfold project_frontend in Ep. destruct (project_external _ _ _); [|done].
    now destruct (request_state p), m.
Qed.
End Ledger.

