(* ===== verification/PipelineSpec.v ===== *)
(** What the pipeline promises: request order, ownership, capacity, recovery and
    atomic sequences; and the COPY histories on which the ledger misbehaves. *)

From Stdlib Require Import ZArith Lia String Sorting.Sorted.
From Stdlib Require Import Init.Byte.
From stdpp Require Import prelude strings.
From S2P Require Import Prelude Wire Frame Frontend Backend Demux Fsm Grammar.
From S2P Require Import Pipeline PipelineTables PipelineProofs.
Local Open Scope string_scope.
Local Open Scope list_scope.
Local Open Scope Z_scope.

Section Spec.
Context {P : Type} `{PipelinePolicy P}.
Implicit Type p : Pipeline P.

(** ** Capacity *)

(** Response states outside COPY IN and COPY BOTH. *)
Definition calm (_ : OperationKind) (s : string) : Prop := s ∉ copy_in_states /\ s ∉ copy_both_states.

Definition capacity_inv p : Prop :=
  0 < operation_limit (policy p) /\ len (operations p) <= operation_limit (policy p) /\
  in_copy (request_state p) = false /\ ledger_all calm (operations p).

Lemma len_ids p : len (operations p) = len (ids p).
Proof. unfold ids, ids_of, len. now rewrite length_map. Qed.

Lemma len_suffix {A} (l l' : list A) : l `suffix_of` l' -> len l <= len l'.
Proof. intros [k ->]. rewrite len_app. pose proof (len_nonneg k). lia. Qed.

Lemma calm_initial k : calm k (initial_response_state k).
Proof. destruct k; split; apply (bool_decide_eq_true_1 _); vm_compute; reflexivity. Qed.

Lemma capacity_frontend m h p a p' : capacity_inv p -> accept_frontend m h p = (Ok a, p') -> capacity_inv p'.
Proof.
  intros (H0 & Hl & Hc & Hq) Ha. pose proof (accept_frontend_ids _ _ _ _ _ Ha) as (Hs & _ & Hp).
  assert (ledger_all calm (operations p')) as Hq'.
  { eapply accept_frontend_ledger; [|apply calm_initial|exact Hq|exact Ha].
    intros k s e Hpe [H1 H2]. apply external_copy_target in Hpe as [H3 H4]. split; intros Hin; naive_solver. }
  apply accept_frontend_ok in Ha as (k & next & Hpf & Hcap & Ep).
  assert (request_state p' = next) as Hr by (now rewrite Ep).
  split; [now rewrite Hp|]. split; [|split; [|done]].
  - rewrite Hp. apply len_suffix in Hs. rewrite len_app, <- !len_ids in Hs.
    change (len [next_id p]) with 1 in Hs. destruct (decide (len (operations p) = operation_limit (policy p))) as [E|]; [|lia].
    rewrite (Hcap E) in Hc. done.
  - rewrite Hr. apply project_frontend_classify, classify_copy in Hpf as (H1 & H2 & _).
    destruct next; try done; [destruct (H1 eq_refl) as [E _]|specialize (H2 eq_refl) as E]; now rewrite E in Hc.
Qed.

Lemma capacity_response local m p r p' : is_copy_in m = false -> is_copy_both m = false ->
  capacity_inv p -> accept_response local m p = (r, p') -> capacity_inv p'.
Proof.
  intros Hi Hb (H0 & Hl & Hc & Hq) Ha. pose proof (accept_response_ids _ _ _ _ _ Ha) as (Hs & _ & Hp).
  assert (ledger_all calm (operations p')) as Hq'.
  { eapply accept_response_ledger; [|exact Hq|exact Ha].
    intros k s e Hpe [H1 H2] _. apply internal_copy_target in Hpe as (H3 & H4 & H5).
    split; intros Hin; [specialize (H4 Hin)|specialize (H5 Hin)]; intuition congruence. }
  split; [now rewrite Hp|]. split; [rewrite Hp; apply len_suffix in Hs; rewrite <- !len_ids in Hs; lia|].
  split; [|done]. destruct (prepare_response local m p) as [|hd s| |] eqn:E.
  2:{ apply commit_emit in E as (tl & e & q & Eo & Es & Hd & Ep & Hacc & _ & Hreq & _). rewrite Hacc in Ha.
      simplify_eq. rewrite Hreq. apply internal_copy_target in Ep as (_ & H4 & H5).
      rewrite Eo in Hq. inversion Hq as [|? ? [Hq1 Hq2] _]; subst.
      destruct (response_copy_state _) as [[]|] eqn:Ec; try (repeat case_match; done).
      - apply response_copy_state_in in Ec. specialize (H4 Ec). congruence.
      - apply response_copy_state_both in Ec. destruct (H5 Ec); [done|congruence]. }
  all: destruct (commit_other local m p) as (r' & q & Hacc & _ & [->|(id & _ & _ & _ & ->)]);
    [rewrite E; done|rewrite Hacc in Ha; simplify_eq; done|rewrite Hacc in Ha; simplify_eq].
  all: destruct (project_deferred_request id p) as [-> | ->]; done.
Qed.

(** ** Recovery *)

(** The suffix that starts with the first [Sync]. *)
Fixpoint from_sync (l : list Operation) : list Operation :=
  match l with
  | [] => []
  | o :: l' => if decide (kind o = O_Sync) then l else from_sync l'
  end.

Lemma inert_discard o : inert (discard o) = true.
Proof. unfold inert. simpl. now destruct (kind o). Qed.

Lemma discard_to_sync_spec l :
  drop_inert (discard_to_sync l).1 = drop_inert (from_sync l) /\
  ((discard_to_sync l).2 = false <-> from_sync l = []).
Proof.
  induction l as [|o l [IH1 IH2]]; simpl; [done|]. case_decide; [done|].
  destruct (discard_to_sync l) as [l' b]. cbn [fst snd] in *. cbn [drop_inert]. now rewrite inert_discard.
Qed.

Lemma error_recovery local d p hd s :
  prepare_response local (B_ErrorResponse d) p = PR_Emit hd s ->
  is_extended_kind (kind hd) = true -> kind hd <> O_Sync ->
  exists tl p', operations p = hd :: tl /\
    accept_response local (B_ErrorResponse d) p = (Ok (Emit (B_ErrorResponse d)), p') /\
    operations p' = drop_inert (from_sync tl) /\ resp_state p' = None /\
    request_state p' = (if decide (from_sync tl = []) then RS_ExtendedError else request_state p).
Proof.
  intros Hp Hk Hns. apply commit_emit in Hp as (tl & e & p' & Eo & Es & Hd & Ep & Hacc & Hops & Hreq & Hresp).
  exists tl, p'. split; [done|]. split; [done|].
  assert (response_is_terminal (kind hd) (B_ErrorResponse d) = true) as Hterm.
  { unfold is_extended_kind in Hk. unfold response_is_terminal. now destruct (kind hd). }
  rewrite (internal_error_target _ _ _ Ep) in *. unfold after_emit in Hops. rewrite Hterm in *.
  simpl in Hops, Hreq, Hresp. rewrite Hk in *. simpl in *.
  destruct (discard_to_sync_spec tl) as [Hd1 Hd2]. rewrite Hops, Hd1, Hreq. split; [done|]. split; [done|].
  destruct (discard_to_sync tl).2; simpl; case_decide; try done; naive_solver.
Qed.

(** ** Sequences *)

Definition action_id (a : FrontendAction) : OperationId :=
  match a with Action_Forward i _ => i | Action_Discard i => i end.

Definition admission_id (a : FrontendAdmission) : OperationId := action_id (into_action a).

Lemma accept_frontend_admission m h p a p' : accept_frontend m h p = (Ok a, p') -> admission_id a = next_id p.
Proof.
  unfold accept_frontend. destruct (prepare_frontend m p) as [pr| |]; [|done..].
  unfold commit_frontend. destruct (classify_frontend _ m) as [[k next]| |]; [|done..].
  intros E. injection E as <- _. unfold admission_id, into_action.
  destruct h, (bool_decide (next = RS_ExtendedError) && negb (bool_decide (k = O_Sync))), (discard_copy_sync _ _ _); done.
Qed.

(** Accepting the messages one at a time on the live ledger. *)
Fixpoint accept_each (ms : list FrontendMessage) (h : FrontendHandling) p
    : option (list FrontendAdmission * Pipeline P) :=
  match ms with
  | [] => Some ([], p)
  | m :: ms =>
      match accept_frontend m h p with
      | (Ok a, p) => match accept_each ms h p with Some (l, p) => Some (a :: l, p) | None => None end
      | _ => None
      end
  end.

Lemma sequence_each ms h : forall p p' items, project_sequence ms h p = Ok (p', items) ->
  Forall (fun m => is_ok (FrontendMessage_to_frame m) = true) ms /\
  accept_each ms h p = Some (map admission items, p').
Proof.
  induction ms as [|m ms IH]; intros p p' items Hp; simpl in Hp; [now inv_ok|].
  destruct (is_ok (FrontendMessage_to_frame m)) eqn:Em; simpl in Hp; [|done].
  destruct (accept_frontend m h p) as [[a|e|] q] eqn:Ea; [|done..].
  destruct (project_sequence ms h q) as [[q' its]| |] eqn:Es; [|done..]. apply Ok_inj in Hp. simplify_eq.
  apply IH in Es as [Hf He]. split; [now constructor|]. simpl. now rewrite Ea, He.
Qed.

Lemma each_ids ms h : forall p l p', accept_each ms h p = Some (l, p') ->
  next_id p <= U64_MAX -> next_id p' < U64_MAX ->
  map admission_id l = seqZ (next_id p) (len ms) /\ next_id p <= next_id p'.
Proof.
  induction ms as [|m ms IH]; intros p l p' He Hu Hn; simpl in He; [simplify_eq; split; [done|lia]|].
  destruct (accept_frontend m h p) as [[a|e|] q] eqn:Ea; [|done..].
  destruct (accept_each ms h q) as [[l' q']|] eqn:Es; [|done]. simplify_eq.
  pose proof (accept_frontend_next _ _ _ _ _ Ea Hu) as Hq. pose proof (accept_frontend_admission _ _ _ _ _ Ea) as Hid.
  apply accept_frontend_ids in Ea as (_ & Hnext & _). unfold saturating_add in Hnext.
  destruct (IH _ _ _ Es ltac:(lia) Hn) as [Hl Hle]. split; [|lia].
  rewrite seqZ_cons by (rewrite len_cons; pose proof (len_nonneg ms); lia). simpl. rewrite Hid, Hl.
  do 2 f_equal; [lia|]. rewrite len_cons. lia.
Qed.
End Spec.

Lemma frontend_phase_no_err s k e : frontend_phase s k <> Err e.
Proof. destruct s, k as [[]|]; done. Qed.

(** A sequence cannot panic where a single acceptance cannot. *)
Lemma sequence_no_panic {P} `{PipelinePolicy P} ms h : forall p : Pipeline P,
  copy_inv p -> project_sequence ms h p <> Panic.
Proof.
  induction ms as [|m ms IH]; intros p Hi; simpl; [done|]. destruct (negb _); [done|].
  pose proof (copy_inv_no_panic m h p Hi) as Hn. pose proof (copy_inv_frontend m h p) as Hf.
  destruct (accept_frontend m h p) as [[a|e|] q]; [|done..]. specialize (IH q (Hf _ _ Hi eq_refl)).
  destruct (project_sequence ms h q) as [[]| |]; done.
Qed.

(** ** Properties *)

(** Responses leave in request order. Over any history of frontend
    acceptances (one by one or in sequences), upstream responses and locally
    synthesised responses, the identities of the operations responded to never
    decrease; the outstanding identities are strictly increasing and below the
    next one. (Identities are 64-bit; the history must not exhaust them.) *)
Theorem responses_in_request_order {P} `{PipelinePolicy P} (pol : P) h out p :
  run_pipeline h (Pipeline_new pol) = (Some out, p) -> next_id p < U64_MAX ->
  StronglySorted Z.le out /\ StronglySorted Z.lt (ids p) /\ Forall (fun i => 0 <= i < next_id p) (ids p).
Proof.
  intros Hr Hn.
  assert (ordered 0 (Pipeline_new pol)) as H0 by (split; [constructor|split; [constructor|simpl; lia]]).
  pose proof (run_ordered h 0 _ _ _ H0 ltac:(simpl; vm_compute; congruence) Hn Hr) as (_ & Hs & lo & Hlo & Ho & Hf & _).
  split; [done|]. split; [done|]. eapply Forall_impl; [exact Hf|]. simpl. lia.
Qed.

Definition example_history : list pipeline_step :=
  [AcceptFrontend (F_Query []) Forward; AcceptFrontend (F_Query []) Forward;
   AcceptBackend (B_CommandComplete []); AcceptBackend (B_ReadyForQuery Idle);
   AcceptBackend (B_CommandComplete []); AcceptBackend (B_ReadyForQuery Idle)].

Lemma responses_in_request_order_witness :
  exists out p, run_pipeline example_history (Pipeline_new (mkBounded 4)) = (Some out, p) /\
    out = [0; 0; 1; 1] /\ StronglySorted Z.le out.
Proof.
  do 2 eexists. split; [vm_compute; reflexivity|]. split; [reflexivity|].
  refine (proj1 (responses_in_request_order (mkBounded 4) example_history [0; 0; 1; 1]
    (run_pipeline example_history (Pipeline_new (mkBounded 4))).2 _ _)); vm_compute; reflexivity.
Defined.

(** Response states stay with their operation. In every reachable ledger each
    operation's response state is one the grammar reaches from that operation's
    own request, so no operation is ever answered with another kind's messages. *)
Theorem ledger_states_owned {P} `{PipelinePolicy P} (pol : P) h out p :
  run_pipeline h (Pipeline_new pol) = (out, p) -> Forall owns (operations p).
Proof.
  intros Hr. apply (run_invariant (fun q => ledger_all (fun k st => st ∈ owned_states k) (operations q))
    (fun _ => True) h) with (p := Pipeline_new pol) (out := out); [|now apply Forall_true|constructor|done].
  intros s q o q' _ Hq Hs. eapply owned_step; eassumption.
Qed.

Lemma ledger_states_owned_witness :
  exists p, run_pipeline (take 3 example_history) (Pipeline_new (mkBounded 4)) = (Some [0], p) /\
    Forall owns (operations p).
Proof.
  eexists. split; [vm_compute; reflexivity|].
  apply (ledger_states_owned (mkBounded 4) (take 3 example_history) (Some [0])). vm_compute. reflexivity.
Defined.

(** The backend messages of a step satisfy [ok]. *)
Definition backend_ok (ok : BackendMessage -> bool) (s : pipeline_step) : Prop :=
  forall m, backend_of s m -> ok m = true.

(** C37: Backpressure. While no response opens COPY IN or COPY BOTH, the ledger
    never holds more operations than the policy's limit; and a frontend message is
    refused for capacity exactly when the limit is reached, the ledger unchanged. *)
Theorem pipeline_capacity {P} `{PipelinePolicy P} (pol : P) h out p m hd :
  0 < operation_limit pol ->
  Forall (backend_ok (fun m => negb (is_copy_in m) && negb (is_copy_both m))) h ->
  run_pipeline h (Pipeline_new pol) = (out, p) ->
  pipeline_len p <= operation_limit (policy p) /\
  (accept_frontend m hd p = (Err (Capacity m), p) <-> pipeline_len p = operation_limit (policy p)).
Proof.
  intros Hl Hok Hr.
  assert (capacity_inv p) as (H0 & Hle & Hc & Hq).
  { eapply (run_invariant capacity_inv (backend_ok (fun m => negb (is_copy_in m) && negb (is_copy_both m))) h);
      [|exact Hok| |exact Hr].
    - intros s q o q' Hs Hq Hst. eapply (step_invariant capacity_inv); [| |exact Hq|exact Hst].
      + intros m0 hd0 q0 a q1 _. apply capacity_frontend.
      + intros local m0 q0 r q1 Hm. specialize (Hs m0 Hm). cbv beta in Hs. apply andb_true_iff in Hs as [H1 H2].
        apply capacity_response; [now destruct (is_copy_in m0)|now destruct (is_copy_both m0)].
    - split; [exact Hl|]. split; [unfold len; simpl; lia|]. split; [done|constructor]. }
  split; [done|]. unfold pipeline_len, accept_frontend, prepare_frontend. rewrite Hc. simpl. rewrite andb_true_r.
  destruct (Z.eqb_spec (len (operations p)) (operation_limit (policy p))); [done|]. split; [|done].
  destruct (project_frontend (request_state p) m); [|done..].
  destruct (frontend_phase _ _) eqn:Eph; simpl; [|now apply frontend_phase_no_err in Eph|done].
  unfold commit_frontend. simpl. destruct (classify_frontend _ m) as [[]| |]; done.
Qed.

Lemma pipeline_capacity_witness :
  exists p, run_pipeline (take 1 example_history) (Pipeline_new (mkBounded 1)) = (Some [], p) /\
    accept_frontend (F_Query []) Forward p = (Err (Capacity (F_Query [])), p).
Proof.
  eexists. split; [vm_compute; reflexivity|].
  apply (pipeline_capacity (mkBounded 1) (take 1 example_history) (Some []) _ (F_Query []) Forward);
    [vm_compute; reflexivity| |vm_compute; reflexivity|vm_compute; reflexivity].
  repeat constructor; intros m Hm; simpl in Hm; subst; done.
Defined.

(** C13: Error recovery. When an extended-protocol operation at the head fails,
    the error is emitted, every operation before the next accepted [Sync] is
    dropped, and the response side restarts at that [Sync]; without one the
    request side waits for it, discarding. *)
Theorem extended_error_recovery {P} `{PipelinePolicy P} (p : Pipeline P) d hd s :
  prepare_response None (B_ErrorResponse d) p = PR_Emit hd s ->
  is_extended_kind (kind hd) = true -> kind hd <> O_Sync ->
  exists tl p', operations p = hd :: tl /\
    accept_backend (B_ErrorResponse d) p = (Ok (Emit (B_ErrorResponse d)), p') /\
    operations p' = drop_inert (from_sync tl) /\ resp_state p' = None /\
    request_state p' = (if decide (from_sync tl = []) then RS_ExtendedError else request_state p).
Proof. apply error_recovery. Qed.

Definition parse_message : FrontendMessage := F_Parse (mkParse [] [] []).
Definition example_error : BackendMessage := B_ErrorResponse (mkDiagnostic []).

Lemma extended_error_recovery_witness :
  exists p p', run_pipeline [AcceptFrontend parse_message Forward; AcceptFrontend parse_message Forward;
      AcceptFrontend F_Sync Forward] (Pipeline_new (mkBounded 4)) = (Some [], p) /\
    accept_backend example_error p = (Ok (Emit example_error), p') /\
    operations p' = [mkOperation 2 O_Sync Forwarded false "SyncResponse"].
Proof.
  eexists. eexists. split; [vm_compute; reflexivity|].
  edestruct (extended_error_recovery (mkPipeline (mkBounded 4)
     [mkOperation 0 O_Parse Forwarded false "ParseResponse"; mkOperation 1 O_Parse Forwarded false "ParseResponse";
      mkOperation 2 O_Sync Forwarded false "SyncResponse"] RS_Ready None 3) (mkDiagnostic []))
    as (tl & p' & Eo & Ha & Hops & _); [vm_compute; reflexivity|reflexivity|done|].
  split; [vm_compute; reflexivity|]. simpl in Eo. injection Eo as <-.
  vm_compute. reflexivity.
Defined.

(** C14: Atomic frontend sequences. A sequence that passes preflight commits to
    exactly the ledger that accepting its messages one at a time gives, with
    consecutive fresh identities and every message reconstructable; until the
    commit the live ledger is untouched. *)
Theorem frontend_sequence_atomic {P} `{PipelinePolicy P} (p : Pipeline P) ms h prepared :
  prepare_frontend_sequence ms h p = Ok prepared ->
  next_id p <= U64_MAX -> next_id prepared.1 < U64_MAX ->
  let (items, p') := commit_frontend_sequence prepared p in
  accept_each ms h p = Some (map admission items, p') /\
  map (fun i => admission_id (admission i)) items = seqZ (next_id p) (len ms) /\
  Forall (fun m => is_ok (FrontendMessage_to_frame m) = true) ms.
Proof.
  destruct prepared as [p' items]. intros Hp Hu Hn. simpl in *.
  apply sequence_each in Hp as [Hf He]. split; [done|]. split; [|done].
  apply each_ids in He as [He _]; [|done|done]. rewrite <- He. now rewrite map_map.
Qed.

Lemma frontend_sequence_atomic_witness :
  exists prepared, prepare_frontend_sequence [parse_message; F_Sync] Forward (Pipeline_new (mkBounded 4)) = Ok prepared /\
    map (fun i => admission_id (admission i)) (commit_frontend_sequence prepared (Pipeline_new (mkBounded 4))).1 = [0; 1].
Proof.
  eexists. split; [vm_compute; reflexivity|].
  refine (proj1 (proj2 (frontend_sequence_atomic (Pipeline_new (mkBounded 4)) [parse_message; F_Sync] Forward
    (_, [mkItem (Some "backend.Ready.Parse") (Immediate (Action_Forward 0 parse_message));
         mkItem (Some "backend.Building.Sync") (Waiting (Action_Forward 1 F_Sync))]) _ _ _)));
    [vm_compute; reflexivity|vm_compute; congruence|vm_compute; reflexivity].
Defined.

(** Attribution agrees with emission. Whenever an upstream response is
    emitted, the operation [backend_operation_id] attributes it to is the head
    operation it is emitted for. *)
Theorem attribution_matches_emission {P} `{PipelinePolicy P} (p : Pipeline P) m hd s :
  prepare_response None m p = PR_Emit hd s -> backend_operation_id m p = Some (op_id hd).
Proof.
  intros Hp. pose proof (prepare_emit _ _ _ _ _ Hp) as (tl & e & t & Eo & -> & Hd & Ha & Ep & _).
  unfold prepare_response in Hp. unfold backend_operation_id. rewrite Ha, Eo in *. simpl.
  destruct (origin hd) eqn:Eor; simpl in Hp.
  - unfold response_fits at 1. rewrite Hd, Ep. done.
  - repeat case_match; done.
Qed.

Lemma attribution_matches_emission_witness :
  exists p hd s, run_pipeline (take 1 example_history) (Pipeline_new (mkBounded 4)) = (Some [], p) /\
    prepare_response None (B_CommandComplete []) p = PR_Emit hd s /\
    backend_operation_id (B_CommandComplete []) p = Some 0.
Proof.
  do 3 eexists. split; [vm_compute; reflexivity|]. split; [vm_compute; reflexivity|].
  exact (attribution_matches_emission (mkPipeline (mkBounded 4)
    [mkOperation 0 O_Query Forwarded false "Simple"] RS_Ready None 1) (B_CommandComplete [])
    (mkOperation 0 O_Query Forwarded false "Simple") "Simple" ltac:(vm_compute; reflexivity)).
Defined.

Lemma project_span_frame {P} `{PipelinePolicy P} c ms : forall (p p' : Pipeline P), project_span c ms p = Ok p' ->
  next_id p' = next_id p /\ policy p' = policy p /\
  (c = true -> Forall (fun m => is_ok (BackendMessage_to_frame m) = true) ms).
Proof.
  induction ms as [|m ms IH]; intros p p' Hs; simpl in Hs; [now inv_ok|].
  destruct (c && negb (is_ok (BackendMessage_to_frame m))) eqn:Ec; [done|].
  destruct (accept_backend m p) as [[[m'|m']|e|] q] eqn:Ea; try done.
  apply accept_response_ids in Ea as (_ & Hn & Hp). apply IH in Hs as (Hn' & Hp' & Hf).
  split; [congruence|]. split; [congruence|]. intros ->. simpl in Ec. constructor; [|auto].
  now destruct (is_ok _).
Qed.

(** Replacing a held backend span is safe. When replacements pass, they are
    as many as the sources, each can be put on the wire and is emittable in turn,
    and the ledger they leave is exactly the one the original span leaves. *)
Theorem backend_replacements_equivalent {P} `{PipelinePolicy P} (p : Pipeline P) sources replacements p' :
  prepare_backend_replacements sources replacements p = Ok p' ->
  len sources = len replacements /\
  Forall (fun m => is_ok (BackendMessage_to_frame m) = true) replacements /\
  project_span false sources p = Ok p' /\ project_span true replacements p = Ok p'.
Proof.
  unfold prepare_backend_replacements. destruct (Z.eqb_spec (len sources) (len replacements)) as [Hl|]; [|done].
  simpl. destruct (project_span false sources p) as [ps| |] eqn:E1; [|done..]. simpl.
  destruct (project_span true replacements p) as [pr| |] eqn:E2; [|done..]. simpl.
  destruct (_ || _) eqn:Eb; [done|]. intros E. apply Ok_inj in E as <-.
  apply orb_false_iff in Eb as [[H1 H2]%orb_false_iff H3].
  apply bool_decide_eq_false, dec_stable in H1, H2, H3.
  destruct (project_span_frame _ _ _ _ E1) as (N1 & P1 & _).
  destruct (project_span_frame _ _ _ _ E2) as (N2 & P2 & Hf).
  split; [done|]. split; [auto|]. split; [|done]. f_equal.
  destruct ps, pr. simpl in *. congruence.
Qed.

Lemma backend_replacements_equivalent_witness :
  exists p p', run_pipeline (take 1 example_history) (Pipeline_new (mkBounded 4)) = (Some [], p) /\
    prepare_backend_replacements [B_CommandComplete []] [B_CommandComplete [x41]] p = Ok p' /\
    project_span false [B_CommandComplete []] p = Ok p'.
Proof.
  do 2 eexists. split; [vm_compute; reflexivity|]. split; [vm_compute; reflexivity|].
  refine (proj1 (proj2 (proj2 (backend_replacements_equivalent (mkPipeline (mkBounded 4)
    [mkOperation 0 O_Query Forwarded false "Simple"] RS_Ready None 1) [B_CommandComplete []]
    [B_CommandComplete [x41]] _ _)))). vm_compute. reflexivity.
Defined.

(** ** COPY histories the ledger does not follow

    Each history below is legal in the grammar of the wire protocol. *)

Definition copy_response : CopyResponse := mkCopyResponse x00 [].
Definition bounded (n : Z) : Pipeline BoundedPipeline := Pipeline_new (mkBounded n).

(** A simple-query COPY IN is not left. After the query, the data, the
    client's [CopyDone], the command completion and [ReadyForQuery], nothing is
    outstanding, yet the projected state is still the extended one and the next
    simple query is refused as illegal. *)
Theorem simple_copy_in_refuses_next_query q d tag next :
  exists p, run_pipeline
      [AcceptFrontend (F_Query q) Forward; AcceptBackend (B_CopyInResponse copy_response);
       AcceptFrontend (F_CopyData d) Forward; AcceptFrontend F_CopyDone Forward;
       AcceptBackend (B_CommandComplete tag); AcceptBackend (B_ReadyForQuery Idle)] (bounded 4) =
      (Some [0; 0; 0], p) /\
    pipeline_is_empty p = true /\ state p = PS_Extended /\
    (accept_frontend (F_Query next) Forward p).1 = Err (Illegal PS_Extended (F_Query next)).
Proof. eexists. split; [vm_compute; reflexivity|]. split_and!; vm_compute; reflexivity. Qed.

(** A failed simple-query COPY IN loses the next query. After [CopyFail],
    the error and [ReadyForQuery], the next simple query is accepted with the
    instruction to discard it, and no obligation to answer it is recorded. *)
Theorem simple_copy_fail_discards_next_query q reason d next :
  exists p p', run_pipeline
      [AcceptFrontend (F_Query q) Forward; AcceptBackend (B_CopyInResponse copy_response);
       AcceptFrontend (F_CopyFail reason) Forward; AcceptBackend (B_ErrorResponse d);
       AcceptBackend (B_ReadyForQuery Idle)] (bounded 4) = (Some [0; 0; 0], p) /\
    accept_frontend (F_Query next) Forward p = (Ok (Immediate (Action_Discard 2)), p') /\
    pipeline_is_empty p' = true.
Proof. do 2 eexists. split; [vm_compute; reflexivity|]. split; vm_compute; reflexivity. Qed.

(** COPY BOTH is never left. After both sides' [CopyDone], the command
    completion and [ReadyForQuery], the next simple query is refused, and a
    further [CopyData] from the client panics in [frontend_phase]. *)
Theorem copy_both_not_left q tag next d :
  exists p, run_pipeline
      [AcceptFrontend (F_Query q) Forward; AcceptBackend (B_CopyBothResponse copy_response);
       AcceptFrontend F_CopyDone Forward; AcceptBackend B_CopyDone;
       AcceptBackend (B_CommandComplete tag); AcceptBackend (B_ReadyForQuery Idle)] (bounded 4) =
      (Some [0; 0; 0; 0], p) /\
    pipeline_is_empty p = true /\
    (accept_frontend (F_Query next) Forward p).1 = Err (Illegal PS_CopyBoth (F_Query next)) /\
    (accept_frontend (F_CopyData d) Forward p).1 = Panic.
Proof. eexists. split; [vm_compute; reflexivity|]. split_and!; vm_compute; reflexivity. Qed.

(** COPY IN voids the operation limit. With a limit of one, COPY data is
    recorded beyond it, and since the limit is compared for equality, ordinary
    operations are then admitted too. *)
Theorem copy_in_exceeds_limit q d :
  exists p, run_pipeline
      [AcceptFrontend (F_Query q) Forward; AcceptBackend (B_CopyInResponse copy_response);
       AcceptFrontend (F_CopyData d) Forward; AcceptFrontend F_CopyDone Forward;
       AcceptFrontend parse_message Forward; AcceptFrontend parse_message Forward] (bounded 1) = (Some [0], p) /\
    operation_limit (policy p) = 1 /\ pipeline_len p = 5.
Proof. eexists. split; [vm_compute; reflexivity|]. split; vm_compute; reflexivity. Qed.

(** An upstream error during COPY IN is rejected. While the client is still
    sending data, an [ErrorResponse] is projected as illegal, although the client
    role's grammar accepts it in that very phase. *)
Theorem copy_in_upstream_error_illegal q d e :
  exists p, run_pipeline
      [AcceptFrontend (F_Query q) Forward; AcceptBackend (B_CopyInResponse copy_response);
       AcceptFrontend (F_CopyData d) Forward] (bounded 4) = (Some [0], p) /\
    (accept_backend (B_ErrorResponse e) p).1 = Err (mkBackendProjectionError PS_CopyIn (B_ErrorResponse e)) /\
    project_external frontend "CopyIn" (B_ErrorResponse e) = Some "Error".
Proof. eexists. split; [vm_compute; reflexivity|]. split; vm_compute; reflexivity. Qed.

(** A phase-typed replacement can panic the ledger. In the extended error
    state a middleware that turns a message into a password response stays within
    the phase's message type, but the commit's [expect] fails. *)
Theorem typed_replacement_panics data :
  exists p, run_pipeline
      [AcceptFrontend parse_message Forward; AcceptBackend example_error] (bounded 4) = (Some [0], p) /\
    request_state p = RS_ExtendedError /\
    phase_message FP_ExtendedError (F_PasswordResponse data) = true /\
    (accept_frontend_typed (E := unit) (fun _ _ => Ok (F_PasswordResponse data)) parse_message Forward p).1 = Panic.
Proof. eexists. split; [vm_compute; reflexivity|]. split_and!; vm_compute; reflexivity. Qed.
