(* ===== verification/PipelineFifo.v ===== *)
(** The response ledger as a first-in first-out queue of obligations: the abstract
    queue, the laws that fix its order, and the refinement of the pipeline to it. *)

From Stdlib Require Import ZArith Lia String Sorting.Sorted.
From Stdlib Require Import Init.Byte.
From stdpp Require Import prelude strings.
From S2P Require Import Prelude Wire Frame Frontend Backend Demux Fsm Grammar.
From S2P Require Import Pipeline PipelineTables PipelineProofs PipelineSpec.
Local Open Scope string_scope.
Local Open Scope list_scope.
Local Open Scope Z_scope.

(** ** The abstract queue *)

(** Operations in the order they were accepted, each with whether it still owes the
    client a response, and the next identity. *)
Record queue : Type := mkQueue { waiting : list (OperationId * bool); fresh : OperationId }.

Inductive queue_event : Type :=
| Joined (id : OperationId) (owed : bool)
| Answered (id : OperationId) (final : bool)
| Voided (id : OperationId)
| Skipped (id : OperationId).

(** Only the fresh identity joins, at the back. Only the front is answered, if it
    owes a response, and it leaves with its final one. An operation leaves
    unanswered only from the front, and only when it owes nothing. *)
Definition queue_step (e : queue_event) (q : queue) : option queue :=
  match e with
  | Joined id owed => if id =? fresh q then Some (mkQueue (waiting q ++ [(id, owed)]) (id + 1)) else None
  | Answered id final =>
      match waiting q with
      | (i, true) :: rest => if id =? i then Some (mkQueue (if final then rest else waiting q) (fresh q)) else None
      | _ => None
      end
  | Voided id =>
      if existsb (fun w => w.1 =? id) (waiting q)
      then Some (mkQueue (map (fun w => (w.1, if w.1 =? id then false else w.2)) (waiting q)) (fresh q))
      else None
  | Skipped id =>
      match waiting q with
      | (i, false) :: rest => if id =? i then Some (mkQueue rest (fresh q)) else None
      | _ => None
      end
  end.

Fixpoint queue_run (trace : list queue_event) (q : queue) : option queue :=
  match trace with
  | [] => Some q
  | e :: trace => match queue_step e q with Some q => queue_run trace q | None => None end
  end.

Definition joins : list queue_event -> list OperationId :=
  omap (fun e => match e with Joined id _ => Some id | _ => None end).
Definition answers : list queue_event -> list OperationId :=
  omap (fun e => match e with Answered id _ => Some id | _ => None end).
Definition voids : list queue_event -> list OperationId :=
  omap (fun e => match e with Voided id => Some id | _ => None end).
Definition leaves : list queue_event -> list OperationId :=
  omap (fun e => match e with Answered id true | Skipped id => Some id | _ => None end).

Lemma queue_run_app t t' q : queue_run (t ++ t') q =
  match queue_run t q with Some q => queue_run t' q | None => None end.
Proof. revert q. induction t as [|e t IH]; intros q; simpl; [done|]. destruct (queue_step e q); auto. Qed.

(** Operations leave in the order they joined. *)
Lemma queue_order trace : forall q q', queue_run trace q = Some q' ->
  map fst (waiting q) ++ joins trace = leaves trace ++ map fst (waiting q').
Proof.
  induction trace as [|e trace IH]; intros q q' Hr; simpl in Hr; [simplify_eq; apply app_nil_r|].
  destruct (queue_step e q) as [q1|] eqn:Es; [|done]. apply IH in Hr.
  unfold joins, leaves in *. cbn [omap list_omap].
  destruct e as [id owed|id final|id|id]; cbn [queue_step] in Es.
  - destruct (Z.eqb_spec id (fresh q)) as [->|]; [|done]. simplify_eq. cbn [waiting] in Hr.
    now rewrite map_app, <- app_assoc in Hr.
  - destruct (waiting q) as [|[i []] rest]; try done. destruct (Z.eqb_spec id i) as [->|]; [|done]. simplify_eq.
    destruct final; cbn [waiting map fst app] in *; [now rewrite Hr|exact Hr].
  - destruct (existsb _ _); [|done]. simplify_eq. cbn [waiting] in Hr. now rewrite map_map in Hr.
  - destruct (waiting q) as [|[i []] rest]; try done. destruct (Z.eqb_spec id i) as [->|]; [|done]. simplify_eq.
    cbn [waiting map fst app] in *. now rewrite Hr.
Qed.

(** An answer is for the front of the moment, whatever came before. *)
Lemma queue_answers_front trace id final q q' : queue_run (trace ++ [Answered id final]) q = Some q' ->
  exists rest q1, queue_run trace q = Some q1 /\ waiting q1 = (id, true) :: rest.
Proof.
  rewrite queue_run_app. destruct (queue_run trace q) as [q1|]; [|done]. simpl.
  destruct (waiting q1) as [|[i []] rest] eqn:E; try done. destruct (Z.eqb_spec id i) as [->|]; [|done]. eauto.
Qed.

(** Weakening obligations is a sequence of [Voided] events. *)
Lemma existsb_id id pre b (post : list (OperationId * bool)) :
  existsb (fun w => w.1 =? id) (pre ++ (id, b) :: post) = true.
Proof. rewrite existsb_app. simpl. rewrite Z.eqb_refl. apply orb_true_r. Qed.

Lemma void_others id (w : list (OperationId * bool)) : id ∉ w.*1 ->
  map (fun w => (w.1, if w.1 =? id then false else w.2)) w = w.
Proof.
  induction w as [|[i b] w IH]; intros Hn; simpl; [done|]. cbn in Hn.
  destruct (Z.eqb_spec i id) as [->|]; [now destruct Hn; left|]. rewrite IH; [done|].
  intros Hi. apply Hn. now right.
Qed.

Definition weakened (e e' : OperationId * bool) : Prop := e'.1 = e.1 /\ (e'.2 = e.2 \/ e'.2 = false).

Lemma void_trace n w w' : Forall2 weakened w w' -> forall pre, NoDup (pre ++ w).*1 ->
  exists ids, queue_run (map Voided ids) (mkQueue (pre ++ w) n) = Some (mkQueue (pre ++ w') n) /\
    (w' = w -> ids = []).
Proof.
  induction 1 as [|[i b] [i' b'] w w' [Hi Hb] Hw IH]; intros pre Hn; [exists []; auto|]. cbn in Hi, Hb. subst i'.
  assert (pre ++ (i, b') :: w = (pre ++ [(i, b')]) ++ w) as Ea by (now rewrite <- app_assoc).
  assert (NoDup ((pre ++ [(i, b')]) ++ w).*1) as Hn'.
  { rewrite <- Ea. rewrite fmap_app in *. exact Hn. }
  destruct (IH _ Hn') as (l & Hl & Hs).
  assert (pre ++ (i, b') :: w' = (pre ++ [(i, b')]) ++ w') as Ea' by (now rewrite <- app_assoc).
  rewrite <- Ea, <- Ea' in Hl. destruct (decide (b' = b)) as [->|Hne].
  { exists l. split; [exact Hl|]. intros [= ->]. now apply Hs. }
  assert (b' = false) as -> by (destruct Hb; congruence).
  exists (i :: l). split; [|intros [=]; congruence]. cbn [map queue_run queue_step waiting fresh].
  rewrite existsb_id, map_app. cbn [map fst snd]. rewrite Z.eqb_refl.
  rewrite fmap_app in Hn. cbn in Hn. apply NoDup_app in Hn as (_ & Hpre & Hpost).
  apply NoDup_cons in Hpost as [Hpost _].
  rewrite !void_others; [exact Hl|exact Hpost|]. intros Hin. apply (Hpre i Hin). left.
Qed.

Lemma voids_only ids : joins (map Voided ids) = [] /\ answers (map Voided ids) = [] /\ voids (map Voided ids) = ids.
Proof.
  unfold joins, answers, voids. induction ids as [|i ids (H1 & H2 & H3)]; [done|].
  cbn [map omap list_omap]. rewrite H3. auto.
Qed.

(** ** The pipeline's queue *)

Definition entry (o : Operation) : OperationId * bool := (op_id o, negb (inert o)).

Lemma entry_discard o : weakened (entry o) (entry (discard o)).
Proof. unfold weakened, entry. rewrite inert_discard. auto. Qed.

Lemma weakened_refl l : Forall2 weakened (map entry l) (map entry l).
Proof. induction l; constructor; [split; auto|done]. Qed.

Lemma weakened_discard_to_sync l : Forall2 weakened (map entry l) (map entry (discard_to_sync l).1).
Proof.
  induction l as [|o l IH]; simpl; [constructor|]. case_decide; [apply (weakened_refl (o :: l))|].
  destruct (discard_to_sync l). constructor; [apply entry_discard|exact IH].
Qed.

Lemma weakened_update_last f l : forall l', update_last f discard l = Some l' ->
  Forall2 weakened (map entry l) (map entry l').
Proof.
  induction l as [|o l IH]; intros l' Hu; simpl in Hu; [done|].
  destruct (update_last f discard l) as [l1|].
  - simplify_eq. constructor; [split; auto|auto].
  - destruct (f o); simplify_eq. constructor; [apply entry_discard|apply weakened_refl].
Qed.

Lemma weakened_copy_sync s k l : Forall2 weakened (map entry l) (map entry (discard_copy_sync s k l)).
Proof.
  unfold discard_copy_sync. destruct s; try apply weakened_refl; destruct k; try apply weakened_refl;
    (destruct (update_last _ discard l) eqn:E; [now apply weakened_update_last in E|apply weakened_refl]).
Qed.

Lemma entries_advance_head m l : map entry (advance_head m l) = map entry l.
Proof.
  destruct l as [|o l]; simpl; [done|]. destruct (project_external _ _ _); [|done].
  now destruct (transition _ _ _).
Qed.

Lemma entries_ids l : (map entry l).*1 = ids_of l.
Proof. induction l as [|o l IH]; simpl; [done|]. f_equal. exact IH. Qed.

Fixpoint skipped (l : list Operation) : list OperationId :=
  match l with [] => [] | o :: l => if inert o then op_id o :: skipped l else [] end.

Lemma skip_trace n l : queue_run (map Skipped (skipped l)) (mkQueue (map entry l) n) =
  Some (mkQueue (map entry (drop_inert l)) n).
Proof.
  induction l as [|o l IH]; simpl; [done|]. unfold entry at 1. destruct (inert o) eqn:Eo; simpl.
  - now rewrite Z.eqb_refl.
  - unfold entry at 2. now rewrite Eo.
Qed.

Lemma skips_only ids : joins (map Skipped ids) = [] /\ answers (map Skipped ids) = [] /\ voids (map Skipped ids) = [].
Proof. unfold joins, answers, voids. induction ids as [|i ids (H1 & H2 & H3)]; [done|]. auto. Qed.

Section Refinement.
Context {P : Type} `{PipelinePolicy P}.
Implicit Type p : Pipeline P.

Definition queue_of p : queue := mkQueue (map entry (operations p)) (next_id p).

(** The identities a step reports for the requests it accepts. *)
Definition admitted (s : pipeline_step) p : list OperationId :=
  match s with
  | AcceptFrontend m h => match (accept_frontend m h p).1 with Ok a => [admission_id a] | _ => [] end
  | AcceptSequence ms h =>
      match prepare_frontend_sequence ms h p with
      | Ok prepared => map (fun i => admission_id (admission i)) prepared.2
      | _ => []
      end
  | AcceptBackend _ | EmitLocal _ _ => []
  end.

Definition ends_copy (m : FrontendMessage) : bool :=
  match m with F_CopyDone | F_CopyFail _ => true | _ => false end.

(** The steps that may relieve an operation of its response: an error, and the end
    of the client's COPY data. *)
Definition relieves (s : pipeline_step) : bool :=
  match s with
  | AcceptFrontend m _ => ends_copy m
  | AcceptSequence ms _ => existsb ends_copy ms
  | AcceptBackend m | EmitLocal _ m => is_error m
  end.

(** [trace] explains the change from [p] to [p']. *)
Definition explains (trace : list queue_event) (out joined : list OperationId) (quiet : bool) p p' : Prop :=
  queue_run trace (queue_of p) = Some (queue_of p') /\ answers trace = out /\ joins trace = joined /\
  (quiet = true -> voids trace = []).

Lemma explains_none quiet p : explains [] [] [] quiet p p.
Proof. done. Qed.

Lemma explains_app t t' o o' j j' q q' p p1 p' : explains t o j q p p1 -> explains t' o' j' q' p1 p' ->
  explains (t ++ t') (o ++ o') (j ++ j') (q && q') p p'.
Proof.
  intros (R1 & A1 & J1 & V1) (R2 & A2 & J2 & V2). unfold explains. rewrite queue_run_app, R1, R2.
  unfold answers, joins, voids in *. rewrite !omap_app, A1, A2, J1, J2. split_and!; try done.
  intros [Hq Hq']%andb_true_iff. now rewrite V1, V2.
Qed.

(** Operations may be relieved, one may join, and the front may leave. *)
Lemma explains_change p p' ids (mid : list queue_event) l l1 :
  queue_run (map Voided ids) (queue_of p) = Some (mkQueue l (next_id p)) ->
  queue_run mid (mkQueue l (next_id p)) = Some (mkQueue (map entry l1) (next_id p')) ->
  operations p' = drop_inert l1 -> voids mid = [] ->
  explains (map Voided ids ++ mid ++ map Skipped (skipped l1)) (answers mid) (joins mid)
    (bool_decide (ids = [])) p p'.
Proof.
  intros Hv Hm Ho Hmv. unfold explains. rewrite queue_run_app, Hv, queue_run_app, Hm, skip_trace.
  destruct (voids_only ids) as (V1 & V2 & V3), (skips_only (skipped l1)) as (S1 & S2 & S3).
  unfold answers, joins, voids in *. rewrite !omap_app, V1, V2, V3, S1, S2, S3, Hmv, !app_nil_r.
  split_and!; [unfold queue_of; now rewrite Ho|done..|]. intros ->%bool_decide_eq_true. done.
Qed.

Definition head_owed p : Prop := match operations p with [] => True | o :: _ => inert o = false end.

Lemma drop_inert_owed l : match drop_inert l with [] => True | o :: _ => inert o = false end.
Proof. induction l as [|o l IH]; simpl; [done|]. now destruct (inert o) eqn:E. Qed.

Definition sound p : Prop := (exists lo, 0 <= lo /\ ordered lo p) /\ head_owed p.

Lemma sorted_NoDup l : StronglySorted Z.lt l -> NoDup l.
Proof.
  induction 1 as [|x l Hs IH Hf]; constructor; [|done]. intros Hx. rewrite Forall_forall in Hf.
  specialize (Hf _ Hx). lia.
Qed.

Lemma sound_NoDup p : sound p -> NoDup (map entry (operations p)).*1.
Proof. intros [(lo & _ & Hs & _) _]. rewrite entries_ids. now apply sorted_NoDup. Qed.

Lemma classify_ends_copy s m k next : classify_frontend s m = Ok (k, next) -> ends_copy m = false ->
  forall l, discard_copy_sync s k l = l.
Proof. destruct s, m; simpl; intros; simplify_eq; try done; now destruct k. Qed.

Lemma frontend_explained m h p a p' : sound p -> next_id p' < U64_MAX -> accept_frontend m h p = (Ok a, p') ->
  sound p' /\ next_id p' = next_id p + 1 /\
  exists trace, explains trace [] [admission_id a] (negb (ends_copy m)) p p'.
Proof.
  intros Hs Hn Ha. pose proof Hs as [(lo & Hlo & Ho) _].
  pose proof (accept_frontend_admission _ _ _ _ _ Ha) as Hid.
  pose proof (accept_frontend_ordered lo _ _ _ _ _ Ho Hn Ha) as [Ho' Hnext].
  apply accept_frontend_ok in Ha as (k & next & Hp & _ & Ep). apply project_frontend_classify in Hp.
  set (ops := discard_copy_sync (request_state p) k (operations p)) in Ep.
  match type of Ep with context [_ ++ [?o]] => set (new := o) in Ep end.
  assert (operations p' = drop_inert (advance_head m ops ++ [new])) as Eops by (now rewrite Ep).
  split; [split; [eauto|unfold head_owed; rewrite Eops; apply drop_inert_owed]|]. split; [done|].
  destruct (void_trace (next_id p) _ _ (weakened_copy_sync (request_state p) k (operations p)) [] (sound_NoDup p Hs))
    as (vs & Hv & Hvs).
  edestruct (explains_change p p' vs [Joined (next_id p) (negb (inert new))] (map entry ops))
    as (R & A & J & V); [exact Hv| |exact Eops|reflexivity|].
  { cbn [queue_run queue_step fresh waiting]. rewrite Z.eqb_refl, Hnext, map_app, entries_advance_head. reflexivity. }
  eexists. split; [exact R|]. split; [exact A|]. split; [rewrite J, Hid; reflexivity|].
  intros Hq%negb_true_iff. apply V, bool_decide_eq_true, Hvs.
  subst ops. now rewrite (classify_ends_copy _ _ _ _ Hp Hq).
Qed.

Lemma sequence_explained ms h : forall p p' items, sound p -> next_id p <= U64_MAX -> next_id p' < U64_MAX ->
  project_sequence ms h p = Ok (p', items) ->
  sound p' /\ exists trace,
    explains trace [] (map (fun i => admission_id (admission i)) items) (negb (existsb ends_copy ms)) p p'.
Proof.
  induction ms as [|m ms IH]; intros p p' items Hs Hu Hn Hp; simpl in Hp.
  { apply Ok_inj in Hp. simplify_eq. split; [assumption|]. exists []. apply explains_none. }
  destruct (negb (is_ok (FrontendMessage_to_frame m))); [done|]. destruct (accept_frontend m h p) as [[a|e|] q] eqn:Ea; [|done..].
  destruct (project_sequence ms h q) as [[q' its]| |] eqn:Es; [|done..]. apply Ok_inj in Hp. simplify_eq.
  pose proof (accept_frontend_next _ _ _ _ _ Ea Hu). pose proof (sequence_next _ _ _ _ _ Es ltac:(lia)).
  apply frontend_explained in Ea as (Hq & _ & t & Ht); [|done|lia].
  destruct (IH _ _ _ Hq ltac:(lia) Hn Es) as (Hs' & t' & Ht'). split; [done|]. exists (t ++ t').
  pose proof (explains_app _ _ _ _ _ _ _ _ _ _ _ Ht Ht') as Hx. cbn [existsb map] in *. now rewrite negb_orb.
Qed.

(** What the answered head owes is settled by its final response. *)
Lemma emit_explained local m p hd s p' r : sound p -> prepare_response local m p = PR_Emit hd s ->
  accept_response local m p = (r, p') ->
  exists trace, explains trace [op_id hd] [] (negb (is_error m)) p p'.
Proof.
  intros Hs Hp Ha. pose proof (accept_response_ids _ _ _ _ _ Ha) as (_ & Hn & _).
  apply commit_emit in Hp as (tl & e & q & Eo & _ & Hd & _ & Hacc & Hops & _). rewrite Hacc in Ha. simplify_eq.
  pose proof (sound_NoDup p Hs) as Hdup. pose proof (proj2 Hs) as Hh. unfold head_owed in Hh. rewrite Eo in Hh, Hdup.
  unfold after_emit in Hops. destruct (response_is_terminal (kind hd) m) eqn:Et.
  - set (rest := if is_error m && is_extended_kind (kind hd) then (discard_to_sync tl).1 else tl) in *.
    assert (Forall2 weakened (map entry tl) (map entry rest)) as Hw
      by (subst rest; destruct (_ && _); [apply weakened_discard_to_sync|apply weakened_refl]).
    destruct (void_trace (next_id p) _ _ Hw [entry hd] Hdup) as (vs & Hv & Hvs).
    assert (queue_of p = mkQueue ([entry hd] ++ map entry tl) (next_id p)) as Eq by (unfold queue_of; now rewrite Eo).
    edestruct (explains_change p p' vs [Answered (op_id hd) true] ([entry hd] ++ map entry rest) rest)
      as (R & A & J & V); [now rewrite Eq| |exact Hops|reflexivity|].
    { cbn [queue_run queue_step waiting app]. unfold entry at 1. rewrite Hh, Hn. cbn [negb]. now rewrite Z.eqb_refl. }
    eexists. split; [exact R|]. split; [exact A|]. split; [exact J|]. intros Hq%negb_true_iff. apply V.
    apply bool_decide_eq_true, Hvs. subst rest. now rewrite Hq.
  - edestruct (explains_change p p' [] [Answered (op_id hd) false] (map entry (operations p))
      (with_response_state (target_of s e) hd :: tl)) as (R & A & J & V); [reflexivity| |exact Hops|reflexivity|].
    { rewrite Eo, Hn. cbn [queue_run queue_step waiting map]. unfold entry at 1. rewrite Hh. cbn [negb].
      rewrite Z.eqb_refl. cbn [fresh]. unfold entry at 3. cbn [op_id with_response_state].
      change (inert (with_response_state (target_of s e) hd)) with (inert hd). reflexivity. }
    eexists. split; [exact R|]. split; [exact A|]. split; [exact J|]. intros _. now apply V.
Qed.

(** A local error that waits behind other operations relieves those after it. *)
Lemma deferred_explained id p : sound p ->
  sound (project_deferred_local_error id p) /\
  exists trace, explains trace [] [] false p (project_deferred_local_error id p).
Proof.
  intros Hs. pose proof Hs as [(lo & Hlo & Ho) Hh].
  destruct (project_deferred_ids id p) as (Ei & En & _). split.
  - split; [exists lo; split; [done|]; unfold ordered; now rewrite Ei, En|].
    unfold head_owed in *. destruct (operations p) as [|hd tl] eqn:Eo.
    + unfold project_deferred_local_error. rewrite Eo. cbn [position]. now rewrite Eo.
    + destruct (project_deferred_head id p hd tl Eo) as [tl' ->]. exact Hh.
  - assert (Forall2 weakened (map entry (operations p)) (map entry (operations (project_deferred_local_error id p)))) as Hw.
    { unfold project_deferred_local_error. destruct (position id (operations p)) as [n|]; [|apply weakened_refl].
      destruct (operations p !! n); [|apply weakened_refl]. destruct (_ || _); [apply weakened_refl|].
      pose proof (weakened_discard_to_sync (drop (S n) (operations p))) as Hd.
      destruct (discard_to_sync _) as [rest b]. cbn [fst] in Hd.
      assert (Forall2 weakened (map entry (operations p)) (map entry (take (S n) (operations p) ++ rest))) as Hr.
      { rewrite <- (take_drop (S n) (operations p)) at 1. rewrite !map_app.
        apply Forall2_app; [apply weakened_refl|exact Hd]. }
      now destruct b. }
    destruct (void_trace (next_id p) _ _ Hw [] (sound_NoDup p Hs)) as (vs & Hv & _). exists (map Voided vs).
    destruct (voids_only vs) as (V1 & V2 & _). unfold explains, queue_of. rewrite En. split_and!; done.
Qed.

Lemma response_explained local m p r p' : sound p -> accept_response local m p = (r, p') ->
  sound p' /\ exists trace, explains trace (emitted local m p) [] (negb (is_error m)) p p'.
Proof.
  intros Hs Ha. destruct (prepare_response local m p) as [|hd s| |] eqn:E.
  2:{ pose proof Hs as [(lo & Hlo & Ho) _]. unfold emitted at 1. rewrite E. split; [|eapply emit_explained; eassumption].
      apply (accept_response_ordered lo) in Ha as Hr; [|done]. destruct Hr as (Hf & _ & Ho' & _). unfold emitted in Hf, Ho'.
      rewrite E in Hf, Ho'. cbn in Ho'. inversion Hf; subst. split; [exists (op_id hd); split; [lia|done]|].
      apply commit_emit in E as (tl & e & q & _ & _ & _ & _ & Hacc & Hops & _). rewrite Hacc in Ha. simplify_eq.
      unfold head_owed. rewrite Hops. apply drop_inert_owed. }
  all: unfold emitted; rewrite E.
  all: destruct (commit_other local m p) as (r' & q & Hacc & _ & [->|(id & _ & _ & He & ->)]);
    [rewrite E; done|rewrite Hacc in Ha; simplify_eq; split; [done|exists []; apply explains_none]|].
  all: rewrite Hacc in Ha; simplify_eq; rewrite He; now apply deferred_explained.
Qed.

Lemma step_explained s p out p' : sound p -> next_id p <= U64_MAX -> next_id p' < U64_MAX ->
  step_pipeline s p = (Some out, p') ->
  sound p' /\ exists trace, explains trace out (admitted s p) (negb (relieves s)) p p'.
Proof.
  intros Hs Hu Hn Hst. destruct s as [m h|ms h|m|id m]; simpl in Hst; unfold admitted, relieves.
  - destruct (accept_frontend m h p) as [[a|e|] q] eqn:Ea; simplify_eq.
    + apply frontend_explained in Ea as (Hq & _ & Hx); auto.
    + apply accept_frontend_fail in Ea as ->; [|done]. split; [done|]. exists []. apply explains_none.
  - unfold prepare_frontend_sequence in *.
    destruct (project_sequence ms h p) as [[q its]| |] eqn:E; simplify_eq/=.
    + eapply sequence_explained; eassumption.
    + split; [done|]. exists []. apply explains_none.
  - destruct (accept_backend m p) as [r q] eqn:Ea. apply response_explained in Ea; [|done]. destruct r; now simplify_eq.
  - destruct (try_emit_local id m p) as [r q] eqn:Ea. apply response_explained in Ea; [|done]. destruct r; now simplify_eq.
Qed.

Lemma run_sound h : forall p out p', sound p -> next_id p <= U64_MAX -> next_id p' < U64_MAX ->
  run_pipeline h p = (Some out, p') -> sound p'.
Proof.
  induction h as [|s h IH]; intros p out p' Hs Hu Hn Hr; simpl in Hr; [now simplify_eq|].
  destruct (step_pipeline s p) as [[o|] q] eqn:Es; [|done].
  destruct (run_pipeline h q) as [[os|] q'] eqn:Er; simpl in Hr; [|done]. simplify_eq.
  pose proof (step_next _ _ _ _ Es Hu). pose proof (run_next _ _ _ _ Er ltac:(lia)).
  apply step_explained in Es as [Hq _]; [|done|done|lia]. eapply IH; [exact Hq|lia|done|exact Er].
Qed.

Lemma sound_new (pol : P) : sound (Pipeline_new pol).
Proof. split; [exists 0; split; [lia|]; split; [constructor|]; split; [constructor|simpl; lia]|done]. Qed.
End Refinement.

(** ** Properties *)

(** C2: The pipeline refines a first-in first-out queue of obligations. From every
    ledger a history reaches, every further operation, accepted or refused, is a
    run of the abstract queue between the two ledgers' queues: the requests it
    accepts join at the back with the fresh identities the caller is given, the
    operations it responds to are the queue's answers, each given to the front
    while the front still owes one, an operation leaves only with its final answer
    or when it owes nothing, and only an error or the end of COPY data relieves an
    operation of its response. (Identities are 64-bit and must not be exhausted.) *)
Theorem pipeline_refines_fifo {P} `{PipelinePolicy P} (pol : P) h out (p : Pipeline P) s responded p' :
  run_pipeline h (Pipeline_new pol) = (Some out, p) -> step_pipeline s p = (Some responded, p') ->
  next_id p' < U64_MAX ->
  exists trace, queue_run trace (queue_of p) = Some (queue_of p') /\
    answers trace = responded /\ joins trace = admitted s p /\ (relieves s = false -> voids trace = []).
Proof.
  intros Hr Hs Hn. pose proof (run_next _ _ _ _ Hr ltac:(simpl; unfold U64_MAX; lia)) as Hb.
  pose proof (step_next _ _ _ _ Hs ltac:(lia)) as Hb'.
  assert (sound p) as Hp by (eapply run_sound; [apply (sound_new pol)|simpl; unfold U64_MAX; lia| |exact Hr]; lia).
  destruct (step_explained s p responded p' Hp ltac:(lia) Hn Hs) as (_ & trace & R & A & J & V).
  exists trace. split_and!; try done. intros Hq. apply V. now rewrite Hq.
Qed.

(** The readiness of the first of two queries is its final answer. *)
Definition two_queries : Pipeline BoundedPipeline :=
  mkPipeline (mkBounded 4) [mkOperation 0 O_Query Forwarded false "Simple"; mkOperation 1 O_Query Forwarded false "Simple"]
    RS_Ready None 2.
Definition one_answered : Pipeline BoundedPipeline :=
  mkPipeline (mkBounded 4) [mkOperation 1 O_Query Forwarded false "Simple"] RS_Ready None 2.

Lemma pipeline_refines_fifo_witness :
  queue_of two_queries = mkQueue [(0, true); (1, true)] 2 /\ queue_of one_answered = mkQueue [(1, true)] 2 /\
  exists trace, queue_run trace (queue_of two_queries) = Some (queue_of one_answered) /\
    answers trace = [0] /\ joins trace = admitted (AcceptBackend (B_ReadyForQuery Idle)) two_queries /\
    (relieves (AcceptBackend (B_ReadyForQuery Idle)) = false -> voids trace = []).
Proof.
  split; [reflexivity|]. split; [reflexivity|].
  apply (pipeline_refines_fifo (mkBounded 4) (take 3 example_history) [0]); vm_compute; reflexivity.
Defined.

(** The queue is not permissive: a second operation is not answered before the
    first, and one that owes a response does not leave unanswered. *)
Example queue_refuses :
  queue_run [Joined 0 true; Joined 1 true; Answered 1 false] (mkQueue [] 0) = None /\
  queue_run [Joined 0 true; Skipped 0] (mkQueue [] 0) = None /\
  queue_run [Joined 1 true] (mkQueue [] 0) = None.
Proof. split_and!; reflexivity. Qed.
