(* ===== verification/Resources.v ===== *)
(** Branded prepared statements and portals with proxy name rewriting:
    the scope of src/resources.rs. A brand is the scope value itself; the
    connection that carries a scope is in ResourceSession. *)

From Stdlib Require Import ZArith Lia String.
From Stdlib Require Import Init.Byte.
From stdpp Require Import prelude gmap.
From S2P Require Import Prelude Wire Frame Frontend Backend.

(** ** Scopes and tokens *)

Record ResourceScope : Type := mkScope {
  statements : gmap bytes Z (* u64 *);
  client_statements : gmap bytes (bytes * Z);
  portals : gmap bytes Z;
  client_portals : gmap bytes (bytes * Z);
  next_generation : Z (* u64 *)
}.

Record PreparedStatement : Type :=
  mkStatement { st_client_name : bytes; st_upstream_name : bytes; st_generation : Z }.

Record Portal : Type :=
  mkPortal { po_client_name : bytes; po_upstream_name : bytes; po_generation : Z }.

Inductive ResourceError : Type :=
| StatementNameCollision | PortalNameCollision | UnknownStatement | UnknownPortal.

Inductive ResourceProtocolError : Type :=
| Resource (e : ResourceError)
| WireError (e : io_error).

Definition scope_new : ResourceScope := mkScope ∅ ∅ ∅ ∅ 0.

Definition is_empty (b : bytes) : bool := match b with [] => true | _ => false end.

(** [client.retain(|_, (upstream, _)| !upstream.is_empty())] *)
Definition retain_named (m : gmap bytes (bytes * Z)) : gmap bytes (bytes * Z) :=
  filter (fun kv => is_empty kv.2.1 = false) m.

Definition simple_query_boundary (s : ResourceScope) : ResourceScope :=
  mkScope (delete [] (statements s)) (retain_named (client_statements s)) (portals s) (client_portals s)
    (next_generation s).

Definition transaction_ended (s : ResourceScope) : ResourceScope :=
  mkScope (statements s) (client_statements s) (delete [] (portals s)) (retain_named (client_portals s))
    (next_generation s).

Definition contains_key {A} (k : bytes) (m : gmap bytes A) : bool := bool_decide (is_Some (m !! k)).

Definition allocate (client_name upstream_name : bytes) (statement : bool) (s : ResourceScope)
    : result Z ResourceError * ResourceScope :=
  let resources := if statement then statements s else portals s in
  let client_resources := if statement then client_statements s else client_portals s in
  if (negb (is_empty upstream_name) && contains_key upstream_name resources) ||
     (negb (is_empty client_name) && contains_key client_name client_resources)
  then (Err (if statement then StatementNameCollision else PortalNameCollision), s)
  else
    (Ok (next_generation s),
     mkScope (statements s) (client_statements s) (portals s) (client_portals s)
       (saturating_add U64_MAX (next_generation s) 1)).

Definition prepare (client_name upstream_name query : bytes) (parameter_types : list Z) (s : ResourceScope)
    : result (PreparedStatement * Parse) ResourceError * ResourceScope :=
  match allocate client_name upstream_name true s with
  | (Err e, s) => (Err e, s)
  | (Panic, s) => (Panic, s)
  | (Ok generation, s) =>
      let replaced := statements s !! upstream_name in
      let s := mkScope (<[upstream_name := generation]> (statements s)) (client_statements s)
                 (portals s) (client_portals s) (next_generation s) in
      if bool_decide (is_Some replaced) && negb (is_empty upstream_name)
      then (Err StatementNameCollision, s)
      else
        let s := mkScope (statements s) (<[client_name := (upstream_name, generation)]> (client_statements s))
                   (portals s) (client_portals s) (next_generation s) in
        (Ok (mkStatement client_name upstream_name generation, mkParse upstream_name query parameter_types), s)
  end.

(** [self.statements.get(&token.upstream_name) == Some(&token.generation)] *)
Definition statement_is_live (t : PreparedStatement) (s : ResourceScope) : bool :=
  bool_decide (statements s !! st_upstream_name t = Some (st_generation t)).
Definition portal_is_live (t : Portal) (s : ResourceScope) : bool :=
  bool_decide (portals s !! po_upstream_name t = Some (po_generation t)).

Definition bind (statement : PreparedStatement) (client_name upstream_name : bytes)
    (parameter_formats : list Z) (parameters : list (option bytes)) (result_formats : list Z)
    (s : ResourceScope) : result (Portal * Bind) ResourceError * ResourceScope :=
  if negb (statement_is_live statement s) then (Err UnknownStatement, s)
  else
    match allocate client_name upstream_name false s with
    | (Err e, s) => (Err e, s)
    | (Panic, s) => (Panic, s)
    | (Ok generation, s) =>
        let replaced := portals s !! upstream_name in
        let s := mkScope (statements s) (client_statements s) (<[upstream_name := generation]> (portals s))
                   (client_portals s) (next_generation s) in
        if bool_decide (is_Some replaced) && negb (is_empty upstream_name)
        then (Err PortalNameCollision, s)
        else
          let s := mkScope (statements s) (client_statements s) (portals s)
                     (<[client_name := (upstream_name, generation)]> (client_portals s)) (next_generation s) in
          (Ok (mkPortal client_name upstream_name generation,
               mkBind upstream_name (st_upstream_name statement) parameter_formats parameters result_formats), s)
    end.

(** [retain(|_, (upstream, generation)| upstream != name || *generation != gen)] *)
Definition retain_other (name : bytes) (gen : Z) (m : gmap bytes (bytes * Z)) : gmap bytes (bytes * Z) :=
  filter (fun kv => kv.2.1 <> name \/ kv.2.2 <> gen) m.

Definition close_statement (t : PreparedStatement) (s : ResourceScope)
    : result Close ResourceError * ResourceScope :=
  if negb (statement_is_live t s) then (Err UnknownStatement, s)
  else
    (Ok (mkClose Statement (st_upstream_name t)),
     mkScope (delete (st_upstream_name t) (statements s))
       (retain_other (st_upstream_name t) (st_generation t) (client_statements s))
       (portals s) (client_portals s) (next_generation s)).

Definition close_portal (t : Portal) (s : ResourceScope) : result Close ResourceError * ResourceScope :=
  if negb (portal_is_live t s) then (Err UnknownPortal, s)
  else
    (Ok (mkClose Frontend.Portal (po_upstream_name t)),
     mkScope (statements s) (client_statements s) (delete (po_upstream_name t) (portals s))
       (retain_other (po_upstream_name t) (po_generation t) (client_portals s)) (next_generation s)).

Definition execute (t : Portal) (max_rows : Z) (s : ResourceScope) : result Execute ResourceError :=
  if negb (portal_is_live t s) then Err UnknownPortal else Ok (mkExecute (po_upstream_name t) max_rows).

Definition describe_portal (t : Portal) (s : ResourceScope) : result Describe ResourceError :=
  if negb (portal_is_live t s) then Err UnknownPortal
  else Ok (mkDescribe Frontend.Portal (po_upstream_name t)).

Definition describe_statement (t : PreparedStatement) (s : ResourceScope) : result Describe ResourceError :=
  if negb (statement_is_live t s) then Err UnknownStatement
  else Ok (mkDescribe Statement (st_upstream_name t)).

Definition statement (client_name : bytes) (s : ResourceScope) : option PreparedStatement :=
  (fun ug => mkStatement client_name ug.1 ug.2) <$> client_statements s !! client_name.

Definition portal (client_name : bytes) (s : ResourceScope) : option Portal :=
  (fun ug => mkPortal client_name ug.1 ug.2) <$> client_portals s !! client_name.

(** The transaction boundary that [resource_ready] takes: a clean state and an
    idle dirty one end the transaction. *)
Definition ready_boundary (clean : bool) (status : TransactionStatus) (s : ResourceScope) : ResourceScope :=
  if clean then transaction_ended s
  else if decide (status = Idle) then transaction_ended s else s.

(** [cstr_frame] of src/session.rs. *)
Definition cstr_frame (tag : byte) (value : bytes) : io Frame :=
  if decide (x00 ∈ value) then Err (mkError InvalidInput "message string contains a NUL byte")
  else Ok (mkFrame tag (put_u8 x00 ([] ++ value))).

(** ** Histories of a scope *)

Inductive scope_op : Type :=
| OpPrepare (client_name upstream_name query : bytes) (parameter_types : list Z)
| OpBind (st : PreparedStatement) (client_name upstream_name : bytes)
    (parameter_formats : list Z) (parameters : list (option bytes)) (result_formats : list Z)
| OpCloseStatement (st : PreparedStatement)
| OpClosePortal (po : Portal)
| OpSimpleQuery
| OpReady (clean : bool) (status : TransactionStatus).

Definition scope_step (op : scope_op) (s : ResourceScope) : ResourceScope :=
  match op with
  | OpPrepare c u q ts => (prepare c u q ts s).2
  | OpBind st c u fs ps rs => (bind st c u fs ps rs s).2
  | OpCloseStatement st => (close_statement st s).2
  | OpClosePortal po => (close_portal po s).2
  | OpSimpleQuery => simple_query_boundary s
  | OpReady clean status => ready_boundary clean status s
  end.

Definition run_scope (ops : list scope_op) (s : ResourceScope) : ResourceScope :=
  foldl (fun s op => scope_step op s) s ops.

(** *** One namespace: live names with generations, and client names *)

(** Generations in use are below [next]; client names have distinct ones. *)
Definition namespace_ok (live : gmap bytes Z) (clients : gmap bytes (bytes * Z)) (next : Z) : Prop :=
  map_Forall (fun _ g => g < next) live /\ map_Forall (fun _ ug => ug.2 < next) clients /\
  forall c1 c2 u1 u2 g, clients !! c1 = Some (u1, g) -> clients !! c2 = Some (u2, g) -> c1 = c2.

Definition scope_ok (s : ResourceScope) : Prop :=
  namespace_ok (statements s) (client_statements s) (next_generation s) /\
  namespace_ok (portals s) (client_portals s) (next_generation s).

Lemma namespace_mono live clients n n' : n <= n' -> namespace_ok live clients n -> namespace_ok live clients n'.
Proof.
  intros Hn (H1 & H2 & H3). split; [|split; [|done]].
  - intros k g Hk. specialize (H1 k g Hk). simpl in H1. lia.
  - intros k ug Hk. specialize (H2 k ug Hk). simpl in H2. lia.
Qed.

Lemma namespace_insert live clients n c u :
  namespace_ok live clients n -> namespace_ok (<[u := n]> live) (<[c := (u, n)]> clients) (n + 1).
Proof.
  intros (H1 & H2 & H3). split; [|split].
  - intros k g. rewrite lookup_insert_Some. intros [[_ <-]|[_ Hk]]; [lia|]. specialize (H1 k g Hk). simpl in H1. lia.
  - intros k ug. rewrite lookup_insert_Some. intros [[_ <-]|[_ Hk]]; simpl; [lia|]. specialize (H2 k ug Hk). simpl in H2. lia.
  - assert (forall c' u', clients !! c' = Some (u', n) -> False) as Hfresh.
    { intros c' u' Hc. specialize (H2 c' _ Hc). simpl in H2. lia. }
    intros c1 c2 u1 u2 g. rewrite !lookup_insert_Some.
    intros [[<- E1]|[_ E1]] [[<- E2]|[_ E2]]; simplify_eq; eauto; exfalso; eapply Hfresh; eassumption.
Qed.

Lemma namespace_delete live clients n u (Q : bytes * (bytes * Z) -> Prop) `{!forall x, Decision (Q x)} :
  namespace_ok live clients n -> namespace_ok (delete u live) (filter Q clients) n.
Proof.
  intros (H1 & H2 & H3). split; [|split].
  - intros k g. rewrite lookup_delete_Some. intros [_ Hk]. exact (H1 k g Hk).
  - intros k ug. rewrite map_lookup_filter_Some. intros [Hk _]. exact (H2 k ug Hk).
  - intros c1 c2 u1 u2 g. rewrite !map_lookup_filter_Some. intros [E1 _] [E2 _]. eauto.
Qed.

Lemma allocate_cases c u b s :
  (exists e, allocate c u b s = (Err e, s)) \/
  (allocate c u b s = (Ok (next_generation s),
     mkScope (statements s) (client_statements s) (portals s) (client_portals s)
       (saturating_add U64_MAX (next_generation s) 1)) /\
   (is_empty u = false -> (if b then statements s else portals s) !! u = None) /\
   (is_empty c = false -> (if b then client_statements s else client_portals s) !! c = None)).
Proof.
  unfold allocate. destruct (_ || _) eqn:E; [eauto|]. right. apply orb_false_iff in E as [E1 E2].
  split; [done|]. unfold contains_key in *. split; intros Hne; [rewrite Hne in E1|rewrite Hne in E2]; simpl in *.
  - apply bool_decide_eq_false, eq_None_not_Some in E1. done.
  - apply bool_decide_eq_false, eq_None_not_Some in E2. done.
Qed.

(** [prepare] either leaves the scope alone or adds one fresh generation. *)
Lemma prepare_cases c u q ts s :
  (exists e, prepare c u q ts s = (Err e, s)) \/
  (prepare c u q ts s =
     (Ok (mkStatement c u (next_generation s), mkParse u q ts),
      mkScope (<[u := next_generation s]> (statements s)) (<[c := (u, next_generation s)]> (client_statements s))
        (portals s) (client_portals s) (saturating_add U64_MAX (next_generation s) 1)) /\
   (is_empty u = false -> statements s !! u = None) /\ (is_empty c = false -> client_statements s !! c = None)).
Proof.
  unfold prepare. destruct (allocate_cases c u true s) as [[e ->]|(-> & Hu & Hc)]; [eauto|]. simpl.
  destruct (is_empty u) eqn:Eu; simpl.
  - rewrite andb_false_r. right. done.
  - rewrite (Hu eq_refl). rewrite bool_decide_eq_false_2; [|now intros []]. right. done.
Qed.

Lemma bind_cases st c u fs ps rs s :
  (exists e, bind st c u fs ps rs s = (Err e, s)) \/
  (bind st c u fs ps rs s =
     (Ok (mkPortal c u (next_generation s), mkBind u (st_upstream_name st) fs ps rs),
      mkScope (statements s) (client_statements s) (<[u := next_generation s]> (portals s))
        (<[c := (u, next_generation s)]> (client_portals s)) (saturating_add U64_MAX (next_generation s) 1)) /\
   statement_is_live st s = true /\
   (is_empty u = false -> portals s !! u = None) /\ (is_empty c = false -> client_portals s !! c = None)).
Proof.
  unfold bind. destruct (statement_is_live st s) eqn:Es; simpl; [|eauto].
  destruct (allocate_cases c u false s) as [[e ->]|(-> & Hu & Hc)]; [eauto|]. simpl.
  destruct (is_empty u) eqn:Eu; simpl.
  - rewrite andb_false_r. right. done.
  - rewrite (Hu eq_refl). rewrite bool_decide_eq_false_2; [|now intros []]. right. done.
Qed.

(** What a step does to the generation counter and to the live maps: new entries
    carry the step's fresh generation. *)
Lemma scope_step_next op s : next_generation s <= U64_MAX ->
  next_generation s <= next_generation (scope_step op s) <= U64_MAX.
Proof.
  intros Hn. destruct op as [c u q ts|st c u fs ps rs|st|po| |clean status]; simpl.
  - destruct (prepare_cases c u q ts s) as [[e ->]|[-> _]]; simpl; unfold saturating_add; lia.
  - destruct (bind_cases st c u fs ps rs s) as [[e ->]|[-> _]]; simpl; unfold saturating_add; lia.
  - unfold close_statement. destruct (negb _); simpl; lia.
  - unfold close_portal. destruct (negb _); simpl; lia.
  - lia.
  - unfold ready_boundary. destruct clean; [simpl; lia|]. case_decide; simpl; lia.
Qed.

Lemma run_scope_next ops : forall s, next_generation s <= U64_MAX ->
  next_generation s <= next_generation (run_scope ops s) <= U64_MAX.
Proof.
  induction ops as [|op ops IH]; intros s Hn; [simpl; lia|].
  change (run_scope (op :: ops) s) with (run_scope ops (scope_step op s)).
  pose proof (scope_step_next op s Hn). specialize (IH (scope_step op s)). lia.
Qed.

Lemma scope_step_ok op s : next_generation (scope_step op s) < U64_MAX -> next_generation s <= U64_MAX ->
  scope_ok s -> scope_ok (scope_step op s).
Proof.
  intros Hlt Hle [Hs Hp]. pose proof (scope_step_next op s Hle) as Hmono.
  destruct op as [c u q ts|st c u fs ps rs|st|po| |clean status]; simpl in *.
  - destruct (prepare_cases c u q ts s) as [[e E]|[E _]]; rewrite E in *; [done|]. simpl in *.
    unfold saturating_add in *. replace (U64_MAX `min` (next_generation s + 1)) with (next_generation s + 1) by lia.
    split; simpl; [now apply namespace_insert|]. eapply namespace_mono; [|exact Hp]. lia.
  - destruct (bind_cases st c u fs ps rs s) as [[e E]|[E _]]; rewrite E in *; [done|]. simpl in *.
    unfold saturating_add in *. replace (U64_MAX `min` (next_generation s + 1)) with (next_generation s + 1) by lia.
    split; simpl; [|now apply namespace_insert]. eapply namespace_mono; [|exact Hs]. lia.
  - unfold close_statement in *. destruct (negb _); [done|]. split; [now apply namespace_delete|done].
  - unfold close_portal in *. destruct (negb _); [done|]. split; [done|now apply namespace_delete].
  - split; [now apply namespace_delete|done].
  - unfold ready_boundary in *. destruct clean; [split; [done|now apply namespace_delete]|].
    case_decide; [split; [done|now apply namespace_delete]|done].
Qed.

Lemma run_scope_ok ops : forall s, next_generation s <= U64_MAX -> next_generation (run_scope ops s) < U64_MAX ->
  scope_ok s -> scope_ok (run_scope ops s).
Proof.
  induction ops as [|op ops IH]; intros s Hle Hlt Hok; [done|].
  change (run_scope (op :: ops) s) with (run_scope ops (scope_step op s)) in *.
  pose proof (scope_step_next op s Hle). pose proof (run_scope_next ops (scope_step op s) ltac:(lia)).
  apply IH; [lia|done|]. apply scope_step_ok; [lia|done|done].
Qed.

(** A generation that is no longer live under its name never becomes live again. *)
Lemma scope_step_stale op s u g : g < next_generation s ->
  (statements s !! u <> Some g -> statements (scope_step op s) !! u <> Some g) /\
  (portals s !! u <> Some g -> portals (scope_step op s) !! u <> Some g).
Proof.
  intros Hg. assert (forall (m : gmap bytes Z) k, m !! u <> Some g -> <[k := next_generation s]> m !! u <> Some g) as Hins.
  { intros m k Hm. rewrite lookup_insert_Some. intros [[_ <-]|[_ ?]]; [lia|done]. }
  assert (forall (m : gmap bytes Z) k, m !! u <> Some g -> delete k m !! u <> Some g) as Hdel.
  { intros m k Hm. rewrite lookup_delete_Some. intros [_ ?]. done. }
  destruct op as [c u' q ts|st c u' fs ps rs|st|po| |clean status]; simpl.
  - destruct (prepare_cases c u' q ts s) as [[e ->]|[-> _]]; simpl; auto.
  - destruct (bind_cases st c u' fs ps rs s) as [[e ->]|[-> _]]; simpl; auto.
  - unfold close_statement. destruct (negb _); simpl; auto.
  - unfold close_portal. destruct (negb _); simpl; auto.
  - simpl; auto.
  - unfold ready_boundary. destruct clean; [simpl; auto|]. case_decide; simpl; auto.
Qed.

Lemma run_scope_stale ops : forall s u g, next_generation s <= U64_MAX -> g < next_generation s ->
  (statements s !! u <> Some g -> statements (run_scope ops s) !! u <> Some g) /\
  (portals s !! u <> Some g -> portals (run_scope ops s) !! u <> Some g).
Proof.
  induction ops as [|op ops IH]; intros s u g Hn Hg; [done|].
  change (run_scope (op :: ops) s) with (run_scope ops (scope_step op s)).
  destruct (scope_step_stale op s u g Hg) as [H1 H2]. pose proof (scope_step_next op s Hn).
  destruct (IH (scope_step op s) u g ltac:(lia) ltac:(lia)) as [H3 H4]. auto.
Qed.

(** ** Properties *)

(** Stale tokens stay stale. A statement or portal token whose resource was
    closed, replaced or destroyed is never live again, whatever is prepared,
    bound or closed afterwards, even under the same name; so it can be neither
    bound, described, executed nor closed. *)
Theorem stale_tokens_stay_stale s ops st po m :
  next_generation s <= U64_MAX ->
  st_generation st < next_generation s -> po_generation po < next_generation s ->
  statement_is_live st s = false -> portal_is_live po s = false ->
  let s' := run_scope ops s in
  describe_statement st s' = Err UnknownStatement /\ close_statement st s' = (Err UnknownStatement, s') /\
  (forall c u fs ps rs, bind st c u fs ps rs s' = (Err UnknownStatement, s')) /\
  execute po m s' = Err UnknownPortal /\ describe_portal po s' = Err UnknownPortal /\
  close_portal po s' = (Err UnknownPortal, s').
Proof.
  intros Hn Hst Hpo Hs Hp s'. apply bool_decide_eq_false in Hs, Hp.
  assert (statement_is_live st s' = false) as Hs'.
  { apply bool_decide_eq_false. now apply run_scope_stale. }
  assert (portal_is_live po s' = false) as Hp'.
  { apply bool_decide_eq_false. now apply run_scope_stale. }
  unfold describe_statement, close_statement, bind, execute, describe_portal, close_portal.
  now rewrite Hs', Hp'.
Qed.

Lemma stale_tokens_stay_stale_witness :
  let s := run_scope [OpPrepare [] [] [] []; OpPrepare [] [] [] []] scope_new in
  describe_statement (mkStatement [] [] 0) (run_scope [OpSimpleQuery; OpPrepare [] [] [] []] s) = Err UnknownStatement.
Proof.
  apply (stale_tokens_stay_stale (run_scope [OpPrepare [] [] [] []; OpPrepare [] [] [] []] scope_new)
    [OpSimpleQuery; OpPrepare [] [] [] []] (mkStatement [] [] 0) (mkPortal [] [] 0) 0);
    vm_compute; congruence.
Defined.

(** Name rewriting is injective on live resources. After any history, two
    client names that resolve to live tokens of the same upstream statement (or
    portal) are the same name. *)
Theorem live_names_injective ops c1 c2 :
  next_generation (run_scope ops scope_new) < U64_MAX ->
  (forall t1 t2, statement c1 (run_scope ops scope_new) = Some t1 -> statement c2 (run_scope ops scope_new) = Some t2 ->
     statement_is_live t1 (run_scope ops scope_new) = true -> statement_is_live t2 (run_scope ops scope_new) = true ->
     st_upstream_name t1 = st_upstream_name t2 -> c1 = c2) /\
  (forall t1 t2, portal c1 (run_scope ops scope_new) = Some t1 -> portal c2 (run_scope ops scope_new) = Some t2 ->
     portal_is_live t1 (run_scope ops scope_new) = true -> portal_is_live t2 (run_scope ops scope_new) = true ->
     po_upstream_name t1 = po_upstream_name t2 -> c1 = c2).
Proof.
  intros Hn. assert (scope_ok scope_new) as H0 by (split; (split_and!; [done|done|intros; done])).
  pose proof (run_scope_ok ops scope_new ltac:(vm_compute; congruence) Hn H0) as [(_ & _ & Hs) (_ & _ & Hp)].
  split; intros t1 t2; [unfold statement, statement_is_live|unfold portal, portal_is_live];
    rewrite !fmap_Some, !bool_decide_eq_true; intros ([u1 g1] & E1 & ->) ([u2 g2] & E2 & ->); simpl;
    intros L1 L2 <-; rewrite L1 in L2; simplify_eq; eauto.
Qed.

Lemma live_names_injective_witness :
  next_generation (run_scope [OpPrepare [x61] [x31] [] []; OpPrepare [x62] [x32] [] []] scope_new) = 2 /\
  ([x61] = [x62] \/ forall t1 t2, statement [x61] (run_scope [OpPrepare [x61] [x31] [] []; OpPrepare [x62] [x32] [] []] scope_new) = Some t1 ->
     statement [x62] (run_scope [OpPrepare [x61] [x31] [] []; OpPrepare [x62] [x32] [] []] scope_new) = Some t2 ->
     st_upstream_name t1 <> st_upstream_name t2).
Proof.
  split; [vm_compute; reflexivity|]. right. intros t1 t2 E1 E2 Eu.
  destruct (live_names_injective [OpPrepare [x61] [x31] [] []; OpPrepare [x62] [x32] [] []] [x61] [x62]) as [Hs _];
    [vm_compute; reflexivity|].
  assert ([x61] = [x62]) as Hc; [|discriminate Hc].
  apply (Hs t1 t2 E1 E2); [| |exact Eu].
  - vm_compute in E1. injection E1 as <-. vm_compute. reflexivity.
  - vm_compute in E2. injection E2 as <-. vm_compute. reflexivity.
Defined.

(** Preparing and binding. Each fails, leaving the scope as it was, when a
    named upstream or client name is taken (or the statement is stale); otherwise
    the client name resolves to the new, live token, the message carries the
    upstream names, and no named resource is replaced. *)
Theorem prepare_bind_exact c u q ts st fs ps rs s :
  match prepare c u q ts s with
  | (Ok (t, m), s') =>
      statement c s' = Some t /\ statement_is_live t s' = true /\ m = mkParse u q ts /\
      (forall u', is_empty u' = false -> is_Some (statements s !! u') -> statements s' !! u' = statements s !! u')
  | (Err e, s') => s' = s /\ e = StatementNameCollision
  | (Panic, _) => False
  end /\
  match bind st c u fs ps rs s with
  | (Ok (t, m), s') =>
      portal c s' = Some t /\ portal_is_live t s' = true /\ statement_is_live st s = true /\
      m = mkBind u (st_upstream_name st) fs ps rs /\
      (forall u', is_empty u' = false -> is_Some (portals s !! u') -> portals s' !! u' = portals s !! u')
  | (Err e, s') => s' = s /\ (e = PortalNameCollision \/ e = UnknownStatement /\ statement_is_live st s = false)
  | (Panic, _) => False
  end.
Proof.
  split.
  - destruct (prepare_cases c u q ts s) as [[e E]|(-> & Hu & Hc)].
    + rewrite E. split; [done|]. unfold prepare, allocate in E. repeat case_match; simplify_eq; done.
    + unfold statement, statement_is_live. simpl. rewrite !lookup_insert_eq. simpl. split_and!; try done.
      * now apply bool_decide_eq_true.
      * intros u' He [g Hg]. rewrite lookup_insert_ne; [done|]. intros ->. now rewrite (Hu He) in Hg.
  - destruct (bind_cases st c u fs ps rs s) as [[e E]|(-> & Hl & Hu & Hc)].
    + rewrite E. split; [done|]. unfold bind, allocate in E.
      destruct (statement_is_live st s); simpl in E; [left; repeat case_match; simplify_eq; done|].
      right. now simplify_eq.
    + unfold portal, portal_is_live. simpl. rewrite !lookup_insert_eq. simpl. split_and!; try done.
      * now apply bool_decide_eq_true.
      * intros u' He [g Hg]. rewrite lookup_insert_ne; [done|]. intros ->. now rewrite (Hu He) in Hg.
Qed.

(** What boundaries destroy. A simple query ends exactly the live tokens of
    the unnamed upstream statement, the end of a transaction exactly those of the
    unnamed portal; closing a live token ends exactly that resource, and its
    client names stop resolving to it. *)
Theorem resource_boundaries s st po t :
  statement_is_live st (simple_query_boundary s) =
    (statement_is_live st s && negb (is_empty (st_upstream_name st))) /\
  portal_is_live po (simple_query_boundary s) = portal_is_live po s /\
  portal_is_live po (transaction_ended s) = (portal_is_live po s && negb (is_empty (po_upstream_name po))) /\
  statement_is_live st (transaction_ended s) = statement_is_live st s /\
  (statement_is_live t s = true ->
     statement_is_live st (close_statement t s).2 =
       (statement_is_live st s && negb (bool_decide (st_upstream_name st = st_upstream_name t))) /\
     forall c t', statement c (close_statement t s).2 = Some t' ->
       (st_upstream_name t', st_generation t') <> (st_upstream_name t, st_generation t)).
Proof.
  assert (forall (m : gmap bytes Z) (k u : bytes) (g : Z),
    bool_decide (delete k m !! u = Some g) = bool_decide (m !! u = Some g) && negb (bool_decide (u = k))) as Hdel.
  { intros m k u g. destruct (decide (u = k)) as [->|Hne].
    - rewrite lookup_delete_eq, (bool_decide_eq_true_2 (k = k)), andb_false_r by done. now apply bool_decide_eq_false_2.
    - rewrite lookup_delete_ne, (bool_decide_eq_false_2 (u = k)), andb_true_r by done. done. }
  assert (forall (u : bytes) (D : Decision (u = [])), bool_decide (u = []) = is_empty u) as Hemp.
  { intros [] D; [now apply bool_decide_eq_true|now apply bool_decide_eq_false]. }
  unfold statement_is_live, portal_is_live. simpl. rewrite !Hdel, !Hemp. split_and!; try done.
  intros Ht. unfold close_statement, statement_is_live. rewrite Ht. simpl. rewrite Hdel. split; [done|].
  intros c t'. unfold statement. simpl. rewrite fmap_Some. intros ([u g] & E & ->). simpl.
  apply map_lookup_filter_Some in E as [_ Hor]. simpl in Hor. intros E. injection E as -> ->. tauto.
Qed.
