(* ===== verification/Transport.v ===== *)
(** The buffered transport of src/transport.rs: outbound buffering and
    flushing, the receive loops over the incremental decoders, the session
    stream behind the demultiplexer, and the TLS upgrade guard. *)

From Stdlib Require Import ZArith Lia String.
From Stdlib Require Import Init.Byte.
From stdpp Require Import prelude.
From S2P Require Import Prelude OrdMap Wire Frame Frontend Startup PreStartup Backend Demux.

(** ** The byte stream underneath

    [tokio]'s [AsyncRead] and [AsyncWrite]. An operation is polled: it is ready
    with a result or pending, and every poll may change the stream. A ready
    read yields the bytes it appended to the buffer, none at end of input. *)
Inductive Poll (A : Type) : Type :=
| Ready (a : A)
| Pending.
Arguments Ready {A} a.
Arguments Pending {A}.

Class AsyncIo (S : Type) : Type := {
  poll_read : S -> Poll (io bytes) * S;
  poll_read_u8 : S -> Poll (io byte) * S;
  poll_write : bytes -> S -> Poll (io Z) * S;
  poll_flush : S -> Poll (io unit) * S
}.

(** The documented contract of the two traits, on the bytes taken from the
    stream and the bytes accepted by it so far. A pending or failed operation
    moves no byte; a write accepts a prefix of what it was offered. *)
Class AsyncIoLaws (S : Type) `{AsyncIo S} (taken sent : S -> bytes) : Prop := {
  read_law s r s' : poll_read s = (r, s') ->
    sent s' = sent s /\ taken s' = taken s ++ (match r with Ready (Ok chunk) => chunk | _ => [] end);
  read_u8_law s r s' : poll_read_u8 s = (r, s') ->
    sent s' = sent s /\ taken s' = taken s ++ (match r with Ready (Ok reply) => [reply] | _ => [] end);
  write_law offered s r s' : poll_write offered s = (r, s') ->
    r <> Ready Panic /\ taken s' = taken s /\
    exists n, (n <= length offered)%nat /\ sent s' = sent s ++ take n offered /\
      match r with Ready (Ok k) => k = Z.of_nat n | _ => n = 0%nat end;
  flush_law s r s' : poll_flush s = (r, s') ->
    r <> Ready Panic /\ taken s' = taken s /\ sent s' = sent s
}.

(** ** The transport *)

Record Buffered (S : Type) : Type := mkBuffered {
  stream : S;
  outbound : bytes;
  inbound : bytes;
  inbound_codec : PgCodec;
  max_pre_startup_packet_len : Z (* usize *);
  demux : Demux
}.
Arguments mkBuffered {S}.
Arguments stream {S} _.
Arguments outbound {S} _.
Arguments inbound {S} _.
Arguments inbound_codec {S} _.
Arguments max_pre_startup_packet_len {S} _.
Arguments demux {S} _.

Section Buffers.
Context {S : Type}.
Implicit Types (b : Buffered S).

Definition set_stream (s : S) b : Buffered S :=
  mkBuffered s (outbound b) (inbound b) (inbound_codec b) (max_pre_startup_packet_len b) (demux b).
Definition set_outbound (o : bytes) b : Buffered S :=
  mkBuffered (stream b) o (inbound b) (inbound_codec b) (max_pre_startup_packet_len b) (demux b).
Definition set_inbound (i : bytes) b : Buffered S :=
  mkBuffered (stream b) (outbound b) i (inbound_codec b) (max_pre_startup_packet_len b) (demux b).
Definition set_demux (d : Demux) b : Buffered S :=
  mkBuffered (stream b) (outbound b) (inbound b) (inbound_codec b) (max_pre_startup_packet_len b) d.

Definition Buffered_new (s : S) : Buffered S :=
  mkBuffered s [] [] PgCodec_default DEFAULT_MAX_PRE_STARTUP_PACKET_LEN Demux_default.

Definition Buffered_with_max_frame_len (s : S) (max_frame_len : Z) : io (Buffered S) :=
  let? codec := with_max_frame_len max_frame_len in
  Ok (mkBuffered s [] [] codec DEFAULT_MAX_PRE_STARTUP_PACKET_LEN Demux_default).

Definition with_limits_frontend (s : S) (max_frame_len max_pre_startup_packet_len : Z)
    : io (Buffered S) :=
  if negb (contains 8 I32_MAX max_pre_startup_packet_len)
  then Err (invalid_input "pre-startup packet limit must be between 8 and i32::MAX bytes")
  else
    let? codec := with_max_frame_len max_frame_len in
    Ok (mkBuffered s [] [] codec max_pre_startup_packet_len Demux_default).

Definition with_max_frame_len_frontend (s : S) (max_frame_len : Z) : io (Buffered S) :=
  with_limits_frontend s max_frame_len DEFAULT_MAX_PRE_STARTUP_PACKET_LEN.

(** Encoding tests the frame before it writes: an error leaves the buffer. *)
Definition push (frame : Frame) b : io unit * Buffered S :=
  match PgCodec_encode (inbound_codec b) frame (outbound b) with
  | Ok o => (Ok tt, set_outbound o b)
  | Err e => (Err e, b)
  | Panic => (Panic, b)
  end.

Definition push_raw (raw : bytes) b : Buffered S := set_outbound (outbound b ++ raw) b.

(** The TLS handshake itself is the argument [handshake]. *)
Definition upgrade_tls {S'} (handshake : S -> io S') b : io (Buffered S') :=
  if negb (bool_decide (outbound b = [])) || negb (bool_decide (inbound b = []))
  then Err (invalid_input "TLS upgrade requires empty plaintext buffers")
  else
    let? s := handshake (stream b) in
    Ok (mkBuffered s (outbound b) (inbound b) (inbound_codec b) (max_pre_startup_packet_len b) (demux b)).

Definition connect_tls {S'} : (S -> io S') -> Buffered S -> io (Buffered S') := upgrade_tls.
Definition accept_tls {S'} : (S -> io S') -> Buffered S -> io (Buffered S') := upgrade_tls.

Definition project_backend (m : BackendMessage) b : option SessionItem * Buffered S :=
  let (item, d) := route m (demux b) in (item, set_demux d b).

End Buffers.

(** ** The loops

    [None] as the outcome of a loop is a future that has not finished within
    the given number of steps. At an await that is pending, [cancelled] says
    whether the caller drops the future there and calls the operation again,
    or waits and has it polled again. *)
Section Loops.
Context {S : Type} `{AsyncIo S}.
Implicit Types (b : Buffered S) (cancelled : nat -> bool).

(** [while !self.outbound.is_empty()], then [self.io.flush()]. A dropped and a
    waiting flush both resume at the loop test, whose await is the same write:
    once the buffer is empty only the flush of the stream is left. *)
Fixpoint flush (fuel : nat) b : option (io unit) * Buffered S :=
  match fuel with
  | O => (None, b)
  | Datatypes.S fuel =>
      match outbound b with
      | [] =>
          match poll_flush (stream b) with
          | (Ready r, s) => (Some r, set_stream s b)
          | (Pending, s) => flush fuel (set_stream s b)
          end
      | _ :: _ =>
          match poll_write (outbound b) (stream b) with
          | (Ready (Ok written), s) =>
              let b := set_stream s b in
              if written =? 0
              then (Some (Err (mkError WriteZero "transport wrote zero buffered bytes")), b)
              else
                match advance (Z.to_nat written) (outbound b) with
                | Ok o => flush fuel (set_outbound o b)
                | Err e => (Some (Err e), b)
                | Panic => (Some Panic, b)
                end
          | (Ready (Err e), s) => (Some (Err e), set_stream s b)
          | (Ready Panic, s) => (Some Panic, set_stream s b)
          | (Pending, s) => flush fuel (set_stream s b)
          end
      end
  end.

(** Where a receive future stands: at the decode that opens the loop body, or
    at the read that ends it. *)
Inductive point : Type := Decoding | Reading.

Fixpoint receive_loop {M} (decode : bytes -> io (option M) * bytes) (eof : string)
    (fuel : nat) cancelled (pt : point) b : option (io M) * Buffered S :=
  match fuel with
  | O => (None, b)
  | Datatypes.S fuel =>
      match pt with
      | Decoding =>
          match decode (inbound b) with
          | (Ok (Some m), rest) => (Some (Ok m), set_inbound rest b)
          | (Ok None, rest) => receive_loop decode eof fuel cancelled Reading (set_inbound rest b)
          | (Err e, rest) => (Some (Err e), set_inbound rest b)
          | (Panic, rest) => (Some Panic, set_inbound rest b)
          end
      | Reading =>
          match poll_read (stream b) with
          | (Ready (Ok []), s) => (Some (Err (mkError UnexpectedEof eof)), set_stream s b)
          | (Ready (Ok chunk), s) =>
              receive_loop decode eof fuel cancelled Decoding
                (set_inbound (inbound b ++ chunk) (set_stream s b))
          | (Ready (Err e), s) => (Some (Err e), set_stream s b)
          | (Ready Panic, s) => (Some Panic, set_stream s b)
          | (Pending, s) =>
              receive_loop decode eof fuel cancelled
                (if cancelled fuel then Decoding else Reading) (set_stream s b)
          end
      end
  end.

Definition receive_wire {M} `{Direction M} (fuel : nat) cancelled b : option (io M) * Buffered S :=
  receive_loop (PgCodec_decode (inbound_codec b)) "peer closed with no complete message"
    fuel cancelled Decoding b.

Definition receive_pre_startup (fuel : nat) cancelled b : option (io PreStartupMessage) * Buffered S :=
  receive_loop (fun i => decode_pre_startup_with_limit i (max_pre_startup_packet_len b))
    "client closed with no complete pre-startup packet" fuel cancelled Decoding b.

Definition receive_backend : nat -> (nat -> bool) -> Buffered S -> option (io BackendMessage) * Buffered S :=
  receive_wire.

(** [receives] bounds the messages the loop takes, [fuel] the steps of each. *)
Fixpoint receive_session (receives fuel : nat) cancelled b : option (io SessionItem) * Buffered S :=
  match receives with
  | O => (None, b)
  | Datatypes.S receives =>
      match receive_backend fuel cancelled b with
      | (Some (Ok m), b) =>
          match project_backend m b with
          | (Some item, b) => (Some (Ok item), b)
          | (None, b) => receive_session receives fuel cancelled b
          end
      | (Some (Err e), b) => (Some (Err e), b)
      | (Some Panic, b) => (Some Panic, b)
      | (None, b) => (None, b)
      end
  end.

(** The single reply byte is read from the stream, past the buffer. *)
Fixpoint receive_encryption_reply (fuel : nat) b : option (io EncryptionReply) * Buffered S :=
  match fuel with
  | O => (None, b)
  | Datatypes.S fuel =>
      match poll_read_u8 (stream b) with
      | (Ready (Ok reply), s) =>
          (Some (map_err (fun _ => invalid "invalid encryption reply") (EncryptionReply_try_from reply)),
           set_stream s b)
      | (Ready (Err e), s) => (Some (Err e), set_stream s b)
      | (Ready Panic, s) => (Some Panic, set_stream s b)
      | (Pending, s) => receive_encryption_reply fuel (set_stream s b)
      end
  end.

End Loops.

(** ** Typed connections over the transport

    [transport_mut] panics when the transport has moved. *)
Section Connections.
Context {S : Type} `{AsyncIo S} {C : Cleanliness}.

Definition raw_reply {Ph Ph' : Type} {P : Ph} {P' : Ph'} (raw : bytes) (c : Conn (Buffered S) P C) : io (Conn (Buffered S) P' C) :=
  match transport c with
  | Some b => Ok (transition (mkConn (P := P) (C := C) (Some (push_raw raw b))))
  | None => Panic
  end.

Definition request_ssl : Conn (Buffered S) Phase.PreStartup C -> io (Conn (Buffered S) Phase.AwaitingSslReply C) :=
  raw_reply ssl_request_packet.
Definition request_gss : Conn (Buffered S) Phase.PreStartup C -> io (Conn (Buffered S) Phase.AwaitingGssReply C) :=
  raw_reply gssenc_request_packet.

Definition approve_ssl : Conn (Buffered S) Phase.ServerSslDecision C -> io (Conn (Buffered S) Phase.TlsHandshake C) :=
  raw_reply ["S"%byte].
Definition decline_ssl : Conn (Buffered S) Phase.ServerSslDecision C -> io (Conn (Buffered S) Phase.PreStartup C) :=
  raw_reply ["N"%byte].
Definition reject_ssl_with_legacy_error
    : Conn (Buffered S) Phase.ServerSslDecision C -> io (Conn (Buffered S) Phase.Terminated C) :=
  raw_reply ["E"%byte].

Definition approve_gss : Conn (Buffered S) Phase.ServerGssDecision C -> io (Conn (Buffered S) Phase.GssHandshake C) :=
  raw_reply ["S"%byte].
Definition decline_gss : Conn (Buffered S) Phase.ServerGssDecision C -> io (Conn (Buffered S) Phase.PreStartup C) :=
  raw_reply ["N"%byte].
Definition reject_gss_with_legacy_error
    : Conn (Buffered S) Phase.ServerGssDecision C -> io (Conn (Buffered S) Phase.Terminated C) :=
  raw_reply ["E"%byte].

Definition push_startup_packet (packet : bytes) (c : Conn (Buffered S) Phase.Startup C)
    : io (Conn (Buffered S) Phase.Startup C) :=
  match transport c with
  | Some b => Ok (mkConn (Some (set_outbound (outbound b ++ packet) b)))
  | None => Panic
  end.

(** An operation of the transport, run through [transport_mut]. *)
Definition on_transport {A} {Ph : Type} {P : Ph} (op : Buffered S -> option (io A) * Buffered S) (c : Conn (Buffered S) P C)
    : option (io A) * Conn (Buffered S) P C :=
  match transport c with
  | Some b => let (r, b) := op b in (r, mkConn (Some b))
  | None => (Some Panic, c)
  end.

Definition conn_flush {Ph : Type} {P : Ph} (fuel : nat) : Conn (Buffered S) P C -> option (io unit) * Conn (Buffered S) P C :=
  on_transport (flush fuel).

Definition receive_pre_startup_wire (fuel : nat) (cancelled : nat -> bool)
    : Conn (Buffered S) Phase.PreStartup C -> option (io PreStartupMessage) * Conn (Buffered S) Phase.PreStartup C :=
  on_transport (receive_pre_startup fuel cancelled).

(** On an error the connection is consumed. *)
Definition await_ssl_reply (fuel : nat) (c : Conn (Buffered S) Phase.AwaitingSslReply C)
    : option (io (Negotiation (T := Buffered S) Phase.TlsHandshake C)) :=
  let (r, c) := on_transport (receive_encryption_reply fuel) c in
  result_map (receive_ssl_reply c) <$> r.

Definition await_ssl_reply_for_mode (fuel : nat) (mode : SslMode) (c : Conn (Buffered S) Phase.AwaitingSslReply C)
    : option (io (SslModeNegotiation (Buffered S) C)) :=
  let (r, c) := on_transport (receive_encryption_reply fuel) c in
  result_map (fun reply => apply_ssl_reply c reply mode) <$> r.

Definition await_gss_reply (fuel : nat) (c : Conn (Buffered S) Phase.AwaitingGssReply C)
    : option (io (Negotiation (T := Buffered S) Phase.GssHandshake C)) :=
  let (r, c) := on_transport (receive_encryption_reply fuel) c in
  result_map (receive_gss_reply c) <$> r.

Definition conn_connect_tls {S'} (handshake : S -> io S') (c : Conn (Buffered S) Phase.TlsHandshake C)
    : io (Conn (Buffered S') Phase.PreStartup C) :=
  let? b := into_transport c in
  let? b := connect_tls handshake b in Ok (transition (Conn_new b)).

Definition conn_accept_tls {S'} (handshake : S -> io S') (c : Conn (Buffered S) Phase.TlsHandshake C)
    : io (Conn (Buffered S') Phase.PreStartup C) :=
  let? b := into_transport c in
  let? b := accept_tls handshake b in Ok (transition (Conn_new b)).

End Connections.

(** ** Streams of messages

    What a decoder promises the receive loop: an incomplete message consumes
    nothing, and the image of a message is decoded as soon as, and not before,
    all of it is there. *)
Class StreamDecoder {M} (decode : bytes -> io (option M) * bytes) (image : M -> bytes -> Prop)
    : Prop := {
  decodes m w rest : image m w -> decode (w ++ rest) = (Ok (Some m), rest);
  awaits m p q : image m (p ++ q) -> q <> [] -> decode p = (Ok None, p)
}.

(** The image of a tagged message in a stream with the limit of [codec]. *)
Definition tagged {M} `{Direction M} (codec : PgCodec) (m : M) (w : bytes) : Prop :=
  exists f, decode f = Ok m /\ w = wire_image f /\ len (body f) + 5 <= max_frame_len codec.

Lemma tagged_decoder {M} `{Direction M} codec : codec_valid codec ->
  StreamDecoder (PgCodec_decode codec) (tagged codec).
Proof.
  intros [Hlo Hhi]. split.
  - intros m w rest (f & Hf & -> & Hle). unfold PgCodec_decode.
    rewrite decode_frame_image by lia. now rewrite Hf.
  - intros m p q (f & Hf & Hw & Hle) Hq. unfold PgCodec_decode.
    now rewrite (decode_frame_wait f p q) by (done || lia).
Qed.

(** The image of a first packet under the limit [max]. *)
Definition first_packet (max : Z) (m : PreStartupMessage) (w : bytes) : Prop :=
  packet_framed w /\ len w <= max /\ decode_packet w = Ok (Some m).

Lemma first_packet_decoder max : contains 8 I32_MAX max = true ->
  StreamDecoder (fun i => decode_pre_startup_with_limit i max) (first_packet max).
Proof.
  intros Hmax. split.
  - intros m w rest (Hf & Hle & Hm). now rewrite decode_complete, Hm.
  - intros m p q (Hf & Hle & Hm) Hq. rewrite <- (take_app_length p q).
    apply decode_incomplete; [done..|]. rewrite length_app. destruct q; [done|]. simpl. lia.
Qed.

(** Two ways to cut the same bytes: the first piece reaches past the second or
    is a proper prefix of it. *)
Lemma cut_cases {A} (i c w t : list A) : i ++ c = w ++ t ->
  (exists r, i = w ++ r /\ r ++ c = t) \/ (exists q, q <> [] /\ w = i ++ q /\ c = q ++ t).
Proof.
  intros E. destruct (app_eq_inv i c w t E) as [(k & -> & ->)|(k & -> & ->)].
  - left. now exists k.
  - destruct k as [|x k].
    + left. exists []. now rewrite !app_nil_r.
    + right. now exists (x :: k).
Qed.

Section Streams.
Context {S : Type} `{AsyncIo S}.
Implicit Types (b : Buffered S) (cancelled : nat -> bool).

(** [delivers s events s'] : polled for reads, [s] is pending at each [None]
    and yields the bytes of each [Some], and is then [s']. *)
Inductive delivers : S -> list (option bytes) -> S -> Prop :=
| delivers_nil s : delivers s [] s
| delivers_pending s s1 s2 events : poll_read s = (Pending, s1) -> delivers s1 events s2 ->
    delivers s (None :: events) s2
| delivers_chunk s s1 s2 c events : poll_read s = (Ready (Ok c), s1) -> c <> [] ->
    delivers s1 events s2 -> delivers s (Some c :: events) s2.

Definition chunks (events : list (option bytes)) : bytes := concat (omap id events).

(** The loop steps a receive may spend over [n] reads. *)
Definition loop_steps (pt : point) (n : nat) : nat :=
  match pt with Decoding => 2 * n + 1 | Reading => 2 * n end.

Section OneMessage.
Context {M} (dec : bytes -> io (option M) * bytes) (image : M -> bytes -> Prop) (eof : string).
Context `{!StreamDecoder dec image}.

(** A receive returned [m] and left a stream that still delivers [tail]. *)
Definition received (m : M) (tail : bytes) (s2 : S) (n : nat) b (out : option (io M) * Buffered S)
    : Prop :=
  exists events s i, out = (Some (Ok m), set_inbound i (set_stream s b)) /\
    delivers s events s2 /\ i ++ chunks events = tail /\ (length events <= n)%nat.

Lemma received_weaken m tail s2 n n' i s b out :
  received m tail s2 n (set_inbound i (set_stream s b)) out -> (n <= n')%nat ->
  received m tail s2 n' b out.
Proof. intros (ev & s' & i' & -> & ? & ? & ?) ?. exists ev, s', i'. repeat split; auto. lia. Qed.

Lemma receive_at_decoding events b fuel cancelled m w tail s2 :
  delivers (stream b) events s2 -> image m w -> inbound b ++ chunks events = w ++ tail ->
  (forall fuel q, q <> [] -> w = inbound b ++ q -> (loop_steps Reading (length events) <= fuel)%nat ->
     received m tail s2 (length events) b (receive_loop dec eof fuel cancelled Reading b)) ->
  (loop_steps Decoding (length events) <= fuel)%nat ->
  received m tail s2 (length events) b (receive_loop dec eof fuel cancelled Decoding b).
Proof using All.
  intros Hd Hm Hw Hread Hf. destruct fuel as [|fuel]; [simpl in Hf; lia|]. cbn [receive_loop].
  destruct (cut_cases _ _ _ _ Hw) as [(r & Hi & Hr)|(q & Hq & Hq' & Hc)].
  - rewrite Hi, (decodes m w r Hm). exists events, (stream b), r. now destruct b.
  - rewrite (awaits m (inbound b) q) by congruence.
    replace (set_inbound (inbound b) b) with b by now destruct b.
    apply (Hread fuel q); [done..|]. simpl in *. lia.
Qed.

Lemma receive_at_reading events : forall b fuel cancelled m w q tail s2,
  delivers (stream b) events s2 -> image m w -> inbound b ++ chunks events = w ++ tail ->
  q <> [] -> w = inbound b ++ q -> (loop_steps Reading (length events) <= fuel)%nat ->
  received m tail s2 (length events) b (receive_loop dec eof fuel cancelled Reading b).
Proof using All.
  induction events as [|ev events IH]; intros b fuel cancelled m w q tail s2 Hd Hm Hw Hq Hwq Hf.
  { exfalso. apply Hq. unfold chunks in Hw. simpl in Hw. rewrite Hwq, <- app_assoc in Hw.
    apply app_inv_head in Hw. symmetry in Hw. now apply app_nil in Hw as [-> _]. }
  destruct fuel as [|fuel]; [simpl in Hf; lia|]. cbn [receive_loop].
  inversion Hd as [|? s1 ? ? Hp Hd'|? s1 ? c ? Hp Hc Hd']; subst; rewrite Hp.
  - assert (Hlen : (loop_steps Decoding (length events) <= fuel)%nat) by (simpl in *; lia).
    apply (received_weaken _ _ _ (length events) _ (inbound b) s1); [|simpl; lia].
    replace (set_inbound (inbound b) (set_stream s1 b)) with (set_stream s1 b) by now destruct b.
    destruct (cancelled fuel).
    + apply (receive_at_decoding events _ _ _ _ (inbound b ++ q)); try done.
      intros ? ?; apply (IH (set_stream s1 b)); done.
    + apply (IH (set_stream s1 b) _ _ _ (inbound b ++ q) q); try done. simpl in *. lia.
  - destruct c as [|x c]; [done|]. set (c' := x :: c) in *. clearbody c'.
    apply (received_weaken _ _ _ (length events) _ (inbound b ++ c') s1); [|simpl; lia].
    set (b1 := set_inbound (inbound b ++ c') (set_stream s1 b)).
    assert (Hw1 : inbound b1 ++ chunks events = (inbound b ++ q) ++ tail)
      by (rewrite <- Hw; unfold b1, chunks; simpl; now rewrite <- app_assoc).
    apply (receive_at_decoding events b1 _ _ _ (inbound b ++ q)); try done.
    + intros ? ?; apply (IH b1); done.
    + simpl in *. lia.
Qed.

(** One call of the loop on a stream that holds a whole message. *)
Lemma receive_loop_message events b fuel cancelled m w tail s2 :
  delivers (stream b) events s2 -> image m w -> inbound b ++ chunks events = w ++ tail ->
  (2 * length events + 1 <= fuel)%nat ->
  received m tail s2 (length events) b (receive_loop dec eof fuel cancelled Decoding b).
Proof using All.
  intros Hd Hm Hw Hf. apply (receive_at_decoding events b _ _ _ w); try done.
  intros ? q; intros. now apply (receive_at_reading events b _ _ _ w q).
Qed.

(** ... and on a stream that closes inside one. *)
Lemma receive_loop_eof events : forall b pt fuel cancelled m q s2 s3,
  delivers (stream b) events s2 -> poll_read s2 = (Ready (Ok []), s3) ->
  image m (inbound b ++ chunks events ++ q) -> q <> [] ->
  (loop_steps pt (length events) + 1 <= fuel)%nat ->
  receive_loop dec eof fuel cancelled pt b =
    (Some (Err (mkError UnexpectedEof eof)), set_inbound (inbound b ++ chunks events) (set_stream s3 b)).
Proof using All.
  assert (Hstep : forall b m k fuel cancelled, image m (inbound b ++ k) -> k <> [] ->
    receive_loop dec eof (Datatypes.S fuel) cancelled Decoding b =
    receive_loop dec eof fuel cancelled Reading b).
  { intros b m k fuel cancelled Hm Hk. cbn [receive_loop]. rewrite (awaits m (inbound b) k) by done.
    now destruct b. }
  intros b pt fuel cancelled m q s2 s3 Hd He Hm Hq. 
  assert (Hn : forall l, l ++ q <> []) by (intros l [_ ?]%app_nil; done).
  revert b pt fuel Hd Hm. induction events as [|ev events IH]; intros b pt fuel Hd Hm Hf.
  all: destruct pt; [destruct fuel as [|fuel]; [simpl in Hf; lia|];
    rewrite (Hstep b m _ _ _ Hm (Hn _))|].
  all: destruct fuel as [|fuel]; [simpl in Hf; lia|]; cbn [receive_loop].
  1,2: inversion Hd; subst; rewrite He; unfold chunks; simpl; rewrite app_nil_r; now destruct b.
  all: inversion Hd as [|? s1 ? ? Hp Hd'|? s1 ? c ? Hp Hc Hd']; subst; rewrite Hp.
  all: try (rewrite (IH (set_stream s1 b)); [now destruct b|done|done|];
    destruct (cancelled fuel); simpl in *; lia).
  all: destruct c as [|x c]; [done|]; set (c' := x :: c) in *; clearbody c'.
  all: rewrite (IH (set_inbound (inbound b ++ c') (set_stream s1 b)));
    [unfold chunks; simpl; now rewrite <- app_assoc|done| |simpl in *; lia].
  all: unfold chunks in Hm; simpl in Hm; simpl; now rewrite <- !app_assoc in *.
Qed.
End OneMessage.

(** ** Sequences of calls *)

(** Sends a message: [push] of its frame. *)
Definition push_message {M} `{Direction M} (m : M) b : io unit * Buffered S :=
  match to_frame m with
  | Ok f => push f b
  | Err e => (Err e, b)
  | Panic => (Panic, b)
  end.

Fixpoint push_messages {M} `{Direction M} (ms : list M) b : io unit * Buffered S :=
  match ms with
  | [] => (Ok tt, b)
  | m :: ms =>
      match push_message m b with
      | (Ok tt, b) => push_messages ms b
      | r => r
      end
  end.

Fixpoint receive_many {M} (receive : Buffered S -> option (io M) * Buffered S) (n : nat) b
    : option (io (list M)) * Buffered S :=
  match n with
  | O => (Some (Ok []), b)
  | Datatypes.S n =>
      match receive b with
      | (Some (Ok m), b) =>
          match receive_many receive n b with
          | (Some (Ok ms), b) => (Some (Ok (m :: ms)), b)
          | r => r
          end
      | (Some (Err e), b) => (Some (Err e), b)
      | (Some Panic, b) => (Some Panic, b)
      | (None, b) => (None, b)
      end
  end.

Lemma push_messages_image {M} (canonical : M -> Prop) `{Direction M, !DirectionLaws M canonical} ms :
  forall b b', codec_valid (inbound_codec b) -> Forall canonical ms ->
  push_messages ms b = (Ok tt, b') ->
  exists ws, Forall2 (tagged (inbound_codec b)) ms ws /\ b' = set_outbound (outbound b ++ concat ws) b.
Proof.
  induction ms as [|m ms IH]; intros b b' Hc Hms E; cbn [push_messages] in E.
  - injection E as <-. exists []. split; [done|]. simpl. rewrite app_nil_r. now destruct b.
  - apply Forall_cons in Hms as [Hm Hms]. unfold push_message, push in E.
    destruct (to_frame m) as [f| |] eqn:Ef; [|done..].
    destruct (PgCodec_encode (inbound_codec b) f (outbound b)) as [o| |] eqn:Eo; [|done..].
    apply encode_image in Eo as [-> Hle]; [|done].
    destruct (IH (set_outbound (outbound b ++ wire_image f) b) b') as (ws & Hws & ->); [done..|].
    exists (wire_image f :: ws). split.
    + constructor; [|done]. exists f. split; [now apply decode_to_frame|done].
    + simpl. now rewrite <- app_assoc.
Qed.

Lemma tagged_mono {M} `{Direction M} codec codec' (m : M) w :
  max_frame_len codec <= max_frame_len codec' -> tagged codec m w -> tagged codec' m w.
Proof. intros Hle (f & ? & ? & ?). exists f. repeat split; auto. lia. Qed.

Lemma receive_many_images {M} `{Direction M} ms : forall b ws events fuel cancelled tail s2,
  codec_valid (inbound_codec b) -> Forall2 (tagged (inbound_codec b)) ms ws ->
  delivers (stream b) events s2 -> inbound b ++ chunks events = concat ws ++ tail ->
  (2 * length events + 1 <= fuel)%nat ->
  exists events' s i,
    receive_many (receive_wire (M := M) fuel cancelled) (length ms) b =
      (Some (Ok ms), set_inbound i (set_stream s b)) /\
    delivers s events' s2 /\ i ++ chunks events' = tail /\ (length events' <= length events)%nat.
Proof.
  induction ms as [|m ms IH]; intros b ws events fuel cancelled tail s2 Hc Hms Hd Hw Hf.
  - inversion Hms; subst. exists events, (stream b), (inbound b). now destruct b.
  - inversion Hms as [|? w ? ws' Hm Hms']; subst. simpl in Hw. rewrite <- app_assoc in Hw.
    cbn [receive_many length]. unfold receive_wire at 1.
    pose proof (tagged_decoder (M := M) (inbound_codec b) Hc) as Hdec.
    destruct (receive_loop_message _ _ "peer closed with no complete message"
                events b fuel cancelled m w _ s2 Hd Hm Hw Hf) as (ev1 & s1 & i1 & -> & Hd1 & Hi1 & Hl1).
    destruct (IH (set_inbound i1 (set_stream s1 b)) ws' ev1 fuel cancelled tail s2)
      as (ev2 & s3 & i2 & -> & Hd2 & Hi2 & Hl2); [done..|lia|].
    exists ev2, s3, i2. repeat split; auto. lia.
Qed.

(** ** The session stream *)

(** Routing a run of messages that the demultiplexer absorbs. *)
Fixpoint absorb (ms : list BackendMessage) (d : Demux) : option Demux :=
  match ms with
  | [] => Some d
  | m :: ms => match route m d with (None, d) => absorb ms d | (Some _, _) => None end
  end.

Lemma receive_session_images ms : forall b ws w m item d d' events receives fuel cancelled tail s2,
  codec_valid (inbound_codec b) -> Forall2 (tagged (inbound_codec b)) ms ws ->
  tagged (inbound_codec b) m w ->
  absorb ms (demux b) = Some d -> route m d = (Some item, d') ->
  delivers (stream b) events s2 -> inbound b ++ chunks events = concat ws ++ w ++ tail ->
  (length ms < receives)%nat -> (2 * length events + 1 <= fuel)%nat ->
  exists events' s i,
    receive_session receives fuel cancelled b =
      (Some (Ok item), set_demux d' (set_inbound i (set_stream s b))) /\
    delivers s events' s2 /\ i ++ chunks events' = tail.
Proof.
  induction ms as [|m0 ms IH];
    intros b ws w m item d d' events receives fuel cancelled tail s2 Hc Hms Hm Ha Hr Hd Hw Hn Hf.
  all: pose proof (tagged_decoder (M := BackendMessage) (inbound_codec b) Hc) as Hdec.
  all: destruct receives as [|receives]; [simpl in Hn; lia|]; cbn [receive_session].
  all: unfold receive_backend, receive_wire at 1; inversion Hms as [|? w0 ? ws' Hm0 Hms']; subst;
    simpl in Hw; rewrite <- ?app_assoc in Hw.
  - injection Ha as <-.
    destruct (receive_loop_message _ _ "peer closed with no complete message"
                events b fuel cancelled m w _ s2 Hd Hm Hw Hf) as (ev1 & s1 & i1 & -> & Hd1 & Hi1 & Hl1).
    unfold project_backend. cbn [demux set_inbound set_stream]. rewrite Hr. now exists ev1, s1, i1.
  - cbn [absorb] in Ha. destruct (route m0 (demux b)) as [[?|] d0] eqn:Er; [done|].
    destruct (receive_loop_message _ _ "peer closed with no complete message"
                events b fuel cancelled m0 w0 _ s2 Hd Hm0 Hw Hf) as (ev1 & s1 & i1 & -> & Hd1 & Hi1 & Hl1).
    unfold project_backend. cbn [demux set_inbound set_stream]. rewrite Er.
    destruct (IH (set_demux d0 (set_inbound i1 (set_stream s1 b))) ws' w m item d d' ev1 receives fuel
                cancelled tail s2) as (ev2 & s3 & i2 & E & Hd2 & Hi2); try done; [simpl in *; lia..|].
    exists ev2, s3, i2. split; [|done]. exact E.
Qed.
(** ** Flushing *)

Section Laws.
Context (taken sent : S -> bytes) `{!AsyncIoLaws S taken sent}.

(** Fields a flush does not touch, and the bytes it moves. *)
Definition flushed b b' : Prop :=
  sent (stream b') ++ outbound b' = sent (stream b) ++ outbound b /\
  taken (stream b') = taken (stream b) /\
  b' = set_outbound (outbound b') (set_stream (stream b') b).

Lemma flushed_trans b b1 b2 : flushed b b1 -> flushed b1 b2 -> flushed b b2.
Proof.
  intros (E1 & T1 & B1) (E2 & T2 & B2). repeat split; [congruence..|].
  rewrite B2, B1. now destruct b, b2.
Qed.

Lemma flush_conserves fuel : forall b r b', flush fuel b = (r, b') ->
  flushed b b' /\ r <> Some Panic /\ (r = Some (Ok tt) -> outbound b' = []).
Proof using All.
  assert (Hpoll : forall b s, sent s = sent (stream b) -> taken s = taken (stream b) ->
    flushed b (set_stream s b)) by (intros b s Hs Ht; unfold flushed; destruct b; simpl in *; now rewrite Hs).
  assert (Hgo : forall b b1 (r : option (io unit)) b', flushed b b1 ->
    flushed b1 b' /\ r <> Some Panic /\ (r = Some (Ok tt) -> outbound b' = []) ->
    flushed b b' /\ r <> Some Panic /\ (r = Some (Ok tt) -> outbound b' = [])).
  { intros b b1 r b' H1 (H2 & ?). split; [now apply (flushed_trans _ b1)|done]. }
  induction fuel as [|fuel IH]; intros b r b' E; cbn [flush] in E.
  { injection E as <- <-. repeat split; try done. now destruct b. }
  destruct (outbound b) as [|x o] eqn:Eo.
  - destruct (poll_flush (stream b)) as [fr s1] eqn:Ep. apply flush_law in Ep as (Hnp & Ht & Hs).
    destruct fr as [fr|]; [|now apply (Hgo b _ _ _ (Hpoll b s1 Hs Ht)), IH].
    injection E as <- <-. split; [now apply Hpoll|]. split; [congruence|]. now intros.
  - rewrite <- Eo in E. destruct (poll_write (outbound b) (stream b)) as [wr s1] eqn:Ep.
    apply write_law in Ep as (Hnp & Ht & n & Hn & Hs & Hk).
    assert (Hquiet : n = 0%nat -> flushed b (set_stream s1 b)).
    { intros ->. apply Hpoll; [|done]. rewrite take_0, app_nil_r in Hs. done. }
    destruct wr as [[k|e|]|]; [|injection E as <- <-; split; [now apply Hquiet|done]|done|].
    + subst k. destruct (Z.eqb_spec (Z.of_nat n) 0) as [H0|H0].
      { injection E as <- <-. split; [apply Hquiet; lia|done]. }
      rewrite Nat2Z.id in E. unfold advance in E. cbn [outbound set_stream] in E.
      rewrite (proj2 (Nat.ltb_ge _ _)) in E by lia.
      apply IH in E. refine (Hgo b _ _ _ _ E). unfold flushed. cbn. repeat split; [|done].
      rewrite Hs, <- app_assoc. now rewrite take_drop.
    + apply IH in E. exact (Hgo b _ _ _ (Hquiet Hk) E).
Qed.

(** A stream that accepts something each time it is offered bytes. *)
Definition willing : Prop :=
  (forall offered s, offered <> [] -> exists k s', poll_write offered s = (Ready (Ok k), s') /\ k <> 0) /\
  (forall s, exists s', poll_flush s = (Ready (Ok tt), s')).

Lemma flush_completes fuel : forall b, willing -> (length (outbound b) < fuel)%nat ->
  exists b', flush fuel b = (Some (Ok tt), b').
Proof using All.
  induction fuel as [|fuel IH]; intros b [Hw Hfl] Hf; [lia|]. cbn [flush].
  destruct (outbound b) as [|x o] eqn:Eo.
  - destruct (Hfl (stream b)) as [s ->]. eauto.
  - rewrite <- Eo in *. destruct (Hw (outbound b) (stream b)) as (k & s & Ep & Hk); [congruence|].
    rewrite Ep. apply write_law in Ep as (_ & _ & n & Hn & _ & ->).
    rewrite (proj2 (Z.eqb_neq _ _)), Nat2Z.id by done. unfold advance. cbn [outbound set_stream].
    rewrite (proj2 (Nat.ltb_ge _ _)) by lia. apply IH; [done|].
    cbn [outbound set_outbound]. rewrite length_drop. lia.
Qed.

(** ** Bytes taken by a receive *)

Lemma receive_loop_taken {M} (dec : bytes -> io (option M) * bytes) eof fuel :
  (forall i r, dec i = (Ok None, r) -> r = i) ->
  forall b pt cancelled m b', receive_loop dec eof fuel cancelled pt b = (Some (Ok m), b') ->
  exists got i, sent (stream b') = sent (stream b) /\ taken (stream b') = taken (stream b) ++ got /\
    dec (inbound b ++ got) = (Ok (Some m), i) /\ b' = set_inbound i (set_stream (stream b') b).
Proof using All.
  intros Hwait. induction fuel as [|fuel IH]; intros b pt cancelled m b' E; [done|].
  cbn [receive_loop] in E. destruct pt.
  - destruct (dec (inbound b)) as [[[m0|]|e|] rest] eqn:Ed; simplify_eq.
    + exists [], rest. rewrite !app_nil_r. now destruct b.
    + apply Hwait in Ed as ->. replace (set_inbound (inbound b) b) with b in E by now destruct b.
      now apply IH in E.
  - destruct (poll_read (stream b)) as [r s1] eqn:Ep. apply read_law in Ep as [Es Ep].
    destruct r as [[[|x c]|e|]|]; simplify_eq.
    + set (c' := x :: c) in *. apply IH in E as (got & i & Hs & Ht & Hd & ->). cbn in *.
      exists (c' ++ got), i. rewrite Hs, Ht, Ep. now rewrite <- !app_assoc in *.
    + apply IH in E as (got & i & Hs & Ht & Hd & ->). cbn in *. exists got, i.
      now rewrite Hs, Ht, Ep, app_nil_r.
Qed.

Lemma decode_pre_startup_waits max i r :
  decode_pre_startup_with_limit i max = (Ok None, r) -> r = i.
Proof.
  intros E. pose proof (decode_pre_startup_cases i max) as Hc. rewrite E in Hc.
  destruct Hc as [(-> & _)|(p & _ & Hf & _ & Hp)]; [done|]. symmetry in Hp.
  exfalso. revert Hp. unfold decode_packet.
  destruct (be_u32_at 4 p); [|done..]. repeat (destruct (_ && _); [done|]).
  destruct (_ =? CANCEL_REQUEST_CODE).
  - destruct (negb _); [done|]. now destruct (be_u32_at 8 p).
  - now destruct (StartupMessage_decode p).
Qed.

Lemma receive_pre_startup_taken fuel cancelled b m b' :
  receive_pre_startup fuel cancelled b = (Some (Ok m), b') ->
  exists got p i, sent (stream b') = sent (stream b) /\
    taken (stream b') = taken (stream b) ++ got /\ inbound b ++ got = p ++ i /\
    first_packet (max_pre_startup_packet_len b) m p /\ b' = set_inbound i (set_stream (stream b') b).
Proof using All.
  intros (got & i & Hs & Ht & Hd & ->)%receive_loop_taken; [|intros ? ?; apply decode_pre_startup_waits].
  exists got. pose proof (decode_pre_startup_cases (inbound b ++ got) (max_pre_startup_packet_len b)) as Hc.
  rewrite Hd in Hc. destruct Hc as [(_ & _ & Hn)|(p & Hp & Hf & Hle & Hm)]; [now destruct (Hn m)|].
  exists p, i. done.
Qed.

Lemma receive_encryption_reply_taken fuel : forall b reply b',
  receive_encryption_reply fuel b = (Some (Ok reply), b') ->
  sent (stream b') = sent (stream b) /\
  taken (stream b') = taken (stream b) ++ [EncryptionReply_as_byte reply] /\
  b' = set_stream (stream b') b.
Proof using All.
  induction fuel as [|fuel IH]; intros b reply b' E; [done|]. cbn [receive_encryption_reply] in E.
  destruct (poll_read_u8 (stream b)) as [r s1] eqn:Ep. apply read_u8_law in Ep as [Es Et].
  destruct r as [[x|e|]|]; [|done..|].
  - unfold EncryptionReply_try_from in E.
    destruct x; try discriminate E; cbn in E; injection E as <- <-; now destruct b.
  - apply IH in E as (Es' & Et' & E'). cbn in *. rewrite Es', Et', Es, Et, app_nil_r. done.
Qed.

Lemma upgrade_tls_clean {S'} (handshake : S -> io S') b (b' : Buffered S') : upgrade_tls handshake b = Ok b' ->
  outbound b = [] /\ inbound b = [] /\ outbound b' = [] /\ inbound b' = [].
Proof.
  unfold upgrade_tls. destruct (outbound b); [|done]. destruct (inbound b); [|done]. simpl.
  destruct (handshake (stream b)); [|done..]. now intros [= <-].
Qed.

End Laws.
End Streams.

(** ** A scripted stream

    Reads and writes follow a script: pending, a chunk of given bytes, a
    bound on the bytes accepted. After the script, input ends and writes are
    accepted whole. *)
Record Script : Type := mkScript {
  reads : list (Poll bytes);
  writes_ : list (Poll nat);
  read_log : bytes;
  write_log : bytes
}.

#[export] Instance Script_io : AsyncIo Script := {
  poll_read s :=
    match reads s with
    | [] => (Ready (Ok []), s)
    | Pending :: rs => (Pending, mkScript rs (writes_ s) (read_log s) (write_log s))
    | Ready c :: rs => (Ready (Ok c), mkScript rs (writes_ s) (read_log s ++ c) (write_log s))
    end;
  poll_read_u8 s :=
    match reads s with
    | Ready (x :: c) :: rs =>
        (Ready (Ok x), mkScript (Ready c :: rs) (writes_ s) (read_log s ++ [x]) (write_log s))
    | Pending :: rs => (Pending, mkScript rs (writes_ s) (read_log s) (write_log s))
    | _ => (Ready (Err (mkError UnexpectedEof "early eof")), s)
    end;
  poll_write offered s :=
    match writes_ s with
    | [] => (Ready (Ok (len offered)), mkScript (reads s) [] (read_log s) (write_log s ++ offered))
    | Pending :: ws => (Pending, mkScript (reads s) ws (read_log s) (write_log s))
    | Ready k :: ws =>
        (Ready (Ok (len (take k offered))),
         mkScript (reads s) ws (read_log s) (write_log s ++ take k offered))
    end;
  poll_flush s := (Ready (Ok tt), s)
}.

#[export] Instance Script_laws : AsyncIoLaws Script read_log write_log.
Proof.
  split.
  - intros [[|[c|] rs] ws rl wl] r s' E; cbn in E; injection E as <- <-; cbn; now rewrite ?app_nil_r.
  - intros [[|[[|x c]|] rs] ws rl wl] r s' E; cbn in E; injection E as <- <-; cbn; now rewrite ?app_nil_r.
  - intros offered [rs [|[k|] ws] rl wl] r s' E; cbn in E; injection E as <- <-; cbn;
      (split; [done|split; [done|]]).
    + exists (length offered). now rewrite firstn_all.
    + exists (Nat.min k (length offered)). unfold len. rewrite length_take.
      split; [lia|]. split; [|done]. f_equal.
      destruct (Nat.le_ge_cases k (length offered)); [now rewrite Nat.min_l by lia|].
      rewrite Nat.min_r, !take_ge by lia. done.
    + exists 0%nat. rewrite take_0, app_nil_r. split; [lia|done].
  - now intros s r s' [= <- <-].
Qed.

(** ** Properties *)

(** C26: End-to-end message delivery. What one peer pushes as canonical messages
    of a direction, the other receives as the same messages in the same order,
    however the bytes are cut into reads, wherever the stream is pending and
    whichever of the pending receives are dropped and restarted; nothing is
    left over. Two steps per read and one more are enough for each receive. *)
Theorem transport_stream {S S' M} `{AsyncIo S} (canonical : M -> Prop)
    `{Direction M, !DirectionLaws M canonical} (ms : list M) (sender sender' : Buffered S')
    (receiver : Buffered S) events s2 fuel cancelled :
  codec_valid (inbound_codec sender) -> codec_valid (inbound_codec receiver) ->
  max_frame_len (inbound_codec sender) <= max_frame_len (inbound_codec receiver) ->
  Forall canonical ms -> outbound sender = [] -> inbound receiver = [] ->
  push_messages ms sender = (Ok tt, sender') ->
  delivers (stream receiver) events s2 -> chunks events = outbound sender' ->
  (2 * length events + 1 <= fuel)%nat ->
  exists events' s,
    receive_many (receive_wire fuel cancelled) (length ms) receiver =
      (Some (Ok ms), set_stream s receiver) /\
    delivers s events' s2 /\ chunks events' = [].
Proof.
  intros Hcs Hcr Hle Hms Ho Hi Hpush Hd Hch Hf.
  apply (push_messages_image canonical) in Hpush as (ws & Hws & ->); [|done..].
  rewrite Ho in Hch. simpl in Hch.
  destruct (receive_many_images ms receiver ws events fuel cancelled [] s2)
    as (ev & s & i & -> & Hd' & [-> Hnil]%app_nil & _); try done.
  - eapply Forall2_impl; [exact Hws|]. intros m w. now apply tagged_mono.
  - rewrite Hi, app_nil_r. done.
  - exists ev, s. split; [|done]. rewrite <- Hi. now destruct receiver.
Qed.

Definition example_messages : list FrontendMessage := [F_Query ["h"%byte; "i"%byte]; F_Sync].

(** The wire image of the two messages, cut inside both frames. *)
Definition example_events : list (option bytes) :=
  [Some ["Q"%byte; x00]; None; Some [x00; x00; x07; "h"%byte; "i"%byte; x00; "S"%byte; x00];
   None; Some [x00; x00; x04]].

Definition script_of (events : list (option bytes)) : Script :=
  mkScript (map (fun e => match e with Some c => Ready c | None => Pending end) events) [] [] [].

Lemma transport_stream_witness :
  exists events' s,
    receive_many (receive_wire 11 (fun n => Nat.even n)) 2 (Buffered_new (script_of example_events)) =
      (Some (Ok example_messages), set_stream s (Buffered_new (script_of example_events))) /\
    delivers s events' (mkScript [] [] (chunks example_events) []) /\ chunks events' = [].
Proof.
  apply (transport_stream (S' := unit) FrontendMessage_typed example_messages (Buffered_new tt)
           (set_outbound (chunks example_events) (Buffered_new tt)) _ example_events);
    try reflexivity; try apply codec_default_valid.
  - repeat constructor.
  - repeat econstructor; discriminate.
Defined.

(** C27: Flushing. Whatever the stream does and however often the flush is
    polled, dropped or restarted, the bytes accepted by the stream followed by
    the bytes still buffered stay the same sequence: none is lost, repeated or
    reordered, and no other part of the transport changes. A flush that
    succeeds has emptied the buffer, and on a stream that keeps accepting bytes
    one step per buffered byte and one more are enough to succeed. *)
Theorem flush_no_loss {S} `{AsyncIo S} (taken sent : S -> bytes) `{!AsyncIoLaws S taken sent} fuel b r b' :
  flush fuel b = (r, b') ->
  sent (stream b') ++ outbound b' = sent (stream b) ++ outbound b /\
  b' = set_outbound (outbound b') (set_stream (stream b') b) /\
  r <> Some Panic /\ (r = Some (Ok tt) -> outbound b' = []) /\
  (willing (S := S) -> (length (outbound b) < fuel)%nat -> r = Some (Ok tt)).
Proof.
  intros E. destruct (flush_conserves taken sent fuel b r b' E) as ((Hs & _ & Hb) & Hp & Ho).
  repeat split; auto. intros Hw Hf. destruct (flush_completes taken sent fuel b Hw Hf) as [b1 E1]. congruence.
Qed.

Lemma flush_no_loss_witness :
  let b := set_outbound [x01; x02; x03] (Buffered_new (mkScript [] [Ready 1%nat; Pending; Ready 2%nat] [] [x00])) in
  exists b', flush 4 b = (Some (Ok tt), b') /\ write_log (stream b') ++ outbound b' = [x00; x01; x02; x03].
Proof.
  eexists. split; [vm_compute; reflexivity|].
  exact (proj1 (flush_no_loss read_log write_log 4
    (set_outbound [x01; x02; x03] (Buffered_new (mkScript [] [Ready 1%nat; Pending; Ready 2%nat] [] [x00])))
    _ _ eq_refl)).
Defined.

(** What the demultiplexer becomes over a run of messages. *)
Definition route_all (ms : list BackendMessage) (d : Demux) : Demux :=
  foldl (fun d m => snd (route m d)) d ms.

Lemma absorb_consumed ms : forall d, Forall (fun m => consumed m = true) ms ->
  absorb ms d = Some (route_all ms d).
Proof.
  induction ms as [|m ms IH]; intros d Hms; [done|]. apply Forall_cons in Hms as [Hm Hms].
  unfold route_all. cbn [absorb foldl]. destruct m; try done; apply IH; done.
Qed.

Lemma route_item m d : consumed m = false ->
  exists item, fst (route m d) = Some item /\ into_backend_message item = m.
Proof. destruct m; intros Hm; try discriminate Hm; eexists; split; reflexivity. Qed.

(** The session stream. One [receive_session] on a stream of backend
    messages consumes exactly the leading notices, notifications and parameter reports and the first
    other one, hands the former to the demultiplexer in order, and returns the
    item of the latter; everything behind it stays in the stream. *)
Theorem receive_session_exact {S} `{AsyncIo S} (b : Buffered S) ms ws m w events receives fuel cancelled tail s2 :
  codec_valid (inbound_codec b) ->
  Forall (fun m => consumed m = true) ms -> consumed m = false ->
  Forall2 (tagged (inbound_codec b)) ms ws -> tagged (inbound_codec b) m w ->
  delivers (stream b) events s2 -> inbound b ++ chunks events = concat ws ++ w ++ tail ->
  (length ms < receives)%nat -> (2 * length events + 1 <= fuel)%nat ->
  exists item events' s i,
    receive_session receives fuel cancelled b =
      (Some (Ok item), set_demux (route_all (ms ++ [m]) (demux b)) (set_inbound i (set_stream s b))) /\
    fst (route m (route_all ms (demux b))) = Some item /\ into_backend_message item = m /\
    delivers s events' s2 /\ i ++ chunks events' = tail.
Proof.
  intros Hc Hms Hm Hws Hw Hd Hb Hn Hf.
  destruct (route_item m (route_all ms (demux b)) Hm) as (item & Hr & Hi).
  destruct (receive_session_images ms b ws w m item (route_all ms (demux b))
              (snd (route m (route_all ms (demux b)))) events receives fuel cancelled tail s2)
    as (ev & s & i & E & Hd' & Ht); try done.
  - now apply absorb_consumed.
  - rewrite <- Hr. now destruct (route m _).
  - exists item, ev, s, i. unfold route_all at 1. rewrite foldl_app. now repeat split.
Qed.

Definition example_backend : list (option bytes) :=
  [None; Some (wire_image (mkFrame "S"%byte ["a"%byte; x00; "b"%byte; x00])
           ++ take 3 (wire_image (mkFrame "Z"%byte ["I"%byte])));
   Some (drop 3 (wire_image (mkFrame "Z"%byte ["I"%byte])) ++ [x31])].

Lemma receive_session_exact_witness :
  exists item events' s i,
    receive_session 2 7 (fun _ => true) (Buffered_new (script_of example_backend)) =
      (Some (Ok item),
       set_demux (route_all [B_ParameterStatus ["a"%byte] ["b"%byte]; B_ReadyForQuery Idle] Demux_default)
         (set_inbound i (set_stream s (Buffered_new (script_of example_backend))))) /\
    fst (route (B_ReadyForQuery Idle)
      (route_all [B_ParameterStatus ["a"%byte] ["b"%byte]] Demux_default)) = Some item /\
    into_backend_message item = B_ReadyForQuery Idle /\
    delivers s events' (mkScript [] [] (chunks example_backend) []) /\ i ++ chunks events' = [x31].
Proof.
  apply (receive_session_exact (Buffered_new (script_of example_backend))
           [B_ParameterStatus ["a"%byte] ["b"%byte]]
           [wire_image (mkFrame "S"%byte ["a"%byte; x00; "b"%byte; x00])]
           (B_ReadyForQuery Idle) (wire_image (mkFrame "Z"%byte ["I"%byte])) example_backend);
    try reflexivity; try apply codec_default_valid.
  - repeat constructor.
  - repeat constructor. eexists. split; [|split; [reflexivity|vm_compute; discriminate]]. reflexivity.
  - eexists. split; [|split; [reflexivity|vm_compute; discriminate]]. reflexivity.
  - repeat econstructor; discriminate.
  - simpl. lia.
Defined.

(** C28: No plaintext crosses a server's TLS upgrade. A connection with empty
    buffers receives a first packet that offers TLS, approves it, flushes the
    reply and upgrades: if the upgrade happens, the client had sent exactly the
    eight bytes of [SSLRequest] and nothing behind them, the server exactly [S],
    and the upgraded transport starts with empty buffers. *)
Theorem server_tls_upgrade_clean {S S' C} `{AsyncIo S} (taken sent : S -> bytes)
    `{!AsyncIoLaws S taken sent} (handshake : S -> io S') fuel cancelled n (b b4 : Buffered S) m
    (c1 : Conn _ _ C) (c2 : Conn _ _ C) (c3 : Conn _ _ C) (c5 : Conn (Buffered S') _ C) :
  inbound b = [] -> outbound b = [] ->
  receive_pre_startup_wire fuel cancelled (mkConn (Some b)) = (Some (Ok m), c1) ->
  offer_pre_startup c1 m = Offer_Ssl c2 ->
  approve_ssl c2 = Ok c3 ->
  conn_flush n c3 = (Some (Ok tt), mkConn (Some b4)) ->
  conn_accept_tls handshake (mkConn (Some b4)) = Ok c5 ->
  taken (stream b4) = taken (stream b) ++ ssl_request_packet /\
  sent (stream b4) = sent (stream b) ++ ["S"%byte] /\
  exists b5, transport c5 = Some b5 /\ inbound b5 = [] /\ outbound b5 = [].
Proof.
  intros Hi Ho Hrecv Hoffer Happ Hfl Hacc.
  unfold receive_pre_startup_wire, on_transport in Hrecv. cbn [transport] in Hrecv.
  destruct (receive_pre_startup fuel cancelled b) as [r b1] eqn:Er. injection Hrecv as -> <-.
  destruct m; try discriminate Hoffer. injection Hoffer as <-.
  apply (receive_pre_startup_taken taken sent) in Er as (got & p & i & Hsent & Ht & Hp & (Hf & _ & Hm) & Hb1).
  apply Ok_inj in Happ as <-. unfold conn_flush, on_transport in Hfl. cbn [transport transition] in Hfl.
  destruct (flush n (push_raw ["S"%byte] b1)) as [r b4'] eqn:Ef. injection Hfl as -> ->.
  destruct (flush_conserves taken sent _ _ _ _ Ef) as ((Hs & Htk & Hb4) & _ & _).
  unfold conn_accept_tls, into_transport in Hacc. cbn [transport] in Hacc.
  destruct (accept_tls handshake b4) as [b5| |] eqn:Eu; [|done..]. apply Ok_inj in Hacc as <-.
  apply upgrade_tls_clean in Eu as (Hout & Hin & Ho5 & Hi5).
  assert (i = []) as -> by (rewrite <- Hin, Hb4, Hb1; done).
  rewrite app_nil_r, Hi in Hp. simpl in Hp. subst got.
  pose proof (decode_packet_inv p SslRequest Hf Hm) as E. cbn in E. apply Ok_inj in E as <-.
  rewrite Hout, app_nil_r in Hs. cbn [stream push_raw set_outbound outbound] in Hs, Htk.
  rewrite Htk, Hs, Ht, Hsent, Hb1. cbn. rewrite Ho. repeat split. now exists b5.
Qed.

Definition tls_client_stream : Script := mkScript [Pending; Ready ssl_request_packet] [Pending] [] [].

Lemma server_tls_upgrade_clean_witness :
  exists b4 : Buffered Script,
    read_log (stream b4) = [] ++ ssl_request_packet /\ write_log (stream b4) = [] ++ ["S"%byte] /\
    exists b5, Some b4 = Some b5 /\ inbound b5 = [] /\ outbound b5 = [].
Proof.
  eexists.
  refine (server_tls_upgrade_clean (C := Pristine) read_log write_log (fun s => Ok s) 5 (fun _ => true) 3
            (Buffered_new tls_client_stream) _ _ _ _ _
            (mkConn (Some _)) eq_refl eq_refl _ _ _ _ _); vm_compute; reflexivity.
Defined.

(** Plaintext behind the request makes the upgrade fail. *)
Example injected_plaintext_refused :
  let '(_, b1) := receive_pre_startup 3 (fun _ => false)
    (Buffered_new (mkScript [Ready (ssl_request_packet ++ ["Q"%byte])] [] [] [])) in
  let '(_, b2) := flush 3 (push_raw ["S"%byte] b1) in
  accept_tls (fun s => Ok s) b2 = Err (invalid_input "TLS upgrade requires empty plaintext buffers").
Proof. reflexivity. Qed.

(** The same for a client: it has sent exactly [SSLRequest] and has taken
    exactly the reply byte [S] before the handshake starts. *)
Theorem client_tls_upgrade_clean {S S' C} `{AsyncIo S} (taken sent : S -> bytes)
    `{!AsyncIoLaws S taken sent} (handshake : S -> io S') fuel n (b b3 : Buffered S)
    (c1 : Conn _ _ C) (c2 : Conn _ _ C) (c4 : Conn (Buffered S') _ C) :
  inbound b = [] -> outbound b = [] ->
  request_ssl (mkConn (Some b)) = Ok c1 ->
  conn_flush n c1 = (Some (Ok tt), c2) ->
  await_ssl_reply fuel c2 = Some (Ok (Neg_Accepted _ _ (mkConn (Some b3)))) ->
  conn_connect_tls handshake (mkConn (Some b3)) = Ok c4 ->
  taken (stream b3) = taken (stream b) ++ ["S"%byte] /\
  sent (stream b3) = sent (stream b) ++ ssl_request_packet /\
  exists b4, transport c4 = Some b4 /\ inbound b4 = [] /\ outbound b4 = [].
Proof.
  intros Hi Ho Hreq Hfl Hrep Hcon. apply Ok_inj in Hreq as <-.
  unfold conn_flush, on_transport in Hfl. cbn [transport transition] in Hfl.
  destruct (flush n (push_raw ssl_request_packet b)) as [r b2] eqn:Ef. injection Hfl as -> <-.
  destruct (flush_conserves taken sent _ _ _ _ Ef) as ((Hs & Htk & Hb2) & _ & Hout).
  specialize (Hout eq_refl).
  unfold await_ssl_reply, on_transport in Hrep. cbn [transport] in Hrep.
  destruct (receive_encryption_reply fuel b2) as [[[reply|e|]|] b3'] eqn:Er; try done.
  injection Hrep as Hrep. destruct reply; try discriminate Hrep. injection Hrep as ->.
  apply (receive_encryption_reply_taken taken sent) in Er as (Hs3 & Ht3 & Hb3).
  unfold conn_connect_tls, into_transport in Hcon. cbn [transport] in Hcon.
  destruct (connect_tls handshake b3) as [b4| |] eqn:Eu; [|done..]. apply Ok_inj in Hcon as <-.
  apply upgrade_tls_clean in Eu as (_ & _ & Ho4 & Hi4).
  rewrite Hout, app_nil_r in Hs. cbn [stream push_raw set_outbound outbound] in Hs, Htk.
  rewrite Ht3, Hs3, Htk, Hs, Ho. repeat split. now exists b4.
Qed.

Lemma client_tls_upgrade_clean_witness :
  exists b3 : Buffered Script,
    read_log (stream b3) = [] ++ ["S"%byte] /\ write_log (stream b3) = [] ++ ssl_request_packet /\
    exists b4, Some b3 = Some b4 /\ inbound b4 = [] /\ outbound b4 = [].
Proof.
  eexists.
  refine (client_tls_upgrade_clean (C := Pristine) read_log write_log (fun s => Ok s) 2 3
            (Buffered_new (mkScript [Pending; Ready ["S"%byte; x16]] [Ready 3%nat] [] [])) _ _ _
            (mkConn (Some _)) eq_refl eq_refl _ _ _ _); vm_compute; reflexivity.
Defined.

(** A stream that closes inside a message. Whatever the cuts and pauses, the
    receive ends with [UnexpectedEof] and keeps the incomplete bytes buffered. *)
Theorem receive_wire_eof {S M} `{AsyncIo S} `{Direction M} (b : Buffered S) (m : M) q events s2 s3 fuel cancelled :
  codec_valid (inbound_codec b) ->
  tagged (inbound_codec b) m (inbound b ++ chunks events ++ q) -> q <> [] ->
  delivers (stream b) events s2 -> poll_read s2 = (Ready (Ok []), s3) ->
  (2 * length events + 2 <= fuel)%nat ->
  receive_wire (M := M) fuel cancelled b =
    (Some (Err (mkError UnexpectedEof "peer closed with no complete message")),
     set_inbound (inbound b ++ chunks events) (set_stream s3 b)).
Proof.
  intros Hc Hm Hq Hd He Hf. pose proof (tagged_decoder (M := M) (inbound_codec b) Hc).
  apply (receive_loop_eof _ _ _ events b Decoding fuel cancelled m q s2 s3); [done..|]. simpl. lia.
Qed.

Lemma receive_wire_eof_witness :
  let b := Buffered_new (script_of [Some ["S"%byte; x00]; None]) in
  receive_wire (M := FrontendMessage) 6 (fun _ => true) b =
    (Some (Err (mkError UnexpectedEof "peer closed with no complete message")),
     set_inbound ["S"%byte; x00] (set_stream (mkScript [] [] ["S"%byte; x00] []) b)).
Proof.
  apply (receive_wire_eof (Buffered_new (script_of [Some ["S"%byte; x00]; None])) F_Sync [x00; x00; x04]
           [Some ["S"%byte; x00]; None] (mkScript [] [] ["S"%byte; x00] []));
    [apply codec_default_valid| |discriminate| |reflexivity|simpl; lia].
  - exists (mkFrame "S"%byte []). split; [reflexivity|]. split; [reflexivity|vm_compute; discriminate].
  - repeat econstructor; discriminate.
Defined.
