(* ===== verification/Machine.v ===== *)
(** Runs of a deterministic machine: a step takes an action, may produce output
    and is undefined where the operation does not exist. *)

From stdpp Require Import prelude.
From S2P Require Import Prelude.

Section Machine.
Context {A O T : Type} (step : A -> T -> option (list O * T)).

Fixpoint run (actions : list A) (st : T) : option (list O * T) :=
  match actions with
  | [] => Some ([], st)
  | a :: actions =>
      match step a st with
      | Some (os, st) =>
          match run actions st with
          | Some (os', st) => Some (os ++ os', st)
          | None => None
          end
      | None => None
      end
  end.

Lemma run_cons_inv a actions st os st' : run (a :: actions) st = Some (os, st') ->
  exists os1 st1 os2, step a st = Some (os1, st1) /\ run actions st1 = Some (os2, st') /\ os = os1 ++ os2.
Proof.
  cbn [run]. destruct (step a st) as [[os1 st1]|]; [|done].
  destruct (run actions st1) as [[os2 st2]|] eqn:E; [|done]. intros [= <- <-]. eauto 7.
Qed.

Lemma run_app l1 : forall l2 st, run (l1 ++ l2) st =
  match run l1 st with
  | Some (os, st1) => match run l2 st1 with Some (os', st2) => Some (os ++ os', st2) | None => None end
  | None => None
  end.
Proof.
  induction l1 as [|a l1 IH]; intros l2 st; cbn [run app].
  { now destruct (run l2 st) as [[]|]. }
  destruct (step a st) as [[os st1]|]; [|done]. rewrite IH.
  destruct (run l1 st1) as [[os1 st2]|]; [|done].
  destruct (run l2 st2) as [[os2 st3]|]; [|done]. now rewrite app_assoc.
Qed.

(** Rule induction over a run. *)
Lemma machine_invariant (I : T -> Prop) :
  (forall a st os st', I st -> step a st = Some (os, st') -> I st') ->
  forall actions st os st', run actions st = Some (os, st') -> I st -> I st'.
Proof.
  intros Hstep actions. induction actions as [|a actions IH]; intros st os st' Hr Hi.
  { now injection Hr as <- <-. }
  apply run_cons_inv in Hr as (os1 & st1 & os2 & Hs & Hr & _). eauto.
Qed.

(** A property of states that a run makes true is made true by one of its steps. *)
Lemma run_flip (Q : T -> bool) actions : forall st os st',
  run actions st = Some (os, st') -> Q st = false -> Q st' = true ->
  exists pre a post os1 s1 os2 s2, actions = pre ++ a :: post /\
    run pre st = Some (os1, s1) /\ step a s1 = Some (os2, s2) /\ Q s1 = false /\ Q s2 = true.
Proof.
  induction actions as [|a actions IH]; intros st os st' Hr H0 H1.
  { injection Hr as <- <-. congruence. }
  apply run_cons_inv in Hr as (os1 & st1 & os2 & Hs & Hr & _). destruct (Q st1) eqn:Eq.
  - exists [], a, actions, [], st, os1, st1. auto.
  - destruct (IH _ _ _ Hr Eq H1) as (pre & b & post & f1 & s1 & f2 & s2 & -> & Hp & Hb & H2 & H3).
    exists (a :: pre), b, post, (os1 ++ f1), s1, f2, s2. cbn [run]. now rewrite Hs, Hp.
Qed.
End Machine.
