(* ===== verification/Middleware.v ===== *)
(** Message middleware: src/middleware.rs and the interception of received
    messages in src/transport.rs. *)

From Stdlib Require Import ZArith Lia String.
From Stdlib Require Import Init.Byte.
From stdpp Require Import prelude.
From S2P Require Import Prelude OrdMap Wire Frame Frontend Startup PreStartup Backend Demux Fsm Grammar Transport.

(** ** Validation *)

Class AcceptsMessage (State Message : Type) : Type := accepts : State -> Message -> bool.
Class ReconstructableMessage (Message : Type) : Type := is_reconstructable : Message -> bool.

#[export] Instance frontend_reconstructable : ReconstructableMessage FrontendMessage :=
  fun m => is_ok (FrontendMessage_to_frame m).
#[export] Instance backend_reconstructable : ReconstructableMessage BackendMessage :=
  fun m => is_ok (BackendMessage_to_frame m).
#[export] Instance pre_startup_reconstructable : ReconstructableMessage PreStartupMessage :=
  fun m => is_ok (to_packet m).
#[export] Instance reply_reconstructable : ReconstructableMessage EncryptionReply := fun _ => true.

(** A runtime state of one of the grammars. *)
Inductive frontend_state : Type := FrontendState (s : string).
Inductive backend_state : Type := BackendState (s : string).
Inductive authentication_state : Type := AuthenticationState (s : string).
Inductive server_authentication_state : Type := ServerAuthenticationState (s : string).
Inductive pre_startup_state : Type := PreStartupState (s : string).
Inductive server_pre_startup_state : Type := ServerPreStartupState (s : string).

#[export] Instance frontend_accepts_frontend : AcceptsMessage frontend_state FrontendMessage :=
  fun '(FrontendState s) m => is_some (project_internal frontend s m).
#[export] Instance frontend_accepts_backend : AcceptsMessage frontend_state BackendMessage :=
  fun '(FrontendState s) m => is_asynchronous m || is_some (project_external frontend s m).
#[export] Instance backend_accepts_backend : AcceptsMessage backend_state BackendMessage :=
  fun '(BackendState s) m => is_asynchronous m || is_some (project_internal backend s m).
#[export] Instance backend_accepts_frontend : AcceptsMessage backend_state FrontendMessage :=
  fun '(BackendState s) m => is_some (project_external backend s m).
#[export] Instance authentication_accepts_frontend : AcceptsMessage authentication_state FrontendMessage :=
  fun '(AuthenticationState s) m => is_some (project_internal authentication s m).
#[export] Instance authentication_accepts_backend : AcceptsMessage authentication_state BackendMessage :=
  fun '(AuthenticationState s) m => is_some (project_external authentication s m).
#[export] Instance server_authentication_accepts_backend
    : AcceptsMessage server_authentication_state BackendMessage :=
  fun '(ServerAuthenticationState s) m => is_some (project_internal server_authentication s m).
#[export] Instance server_authentication_accepts_frontend
    : AcceptsMessage server_authentication_state FrontendMessage :=
  fun '(ServerAuthenticationState s) m => is_some (project_external server_authentication s m).
#[export] Instance pre_startup_accepts_message : AcceptsMessage pre_startup_state PreStartupMessage :=
  fun '(PreStartupState s) m => is_some (project_internal pre_startup s m).
#[export] Instance pre_startup_accepts_reply : AcceptsMessage pre_startup_state EncryptionReply :=
  fun '(PreStartupState s) m => is_some (project_external pre_startup s m).
#[export] Instance server_pre_startup_accepts_reply : AcceptsMessage server_pre_startup_state EncryptionReply :=
  fun '(ServerPreStartupState s) m => is_some (project_internal server_pre_startup s m).
#[export] Instance server_pre_startup_accepts_message
    : AcceptsMessage server_pre_startup_state PreStartupMessage :=
  fun '(ServerPreStartupState s) m => is_some (project_external server_pre_startup s m).

(** ** Phase-typed messages

    The generated message type of a phase holds exactly the wire messages the
    phase accepts; [try_from] returns an illegal message unchanged. *)
Record Typed {Wire : Type} (legal : Wire -> bool) : Type := mkTyped { as_wire : Wire; is_legal : legal as_wire = true }.
Arguments mkTyped {Wire legal}.
Arguments as_wire {Wire legal} _.
Arguments is_legal {Wire legal} _.

Definition try_from {Wire} (legal : Wire -> bool) (m : Wire) : result (Typed legal) Wire :=
  match legal m as l return legal m = l -> result (Typed legal) Wire with
  | true => fun H => Ok (mkTyped m H)
  | false => fun _ => Err m
  end eq_refl.

(** ** Handlers

    A handler is called with its own state and the caller's, and returns the
    message to go on with or an error; awaits inside it are sequential. *)
Class MessageMiddleware (H Message State E : Type) : Type :=
  intercept : H -> State -> Message -> result Message E * (H * State).

Inductive Identity : Type := mkIdentity.
Record Then (First Second : Type) : Type := mkThen { first : First; second : Second }.
Arguments mkThen {First Second}.
Arguments first {First Second} _.
Arguments second {First Second} _.

Inductive ChainError (First Second : Type) : Type :=
| InFirst (e : First)
| InSecond (e : Second).
Arguments InFirst {First Second} e.
Arguments InSecond {First Second} e.

Inductive WireAdapterError (E Wire : Type) : Type :=
| AdapterMiddleware (e : E)
| IllegalReplacement (m : Wire).
Arguments AdapterMiddleware {E Wire} e.
Arguments IllegalReplacement {E Wire} m.

#[export] Instance identity_middleware {Message State} : MessageMiddleware Identity Message State Empty_set :=
  fun h st m => (Ok m, (h, st)).

#[export] Instance then_middleware {First Second Message State E1 E2}
    `{MessageMiddleware First Message State E1} `{MessageMiddleware Second Message State E2}
    : MessageMiddleware (Then First Second) Message State (ChainError E1 E2) :=
  fun h st m =>
    match intercept (first h) st m with
    | (Ok m, (h1, st)) =>
        let '(r, (h2, st)) := intercept (second h) st m in (map_err InSecond r, (mkThen h1 h2, st))
    | (Err e, (h1, st)) => (Err (InFirst e), (mkThen h1 (second h), st))
    | (Panic, (h1, st)) => (Panic, (mkThen h1 (second h), st))
    end.

(** A closure is its own handler: captured values and a body. *)
Record Closure (C Message State E : Type) : Type := mkClosure {
  captured : C;
  call : C -> State -> Message -> result Message E * (C * State)
}.
Arguments mkClosure {C Message State E}.
Arguments captured {C Message State E} _.
Arguments call {C Message State E} _.

#[export] Instance closure_middleware {C Message State E}
    : MessageMiddleware (Closure C Message State E) Message State E :=
  fun h st m => let '(r, (c, st)) := call h (captured h) st m in (r, (mkClosure c (call h), st)).

(** [WireAdapter]: direction-wide middleware at a typed interception point. *)
Record WireAdapter (H : Type) : Type := mkAdapter { adapted : H }.
Arguments mkAdapter {H}.
Arguments adapted {H} _.

#[export] Instance adapter_middleware {H Wire State E} (legal : Wire -> bool) `{MessageMiddleware H Wire State E}
    : MessageMiddleware (WireAdapter H) (Typed legal) State (WireAdapterError E Wire) :=
  fun h st t =>
    match intercept (adapted h) st (as_wire t) with
    | (Ok m, (h, st)) => (map_err IllegalReplacement (try_from legal m), (mkAdapter h, st))
    | (Err e, (h, st)) => (Err (AdapterMiddleware e), (mkAdapter h, st))
    | (Panic, (h, st)) => (Panic, (mkAdapter h, st))
    end.

(** ** The interception unit *)

Record Middleware (State H : Type) : Type := mkMiddleware { mw_state : State; mw_handler : H }.
Arguments mkMiddleware {State H}.
Arguments mw_state {State H} _.
Arguments mw_handler {State H} _.

Inductive InterceptError (E Message : Type) : Type :=
| InterceptMiddleware (e : E)
| Invalid (m : Message).
Arguments InterceptMiddleware {E Message} e.
Arguments Invalid {E Message} m.

Inductive ReceiveError (E Message : Type) : Type :=
| ReceiveIo (e : io_error)
| ReceiveIntercept (e : InterceptError E Message).
Arguments ReceiveIo {E Message} e.
Arguments ReceiveIntercept {E Message} e.

Inductive TypedReceiveError (E Wire : Type) : Type :=
| TypedIo (e : io_error)
| TypedIllegal (m : Wire)
| TypedMiddleware (e : E)
| InvalidWire (m : Wire).
Arguments TypedIo {E Wire} e.
Arguments TypedIllegal {E Wire} m.
Arguments TypedMiddleware {E Wire} e.
Arguments InvalidWire {E Wire} m.

Section Interception.
Context {H State Message E : Type} `{MessageMiddleware H Message State E}.

Definition unit_intercept (m : Message) (mw : Middleware State H) : result Message E * Middleware State H :=
  let '(r, (h, st)) := intercept (mw_handler mw) (mw_state mw) m in (r, mkMiddleware st h).

Definition intercept_checked {P} `{AcceptsMessage P Message} `{ReconstructableMessage Message}
    (protocol_state : P) (m : Message) (mw : Middleware State H)
    : result Message (InterceptError E Message) * Middleware State H :=
  match unit_intercept m mw with
  | (Ok m, mw) =>
      if is_reconstructable m && accepts protocol_state m then (Ok m, mw) else (Err (Invalid m), mw)
  | (Err e, mw) => (Err (InterceptMiddleware e), mw)
  | (Panic, mw) => (Panic, mw)
  end.

(** [read] is the outcome of the awaited read. *)
Definition receive_checked {P} `{AcceptsMessage P Message} `{ReconstructableMessage Message}
    (read : io Message) (protocol_state : P) (mw : Middleware State H)
    : result Message (ReceiveError E Message) * Middleware State H :=
  match read with
  | Ok m => let (r, mw) := intercept_checked protocol_state m mw in (map_err ReceiveIntercept r, mw)
  | Err e => (Err (ReceiveIo e), mw)
  | Panic => (Panic, mw)
  end.
End Interception.

Section TypedInterception.
Context {H State Wire E : Type} (legal : Wire -> bool).
Context `{MessageMiddleware H (Typed legal) State E} `{ReconstructableMessage Wire}.

Definition intercept_outbound_typed (t : Typed legal) (mw : Middleware State H)
    : result (Typed legal) (TypedReceiveError E Wire) * Middleware State H :=
  match unit_intercept t mw with
  | (Ok t, mw) =>
      if is_reconstructable (as_wire t) then (Ok t, mw) else (Err (InvalidWire (as_wire t)), mw)
  | (Err e, mw) => (Err (TypedMiddleware e), mw)
  | (Panic, mw) => (Panic, mw)
  end.

Definition receive_typed (read : io Wire) (mw : Middleware State H)
    : result (Typed legal) (TypedReceiveError E Wire) * Middleware State H :=
  match read with
  | Ok m =>
      match try_from legal m with
      | Ok t =>
          match unit_intercept t mw with
          | (Ok t, mw) =>
              if is_reconstructable (as_wire t) then (Ok t, mw) else (Err (InvalidWire (as_wire t)), mw)
          | (Err e, mw) => (Err (TypedMiddleware e), mw)
          | (Panic, mw) => (Panic, mw)
          end
      | Err m => (Err (TypedIllegal m), mw)
      | Panic => (Panic, mw)
      end
  | Err e => (Err (TypedIo e), mw)
  | Panic => (Panic, mw)
  end.
End TypedInterception.

(** ** Receiving through middleware *)

Section Receiving.
Context {S State H E P : Type} `{AsyncIo S} `{MessageMiddleware H BackendMessage State E}.
Context `{AcceptsMessage P BackendMessage}.

Definition receive_backend_wire_with_middleware (fuel : nat) (cancelled : nat -> bool) (protocol_state : P)
    (mw : Middleware State H) (b : Buffered S)
    : option (result BackendMessage (ReceiveError E BackendMessage)) * Middleware State H * Buffered S :=
  match receive_backend fuel cancelled b with
  | (Some read, b) => let (r, mw) := receive_checked read protocol_state mw in (Some r, mw, b)
  | (None, b) => (None, mw, b)
  end.

Fixpoint receive_with_middleware (receives fuel : nat) (cancelled : nat -> bool) (protocol_state : P)
    (mw : Middleware State H) (b : Buffered S)
    : option (result SessionItem (ReceiveError E BackendMessage)) * Middleware State H * Buffered S :=
  match receives with
  | O => (None, mw, b)
  | Datatypes.S receives =>
      match receive_backend_wire_with_middleware fuel cancelled protocol_state mw b with
      | (Some (Ok m), mw, b) =>
          match project_backend m b with
          | (Some item, b) => (Some (Ok item), mw, b)
          | (None, b) => receive_with_middleware receives fuel cancelled protocol_state mw b
          end
      | (Some (Err e), mw, b) => (Some (Err e), mw, b)
      | (Some Panic, mw, b) => (Some Panic, mw, b)
      | (None, mw, b) => (None, mw, b)
      end
  end.
End Receiving.

(** ** Typed messages *)

Lemma try_from_spec {Wire} (legal : Wire -> bool) m :
  match try_from legal m with
  | Ok t => as_wire t = m /\ legal m = true
  | Err m' => m' = m /\ legal m = false
  | Panic => False
  end.
Proof.
  unfold try_from.
  assert (forall l (e : legal m = l),
    match (match l as l return legal m = l -> result (Typed legal) Wire with
           | true => fun H => Ok (mkTyped m H) | false => fun _ => Err m end e) with
    | Ok t => as_wire t = m /\ legal m = true
    | Err m' => m' = m /\ legal m = false
    | Panic => False
    end) as Hl by (intros [] e; done).
  apply Hl.
Qed.

(** ** Composition *)

Definition regroup_error {E1 E2 E3} (e : ChainError (ChainError E1 E2) E3) : ChainError E1 (ChainError E2 E3) :=
  match e with
  | InFirst (InFirst e) => InFirst e
  | InFirst (InSecond e) => InSecond (InFirst e)
  | InSecond e => InSecond (InSecond e)
  end.

Definition regroup {A B C} (h : Then (Then A B) C) : Then A (Then B C) :=
  mkThen (first (first h)) (mkThen (second (first h)) (second h)).

(** Handlers compose as a monoid. Regrouping a chain of three changes neither
    the message, the user state nor the handlers, and renames only the position
    an error reports; the identity handler is neutral on both sides. *)
Theorem middleware_monoid {A B C M State E1 E2 E3} `{Ha : MessageMiddleware A M State E1}
    `{Hb : MessageMiddleware B M State E2} `{Hc : MessageMiddleware C M State E3} (a : A) (b : B) (c : C) st m :
  (let '(r, (h, st')) := intercept (mkThen (mkThen a b) c) st m in
   intercept (mkThen a (mkThen b c)) st m = (map_err regroup_error r, (regroup h, st'))) /\
  (let '(r, (h, st')) := intercept a st m in
   intercept (mkThen mkIdentity a) st m = (map_err InSecond r, (mkThen mkIdentity h, st')) /\
   intercept (mkThen a mkIdentity) st m = (map_err InFirst r, (mkThen h mkIdentity, st'))).
Proof.
  unfold intercept, then_middleware, identity_middleware. cbn. unfold intercept. cbn.
  destruct (Ha a st m) as [[m1|e1|] [a1 st1]]; cbn; [|done..]. split; [|done].
  destruct (Hb b st1 m1) as [[m2|e2|] [b1 st2]]; cbn; [|done..].
  now destruct (Hc c st2 m2) as [[m3|e3|] [c1 st3]].
Qed.

(** ** Typed and checked interception *)

(** The typed error of an adapted handler as an error of checked interception. *)
Definition collapse {Wire E} {legal : Wire -> bool}
    (r : result (Typed legal) (TypedReceiveError (WireAdapterError E Wire) Wire))
    : result Wire (ReceiveError E Wire) :=
  match r with
  | Ok t => Ok (as_wire t)
  | Err (TypedIo e) => Err (ReceiveIo e)
  | Err (TypedMiddleware (AdapterMiddleware e)) => Err (ReceiveIntercept (InterceptMiddleware e))
  | Err (TypedMiddleware (IllegalReplacement m)) | Err (InvalidWire m) | Err (TypedIllegal m) =>
      Err (ReceiveIntercept (Invalid m))
  | Panic => Panic
  end.

(** Typed and runtime-checked interception agree. A handler adapted to a
    phase's message type receives exactly what the same handler receives through
    the runtime check of that phase: the same message or, up to the name of the
    error, the same failure, with the same handler and user state afterwards.
    A peer message illegal in the phase never reaches the typed handler. *)
Theorem typed_receive_agrees {H State Wire E P} `{Hh : MessageMiddleware H Wire State E}
    `{AcceptsMessage P Wire} `{ReconstructableMessage Wire} (p : P) (read : io Wire) st (h : H) :
  let '(rt, mt) := receive_typed (accepts p) read (mkMiddleware st (mkAdapter h)) in
  match read with
  | Ok m =>
      if accepts p m then
        receive_checked read p (mkMiddleware st h) = (collapse rt, mkMiddleware (mw_state mt) (adapted (mw_handler mt)))
      else rt = Err (TypedIllegal m) /\ mt = mkMiddleware st (mkAdapter h)
  | _ => receive_checked read p (mkMiddleware st h) = (collapse rt, mkMiddleware st h) /\
      mt = mkMiddleware st (mkAdapter h)
  end.
Proof.
  destruct read as [m|e|]; cbn; [|done..]. pose proof (try_from_spec (accepts p) m) as Ht.
  destruct (try_from (accepts p) m) as [t|m'|] eqn:Et; [| |done].
  2:{ destruct Ht as [-> Hl]. now rewrite Hl. }
  destruct Ht as [<- Hl]. rewrite Hl. unfold unit_intercept, intercept_checked, unit_intercept. cbn.
  unfold intercept, adapter_middleware. cbn. unfold intercept.
  destruct (Hh h st (as_wire t)) as [[m1|e1|] [h1 st1]]; cbn; [|done..].
  pose proof (try_from_spec (accepts p) m1) as Ht1.
  destruct (try_from (accepts p) m1) as [t1|m1'|]; cbn; [| |done].
  - destruct Ht1 as [<- Hl1]. rewrite Hl1, andb_true_r. now destruct (is_reconstructable (as_wire t1)).
  - destruct Ht1 as [-> Hl1]. rewrite Hl1, andb_false_r. done.
Qed.

(** ** Interception in front of the session stream *)

Section Stream.
Context {S State H E P : Type} `{AsyncIo S} `{Hh : MessageMiddleware H BackendMessage State E}.
Context `{AcceptsMessage P BackendMessage}.

(** The unit turns the messages [ms] into [ms'], all of them legal in [p]. *)
Inductive rewrites (p : P) : Middleware State H -> list BackendMessage -> list BackendMessage -> Middleware State H -> Prop :=
| rewrites_nil mw : rewrites p mw [] [] mw
| rewrites_cons mw m m' mw1 ms ms' mw2 :
    intercept_checked p m mw = (Ok m', mw1) -> rewrites p mw1 ms ms' mw2 ->
    rewrites p mw (m :: ms) (m' :: ms') mw2.

Lemma receive_intercepted fuel cancelled p mw b m m' mw1 w tail events s2 :
  codec_valid (inbound_codec b) -> tagged (inbound_codec b) m w ->
  delivers (stream b) events s2 -> inbound b ++ chunks events = w ++ tail ->
  (2 * length events + 1 <= fuel)%nat -> intercept_checked p m mw = (Ok m', mw1) ->
  exists events' s i,
    receive_backend_wire_with_middleware fuel cancelled p mw b =
      (Some (Ok m'), mw1, set_inbound i (set_stream s b)) /\
    delivers s events' s2 /\ i ++ chunks events' = tail /\ (length events' <= length events)%nat.
Proof.
  intros Hc Hm Hd Hb Hf Hi. pose proof (tagged_decoder (M := BackendMessage) (inbound_codec b) Hc) as Hdec.
  unfold receive_backend_wire_with_middleware, receive_backend, receive_wire.
  destruct (receive_loop_message _ _ "peer closed with no complete message"
              events b fuel cancelled m w _ s2 Hd Hm Hb Hf) as (ev1 & s1 & i1 & -> & Hd1 & Hi1 & Hl1).
  cbn. rewrite Hi. cbn. now exists ev1, s1, i1.
Qed.

Lemma receive_rewritten p ms : forall mw mw1 mw2 ms' b ws w m m' events receives fuel cancelled tail s2,
  codec_valid (inbound_codec b) -> Forall2 (tagged (inbound_codec b)) ms ws -> tagged (inbound_codec b) m w ->
  rewrites p mw ms ms' mw1 -> intercept_checked p m mw1 = (Ok m', mw2) ->
  Forall (fun m => consumed m = true) ms' -> consumed m' = false ->
  delivers (stream b) events s2 -> inbound b ++ chunks events = concat ws ++ w ++ tail ->
  (length ms < receives)%nat -> (2 * length events + 1 <= fuel)%nat ->
  exists item events' s i,
    receive_with_middleware receives fuel cancelled p mw b =
      (Some (Ok item), mw2, set_demux (route_all (ms' ++ [m']) (demux b)) (set_inbound i (set_stream s b))) /\
    fst (route m' (route_all ms' (demux b))) = Some item /\ into_backend_message item = m' /\
    delivers s events' s2 /\ i ++ chunks events' = tail.
Proof.
  induction ms as [|m0 ms IH];
    intros mw mw1 mw2 ms' b ws w m m' events receives fuel cancelled tail s2
      Hc Hws Hw Hr Hi Hcons Hm' Hd Hb Hn Hf.
  all: destruct receives as [|receives]; [simpl in Hn; lia|]; cbn [receive_with_middleware].
  all: inversion Hws as [|? w0 ? ws' Hm0 Hws']; subst; inversion Hr as [|? ? m0' mwa ? ms1 ? Hi0 Hr']; subst;
    simpl in Hb; rewrite <- ?app_assoc in Hb.
  - destruct (receive_intercepted fuel cancelled p mw1 b m m' mw2 w tail events s2)
      as (ev1 & s1 & i1 & -> & Hd1 & Hi1 & Hl1); [done..|].
    destruct (route_item m' (demux b) Hm') as (item & Hr1 & Hitem). exists item, ev1, s1, i1.
    unfold project_backend. cbn [demux set_inbound set_stream route_all foldl app].
    destruct (route m' (demux b)) as [o d]. cbn in Hr1 |- *. subst o. done.
  - apply Forall_cons in Hcons as [Hc0 Hcons].
    destruct (receive_intercepted fuel cancelled p mw b m0 m0' mwa w0 _ events s2 Hc Hm0 Hd Hb Hf Hi0)
      as (ev1 & s1 & i1 & -> & Hd1 & Hi1 & Hl1).
    assert (Hr0 : project_backend m0' (set_inbound i1 (set_stream s1 b)) =
      (None, set_demux (snd (route m0' (demux b))) (set_inbound i1 (set_stream s1 b))))
      by (destruct m0'; done || discriminate Hc0).
    rewrite Hr0.
    destruct (IH mwa mw1 mw2 ms1 (set_demux (snd (route m0' (demux b))) (set_inbound i1 (set_stream s1 b)))
                ws' w m m' ev1 receives fuel cancelled tail s2)
      as (item & ev2 & s3 & i2 & E1 & Hroute & Hitem & Hd2 & Hi2); try done; [simpl in *; lia..|].
    exists item, ev2, s3, i2. split; [exact E1|]. split; [exact Hroute|done].
Qed.
End Stream.

(** Rewriting in front of the session stream. Messages received through
    middleware are intercepted one by one in wire order, and the demultiplexer
    and the session see exactly the replacements: the replacements of the
    leading messages are recorded, the first other replacement is returned as
    the session item, the unit ends in the state the interceptions left, and
    everything behind stays in the stream. *)
Theorem receive_with_middleware_exact {S State H E P} `{AsyncIo S} `{MessageMiddleware H BackendMessage State E}
    `{AcceptsMessage P BackendMessage} (p : P) (mw mw1 mw2 : Middleware State H) (b : Buffered S)
    ms ms' ws m m' w events receives fuel cancelled tail s2 :
  codec_valid (inbound_codec b) ->
  Forall2 (tagged (inbound_codec b)) ms ws -> tagged (inbound_codec b) m w ->
  rewrites p mw ms ms' mw1 -> intercept_checked p m mw1 = (Ok m', mw2) ->
  Forall (fun m => consumed m = true) ms' -> consumed m' = false ->
  delivers (stream b) events s2 -> inbound b ++ chunks events = concat ws ++ w ++ tail ->
  (length ms < receives)%nat -> (2 * length events + 1 <= fuel)%nat ->
  exists item events' s i,
    receive_with_middleware receives fuel cancelled p mw b =
      (Some (Ok item), mw2, set_demux (route_all (ms' ++ [m']) (demux b)) (set_inbound i (set_stream s b))) /\
    fst (route m' (route_all ms' (demux b))) = Some item /\ into_backend_message item = m' /\
    delivers s events' s2 /\ i ++ chunks events' = tail.
Proof. apply receive_rewritten. Qed.

(** Counts the messages it sees and hides the values of parameter reports. *)
Definition hide_values : Closure unit BackendMessage Z Empty_set :=
  mkClosure tt (fun c n m =>
    (Ok (match m with B_ParameterStatus name _ => B_ParameterStatus name [] | m => m end), (c, n + 1))).

Lemma receive_with_middleware_exact_witness :
  exists item events' s i,
    receive_with_middleware 2 7 (fun _ => false) (FrontendState "AwaitingReady") (mkMiddleware 0 hide_values)
        (Buffered_new (script_of example_backend)) =
      (Some (Ok item), mkMiddleware 2 hide_values,
       set_demux (route_all [B_ParameterStatus ["a"%byte] []; B_ReadyForQuery Idle] Demux_default)
         (set_inbound i (set_stream s (Buffered_new (script_of example_backend))))) /\
    fst (route (B_ReadyForQuery Idle)
      (route_all [B_ParameterStatus ["a"%byte] []] Demux_default)) = Some item /\
    into_backend_message item = B_ReadyForQuery Idle /\
    delivers s events' (mkScript [] [] (chunks example_backend) []) /\ i ++ chunks events' = [x31].
Proof.
  apply (receive_with_middleware_exact (FrontendState "AwaitingReady") (mkMiddleware 0 hide_values)
           (mkMiddleware 1 hide_values) _ (Buffered_new (script_of example_backend))
           [B_ParameterStatus ["a"%byte] ["b"%byte]] [B_ParameterStatus ["a"%byte] []]
           [wire_image (mkFrame "S"%byte ["a"%byte; x00; "b"%byte; x00])]
           (B_ReadyForQuery Idle) (B_ReadyForQuery Idle) (wire_image (mkFrame "Z"%byte ["I"%byte])) example_backend);
    try reflexivity; try apply codec_default_valid.
  - repeat constructor. eexists. split; [|split; [reflexivity|vm_compute; discriminate]]. reflexivity.
  - eexists. split; [|split; [reflexivity|vm_compute; discriminate]]. reflexivity.
  - eapply rewrites_cons; [vm_compute; reflexivity|constructor].
  - repeat constructor.
  - repeat econstructor; discriminate.
  - simpl. lia.
Defined.

(** What a checked interception lets through can be sent and advances the
    session. In every phase of the client grammar a frontend message returned by
    the checked interception has a wire form and steps the runtime machine along
    an edge of the grammar; if it is well typed the peer decodes it unchanged. *)
Theorem checked_replacement_advances {State H E} `{MessageMiddleware H FrontendMessage State E}
    s m m' (mw mw' : Middleware State H) :
  intercept_checked (FrontendState s) m mw = (Ok m', mw') ->
  exists f e t, FrontendMessage_to_frame m' = Ok f /\
    (FrontendMessage_typed m' -> Frontend_decode f = Ok m') /\
    step_projected frontend m' (project_internal frontend) (mkFsm s) = (Ok e, mkFsm t) /\
    edge frontend s e t.
Proof.
  unfold intercept_checked. destruct (unit_intercept m mw) as [[m1|e1|] mw1]; [|done..].
  destruct (is_reconstructable m1) eqn:Er; [|done]. destruct (accepts (FrontendState s) m1) eqn:Ea; [|done].
  intros Heq. injection Heq as -> ->. unfold is_reconstructable, frontend_reconstructable in Er.
  destruct (FrontendMessage_to_frame m') as [f| |] eqn:Ef; [|done..].
  unfold accepts, frontend_accepts_frontend in Ea. destruct (project_internal frontend s m') as [e|] eqn:Ep; [|done].
  pose proof (fsm_step_projected_exact frontend (mkFsm s) m') as Hs.
  destruct (step_projected frontend m' (project_internal frontend) (mkFsm s)) as [r [t]].
  cbn [Fsm.state] in Hs. rewrite Ep in Hs. destruct Hs as (-> & He & _).
  exists f, e, t. split; [done|]. split; [|done]. intros Ht. exact (decode_to_frame (canonical := FrontendMessage_typed) m' f Ht Ef).
Qed.

Lemma checked_replacement_advances_witness :
  exists f e t, FrontendMessage_to_frame (F_Query ["x"%byte]) = Ok f /\
    (FrontendMessage_typed (F_Query ["x"%byte]) -> Frontend_decode f = Ok (F_Query ["x"%byte])) /\
    step_projected frontend (F_Query ["x"%byte]) (project_internal frontend) (mkFsm "Ready") = (Ok e, mkFsm t) /\
    edge frontend "Ready" e t.
Proof.
  apply (checked_replacement_advances (E := Empty_set) "Ready" F_Terminate (F_Query ["x"%byte])
           (mkMiddleware tt (mkClosure tt (fun c st _ => (Ok (F_Query ["x"%byte]), (c, st)))))
           (mkMiddleware tt (mkClosure tt (fun c st _ => (Ok (F_Query ["x"%byte]), (c, st)))))).
  vm_compute. reflexivity.
Defined.
