(* ===== verification/RuntimeMiddleware.v ===== *)
(** Per-connection middleware of the builder facade: src/runtime_middleware.rs.
    Hooks are infallible and synchronous; a factory makes one handler per
    connection, and builders compose factories in declaration order. *)

From Stdlib Require Import ZArith Lia String.
From Stdlib Require Import Init.Byte.
From stdpp Require Import prelude.
From S2P Require Import Prelude OrdMap Wire Frame Frontend Startup PreStartup Backend.

(** [CancellationRequest] of src/server_component.rs *)
Record CancellationRequest : Type := mkCancellation { cancel_process_id : Z (* u32 *); cancel_secret_key : bytes }.

(** [fn hook(&mut self, context: &Context, state: &mut State, message: M) -> M] *)
Definition hook (H Context State M : Type) : Type := H -> Context -> State -> M -> M * (H * State).

Class ClientMiddleware (H State Context : Type) : Type := {
  client_pre_startup : hook H Context State PreStartupMessage;
  client_startup : hook H Context State StartupMessage;
  client_frontend : hook H Context State FrontendMessage;
  client_backend : hook H Context State BackendMessage
}.

Class ServerMiddleware (H State Context : Type) : Type := {
  server_pre_startup_hook : hook H Context State PreStartupMessage;
  server_startup : hook H Context State StartupMessage;
  server_cancellation : hook H Context State CancellationRequest;
  server_frontend : hook H Context State FrontendMessage;
  server_backend : hook H Context State BackendMessage
}.

Class MiddlewareFactory (F Context H : Type) : Type := create : F -> Context -> H.

(** A closure is a factory. *)
#[export] Instance closure_factory {Context H} : MiddlewareFactory (Context -> H) Context H := fun f => f.

Inductive IdentityMiddleware : Type := mkIdentityMiddleware.

(** The trait's default method. *)
Definition default_hook {H Context State M} : hook H Context State M := fun h _ st m => (m, (h, st)).

#[export] Instance identity_factory {Context} : MiddlewareFactory IdentityMiddleware Context IdentityMiddleware :=
  fun f _ => f.
#[export] Instance identity_client {State Context} : ClientMiddleware IdentityMiddleware State Context := {
  client_pre_startup := default_hook;
  client_startup := default_hook;
  client_frontend := default_hook;
  client_backend := default_hook
}.
#[export] Instance identity_server {State Context} : ServerMiddleware IdentityMiddleware State Context := {
  server_pre_startup_hook := default_hook;
  server_startup := default_hook;
  server_cancellation := default_hook;
  server_frontend := default_hook;
  server_backend := default_hook
}.

Record MiddlewareChain (First Second : Type) : Type := mkChain { chain_first : First; chain_second : Second }.
Arguments mkChain {First Second}.
Arguments chain_first {First Second} _.
Arguments chain_second {First Second} _.

#[export] Instance chain_factory {F1 F2 Context H1 H2} `{MiddlewareFactory F1 Context H1}
    `{MiddlewareFactory F2 Context H2} : MiddlewareFactory (MiddlewareChain F1 F2) Context (MiddlewareChain H1 H2) :=
  fun f context => mkChain (create (chain_first f) context) (create (chain_second f) context).

(** The body every method of the chain has. *)
Definition chain_hook {H1 H2 Context State M} (first : hook H1 Context State M) (second : hook H2 Context State M)
    : hook (MiddlewareChain H1 H2) Context State M :=
  fun h context st m =>
    let '(m, (h1, st)) := first (chain_first h) context st m in
    let '(m, (h2, st)) := second (chain_second h) context st m in
    (m, (mkChain h1 h2, st)).

#[export] Instance chain_client {H1 H2 State Context} `{ClientMiddleware H1 State Context}
    `{ClientMiddleware H2 State Context} : ClientMiddleware (MiddlewareChain H1 H2) State Context := {
  client_pre_startup := chain_hook client_pre_startup client_pre_startup;
  client_startup := chain_hook client_startup client_startup;
  client_frontend := chain_hook client_frontend client_frontend;
  client_backend := chain_hook client_backend client_backend
}.
#[export] Instance chain_server {H1 H2 State Context} `{ServerMiddleware H1 State Context}
    `{ServerMiddleware H2 State Context} : ServerMiddleware (MiddlewareChain H1 H2) State Context := {
  server_pre_startup_hook := chain_hook server_pre_startup_hook server_pre_startup_hook;
  server_startup := chain_hook server_startup server_startup;
  server_cancellation := chain_hook server_cancellation server_cancellation;
  server_frontend := chain_hook server_frontend server_frontend;
  server_backend := chain_hook server_backend server_backend
}.

(** ** Sessions of one connection *)

(** A connection's traffic through its server-role handler. *)
Inductive server_event : Type :=
| Ev_PreStartup (m : PreStartupMessage)
| Ev_Startup (m : StartupMessage)
| Ev_Cancellation (m : CancellationRequest)
| Ev_Frontend (m : FrontendMessage)
| Ev_Backend (m : BackendMessage).

Section Traffic.
Context {H State Context : Type} `{ServerMiddleware H State Context}.

Definition on_event (context : Context) (e : server_event) (h : H) (st : State) : server_event * (H * State) :=
  match e with
  | Ev_PreStartup m => let '(m, hs) := server_pre_startup_hook h context st m in (Ev_PreStartup m, hs)
  | Ev_Startup m => let '(m, hs) := server_startup h context st m in (Ev_Startup m, hs)
  | Ev_Cancellation m => let '(m, hs) := server_cancellation h context st m in (Ev_Cancellation m, hs)
  | Ev_Frontend m => let '(m, hs) := server_frontend h context st m in (Ev_Frontend m, hs)
  | Ev_Backend m => let '(m, hs) := server_backend h context st m in (Ev_Backend m, hs)
  end.

Fixpoint traffic (context : Context) (es : list server_event) (h : H) (st : State)
    : list server_event * (H * State) :=
  match es with
  | [] => ([], (h, st))
  | e :: es =>
      let '(e, (h, st)) := on_event context e h st in
      let '(es, hs) := traffic context es h st in (e :: es, hs)
  end.
End Traffic.

Definition regroup_chain {A B C} (h : MiddlewareChain (MiddlewareChain A B) C) : MiddlewareChain A (MiddlewareChain B C) :=
  mkChain (chain_first (chain_first h)) (mkChain (chain_second (chain_first h)) (chain_second h)).

Lemma on_event_assoc {A B C State Context} `{ServerMiddleware A State Context}
    `{ServerMiddleware B State Context} `{ServerMiddleware C State Context} context e h st :
  on_event context e (regroup_chain h) st =
  let '(e', (h', st')) := on_event (H := MiddlewareChain (MiddlewareChain A B) C) context e h st in
  (e', (regroup_chain h', st')).
Proof.
  destruct h as [[a b] c]. destruct e; cbn; unfold chain_hook; cbn; repeat case_match; simplify_eq; done.
Qed.

(** The grouping of a chain does not matter: over any traffic of a connection a
    left-nested and a right-nested chain of three handlers transform the
    messages, the shared state and the handlers alike. *)
Theorem runtime_chain_associative {A B C State Context} `{ServerMiddleware A State Context}
    `{ServerMiddleware B State Context} `{ServerMiddleware C State Context} context es :
  forall (h : MiddlewareChain (MiddlewareChain A B) C) (st : State),
  traffic context es (regroup_chain h) st =
  let '(es', (h', st')) := traffic context es h st in (es', (regroup_chain h', st')).
Proof.
  induction es as [|e es IH]; intros h st; [done|]. cbn [traffic]. rewrite on_event_assoc.
  destruct (on_event context e h st) as [e' [h' st']]. rewrite IH.
  now destruct (traffic context es h' st') as [es' [h'' st'']].
Qed.

(** The identity handler placed first or last in a chain changes neither the
    traffic, the user state nor the other handler. *)
Theorem runtime_chain_identity {A State Context} `{ServerMiddleware A State Context} context es :
  forall (a : A) (st : State),
  (let '(es', (a', st')) := traffic context es a st in
   traffic context es (mkChain mkIdentityMiddleware a) st = (es', (mkChain mkIdentityMiddleware a', st')) /\
   traffic context es (mkChain a mkIdentityMiddleware) st = (es', (mkChain a' mkIdentityMiddleware, st'))).
Proof.
  induction es as [|e es IH]; intros a st; [done|]. cbn [traffic].
  assert (He : let '(e', (a', st')) := on_event context e a st in
    on_event context e (mkChain mkIdentityMiddleware a) st = (e', (mkChain mkIdentityMiddleware a', st')) /\
    on_event context e (mkChain a mkIdentityMiddleware) st = (e', (mkChain a' mkIdentityMiddleware, st')))
    by (destruct e; cbn; unfold chain_hook, default_hook; cbn; repeat case_match; simplify_eq; done).
  destruct (on_event context e a st) as [e' [a' st']]. destruct He as [-> ->].
  specialize (IH a' st'). destruct (traffic context es a' st') as [es' [a'' st'']].
  now destruct IH as [-> ->].
Qed.
