(* ===== verification/Tls.v ===== *)
(** TLS upgrades with their channel binding (src/tls.rs) and TCP establishment
    (src/net.rs). rustls, the certificate parser and the sockets are
    interfaces. *)

From Stdlib Require Import ZArith Lia String Sorted.
From Stdlib Require Import Init.Byte.
From stdpp Require Import prelude.
From S2P Require Import Prelude OrdMap Wire Frame Frontend Startup PreStartup Backend Demux Transport.

Local Open Scope string_scope.
Local Open Scope Z_scope.
Local Open Scope list_scope.

(** ** The libraries underneath *)

(** rustls' certificate verification. Certificates are DER bytes. *)
Class Rustls : Type := {
  RootCertStore : Type;
  ServerName : Type;
  UnixTime : Type;
  TlsError : Type;
  WebPkiSupportedAlgorithms : Type;
  ParsedCertificate : Type;
  WebPkiServerVerifier : Type;
  (** of the default provider *)
  signature_verification_algorithms : WebPkiSupportedAlgorithms;
  parse_certificate : bytes -> result ParsedCertificate TlsError;
  verify_signed_by_trust_anchor : ParsedCertificate -> RootCertStore -> list bytes -> UnixTime ->
    WebPkiSupportedAlgorithms -> result unit TlsError;
  (** [WebPkiServerVerifier::builder(roots).build()], its error as text *)
  build_verifier : RootCertStore -> result WebPkiServerVerifier string;
  general_error : string -> TlsError;
  (** the verifier [with_root_certificates] installs *)
  webpki_verifier : RootCertStore -> WebPkiServerVerifier;
  webpki_verify : WebPkiServerVerifier -> bytes -> list bytes -> ServerName -> UnixTime -> result unit TlsError
}.

(** x509_parser and sha2. *)
Class Certificates : Type := {
  X509 : Type;
  from_der : bytes -> result X509 string;
  (** the hash of [RSASSA_PSS] parameters *)
  pss_hash_oid : X509 -> option string;
  signature_algorithm_oid : X509 -> string;
  sha256_digest : bytes -> bytes;
  sha384_digest : bytes -> bytes;
  sha512_digest : bytes -> bytes
}.

(** ** Certificate verification: src/tls.rs *)

Section Verification.
Context `{Rustls}.

Record CertificateVerifier : Type := mkCertificateVerifier {
  verifier_verification : CertificateVerification;
  verifier_roots : RootCertStore;
  verifier_supported : WebPkiSupportedAlgorithms
}.

Definition verify_server_cert (v : CertificateVerifier) (end_entity : bytes) (intermediates : list bytes)
    (server_name : ServerName) (now : UnixTime) : result unit TlsError :=
  match verifier_verification v with
  | VerifyNone => Ok tt
  | CertificateAuthority =>
      let? parsed := parse_certificate end_entity in
      let? _ := verify_signed_by_trust_anchor parsed (verifier_roots v) intermediates now (verifier_supported v) in
      Ok tt
  | CertificateAuthorityAndHost =>
      let? verifier := map_err general_error (build_verifier (verifier_roots v)) in
      webpki_verify verifier end_entity intermediates server_name now
  end.

(** [ClientConfig], as its builder is used. *)
Inductive ClientConfig : Type :=
| with_root_certificates (roots : RootCertStore)
| with_custom_certificate_verifier (verifier : CertificateVerifier).

Definition client_config (mode : SslMode) (roots : RootCertStore) : ClientConfig :=
  let verification := verification (strategy mode) in
  match verification with
  | CertificateAuthorityAndHost => with_root_certificates roots
  | _ => with_custom_certificate_verifier (mkCertificateVerifier verification roots signature_verification_algorithms)
  end.

(** What a configuration checks of a peer's chain. *)
Definition config_verify (config : ClientConfig) (end_entity : bytes) (intermediates : list bytes)
    (server_name : ServerName) (now : UnixTime) : result unit TlsError :=
  match config with
  | with_root_certificates roots => webpki_verify (webpki_verifier roots) end_entity intermediates server_name now
  | with_custom_certificate_verifier v => verify_server_cert v end_entity intermediates server_name now
  end.
End Verification.

Section ChannelBinding.
Context `{Certificates}.

Definition binding_oid (parsed : X509) : string :=
  match pss_hash_oid parsed with Some oid => oid | None => signature_algorithm_oid parsed end.

Definition channel_binding (certificate : bytes) : io bytes :=
  let? parsed := map_err (fun error => invalid ("invalid TLS certificate: " ++ error)) (from_der certificate) in
  Ok match binding_oid parsed with
     | "2.16.840.1.101.3.4.2.2" | "1.2.840.113549.1.1.12" | "1.2.840.10045.4.3.3" => sha384_digest certificate
     | "2.16.840.1.101.3.4.2.3" | "1.2.840.113549.1.1.13" | "1.2.840.10045.4.3.4" => sha512_digest certificate
     | _ => sha256_digest certificate
     end.
End ChannelBinding.

(** ** Upgrades *)

(** tokio_rustls: the two handshakes and the streams they yield. *)
Class TlsLibrary `{Rustls} : Type := {
  ClientStream : Type -> Type;
  ServerStream : Type -> Type;
  ServerConfig : Type;
  connector_connect {S} : ClientConfig -> ServerName -> S -> io (ClientStream S);
  acceptor_accept {S} : ServerConfig -> S -> io (ServerStream S);
  peer_certificates {S} : ClientStream S -> option (list bytes);
  #[global] ClientStream_io {S} `{AsyncIo S} :: AsyncIo (ClientStream S);
  #[global] ServerStream_io {S} `{AsyncIo S} :: AsyncIo (ServerStream S)
}.

(** A completed client handshake has had the chain it reports verified as the
    configuration demands. *)
Class TlsLibraryLaws `{TlsLibrary} : Prop :=
  handshake_verified S config name (s : S) inner : connector_connect config name s = Ok inner ->
    exists end_entity intermediates now, peer_certificates inner = Some (end_entity :: intermediates) /\
      config_verify config end_entity intermediates name now = Ok tt.

Class TlsServerEndPoint (S : Type) : Type := tls_server_end_point : S -> bytes.

Record ClientTls `{TlsLibrary} (S : Type) : Type := mkClientTls { client_inner : ClientStream S; client_end_point : bytes }.
Record ServerTls `{TlsLibrary} (S : Type) : Type := mkServerTls { server_inner : ServerStream S; server_end_point : bytes }.
Arguments mkClientTls {_ _ S}. Arguments client_inner {_ _ S}. Arguments client_end_point {_ _ S}.
Arguments mkServerTls {_ _ S}. Arguments server_inner {_ _ S}. Arguments server_end_point {_ _ S}.

(** An operation of a stream reached through another value, as [Pin::new(&mut self.inner)]. *)
Definition delegate {S W A} (wrap : S -> W) (op : S -> A * S) (s : S) : A * W := let (a, s) := op s in (a, wrap s).

Definition delegate_io {S W} `{AsyncIo S} (inner : W -> S) (wrap : W -> S -> W) : AsyncIo W := {|
  poll_read w := delegate (wrap w) poll_read (inner w);
  poll_read_u8 w := delegate (wrap w) poll_read_u8 (inner w);
  poll_write offered w := delegate (wrap w) (poll_write offered) (inner w);
  poll_flush w := delegate (wrap w) poll_flush (inner w)
|}.

Section Upgrades.
Context `{TlsLibrary} `{Certificates}.

#[export] Instance ClientTls_end_point {S} : TlsServerEndPoint (ClientTls S) := client_end_point.
#[export] Instance ServerTls_end_point {S} : TlsServerEndPoint (ServerTls S) := server_end_point.
#[export] Instance ClientTls_io {S} `{AsyncIo S} : AsyncIo (ClientTls S) :=
  delegate_io client_inner (fun t s => mkClientTls s (client_end_point t)).
#[export] Instance ServerTls_io {S} `{AsyncIo S} : AsyncIo (ServerTls S) :=
  delegate_io server_inner (fun t s => mkServerTls s (server_end_point t)).

Definition tls_connect {S} (stream : S) (server_name : ServerName) (config : ClientConfig) : io (ClientTls S) :=
  let? inner := connector_connect config server_name stream in
  match peer_certificates inner with
  | Some (certificate :: _) => let? binding := channel_binding certificate in Ok (mkClientTls inner binding)
  | _ => Err (invalid "TLS peer sent no certificate")
  end.

Definition tls_accept {S} (stream : S) (config : ServerConfig) (leaf_certificate : bytes) : io (ServerTls S) :=
  let? binding := channel_binding leaf_certificate in
  let? inner := acceptor_accept config stream in
  Ok (mkServerTls inner binding).
End Upgrades.

(** ** Network streams: src/net.rs *)

Inductive AlreadyTls : Type := mkAlreadyTls.

Section NetworkStreams.
Context `{TlsLibrary} {S : Type}.

Inductive NetworkStream : Type :=
| NetPlain (stream : S)
| NetClientTls (stream : ClientTls S)
| NetServerTls (stream : ServerTls S).

Definition is_tls (n : NetworkStream) : bool := match n with NetPlain _ => false | _ => true end.
Definition is_plain (n : NetworkStream) : bool := match n with NetPlain _ => true | _ => false end.

Definition into_plain (n : NetworkStream) : result S AlreadyTls :=
  match n with
  | NetPlain stream => Ok stream
  | NetClientTls _ | NetServerTls _ => Err mkAlreadyTls
  end.

Definition network_end_point (n : NetworkStream) : option bytes :=
  match n with
  | NetPlain _ => None
  | NetClientTls stream => Some (client_end_point stream)
  | NetServerTls stream => Some (server_end_point stream)
  end.

#[export] Instance NetworkStream_end_point : TlsServerEndPoint NetworkStream := fun n =>
  match n with
  | NetPlain _ => []
  | NetClientTls stream => client_end_point stream
  | NetServerTls stream => server_end_point stream
  end.

#[export] Instance NetworkStream_io `{AsyncIo S} : AsyncIo NetworkStream := {|
  poll_read n := match n with
    | NetPlain s => delegate NetPlain poll_read s
    | NetClientTls s => delegate NetClientTls poll_read s
    | NetServerTls s => delegate NetServerTls poll_read s end;
  poll_read_u8 n := match n with
    | NetPlain s => delegate NetPlain poll_read_u8 s
    | NetClientTls s => delegate NetClientTls poll_read_u8 s
    | NetServerTls s => delegate NetServerTls poll_read_u8 s end;
  poll_write offered n := match n with
    | NetPlain s => delegate NetPlain (poll_write offered) s
    | NetClientTls s => delegate NetClientTls (poll_write offered) s
    | NetServerTls s => delegate NetServerTls (poll_write offered) s end;
  poll_flush n := match n with
    | NetPlain s => delegate NetPlain poll_flush s
    | NetClientTls s => delegate NetClientTls poll_flush s
    | NetServerTls s => delegate NetServerTls poll_flush s end
|}.
End NetworkStreams.
Arguments NetworkStream {_ _} S.

(** ** Connecting with retries *)

(** [std::time::Duration] in nanoseconds. *)
Abbreviation Duration := Z.
Definition DURATION_MAX : Duration := U64_MAX * 1000000000 + 999999999.
Definition from_millis (ms : Z) : Duration := ms * 1000000.
Definition duration_saturating_mul (d : Duration) (n : Z) : Duration := Z.min DURATION_MAX (d * n).

Record ConnectRetry : Type := mkConnectRetry {
  max_retries : Z (* u32 *);
  initial_delay : Duration;
  max_delay : Duration
}.

Definition ConnectRetry_default : ConnectRetry := mkConnectRetry 3 (from_millis 100) (from_millis 2000).

(** The delay after the failure of attempt [retries]. *)
Definition backoff (retry : ConnectRetry) (retries : Z) : Duration :=
  let exponent := Z.min retries 63 in
  let multiplier := Z.shiftl 1 exponent in
  let multiplier := if multiplier <=? U32_MAX then multiplier else U32_MAX in
  Z.min (duration_saturating_mul (initial_delay retry) multiplier) (max_delay retry).

(** [attempt k] is the outcome of the [k]-th [TcpStream::connect], counted from
    0. The result carries the delays slept. *)
Fixpoint connect_loop {T} (attempt : nat -> io T) (retry : ConnectRetry) (fuel : nat) (k : nat) (retries : Z)
    : option (io T * list Duration) :=
  match fuel with
  | O => None
  | Datatypes.S fuel =>
      match attempt k with
      | Ok stream => Some (Ok stream, [])
      | Err error =>
          if retries =? max_retries retry then Some (Err error, [])
          else
            '(r, delays) ← connect_loop attempt retry fuel (k + 1) (saturating_add U32_MAX retries 1);
            Some (r, backoff retry retries :: delays)
      | Panic => Some (Panic, [])
      end
  end.

Definition connect_with_retry {T} (attempt : nat -> io T) (retry : ConnectRetry) : option (io T * list Duration) :=
  connect_loop attempt retry (Datatypes.S (Z.to_nat (max_retries retry))) 0 0.

(** ** Socket options *)

Record TcpSettings : Type := mkTcpSettings {
  no_delay : bool;
  user_timeout : option Duration;
  keepalive_time : option Duration;
  keepalive_interval : option Duration;
  keepalive_retries : option Z (* u32 *)
}.
Definition TcpSettings_default : TcpSettings := mkTcpSettings true None None None None.

Record TcpConfigurationError : Type := mkTcpError { tcp_option : string; source : io_error }.

Record TcpKeepalive : Type := mkKeepalive { time : option Duration; interval : option Duration; retries : option Z }.

(** The system calls behind a [TcpStream] and socket2's [SockRef] of it. *)
Class TcpSocket (S : Type) : Type := {
  set_nodelay : bool -> S -> io unit * S;
  set_tcp_user_timeout : Duration -> S -> io unit * S;
  set_keepalive : bool -> S -> io unit * S;
  set_tcp_keepalive : TcpKeepalive -> S -> io unit * S
}.

Section Sockets.
Context {S : Type} `{TcpSocket S}.

(** One option: its failure as a value, and the socket. *)
Definition set_option (name : string) (r : io unit * S) : list TcpConfigurationError * S :=
  match r with
  | (Err source, s) => ([mkTcpError name source], s)
  | (_, s) => ([], s)
  end.

(** On Linux, where the user timeout exists. *)
Definition configure_tcp (settings : TcpSettings) (s : S) : list TcpConfigurationError * S :=
  let (e1, s) := set_option "TCP_NODELAY" (set_nodelay (no_delay settings) s) in
  let (e2, s) :=
    match user_timeout settings with
    | Some timeout => set_option "TCP_USER_TIMEOUT" (set_tcp_user_timeout timeout s)
    | None => ([], s)
    end in
  if bool_decide (is_Some (keepalive_time settings)) || bool_decide (is_Some (keepalive_interval settings))
     || bool_decide (is_Some (keepalive_retries settings))
  then
    match set_keepalive true s with
    | (Err source, s) => (e1 ++ e2 ++ [mkTcpError "SO_KEEPALIVE" source], s)
    | (_, s) =>
        let keepalive := mkKeepalive (keepalive_time settings) (keepalive_interval settings) (keepalive_retries settings) in
        let (e3, s) := set_option "TCP_KEEPALIVE" (set_tcp_keepalive keepalive s) in
        (e1 ++ e2 ++ e3, s)
    end
  else (e1 ++ e2, s).
End Sockets.

(** ** Properties *)

(** What a mode checks of the chain a server presents. *)
Definition chain_checked `{Rustls} (mode : SslMode) (roots : RootCertStore) (name : ServerName) (leaf : bytes)
    (intermediates : list bytes) (now : UnixTime) : Prop :=
  match mode with
  | VerifyFull => webpki_verify (webpki_verifier roots) leaf intermediates name now = Ok tt
  | VerifyCa => exists parsed, parse_certificate leaf = Ok parsed /\
      verify_signed_by_trust_anchor parsed roots intermediates now signature_verification_algorithms = Ok tt
  | _ => True
  end.

(** An upgraded client stream satisfies its SSL mode, and its channel binding is
    that of the leaf certificate, which a server terminating with that leaf
    computes as well. *)
Lemma tls_connect_checked `{TlsLibraryLaws} `{Certificates} {S} (s : S) name mode roots st :
  tls_connect s name (client_config mode roots) = Ok st ->
  exists leaf intermediates now,
    peer_certificates (client_inner st) = Some (leaf :: intermediates) /\
    chain_checked mode roots name leaf intermediates now /\
    channel_binding leaf = Ok (client_end_point st) /\
    forall S' (s' : S') config st', tls_accept s' config leaf = Ok st' -> server_end_point st' = client_end_point st.
Proof.
  unfold tls_connect, tls_accept. intros E. destruct (connector_connect _ name s) as [inner| |] eqn:Hc; try done.
  destruct (handshake_verified _ _ _ _ _ Hc) as (leaf & more & now & Hp & Hv). rewrite Hp in E.
  destruct (channel_binding leaf) as [b| |] eqn:Hb; try done. apply Ok_inj in E as <-.
  exists leaf, more, now. split; [done|]. split; [|split; [done|]].
  - destruct mode; cbn in Hv; try done. unfold verify_server_cert in Hv. cbn in Hv.
    destruct (parse_certificate leaf) as [parsed| |] eqn:Hl; try done. exists parsed. split; [done|].
    now destruct (verify_signed_by_trust_anchor _ _ _ _ _) as [[]| |].
  - intros S' s' config st'. cbn. rewrite Hb. destruct (acceptor_accept config s'); cbn; intros E; try done.
    now apply Ok_inj in E as <-.
Qed.

(** The delays of a run that fails [n] times. *)
Definition schedule (retry : ConnectRetry) (n : nat) : list Duration := map (fun k => backoff retry (Z.of_nat k)) (seq 0 n).

Lemma connect_loop_spec {T} (attempt : nat -> io T) retry fuel : forall k,
  0 <= max_retries retry <= U32_MAX -> (Z.of_nat k <= max_retries retry) ->
  Z.of_nat fuel = max_retries retry - Z.of_nat k + 1 ->
  exists n, connect_loop attempt retry fuel k (Z.of_nat k) =
      Some (attempt (k + n)%nat, map (fun j => backoff retry (Z.of_nat j)) (seq k n)) /\
    (Z.of_nat (k + n) <= max_retries retry) /\
    (forall j, (k <= j < k + n)%nat -> exists e, attempt j = Err e) /\
    ((exists e, attempt (k + n)%nat = Err e) -> Z.of_nat (k + n) = max_retries retry).
Proof.
  induction fuel as [|fuel IH]; intros k Hm Hk Hf; [lia|]. cbn [connect_loop].
  assert (forall r, attempt k = r -> (forall e, r <> Err e) ->
    exists n, Some (r, []) = Some (attempt (k + n)%nat, map (fun j => backoff retry (Z.of_nat j)) (seq k n)) /\
      Z.of_nat (k + n) <= max_retries retry /\ (forall j, (k <= j < k + n)%nat -> exists e, attempt j = Err e) /\
      ((exists e, attempt (k + n)%nat = Err e) -> Z.of_nat (k + n) = max_retries retry)) as Hstop.
  { intros r Hr Hne. exists 0%nat. rewrite Nat.add_0_r, Hr. split; [done|]. split; [lia|]. split; [lia|].
    intros [e ->]. now destruct (Hne e). }
  destruct (attempt k) as [t|e|] eqn:Ha; [now apply Hstop| |now apply Hstop].
  destruct (Z.eqb_spec (Z.of_nat k) (max_retries retry)) as [Hz|Hz].
  { exists 0%nat. rewrite Nat.add_0_r, Ha. split; [done|]. split; [lia|]. split; [lia|]. done. }
  unfold saturating_add. rewrite Z.min_r by lia. replace (Z.of_nat k + 1) with (Z.of_nat (k + 1)) by lia.
  destruct (IH (k + 1)%nat) as (n & -> & Hn & Hfail & Hlast); [lia..|]. exists (Datatypes.S n). cbn [mbind option_bind].
  replace (k + Datatypes.S n)%nat with (k + 1 + n)%nat by lia. split; [|split; [done|split; [|done]]].
  - do 2 f_equal. cbn [seq map]. now replace (Datatypes.S k) with (k + 1)%nat by lia.
  - intros j Hj. destruct (decide (j = k)) as [->|]; [eauto|]. apply Hfail. lia.
Qed.

Lemma backoff_mono retry j k : 0 <= initial_delay retry -> 0 <= j <= k -> backoff retry j <= backoff retry k.
Proof.
  intros Hi Hj. unfold backoff, duration_saturating_mul.
  assert (Z.shiftl 1 (Z.min j 63) <= Z.shiftl 1 (Z.min k 63)).
  { rewrite !Z.shiftl_1_l. apply Z.pow_le_mono_r; lia. }
  apply Z.min_le_compat_r, Z.min_le_compat_l, Z.mul_le_mono_nonneg_l; [done|].
  destruct (Z.leb_spec (Z.shiftl 1 (Z.min j 63)) U32_MAX), (Z.leb_spec (Z.shiftl 1 (Z.min k 63)) U32_MAX); lia.
Qed.

(** C36: Connecting ends after at most [max_retries] retries, with the outcome of its
    last attempt: all earlier attempts failed, and an error is returned only when
    the retries are used up. The delays grow and none exceeds [max_delay]. *)
Theorem connect_with_retry_bounded {T} (attempt : nat -> io T) retry :
  0 <= max_retries retry <= U32_MAX -> 0 <= initial_delay retry ->
  exists n, connect_with_retry attempt retry = Some (attempt n, schedule retry n) /\
    Z.of_nat n <= max_retries retry /\
    (forall j, (j < n)%nat -> exists e, attempt j = Err e) /\
    ((exists e, attempt n = Err e) -> Z.of_nat n = max_retries retry) /\
    Sorted Z.le (schedule retry n) /\ Forall (fun d => d <= max_delay retry) (schedule retry n).
Proof.
  intros Hm Hi. destruct (connect_loop_spec attempt retry (Datatypes.S (Z.to_nat (max_retries retry))) 0)
    as (n & E & Hn & Hfail & Hlast); [done|lia|lia|]. exists n. split; [exact E|]. split; [done|].
  split; [intros j Hj; apply Hfail; lia|]. split; [done|]. unfold schedule. split.
  - generalize 0%nat. clear -Hi. induction n as [|n IH]; intros k; cbn; constructor; [apply IH|].
    destruct n; cbn; constructor. apply backoff_mono; lia.
  - apply Forall_map, Forall_forall. intros k _. cbn. unfold backoff. lia.
Qed.

Lemma connect_with_retry_bounded_witness :
  connect_with_retry (fun k => if (k <? 2)%nat then Err (invalid "refused") else Ok k) ConnectRetry_default =
    Some (Ok 2%nat, [from_millis 100; from_millis 200]) /\
  exists n, connect_with_retry (fun _ => @Err nat _ (invalid "refused")) ConnectRetry_default =
    Some (Err (invalid "refused"), schedule ConnectRetry_default n) /\ Z.of_nat n <= 3.
Proof.
  split; [vm_compute; reflexivity|].
  destruct (connect_with_retry_bounded (fun _ => @Err nat _ (invalid "refused")) ConnectRetry_default) as (n & E & Hn & _);
    [vm_compute; split; discriminate|vm_compute; discriminate|]. now exists n.
Defined.
