(* ===== verification/PipelineTyped.v ===== *)
(** Phase-typed interception of backend responses in the request pipeline:
    [accept_response_typed] of src/pipeline.rs, its hooks and wire adapter; and
    histories of all operations of the pipeline, on which it does not panic. *)

From Stdlib Require Import ZArith Lia String.
From Stdlib Require Import Init.Byte.
From stdpp Require Import prelude.
From S2P Require Import Prelude Wire Frame Frontend Backend Demux Fsm Grammar Pipeline PipelineTables PipelineProofs PipelineSpec Middleware.

Local Open Scope string_scope.

(** ** The hooks *)

(** [backend_pipeline_phases!]: the phases that have a hook, besides the one for
    asynchronous messages. *)
Definition backend_pipeline_phases : list string :=
  ["Simple"; "SimpleError"; "ParseResponse"; "BindResponse"; "DescribeResponse"; "ExecuteResponse";
   "CloseResponse"; "SyncResponse"; "FunctionResponse"; "FunctionReady"; "SimpleCopyInDone";
   "SimpleCopyInFailed"; "SimpleCopyOut"; "SimpleCopyOutDone"; "SimpleCopyReady"; "ExtendedCopyInDone";
   "ExtendedCopyInFailed"; "ExtendedCopyOut"; "ExtendedCopyOutDone"; "SimpleCopyBoth";
   "SimpleCopyBothClientDone"; "SimpleCopyBothDone"; "SimpleCopyBothFailed"; "ExtendedCopyBoth";
   "ExtendedCopyBothClientDone"; "ExtendedCopyBothDone"; "ExtendedCopyBothFailed"].

(** Which hook, by the generated phase; [None] is the asynchronous one. *)
Definition hook_legal (phase : option string) (m : BackendMessage) : bool :=
  match phase with
  | None => is_asynchronous m
  | Some s => is_some (project_internal backend s m)
  end.

(** [BackendPipelineMiddleware]: a hook per phase, over that phase's messages. *)
Class BackendPipelineMiddleware (H State E : Type) : Type :=
  backend_hook : forall phase, H -> State -> Typed (hook_legal phase) ->
    result (Typed (hook_legal phase)) E * (H * State).

#[export] Instance identity_hooks {State} : BackendPipelineMiddleware Identity State Empty_set :=
  fun phase h st t => (Ok t, (h, st)).

#[export] Instance then_hooks {First Second State E1 E2}
    `{BackendPipelineMiddleware First State E1} `{BackendPipelineMiddleware Second State E2}
    : BackendPipelineMiddleware (Then First Second) State (ChainError E1 E2) :=
  fun phase h st t =>
    match backend_hook phase (first h) st t with
    | (Ok t, (h1, st)) =>
        let '(r, (h2, st)) := backend_hook phase (second h) st t in (map_err InSecond r, (mkThen h1 h2, st))
    | (Err e, (h1, st)) => (Err (InFirst e), (mkThen h1 (second h), st))
    | (Panic, (h1, st)) => (Panic, (mkThen h1 (second h), st))
    end.

Record PipelineWireAdapter (H : Type) : Type := mkPipelineAdapter { pipeline_adapted : H }.
Arguments mkPipelineAdapter {H}.
Arguments pipeline_adapted {H} _.

#[export] Instance adapter_hooks {H State E} `{MessageMiddleware H BackendMessage State E}
    : BackendPipelineMiddleware (PipelineWireAdapter H) State (WireAdapterError E BackendMessage) :=
  fun phase h st t =>
    match intercept (pipeline_adapted h) st (as_wire t) with
    | (Ok m, (h, st)) => (map_err IllegalReplacement (try_from (hook_legal phase) m), (mkPipelineAdapter h, st))
    | (Err e, (h, st)) => (Err (AdapterMiddleware e), (mkPipelineAdapter h, st))
    | (Panic, (h, st)) => (Panic, (mkPipelineAdapter h, st))
    end.

(** ** Responses through the hooks *)

Inductive PipelineMiddlewareError (E ProjectionError : Type) : Type :=
| HookError (e : E)
| Projection (e : ProjectionError).
Arguments HookError {E ProjectionError} e.
Arguments Projection {E ProjectionError} e.

Section Typed.
Context {P H State E : Type} `{PipelinePolicy P} `{Hh : BackendPipelineMiddleware H State E}.
Implicit Types (p : Pipeline P) (mw : Middleware State H).

(** The outcome of the selected hook, or an early return. *)
Definition dispatch_hook (prepared : PreparedResponse) (m : BackendMessage) mw p
    : result BackendMessage (PipelineMiddlewareError E BackendProjectionError) * Middleware State H :=
  let run phase (t : Typed (hook_legal phase)) :=
    let '(r, (h, st)) := backend_hook phase (mw_handler mw) (mw_state mw) t in
    (match r with Ok t => Ok (as_wire t) | Err e => Err (HookError e) | Panic => Panic end,
     mkMiddleware st h) in
  match prepared with
  | PR_Asynchronous =>
      match try_from (hook_legal None) m with
      | Ok t => run None t
      | _ => (Panic, mw) (* unreachable! *)
      end
  | PR_Emit _ response_state =>
      if decide (response_state ∈ backend_pipeline_phases) then
        match try_from (hook_legal (Some response_state)) m with
        | Ok t => run (Some response_state) t
        | Err m => (Err (Projection (mkBackendProjectionError (state p) m)), mw)
        | Panic => (Panic, mw)
        end
      else (Panic, mw) (* unreachable! *)
  | _ => (Panic, mw) (* unreachable! *)
  end.

Definition accept_response_typed (local_id : option OperationId) (m : BackendMessage) mw p
    : result BackendAction (PipelineMiddlewareError E BackendProjectionError) * Middleware State H * Pipeline P :=
  let prepared := prepare_response local_id m p in
  match prepared with
  | PR_Deferred => (Ok (Deferred m), mw, p)
  | PR_Illegal => (Err (Projection (mkBackendProjectionError (state p) m)), mw, p)
  | _ =>
      match dispatch_hook prepared m mw p with
      | (Ok m, mw) =>
          if is_ok (BackendMessage_to_frame m) then
            let (r, p) := commit_response prepared m p in (map_err Projection r, mw, p)
          else (Err (Projection (mkBackendProjectionError (state p) m)), mw, p)
      | (Err e, mw) => (Err e, mw, p)
      | (Panic, mw) => (Panic, mw, p)
      end
  end.

Definition accept_backend_typed := accept_response_typed None.
Definition try_emit_local_typed (id : OperationId) := accept_response_typed (Some id).

End Typed.

(** ** Waiting for the response head *)

Section Waiting.
Context {P : Type} `{PipelinePolicy P}.

(** A poll of [wait_until_emittable]: whether it returns. The future borrows the
    ledger for as long as it lives, so a poll after a notification repeats the
    test on the same ledger. *)
Definition wait_until_emittable (id : OperationId) (p : Pipeline P) : bool :=
  match operations p with
  | [] => false
  | operation :: _ => (op_id operation =? id)%Z
  end.

(** While a caller has to wait, its response would be deferred; once the wait is
    over the response is judged by the caller's own operation. *)
Lemma waiting_iff_deferred id m (p : Pipeline P) :
  is_asynchronous m = false -> operations p <> [] ->
  (wait_until_emittable id p = false -> (try_emit_local id m p).1 = Ok (Deferred m)) /\
  (wait_until_emittable id p = true -> (try_emit_local id m p).1 = Ok (Deferred m) ->
     existsb (fun o => response_fits o m) (tail (operations p)) = true).
Proof.
  intros Ha Hops. unfold wait_until_emittable, try_emit_local, accept_response, prepare_response. rewrite Ha.
  destruct (operations p) as [|head rest]; [done|]. simpl. split; intros Hw; rewrite Hw; simpl; [done|].
  case_bool_decide; [done|]. destruct (discarded head || negb (response_fits head m)) eqn:E; [destruct (existsb _ rest); done|].
  simpl. repeat case_match; done.
Qed.
End Waiting.

(** ** Properties *)

(** Every state in which the grammar lets the backend choose has a hook. *)
Lemma internal_states_hooked :
  forallb (fun a => bool_decide (a.1.1 ∈ backend_pipeline_phases)) (internal_arms backend) = true.
Proof. vm_compute. reflexivity. Qed.

Lemma project_internal_hooked s m e : project_internal backend s m = Some e -> s ∈ backend_pipeline_phases.
Proof.
  intros (pat & Hin & _)%first_arm_in. pose proof internal_states_hooked as Ha.
  rewrite forallb_forall in Ha. apply list_elem_of_In in Hin. apply Ha in Hin. simpl in Hin. now apply bool_decide_eq_true in Hin.
Qed.

(** The grammar's responses are never asynchronous messages. *)
Lemma internal_not_asynchronous :
  arms_imply (internal_arms backend) (fun _ _ _ => true) (fun _ m => negb (is_asynchronous m)).
Proof. check_arms. Qed.

Section Equivalence.
Context {P H State E : Type} `{PipelinePolicy P} `{Hh : BackendPipelineMiddleware H State E}.
Implicit Types (p : Pipeline P) (mw : Middleware State H).

(** What a hook returned is prepared exactly as the message it replaces. *)
Lemma prepare_replacement local m m' p hd s :
  prepare_response local m p = PR_Emit hd s -> is_some (project_internal backend s m') = true ->
  prepare_response local m' p = PR_Emit hd s.
Proof.
  intros Hp Hm'. pose proof (prepare_emit _ _ _ _ _ Hp) as (tl & e & t & Eo & -> & Hd & Ha & Ep & _).
  destruct (project_internal backend (response_state hd) m') as [e'|] eqn:Ep'; [|done].
  pose proof (arms_imply_elim _ _ _ _ _ _ internal_not_asynchronous Ep' eq_refl) as Ha'.
  apply negb_true_iff in Ha'. unfold prepare_response in *. rewrite Ha, Eo in Hp. rewrite Ha', Eo.
  assert (response_fits hd m = true) as Hf by (unfold response_fits; now rewrite Ep).
  assert (response_fits hd m' = true) as Hf' by (unfold response_fits; now rewrite Ep').
  rewrite Hf, Hd in Hp. rewrite Hf', Hd. cbn [negb orb] in *. destruct local as [id|].
  - destruct (negb (op_id hd =? id)%Z); [discriminate Hp|].
    destruct (bool_decide (origin hd <> OriginLocal)); [discriminate Hp|reflexivity].
  - destruct (bool_decide (origin hd = OriginLocal)); [|reflexivity].
    exfalso. clear -Hp. case_match; discriminate Hp.
Qed.

(** [m'] is what some hook made of [m]. *)
Definition hook_related (m m' : BackendMessage) : Prop :=
  exists phase h st (t t' : Typed (hook_legal phase)),
    fst (backend_hook (H := H) (State := State) phase h st t) = Ok t' /\ as_wire t = m /\ as_wire t' = m'.

Definition hooks_return : Prop := forall phase h st t, fst (backend_hook (H := H) (State := State) phase h st t) <> Panic.

(** The selected hook runs, and returns a message legal where the original was. *)
Lemma dispatch_cases local m mw p r mw' : hooks_return ->
  match prepare_response local m p with PR_Asynchronous | PR_Emit _ _ => True | _ => False end ->
  dispatch_hook (prepare_response local m p) m mw p = (r, mw') ->
  (exists m', r = Ok m' /\ hook_related m m' /\ prepare_response local m' p = prepare_response local m p) \/
  (exists e, r = Err (HookError e)).
Proof.
  intros Hret Hprep. set (prepared := prepare_response local m p) in *.
  assert (Hrun : forall phase (t : Typed (hook_legal phase)),
    let '(r, (h, st)) := backend_hook phase (mw_handler mw) (mw_state mw) t in
    (exists t' : Typed (hook_legal phase), r = Ok t' /\ hook_related (as_wire t) (as_wire t')) \/ (exists e, r = Err e)).
  { intros phase t. pose proof (Hret phase (mw_handler mw) (mw_state mw) t) as Hn.
    destruct (backend_hook phase _ _ t) as [[t'|e|] [h st]] eqn:Eh; [left|right; eauto|done].
    exists t'. split; [done|]. exists phase, (mw_handler mw), (mw_state mw), t, t'. now rewrite Eh. }
  unfold dispatch_hook. destruct prepared as [|hd s| |] eqn:Eprep; try done; subst prepared.
  - assert (is_asynchronous m = true) as Ha.
    { unfold prepare_response in Eprep. destruct (is_asynchronous m); [done|]. exfalso.
      destruct (operations p); [done|]. repeat case_match; done. }
    pose proof (try_from_spec (hook_legal None) m) as Ht.
    destruct (try_from (hook_legal None) m) as [t|m1|]; [destruct Ht as [<- _]|cbn in Ht; destruct Ht; congruence|done].
    specialize (Hrun None t). destruct (backend_hook None _ _ t) as [r0 [h st]].
    intros [= <- <-]. destruct Hrun as [(t' & -> & Hrel)|[e ->]]; [left|right; eauto].
    exists (as_wire t'). split; [done|]. split; [done|]. unfold prepare_response. pose proof (is_legal t') as Hl. cbn in Hl. now rewrite Hl.
  - pose proof (prepare_emit _ _ _ _ _ Eprep) as (tl & e & t0 & Eo & Es & Hd & Ha & Ep & _).
    rewrite decide_True by (eapply project_internal_hooked; exact Ep).
    pose proof (try_from_spec (hook_legal (Some s)) m) as Ht.
    destruct (try_from (hook_legal (Some s)) m) as [t|m1|]; [destruct Ht as [<- _]| |done].
    2:{ destruct Ht as [_ Hl]. unfold hook_legal in Hl. now rewrite Ep in Hl. }
    specialize (Hrun (Some s) t). destruct (backend_hook (Some s) _ _ t) as [r0 [h st]].
    intros [= <- <-]. destruct Hrun as [(t' & -> & Hrel)|[e' ->]]; [left|right; eauto].
    exists (as_wire t'). split; [done|]. split; [done|]. eapply prepare_replacement; [done|]. exact (is_legal t').
Qed.

End Equivalence.

(** Typed interception of responses is acceptance of the replacement. With
    hooks that return, no [unreachable!] or [expect] is hit on any ledger.
    A response that is deferred or illegal reaches no hook. Otherwise either the
    ledger is left unchanged with an error, or some replacement that can be put
    on the wire is emitted and the ledger becomes exactly what accepting that
    replacement untyped would have made it, for the same operation. *)
Lemma typed_response_equivalent {P H State E} `{PipelinePolicy P} `{BackendPipelineMiddleware H State E}
    (p : Pipeline P) (mw : Middleware State H) local m :
  hooks_return (H := H) (State := State) (E := E) ->
  let '(r, mw', p') := accept_response_typed local m mw p in
  match prepare_response local m p with
  | PR_Deferred => r = Ok (Deferred m) /\ mw' = mw /\ p' = p
  | PR_Illegal => r = Err (Projection (mkBackendProjectionError (state p) m)) /\ mw' = mw /\ p' = p
  | prepared =>
      (exists e, r = Err e /\ p' = p) \/
      (exists m', r = Ok (Emit m') /\ is_ok (BackendMessage_to_frame m') = true /\
         hook_related (H := H) (State := State) m m' /\
         prepare_response local m' p = prepared /\ accept_response local m' p = (Ok (Emit m'), p'))
  end.
Proof.
  intros Hret. unfold accept_response_typed.
  destruct (prepare_response local m p) as [|hd s| |] eqn:Eprep; [| |easy..].
  all: destruct (dispatch_hook _ m mw p) as [r mw1] eqn:Ed; rewrite <- Eprep in Ed;
    apply dispatch_cases in Ed; [|exact Hret|now rewrite Eprep].
  all: destruct Ed as [(m' & -> & Hrel & Hp)|(e & ->)]; [|left; eauto]; rewrite Eprep in Hp.
  all: destruct (is_ok (BackendMessage_to_frame m')) eqn:Ef; [|left; eauto].
  - right. exists m'. unfold accept_response. rewrite Hp. auto.
  - pose proof Hp as Hp'. apply commit_emit in Hp' as (tl & e & p' & _ & _ & _ & _ & Ha & _).
    unfold accept_response in Ha. rewrite Hp in Ha. rewrite Ha. cbn [map_err].
    right. exists m'. split; [done|]. split; [done|]. split; [done|]. split; [done|].
    unfold accept_response. now rewrite Hp.
Qed.

(** Replaces every command tag and counts the messages it sees. *)
Inductive Retag : Type := mkRetag.

#[export] Instance retag_middleware : MessageMiddleware Retag BackendMessage Z Empty_set :=
  fun h n m => (Ok (match m with B_CommandComplete _ => B_CommandComplete ["X"%byte] | m => m end), (h, (n + 1)%Z)).

Lemma retag_returns : hooks_return (H := PipelineWireAdapter Retag) (State := Z) (E := WireAdapterError Empty_set BackendMessage).
Proof.
  intros phase h st t. unfold backend_hook, adapter_hooks, intercept, retag_middleware. cbv beta iota.
  match goal with |- context [try_from _ ?m] => pose proof (try_from_spec (hook_legal phase) m) as Ht;
    destruct (try_from (hook_legal phase) m) end; done.
Qed.

Definition one_query : Pipeline BoundedPipeline :=
  mkPipeline (mkBounded 4) [mkOperation 0 O_Query Forwarded false "Simple"] RS_Ready None 1.

Lemma typed_response_equivalent_witness :
  let '(r, mw', p') := accept_response_typed None (B_CommandComplete [])
                         (mkMiddleware 0%Z (mkPipelineAdapter mkRetag)) one_query in
  (exists e, r = Err e /\ p' = one_query) \/
  (exists m', r = Ok (Emit m') /\ is_ok (BackendMessage_to_frame m') = true /\
     hook_related (H := PipelineWireAdapter Retag) (State := Z) (B_CommandComplete []) m' /\
     prepare_response None m' one_query = PR_Emit (mkOperation 0 O_Query Forwarded false "Simple") "Simple" /\
     accept_response None m' one_query = (Ok (Emit m'), p')).
Proof.
  exact (typed_response_equivalent one_query (mkMiddleware 0%Z (mkPipelineAdapter mkRetag)) None
           (B_CommandComplete []) retag_returns).
Defined.

(** The replacement that goes out there. *)
Example retag_emitted :
  accept_response_typed None (B_CommandComplete []) (mkMiddleware 0%Z (mkPipelineAdapter mkRetag)) one_query =
    (Ok (Emit (B_CommandComplete ["X"%byte])), mkMiddleware 1%Z (mkPipelineAdapter mkRetag),
     mkPipeline (mkBounded 4) [mkOperation 0 O_Query Forwarded false "Simple"] RS_Ready None 1).
Proof. vm_compute. reflexivity. Qed.

(** A deferred local error is projected by the untyped path only: with a local
    [Parse] behind a forwarded one, rejecting the local one switches the request
    side to discarding, while the typed counterpart leaves it accepting. *)
Theorem typed_local_error_not_projected d :
  exists p, accept_frontend (F_Parse (mkParse [] [] [])) Local
      (accept_frontend (F_Parse (mkParse [] [] [])) Forward (Pipeline_new (mkBounded 4))).2 =
      (Ok (Waiting (Action_Discard 1)), p) /\
    (try_emit_local 1 (B_ErrorResponse d) p).1 = Ok (Deferred (B_ErrorResponse d)) /\
    request_state (try_emit_local 1 (B_ErrorResponse d) p).2 = RS_ExtendedError /\
    try_emit_local_typed 1 (B_ErrorResponse d) (mkMiddleware tt mkIdentity) p =
      (Ok (Deferred (B_ErrorResponse d)), mkMiddleware tt mkIdentity, p) /\
    request_state p = RS_Extended false.
Proof. eexists. split; [vm_compute; reflexivity|]. split_and!; vm_compute; reflexivity. Qed.

(** ** Histories of every operation *)

(** The phase a frontend message is prepared for takes exactly the messages the
    ledger projects. *)
Lemma phase_projects s k ph m : frontend_phase s k = Ok ph ->
  is_some (project_external backend (generated_request_state s) m) = phase_message ph m.
Proof. destruct s, k as [[]|]; intros [= <-]; try reflexivity; destruct m; vm_compute; reflexivity. Qed.

Definition is_password (m : FrontendMessage) : bool :=
  match m with F_PasswordResponse _ => true | _ => false end.

(** The ledger classifies every message of the phase but a password response while
    it discards. *)
Lemma phase_classified s k ph m : frontend_phase s k = Ok ph -> s <> RS_CopyBoth -> phase_message ph m = true ->
  ~ (ph = FP_ExtendedError /\ is_password m = true) -> exists r, classify_frontend s m = Ok r.
Proof.
  destruct s, k as [[]|]; intros [= <-] Hs; try done; destruct m; intros Hm Hp; try (eexists; reflexivity);
    try (vm_compute in Hm; discriminate Hm); now destruct Hp.
Qed.

Section Complete.
Context {P H State E F : Type} `{PipelinePolicy P} `{Hh : BackendPipelineMiddleware H State E}.
Implicit Type p : Pipeline P.

(** The operations that can change a ledger: the untyped ones, both typed
    interceptions, and the adoption of a checked replacement of a backend span. *)
Inductive pipeline_call : Type :=
| Untyped (s : pipeline_step)
| InterceptFrontend (handler : FrontendPhase -> FrontendMessage -> result FrontendMessage F)
    (m : FrontendMessage) (handling : FrontendHandling)
| InterceptResponse (local : option OperationId) (m : BackendMessage) (mw : Middleware State H)
| AdoptReplacements (sources replacements : list BackendMessage).

(** The ledger a call leaves, [None] when it panics. *)
Definition call_pipeline (c : pipeline_call) p : option (Pipeline P) :=
  match c with
  | Untyped s => match step_pipeline s p with (Some _, p') => Some p' | (None, _) => None end
  | InterceptFrontend handler m handling =>
      match accept_frontend_typed handler m handling p with (Panic, _) => None | (_, p') => Some p' end
  | InterceptResponse local m mw =>
      match accept_response_typed local m mw p with (Panic, _, _) => None | (_, _, p') => Some p' end
  | AdoptReplacements sources replacements =>
      match prepare_backend_replacements sources replacements p with
      | Ok p' => Some p'
      | Err _ => Some p
      | Panic => None
      end
  end.

Fixpoint run_calls (calls : list pipeline_call) p : option (Pipeline P) :=
  match calls with
  | [] => Some p
  | c :: calls => match call_pipeline c p with Some p => run_calls calls p | None => None end
  end.

(** The messages of a phase the ledger classifies. *)
Definition classified (ph : FrontendPhase) (m : FrontendMessage) : Prop :=
  phase_message ph m = true /\ ~ (ph = FP_ExtendedError /\ is_password m = true).

(** A typed frontend handler: it returns, stays within the messages of its phase as
    its type says, and does not turn a message that is being discarded into a
    password response. *)
Definition handler_ok (handler : FrontendPhase -> FrontendMessage -> result FrontendMessage F) : Prop :=
  forall ph m, classified ph m ->
    match handler ph m with
    | Ok m' => classified ph m'
    | Err _ => True
    | Panic => False
    end.

(** No response of the call opens COPY BOTH, and its handler is as above. *)
Definition call_ok (c : pipeline_call) : Prop :=
  match c with
  | Untyped s => backend_ok (fun m => negb (is_copy_both m)) s
  | InterceptFrontend handler _ _ => handler_ok handler
  | InterceptResponse _ m _ => is_copy_both m = false
  | AdoptReplacements sources replacements => Forall (fun m => is_copy_both m = false) (sources ++ replacements)
  end.

(** Hooks do not make a response open COPY BOTH. *)
Definition hooks_open_no_copy_both : Prop :=
  forall m m', hook_related (H := H) (State := State) m m' -> is_copy_both m = false -> is_copy_both m' = false.

Lemma untyped_call s p : copy_inv p -> backend_ok (fun m => negb (is_copy_both m)) s ->
  exists p', call_pipeline (Untyped s) p = Some p' /\ copy_inv p'.
Proof.
  intros Hi Hs. cbn [call_pipeline]. destruct (step_pipeline s p) as [o q] eqn:Es.
  assert (copy_inv q) as Hq.
  { eapply (step_invariant copy_inv); [| |exact Hi|exact Es].
    - intros m hd q0 a q1 _. apply copy_inv_frontend.
    - intros local m q0 r q1 Hm. apply copy_inv_response. specialize (Hs m Hm). cbv beta in Hs. now destruct (is_copy_both m). }
  destruct o as [o|]; [eauto|]. exfalso. destruct s as [m hd|ms hd|m|id m]; simpl in Es.
  - pose proof (copy_inv_no_panic m hd p Hi). destruct (accept_frontend m hd p) as [[]]; simplify_eq; done.
  - unfold prepare_frontend_sequence in Es. destruct (project_sequence ms hd p) as [| |] eqn:Ep; simplify_eq.
    eapply sequence_no_panic; eassumption.
  - pose proof (accept_response_no_panic None m p) as Hn. unfold accept_backend in Es.
    destruct (accept_response None m p) as [[]]; simplify_eq; done.
  - pose proof (accept_response_no_panic (Some id) m p) as Hn. unfold try_emit_local in Es.
    destruct (accept_response (Some id) m p) as [[]]; simplify_eq; done.
Qed.

(** A typed acceptance refuses and leaves the ledger, or is the untyped acceptance of
    what the handler returned. *)
Lemma typed_frontend_untyped handler m handling p r p' : copy_inv p -> handler_ok handler ->
  accept_frontend_typed handler m handling p = (r, p') ->
  (exists e, r = Err e /\ p' = p) \/ (exists m' a, r = Ok a /\ accept_frontend m' handling p = (Ok a, p')).
Proof.
  intros Hi Hok Ht. pose proof (copy_inv_no_panic m handling p Hi) as Hn.
  unfold accept_frontend_typed in Ht. unfold accept_frontend in Hn.
  destruct (prepare_frontend m p) as [pr|e|] eqn:Ep; [|simplify_eq; eauto|done]. clear Hn.
  unfold prepare_frontend in Ep. destruct (_ && _) eqn:Ec; [done|].
  destruct (project_frontend (request_state p) m) as [[k next]| |] eqn:Ej; [|done..].
  destruct (frontend_phase _ _) as [ph| |] eqn:Eph; [|done..]. cbn in Ep. injection Ep as <-. cbn [pf_phase] in Ht.
  assert (phase_message ph m = true) as Hm.
  { rewrite <- (phase_projects _ _ _ m Eph). unfold project_frontend in Ej. now destruct (project_external _ _ _). }
  assert (~ (ph = FP_ExtendedError /\ is_password m = true)) as Hnp.
  { intros [-> Hw]. apply project_frontend_classify in Ej. destruct m; try discriminate Hw.
    clear -Eph Ej. destruct (request_state p), (kind <$> head (operations p)) as [[]|]; cbn in *; discriminate. }
  unfold intercept_frontend in Ht. rewrite Hm in Ht. specialize (Hok ph m (conj Hm Hnp)).
  destruct (handler ph m) as [m'|e|]; [|simplify_eq; eauto|done]. destruct Hok as [Hm' Hpw].
  destruct (negb (is_ok (FrontendMessage_to_frame m'))); [simplify_eq; eauto|]. destruct Hi as (_ & _ & Hcb & _).
  destruct (phase_classified _ _ _ m' Eph Hcb Hm' Hpw) as [[k' next'] Hcl].
  assert (prepare_frontend m' p = Ok (mkPrepared ph (request_state p))) as Ep'.
  { unfold prepare_frontend, project_frontend. rewrite Ec. rewrite <- (phase_projects _ _ _ m' Eph) in Hm'.
    destruct (project_external _ _ m'); [|done]. rewrite Hcl, Eph. reflexivity. }
  right. exists m'. unfold accept_frontend. rewrite Ep'.
  unfold commit_frontend in *. cbn [pf_request_state] in *. rewrite Hcl in *. injection Ht as <- <-. eauto.
Qed.

Lemma span_call c ms : Forall (fun m => is_copy_both m = false) ms -> forall p, copy_inv p ->
  match project_span c ms p with Ok p' => copy_inv p' | Err _ => True | Panic => False end.
Proof.
  induction 1 as [|m ms Hm Hms IH]; intros p Hi; cbn [project_span]; [done|]. destruct (c && _); [done|].
  pose proof (accept_response_no_panic None m p) as Hn. unfold accept_backend.
  destruct (accept_response None m p) as [[[m'|m']|e|] q] eqn:Ea; try done.
  apply IH. eapply copy_inv_response; eassumption.
Qed.

Lemma call_total c p : hooks_return (H := H) (State := State) (E := E) -> hooks_open_no_copy_both ->
  copy_inv p -> call_ok c -> exists p', call_pipeline c p = Some p' /\ copy_inv p'.
Proof.
  intros Hret Hcb Hi Hok. destruct c as [s|handler m handling|local m mw|ss rs]; cbn [call_ok] in Hok.
  - now apply untyped_call.
  - cbn [call_pipeline]. destruct (accept_frontend_typed handler m handling p) as [r q] eqn:Et.
    apply (typed_frontend_untyped _ _ _ _ _ _ Hi Hok) in Et as [(e & -> & ->)|(m' & a & -> & Ha)]; [eauto|].
    apply copy_inv_frontend in Ha; eauto.
  - cbn [call_pipeline]. pose proof (typed_response_equivalent p mw local m Hret) as Hx.
    destruct (accept_response_typed local m mw p) as [[r mw'] q].
    destruct (prepare_response local m p); [| |destruct Hx as (-> & _ & ->); eauto..].
    all: destruct Hx as [(e & -> & ->)|(m' & -> & _ & Hrel & _ & Ha)]; [eauto|].
    all: exists q; split; [done|]; eapply copy_inv_response; [|exact Hi|exact Ha]; eapply Hcb; eassumption.
  - apply Forall_app in Hok as [Hs Hr]. pose proof (span_call false ss Hs p Hi) as H1.
    pose proof (span_call true rs Hr p Hi) as H2. cbn [call_pipeline]. unfold prepare_backend_replacements.
    destruct (negb _); [eauto|]. destruct (project_span false ss p) as [p1|e|]; [cbn|eauto|done].
    destruct (project_span true rs p) as [p2|e|]; [cbn|eauto|done]. destruct (_ || _); eauto.
Qed.
End Complete.

Arguments pipeline_call (H State F) : clear implicits.

(** C12: Without COPY BOTH the ledger cannot panic. From an empty pipeline, over any
    history of all the operations that change it, untyped and typed, in any order
    and with any messages, no [expect] or [unreachable!] of the pipeline is hit, if
    no response opens COPY BOTH, hooks and handlers return, and a frontend handler,
    besides staying in the message type of its phase, does not turn a message
    that is being discarded into a password response. (Without the first condition
    [copy_both_not_left], and without the last one [typed_replacement_panics],
    exhibit the panic.) *)
Theorem pipeline_never_panics {P H State E F} `{PipelinePolicy P} `{BackendPipelineMiddleware H State E}
    (pol : P) (calls : list (pipeline_call H State F)) :
  hooks_return (H := H) (State := State) (E := E) -> hooks_open_no_copy_both (H := H) (State := State) (E := E) ->
  Forall call_ok calls -> run_calls calls (Pipeline_new pol) <> None.
Proof.
  intros Hret Hcb. assert (copy_inv (Pipeline_new pol)) as H0' by (split_and!; try constructor; done).
  revert H0'. generalize (Pipeline_new pol) as p. induction calls as [|c calls IH]; intros p Hi Hok; simpl; [done|].
  inversion Hok as [|? ? Hc Hcs]; subst.
  destruct (call_total c p Hret Hcb Hi Hc) as (q & -> & Hq). now apply IH.
Qed.

Lemma retag_opens_no_copy_both :
  hooks_open_no_copy_both (H := PipelineWireAdapter Retag) (State := Z) (E := WireAdapterError Empty_set BackendMessage).
Proof.
  intros m m' (phase & h & st & t & t' & Hb & <- & <-). unfold backend_hook, adapter_hooks, intercept, retag_middleware in Hb.
  cbv beta iota in Hb. intros Hm.
  match type of Hb with context [try_from _ ?x] => pose proof (try_from_spec (hook_legal phase) x) as Ht;
    destruct (try_from (hook_legal phase) x) as [t1|e|]; cbn in Hb; try done end.
  destruct Ht as [Ht _]. injection Hb as <-. rewrite Ht. now destruct (as_wire t).
Qed.

(** Both typed interceptions, a rewriting frontend handler among them. *)
Definition replace_by_sync (ph : FrontendPhase) (m : FrontendMessage) : result FrontendMessage unit :=
  match ph with FP_Building => Ok F_Sync | _ => Ok m end.

Definition typed_calls : list (pipeline_call (PipelineWireAdapter Retag) Z unit) :=
  [Untyped (AcceptFrontend (F_Query []) Forward);
   InterceptResponse None (B_CommandComplete []) (mkMiddleware 0%Z (mkPipelineAdapter mkRetag));
   Untyped (AcceptBackend (B_ReadyForQuery Idle)); Untyped (AcceptFrontend parse_message Forward);
   InterceptFrontend replace_by_sync parse_message Forward; AdoptReplacements [B_ParseComplete] [B_ParseComplete]].

Lemma pipeline_never_panics_witness : run_calls typed_calls (Pipeline_new (mkBounded 4)) <> None.
Proof.
  apply (pipeline_never_panics (mkBounded 4) typed_calls retag_returns retag_opens_no_copy_both).
  repeat constructor.
  - intros m [].
  - intros m ->. reflexivity.
  - intros m [].
  - intros ph m Hm. destruct ph; try exact Hm. split; [vm_compute; reflexivity|]. now intros [? ?].
Defined.

Example typed_calls_leave : option_map (fun p => ids p) (run_calls typed_calls (Pipeline_new (mkBounded 4))) = Some [2%Z].
Proof. vm_compute. reflexivity. Qed.
