(* ===== verification/Session.v ===== *)
(** The client's query, COPY, draining and reset typestates: src/session.rs. *)

From Stdlib Require Import ZArith Lia String.
From Stdlib Require Import Init.Byte.
From stdpp Require Import prelude.
From S2P Require Import Prelude OrdMap Wire Frame Frontend Startup Backend Replication Demux Fsm Grammar Resources PreStartup.

Local Open Scope string_scope.
Local Open Scope list_scope.

(** ** Phases *)

Module SessionPhase.
(** The phase markers of src/session.rs, and [Ready] of src/auth.rs. *)
Inductive t : Type :=
| Ready | SimpleQuery | FunctionCalling | Building | BoundBuilding | AwaitingReady
| CopyIn | CopyOut | CopyBoth | CopyBothClientDone | CopyBothServerDone
| Draining | Resetting | ResetComplete.
End SessionPhase.
Module SP := SessionPhase.

#[export] Instance session_phase_eq_dec : EqDecision SP.t.
Proof. solve_decision. Defined.

Abbreviation ErrorResponse := DiagnosticResponse.

(** ** What a backend item leads to *)

Section Transitions.
Context (S : Type).

Inductive ReadyState (C : Cleanliness) : Type :=
| RS_Clean (conn : Conn S SP.Ready C)
| RS_Dirty (conn : Conn S SP.Ready Dirty) (status : TransactionStatus) (parameters_changed : bool).

Inductive SimpleTransition (C : Cleanliness) : Type :=
| Simple_Continue (conn : Conn S SP.SimpleQuery C) (item : SessionItem)
| Simple_CopyIn (conn : Conn S SP.CopyIn C) (response : CopyResponse)
| Simple_CopyOut (conn : Conn S SP.CopyOut C) (response : CopyResponse)
| Simple_CopyBoth (conn : Conn S SP.CopyBoth C) (response : CopyResponse)
| Simple_Ready (ready : ReadyState C)
| Simple_Error (conn : Conn S SP.Draining C) (error : ErrorResponse).

Inductive AwaitingReadyTransition (C : Cleanliness) : Type :=
| Awaiting_Continue (conn : Conn S SP.AwaitingReady C) (item : SessionItem)
| Awaiting_Ready (ready : ReadyState C)
| Awaiting_Error (conn : Conn S SP.Draining C) (error : ErrorResponse).

Inductive FunctionCallTransition (C : Cleanliness) : Type :=
| Function_Response (conn : Conn S SP.AwaitingReady C) (value : bytes)
| Function_Error (conn : Conn S SP.Draining C) (error : ErrorResponse).

Inductive DrainingTransition (C : Cleanliness) : Type :=
| Draining_Continue (conn : Conn S SP.Draining C) (item : SessionItem)
| Draining_Ready (ready : ReadyState C).

Inductive CopyOutTransition (C : Cleanliness) : Type :=
| CopyOut_Data (conn : Conn S SP.CopyOut C) (data : bytes)
| CopyOut_Done (conn : Conn S SP.AwaitingReady C)
| CopyOut_Error (conn : Conn S SP.Draining C) (error : ErrorResponse).

Inductive CopyInTransition (C : Cleanliness) : Type :=
| CopyIn_Error (conn : Conn S SP.Draining C) (error : ErrorResponse).

Inductive CopyBothReceive (C : Cleanliness) : Type :=
| CopyBoth_Data (conn : Conn S SP.CopyBoth C) (data : bytes)
| CopyBoth_Done (conn : Conn S SP.CopyBothServerDone C)
| CopyBoth_Error (conn : Conn S SP.Draining C) (error : ErrorResponse).

Inductive CopyBothClientDoneReceive (C : Cleanliness) : Type :=
| ClientDone_Data (conn : Conn S SP.CopyBothClientDone C) (data : bytes)
| ClientDone_Done (conn : Conn S SP.AwaitingReady C)
| ClientDone_Error (conn : Conn S SP.Draining C) (error : ErrorResponse).

Inductive ReplicationReceive (C : Cleanliness) : Type :=
| Replication_Message (conn : Conn S SP.CopyBoth C) (message : BackendReplication)
| Replication_Done (conn : Conn S SP.CopyBothServerDone C)
| Replication_Error (conn : Conn S SP.Draining C) (error : ErrorResponse).

Inductive ReplicationClientDoneReceive (C : Cleanliness) : Type :=
| ReplicationDone_Message (conn : Conn S SP.CopyBothClientDone C) (message : BackendReplication)
| ReplicationDone_Done (conn : Conn S SP.AwaitingReady C)
| ReplicationDone_Error (conn : Conn S SP.Draining C) (error : ErrorResponse).

Inductive ResettingTransition : Type :=
| Resetting_Continue (conn : Conn S SP.Resetting Dirty) (item : SessionItem)
| Resetting_Complete (conn : Conn S SP.ResetComplete Dirty)
| Resetting_Error (conn : Conn S SP.Draining Dirty) (error : ErrorResponse).

Inductive ResetCompleteTransition : Type :=
| ResetComplete_Continue (conn : Conn S SP.ResetComplete Dirty) (item : SessionItem)
| ResetComplete_Ready (conn : Conn S SP.Ready Pristine)
| ResetComplete_Dirty (conn : Conn S SP.Ready Dirty) (status : TransactionStatus) (parameters_changed : bool)
| ResetComplete_Error (conn : Conn S SP.Draining Dirty) (error : ErrorResponse).
End Transitions.
Arguments RS_Clean {S C}. Arguments RS_Dirty {S C}.
Arguments Simple_Continue {S C}. Arguments Simple_CopyIn {S C}. Arguments Simple_CopyOut {S C}.
Arguments Simple_CopyBoth {S C}. Arguments Simple_Ready {S C}. Arguments Simple_Error {S C}.
Arguments Awaiting_Continue {S C}. Arguments Awaiting_Ready {S C}. Arguments Awaiting_Error {S C}.
Arguments Function_Response {S C}. Arguments Function_Error {S C}.
Arguments Draining_Continue {S C}. Arguments Draining_Ready {S C}.
Arguments CopyOut_Data {S C}. Arguments CopyOut_Done {S C}. Arguments CopyOut_Error {S C}.
Arguments CopyIn_Error {S C}.
Arguments CopyBoth_Data {S C}. Arguments CopyBoth_Done {S C}. Arguments CopyBoth_Error {S C}.
Arguments ClientDone_Data {S C}. Arguments ClientDone_Done {S C}. Arguments ClientDone_Error {S C}.
Arguments Replication_Message {S C}. Arguments Replication_Done {S C}. Arguments Replication_Error {S C}.
Arguments ReplicationDone_Message {S C}. Arguments ReplicationDone_Done {S C}. Arguments ReplicationDone_Error {S C}.
Arguments Resetting_Continue {S}. Arguments Resetting_Complete {S}. Arguments Resetting_Error {S}.
Arguments ResetComplete_Continue {S}. Arguments ResetComplete_Ready {S}. Arguments ResetComplete_Dirty {S}.
Arguments ResetComplete_Error {S}.

(** ** Operations *)

Definition empty_frame (tag : byte) : Frame := mkFrame tag [].

Definition project_session_item (state : string) (item : SessionItem) : option string :=
  match item with
  | Item_Message message => project_external frontend state message
  | Item_CommandComplete tag _ _ => project_external frontend state (B_CommandComplete tag)
  | Item_ReadyForQuery status _ => project_external frontend state (B_ReadyForQuery status)
  end.

Definition ready_state {S} {Ph : Type} {P : Ph} {C} (conn : Conn S P C) (status : TransactionStatus)
    (parameters_changed : bool) : ReadyState S C :=
  if bool_decide (status = Idle) && negb parameters_changed then RS_Clean (transition conn)
  else RS_Dirty (transition conn) status parameters_changed.

Section Operations.
Context {S : Type} {C : Cleanliness}.

(** [Ready] *)

Definition push_terminate (c : Conn S SP.Ready C) : Conn S Phase.Terminated C * Frame :=
  (transition c, empty_frame "X"%byte).

Definition push_query (c : Conn S SP.Ready C) (query : bytes) : io (Conn S SP.SimpleQuery Dirty * Frame) :=
  let? frame := cstr_frame "Q"%byte query in Ok (transition c, frame).

Definition push_stateless_query (c : Conn S SP.Ready C) (query : bytes)
    : io (Conn S SP.SimpleQuery C * Frame) :=
  let? frame := cstr_frame "Q"%byte query in Ok (transition c, frame).

Definition push_function_call (c : Conn S SP.Ready C) (message : FunctionCall)
    : io (Conn S SP.FunctionCalling Dirty * Frame) :=
  let? frame := FunctionCall_to_frame message in Ok (transition c, frame).

Definition push_stateless_function_call (c : Conn S SP.Ready C) (message : FunctionCall)
    : io (Conn S SP.FunctionCalling C * Frame) :=
  let? frame := FunctionCall_to_frame message in Ok (transition c, frame).

Definition begin_extended (c : Conn S SP.Ready C) : Conn S SP.Building C := transition c.

(** [FunctionCalling] *)

Definition offer_function_calling (c : Conn S SP.FunctionCalling C) (message : BackendMessage)
    : result (FunctionCallTransition S C) (Conn S SP.FunctionCalling C * BackendMessage) :=
  match project_external frontend "FunctionCalling" message, message with
  | Some "FunctionResponse", B_FunctionCallResponse value => Ok (Function_Response (transition c) value)
  | Some "Error", B_ErrorResponse error => Ok (Function_Error (transition c) error)
  | _, other => Err (c, other)
  end.

(** [Building] and [BoundBuilding] *)

Definition push_parse (c : Conn S SP.Building C) (message : Parse) : io (Conn S SP.Building Dirty * Frame) :=
  let? frame := Parse_to_frame message in Ok (transition c, frame).
Definition push_describe (c : Conn S SP.Building C) (message : Describe) : io (Conn S SP.Building C * Frame) :=
  let? frame := Describe_to_frame message in Ok (c, frame).
Definition push_bind (c : Conn S SP.Building C) (message : Bind) : io (Conn S SP.BoundBuilding Dirty * Frame) :=
  let? frame := Bind_to_frame message in Ok (transition c, frame).
Definition push_close (c : Conn S SP.Building C) (message : Close) : io (Conn S SP.Building C * Frame) :=
  let? frame := Close_to_frame message in Ok (c, frame).
Definition push_flush (c : Conn S SP.Building C) : Conn S SP.Building C * Frame := (c, empty_frame "H"%byte).
Definition push_sync (c : Conn S SP.Building C) : Conn S SP.AwaitingReady C * Frame :=
  (transition c, empty_frame "S"%byte).

Definition bound_push_parse (c : Conn S SP.BoundBuilding C) (message : Parse)
    : io (Conn S SP.BoundBuilding Dirty * Frame) :=
  let? frame := Parse_to_frame message in Ok (transition c, frame).
Definition bound_push_bind (c : Conn S SP.BoundBuilding C) (message : Bind)
    : io (Conn S SP.BoundBuilding Dirty * Frame) :=
  let? frame := Bind_to_frame message in Ok (transition c, frame).
Definition bound_push_describe (c : Conn S SP.BoundBuilding C) (message : Describe)
    : io (Conn S SP.BoundBuilding C * Frame) :=
  let? frame := Describe_to_frame message in Ok (c, frame).
Definition push_execute (c : Conn S SP.BoundBuilding C) (message : Execute)
    : io (Conn S SP.BoundBuilding C * Frame) :=
  let? frame := Execute_to_frame message in Ok (c, frame).
Definition bound_push_close (c : Conn S SP.BoundBuilding C) (message : Close)
    : io (Conn S SP.BoundBuilding C * Frame) :=
  let? frame := Close_to_frame message in Ok (c, frame).
Definition bound_push_flush (c : Conn S SP.BoundBuilding C) : Conn S SP.BoundBuilding C * Frame :=
  (c, empty_frame "H"%byte).
Definition bound_push_sync (c : Conn S SP.BoundBuilding C) : Conn S SP.AwaitingReady C * Frame :=
  (transition c, empty_frame "S"%byte).

(** [SimpleQuery] *)

Definition offer_simple (c : Conn S SP.SimpleQuery C) (item : SessionItem)
    : result (SimpleTransition S C) (Conn S SP.SimpleQuery C * SessionItem) :=
  match project_session_item "Simple" item, item with
  | Some "CopyIn", Item_Message (B_CopyInResponse response) => Ok (Simple_CopyIn (transition c) response)
  | Some "CopyOut", Item_Message (B_CopyOutResponse response) => Ok (Simple_CopyOut (transition c) response)
  | Some "CopyBoth", Item_Message (B_CopyBothResponse response) => Ok (Simple_CopyBoth (transition c) response)
  | Some "Ready", Item_ReadyForQuery status parameters_changed =>
      Ok (Simple_Ready (ready_state c status parameters_changed))
  | Some "Error", Item_Message (B_ErrorResponse error) => Ok (Simple_Error (transition c) error)
  | Some "Continue",
    (Item_CommandComplete _ _ _ | Item_Message (B_RowDescription _ | B_DataRow _ | B_EmptyQueryResponse)) as item =>
      Ok (Simple_Continue c item)
  | _, item => Err (c, item)
  end.

(** COPY *)

Definition push_copy_data {P : SP.t} (c : Conn S P C) (data : bytes) : Conn S P C * Frame :=
  (c, mkFrame "d"%byte data).
Definition copy_in_push_copy_done (c : Conn S SP.CopyIn C) : Conn S SP.AwaitingReady C * Frame :=
  (transition c, empty_frame "c"%byte).
Definition push_copy_fail (c : Conn S SP.CopyIn C) (message : bytes) : io (Conn S SP.AwaitingReady C * Frame) :=
  let? frame := cstr_frame "f"%byte message in Ok (transition c, frame).

Definition offer_copy_in (c : Conn S SP.CopyIn C) (item : SessionItem)
    : result (CopyInTransition S C) (Conn S SP.CopyIn C * SessionItem) :=
  match project_session_item "CopyIn" item, item with
  | Some "Error", Item_Message (B_ErrorResponse error) => Ok (CopyIn_Error (transition c) error)
  | _, item => Err (c, item)
  end.

Definition offer_client_done (c : Conn S SP.CopyBothClientDone C) (item : SessionItem)
    : result (CopyBothClientDoneReceive S C) (Conn S SP.CopyBothClientDone C * SessionItem) :=
  match project_session_item "CopyBothClientDone" item, item with
  | Some "ReceiveCopyData", Item_Message (B_CopyData data) => Ok (ClientDone_Data c data)
  | Some "ReceiveCopyDone", Item_Message B_CopyDone => Ok (ClientDone_Done (transition c))
  | Some "Error", Item_Message (B_ErrorResponse error) => Ok (ClientDone_Error (transition c) error)
  | _, item => Err (c, item)
  end.

Definition client_done_decode_replication (r : CopyBothClientDoneReceive S C)
    : result (ReplicationClientDoneReceive S C) (Conn S SP.CopyBothClientDone C * io_error) :=
  match r with
  | ClientDone_Data conn data =>
      match BackendReplication_decode data with
      | Ok message => Ok (ReplicationDone_Message conn message)
      | Err error => Err (conn, error)
      | Panic => Panic
      end
  | ClientDone_Done conn => Ok (ReplicationDone_Done conn)
  | ClientDone_Error conn error => Ok (ReplicationDone_Error conn error)
  end.

Definition push_replication {P : SP.t} (c : Conn S P C) (message : FrontendReplication) : Conn S P C * Frame :=
  push_copy_data c (FrontendReplication_encode message).
Definition server_done_push_copy_done (c : Conn S SP.CopyBothServerDone C) : Conn S SP.AwaitingReady C * Frame :=
  (transition c, empty_frame "c"%byte).

Definition offer_copy_out (c : Conn S SP.CopyOut C) (item : SessionItem)
    : result (CopyOutTransition S C) (Conn S SP.CopyOut C * SessionItem) :=
  match project_session_item "CopyOut" item, item with
  | Some "CopyData", Item_Message (B_CopyData data) => Ok (CopyOut_Data c data)
  | Some "CopyDone", Item_Message B_CopyDone => Ok (CopyOut_Done (transition c))
  | Some "Error", Item_Message (B_ErrorResponse error) => Ok (CopyOut_Error (transition c) error)
  | _, item => Err (c, item)
  end.

Definition copy_both_push_copy_done (c : Conn S SP.CopyBoth C) : Conn S SP.CopyBothClientDone C * Frame :=
  (transition c, empty_frame "c"%byte).

Definition offer_copy_both (c : Conn S SP.CopyBoth C) (item : SessionItem)
    : result (CopyBothReceive S C) (Conn S SP.CopyBoth C * SessionItem) :=
  match project_session_item "CopyBoth" item, item with
  | Some "ReceiveCopyData", Item_Message (B_CopyData data) => Ok (CopyBoth_Data c data)
  | Some "ReceiveCopyDone", Item_Message B_CopyDone => Ok (CopyBoth_Done (transition c))
  | Some "Error", Item_Message (B_ErrorResponse error) => Ok (CopyBoth_Error (transition c) error)
  | _, item => Err (c, item)
  end.

Definition decode_replication (r : CopyBothReceive S C)
    : result (ReplicationReceive S C) (Conn S SP.CopyBoth C * io_error) :=
  match r with
  | CopyBoth_Data conn data =>
      match BackendReplication_decode data with
      | Ok message => Ok (Replication_Message conn message)
      | Err error => Err (conn, error)
      | Panic => Panic
      end
  | CopyBoth_Done conn => Ok (Replication_Done conn)
  | CopyBoth_Error conn error => Ok (Replication_Error conn error)
  end.

(** [Draining] and [AwaitingReady] *)

Definition offer_draining (c : Conn S SP.Draining C) (item : SessionItem) : DrainingTransition S C :=
  match project_session_item "Draining" item, item with
  | Some "Ready", Item_ReadyForQuery status parameters_changed =>
      Draining_Ready (ready_state c status parameters_changed)
  | _, item => Draining_Continue c item
  end.

Definition offer_awaiting (c : Conn S SP.AwaitingReady C) (item : SessionItem) : AwaitingReadyTransition S C :=
  match project_session_item "AwaitingReady" item, item with
  | Some "Ready", Item_ReadyForQuery status parameters_changed =>
      Awaiting_Ready (ready_state c status parameters_changed)
  | Some "Error", Item_Message (B_ErrorResponse error) => Awaiting_Error (transition c) error
  | _, item => Awaiting_Continue c item
  end.
End Operations.

(** [Ready] with known cleanliness, and the reset cycle *)
Section Reset.
Context {S : Type}.

Definition release (c : Conn S SP.Ready Pristine) : io S := into_transport c.

Definition DISCARD_ALL : bytes := list_byte_of_string "DISCARD ALL".

Definition begin_reset (c : Conn S SP.Ready Dirty) : io (Conn S SP.Resetting Dirty * Frame) :=
  let? frame := cstr_frame "Q"%byte (list_byte_of_string "ROLLBACK; DISCARD ALL") in Ok (transition c, frame).

Definition offer_resetting (c : Conn S SP.Resetting Dirty) (item : SessionItem) : ResettingTransition S :=
  match project_session_item "Resetting" item, item with
  | Some "DiscardComplete", Item_CommandComplete tag _ _ =>
      if decide (tag = DISCARD_ALL) then Resetting_Complete (transition c) else Resetting_Continue c item
  | Some "Error", Item_Message (B_ErrorResponse error) => Resetting_Error (transition c) error
  | _, item => Resetting_Continue c item
  end.

Definition offer_reset_complete (c : Conn S SP.ResetComplete Dirty) (item : SessionItem)
    : ResetCompleteTransition S :=
  match project_session_item "ResetComplete" item, item with
  | Some "ReadyClean", Item_ReadyForQuery Idle false => ResetComplete_Ready (transition c)
  | Some ("ReadyClean" | "ReadyDirty"), Item_ReadyForQuery status parameters_changed =>
      ResetComplete_Dirty (transition c) status parameters_changed
  | Some "Error", Item_Message (B_ErrorResponse error) => ResetComplete_Error (transition c) error
  | _, item => ResetComplete_Continue c item
  end.

Definition mark_dirty {Ph : Type} {P : Ph} (c : Conn S P Pristine) : Conn S P Dirty := transition c.
End Reset.
