(* ===== verification/SessionSpec.v ===== *)
(** The client session as one machine: the typed operations of [Session] erased
    to a state that carries its phase, related to the frontend grammar; pooling
    cleanliness and recovery over whole sessions. *)

From Stdlib Require Import ZArith Lia String.
From Stdlib Require Import Init.Byte.
From stdpp Require Import prelude.
From S2P Require Import Prelude OrdMap Wire Frame Frontend Startup Backend Replication Demux Fsm Grammar Resources PreStartup Machine Session.

Local Open Scope string_scope.
Local Open Scope list_scope.

(** ** Erased sessions *)

Inductive client_state (S : Type) : Type :=
| At (P : SP.t) (C : Cleanliness) (conn : Conn S P C)
| Ended (C : Cleanliness) (conn : Conn S Phase.Terminated C).
Arguments At {S} P C conn.
Arguments Ended {S} C conn.

Definition phase_name (P : SP.t) : string :=
  match P with
  | SP.Ready => "Ready" | SP.SimpleQuery => "Simple" | SP.FunctionCalling => "FunctionCalling"
  | SP.Building => "Building" | SP.BoundBuilding => "BoundBuilding" | SP.AwaitingReady => "AwaitingReady"
  | SP.CopyIn => "CopyIn" | SP.CopyOut => "CopyOut" | SP.CopyBoth => "CopyBoth"
  | SP.CopyBothClientDone => "CopyBothClientDone" | SP.CopyBothServerDone => "CopyBothServerDone"
  | SP.Draining => "Draining" | SP.Resetting => "Resetting" | SP.ResetComplete => "ResetComplete"
  end.

Definition state_name {S} (st : client_state S) : string :=
  match st with At P _ _ => phase_name P | Ended _ _ => "Terminated" end.
Definition cleanliness {S} (st : client_state S) : Cleanliness :=
  match st with At _ C _ => C | Ended C _ => C end.

(** The client's operations, by name. *)
Inductive push : Type :=
| P_Terminate | P_Query (q : bytes) | P_StatelessQuery (q : bytes)
| P_FunctionCall (m : FunctionCall) | P_StatelessFunctionCall (m : FunctionCall)
| P_BeginExtended | P_BeginReset
| P_Parse (m : Parse) | P_Describe (m : Describe) | P_Bind (m : Bind) | P_Execute (m : Execute) | P_Close (m : Close)
| P_Flush | P_Sync
| P_CopyData (d : bytes) | P_Replication (m : FrontendReplication) | P_CopyDone | P_CopyFail (m : bytes).

Section Erasure.
Context {S : Type}.

Definition sent {P C} (r : io (Conn S P C * Frame)) : option (io (client_state S * option Frame)) :=
  Some (let? (c, f) := r in Ok (At P C c, Some f)).

(** [None]: the operation does not exist in the phase. *)
Definition do_push (op : push) (st : client_state S) : option (io (client_state S * option Frame)) :=
  match st with
  | Ended _ _ => None
  | At P C conn =>
      match P return Conn S P C -> _ with
      | SP.Ready => fun c =>
          match op with
          | P_Terminate => let (c, f) := push_terminate c in Some (Ok (Ended C c, Some f))
          | P_Query q => sent (push_query c q)
          | P_StatelessQuery q => sent (push_stateless_query c q)
          | P_FunctionCall m => sent (push_function_call c m)
          | P_StatelessFunctionCall m => sent (push_stateless_function_call c m)
          | P_BeginExtended => Some (Ok (At _ C (begin_extended c), None))
          | P_BeginReset =>
              match C return Conn S SP.Ready C -> _ with
              | Dirty => fun c => sent (begin_reset c)
              | Pristine => fun _ => None
              end c
          | _ => None
          end
      | SP.Building => fun c =>
          match op with
          | P_Parse m => sent (push_parse c m)
          | P_Describe m => sent (push_describe c m)
          | P_Bind m => sent (push_bind c m)
          | P_Close m => sent (push_close c m)
          | P_Flush => sent (Ok (push_flush c))
          | P_Sync => sent (Ok (push_sync c))
          | _ => None
          end
      | SP.BoundBuilding => fun c =>
          match op with
          | P_Parse m => sent (bound_push_parse c m)
          | P_Describe m => sent (bound_push_describe c m)
          | P_Bind m => sent (bound_push_bind c m)
          | P_Execute m => sent (push_execute c m)
          | P_Close m => sent (bound_push_close c m)
          | P_Flush => sent (Ok (bound_push_flush c))
          | P_Sync => sent (Ok (bound_push_sync c))
          | _ => None
          end
      | SP.CopyIn => fun c =>
          match op with
          | P_CopyData d => sent (Ok (push_copy_data c d))
          | P_CopyDone => sent (Ok (copy_in_push_copy_done c))
          | P_CopyFail m => sent (push_copy_fail c m)
          | _ => None
          end
      | SP.CopyBoth => fun c =>
          match op with
          | P_CopyData d => sent (Ok (push_copy_data c d))
          | P_Replication m => sent (Ok (push_replication c m))
          | P_CopyDone => sent (Ok (copy_both_push_copy_done c))
          | _ => None
          end
      | SP.CopyBothServerDone => fun c =>
          match op with
          | P_CopyData d => sent (Ok (push_copy_data c d))
          | P_Replication m => sent (Ok (push_replication c m))
          | P_CopyDone => sent (Ok (server_done_push_copy_done c))
          | _ => None
          end
      | _ => fun _ => None
      end conn
  end.

Definition at_ready {C} (r : ReadyState S C) : client_state S :=
  match r with RS_Clean conn => At _ C conn | RS_Dirty conn _ _ => At _ Dirty conn end.

(** [None]: nothing is received in the phase; the flag is [false] when the item
    is handed back with the unchanged connection. *)
Definition do_offer (item : SessionItem) (st : client_state S) : option (client_state S * bool) :=
  match st with
  | Ended _ _ => None
  | At P C conn =>
      match P return Conn S P C -> _ with
      | SP.SimpleQuery => fun c =>
          Some match offer_simple c item with
               | Ok (Simple_Continue c _) => (At _ C c, true)
               | Ok (Simple_CopyIn c _) => (At _ C c, true)
               | Ok (Simple_CopyOut c _) => (At _ C c, true)
               | Ok (Simple_CopyBoth c _) => (At _ C c, true)
               | Ok (Simple_Ready r) => (at_ready r, true)
               | Ok (Simple_Error c _) => (At _ C c, true)
               | Err (c, _) => (At _ C c, false)
               | Panic => (At _ C c, false)
               end
      | SP.FunctionCalling => fun c =>
          Some match offer_function_calling c (into_backend_message item) with
               | Ok (Function_Response c _) => (At _ C c, true)
               | Ok (Function_Error c _) => (At _ C c, true)
               | Err (c, _) => (At _ C c, false)
               | Panic => (At _ C c, false)
               end
      | SP.AwaitingReady => fun c =>
          Some match offer_awaiting c item with
               | Awaiting_Continue c _ => (At _ C c, true)
               | Awaiting_Ready r => (at_ready r, true)
               | Awaiting_Error c _ => (At _ C c, true)
               end
      | SP.CopyIn => fun c =>
          Some match offer_copy_in c item with
               | Ok (CopyIn_Error c _) => (At _ C c, true)
               | Err (c, _) => (At _ C c, false)
               | Panic => (At _ C c, false)
               end
      | SP.CopyOut => fun c =>
          Some match offer_copy_out c item with
               | Ok (CopyOut_Data c _) => (At _ C c, true)
               | Ok (CopyOut_Done c) => (At _ C c, true)
               | Ok (CopyOut_Error c _) => (At _ C c, true)
               | Err (c, _) => (At _ C c, false)
               | Panic => (At _ C c, false)
               end
      | SP.CopyBoth => fun c =>
          Some match offer_copy_both c item with
               | Ok (CopyBoth_Data c _) => (At _ C c, true)
               | Ok (CopyBoth_Done c) => (At _ C c, true)
               | Ok (CopyBoth_Error c _) => (At _ C c, true)
               | Err (c, _) => (At _ C c, false)
               | Panic => (At _ C c, false)
               end
      | SP.CopyBothClientDone => fun c =>
          Some match offer_client_done c item with
               | Ok (ClientDone_Data c _) => (At _ C c, true)
               | Ok (ClientDone_Done c) => (At _ C c, true)
               | Ok (ClientDone_Error c _) => (At _ C c, true)
               | Err (c, _) => (At _ C c, false)
               | Panic => (At _ C c, false)
               end
      | SP.Draining => fun c =>
          Some match offer_draining c item with
               | Draining_Continue c _ => (At _ C c, true)
               | Draining_Ready r => (at_ready r, true)
               end
      | SP.Resetting => fun c =>
          match C return Conn S SP.Resetting C -> _ with
          | Pristine => fun _ => None
          | Dirty => fun c =>
              Some match offer_resetting c item with
                   | Resetting_Continue c _ => (At _ Dirty c, true)
                   | Resetting_Complete c => (At _ Dirty c, true)
                   | Resetting_Error c _ => (At _ Dirty c, true)
                   end
          end c
      | SP.ResetComplete => fun c =>
          match C return Conn S SP.ResetComplete C -> _ with
          | Pristine => fun _ => None
          | Dirty => fun c =>
              Some match offer_reset_complete c item with
                   | ResetComplete_Continue c _ => (At _ Dirty c, true)
                   | ResetComplete_Ready c => (At _ Pristine c, true)
                   | ResetComplete_Dirty c _ _ => (At _ Dirty c, true)
                   | ResetComplete_Error c _ => (At _ Dirty c, true)
                   end
          end c
      | _ => fun _ => None
      end conn
  end.
End Erasure.

(** ** Sessions and the grammar *)

Definition live_transport {S} (st : client_state S) : option S :=
  match st with At _ _ c => transport c | Ended _ c => transport c end.

(** The phases that skip what the grammar does not expect. *)
Definition tolerant {S} (st : client_state S) : bool :=
  match st with
  | At (SP.AwaitingReady | SP.Draining | SP.Resetting | SP.ResetComplete) _ _ => true
  | _ => false
  end.

(** A completion while resetting that is not the one of [DISCARD ALL]. *)
Definition other_completion {S} (st : client_state S) (item : SessionItem) : bool :=
  match st, item with
  | At SP.Resetting _ _, Item_CommandComplete tag _ _ => negb (bool_decide (tag = DISCARD_ALL))
  | _, _ => false
  end.

(** What an offer must do according to the grammar. *)
Definition offer_conforms {S} (item : SessionItem) (st st' : client_state S) (taken : bool) : Prop :=
  live_transport st' = live_transport st /\
  match project_session_item (state_name st) item with
  | Some e =>
      taken = true /\
      if other_completion st item then st' = st
      else enters frontend (state_name st) e (state_name st') = true
  | None => st' = st /\ taken = tolerant st
  end.

(** The items the demultiplexer makes: completions and readiness never travel as
    plain messages. *)
Definition projected_item (item : SessionItem) : bool :=
  match item with Item_Message (B_CommandComplete _ | B_ReadyForQuery _) => false | _ => true end.

Lemma route_projected m d item : fst (route m d) = Some item -> projected_item item = true.
Proof. destruct m; cbn; intros E; try discriminate E; injection E as <-; reflexivity. Qed.

(** Every projection computes on the cases of an item. *)
Ltac item_cases item H :=
  let m := fresh "m" in let s := fresh "s" in let b := fresh "b" in
  destruct item as [m|s b|]; [destruct m; try discriminate H|destruct s, b|].

Lemma offer_conforms_reset {S} item (c : Conn S SP.Resetting Dirty) st' taken :
  projected_item item = true ->
  do_offer item (At SP.Resetting Dirty c) = Some (st', taken) ->
  offer_conforms item (At SP.Resetting Dirty c) st' taken.
Proof.
  intros Hi. unfold offer_conforms. destruct item as [m|s b|tag cmd ns].
  - destruct m; try discriminate Hi; vm_compute; intros [= <- <-]; easy.
  - destruct s, b; vm_compute; intros [= <- <-]; easy.
  - unfold do_offer, offer_resetting, other_completion.
    assert (project_session_item "Resetting" (Item_CommandComplete tag cmd ns) = Some "DiscardComplete") as E
      by reflexivity.
    change (state_name (At SP.Resetting Dirty c)) with "Resetting". rewrite E.
    destruct (decide (tag = DISCARD_ALL)) as [->|Hn]; intros [= <- <-].
    + rewrite bool_decide_eq_true_2 by done. easy.
    + rewrite bool_decide_eq_false_2 by done. easy.
Qed.

Lemma do_offer_conforms {S} item (st st' : client_state S) taken :
  projected_item item = true ->
  do_offer item st = Some (st', taken) -> offer_conforms item st st' taken.
Proof.
  intros Hi. destruct st as [P C c|C c]; [|done].
  destruct P; try discriminate.
  9:{ destruct C; [discriminate|]. now apply offer_conforms_reset. }
  all: unfold offer_conforms; try (destruct C; [discriminate|]);
    item_cases item Hi; vm_compute; intros [= <- <-]; easy.
Qed.

(** The grammar event an operation stands for, and the message it sends. *)
Definition push_event {S} (op : push) (st : client_state S) : string :=
  match op with
  | P_Terminate => "Terminate" | P_Query _ | P_StatelessQuery _ => "Query"
  | P_FunctionCall _ | P_StatelessFunctionCall _ => "FunctionCall"
  | P_BeginExtended => "BeginExtended" | P_BeginReset => "Reset"
  | P_Parse _ => "Parse" | P_Describe _ => "Describe" | P_Bind _ => "Bind" | P_Execute _ => "Execute"
  | P_Close _ => "Close" | P_Flush => "Flush" | P_Sync => "Sync"
  | P_CopyData _ | P_Replication _ => match st with At SP.CopyIn _ _ => "CopyData" | _ => "SendCopyData" end
  | P_CopyDone => match st with At SP.CopyIn _ _ => "CopyDone" | _ => "SendCopyDone" end
  | P_CopyFail _ => "CopyFail"
  end.

Definition push_message (op : push) : option FrontendMessage :=
  match op with
  | P_Terminate => Some F_Terminate
  | P_Query q | P_StatelessQuery q => Some (F_Query q)
  | P_FunctionCall m | P_StatelessFunctionCall m => Some (F_FunctionCall m)
  | P_BeginExtended => None
  | P_BeginReset => Some (F_Query (list_byte_of_string "ROLLBACK; DISCARD ALL"))
  | P_Parse m => Some (F_Parse m) | P_Describe m => Some (F_Describe m) | P_Bind m => Some (F_Bind m)
  | P_Execute m => Some (F_Execute m) | P_Close m => Some (F_Close m)
  | P_Flush => Some F_Flush | P_Sync => Some F_Sync
  | P_CopyData d => Some (F_CopyData d)
  | P_Replication m => Some (F_CopyData (FrontendReplication_encode m))
  | P_CopyDone => Some F_CopyDone | P_CopyFail m => Some (F_CopyFail m)
  end.

(** What a push must do according to the grammar. A reset is sent as a query and
    is an event of its own. *)
Definition push_conforms {S} (op : push) (st st' : client_state S) (frame : option Frame) : Prop :=
  live_transport st' = live_transport st /\
  enters frontend (state_name st) (push_event op st) (state_name st') = true /\
  match push_message op with
  | Some m =>
      (exists f, frame = Some f /\ FrontendMessage_to_frame m = Ok f) /\
      (op <> P_BeginReset -> project_internal frontend (state_name st) m = Some (push_event op st))
  | None => frame = None
  end.

(** [session.rs] has its own copy of the string frame of [codec.rs]. *)
Lemma cstr_frame_message tag value : cstr_frame tag value = cstr_message tag value.
Proof. unfold cstr_frame, cstr_message, put_cstr. now destruct (decide (x00 ∈ value)). Qed.

Lemma sent_inv {S} {P : SP.t} {C} (r : io (Conn S P C * Frame)) st' frame : sent r = Some (Ok (st', frame)) ->
  exists c f, r = Ok (c, f) /\ st' = At P C c /\ frame = Some f.
Proof. destruct r as [[c f]| |]; [|done..]. intros [= <- <-]. eauto. Qed.

Lemma do_push_conforms {S} op (st st' : client_state S) frame :
  do_push op st = Some (Ok (st', frame)) -> push_conforms op st st' frame.
Proof.
  destruct st as [P C c|C c]; [|done].
  destruct P; try discriminate; destruct op; try discriminate; intros H; cbn [do_push] in H.
  all: try (destruct C; [discriminate H|]).
  all: try (apply sent_inv in H as (c' & f & Hr & -> & ->);
    unfold push_query, push_stateless_query, push_function_call, push_stateless_function_call, begin_reset,
      push_parse, push_describe, push_bind, push_close, push_flush, push_sync, bound_push_parse,
      bound_push_describe, bound_push_bind, push_execute, bound_push_close, bound_push_flush, bound_push_sync,
      push_copy_data, copy_in_push_copy_done, push_copy_fail, copy_both_push_copy_done, push_replication,
      server_done_push_copy_done in Hr; rewrite ?cstr_frame_message in Hr).
  all: try match type of Hr with context [match ?x with Ok _ => _ | Err _ => _ | Panic => _ end] =>
    destruct x as [fr| |] eqn:Ef; [|discriminate Hr..] end.
  all: try (injection Hr as <- <-); try (injection H as <- <-).
  all: split; [reflexivity|]; split; [reflexivity|]; try reflexivity;
    (split; [eexists; split; [reflexivity|]; cbn; first [reflexivity|exact Ef]|]); try reflexivity; congruence.
Qed.

(** ** Whole sessions *)

Inductive action : Type :=
| Push (op : push)
| Receive (item : SessionItem)
| MarkDirty.

Section Runs.
Context {S : Type}.
Implicit Types (st : client_state S).

(** [None]: the operation does not exist in the phase, or its message could not
    be encoded, which consumes the connection. *)
Definition do_action (a : action) st : option (list Frame * client_state S) :=
  match a with
  | Push op =>
      match do_push op st with
      | Some (Ok (st, frame)) => Some (option_list frame, st)
      | _ => None
      end
  | Receive item => match do_offer item st with Some (st, _) => Some ([], st) | None => None end
  | MarkDirty => match st with At P Pristine c => Some ([], At P Dirty (mark_dirty c)) | _ => None end
  end.

Abbreviation run_session := (run do_action).

Definition well_projected (actions : list action) : Prop :=
  Forall (fun a => match a with Receive item => projected_item item = true | _ => True end) actions.

(** *** Cleanliness *)

(** The actions that leave session state behind, with the state they lead to. *)
Definition dirties (a : action) st' : bool :=
  match a with
  | Push (P_Query _ | P_FunctionCall _ | P_Parse _ | P_Bind _) | MarkDirty => true
  | Receive (Item_ReadyForQuery status parameters_changed) =>
      bool_decide (state_name st' = "Ready") && (bool_decide (status <> Idle) || parameters_changed)
  | _ => false
  end.

Definition resetting_done st : bool := match st with At SP.ResetComplete _ _ => true | _ => false end.

Lemma do_action_dirties a st fs st' :
  do_action a st = Some (fs, st') -> dirties a st' = true -> cleanliness st' = Dirty.
Proof.
  destruct a as [op|item|]; cbn [do_action].
  - destruct (do_push op st) as [[[st1 fr]| |]|] eqn:E; [|done..]. intros [= <- <-].
    destruct op; try done; destruct st as [P C c|]; try done; destruct P; try done; cbn [do_push] in E;
      now apply sent_inv in E as (c' & f & _ & -> & _).
  - destruct item as [|status changed|]; try done. destruct st as [P C c|]; [|done].
    destruct P; try done; destruct C, status, changed; vm_compute; intros [= <- <-]; done.
  - destruct st as [P [] c|]; [|done..]. now intros [= <- <-].
Qed.

(** How a session becomes pristine, in three steps: only the reset's last
    readiness does it, only [DISCARD ALL] leads there, and only a reset starts it. *)
Lemma becomes_pristine a st fs st' : do_action a st = Some (fs, st') ->
  cleanliness st = Dirty -> cleanliness st' = Pristine ->
  resetting_done st = true /\ a = Receive (Item_ReadyForQuery Idle false).
Proof.
  destruct st as [P C c|C c]; [|now destruct a]. cbn [cleanliness]. intros Ha -> Hp.
  destruct a as [op|item|]; [| |done]; cbn [do_action] in Ha.
  - destruct P, op; try discriminate Ha; cbn [do_push] in Ha; unfold sent in Ha; repeat case_match;
      now simplify_eq.
  - destruct P; try discriminate Ha.
    9:{ cbn [do_offer] in Ha. destruct (offer_resetting c item); injection Ha as <- <-; discriminate Hp. }
    all: destruct item as [m|s b|]; [destruct m; try match goal with x : TransactionStatus |- _ => destruct x end
      |destruct s, b|]; vm_compute in Ha; injection Ha as <- <-; try discriminate Hp; auto.
Qed.

Definition resetting st : bool := match st with At SP.Resetting _ _ => true | _ => false end.

Lemma becomes_reset a st fs st' : do_action a st = Some (fs, st') ->
  (resetting_done st = false -> resetting_done st' = true ->
     resetting st = true /\ exists cmd ns, a = Receive (Item_CommandComplete DISCARD_ALL cmd ns)) /\
  (resetting st = false -> resetting st' = true -> a = Push P_BeginReset).
Proof.
  destruct st as [P C c|C c]; [|now destruct a]. intros Ha.
  destruct a as [op|item|]; cbn [do_action] in Ha.
  - destruct P, op; try discriminate Ha; cbn [do_push] in Ha; unfold sent in Ha; repeat case_match;
      now simplify_eq.
  - destruct P; try discriminate Ha.
    9:{ destruct C; [discriminate Ha|]. cbn [do_offer] in Ha. split; [intros _|done].
        unfold offer_resetting in Ha. destruct item as [m|s b|tag cmd ns].
        - destruct m; vm_compute in Ha; injection Ha as <- <-; done.
        - destruct s; vm_compute in Ha; injection Ha as <- <-; done.
        - change (project_session_item "Resetting" (Item_CommandComplete tag cmd ns)) with (Some "DiscardComplete") in Ha.
          cbv iota in Ha. destruct (decide (tag = DISCARD_ALL)) as [->|]; injection Ha as <- <-; [eauto|done]. }
    all: try (destruct C; [discriminate Ha|]).
    all: destruct item as [m|s b|]; [destruct m; try match goal with x : TransactionStatus |- _ => destruct x end
      |destruct s, b|]; vm_compute in Ha; injection Ha as <- <-; done.
  - destruct C; [|done]. injection Ha as <- <-. destruct P; done.
Qed.

Lemma reset_sequence actions st fs st' :
  run_session actions st = Some (fs, st') -> cleanliness st = Dirty -> cleanliness st' = Pristine ->
  resetting st = false -> resetting_done st = false ->
  exists p1 p2 p3 p4 cmd ns, actions = p1 ++ Push P_BeginReset :: p2 ++
    Receive (Item_CommandComplete DISCARD_ALL cmd ns) :: p3 ++ Receive (Item_ReadyForQuery Idle false) :: p4.
Proof.
  intros Hr Hd Hp Hn Hn'.
  apply (run_flip _ (fun s => bool_decide (cleanliness s = Pristine))) in Hr
    as (l3 & a & p4 & ? & s3 & ? & s3' & -> & Hr & Ha & H3 & H3'); cycle 1.
  { rewrite Hd. reflexivity. }
  { rewrite Hp. reflexivity. }
  apply bool_decide_eq_false in H3. apply bool_decide_eq_true in H3'.
  apply becomes_pristine in Ha as [Hs ->]; [|now destruct (cleanliness s3)|done].
  apply (run_flip _ resetting_done) in Hr as (l2 & b & p3 & ? & s2 & ? & s2' & -> & Hr & Hb & H2 & H2'); [|done..].
  apply becomes_reset in Hb as [Hb _]. destruct (Hb H2 H2') as (Hs2 & cmd & ns & ->).
  apply (run_flip _ resetting) in Hr as (p1 & e & p2 & ? & s1 & ? & s1' & -> & Hr & He & H1 & H1'); [|done..].
  apply becomes_reset in He as [_ He]. rewrite (He H1 H1').
  exists p1, p2, p3, p4, cmd, ns. now rewrite <- !app_assoc.
Qed.

(** A session that is resetting is dirty. *)
Definition reset_dirty st : bool :=
  match st with At (SP.Resetting | SP.ResetComplete) C _ => bool_decide (C = Dirty) | _ => true end.

Lemma do_action_reset_dirty a st fs st' :
  do_action a st = Some (fs, st') -> reset_dirty st = true -> reset_dirty st' = true.
Proof.
  intros Ha Hw. destruct (resetting st || resetting_done st) eqn:E.
  - assert (cleanliness st = Dirty) as Hd.
    { destruct st as [[] C c|]; try discriminate E; now apply bool_decide_eq_true in Hw. }
    destruct (cleanliness st') eqn:Ed; [|destruct st' as [[] [] c|]; done].
    destruct (becomes_pristine _ _ _ _ Ha Hd Ed) as [Hs ->].
    destruct st as [[] [] c|]; try discriminate Hs; try discriminate Hd. now injection Ha as <- <-.
  - apply orb_false_iff in E as [E1 E2]. destruct (becomes_reset _ _ _ _ Ha) as [H1 H2].
    destruct (resetting_done st') eqn:E3; [destruct (H1 E2 eq_refl); congruence|].
    destruct (resetting st') eqn:E4; [|destruct st' as [[] ? ?|]; done].
    rewrite (H2 E1 eq_refl) in Ha. cbn [do_action] in Ha.
    destruct st as [[] [] c|]; try discriminate Ha. now injection Ha as <- <-.
Qed.

Lemma run_session_reset_dirty actions st fs st' :
  run_session actions st = Some (fs, st') -> reset_dirty st = true -> reset_dirty st' = true.
Proof. apply (machine_invariant _ (fun st => reset_dirty st = true)). eauto using do_action_reset_dirty. Qed.

Lemma dirties_not_resetting a st fs st' : do_action a st = Some (fs, st') -> dirties a st' = true ->
  reset_dirty st = true -> resetting st' = false /\ resetting_done st' = false.
Proof.
  destruct a as [op|item|]; cbn [do_action].
  - destruct (do_push op st) as [[[st1 fr]| |]|] eqn:E; [|done..]. intros [= <- <-].
    destruct op; try done; destruct st as [P C c|]; try done; destruct P; try done; cbn [do_push] in E;
      now apply sent_inv in E as (c' & f & _ & -> & _).
  - intros _ Hd _. destruct item as [|status changed|]; try done. destruct st' as [[] ? ?|]; done.
  - destruct st as [P [] c|]; [|done..]. intros [= <- <-] _. now destruct P.
Qed.
End Runs.
Abbreviation run_session := (run do_action).

(** ** Properties *)

Section Properties.
Context {S : Type}.
Implicit Types (st : client_state S).

(** The grammar event an action stands for, if any, and the message it sends. *)
Definition action_event (a : action) st : option string :=
  match a with
  | Push op => Some (push_event op st)
  | Receive item => if other_completion st item then None else project_session_item (state_name st) item
  | MarkDirty => None
  end.

Fixpoint trace (actions : list action) st : list string :=
  match actions with
  | [] => []
  | a :: actions =>
      option_list (action_event a st) ++
      match do_action a st with Some (_, st) => trace actions st | None => [] end
  end.

Fixpoint walk (s : string) (events : list string) : option string :=
  match events with
  | [] => Some s
  | e :: events => match Fsm.transition frontend s e with Some t => walk (r_target t) events | None => None end
  end.

Definition sent_message (a : action) : option FrontendMessage :=
  match a with Push op => push_message op | _ => None end.

Lemma walk_app l1 : forall s l2, walk s (l1 ++ l2) = match walk s l1 with Some t => walk t l2 | None => None end.
Proof. induction l1 as [|e l1 IH]; intros s l2; cbn [walk app]; [done|]. destruct (Fsm.transition frontend s e); auto. Qed.

Lemma enters_walk s e t : enters frontend s e t = true -> walk s [e] = Some t.
Proof.
  unfold enters, walk. destruct (Fsm.transition frontend s e) as [r|]; [|done].
  now intros ->%bool_decide_eq_true.
Qed.

Lemma do_action_simulates a st fs st' : well_projected [a] -> do_action a st = Some (fs, st') ->
  walk (state_name st) (option_list (action_event a st)) = Some (state_name st') /\
  map FrontendMessage_to_frame (option_list (sent_message a)) = map Ok fs /\
  live_transport st' = live_transport st.
Proof.
  intros [Hp _]%Forall_cons Ha. destruct a as [op|item|]; cbn [do_action action_event sent_message] in *.
  - destruct (do_push op st) as [[[st1 fr]| |]|] eqn:E; [|done..]. injection Ha as <- <-.
    apply do_push_conforms in E as (Ht & He & Hm). split_and!; [now apply enters_walk| |done].
    destruct (push_message op) as [m|]; [|now subst]. destruct Hm as [(f & -> & Hf) _]. cbn. now rewrite Hf.
  - destruct (do_offer item st) as [[st1 tk]|] eqn:E; [|done]. injection Ha as <- <-.
    apply do_offer_conforms in E as (Ht & He); [|done]. split_and!; [|done..].
    destruct (project_session_item _ item) as [e|].
    + destruct He as [_ He]. destruct (other_completion st item); [now subst|now apply enters_walk].
    + destruct He as [-> _]. now destruct (other_completion st item).
  - destruct st as [P [] c|]; [|done..]. injection Ha as <- <-. done.
Qed.
End Properties.

(** C15: The client session refines the frontend grammar: whatever sequence of typed
    operations, received items and cleanliness markings a program runs, its
    events are a path of the grammar from the phase it starts in to the phase it
    ends in, the frames it hands out are exactly the encodings of the messages its
    operations name, in order, and the transport is the one it started with. The
    items are those the demultiplexer makes; while resetting, a completion other
    than that of [DISCARD ALL] is not an event. *)
Theorem session_refines_grammar {S} actions (st : client_state S) fs st' :
  well_projected actions -> run_session actions st = Some (fs, st') ->
  walk (state_name st) (trace actions st) = Some (state_name st') /\
  map FrontendMessage_to_frame (omap sent_message actions) = map Ok fs /\
  live_transport st' = live_transport st.
Proof.
  revert st fs. induction actions as [|a actions IH]; intros st fs Hp Hr; cbn [run trace] in *.
  { now injection Hr as <- <-. }
  apply Forall_cons in Hp as [Ha Hp].
  destruct (do_action a st) as [[fs1 st1]|] eqn:Ea; [|done].
  destruct (run_session actions st1) as [[fs2 st2]|] eqn:Er; [|done]. injection Hr as <- <-.
  destruct (do_action_simulates a st _ _ (Forall_cons_2 _ _ _ Ha (Forall_nil_2 _)) Ea) as (Hw & Hm & Ht).
  destruct (IH _ _ Hp Er) as (Hw' & Hm' & Ht').
  rewrite walk_app, Hw. split_and!; [done| |congruence].
  cbn [omap list_omap]. rewrite map_app, <- Hm, <- Hm'. now destruct (sent_message a).
Qed.

Definition sample_client : client_state nat := At SP.Ready Pristine (mkConn (Some 7%nat)).

Lemma session_refines_grammar_witness :
  let actions := [Push (P_Query [x61]); Receive (Item_Message B_EmptyQueryResponse);
                  Receive (Item_ReadyForQuery Idle false); Push P_Terminate] in
  exists fs st', walk "Ready" (trace actions sample_client) = Some (state_name st') /\
    map FrontendMessage_to_frame (omap sent_message actions) = map Ok fs /\
    live_transport st' = live_transport sample_client.
Proof.
  intros actions. eexists _, _.
  apply (session_refines_grammar actions sample_client); [repeat constructor|vm_compute; reflexivity].
Defined.

(** C16: Pooling demands a reset: once a session that started ready and pristine has
    run an action that leaves state behind (a query or function call, a prepared
    statement or portal, readiness inside a transaction or with changed
    parameters, or the program's own marking), it is pristine again, and so
    releasable, only if it then ran the reset request, received the completion of
    [DISCARD ALL] and after it an idle readiness with unchanged parameters. *)
Theorem pooling_requires_reset {S} (c : Conn S SP.Ready Pristine) before a after fs st fs1 st1 fs2 st2 :
  run_session before (At SP.Ready Pristine c) = Some (fs, st) ->
  do_action a st = Some (fs1, st1) -> dirties a st1 = true ->
  run_session after st1 = Some (fs2, st2) -> cleanliness st2 = Pristine ->
  exists p1 p2 p3 p4 cmd ns, after = p1 ++ Push P_BeginReset :: p2 ++
    Receive (Item_CommandComplete DISCARD_ALL cmd ns) :: p3 ++ Receive (Item_ReadyForQuery Idle false) :: p4.
Proof.
  intros Hb Ha Hd Hr Hp.
  destruct (dirties_not_resetting _ _ _ _ Ha Hd (run_session_reset_dirty _ _ _ _ Hb eq_refl)).
  eapply reset_sequence; eauto using do_action_dirties.
Qed.

Lemma pooling_requires_reset_witness :
  let after := [Receive (Item_ReadyForQuery Idle false); Push P_BeginReset;
                Receive (Item_CommandComplete (list_byte_of_string "ROLLBACK") 1%Z []);
                Receive (Item_CommandComplete DISCARD_ALL 2%Z []); Receive (Item_ReadyForQuery Idle false)] in
  exists p1 p2 p3 p4 cmd ns, after = p1 ++ Push P_BeginReset :: p2 ++
    Receive (Item_CommandComplete DISCARD_ALL cmd ns) :: p3 ++ Receive (Item_ReadyForQuery Idle false) :: p4.
Proof.
  intros after.
  eapply (pooling_requires_reset (mkConn (Some 7%nat)) [] (Push (P_Query [x61])) after);
    [reflexivity|vm_compute; reflexivity|reflexivity|vm_compute; reflexivity|reflexivity].
Defined.

(** *** Recovery *)

(** The way out of a phase: the client ends what it was sending, or the server
    reports an error. *)
Definition recovery {S} (d : DiagnosticResponse) (st : client_state S) : list action :=
  match st with
  | At SP.Ready _ _ | Ended _ _ => []
  | At (SP.Building | SP.BoundBuilding) _ _ => [Push P_Sync]
  | At (SP.CopyIn | SP.CopyBothServerDone) _ _ => [Push P_CopyDone]
  | At (SP.AwaitingReady | SP.Draining) _ _ => []
  | At _ _ _ => [Receive (Item_Message (B_ErrorResponse d))]
  end.

Definition settling {S} (st : client_state S) : bool :=
  match st with At (SP.AwaitingReady | SP.Draining) _ _ => true | _ => false end.

Definition not_ready_item (item : SessionItem) : bool :=
  match item with Item_ReadyForQuery _ _ | Item_Message (B_ReadyForQuery _) => false | _ => true end.

Lemma recovery_settles {S} d (st : client_state S) : reset_dirty st = true ->
  state_name st <> "Ready" -> state_name st <> "Terminated" ->
  exists fs st', run_session (recovery d st) st = Some (fs, st') /\ settling st' = true /\
    cleanliness st' = cleanliness st.
Proof.
  intros Hw Hr Ht. destruct st as [P C c|C c]; [|done].
  destruct P; try done; destruct C; try done; vm_compute; eauto.
Qed.

Lemma settling_continues {S} item (st : client_state S) : settling st = true -> not_ready_item item = true ->
  exists st', do_action (Receive item) st = Some ([], st') /\ settling st' = true /\ cleanliness st' = cleanliness st.
Proof.
  intros Hs Hi. destruct st as [P C c|C c]; [|done].
  destruct P; try done; (destruct item as [m|s b|]; [destruct m; try discriminate Hi|discriminate Hi|]);
    eexists; split; [vm_compute; reflexivity|done|vm_compute; reflexivity|done..].
Qed.

Lemma settling_run {S} items : forall st : client_state S,
  settling st = true -> forallb not_ready_item items = true ->
  exists st', run_session (map Receive items) st = Some ([], st') /\ settling st' = true /\
    cleanliness st' = cleanliness st.
Proof.
  induction items as [|item items IH]; intros st Hs Hi; [now exists st|].
  apply andb_true_iff in Hi as [H1 Hi].
  destruct (settling_continues item st Hs H1) as (st1 & Ha & Hs1 & Hc1).
  destruct (IH st1 Hs1 Hi) as (st2 & Hr & Hs2 & Hc2).
  exists st2. change (map Receive (item :: items)) with (Receive item :: map Receive items).
  cbn [run]. rewrite Ha, Hr. split_and!; [done..|congruence].
Qed.

Lemma settling_ready {S} status changed (st : client_state S) : settling st = true ->
  exists st', do_action (Receive (Item_ReadyForQuery status changed)) st = Some ([], st') /\
    state_name st' = "Ready" /\
    cleanliness st' = if bool_decide (status = Idle) && negb changed then cleanliness st else Dirty.
Proof.
  intros Hs. destruct st as [P C c|C c]; [|done].
  destruct P; try done; destruct C, status, changed; vm_compute; eauto.
Qed.

(** C17: A session always recovers: from every phase of a running conversation, after
    the client ends what it was sending or the server reports an error, the
    session waits through whatever the server still sends, and the server's next
    readiness makes it ready again; it keeps its cleanliness when the readiness is
    idle with unchanged parameters and becomes dirty otherwise. *)
Theorem session_recovers {S} (d : DiagnosticResponse) (items : list SessionItem) status changed (st : client_state S) :
  reset_dirty st = true -> state_name st <> "Ready" -> state_name st <> "Terminated" ->
  forallb not_ready_item items = true ->
  exists fs mid st',
    run_session (recovery d st ++ map Receive items) st = Some (fs, mid) /\ settling mid = true /\
    run_session (recovery d st ++ map Receive items ++ [Receive (Item_ReadyForQuery status changed)]) st
      = Some (fs, st') /\
    state_name st' = "Ready" /\
    cleanliness st' = if bool_decide (status = Idle) && negb changed then cleanliness st else Dirty.
Proof.
  intros Hw Hr Ht Hi.
  destruct (recovery_settles d st Hw Hr Ht) as (fs & s1 & H1 & Hs1 & Hc1).
  destruct (settling_run items s1 Hs1 Hi) as (mid & H2 & Hs2 & Hc2).
  destruct (settling_ready status changed mid Hs2) as (st' & H3 & Hn & Hc3).
  exists fs, mid, st'. rewrite !run_app, H1, !run_app, H2.
  cbn [run]. rewrite H3, !app_nil_r. split_and!; [done..|]. rewrite Hc3, Hc2, Hc1. done.
Qed.

Lemma session_recovers_witness :
  let d := mkDiagnostic [] in
  let st := At SP.CopyBoth Dirty (mkConn (Some 7%nat)) : client_state nat in
  exists fs mid st',
    run_session (recovery d st ++ map Receive [Item_CommandComplete [x41] 1%Z []]) st = Some (fs, mid) /\
    settling mid = true /\
    run_session (recovery d st ++ map Receive [Item_CommandComplete [x41] 1%Z []]
      ++ [Receive (Item_ReadyForQuery InTransaction true)]) st = Some (fs, st') /\
    state_name st' = "Ready" /\
    cleanliness st' = if bool_decide (InTransaction = Idle) && negb true then cleanliness st else Dirty.
Proof. intros d st. apply session_recovers; [reflexivity|discriminate|discriminate|reflexivity]. Defined.
