(* ===== verification/ServerSession.v ===== *)
(** The server-role query typestates: src/server_session.rs. *)

From Stdlib Require Import ZArith Lia String.
From Stdlib Require Import Init.Byte.
From stdpp Require Import prelude.
From S2P Require Import Prelude OrdMap Wire Frame Frontend Startup Backend Replication Fsm Grammar Resources PreStartup.

Local Open Scope string_scope.
Local Open Scope list_scope.

(** ** Phases *)

(** Where a COPY sub-session resumes. *)
Inductive Resume : Type := CopySimple | CopyExtended.

(** Which halves of a COPY BOTH stream are closed. *)
Inductive Ends : Type := BothOpen | BothClientDone | BothServerDone | BothDone.

Module ServerPhase.
(** The phase markers of src/server_session.rs, and [Ready] of src/auth.rs. *)
Inductive t : Type :=
| Ready
| ServerSimpleQuery | ServerSimpleError
| ServerFunctionCall | ServerFunctionCallDone | ServerFunctionCallError
| ServerBuilding | ServerParse | ServerBind | ServerDescribe | ServerExecute | ServerClose
| ServerSync | ServerExtendedError
| ServerCopyIn (r : Resume) | ServerCopyInDone (r : Resume) | ServerCopyInFailed (r : Resume)
| ServerCopyOut (r : Resume) | ServerCopyOutDone (r : Resume)
| ServerCopyBoth (r : Resume) (e : Ends) | ServerCopyBothFailed (r : Resume).
End ServerPhase.
Module SV := ServerPhase.

(** The trait [CopyResume]. *)
Definition BOTH_OPEN_STATE (r : Resume) : string :=
  match r with CopySimple => "SimpleCopyBoth" | CopyExtended => "ExtendedCopyBoth" end.
Definition BOTH_SERVER_DONE_STATE (r : Resume) : string :=
  match r with CopySimple => "SimpleCopyBothServerDone" | CopyExtended => "ExtendedCopyBothServerDone" end.

(** ** Client choices *)

Section Offers.
Context (S : Type) (C : Cleanliness).

Inductive ServerCopyBothOpenOffer (r : Resume) : Type :=
| OpenOffer_Data (conn : Conn S (SV.ServerCopyBoth r BothOpen) C) (data : bytes)
| OpenOffer_Done (conn : Conn S (SV.ServerCopyBoth r BothClientDone) C)
| OpenOffer_Fail (conn : Conn S (SV.ServerCopyBothFailed r) C) (message : bytes).

Inductive ServerCopyBothServerDoneOffer (r : Resume) : Type :=
| ServerDoneOffer_Data (conn : Conn S (SV.ServerCopyBoth r BothServerDone) C) (data : bytes)
| ServerDoneOffer_Done (conn : Conn S (SV.ServerCopyBoth r BothDone) C)
| ServerDoneOffer_Fail (conn : Conn S (SV.ServerCopyBothFailed r) C) (message : bytes).

Inductive ServerReplicationOpenOffer (r : Resume) : Type :=
| ReplicationOpen_Message (conn : Conn S (SV.ServerCopyBoth r BothOpen) C) (message : FrontendReplication)
| ReplicationOpen_Done (conn : Conn S (SV.ServerCopyBoth r BothClientDone) C)
| ReplicationOpen_Fail (conn : Conn S (SV.ServerCopyBothFailed r) C) (message : bytes).

Inductive ServerReplicationServerDoneOffer (r : Resume) : Type :=
| ReplicationServerDone_Message (conn : Conn S (SV.ServerCopyBoth r BothServerDone) C) (message : FrontendReplication)
| ReplicationServerDone_Done (conn : Conn S (SV.ServerCopyBoth r BothDone) C)
| ReplicationServerDone_Fail (conn : Conn S (SV.ServerCopyBothFailed r) C) (message : bytes).

Inductive ServerCopyInOffer (r : Resume) : Type :=
| CopyInOffer_Data (conn : Conn S (SV.ServerCopyIn r) C) (data : bytes)
| CopyInOffer_Done (conn : Conn S (SV.ServerCopyInDone r) C)
| CopyInOffer_Fail (conn : Conn S (SV.ServerCopyInFailed r) C) (message : bytes).

Inductive ServerExtendedOffer : Type :=
| Extended_Parse (conn : Conn S SV.ServerParse Dirty) (message : Parse)
| Extended_Bind (conn : Conn S SV.ServerBind Dirty) (message : Bind)
| Extended_Describe (conn : Conn S SV.ServerDescribe C) (message : Describe)
| Extended_Execute (conn : Conn S SV.ServerExecute C) (message : Execute)
| Extended_Close (conn : Conn S SV.ServerClose C) (message : Close)
| Extended_Flush (conn : Conn S SV.ServerBuilding C)
| Extended_Sync (conn : Conn S SV.ServerSync C).

Inductive ServerReadyOffer : Type :=
| ReadyOffer_Query (conn : Conn S SV.ServerSimpleQuery Dirty) (query : bytes)
| ReadyOffer_FunctionCall (conn : Conn S SV.ServerFunctionCall Dirty) (message : FunctionCall)
| ReadyOffer_Extended (offer : ServerExtendedOffer)
| ReadyOffer_Terminate (conn : Conn S Phase.Terminated C).

Inductive ServerDiscard : Type :=
| Discard_Continue (conn : Conn S SV.ServerExtendedError C)
| Discard_Sync (conn : Conn S SV.ServerSync C).

Inductive ServerReadyState : Type :=
| ServerReady (conn : Conn S SV.Ready C)
| ServerDirty (conn : Conn S SV.Ready Dirty) (status : TransactionStatus).
End Offers.
Arguments OpenOffer_Data {S C r}. Arguments OpenOffer_Done {S C r}. Arguments OpenOffer_Fail {S C r}.
Arguments ServerDoneOffer_Data {S C r}. Arguments ServerDoneOffer_Done {S C r}. Arguments ServerDoneOffer_Fail {S C r}.
Arguments ReplicationOpen_Message {S C r}. Arguments ReplicationOpen_Done {S C r}. Arguments ReplicationOpen_Fail {S C r}.
Arguments ReplicationServerDone_Message {S C r}. Arguments ReplicationServerDone_Done {S C r}.
Arguments ReplicationServerDone_Fail {S C r}.
Arguments CopyInOffer_Data {S C r}. Arguments CopyInOffer_Done {S C r}. Arguments CopyInOffer_Fail {S C r}.
Arguments Extended_Parse {S C}. Arguments Extended_Bind {S C}. Arguments Extended_Describe {S C}.
Arguments Extended_Execute {S C}. Arguments Extended_Close {S C}. Arguments Extended_Flush {S C}.
Arguments Extended_Sync {S C}.
Arguments ReadyOffer_Query {S C}. Arguments ReadyOffer_FunctionCall {S C}. Arguments ReadyOffer_Extended {S C}.
Arguments ReadyOffer_Terminate {S C}.
Arguments Discard_Continue {S C}. Arguments Discard_Sync {S C}.
Arguments ServerReady {S C}. Arguments ServerDirty {S C}.

(** ** Operations *)

Section Operations.
Context {S : Type} {C : Cleanliness}.

(** The free functions at the end of the file. *)

Definition project_copy_in {r} (conn : Conn S (SV.ServerCopyIn r) C) (state : string) (message : FrontendMessage)
    : result (ServerCopyInOffer S C r) (Conn S (SV.ServerCopyIn r) C * FrontendMessage) :=
  match project_external backend state message, message with
  | Some "Data", F_CopyData data => Ok (CopyInOffer_Data conn data)
  | Some "Done", F_CopyDone => Ok (CopyInOffer_Done (transition conn))
  | Some "Fail", F_CopyFail message => Ok (CopyInOffer_Fail (transition conn) message)
  | _, other => Err (conn, other)
  end.

Definition project_extended {P : SV.t} (conn : Conn S P C) (state : string) (message : FrontendMessage)
    : result (ServerExtendedOffer S C) (Conn S P C * FrontendMessage) :=
  match project_external backend state message, message with
  | Some "Parse", F_Parse message => Ok (Extended_Parse (transition conn) message)
  | Some "Bind", F_Bind message => Ok (Extended_Bind (transition conn) message)
  | Some "Describe", F_Describe message => Ok (Extended_Describe (transition conn) message)
  | Some "Execute", F_Execute message => Ok (Extended_Execute (transition conn) message)
  | Some "Close", F_Close message => Ok (Extended_Close (transition conn) message)
  | Some "Flush", F_Flush => Ok (Extended_Flush (transition conn))
  | Some "Sync", F_Sync => Ok (Extended_Sync (transition conn))
  | _, other => Err (conn, other)
  end.

(** [Ok((self.transition(), message.to_frame()?))], the body of most operations. *)
Definition reply {P Q : SV.t} (conn : Conn S P C) (message : BackendMessage) : io (Conn S Q C * Frame) :=
  let? frame := BackendMessage_to_frame message in Ok (transition conn, frame).

Definition extended_error {P : SV.t} (conn : Conn S P C) (response : DiagnosticResponse)
    : io (Conn S SV.ServerExtendedError C * Frame) :=
  reply conn (B_ErrorResponse response).

Definition ready {P : SV.t} (conn : Conn S P C) (status : TransactionStatus) : io (ServerReadyState S C * Frame) :=
  let? frame := BackendMessage_to_frame (B_ReadyForQuery status) in
  Ok (if bool_decide (status = Idle) then ServerReady (transition conn)
      else ServerDirty (transition conn) status, frame).

(** [Ready] *)

Definition ready_offer_frontend (conn : Conn S SV.Ready C) (message : FrontendMessage)
    : result (ServerReadyOffer S C) (Conn S SV.Ready C * FrontendMessage) :=
  match project_external backend "Ready" message, message with
  | Some "Query", F_Query query => Ok (ReadyOffer_Query (transition conn) query)
  | Some "FunctionCall", F_FunctionCall message => Ok (ReadyOffer_FunctionCall (transition conn) message)
  | Some "Terminate", F_Terminate => Ok (ReadyOffer_Terminate (transition conn))
  | Some _, other => let? offer := project_extended conn "Ready" other in Ok (ReadyOffer_Extended offer)
  | None, other => Err (conn, other)
  end.

Definition accept_stateless_query (conn : Conn S SV.Ready C) (query : bytes) : Conn S SV.ServerSimpleQuery C * bytes :=
  (transition conn, query).
Definition accept_stateless_function_call (conn : Conn S SV.Ready C) (message : FunctionCall)
    : Conn S SV.ServerFunctionCall C * FunctionCall :=
  (transition conn, message).

(** Function calls *)

Definition function_call_respond (conn : Conn S SV.ServerFunctionCall C) (value : bytes)
    : io (Conn S SV.ServerFunctionCallDone C * Frame) :=
  reply conn (B_FunctionCallResponse value).
Definition function_call_error (conn : Conn S SV.ServerFunctionCall C) (response : DiagnosticResponse)
    : io (Conn S SV.ServerFunctionCallError C * Frame) :=
  reply conn (B_ErrorResponse response).
Definition function_call_done_ready (conn : Conn S SV.ServerFunctionCallDone C) (status : TransactionStatus)
    : io (ServerReadyState S C * Frame) := ready conn status.
Definition function_call_error_ready (conn : Conn S SV.ServerFunctionCallError C) (status : TransactionStatus)
    : io (ServerReadyState S C * Frame) := ready conn status.

(** Simple queries *)

Definition state_changing : io_error := mkError InvalidInput "state-changing response requires its typed transition".

Definition simple_send (conn : Conn S SV.ServerSimpleQuery C) (message : BackendMessage)
    : io (Conn S SV.ServerSimpleQuery C * Frame) :=
  match message with
  | B_ErrorResponse _ | B_ReadyForQuery _ | B_CopyInResponse _ | B_CopyOutResponse _ | B_CopyBothResponse _ =>
      Err state_changing
  | _ => let? frame := BackendMessage_to_frame message in Ok (conn, frame)
  end.
Definition simple_error (conn : Conn S SV.ServerSimpleQuery C) (response : DiagnosticResponse)
    : io (Conn S SV.ServerSimpleError C * Frame) :=
  reply conn (B_ErrorResponse response).
Definition simple_copy_in (conn : Conn S SV.ServerSimpleQuery C) (response : CopyResponse)
    : io (Conn S (SV.ServerCopyIn CopySimple) C * Frame) :=
  reply conn (B_CopyInResponse response).
Definition simple_copy_out (conn : Conn S SV.ServerSimpleQuery C) (response : CopyResponse)
    : io (Conn S (SV.ServerCopyOut CopySimple) C * Frame) :=
  reply conn (B_CopyOutResponse response).
Definition simple_copy_both (conn : Conn S SV.ServerSimpleQuery C) (response : CopyResponse)
    : io (Conn S (SV.ServerCopyBoth CopySimple BothOpen) C * Frame) :=
  reply conn (B_CopyBothResponse response).
Definition simple_ready (conn : Conn S SV.ServerSimpleQuery C) (status : TransactionStatus)
    : io (ServerReadyState S C * Frame) := ready conn status.
Definition simple_error_ready (conn : Conn S SV.ServerSimpleError C) (status : TransactionStatus)
    : io (ServerReadyState S C * Frame) := ready conn status.

(** Extended queries *)

Definition building_offer_frontend (conn : Conn S SV.ServerBuilding C) (message : FrontendMessage)
    : result (ServerExtendedOffer S C) (Conn S SV.ServerBuilding C * FrontendMessage) :=
  project_extended conn "Building" message.

Definition parse_complete (conn : Conn S SV.ServerParse C) : io (Conn S SV.ServerBuilding C * Frame) :=
  reply conn B_ParseComplete.
Definition parse_error (conn : Conn S SV.ServerParse C) (response : DiagnosticResponse)
    : io (Conn S SV.ServerExtendedError C * Frame) := extended_error conn response.
Definition bind_complete (conn : Conn S SV.ServerBind C) : io (Conn S SV.ServerBuilding C * Frame) :=
  reply conn B_BindComplete.
Definition bind_error (conn : Conn S SV.ServerBind C) (response : DiagnosticResponse)
    : io (Conn S SV.ServerExtendedError C * Frame) := extended_error conn response.
Definition close_complete (conn : Conn S SV.ServerClose C) : io (Conn S SV.ServerBuilding C * Frame) :=
  reply conn B_CloseComplete.
Definition close_error (conn : Conn S SV.ServerClose C) (response : DiagnosticResponse)
    : io (Conn S SV.ServerExtendedError C * Frame) := extended_error conn response.

Definition describe_parameter_description (conn : Conn S SV.ServerDescribe C) (oids : list Z)
    : io (Conn S SV.ServerDescribe C * Frame) :=
  let? frame := BackendMessage_to_frame (B_ParameterDescription oids) in Ok (conn, frame).
Definition describe_row_description (conn : Conn S SV.ServerDescribe C) (description : RowDescription)
    : io (Conn S SV.ServerBuilding C * Frame) :=
  reply conn (B_RowDescription description).
Definition describe_no_data (conn : Conn S SV.ServerDescribe C) : io (Conn S SV.ServerBuilding C * Frame) :=
  reply conn B_NoData.
Definition describe_error (conn : Conn S SV.ServerDescribe C) (response : DiagnosticResponse)
    : io (Conn S SV.ServerExtendedError C * Frame) := extended_error conn response.

Definition execute_send (conn : Conn S SV.ServerExecute C) (message : BackendMessage)
    : io (Conn S SV.ServerExecute C * Frame) :=
  match message with
  | B_CommandComplete _ | B_PortalSuspended | B_ErrorResponse _ | B_ReadyForQuery _ | B_CopyInResponse _
  | B_CopyOutResponse _ | B_CopyBothResponse _ => Err state_changing
  | _ => let? frame := BackendMessage_to_frame message in Ok (conn, frame)
  end.
Definition execute_command_complete (conn : Conn S SV.ServerExecute C) (tag : bytes)
    : io (Conn S SV.ServerBuilding C * Frame) :=
  reply conn (B_CommandComplete tag).
Definition execute_portal_suspended (conn : Conn S SV.ServerExecute C) : io (Conn S SV.ServerBuilding C * Frame) :=
  reply conn B_PortalSuspended.
Definition execute_error (conn : Conn S SV.ServerExecute C) (response : DiagnosticResponse)
    : io (Conn S SV.ServerExtendedError C * Frame) := extended_error conn response.
Definition execute_copy_in (conn : Conn S SV.ServerExecute C) (response : CopyResponse)
    : io (Conn S (SV.ServerCopyIn CopyExtended) C * Frame) :=
  reply conn (B_CopyInResponse response).
Definition execute_copy_out (conn : Conn S SV.ServerExecute C) (response : CopyResponse)
    : io (Conn S (SV.ServerCopyOut CopyExtended) C * Frame) :=
  reply conn (B_CopyOutResponse response).
Definition execute_copy_both (conn : Conn S SV.ServerExecute C) (response : CopyResponse)
    : io (Conn S (SV.ServerCopyBoth CopyExtended BothOpen) C * Frame) :=
  reply conn (B_CopyBothResponse response).

(** COPY IN *)

Definition copy_in_simple_offer_frontend (conn : Conn S (SV.ServerCopyIn CopySimple) C) (message : FrontendMessage)
    : result (ServerCopyInOffer S C CopySimple) (Conn S (SV.ServerCopyIn CopySimple) C * FrontendMessage) :=
  project_copy_in conn "SimpleCopyIn" message.
Definition copy_in_extended_offer_frontend (conn : Conn S (SV.ServerCopyIn CopyExtended) C) (message : FrontendMessage)
    : result (ServerCopyInOffer S C CopyExtended) (Conn S (SV.ServerCopyIn CopyExtended) C * FrontendMessage) :=
  project_copy_in conn "ExtendedCopyIn" message.
Definition copy_in_done_simple_command_complete (conn : Conn S (SV.ServerCopyInDone CopySimple) C) (tag : bytes)
    : io (Conn S SV.ServerSimpleQuery C * Frame) := reply conn (B_CommandComplete tag).
Definition copy_in_done_extended_command_complete (conn : Conn S (SV.ServerCopyInDone CopyExtended) C) (tag : bytes)
    : io (Conn S SV.ServerBuilding C * Frame) := reply conn (B_CommandComplete tag).
Definition copy_in_failed_simple_error (conn : Conn S (SV.ServerCopyInFailed CopySimple) C)
    (response : DiagnosticResponse) : io (Conn S SV.ServerSimpleError C * Frame) :=
  reply conn (B_ErrorResponse response).
Definition copy_in_failed_extended_error (conn : Conn S (SV.ServerCopyInFailed CopyExtended) C)
    (response : DiagnosticResponse) : io (Conn S SV.ServerExtendedError C * Frame) :=
  extended_error conn response.

(** COPY OUT *)

Definition copy_out_data {r} (conn : Conn S (SV.ServerCopyOut r) C) (data : bytes)
    : io (Conn S (SV.ServerCopyOut r) C * Frame) :=
  let? frame := BackendMessage_to_frame (B_CopyData data) in Ok (conn, frame).
Definition copy_out_replication {r} (conn : Conn S (SV.ServerCopyOut r) C) (message : BackendReplication)
    : io (Conn S (SV.ServerCopyOut r) C * Frame) :=
  copy_out_data conn (BackendReplication_encode message).
Definition copy_out_done {r} (conn : Conn S (SV.ServerCopyOut r) C)
    : io (Conn S (SV.ServerCopyOutDone r) C * Frame) := reply conn B_CopyDone.
Definition copy_out_done_simple_command_complete (conn : Conn S (SV.ServerCopyOutDone CopySimple) C) (tag : bytes)
    : io (Conn S SV.ServerSimpleQuery C * Frame) := reply conn (B_CommandComplete tag).
Definition copy_out_done_extended_command_complete (conn : Conn S (SV.ServerCopyOutDone CopyExtended) C) (tag : bytes)
    : io (Conn S SV.ServerBuilding C * Frame) := reply conn (B_CommandComplete tag).

(** COPY BOTH *)

Definition both_open_offer_frontend {r} (conn : Conn S (SV.ServerCopyBoth r BothOpen) C) (message : FrontendMessage)
    : result (ServerCopyBothOpenOffer S C r) (Conn S (SV.ServerCopyBoth r BothOpen) C * FrontendMessage) :=
  match project_external backend (BOTH_OPEN_STATE r) message, message with
  | Some "ReceiveData", F_CopyData data => Ok (OpenOffer_Data conn data)
  | Some "ReceiveDone", F_CopyDone => Ok (OpenOffer_Done (transition conn))
  | Some "Fail", F_CopyFail message => Ok (OpenOffer_Fail (transition conn) message)
  | _, other => Err (conn, other)
  end.
Definition both_open_data {r} (conn : Conn S (SV.ServerCopyBoth r BothOpen) C) (data : bytes)
    : io (Conn S (SV.ServerCopyBoth r BothOpen) C * Frame) :=
  let? frame := BackendMessage_to_frame (B_CopyData data) in Ok (conn, frame).
Definition both_open_replication {r} (conn : Conn S (SV.ServerCopyBoth r BothOpen) C) (message : BackendReplication)
    : io (Conn S (SV.ServerCopyBoth r BothOpen) C * Frame) :=
  both_open_data conn (BackendReplication_encode message).
Definition both_open_done {r} (conn : Conn S (SV.ServerCopyBoth r BothOpen) C)
    : io (Conn S (SV.ServerCopyBoth r BothServerDone) C * Frame) := reply conn B_CopyDone.

Definition both_client_done_data {r} (conn : Conn S (SV.ServerCopyBoth r BothClientDone) C) (data : bytes)
    : io (Conn S (SV.ServerCopyBoth r BothClientDone) C * Frame) :=
  let? frame := BackendMessage_to_frame (B_CopyData data) in Ok (conn, frame).
Definition both_client_done_replication {r} (conn : Conn S (SV.ServerCopyBoth r BothClientDone) C)
    (message : BackendReplication) : io (Conn S (SV.ServerCopyBoth r BothClientDone) C * Frame) :=
  both_client_done_data conn (BackendReplication_encode message).
Definition both_client_done_done {r} (conn : Conn S (SV.ServerCopyBoth r BothClientDone) C)
    : io (Conn S (SV.ServerCopyBoth r BothDone) C * Frame) := reply conn B_CopyDone.

Definition both_server_done_offer_frontend {r} (conn : Conn S (SV.ServerCopyBoth r BothServerDone) C)
    (message : FrontendMessage)
    : result (ServerCopyBothServerDoneOffer S C r) (Conn S (SV.ServerCopyBoth r BothServerDone) C * FrontendMessage) :=
  match project_external backend (BOTH_SERVER_DONE_STATE r) message, message with
  | Some "ReceiveData", F_CopyData data => Ok (ServerDoneOffer_Data conn data)
  | Some "ReceiveDone", F_CopyDone => Ok (ServerDoneOffer_Done (transition conn))
  | Some "Fail", F_CopyFail message => Ok (ServerDoneOffer_Fail (transition conn) message)
  | _, other => Err (conn, other)
  end.

Definition open_decode_replication {r} (o : ServerCopyBothOpenOffer S C r)
    : result (ServerReplicationOpenOffer S C r) (Conn S (SV.ServerCopyBoth r BothOpen) C * io_error) :=
  match o with
  | OpenOffer_Data conn data =>
      match FrontendReplication_decode data with
      | Ok message => Ok (ReplicationOpen_Message conn message)
      | Err error => Err (conn, error)
      | Panic => Panic
      end
  | OpenOffer_Done conn => Ok (ReplicationOpen_Done conn)
  | OpenOffer_Fail conn message => Ok (ReplicationOpen_Fail conn message)
  end.
Definition server_done_decode_replication {r} (o : ServerCopyBothServerDoneOffer S C r)
    : result (ServerReplicationServerDoneOffer S C r) (Conn S (SV.ServerCopyBoth r BothServerDone) C * io_error) :=
  match o with
  | ServerDoneOffer_Data conn data =>
      match FrontendReplication_decode data with
      | Ok message => Ok (ReplicationServerDone_Message conn message)
      | Err error => Err (conn, error)
      | Panic => Panic
      end
  | ServerDoneOffer_Done conn => Ok (ReplicationServerDone_Done conn)
  | ServerDoneOffer_Fail conn message => Ok (ReplicationServerDone_Fail conn message)
  end.

Definition both_done_simple_command_complete (conn : Conn S (SV.ServerCopyBoth CopySimple BothDone) C) (tag : bytes)
    : io (Conn S SV.ServerSimpleQuery C * Frame) := reply conn (B_CommandComplete tag).
Definition both_done_extended_command_complete (conn : Conn S (SV.ServerCopyBoth CopyExtended BothDone) C) (tag : bytes)
    : io (Conn S SV.ServerBuilding C * Frame) := reply conn (B_CommandComplete tag).
Definition both_failed_simple_error (conn : Conn S (SV.ServerCopyBothFailed CopySimple) C)
    (response : DiagnosticResponse) : io (Conn S SV.ServerSimpleError C * Frame) :=
  reply conn (B_ErrorResponse response).
Definition both_failed_extended_error (conn : Conn S (SV.ServerCopyBothFailed CopyExtended) C)
    (response : DiagnosticResponse) : io (Conn S SV.ServerExtendedError C * Frame) :=
  extended_error conn response.

(** Error recovery and synchronisation; [unreachable!] is [Panic]. *)

Definition discard (conn : Conn S SV.ServerExtendedError C) (message : FrontendMessage) : result (ServerDiscard S C) unit :=
  match project_external backend "ExtendedError" message with
  | Some "Sync" => Ok (Discard_Sync (transition conn))
  | Some "Discard" | None => Ok (Discard_Continue conn)
  | Some _ => Panic
  end.
Definition sync_ready (conn : Conn S SV.ServerSync C) (status : TransactionStatus)
    : io (ServerReadyState S C * Frame) := ready conn status.
End Operations.
