(* ===== verification/ServerSessionSpec.v ===== *)
(** The server session as one machine: the typed operations of [ServerSession]
    erased to a state that carries its phase, and its relation to the backend
    grammar. *)

From Stdlib Require Import ZArith Lia String.
From Stdlib Require Import Init.Byte.
From stdpp Require Import prelude.
From S2P Require Import Prelude OrdMap Wire Frame Frontend Startup Backend Replication Fsm Grammar Resources PreStartup Machine ServerSession.

Local Open Scope string_scope.
Local Open Scope list_scope.

(** ** Erased sessions *)

Inductive server_state (S : Type) : Type :=
| ServerAt (P : SV.t) (C : Cleanliness) (conn : Conn S P C)
| ServerEnded (C : Cleanliness) (conn : Conn S Phase.Terminated C).
Arguments ServerAt {S} P C conn.
Arguments ServerEnded {S} C conn.

Definition server_transport {S} (st : server_state S) : option S :=
  match st with ServerAt _ _ c => transport c | ServerEnded _ c => transport c end.
Definition server_cleanliness {S} (st : server_state S) : Cleanliness :=
  match st with ServerAt _ C _ => C | ServerEnded C _ => C end.

Section Erasure.
Context {S : Type}.

Definition answered {P C} (r : io (Conn S P C * Frame)) : option (io (server_state S * Frame)) :=
  Some (let? (c, f) := r in Ok (ServerAt P C c, f)).

Definition at_server_ready {C} (r : ServerReadyState S C) : server_state S :=
  match r with ServerReady c => ServerAt SV.Ready C c | ServerDirty c _ => ServerAt SV.Ready Dirty c end.

Definition settled {C} (r : io (ServerReadyState S C * Frame)) : option (io (server_state S * Frame)) :=
  Some (let? (r, f) := r in Ok (at_server_ready r, f)).

(** The operation of the phase that sends [m]; [None] when the phase has none. *)
Definition do_send (m : BackendMessage) (st : server_state S) : option (io (server_state S * Frame)) :=
  match st with
  | ServerEnded _ _ => None
  | ServerAt P C conn =>
      match P return Conn S P C -> _ with
      | SV.ServerSimpleQuery => fun c =>
          match m with
          | B_ErrorResponse d => answered (simple_error c d)
          | B_CopyInResponse r => answered (simple_copy_in c r)
          | B_CopyOutResponse r => answered (simple_copy_out c r)
          | B_CopyBothResponse r => answered (simple_copy_both c r)
          | B_ReadyForQuery s => settled (simple_ready c s)
          | m => answered (simple_send c m)
          end
      | SV.ServerSimpleError => fun c =>
          match m with B_ReadyForQuery s => settled (simple_error_ready c s) | _ => None end
      | SV.ServerFunctionCall => fun c =>
          match m with
          | B_FunctionCallResponse v => answered (function_call_respond c v)
          | B_ErrorResponse d => answered (function_call_error c d)
          | _ => None
          end
      | SV.ServerFunctionCallDone => fun c =>
          match m with B_ReadyForQuery s => settled (function_call_done_ready c s) | _ => None end
      | SV.ServerFunctionCallError => fun c =>
          match m with B_ReadyForQuery s => settled (function_call_error_ready c s) | _ => None end
      | SV.ServerParse => fun c =>
          match m with
          | B_ParseComplete => answered (parse_complete c)
          | B_ErrorResponse d => answered (parse_error c d)
          | _ => None
          end
      | SV.ServerBind => fun c =>
          match m with
          | B_BindComplete => answered (bind_complete c)
          | B_ErrorResponse d => answered (bind_error c d)
          | _ => None
          end
      | SV.ServerClose => fun c =>
          match m with
          | B_CloseComplete => answered (close_complete c)
          | B_ErrorResponse d => answered (close_error c d)
          | _ => None
          end
      | SV.ServerDescribe => fun c =>
          match m with
          | B_ParameterDescription oids => answered (describe_parameter_description c oids)
          | B_RowDescription r => answered (describe_row_description c r)
          | B_NoData => answered (describe_no_data c)
          | B_ErrorResponse d => answered (describe_error c d)
          | _ => None
          end
      | SV.ServerExecute => fun c =>
          match m with
          | B_CommandComplete tag => answered (execute_command_complete c tag)
          | B_PortalSuspended => answered (execute_portal_suspended c)
          | B_ErrorResponse d => answered (execute_error c d)
          | B_CopyInResponse r => answered (execute_copy_in c r)
          | B_CopyOutResponse r => answered (execute_copy_out c r)
          | B_CopyBothResponse r => answered (execute_copy_both c r)
          | m => answered (execute_send c m)
          end
      | SV.ServerCopyInDone CopySimple => fun c =>
          match m with B_CommandComplete tag => answered (copy_in_done_simple_command_complete c tag) | _ => None end
      | SV.ServerCopyInDone CopyExtended => fun c =>
          match m with B_CommandComplete tag => answered (copy_in_done_extended_command_complete c tag) | _ => None end
      | SV.ServerCopyInFailed CopySimple => fun c =>
          match m with B_ErrorResponse d => answered (copy_in_failed_simple_error c d) | _ => None end
      | SV.ServerCopyInFailed CopyExtended => fun c =>
          match m with B_ErrorResponse d => answered (copy_in_failed_extended_error c d) | _ => None end
      | SV.ServerCopyOut _ => fun c =>
          match m with
          | B_CopyData d => answered (copy_out_data c d)
          | B_CopyDone => answered (copy_out_done c)
          | _ => None
          end
      | SV.ServerCopyOutDone CopySimple => fun c =>
          match m with B_CommandComplete tag => answered (copy_out_done_simple_command_complete c tag) | _ => None end
      | SV.ServerCopyOutDone CopyExtended => fun c =>
          match m with B_CommandComplete tag => answered (copy_out_done_extended_command_complete c tag) | _ => None end
      | SV.ServerCopyBoth _ BothOpen => fun c =>
          match m with
          | B_CopyData d => answered (both_open_data c d)
          | B_CopyDone => answered (both_open_done c)
          | _ => None
          end
      | SV.ServerCopyBoth _ BothClientDone => fun c =>
          match m with
          | B_CopyData d => answered (both_client_done_data c d)
          | B_CopyDone => answered (both_client_done_done c)
          | _ => None
          end
      | SV.ServerCopyBoth CopySimple BothDone => fun c =>
          match m with B_CommandComplete tag => answered (both_done_simple_command_complete c tag) | _ => None end
      | SV.ServerCopyBoth CopyExtended BothDone => fun c =>
          match m with B_CommandComplete tag => answered (both_done_extended_command_complete c tag) | _ => None end
      | SV.ServerCopyBothFailed CopySimple => fun c =>
          match m with B_ErrorResponse d => answered (both_failed_simple_error c d) | _ => None end
      | SV.ServerCopyBothFailed CopyExtended => fun c =>
          match m with B_ErrorResponse d => answered (both_failed_extended_error c d) | _ => None end
      | SV.ServerSync => fun c =>
          match m with B_ReadyForQuery s => settled (sync_ready c s) | _ => None end
      | _ => fun _ => None
      end conn
  end.

(** What became of a received message: taken, with the message the offer delivers
    to the caller, or handed back with the connection. *)
Inductive receipt : Type :=
| Took (m : FrontendMessage)
| Refused (m : FrontendMessage).

Definition at_extended {C} (o : ServerExtendedOffer S C) : server_state S * FrontendMessage :=
  match o with
  | Extended_Parse c m => (ServerAt _ _ c, F_Parse m) | Extended_Bind c m => (ServerAt _ _ c, F_Bind m)
  | Extended_Describe c m => (ServerAt _ _ c, F_Describe m) | Extended_Execute c m => (ServerAt _ _ c, F_Execute m)
  | Extended_Close c m => (ServerAt _ _ c, F_Close m) | Extended_Flush c => (ServerAt _ _ c, F_Flush)
  | Extended_Sync c => (ServerAt _ _ c, F_Sync)
  end.

Definition at_ready {C} (o : ServerReadyOffer S C) : server_state S * FrontendMessage :=
  match o with
  | ReadyOffer_Query c q => (ServerAt _ _ c, F_Query q)
  | ReadyOffer_FunctionCall c m => (ServerAt _ _ c, F_FunctionCall m)
  | ReadyOffer_Extended o => at_extended o
  | ReadyOffer_Terminate c => (ServerEnded _ c, F_Terminate)
  end.

Definition at_copy_in {C r} (o : ServerCopyInOffer S C r) : server_state S * FrontendMessage :=
  match o with
  | CopyInOffer_Data c d => (ServerAt _ _ c, F_CopyData d) | CopyInOffer_Done c => (ServerAt _ _ c, F_CopyDone)
  | CopyInOffer_Fail c m => (ServerAt _ _ c, F_CopyFail m)
  end.

Definition at_both_open {C r} (o : ServerCopyBothOpenOffer S C r) : server_state S * FrontendMessage :=
  match o with
  | OpenOffer_Data c d => (ServerAt _ _ c, F_CopyData d) | OpenOffer_Done c => (ServerAt _ _ c, F_CopyDone)
  | OpenOffer_Fail c m => (ServerAt _ _ c, F_CopyFail m)
  end.

Definition at_both_server_done {C r} (o : ServerCopyBothServerDoneOffer S C r) : server_state S * FrontendMessage :=
  match o with
  | ServerDoneOffer_Data c d => (ServerAt _ _ c, F_CopyData d)
  | ServerDoneOffer_Done c => (ServerAt _ _ c, F_CopyDone)
  | ServerDoneOffer_Fail c m => (ServerAt _ _ c, F_CopyFail m)
  end.

Definition offered {A} {P C} (at_ : A -> server_state S * FrontendMessage)
    (r : result A (Conn S P C * FrontendMessage)) : option (result (server_state S * receipt) unit) :=
  Some match r with
       | Ok o => Ok ((at_ o).1, Took (at_ o).2)
       | Err (c, m) => Ok (ServerAt P C c, Refused m)
       | Panic => Panic
       end.

(** [stateless]: the caller vouches that a query or call leaves no state. *)
Definition do_receive (stateless : bool) (m : FrontendMessage) (st : server_state S)
    : option (result (server_state S * receipt) unit) :=
  match st with
  | ServerEnded _ _ => None
  | ServerAt P C conn =>
      match P return Conn S P C -> _ with
      | SV.Ready => fun c =>
          match stateless, m with
          | true, F_Query q =>
              let (c, q) := accept_stateless_query c q in Some (Ok (ServerAt _ C c, Took (F_Query q)))
          | true, F_FunctionCall call =>
              let (c, call) := accept_stateless_function_call c call in
              Some (Ok (ServerAt _ C c, Took (F_FunctionCall call)))
          | true, _ => None
          | false, m => offered at_ready (ready_offer_frontend c m)
          end
      | SV.ServerBuilding => fun c => if stateless then None else offered at_extended (building_offer_frontend c m)
      | SV.ServerCopyIn CopySimple => fun c =>
          if stateless then None else offered at_copy_in (copy_in_simple_offer_frontend c m)
      | SV.ServerCopyIn CopyExtended => fun c =>
          if stateless then None else offered at_copy_in (copy_in_extended_offer_frontend c m)
      | SV.ServerCopyBoth _ BothOpen => fun c =>
          if stateless then None else offered at_both_open (both_open_offer_frontend c m)
      | SV.ServerCopyBoth _ BothServerDone => fun c =>
          if stateless then None else offered at_both_server_done (both_server_done_offer_frontend c m)
      | SV.ServerExtendedError => fun c =>
          if stateless then None else
          Some (let? o := discard c m in
                Ok (match o with Discard_Continue c => ServerAt _ _ c | Discard_Sync c => ServerAt _ _ c end, Took m))
      | _ => fun _ => None
      end conn
  end.
End Erasure.

(** ** The backend grammar *)

(** The grammar states a phase stands for. A simple query resumed after a COPY,
    and its error, are one more state in the grammar. *)
Definition grammar_states {S} (st : server_state S) : list string :=
  match st with
  | ServerEnded _ _ => ["Terminated"]
  | ServerAt P _ _ =>
      match P with
      | SV.Ready => ["Ready"]
      | SV.ServerSimpleQuery => ["Simple"; "SimpleCopyReady"]
      | SV.ServerSimpleError => ["SimpleError"; "SimpleCopyReady"]
      | SV.ServerFunctionCall => ["FunctionResponse"]
      | SV.ServerFunctionCallDone | SV.ServerFunctionCallError => ["FunctionReady"]
      | SV.ServerBuilding => ["Building"] | SV.ServerParse => ["ParseResponse"]
      | SV.ServerBind => ["BindResponse"] | SV.ServerDescribe => ["DescribeResponse"]
      | SV.ServerExecute => ["ExecuteResponse"] | SV.ServerClose => ["CloseResponse"]
      | SV.ServerSync => ["SyncResponse"] | SV.ServerExtendedError => ["ExtendedError"]
      | SV.ServerCopyIn CopySimple => ["SimpleCopyIn"] | SV.ServerCopyIn CopyExtended => ["ExtendedCopyIn"]
      | SV.ServerCopyInDone CopySimple => ["SimpleCopyInDone"]
      | SV.ServerCopyInDone CopyExtended => ["ExtendedCopyInDone"]
      | SV.ServerCopyInFailed CopySimple => ["SimpleCopyInFailed"]
      | SV.ServerCopyInFailed CopyExtended => ["ExtendedCopyInFailed"]
      | SV.ServerCopyOut CopySimple => ["SimpleCopyOut"] | SV.ServerCopyOut CopyExtended => ["ExtendedCopyOut"]
      | SV.ServerCopyOutDone CopySimple => ["SimpleCopyOutDone"]
      | SV.ServerCopyOutDone CopyExtended => ["ExtendedCopyOutDone"]
      | SV.ServerCopyBoth CopySimple BothOpen => ["SimpleCopyBoth"]
      | SV.ServerCopyBoth CopySimple BothClientDone => ["SimpleCopyBothClientDone"]
      | SV.ServerCopyBoth CopySimple BothServerDone => ["SimpleCopyBothServerDone"]
      | SV.ServerCopyBoth CopySimple BothDone => ["SimpleCopyBothDone"]
      | SV.ServerCopyBoth CopyExtended BothOpen => ["ExtendedCopyBoth"]
      | SV.ServerCopyBoth CopyExtended BothClientDone => ["ExtendedCopyBothClientDone"]
      | SV.ServerCopyBoth CopyExtended BothServerDone => ["ExtendedCopyBothServerDone"]
      | SV.ServerCopyBoth CopyExtended BothDone => ["ExtendedCopyBothDone"]
      | SV.ServerCopyBothFailed CopySimple => ["SimpleCopyBothFailed"]
      | SV.ServerCopyBothFailed CopyExtended => ["ExtendedCopyBothFailed"]
      end
  end.

(** One message of the backend grammar, sent or received. *)
Definition server_step (s : string) (m : BackendMessage + FrontendMessage) : option string :=
  match match m with inl m => project_internal backend s m | inr m => project_external backend s m end with
  | Some e => option_map r_target (Fsm.transition backend s e)
  | None => None
  end.

(** What the untyped [send] operations leave to their caller: results only, and
    nothing but readiness once a COPY of a simple query is over. *)
Definition disciplined {S} (m : BackendMessage) (st : server_state S) (s : string) : bool :=
  match st with
  | ServerAt SV.ServerSimpleQuery _ _ =>
      match m with
      | B_ReadyForQuery _ => true
      | B_RowDescription _ | B_DataRow _ | B_CommandComplete _ | B_EmptyQueryResponse | B_ErrorResponse _
      | B_CopyInResponse _ | B_CopyOutResponse _ | B_CopyBothResponse _ => bool_decide (s = "Simple")
      | _ => false
      end
  | ServerAt SV.ServerExecute _ _ =>
      match m with
      | B_RowDescription _ | B_DataRow _ | B_EmptyQueryResponse | B_CommandComplete _ | B_PortalSuspended
      | B_ErrorResponse _ | B_CopyInResponse _ | B_CopyOutResponse _ | B_CopyBothResponse _ => true
      | _ => false
      end
  | _ => true
  end.

Lemma answered_inv {S} {P : SV.t} {C} (r : io (Conn S P C * Frame)) st' f : answered r = Some (Ok (st', f)) ->
  exists c, r = Ok (c, f) /\ st' = ServerAt P C c.
Proof. destruct r as [[c g]| |]; [|done..]. intros [= <- <-]. eauto. Qed.

Lemma settled_inv {S} {P : SV.t} {C} (c : Conn S P C) s st' f : settled (ready c s) = Some (Ok (st', f)) ->
  BackendMessage_to_frame (B_ReadyForQuery s) = Ok f /\ server_transport st' = transport c /\
  exists c', st' = ServerAt SV.Ready (if bool_decide (s = Idle) then C else Dirty) c'.
Proof.
  unfold ready. destruct (BackendMessage_to_frame _) as [g| |]; [|done..].
  destruct (bool_decide (s = Idle)); intros [= <- <-]; eauto.
Qed.

Definition send_conforms {S} (m : BackendMessage) (st st' : server_state S) (f : Frame) : Prop :=
  server_transport st' = server_transport st /\ BackendMessage_to_frame m = Ok f /\
  forall s, s ∈ grammar_states st -> disciplined m st s = true ->
    exists t, server_step s (inl m) = Some t /\ t ∈ grammar_states st'.

(** The grammar's part of it, as a computation. *)
Definition send_ok {S} (m : BackendMessage) (st st' : server_state S) : bool :=
  forallb (fun s => implb (disciplined m st s)
    match server_step s (inl m) with Some t => bool_decide (t ∈ grammar_states st') | None => false end)
    (grammar_states st).

Lemma send_conforms_intro {S} m (st st' : server_state S) f :
  server_transport st' = server_transport st /\ BackendMessage_to_frame m = Ok f -> send_ok m st st' = true ->
  send_conforms m st st' f.
Proof.
  intros [Ht Hf] Hs. split_and!; [done..|]. intros s Hin Hd. unfold send_ok in Hs.
  rewrite forallb_forall in Hs. specialize (Hs s). rewrite Hd in Hs. cbn [implb] in Hs.
  apply list_elem_of_In in Hin. specialize (Hs Hin).
  destruct (server_step s (inl m)) as [t|]; [|discriminate Hs].
  exists t. split; [done|]. now apply (bool_decide_eq_true_1 _) in Hs.
Qed.

(** Every send operation replies or checks its message and replies. *)
Lemma reply_inv {S} {P Q : SV.t} {C} (c : Conn S P C) m (c' : Conn S Q C) f :
  reply c m = Ok (c', f) -> transport c' = transport c /\ BackendMessage_to_frame m = Ok f.
Proof. unfold reply. destruct (BackendMessage_to_frame m); [|done..]. now intros [= <- <-]. Qed.

Lemma kept_inv {S} {P : SV.t} {C} (c : Conn S P C) m c' f :
  (let? frame := BackendMessage_to_frame m in Ok (c, frame)) = Ok (c', f) ->
  transport c' = transport c /\ BackendMessage_to_frame m = Ok f.
Proof. destruct (BackendMessage_to_frame m); [|done..]. now intros [= <- <-]. Qed.

Ltac unfold_sends H :=
  unfold simple_error, simple_copy_in, simple_copy_out, simple_copy_both, function_call_respond, function_call_error,
    parse_complete, parse_error, bind_complete, bind_error, close_complete, close_error, describe_row_description,
    describe_no_data, describe_error, execute_command_complete, execute_portal_suspended, execute_error,
    execute_copy_in, execute_copy_out, execute_copy_both, copy_in_done_simple_command_complete,
    copy_in_done_extended_command_complete, copy_in_failed_simple_error, copy_in_failed_extended_error,
    copy_out_done, copy_out_done_simple_command_complete, copy_out_done_extended_command_complete, both_open_done,
    both_client_done_done, both_done_simple_command_complete, both_done_extended_command_complete,
    both_failed_simple_error, both_failed_extended_error, extended_error, simple_send, execute_send,
    describe_parameter_description, copy_out_data, both_open_data, both_client_done_data in H.

Lemma do_send_conforms {S} m (st st' : server_state S) f :
  do_send m st = Some (Ok (st', f)) -> send_conforms m st st' f.
Proof.
  destruct st as [P C c|C c]; [|done]. intros H.
  destruct P as [| | | | | | | | | | | | | |[]|[]|[]|[]|[]|[] []|[]]; try discriminate H;
    destruct m; try discriminate H; cbn [do_send] in H;
    unfold simple_ready, simple_error_ready, function_call_done_ready, function_call_error_ready, sync_ready in H.
  all: first [apply settled_inv in H as (Hf & Ht & c' & ->)|apply answered_inv in H as (c' & Hr & ->)].
  all: try (unfold_sends Hr; first [apply reply_inv in Hr as [Ht Hf]|apply kept_inv in Hr as [Ht Hf]]).
  all: apply send_conforms_intro; [split; first [reflexivity|assumption]|vm_compute; reflexivity].
Qed.

Definition receive_conforms {S} (m : FrontendMessage) (st st' : server_state S) (taken : receipt) : Prop :=
  server_transport st' = server_transport st /\
  forall s, s ∈ grammar_states st ->
    match server_step s (inr m) with
    | Some t => taken = Took m /\ t ∈ grammar_states st'
    | None => taken = Refused m /\ st' = st
    end.

Lemma do_receive_conforms {S} stateless m (st : server_state S) r :
  do_receive stateless m st = Some r -> exists st' taken, r = Ok (st', taken) /\ receive_conforms m st st' taken.
Proof.
  destruct st as [P C c|C c]; [|done].
  destruct P as [| | | | | | | | | | | | | |[]|[]|[]|[]|[]|[] []|[]]; try done;
    destruct stateless; try done; destruct m; try done; intros H; vm_compute in H; injection H as <-;
    eexists _, _; (split; [reflexivity|]); (split; [reflexivity|]); intros s Hs;
    (apply elem_of_cons in Hs as [->|Hs]; [|now apply not_elem_of_nil in Hs]);
    vm_compute; split; first [reflexivity|constructor].
Qed.

(** ** Whole sessions *)

Inductive server_action : Type :=
| Send (m : BackendMessage)
| Recv (stateless : bool) (m : FrontendMessage).

Section Runs.
Context {S : Type}.
Implicit Types (st : server_state S).

Inductive server_output : Type :=
| Wrote (f : Frame)
| Received (r : receipt).

(** [None]: the operation does not exist in the phase, or its message could not
    be encoded, which consumes the connection. *)
Definition do_server (a : server_action) st : option (list server_output * server_state S) :=
  match a with
  | Send m => match do_send m st with Some (Ok (st, f)) => Some ([Wrote f], st) | _ => None end
  | Recv stateless m =>
      match do_receive stateless m st with Some (Ok (st, r)) => Some ([Received r], st) | _ => None end
  end.

(** The grammar over the same messages: a message it sends is written as its
    encoding, a message it can receive is taken, and one it cannot is refused
    without a state change. *)
Definition grammar_action (a : server_action) (s : string) : option (list server_output * string) :=
  match a with
  | Send m =>
      match server_step s (inl m), BackendMessage_to_frame m with
      | Some t, Ok f => Some ([Wrote f], t)
      | _, _ => None
      end
  | Recv _ m =>
      match server_step s (inr m) with
      | Some t => Some ([Received (Took m)], t)
      | None => Some ([Received (Refused m)], s)
      end
  end.

Fixpoint disciplined_run (actions : list server_action) st (s : string) : bool :=
  match actions with
  | [] => true
  | a :: actions =>
      match a with Send m => disciplined m st s | Recv _ _ => true end &&
      match do_server a st, grammar_action a s with
      | Some (_, st), Some (_, t) => disciplined_run actions st t
      | _, _ => true
      end
  end.

Lemma do_server_simulates a st os st' s : do_server a st = Some (os, st') -> s ∈ grammar_states st ->
  match a with Send m => disciplined m st s | Recv _ _ => true end = true ->
  exists t, grammar_action a s = Some (os, t) /\ t ∈ grammar_states st' /\ server_transport st' = server_transport st.
Proof.
  intros Ha Hs Hd. destruct a as [m|stateless m]; cbn [do_server grammar_action] in *.
  - destruct (do_send m st) as [[[st1 f]| |]|] eqn:E; [|done..]. injection Ha as <- <-.
    apply do_send_conforms in E as (Ht & Hf & Hg). destruct (Hg s Hs Hd) as (t & Hst & Hin).
    exists t. now rewrite Hst, Hf.
  - destruct (do_receive stateless m st) as [r|] eqn:E; [|done].
    apply do_receive_conforms in E as (st1 & tk & -> & Ht & Hg). injection Ha as <- <-.
    specialize (Hg s Hs). destruct (server_step s (inr m)) as [t|]; destruct Hg as [-> Hst]; [now exists t|].
    subst st1. now exists s.
Qed.
End Runs.
Abbreviation run_server := (run do_server).
Abbreviation run_grammar := (run grammar_action).

(** C19: The server session refines the backend grammar: every sequence of typed
    operations and received messages, from any phase and any grammar state the
    phase stands for, has exactly the outputs of the grammar: each message received
    is taken, and delivered as it is, exactly when the grammar takes it, and is
    otherwise handed back unchanged without a state change; each message sent is one
    the grammar sends, written as its encoding, provided the two pass-through
    operations send only results and a simple query sends nothing but readiness
    after its COPY. The phase reached stands for the grammar's state, and the
    transport is the one the session started with. *)
Theorem server_session_refines_grammar {S} actions (st : server_state S) os st' s :
  run_server actions st = Some (os, st') -> s ∈ grammar_states st -> disciplined_run actions st s = true ->
  exists t, run_grammar actions s = Some (os, t) /\ t ∈ grammar_states st' /\
    server_transport st' = server_transport st.
Proof.
  revert st os s. induction actions as [|a actions IH]; intros st os s Hr Hs Hd; cbn [run disciplined_run] in *.
  { injection Hr as <- <-. now exists s. }
  destruct (do_server a st) as [[os1 st1]|] eqn:Ea; [|done].
  destruct (run_server actions st1) as [[os2 st2]|] eqn:Er; [|done]. injection Hr as <- <-.
  apply andb_true_iff in Hd as [Hd Hd'].
  destruct (do_server_simulates _ _ _ _ _ Ea Hs Hd) as (u & Hu & Hin & Ht). rewrite Hu in *.
  destruct (IH _ _ _ Er Hin Hd') as (t & Hg & Hin' & Ht'). rewrite Hg.
  exists t. split_and!; [done..|congruence].
Qed.

Definition sample_server : server_state nat := ServerAt SV.Ready Pristine (mkConn (Some 7%nat)).

(** A parse, a query the building phase refuses, and a synchronisation. *)
Definition sample_actions : list server_action :=
  [Recv false (F_Parse (mkParse [] [x61] [])); Send B_ParseComplete; Recv false (F_Query [x62]);
   Recv false F_Sync; Send (B_ReadyForQuery Idle)].
Definition sample_outputs : list server_output :=
  [Received (Took (F_Parse (mkParse [] [x61] []))); Wrote (mkFrame "1"%byte []); Received (Refused (F_Query [x62]));
   Received (Took F_Sync); Wrote (mkFrame "Z"%byte ["I"%byte])].

Lemma server_session_refines_grammar_witness : exists st' t,
  run_server sample_actions sample_server = Some (sample_outputs, st') /\
  run_grammar sample_actions "Ready" = Some (sample_outputs, t) /\ t ∈ grammar_states st' /\
  server_transport st' = server_transport sample_server.
Proof.
  destruct (server_session_refines_grammar sample_actions sample_server sample_outputs
    (ServerAt SV.Ready Dirty (mkConn (Some 7%nat))) "Ready") as [t Ht];
    [vm_compute; reflexivity|constructor|vm_compute; reflexivity|].
  eexists _, t. split; [vm_compute; reflexivity|exact Ht].
Defined.

(** The pass-through [send] of a simple query is wider than the grammar: it lets
    another phase's response through, and after a COPY the typed session goes on
    with results where the grammar has only readiness. *)
Theorem server_send_wider_than_grammar :
  let st := ServerAt SV.ServerSimpleQuery Pristine (mkConn (Some 7%nat)) : server_state nat in
  let copied := [Send (B_CopyOutResponse (mkCopyResponse x00 [])); Send B_CopyDone; Send (B_CommandComplete [x43])] in
  (exists f, do_send B_ParseComplete st = Some (Ok (st, f)) /\ server_step "Simple" (inl B_ParseComplete) = None) /\
  (exists os f, run_server copied st = Some (os, st) /\ run_grammar copied "Simple" = Some (os, "SimpleCopyReady") /\
     do_send (B_CommandComplete [x53]) st = Some (Ok (st, f)) /\
     server_step "SimpleCopyReady" (inl (B_CommandComplete [x53])) = None).
Proof. vm_compute. split; [|eexists]; eexists; split_and!; reflexivity. Qed.

(** Error recovery: once a failed pipeline is being discarded, whatever the client
    sends before its [Sync] is taken without a reply, the [Sync] ends the
    discarding, and the readiness that answers it makes the session ready. *)
Theorem failed_pipeline_resumes_at_sync {S} C (c : Conn S SV.ServerExtendedError C) (skipped : list FrontendMessage) status :
  Forall (fun m => m <> F_Sync) skipped ->
  run_server (map (Recv false) skipped) (ServerAt SV.ServerExtendedError C c)
    = Some (map (fun m => Received (Took m)) skipped, ServerAt SV.ServerExtendedError C c) /\
  exists f c', BackendMessage_to_frame (B_ReadyForQuery status) = Ok f /\
    run_server [Recv false F_Sync; Send (B_ReadyForQuery status)] (ServerAt SV.ServerExtendedError C c)
      = Some ([Received (Took F_Sync); Wrote f], ServerAt SV.Ready (if bool_decide (status = Idle) then C else Dirty) c').
Proof.
  intros Hs. split.
  - induction Hs as [|m skipped Hm Hs IH]; [done|].
    change (map (Recv false) (m :: skipped)) with (Recv false m :: map (Recv false) skipped). cbn [run].
    assert (do_server (Recv false m) (ServerAt SV.ServerExtendedError C c)
      = Some ([Received (Took m)], ServerAt SV.ServerExtendedError C c)) as -> by (destruct m; first [done|vm_compute; reflexivity]).
    now rewrite IH.
  - destruct status; vm_compute; eexists _, _; split; reflexivity.
Qed.

Lemma failed_pipeline_resumes_at_sync_witness :
  let st := ServerAt SV.ServerExtendedError Dirty (mkConn (Some 7%nat)) : server_state nat in
  run_server (map (Recv false) [F_Flush; F_Query [x61]; F_Terminate]) st
    = Some (map (fun m => Received (Took m)) [F_Flush; F_Query [x61]; F_Terminate], st).
Proof.
  intros st. apply (failed_pipeline_resumes_at_sync Dirty (mkConn (Some 7%nat)) [F_Flush; F_Query [x61]; F_Terminate] Idle).
  repeat constructor; discriminate.
Defined.
