(* ===== verification/Scram.v ===== *)
(** Server-side SCRAM verification and credential checks: src/scram.rs and
    src/credentials.rs. Hashing, base64, string preparation and randomness come
    from other crates and are the interface [Crypto]. *)

From Stdlib Require Import ZArith Lia String.
From Stdlib Require Import Init.Byte DecimalString.
From stdpp Require Import prelude.
From S2P Require Import Prelude Wire.

Local Open Scope string_scope.
Local Open Scope Z_scope.
Local Open Scope list_scope.

(** ** Strings *)

(** A [str] is a valid UTF-8 byte sequence. *)
Definition in_range (lo hi : Z) (b : byte) : bool := (lo <=? byte_val b) && (byte_val b <=? hi).

(** [str::from_utf8] *)
Fixpoint utf8 (l : bytes) : bool :=
  match l with
  | [] => true
  | b0 :: r0 =>
      if in_range 0 127 b0 then utf8 r0
      else match r0 with
      | [] => false
      | b1 :: r1 =>
          if in_range 194 223 b0 then in_range 128 191 b1 && utf8 r1
          else match r1 with
          | [] => false
          | b2 :: r2 =>
              if in_range 224 239 b0 then
                (if in_range 224 224 b0 then in_range 160 191 b1
                 else if in_range 237 237 b0 then in_range 128 159 b1 else in_range 128 191 b1) &&
                in_range 128 191 b2 && utf8 r2
              else match r2 with
              | [] => false
              | b3 :: r3 =>
                  in_range 240 244 b0 &&
                  (if in_range 240 240 b0 then in_range 144 191 b1
                   else if in_range 244 244 b0 then in_range 128 143 b1 else in_range 128 191 b1) &&
                  in_range 128 191 b2 && in_range 128 191 b3 && utf8 r3
              end
          end
      end
  end.

(** [find] of a character and [rfind] of a pattern. *)
Fixpoint find_byte (b : byte) (l : bytes) : option nat :=
  match l with
  | [] => None
  | x :: l => if decide (x = b) then Some 0%nat else S <$> find_byte b l
  end.

Fixpoint starts_with (p l : bytes) : bool :=
  match p, l with
  | [], _ => true
  | x :: p, y :: l => bool_decide (x = y) && starts_with p l
  | _ :: _, [] => false
  end.

Fixpoint rfind (p l : bytes) : option nat :=
  match l with
  | [] => if starts_with p [] then Some 0%nat else None
  | _ :: t =>
      match rfind p t with
      | Some i => Some (S i)
      | None => if starts_with p l then Some 0%nat else None
      end
  end.

(** [split] at a character: never empty. *)
Fixpoint split_on (b : byte) (l : bytes) : list bytes :=
  match l with
  | [] => [[]]
  | x :: l =>
      if decide (x = b) then [] :: split_on b l
      else match split_on b l with part :: parts => (x :: part) :: parts | [] => [[x]] end
  end.

(** [u32] in decimal. *)
Definition decimal (n : Z) : bytes := list_byte_of_string (NilZero.string_of_uint (N.to_uint (Z.to_N n))).

Definition str (s : string) : bytes := list_byte_of_string s.

Definition xor_bytes (a b : bytes) : bytes :=
  zip_with (fun x y => byte_of (Z.lxor (byte_val x) (byte_val y))) a b.

(** ** Other crates *)

Class Crypto := {
  sha256 : bytes -> bytes;                (* sha2 *)
  hmac : bytes -> bytes -> bytes;         (* hmac over sha2: key, input *)
  b64_encode : bytes -> bytes;            (* base64::STANDARD *)
  b64_decode : bytes -> option bytes;
  saslprep : bytes -> option bytes;       (* stringprep *)
  md5_hash : bytes -> bytes -> bytes -> bytes (* postgres_protocol: username, password, salt *)
}.

(** What their documentation promises. *)
Class CryptoLaws (K : Crypto) : Prop := {
  length_sha256 l : length (sha256 l) = 32%nat;
  length_hmac k l : length (hmac k l) = 32%nat;
  b64_decode_encode l : b64_decode (b64_encode l) = Some l;
  b64_alphabet l : Forall (fun b => in_range 33 126 b = true /\ b <> ","%byte) (b64_encode l)
}.

(** ** src/scram.rs *)

Definition SCRAM_SHA_256 : bytes := str "SCRAM-SHA-256".
Definition SCRAM_SHA_256_PLUS : bytes := str "SCRAM-SHA-256-PLUS".
Definition DEFAULT_ITERATIONS : Z := 4096.

Inductive ServerChannelBinding : Type :=
| Binding_None
| TlsServerEndPoint (binding : bytes).

Record ScramServer : Type := mkScramServer {
  password : bytes;
  salt : bytes;
  iterations : Z; (* u32 *)
  channel_binding : ServerChannelBinding
}.

Record ScramExchange : Type := mkScramExchange {
  salted_password : bytes; (* [u8; 32] *)
  client_first_bare : bytes;
  server_first : bytes;
  combined_nonce : bytes;
  expected_channel_binding : bytes
}.

Definition invalid (m : string) : io_error := mkError InvalidInput m.

(** An error of another crate wrapped as [InvalidInput]; its text is not modelled. *)
Definition wrapped : io_error := mkError InvalidInput "".

Definition from_utf8 (l : bytes) : io bytes := if utf8 l then Ok l else Err wrapped.

Definition split_gs2 (message : bytes) : io (bytes * bytes) :=
  match find_byte ","%byte message with
  | None => Err (invalid "malformed SCRAM GS2 header")
  | Some first =>
      match find_byte ","%byte (drop (first + 1) message) with
      | None => Err (invalid "malformed SCRAM GS2 header")
      | Some position =>
          let second := (first + 1 + position)%nat in
          Ok (take (second + 1) message, drop (second + 1) message)
      end
  end.

Definition is_ascii_alphabetic (b : byte) : bool := in_range 65 90 b || in_range 97 122 b.

(** The loop over the parts; [output] is what it has collected. *)
Fixpoint attributes_loop (parts : list bytes) (output : list (byte * bytes)) : io (list (byte * bytes)) :=
  match parts with
  | [] => Ok output
  | attribute :: parts =>
      match attribute with
      | b0 :: b1 :: value =>
          if negb (bool_decide (b1 = "="%byte)) || negb (is_ascii_alphabetic b0)
          then Err (invalid "malformed SCRAM attribute")
          else if existsb (fun a => bool_decide (a.1 = b0)) output
          then Err (invalid "duplicate SCRAM attribute")
          else attributes_loop parts (output ++ [(b0, value)])
      | _ => Err (invalid "malformed SCRAM attribute")
      end
  end.

Definition attributes (message : bytes) : io (list (byte * bytes)) := attributes_loop (split_on ","%byte message) [].

Definition required (attributes : list (byte * bytes)) (name : byte) : io bytes :=
  match List.find (fun a => bool_decide (a.1 = name)) attributes with
  | Some a => Ok a.2
  | None => Err (invalid "required SCRAM attribute is missing")
  end.

Definition reject_mandatory_extension (attributes : list (byte * bytes)) : io unit :=
  if existsb (fun a => bool_decide (a.1 = "m"%byte)) attributes
  then Err (invalid "unsupported mandatory SCRAM extension") else Ok tt.

Definition nonce_byte (b : byte) : bool := in_range 33 43 b || in_range 45 126 b.

Definition validate_nonce (nonce : bytes) : io unit :=
  if negb (bool_decide (nonce = [])) && forallb nonce_byte nonce then Ok tt else Err (invalid "invalid SCRAM nonce").

(** The 24 bytes drawn from [0x21..0x7f] are an argument. *)
Definition random_nonce (draws : list byte) : bytes :=
  map (fun b => if decide (b = ","%byte) then "~"%byte else b) draws.

Definition drawn (draws : list byte) : bool :=
  bool_decide (length draws = 24%nat) && forallb (in_range 33 126) draws.

Definition expected_binding (server : ScramServer) (plus : bool) (gs2_header : bytes) : io bytes :=
  match plus, channel_binding server with
  | true, TlsServerEndPoint binding =>
      if bool_decide (gs2_header = str "p=tls-server-end-point,,") then Ok (gs2_header ++ binding)
      else Err (invalid "SCRAM-PLUS channel binding is unavailable or invalid")
  | true, Binding_None => Err (invalid "SCRAM-PLUS channel binding is unavailable or invalid")
  | false, b =>
      if match b with TlsServerEndPoint _ => bool_decide (gs2_header = str "y,,") | Binding_None => false end
      then Err (invalid "SCRAM channel-binding downgrade detected")
      else if bool_decide (gs2_header = str "n,,") || bool_decide (gs2_header = str "y,,") then Ok gs2_header
      else Err (invalid "channel binding used with SCRAM-SHA-256")
  end.

Section Server.
Context `{K : Crypto}.

Definition normalize (password : bytes) : bytes :=
  if utf8 password then match saslprep password with Some normalised => normalised | None => password end
  else password.

(** [for _ in 1..iterations] *)
Fixpoint hi_loop (n : nat) (password previous output : bytes) : bytes :=
  match n with
  | O => output
  | S n => let previous := hmac password previous in hi_loop n password previous (xor_bytes output previous)
  end.

Definition hi (password salt : bytes) (iterations : Z) : bytes :=
  let previous := hmac password (salt ++ [x00; x00; x00; x01]) in
  hi_loop (Z.to_nat (iterations - 1)) password previous previous.

(** The random salt is an argument. *)
Definition ScramServer_new (password_ random_salt : bytes) (binding : ServerChannelBinding) : ScramServer :=
  mkScramServer (normalize password_) random_salt DEFAULT_ITERATIONS binding.

Definition with_parameters (password_ salt_ : bytes) (iterations_ : Z) (binding : ServerChannelBinding)
    : io ScramServer :=
  if iterations_ <? DEFAULT_ITERATIONS then Err (invalid "SCRAM iteration count is below 4096")
  else Ok (mkScramServer (normalize password_) salt_ iterations_ binding).

Definition start (server : ScramServer) (mechanism client_first : bytes) (draws : list byte)
    : io (ScramExchange * bytes) :=
  let? client_first := from_utf8 client_first in
  let? (gs2_header, bare) := split_gs2 client_first in
  let? plus :=
    if decide (mechanism = SCRAM_SHA_256) then Ok false
    else if decide (mechanism = SCRAM_SHA_256_PLUS) then Ok true
    else Err (invalid "unsupported SCRAM mechanism") in
  let? expected := expected_binding server plus gs2_header in
  let? attrs := attributes bare in
  let? _ := reject_mandatory_extension attrs in
  let? client_nonce := required attrs "r"%byte in
  let? _ := validate_nonce client_nonce in
  let? _username := required attrs "n"%byte in
  let combined := client_nonce ++ random_nonce draws in
  let first := str "r=" ++ combined ++ str ",s=" ++ b64_encode (salt server) ++ str ",i=" ++ decimal (iterations server) in
  Ok (mkScramExchange (hi (password server) (salt server) (iterations server)) bare first combined expected, first).

Definition finish (ex : ScramExchange) (client_final : bytes) : io bytes :=
  let? client_final := from_utf8 client_final in
  match rfind (str ",p=") client_final with
  | None => Err (invalid "SCRAM client-final has no proof")
  | Some proof_marker =>
      let without_proof := take proof_marker client_final in
      let? attrs := attributes client_final in
      let? _ := reject_mandatory_extension attrs in
      let? nonce := required attrs "r"%byte in
      if negb (bool_decide (nonce = combined_nonce ex)) then Err (invalid "SCRAM nonce mismatch") else
      let? encoded_binding := required attrs "c"%byte in
      match b64_decode encoded_binding with
      | None => Err wrapped
      | Some binding =>
          if negb (bool_decide (binding = expected_channel_binding ex))
          then Err (invalid "SCRAM channel binding mismatch") else
          let? encoded_proof := required attrs "p"%byte in
          if negb (Z.of_nat proof_marker + 3 + len encoded_proof =? len client_final)
          then Err (invalid "SCRAM proof is not the final attribute") else
          match b64_decode encoded_proof with
          | None => Err wrapped
          | Some proof =>
              if negb (len proof =? 32) then Err (invalid "SCRAM proof is not 32 bytes") else
              let auth_message :=
                client_first_bare ex ++ str "," ++ server_first ex ++ str "," ++ without_proof in
              let client_key := hmac (salted_password ex) (str "Client Key") in
              let stored_key := sha256 client_key in
              let client_signature := hmac stored_key auth_message in
              let recovered_key := xor_bytes proof client_signature in
              let recovered_stored_key := sha256 recovered_key in
              if negb (bool_decide (recovered_stored_key = stored_key))
              then Err (invalid "invalid SCRAM client proof") else
              let server_key := hmac (salted_password ex) (str "Server Key") in
              let server_signature := hmac server_key auth_message in
              Ok (str "v=" ++ b64_encode server_signature)
          end
      end
  end.

(** ** src/credentials.rs *)

Definition md5_response (username password salt : bytes) : bytes := md5_hash username password salt.

Definition verify_md5_response (response username password salt : bytes) : bool :=
  bool_decide (response = md5_response username password salt).

Definition verify_cleartext (response expected : bytes) : bool := bool_decide (response = expected).
End Server.
