(* ===== verification/ScramSpec.v ===== *)
(** Correctness of the SCRAM verifier of [Scram]: it accepts the client of
    RFC 5802 that knows the password, and what it accepts is bound to the
    password, the nonces and the channel. *)

From Stdlib Require Import ZArith Lia String.
From Stdlib Require Import Init.Byte DecimalString.
From stdpp Require Import prelude.
From S2P Require Import Prelude Wire Scram.

Local Open Scope string_scope.
Local Open Scope Z_scope.
Local Open Scope list_scope.

(** ** Exclusive or *)

Definition xor_byte (x y : byte) : byte := byte_of (Z.lxor (byte_val x) (byte_val y)).

Lemma lxor_mod_256 a b : Z.lxor a b mod 256 = Z.lxor (a mod 256) (b mod 256).
Proof.
  change 256 with (2 ^ 8). apply Z.bits_inj'. intros n Hn. destruct (decide (n < 8)).
  - now rewrite Z.mod_pow2_bits_low, !Z.lxor_spec, !Z.mod_pow2_bits_low by lia.
  - now rewrite Z.mod_pow2_bits_high, Z.lxor_spec, !Z.mod_pow2_bits_high by lia.
Qed.

Lemma byte_val_xor x y : byte_val (xor_byte x y) = Z.lxor (byte_val x) (byte_val y).
Proof.
  unfold xor_byte. rewrite byte_val_of, lxor_mod_256, !Z.mod_small by apply byte_val_range. done.
Qed.

Lemma xor_byte_cancel x y : xor_byte (xor_byte x y) y = x.
Proof. apply byte_val_inj. now rewrite !byte_val_xor, Z.lxor_assoc, Z.lxor_nilpotent, Z.lxor_0_r. Qed.

Lemma length_xor_bytes a b : length (xor_bytes a b) = Nat.min (length a) (length b).
Proof. apply length_zip_with. Qed.

Lemma xor_bytes_cancel a : forall b, length a = length b -> xor_bytes (xor_bytes a b) b = a.
Proof.
  induction a as [|x a IH]; intros [|y b] H; try done. injection H as H.
  unfold xor_bytes. cbn [zip_with]. f_equal; [apply xor_byte_cancel|now apply IH].
Qed.

(** ** Text *)

Definition no_comma (l : bytes) : bool := forallb (fun b => negb (bool_decide (b = ","%byte))) l.
Definition ascii (l : bytes) : bool := forallb (in_range 0 127) l.

Lemma no_comma_app a b : no_comma (a ++ b) = no_comma a && no_comma b.
Proof. apply forallb_app. Qed.

Lemma ascii_app a b : ascii (a ++ b) = ascii a && ascii b.
Proof. apply forallb_app. Qed.

Lemma in_range_iff lo hi b : in_range lo hi b = true <-> lo <= byte_val b <= hi.
Proof. unfold in_range. rewrite andb_true_iff, !Z.leb_le. lia. Qed.

Lemma utf8_ascii l : ascii l = true -> utf8 l = true.
Proof.
  induction l as [|b l IH]; [done|]. intros [Hb Hl]%andb_true_iff. cbn [utf8]. rewrite Hb. auto.
Qed.

(** A valid prefix can be split off. *)
Lemma utf8_app a b : utf8 a = true -> utf8 (a ++ b) = utf8 b.
Proof.
  remember (length a) as n eqn:Hn. revert a Hn.
  induction n as [n IH] using lt_wf_ind; intros a -> Ha.
  destruct a as [|b0 r0]; [done|]. cbn [utf8 app] in *.
  destruct (in_range 0 127 b0); [apply (IH (length r0)); [cbn; lia|done..]|].
  destruct r0 as [|b1 r1]; [done|]. cbn [app].
  destruct (in_range 194 223 b0).
  { apply andb_true_iff in Ha as [-> Ha]. apply (IH (length r1)); [cbn; lia|done..]. }
  destruct r1 as [|b2 r2]; [done|]. cbn [app].
  destruct (in_range 224 239 b0).
  { apply andb_true_iff in Ha as [-> Ha]. apply (IH (length r2)); [cbn; lia|done..]. }
  destruct r2 as [|b3 r3]; [done|]. cbn [app].
  apply andb_true_iff in Ha as [-> Ha]. apply (IH (length r3)); [cbn; lia|done..].
Qed.

Lemma split_on_part b p rest : forallb (fun x => negb (bool_decide (x = b))) p = true ->
  split_on b (p ++ b :: rest) = p :: split_on b rest.
Proof.
  induction p as [|x p IH]; cbn; [now rewrite decide_True|].
  intros [Hx Hp]%andb_true_iff. apply negb_true_iff, bool_decide_eq_false in Hx.
  rewrite decide_False by done. now rewrite IH.
Qed.

Lemma split_on_last b p : forallb (fun x => negb (bool_decide (x = b))) p = true -> split_on b p = [p].
Proof.
  induction p as [|x p IH]; [done|]. cbn.
  intros [Hx Hp]%andb_true_iff. apply negb_true_iff, bool_decide_eq_false in Hx.
  rewrite decide_False by done. now rewrite IH.
Qed.

Lemma find_byte_part b p rest : forallb (fun x => negb (bool_decide (x = b))) p = true ->
  find_byte b (p ++ b :: rest) = Some (length p).
Proof.
  induction p as [|x p IH]; cbn; [now rewrite decide_True|].
  intros [Hx Hp]%andb_true_iff. apply negb_true_iff, bool_decide_eq_false in Hx.
  rewrite decide_False by done. now rewrite IH.
Qed.

Lemma split_on_nonempty b l : split_on b l <> [].
Proof. destruct l as [|x l]; [done|]. cbn. destruct (decide (x = b)); [done|]. now destruct (split_on b l). Qed.

(** The last occurrence of a pattern that starts with a comma. *)
Lemma rfind_none c p l : forallb (fun x => negb (bool_decide (x = c))) l = true -> rfind (c :: p) l = None.
Proof.
  induction l as [|x l IH]; [done|]. intros [Hx Hl]%andb_true_iff. cbn [rfind]. rewrite IH by done.
  cbn [starts_with]. apply negb_true_iff, bool_decide_eq_false in Hx. now rewrite bool_decide_eq_false_2.
Qed.

Lemma starts_with_app p l : starts_with p (p ++ l) = true.
Proof. induction p as [|x p IH]; [done|]. cbn. now rewrite bool_decide_eq_true_2, IH. Qed.

Lemma rfind_last c p w l : forallb (fun x => negb (bool_decide (x = c))) (p ++ l) = true ->
  rfind (c :: p) (w ++ (c :: p) ++ l) = Some (length w).
Proof.
  intros Hl. induction w as [|x w IH]; cbn [app].
  - cbn [rfind]. rewrite rfind_none by done. pose proof (starts_with_app (c :: p) l) as Hs. cbn [app] in Hs. now rewrite Hs.
  - cbn [rfind length app] in *. now rewrite IH.
Qed.

Lemma starts_with_inv p l : starts_with p l = true -> l = p ++ drop (length p) l.
Proof.
  revert l. induction p as [|x p IH]; intros [|y l] H; try done; cbn in *.
  apply andb_true_iff in H as [->%bool_decide_eq_true H]. f_equal. auto.
Qed.

Lemma rfind_inv p l i : rfind p l = Some i -> l = take i l ++ p ++ drop (i + length p) l.
Proof.
  revert i. induction l as [|x l IH]; intros i; cbn [rfind].
  { destruct (starts_with p []) eqn:E; [|done]. intros [= <-]. destruct p; done. }
  destruct (rfind p l) as [j|] eqn:E.
  - intros [= <-]. cbn. f_equal. auto.
  - destruct (starts_with p (x :: l)) eqn:Es; [|done]. intros [= <-]. now apply starts_with_inv.
Qed.

(** ** Attribute lists *)

Definition render_attribute (a : byte * bytes) : bytes := a.1 :: "="%byte :: a.2.

Fixpoint render (l : list (byte * bytes)) : bytes :=
  match l with
  | [] => []
  | [a] => render_attribute a
  | a :: l => render_attribute a ++ ","%byte :: render l
  end.

Definition attribute_ok (a : byte * bytes) : bool := is_ascii_alphabetic a.1 && no_comma a.2.

Lemma render_attribute_no_comma a : attribute_ok a = true -> no_comma (render_attribute a) = true.
Proof.
  intros [Hn Hv]%andb_true_iff. cbn. apply andb_true_iff. split; [|done].
  apply negb_true_iff, bool_decide_eq_false. intros E. rewrite E in Hn. discriminate Hn.
Qed.

Lemma split_render l : l <> [] -> forallb attribute_ok l = true ->
  split_on ","%byte (render l) = map render_attribute l.
Proof.
  intros Hne Hl. induction l as [|a [|a' l] IH]; [done| |].
  - apply andb_true_iff in Hl as [Ha _]. now apply split_on_last, render_attribute_no_comma.
  - apply andb_true_iff in Hl as [Ha Hl].
    change (render (a :: a' :: l)) with (render_attribute a ++ ","%byte :: render (a' :: l)).
    rewrite split_on_part by now apply render_attribute_no_comma. rewrite IH by done. done.
Qed.

Lemma attributes_loop_render l : forall out, forallb attribute_ok l = true -> NoDup (map fst (out ++ l)) ->
  attributes_loop (map render_attribute l) out = Ok (out ++ l).
Proof.
  induction l as [|[n v] l IH]; intros out Hl Hd; [now rewrite app_nil_r|].
  cbn [map render_attribute attributes_loop fst snd] in *. apply andb_true_iff in Hl as [[Hn _]%andb_true_iff Hl].
  cbn [fst] in Hn. rewrite Hn, bool_decide_eq_true_2 by done. cbn [negb orb].
  destruct (existsb (fun a => bool_decide (a.1 = n)) out) eqn:E.
  - apply existsb_exists in E as ([m w] & Hin & Hm%bool_decide_eq_true). cbn in Hm. subst m.
    rewrite map_app in Hd. apply NoDup_app in Hd as (_ & Hd & _). exfalso.
    apply (Hd n); [|now left]. apply list_elem_of_In, in_map_iff. now exists (n, w).
  - rewrite IH; [now rewrite <- app_assoc|done|now rewrite <- app_assoc].
Qed.

(** Parsing a rendered attribute list gives it back. *)
Lemma attributes_render l : l <> [] -> forallb attribute_ok l = true -> NoDup (map fst l) ->
  attributes (render l) = Ok l.
Proof. intros. unfold attributes. rewrite split_render by done. now apply (attributes_loop_render l []). Qed.

(** ** The client of RFC 5802 *)

Inductive binding_mode : bytes -> ServerChannelBinding -> bytes -> bytes -> Prop :=
| mode_plain b : binding_mode SCRAM_SHA_256 b (str "n,,") []
| mode_no_server_support : binding_mode SCRAM_SHA_256 Binding_None (str "y,,") []
| mode_plus data : binding_mode SCRAM_SHA_256_PLUS (TlsServerEndPoint data) (str "p=tls-server-end-point,,") data.

Section Client.
Context `{K : Crypto}.

Definition first_bare (username nonce : bytes) : bytes := str "n=" ++ username ++ str ",r=" ++ nonce.

Definition final_without_proof (gs2 data nonce : bytes) : bytes :=
  str "c=" ++ b64_encode (gs2 ++ data) ++ str ",r=" ++ nonce.

Definition auth_message (bare first without_proof : bytes) : bytes :=
  bare ++ str "," ++ first ++ str "," ++ without_proof.

Definition client_signature (salted auth : bytes) : bytes := hmac (sha256 (hmac salted (str "Client Key"))) auth.

Definition client_proof (salted auth : bytes) : bytes :=
  xor_bytes (hmac salted (str "Client Key")) (client_signature salted auth).

Definition server_signature (salted auth : bytes) : bytes := hmac (hmac salted (str "Server Key")) auth.

Definition client_final (without_proof proof : bytes) : bytes := without_proof ++ str ",p=" ++ b64_encode proof.

(** PBKDF2 with one block: the exclusive or of the first [n] iterates. *)
Fixpoint iterate (password salt : bytes) (k : nat) : bytes :=
  match k with
  | O => hmac password (salt ++ [x00; x00; x00; x01])
  | S k => hmac password (iterate password salt k)
  end.

Definition pbkdf2 (password salt : bytes) (n : nat) : bytes :=
  fold_left (fun acc k => xor_bytes acc (iterate password salt k)) (seq 1 (n - 1)) (iterate password salt 0).

Lemma hi_loop_pbkdf2 password salt n : forall k acc,
  hi_loop n password (iterate password salt k) acc =
  fold_left (fun acc k => xor_bytes acc (iterate password salt k)) (seq (S k) n) acc.
Proof. induction n as [|n IH]; intros k acc; [done|]. cbn [hi_loop seq fold_left]. apply (IH (S k)). Qed.

Lemma hi_pbkdf2 password salt iterations : hi password salt iterations = pbkdf2 password salt (Z.to_nat iterations).
Proof.
  unfold hi, pbkdf2. rewrite Z2Nat.inj_sub by lia. change (Z.to_nat 1) with 1%nat.
  apply (hi_loop_pbkdf2 password salt _ 0).
Qed.
End Client.

(** ** The first message *)

Lemma expected_binding_mode server plus gs2 e :
  expected_binding server plus gs2 = Ok e <->
  exists data, e = gs2 ++ data /\
    binding_mode (if plus then SCRAM_SHA_256_PLUS else SCRAM_SHA_256) (channel_binding server) gs2 data.
Proof.
  unfold expected_binding. split.
  - destruct plus, (channel_binding server) as [|data]; try done.
    + case_bool_decide as Hg; [|done]. intros [= <-]. subst. exists data. split; [done|constructor].
    + cbn. repeat case_bool_decide; try done; intros [= <-]; subst; exists []; rewrite app_nil_r; (split; [done|constructor]).
    + repeat case_bool_decide; try done; intros [= <-]; subst; exists []; rewrite app_nil_r; (split; [done|constructor]).
  - intros (data & -> & Hm). destruct plus; inversion Hm; subst; rewrite ?app_nil_r; try done;
      destruct (channel_binding server); done.
Qed.

Lemma binding_mode_gs2 mechanism b gs2 data : binding_mode mechanism b gs2 data ->
  exists p, gs2 = p ++ str ",," /\ no_comma p = true /\ ascii gs2 = true.
Proof.
  inversion 1; subst; [exists (str "n")|exists (str "y")|exists (str "p=tls-server-end-point")]; done.
Qed.

Lemma split_gs2_bare p bare : no_comma p = true -> split_gs2 (p ++ str ",," ++ bare) = Ok (p ++ str ",,", bare).
Proof.
  intros Hp. unfold split_gs2. change (p ++ str ",," ++ bare) with (p ++ ","%byte :: ","%byte :: bare).
  rewrite find_byte_part by done.
  replace (drop (length p + 1) (p ++ ","%byte :: ","%byte :: bare)) with (","%byte :: bare)
    by (now rewrite <- drop_drop, drop_app_length).
  cbn [find_byte]. rewrite decide_True by done. cbv zeta.
  replace (length p + 1 + 0 + 1)%nat with (length p + 2)%nat by lia.
  rewrite take_app_add, <- drop_drop, drop_app_length. done.
Qed.

(** ** Bytes that need no care *)

Lemma nonce_no_comma l : forallb nonce_byte l = true -> no_comma l = true /\ ascii l = true.
Proof.
  intros H. rewrite forallb_forall in H. split; apply forallb_forall; intros b Hb; specialize (H b Hb);
    unfold nonce_byte in H; apply orb_true_iff in H; rewrite !in_range_iff in H.
  - apply negb_true_iff, bool_decide_eq_false. intros ->. change (byte_val ","%byte) with 44 in H. lia.
  - apply in_range_iff. lia.
Qed.

Lemma random_nonce_ok draws : drawn draws = true -> forallb nonce_byte (random_nonce draws) = true.
Proof.
  intros [_ H]%andb_true_iff. unfold random_nonce. rewrite forallb_forall in *. intros b Hb.
  apply in_map_iff in Hb as (d & <- & Hd). specialize (H d Hd). apply in_range_iff in H.
  destruct (decide (d = ","%byte)) as [->|Hne]; [done|]. unfold nonce_byte. apply orb_true_iff.
  rewrite !in_range_iff. assert (byte_val d <> 44) by (intros E; apply Hne, byte_val_inj; now rewrite E). lia.
Qed.

Lemma validate_nonce_ok nonce : validate_nonce nonce = Ok tt -> nonce <> [] /\ forallb nonce_byte nonce = true.
Proof.
  unfold validate_nonce. case_bool_decide; [done|]. cbn. destruct (forallb nonce_byte nonce); done.
Qed.

Lemma decimal_no_comma n : no_comma (decimal n) = true.
Proof.
  unfold decimal, NilZero.string_of_uint.
  assert (forall d, no_comma (list_byte_of_string (NilEmpty.string_of_uint d)) = true) as H
    by (induction d; [done|..]; cbn; exact IHd).
  destruct (N.to_uint (Z.to_N n)); [done|apply H..].
Qed.

Section Verifier.
Context `{K : Crypto} `{L : !CryptoLaws K}.

Lemma b64_safe l : no_comma (b64_encode l) = true /\ ascii (b64_encode l) = true.
Proof.
  pose proof (b64_alphabet l) as H. rewrite List.Forall_forall in H.
  split; apply forallb_forall; intros b Hb; destruct (H b Hb) as [Hr Hc].
  - now apply negb_true_iff, bool_decide_eq_false.
  - apply in_range_iff in Hr. apply in_range_iff. lia.
Qed.

(** The server-first message is one a client can read. *)
Definition first_of (server : ScramServer) (nonce : bytes) : bytes :=
  str "r=" ++ nonce ++ str ",s=" ++ b64_encode (salt server) ++ str ",i=" ++ decimal (iterations server).

Lemma first_readable server nonce : forallb nonce_byte nonce = true ->
  attributes (first_of server nonce) =
    Ok [("r"%byte, nonce); ("s"%byte, b64_encode (salt server)); ("i"%byte, decimal (iterations server))].
Proof.
  intros [Hn _]%nonce_no_comma.
  apply (attributes_render [("r"%byte, nonce); ("s"%byte, b64_encode (salt server)); ("i"%byte, decimal (iterations server))]);
    [done| |by apply (bool_decide_eq_true_1 _)].
  cbn [forallb]. unfold attribute_ok. cbn [fst snd].
  rewrite Hn, decimal_no_comma. destruct (b64_safe (salt server)) as [-> _]. done.
Qed.

Lemma start_honest server mechanism gs2 data username nonce draws :
  binding_mode mechanism (channel_binding server) gs2 data ->
  utf8 username = true -> no_comma username = true -> validate_nonce nonce = Ok tt ->
  let combined := nonce ++ random_nonce draws in
  start server mechanism (gs2 ++ first_bare username nonce) draws =
    Ok (mkScramExchange (hi (password server) (salt server) (iterations server)) (first_bare username nonce)
          (first_of server combined) combined (gs2 ++ data), first_of server combined).
Proof.
  intros Hm Hu Hc Hn combined. destruct (binding_mode_gs2 _ _ _ _ Hm) as (p & Hp & Hpc & Ha).
  destruct (validate_nonce_ok _ Hn) as [_ [Hnc' Hna]%nonce_no_comma].
  unfold start, from_utf8.
  assert (utf8 (gs2 ++ first_bare username nonce) = true) as ->.
  { rewrite utf8_app by now apply utf8_ascii. unfold first_bare.
    rewrite (utf8_app (str "n=")), utf8_app by done. rewrite (utf8_app (str ",r=")) by done. now apply utf8_ascii. }
  rewrite Hp, <- app_assoc, split_gs2_bare by done. rewrite <- Hp.
  assert (exists plus, mechanism = (if plus : bool then SCRAM_SHA_256_PLUS else SCRAM_SHA_256)) as [plus Hplus]
    by (destruct Hm; [now exists false..|now exists true]).
  assert ((if decide (mechanism = SCRAM_SHA_256) then Ok false
    else if decide (mechanism = SCRAM_SHA_256_PLUS) then Ok true
    else Err (invalid "unsupported SCRAM mechanism")) = Ok plus :> io bool) as -> by (subst mechanism; now destruct plus).
  assert (expected_binding server plus gs2 = Ok (gs2 ++ data)) as ->
    by (apply expected_binding_mode; exists data; now rewrite <- Hplus).
  assert (attributes (first_bare username nonce) = Ok [("n"%byte, username); ("r"%byte, nonce)]) as ->.
  { apply (attributes_render [("n"%byte, username); ("r"%byte, nonce)]); [done| |by apply (bool_decide_eq_true_1 _)].
    cbn [forallb]. unfold attribute_ok. cbn [fst snd]. now rewrite Hc, Hnc'. }
  set (attrs := [_; _]). change (reject_mandatory_extension attrs) with (@Ok unit io_error tt).
  change (required attrs "r"%byte) with (@Ok bytes io_error nonce).
  change (required attrs "n"%byte) with (@Ok bytes io_error username).
  cbv iota beta. now rewrite Hn.
Qed.

Lemma length_client_proof salted auth : length (client_proof salted auth) = 32%nat.
Proof. unfold client_proof, client_signature. now rewrite length_xor_bytes, !length_hmac. Qed.

Lemma recovered_key salted auth :
  xor_bytes (client_proof salted auth) (client_signature salted auth) = hmac salted (str "Client Key").
Proof. apply xor_bytes_cancel. unfold client_signature. now rewrite !length_hmac. Qed.

Lemma finish_honest ex gs2 data : forallb nonce_byte (combined_nonce ex) = true ->
  expected_channel_binding ex = gs2 ++ data ->
  let w := final_without_proof gs2 data (combined_nonce ex) in
  let auth := auth_message (client_first_bare ex) (server_first ex) w in
  finish ex (client_final w (client_proof (salted_password ex) auth)) =
    Ok (str "v=" ++ b64_encode (server_signature (salted_password ex) auth)).
Proof.
  intros Hn He w auth. set (proof := client_proof (salted_password ex) auth).
  destruct (nonce_no_comma _ Hn) as [Hnc Hna]. destruct (b64_safe (gs2 ++ data)) as [Hbc Hba].
  destruct (b64_safe proof) as [Hpc Hpa].
  assert (ascii w = true) as Hwa by (unfold w, final_without_proof; now rewrite !ascii_app, Hna, Hba).
  unfold finish, from_utf8.
  assert (utf8 (client_final w proof) = true) as ->.
  { apply utf8_ascii. unfold client_final. now rewrite !ascii_app, Hwa, Hpa. }
  assert (rfind (str ",p=") (client_final w proof) = Some (length w)) as ->.
  { apply (rfind_last ","%byte (str "p=") w). change (no_comma (str "p=" ++ b64_encode proof) = true).
    now rewrite no_comma_app, Hpc. }
  set (attrs := [("c"%byte, b64_encode (gs2 ++ data)); ("r"%byte, combined_nonce ex); ("p"%byte, b64_encode proof)]).
  assert (attributes (client_final w proof) = Ok attrs) as ->.
  { replace (client_final w proof) with (render attrs)
      by (unfold client_final, w, final_without_proof; cbn; now rewrite <- !app_assoc).
    apply attributes_render; [done| |by apply (bool_decide_eq_true_1 _)].
    unfold attrs, attribute_ok. cbn [forallb fst snd]. now rewrite Hbc, Hnc, Hpc. }
  change (reject_mandatory_extension attrs) with (@Ok unit io_error tt).
  change (required attrs "r"%byte) with (@Ok bytes io_error (combined_nonce ex)).
  change (required attrs "c"%byte) with (@Ok bytes io_error (b64_encode (gs2 ++ data))).
  change (required attrs "p"%byte) with (@Ok bytes io_error (b64_encode proof)).
  cbv iota beta. rewrite bool_decide_eq_true_2 by done. cbn [negb].
  rewrite b64_decode_encode, bool_decide_eq_true_2 by done. cbn [negb].
  replace (Z.of_nat (length w) + 3 + len (b64_encode proof) =? len (client_final w proof)) with true
    by (symmetry; apply Z.eqb_eq; unfold len, client_final; rewrite !length_app; cbn; lia).
  cbn [negb]. rewrite b64_decode_encode. unfold len.
  rewrite (length_client_proof (salted_password ex) auth : length proof = 32%nat).
  change (negb (Z.of_nat 32 =? 32)) with false. cbv iota zeta.
  replace (take (length w) (client_final w proof)) with w by (unfold client_final; now rewrite take_app_length).
  fold (auth_message (client_first_bare ex) (server_first ex) w). fold auth.
  fold (client_signature (salted_password ex) auth).
  unfold proof. rewrite recovered_key, bool_decide_eq_true_2 by done. done.
Qed.
End Verifier.

(** ** Inversion *)

Lemma split_on_app b x y : split_on b (x ++ b :: y) = split_on b x ++ split_on b y.
Proof.
  induction x as [|a x IH]; cbn; [now rewrite decide_True|].
  destruct (decide (a = b)); [now rewrite IH|]. rewrite IH.
  destruct (split_on b x) eqn:E; [now apply split_on_nonempty in E|done].
Qed.

Lemma split_on_head b l h t : split_on b l = h :: t -> h = l \/ exists r, l = h ++ b :: r.
Proof.
  revert h t. induction l as [|a l IH]; intros h t; cbn; [intros [= <- <-]; now left|].
  destruct (decide (a = b)) as [->|]; [intros [= <- <-]; right; now exists l|].
  destruct (split_on b l) as [|part parts] eqn:E; [now apply split_on_nonempty in E|].
  intros [= <- <-]. destruct (IH part parts eq_refl) as [->|[r ->]]; [now left|right; now exists r].
Qed.

Lemma attributes_loop_inv parts : forall out attrs, attributes_loop parts out = Ok attrs ->
  NoDup (map fst out) ->
  exists l, attrs = out ++ l /\ map render_attribute l = parts /\ NoDup (map fst attrs).
Proof.
  induction parts as [|part parts IH]; intros out attrs; cbn [attributes_loop].
  { intros [= <-] Hd. exists []. now rewrite app_nil_r. }
  destruct part as [|b0 [|b1 value]]; [done..|].
  destruct (negb _ || _) eqn:E1; [done|]. apply orb_false_iff in E1 as [E1 _].
  apply negb_false_iff, bool_decide_eq_true in E1 as ->.
  destruct (existsb _ out) eqn:E2; [done|]. intros H Hd. apply IH in H as (l & -> & <- & Hd').
  - exists ((b0, value) :: l). rewrite <- app_assoc in *. done.
  - rewrite map_app. apply NoDup_app. split_and!; [done| |by apply NoDup_singleton].
    intros x Hx Hs. apply list_elem_of_singleton in Hs as ->. cbn in Hx.
    apply list_elem_of_In, in_map_iff in Hx as ([n v] & <- & Hin).
    apply not_true_iff_false in E2. apply E2, existsb_exists. exists (n, v).
    split; [done|now apply bool_decide_eq_true].
Qed.

Lemma find_app_cons (name : byte) (l1 : list (byte * bytes)) v l2 : NoDup (map fst (l1 ++ (name, v) :: l2)) ->
  List.find (fun a => bool_decide (a.1 = name)) (l1 ++ (name, v) :: l2) = Some (name, v).
Proof.
  induction l1 as [|[n w] l1 IH]; cbn; [now rewrite bool_decide_eq_true_2|].
  intros [Hn Hd]%NoDup_cons. rewrite bool_decide_eq_false_2; [auto|].
  intros ->. apply Hn, list_elem_of_In, in_map_iff. exists (name, v). split; [done|]. apply in_or_app. now right; left.
Qed.

(** The proof attribute is the text after the last [",p="], when its length says so. *)
Lemma proof_attribute w d attrs value : attributes (w ++ str ",p=" ++ d) = Ok attrs ->
  required attrs "p"%byte = Ok value -> length value = length d -> value = d.
Proof.
  intros Ha Hr Hl. apply attributes_loop_inv in Ha as (l & -> & Hm & Hd); [|constructor].
  change (w ++ str ",p=" ++ d) with (w ++ ","%byte :: (str "p=" ++ d)) in Hm. rewrite split_on_app in Hm.
  cbn [str list_byte_of_string app] in Hm. change (str "p=" ++ d) with ("p"%byte :: "="%byte :: d) in Hm.
  cbn [split_on] in Hm. rewrite !decide_False in Hm by done.
  destruct (split_on ","%byte d) as [|h t] eqn:Eh; [now apply split_on_nonempty in Eh|].
  apply map_eq_app in Hm as (l1 & l2 & -> & Hm1 & Hm2). destruct l2 as [|[n v] l2]; [done|].
  injection Hm2 as -> -> Hm2. cbn [app] in Hr, Hd. unfold required in Hr.
  rewrite find_app_cons in Hr by done. injection Hr as <-. cbn [snd] in Hl.
  destruct (split_on_head _ _ _ _ Eh) as [->|[r ->]]; [done|]. rewrite length_app in Hl. cbn in Hl. lia.
Qed.

Lemma split_gs2_inv m a b : split_gs2 m = Ok (a, b) -> m = a ++ b.
Proof.
  unfold split_gs2. destruct (find_byte _ m); [|done]. destruct (find_byte _ (drop _ m)); [|done].
  intros [= <- <-]. now rewrite take_drop.
Qed.

Lemma start_inv `{K : Crypto} server mechanism client_first draws ex first :
  start server mechanism client_first draws = Ok (ex, first) ->
  exists gs2 data bare attrs nonce, client_first = gs2 ++ bare /\
    binding_mode mechanism (channel_binding server) gs2 data /\
    attributes bare = Ok attrs /\ required attrs "r"%byte = Ok nonce /\ validate_nonce nonce = Ok tt /\
    reject_mandatory_extension attrs = Ok tt /\ first = first_of server (nonce ++ random_nonce draws) /\
    ex = mkScramExchange (hi (password server) (salt server) (iterations server)) bare first
           (nonce ++ random_nonce draws) (gs2 ++ data).
Proof.
  unfold start, from_utf8. destruct (utf8 client_first); [|done].
  destruct (split_gs2 client_first) as [[gs2 bare]| |] eqn:Eg; [|done..]. apply split_gs2_inv in Eg as ->.
  set (mode := if decide (mechanism = SCRAM_SHA_256) then _ else _).
  destruct mode as [plus| |] eqn:Em; [|done..].
  assert (mechanism = if plus then SCRAM_SHA_256_PLUS else SCRAM_SHA_256) as Hplus
    by (unfold mode in Em; repeat case_decide; simplify_eq; done).
  destruct (expected_binding server plus gs2) as [e| |] eqn:Ee; [|done..].
  apply expected_binding_mode in Ee as (data & -> & Hb). rewrite <- Hplus in Hb.
  destruct (attributes bare) as [attrs| |] eqn:Ea; [|done..].
  destruct (reject_mandatory_extension attrs) as [[]| |] eqn:Ex; [|done..].
  destruct (required attrs "r"%byte) as [nonce| |] eqn:Er; [|done..].
  destruct (validate_nonce nonce) as [[]| |] eqn:Ev; [|done..].
  destruct (required attrs "n"%byte); [|done..]. intros [= <- <-].
  exists gs2, data, bare, attrs, nonce. split_and!; done.
Qed.

Lemma finish_inv `{K : Crypto} ex final answer : finish ex final = Ok answer ->
  exists w attrs encoded_binding encoded_proof proof,
    let auth := auth_message (client_first_bare ex) (server_first ex) w in
    let client_key := hmac (salted_password ex) (str "Client Key") in
    final = w ++ str ",p=" ++ encoded_proof /\ attributes final = Ok attrs /\
    reject_mandatory_extension attrs = Ok tt /\ required attrs "r"%byte = Ok (combined_nonce ex) /\
    required attrs "c"%byte = Ok encoded_binding /\ b64_decode encoded_binding = Some (expected_channel_binding ex) /\
    b64_decode encoded_proof = Some proof /\ length proof = 32%nat /\
    sha256 (xor_bytes proof (client_signature (salted_password ex) auth)) = sha256 client_key /\
    answer = str "v=" ++ b64_encode (server_signature (salted_password ex) auth).
Proof.
  unfold finish, from_utf8. destruct (utf8 final); [|done].
  destruct (rfind (str ",p=") final) as [i|] eqn:Ei; [|done]. apply rfind_inv in Ei as Hf.
  destruct (attributes final) as [attrs| |] eqn:Ea; [|done..].
  destruct (reject_mandatory_extension attrs) as [[]| |] eqn:Ex; [|done..].
  destruct (required attrs "r"%byte) as [nonce| |] eqn:Er; [|done..].
  case_bool_decide as Hn; [cbn [negb]; subst nonce|done].
  destruct (required attrs "c"%byte) as [eb| |] eqn:Ec; [|done..].
  destruct (b64_decode eb) as [binding|] eqn:Eb; [|done].
  case_bool_decide as Hb; [cbn [negb]; subst binding|done].
  destruct (required attrs "p"%byte) as [ep| |] eqn:Ep; [|done..].
  destruct (Z.eqb_spec (Z.of_nat i + 3 + len ep) (len final)) as [Hlen|]; [cbn [negb]|done].
  destruct (b64_decode ep) as [proof|] eqn:Epr; [|done].
  destruct (Z.eqb_spec (len proof) 32) as [Hp|]; [cbn [negb]|done]. cbv zeta.
  case_bool_decide as Hk; [cbn [negb]|done]. intros [= <-].
  assert (ep = drop (i + 3) final) as Hep.
  { rewrite Hf in Ea. apply (proof_attribute _ _ _ _ Ea Ep).
    unfold len in Hlen. rewrite length_drop. change (length (str ",p=")) with 3%nat. lia. }
  exists (take i final), attrs, eb, ep, proof. split_and!; try done; [now rewrite Hep|unfold len in Hp; lia].
Qed.

(** ** Properties *)

(** C20: The verifier accepts the client of RFC 5802: for every password, salt,
    iteration count, nonces, user name without a comma and every allowed
    combination of mechanism and channel binding, the exchange starts, the
    challenge parses into the nonce, salt and iteration count the client needs,
    and the client-final message of a client with that password is answered with
    the server signature that client expects; the salted password is PBKDF2 of
    the password. *)
Theorem scram_accepts_client `{K : Crypto} `{!CryptoLaws K} server mechanism gs2 data username nonce draws :
  binding_mode mechanism (channel_binding server) gs2 data ->
  utf8 username = true -> no_comma username = true -> validate_nonce nonce = Ok tt -> drawn draws = true ->
  exists ex first,
    let bare := first_bare username nonce in
    let combined := nonce ++ random_nonce draws in
    let salted := pbkdf2 (password server) (salt server) (Z.to_nat (iterations server)) in
    let w := final_without_proof gs2 data combined in
    let auth := auth_message bare first w in
    start server mechanism (gs2 ++ bare) draws = Ok (ex, first) /\
    attributes first = Ok [("r"%byte, combined); ("s"%byte, b64_encode (salt server));
                           ("i"%byte, decimal (iterations server))] /\
    finish ex (client_final w (client_proof salted auth)) = Ok (str "v=" ++ b64_encode (server_signature salted auth)).
Proof.
  intros Hm Hu Hc Hn Hd. eexists _, _. cbv zeta. rewrite <- hi_pbkdf2.
  assert (forallb nonce_byte (nonce ++ random_nonce draws) = true) as Hcn.
  { rewrite forallb_app, random_nonce_ok by done. apply validate_nonce_ok in Hn as [_ ->]. done. }
  split; [eapply start_honest; eassumption|]. split; [now apply first_readable|].
  apply (finish_honest (mkScramExchange _ _ _ _ _) gs2 data); done.
Qed.

(** C21: What the verifier accepts. A first message is accepted only under an allowed
    combination of mechanism, gs2 header and channel binding, so never with a
    binding the server has and the client says it lacks; its nonce attribute [r] is a
    well-formed nonce. The challenge carries that client nonce extended by the
    server's random nonce, and a final message is accepted only if its own [r] is
    exactly this combination, if neither message has a mandatory extension, if its
    channel binding is that header and that binding, if the proof is its last
    attribute, and if the proof is the one computed from the salted password over
    the exact messages exchanged, short of a second preimage of the stored key under
    SHA-256. *)
Theorem scram_accepts_only `{K : Crypto} `{!CryptoLaws K} server mechanism client_first draws ex first final answer :
  start server mechanism client_first draws = Ok (ex, first) -> finish ex final = Ok answer ->
  exists gs2 data bare first_attrs client_nonce w attrs encoded_binding encoded_proof proof,
    let salted := hi (password server) (salt server) (iterations server) in
    let client_key := hmac salted (str "Client Key") in
    let combined := client_nonce ++ random_nonce draws in
    let auth := auth_message bare first w in
    client_first = gs2 ++ bare /\ binding_mode mechanism (channel_binding server) gs2 data /\
    attributes bare = Ok first_attrs /\ required first_attrs "r"%byte = Ok client_nonce /\
    validate_nonce client_nonce = Ok tt /\ reject_mandatory_extension first_attrs = Ok tt /\
    first = first_of server combined /\
    final = w ++ str ",p=" ++ encoded_proof /\ attributes final = Ok attrs /\
    reject_mandatory_extension attrs = Ok tt /\ required attrs "r"%byte = Ok combined /\
    required attrs "c"%byte = Ok encoded_binding /\ b64_decode encoded_binding = Some (gs2 ++ data) /\
    b64_decode encoded_proof = Some proof /\
    (proof = client_proof salted auth \/
     let other := xor_bytes proof (client_signature salted auth) in
     other <> client_key /\ sha256 other = sha256 client_key) /\
    answer = str "v=" ++ b64_encode (server_signature salted auth).
Proof.
  intros Hs Hf.
  destruct (start_inv _ _ _ _ _ _ Hs) as (gs2 & data & bare & fattrs & nonce & Hc & Hm & S1 & S2 & S3 & S4 & S5 & ->).
  destruct (finish_inv _ _ _ Hf) as (w & attrs & eb & ep & proof & H1 & H2 & Hx & H3 & H4 & H5 & H6 & H7 & H8 & H9).
  cbn [salted_password client_first_bare server_first combined_nonce expected_channel_binding] in *.
  exists gs2, data, bare, fattrs, nonce, w, attrs, eb, ep, proof. cbv zeta. split_and!; try done.
  set (salted := hi _ _ _) in *. set (auth := auth_message bare first w) in *.
  destruct (decide (xor_bytes proof (client_signature salted auth) = hmac salted (str "Client Key"))) as [E|E];
    [left|now right].
  unfold client_proof. rewrite <- E, xor_bytes_cancel; [done|].
  unfold client_signature. now rewrite length_hmac.
Qed.

(** *** A model of the interface *)

Module Model.
Definition pad32 (l : bytes) : bytes := take 32 (l ++ replicate 32 x00).

Definition hex_digit (n : Z) : byte := byte_of (if n <? 10 then 48 + n else 87 + n).
Definition hex_value (b : byte) : Z := if byte_val b <? 58 then byte_val b - 48 else byte_val b - 87.

Definition hex_byte (b : byte) : bytes := [hex_digit (byte_val b / 16); hex_digit (byte_val b mod 16)].

Fixpoint unhex (l : bytes) : option bytes :=
  match l with
  | [] => Some []
  | [_] => None
  | a :: b :: l => cons (byte_of (16 * hex_value a + hex_value b)) <$> unhex l
  end.

#[local] Instance crypto : Crypto := {|
  sha256 := pad32;
  hmac k l := pad32 (l ++ k);
  b64_encode := flat_map hex_byte;
  b64_decode := unhex;
  saslprep := Some;
  md5_hash u p s := u ++ p ++ s
|}.

Lemma length_pad32 l : length (pad32 l) = 32%nat.
Proof. unfold pad32. rewrite length_take, length_app, length_replicate. lia. Qed.

Lemma unhex_byte b l : unhex (hex_byte b ++ l) = cons b <$> unhex l.
Proof. now destruct b. Qed.

#[local] Instance laws : CryptoLaws crypto.
Proof.
  split; cbn [sha256 hmac b64_encode b64_decode crypto].
  - apply length_pad32.
  - intros. apply length_pad32.
  - induction l as [|b l IH]; [done|]. cbn [flat_map]. now rewrite unhex_byte, IH.
  - induction l as [|b l IH]; [constructor|]. cbn [flat_map hex_byte app].
    repeat constructor; try exact IH; destruct b; done.
Qed.

Definition server : ScramServer :=
  mkScramServer (str "pencil") (str "salt") 4096 (TlsServerEndPoint (str "cert")).
Definition draws : list byte := replicate 24 ","%byte.
End Model.

Lemma scram_accepts_client_witness :
  let server := Model.server in
  exists ex first,
    let bare := first_bare (str "user") (str "abc") in
    let combined := str "abc" ++ random_nonce Model.draws in
    let salted := @pbkdf2 Model.crypto (password server) (salt server) (Z.to_nat (iterations server)) in
    let w := @final_without_proof Model.crypto (str "p=tls-server-end-point,,") (str "cert") combined in
    let auth := auth_message bare first w in
    @start Model.crypto server SCRAM_SHA_256_PLUS (str "p=tls-server-end-point,," ++ bare) Model.draws = Ok (ex, first) /\
    attributes first = Ok [("r"%byte, combined); ("s"%byte, Model.crypto.(b64_encode) (salt server));
                           ("i"%byte, decimal (iterations server))] /\
    @finish Model.crypto ex (@client_final Model.crypto w (@client_proof Model.crypto salted auth)) =
      Ok (str "v=" ++ Model.crypto.(b64_encode) (@server_signature Model.crypto salted auth)).
Proof.
  intros server.
  apply (@scram_accepts_client Model.crypto Model.laws server SCRAM_SHA_256_PLUS (str "p=tls-server-end-point,,")
    (str "cert") (str "user") (str "abc") Model.draws); [constructor|reflexivity..].
Defined.

Lemma scram_accepts_only_witness :
  exists gs2 data bare client_nonce, str "n,,n=user,r=abc" = gs2 ++ bare /\
    binding_mode SCRAM_SHA_256 (channel_binding Model.server) gs2 data /\
    @first_of Model.crypto Model.server (str "abc" ++ random_nonce Model.draws)
      = @first_of Model.crypto Model.server (client_nonce ++ random_nonce Model.draws).
Proof.
  pose (server := Model.server).
  pose (bare := first_bare (str "user") (str "abc")).
  pose (combined := str "abc" ++ random_nonce Model.draws).
  pose (first := @first_of Model.crypto server combined).
  pose (salted := @hi Model.crypto (password server) (salt server) (iterations server)).
  pose (w := @final_without_proof Model.crypto (str "n,,") [] combined).
  pose (auth := auth_message bare first w).
  destruct (@scram_accepts_only Model.crypto Model.laws server SCRAM_SHA_256 (str "n,,n=user,r=abc") Model.draws
    (mkScramExchange salted bare first combined (str "n,,")) first
    (@client_final Model.crypto w (@client_proof Model.crypto salted auth))
    (str "v=" ++ Model.crypto.(b64_encode) (@server_signature Model.crypto salted auth)))
    as (gs2 & data & bare' & _ & nonce & _ & _ & _ & _ & _ & H1 & H2 & _ & _ & _ & _ & H3 & _); [vm_compute; reflexivity..|].
  now exists gs2, data, bare', nonce.
Defined.
