(* ===== verification/Auth.v ===== *)
(** The authentication typestates of both roles: src/auth.rs and
    src/server_auth.rs. *)

From Stdlib Require Import ZArith Lia String.
From Stdlib Require Import Init.Byte.
From stdpp Require Import prelude.
From S2P Require Import Prelude OrdMap Wire Frame Frontend Startup Backend Replication Demux Fsm Grammar Resources PreStartup Session ServerSession.

Local Open Scope string_scope.
Local Open Scope Z_scope.
Local Open Scope list_scope.

(** ** The client: src/auth.rs *)

Module AuthPhase.
Inductive t : Type :=
| Auth | PasswordResponse | SaslInitial | Sasl | SaslChallenge | SaslFinal | TokenResponse | TokenChallenge
| AwaitingAuthOk | AwaitingStartupReady.
End AuthPhase.
Module AP := AuthPhase.

(** The connection keeps its default cleanliness [Pristine] throughout. *)
Abbreviation AuthConn S P := (Conn S P Pristine).

Section Offers.
Context (S : Type).

Inductive AuthOffer : Type :=
| Auth_Ok (conn : AuthConn S AP.AwaitingStartupReady)
| Auth_Cleartext (conn : AuthConn S AP.PasswordResponse)
| Auth_Md5 (conn : AuthConn S AP.PasswordResponse) (salt : bytes)
| Auth_Sasl (conn : AuthConn S AP.SaslInitial) (mechanisms : list bytes)
| Auth_Gss (conn : AuthConn S AP.TokenResponse)
| Auth_Sspi (conn : AuthConn S AP.TokenResponse)
| Auth_KerberosV5 (conn : AuthConn S AP.TokenResponse).

Inductive AuthEvent : Type :=
| Event_Authentication (offer : AuthOffer)
| Event_Negotiate (conn : AuthConn S AP.Auth) (message : NegotiateProtocolVersion)
| Event_Error (conn : AuthConn S Phase.Terminated) (error : DiagnosticResponse).

Inductive SaslEvent : Type :=
| Sasl_Continue (conn : AuthConn S AP.SaslChallenge) (challenge : bytes)
| Sasl_Final (conn : AuthConn S AP.SaslFinal) (server_final : bytes)
| Sasl_Error (conn : AuthConn S Phase.Terminated) (error : DiagnosticResponse).

Inductive AuthCompletion : Type :=
| Completion_Ok (conn : AuthConn S AP.AwaitingStartupReady)
| Completion_Error (conn : AuthConn S Phase.Terminated) (error : DiagnosticResponse).

Inductive TokenAuthEvent : Type :=
| Token_Continue (conn : AuthConn S AP.TokenResponse) (token : bytes)
| Token_Ok (conn : AuthConn S AP.AwaitingStartupReady)
| Token_Error (conn : AuthConn S Phase.Terminated) (error : DiagnosticResponse).
End Offers.
Arguments Auth_Ok {S}. Arguments Auth_Cleartext {S}. Arguments Auth_Md5 {S}. Arguments Auth_Sasl {S}.
Arguments Auth_Gss {S}. Arguments Auth_Sspi {S}. Arguments Auth_KerberosV5 {S}.
Arguments Event_Authentication {S}. Arguments Event_Negotiate {S}. Arguments Event_Error {S}.
Arguments Sasl_Continue {S}. Arguments Sasl_Final {S}. Arguments Sasl_Error {S}.
Arguments Completion_Ok {S}. Arguments Completion_Error {S}.
Arguments Token_Continue {S}. Arguments Token_Ok {S}. Arguments Token_Error {S}.

Definition project_authentication (state : string) (authentication_ : Authentication) : option string :=
  project_external authentication state (B_Authentication authentication_).

Definition continuation_early : io_error := invalid "authentication continuation before mechanism selection".

Section Client.
Context {S : Type}.

Definition begin_authentication (c : Conn S Phase.Startup Pristine) : AuthConn S AP.Auth := transition c.

Definition auth_offer (c : AuthConn S AP.Auth) (authentication_ : Authentication) : io (AuthOffer S) :=
  match project_authentication "Auth" authentication_, authentication_ with
  | Some "Ok", A_Ok => Ok (Auth_Ok (transition c))
  | Some "Cleartext", A_CleartextPassword => Ok (Auth_Cleartext (transition c))
  | Some "Md5", A_Md5Password salt => Ok (Auth_Md5 (transition c) salt)
  | Some "Sasl", A_Sasl mechanisms => Ok (Auth_Sasl (transition c) mechanisms)
  | Some "Gss", A_Gss => Ok (Auth_Gss (transition c))
  | Some "Sspi", A_Sspi => Ok (Auth_Sspi (transition c))
  | Some "KerberosV5", A_KerberosV5 => Ok (Auth_KerberosV5 (transition c))
  | _, _ => Err continuation_early
  end.

(** [expect] is [Panic]. *)
Definition auth_offer_backend (c : AuthConn S AP.Auth) (message : BackendMessage)
    : result (AuthEvent S) (AuthConn S AP.Auth * BackendMessage * option io_error) :=
  match message with
  | B_Authentication ((A_GssContinue _ | A_SaslContinue _ | A_SaslFinal _) as authentication_) =>
      Err (c, B_Authentication authentication_, Some continuation_early)
  | B_Authentication authentication_ =>
      match auth_offer c authentication_ with
      | Ok offer => Ok (Event_Authentication offer)
      | _ => Panic
      end
  | B_NegotiateProtocolVersion message => Ok (Event_Negotiate c message)
  | B_ErrorResponse error => Ok (Event_Error (transition c) error)
  | message => Err (c, message, None)
  end.

Definition token_respond (c : AuthConn S AP.TokenResponse) (token : bytes) : AuthConn S AP.TokenChallenge * Frame :=
  (transition c, mkFrame "p"%byte token).

Definition token_offer (c : AuthConn S AP.TokenChallenge) (message : BackendMessage)
    : result (TokenAuthEvent S) (AuthConn S AP.TokenChallenge * BackendMessage) :=
  match project_external authentication "TokenChallenge" message, message with
  | Some "Continue", B_Authentication (A_GssContinue token) => Ok (Token_Continue (transition c) token)
  | Some "Ok", B_Authentication A_Ok => Ok (Token_Ok (transition c))
  | Some "Error", B_ErrorResponse error => Ok (Token_Error (transition c) error)
  | _, message => Err (c, message)
  end.

Definition password (c : AuthConn S AP.PasswordResponse) (password : bytes)
    : io (AuthConn S AP.AwaitingAuthOk * Frame) :=
  if decide (x00 ∈ password) then Err (mkError InvalidInput "password response contains a NUL byte")
  else Ok (transition c, mkFrame "p"%byte (password ++ [x00])).

Definition client_sasl_initial (c : AuthConn S AP.SaslInitial) (mechanism initial : bytes)
    : io (AuthConn S AP.Sasl * Frame) :=
  if I32_MAX <? len initial then Err (mkError InvalidInput "SASL response too large")
  else Ok (transition c, mkFrame "p"%byte (put_i32 (len initial) (mechanism ++ [x00]) ++ initial)).

Definition sasl (c : AuthConn S AP.SaslInitial) (mechanism initial : bytes) : io (AuthConn S AP.Sasl * Frame) :=
  client_sasl_initial c mechanism initial.
Definition scram_sha_256 (c : AuthConn S AP.SaslInitial) (initial : bytes) : io (AuthConn S AP.Sasl * Frame) :=
  client_sasl_initial c (list_byte_of_string "SCRAM-SHA-256") initial.
Definition scram_sha_256_plus (c : AuthConn S AP.SaslInitial) (initial : bytes) : io (AuthConn S AP.Sasl * Frame) :=
  client_sasl_initial c (list_byte_of_string "SCRAM-SHA-256-PLUS") initial.

Definition sasl_offer (c : AuthConn S AP.Sasl) (authentication_ : Authentication)
    : result (SaslEvent S) (AuthConn S AP.Sasl * Authentication) :=
  match project_authentication "Sasl" authentication_, authentication_ with
  | Some "Continue", A_SaslContinue challenge => Ok (Sasl_Continue (transition c) challenge)
  | Some "Final", A_SaslFinal server_final => Ok (Sasl_Final (transition c) server_final)
  | _, authentication_ => Err (c, authentication_)
  end.

Definition sasl_offer_backend (c : AuthConn S AP.Sasl) (message : BackendMessage)
    : result (SaslEvent S) (AuthConn S AP.Sasl * BackendMessage) :=
  match message with
  | B_Authentication authentication_ =>
      map_err (fun e => (e.1, B_Authentication e.2)) (sasl_offer c authentication_)
  | B_ErrorResponse error => Ok (Sasl_Error (transition c) error)
  | message => Err (c, message)
  end.

Definition sasl_respond (c : AuthConn S AP.SaslChallenge) (response : bytes) : AuthConn S AP.Sasl * Frame :=
  (transition c, mkFrame "p"%byte response).

Definition sasl_verified (c : AuthConn S AP.SaslFinal) : AuthConn S AP.AwaitingAuthOk := transition c.

Definition completion_offer (c : AuthConn S AP.AwaitingAuthOk) (message : BackendMessage)
    : result (AuthCompletion S) (AuthConn S AP.AwaitingAuthOk * BackendMessage) :=
  match project_external authentication "AwaitingAuthOk" message, message with
  | Some "Ok", B_Authentication A_Ok => Ok (Completion_Ok (transition c))
  | Some "Error", B_ErrorResponse error => Ok (Completion_Error (transition c) error)
  | _, message => Err (c, message)
  end.

Definition offer_ready (c : AuthConn S AP.AwaitingStartupReady) (item : SessionItem)
    : result (AuthConn S SP.Ready) (AuthConn S AP.AwaitingStartupReady * SessionItem) :=
  match item with
  | Item_ReadyForQuery Idle false => Ok (transition c)
  | item => Err (c, item)
  end.
End Client.

(** ** The server: src/server_auth.rs *)

Module ServerAuthPhase.
Inductive t : Type :=
| ServerAuth | ServerStartupValidated | ServerStartupRejected | ServerPassword | ServerSaslInitial | ServerSasl
| ServerSaslResponse | ServerAuthResponse | ServerAuthPolicy | ServerStartupReady.
End ServerAuthPhase.
Module SAP := ServerAuthPhase.

Inductive ServerProtocolOffer (S : Type) (C : Cleanliness) : Type :=
| Supported (conn : Conn S SAP.ServerStartupValidated C) (message : StartupMessage) (negotiate_to : option ProtocolVersion)
| ProtocolRejected (conn : Conn S SAP.ServerStartupRejected C) (message : StartupMessage).
Arguments Supported {S C}. Arguments ProtocolRejected {S C}.

Record SaslInitialResponse : Type := mkSaslInitial { mechanism : bytes; response : option bytes }.

Definition authentication_frame (a : Authentication) : io Frame := BackendMessage_to_frame (B_Authentication a).

Definition password_body (body : bytes) : result bytes bytes :=
  if bool_decide (last body = Some x00) && negb (bool_decide (x00 ∈ removelast body)) then Ok (removelast body)
  else Err body.

Fixpoint position_nul (l : bytes) : option nat :=
  match l with [] => None | b :: l => if decide (b = x00) then Some 0%nat else Nat.succ <$> position_nul l end.

Definition sasl_initial (body : bytes) : result SaslInitialResponse bytes :=
  match position_nul body with
  | None => Err body
  | Some nul =>
      let mechanism := take nul body in
      let rest := drop (nul + 1) body in
      if len rest <? 4 then Err body else
      let length := to_signed 32 (be_value (take 4 rest)) in
      let rest := drop 4 rest in
      if (length =? -1) && bool_decide (rest = []) then Ok (mkSaslInitial mechanism None)
      else if length <? 0 then Err body
      else if negb (len rest =? length) then Err body
      else Ok (mkSaslInitial mechanism (Some rest))
  end.

Section Server.
Context {S : Type} {C : Cleanliness}.

Definition validate_protocol (c : Conn S Phase.Startup C) (message : StartupMessage) (newest : ProtocolVersion)
    : ServerProtocolOffer S C :=
  if major (version message) =? major newest then
    Supported (transition c) message (if minor newest <? minor (version message) then Some newest else None)
  else ProtocolRejected (transition c) message.

Definition begin_server_auth (c : Conn S SAP.ServerStartupValidated C) : Conn S SAP.ServerAuth C := transition c.

Definition rejected_error (c : Conn S SAP.ServerStartupRejected C) (response : DiagnosticResponse)
    : io (Conn S Phase.Terminated C * Frame) :=
  let? frame := BackendMessage_to_frame (B_ErrorResponse response) in Ok (transition c, frame).

(** On an encoding failure the transport is taken out and dropped. *)
Definition transition_with_frame {P Q : SAP.t} (c : Conn S P C) (frame : io Frame) : io (Conn S Q C * Frame) :=
  match frame with
  | Ok frame => Ok (transition c, frame)
  | Err error => let? _ := into_transport c in Err error
  | Panic => Panic
  end.

Definition request_cleartext (c : Conn S SAP.ServerAuth C) : io (Conn S SAP.ServerPassword C * Frame) :=
  transition_with_frame c (authentication_frame A_CleartextPassword).
Definition request_md5 (c : Conn S SAP.ServerAuth C) (salt : bytes) : io (Conn S SAP.ServerPassword C * Frame) :=
  transition_with_frame c (authentication_frame (A_Md5Password salt)).
Definition request_sasl (c : Conn S SAP.ServerAuth C) (mechanisms : list bytes)
    : io (Conn S SAP.ServerSaslInitial C * Frame) :=
  transition_with_frame c (authentication_frame (A_Sasl mechanisms)).
Definition request_kerberos_v5 (c : Conn S SAP.ServerAuth C) : io (Conn S SAP.ServerAuthResponse C * Frame) :=
  transition_with_frame c (authentication_frame A_KerberosV5).
Definition request_gss (c : Conn S SAP.ServerAuth C) : io (Conn S SAP.ServerAuthResponse C * Frame) :=
  transition_with_frame c (authentication_frame A_Gss).
Definition request_sspi (c : Conn S SAP.ServerAuth C) : io (Conn S SAP.ServerAuthResponse C * Frame) :=
  transition_with_frame c (authentication_frame A_Sspi).
Definition authentication_ok (c : Conn S SAP.ServerAuth C) : io (Conn S SAP.ServerStartupReady C * Frame) :=
  transition_with_frame c (authentication_frame A_Ok).

Definition receive_password (c : Conn S SAP.ServerPassword C) (message : FrontendMessage)
    : result (Conn S SAP.ServerAuth C * bytes) (Conn S SAP.ServerPassword C * FrontendMessage) :=
  match project_external server_authentication "PasswordResponse" message, message with
  | Some "Response", F_PasswordResponse body =>
      match password_body body with
      | Ok password => Ok (transition c, password)
      | Err body => Err (c, F_PasswordResponse body)
      | Panic => Panic
      end
  | _, other => Err (c, other)
  end.

Definition receive_initial (c : Conn S SAP.ServerSaslInitial C) (message : FrontendMessage)
    : result (Conn S SAP.ServerSasl C * SaslInitialResponse) (Conn S SAP.ServerSaslInitial C * FrontendMessage) :=
  match project_external server_authentication "SaslInitial" message, message with
  | Some "Initial", F_PasswordResponse body =>
      match sasl_initial body with
      | Ok initial => Ok (transition c, initial)
      | Err body => Err (c, F_PasswordResponse body)
      | Panic => Panic
      end
  | _, other => Err (c, other)
  end.

Definition continue_with (c : Conn S SAP.ServerSasl C) (challenge : bytes) : io (Conn S SAP.ServerSaslResponse C * Frame) :=
  transition_with_frame c (authentication_frame (A_SaslContinue challenge)).
Definition sasl_finish (c : Conn S SAP.ServerSasl C) (server_final : bytes) : io (Conn S SAP.ServerAuth C * Frame) :=
  transition_with_frame c (authentication_frame (A_SaslFinal server_final)).

Definition receive_sasl_response (c : Conn S SAP.ServerSaslResponse C) (message : FrontendMessage)
    : result (Conn S SAP.ServerSasl C * bytes) (Conn S SAP.ServerSaslResponse C * FrontendMessage) :=
  match project_external server_authentication "SaslResponse" message, message with
  | Some "Response", F_PasswordResponse response => Ok (transition c, response)
  | _, other => Err (c, other)
  end.

Definition receive_token_response (c : Conn S SAP.ServerAuthResponse C) (message : FrontendMessage)
    : result (Conn S SAP.ServerAuthPolicy C * bytes) (Conn S SAP.ServerAuthResponse C * FrontendMessage) :=
  match project_external server_authentication "TokenResponse" message, message with
  | Some "Response", F_PasswordResponse response => Ok (transition c, response)
  | _, other => Err (c, other)
  end.

Definition continue_gss (c : Conn S SAP.ServerAuthPolicy C) (token : bytes) : io (Conn S SAP.ServerAuthResponse C * Frame) :=
  transition_with_frame c (authentication_frame (A_GssContinue token)).
Definition token_verified (c : Conn S SAP.ServerAuthPolicy C) : Conn S SAP.ServerAuth C := transition c.

Definition startup_parameter_status (c : Conn S SAP.ServerStartupReady C) (name value : bytes)
    : io (Conn S SAP.ServerStartupReady C * Frame) :=
  let? frame := BackendMessage_to_frame (B_ParameterStatus name value) in Ok (c, frame).
Definition startup_backend_key_data (c : Conn S SAP.ServerStartupReady C) (process_id : Z) (secret_key : bytes)
    : io (Conn S SAP.ServerStartupReady C * Frame) :=
  if negb (contains 4 256 (len secret_key))
  then Err (mkError InvalidInput "cancellation key length is outside 4..=256")
  else let? frame := BackendMessage_to_frame (B_BackendKeyData process_id secret_key) in Ok (c, frame).
Definition negotiate_protocol (c : Conn S SAP.ServerStartupReady C) (newest : ProtocolVersion)
    (unsupported_options : list bytes) : io (Conn S SAP.ServerStartupReady C * Frame) :=
  let? frame := BackendMessage_to_frame (B_NegotiateProtocolVersion (mkNegotiate newest unsupported_options)) in
  Ok (c, frame).
Definition startup_ready (c : Conn S SAP.ServerStartupReady C) : io (Conn S SV.Ready C * Frame) :=
  let? frame := BackendMessage_to_frame (B_ReadyForQuery Idle) in Ok (transition c, frame).
End Server.
