(* ===== verification/AuthSpec.v ===== *)
(** Authentication as one machine per role: relation to the grammars, delivery of
    credentials from the client to the server, and what a finished handshake
    proves. *)

From Stdlib Require Import ZArith Lia String.
From Stdlib Require Import Init.Byte.
From stdpp Require Import prelude.
From S2P Require Import Prelude OrdMap Wire Frame Frontend Startup Backend Replication Demux Fsm Grammar Resources PreStartup Machine Session ServerSession Auth.

Local Open Scope string_scope.
Local Open Scope Z_scope.
Local Open Scope list_scope.

(** ** The client machine *)

Inductive auth_state (S : Type) : Type :=
| AuthAt (P : AP.t) (conn : AuthConn S P)
| AuthReady (conn : AuthConn S SP.Ready)
| AuthEnded (conn : AuthConn S Phase.Terminated).
Arguments AuthAt {S} P conn.
Arguments AuthReady {S} conn.
Arguments AuthEnded {S} conn.

Inductive auth_action : Type :=
| Auth_receive (m : BackendMessage)
| Auth_item (item : SessionItem)
| Auth_password (p : bytes)
| Auth_sasl (mechanism initial : bytes)
| Auth_respond (data : bytes)
| Auth_verified.

Section Client.
Context {S : Type}.

Definition at_auth_offer (o : AuthOffer S) : auth_state S :=
  match o with
  | Auth_Ok c => AuthAt _ c | Auth_Cleartext c => AuthAt _ c | Auth_Md5 c _ => AuthAt _ c | Auth_Sasl c _ => AuthAt _ c
  | Auth_Gss c => AuthAt _ c | Auth_Sspi c => AuthAt _ c | Auth_KerberosV5 c => AuthAt _ c
  end.

(** A refused message leaves the connection as it was; [None]: the operation does
    not exist in the phase, or its message could not be encoded. *)
Definition do_auth (a : auth_action) (st : auth_state S) : option (list Frame * auth_state S) :=
  match st with
  | AuthReady _ | AuthEnded _ => None
  | AuthAt P conn =>
      match P return AuthConn S P -> _ with
      | AP.Auth => fun c =>
          match a with
          | Auth_receive m =>
              match auth_offer_backend c m with
              | Ok (Event_Authentication o) => Some ([], at_auth_offer o)
              | Ok (Event_Negotiate c _) => Some ([], AuthAt _ c)
              | Ok (Event_Error c _) => Some ([], AuthEnded c)
              | Err (c, _, _) => Some ([], AuthAt _ c)
              | Panic => None
              end
          | _ => None
          end
      | AP.PasswordResponse => fun c =>
          match a with
          | Auth_password p => match password c p with Ok (c, f) => Some ([f], AuthAt _ c) | _ => None end
          | _ => None
          end
      | AP.SaslInitial => fun c =>
          match a with
          | Auth_sasl m i => match sasl c m i with Ok (c, f) => Some ([f], AuthAt _ c) | _ => None end
          | _ => None
          end
      | AP.Sasl => fun c =>
          match a with
          | Auth_receive m =>
              match sasl_offer_backend c m with
              | Ok (Sasl_Continue c _) => Some ([], AuthAt _ c)
              | Ok (Sasl_Final c _) => Some ([], AuthAt _ c)
              | Ok (Sasl_Error c _) => Some ([], AuthEnded c)
              | Err (c, _) => Some ([], AuthAt _ c)
              | Panic => None
              end
          | _ => None
          end
      | AP.SaslChallenge => fun c =>
          match a with
          | Auth_respond d => let (c, f) := sasl_respond c d in Some ([f], AuthAt _ c)
          | _ => None
          end
      | AP.SaslFinal => fun c =>
          match a with Auth_verified => Some ([], AuthAt _ (sasl_verified c)) | _ => None end
      | AP.TokenResponse => fun c =>
          match a with
          | Auth_respond d => let (c, f) := token_respond c d in Some ([f], AuthAt _ c)
          | _ => None
          end
      | AP.TokenChallenge => fun c =>
          match a with
          | Auth_receive m =>
              match token_offer c m with
              | Ok (Token_Continue c _) => Some ([], AuthAt _ c)
              | Ok (Token_Ok c) => Some ([], AuthAt _ c)
              | Ok (Token_Error c _) => Some ([], AuthEnded c)
              | Err (c, _) => Some ([], AuthAt _ c)
              | Panic => None
              end
          | _ => None
          end
      | AP.AwaitingAuthOk => fun c =>
          match a with
          | Auth_receive m =>
              match completion_offer c m with
              | Ok (Completion_Ok c) => Some ([], AuthAt _ c)
              | Ok (Completion_Error c _) => Some ([], AuthEnded c)
              | Err (c, _) => Some ([], AuthAt _ c)
              | Panic => None
              end
          | _ => None
          end
      | AP.AwaitingStartupReady => fun c =>
          match a with
          | Auth_item item =>
              match offer_ready c item with
              | Ok c => Some ([], AuthReady c)
              | Err (c, _) => Some ([], AuthAt _ c)
              | Panic => None
              end
          | _ => None
          end
      end conn
  end.

Definition auth_name (st : auth_state S) : string :=
  match st with
  | AuthReady _ => "Ready"
  | AuthEnded _ => "Terminated"
  | AuthAt P _ =>
      match P with
      | AP.Auth => "Auth" | AP.PasswordResponse => "PasswordResponse" | AP.SaslInitial => "SaslInitial"
      | AP.Sasl => "Sasl" | AP.SaslChallenge => "SaslChallenge" | AP.SaslFinal => "SaslFinal"
      | AP.TokenResponse => "TokenResponse" | AP.TokenChallenge => "TokenChallenge"
      | AP.AwaitingAuthOk => "AwaitingAuthOk" | AP.AwaitingStartupReady => "AwaitingStartupReady"
      end
  end.

Definition auth_transport (st : auth_state S) : option S :=
  match st with AuthAt _ c => transport c | AuthReady c => transport c | AuthEnded c => transport c end.
End Client.
Abbreviation run_auth := (run do_auth).

(** The grammar event of an action, when the grammar takes it; startup also
    refuses a readiness that is not idle with unchanged parameters. *)
Definition auth_event {S} (a : auth_action) (st : auth_state S) : option string :=
  match a with
  | Auth_receive m => project_external authentication (auth_name st) m
  | Auth_item (Item_ReadyForQuery Idle false) => project_external authentication (auth_name st) (B_ReadyForQuery Idle)
  | Auth_item _ => None
  | Auth_password p => project_internal authentication (auth_name st) (F_PasswordResponse (p ++ [x00]))
  | Auth_sasl m i =>
      project_internal authentication (auth_name st) (F_PasswordResponse (put_i32 (len i) (m ++ [x00]) ++ i))
  | Auth_respond d => project_internal authentication (auth_name st) (F_PasswordResponse d)
  | Auth_verified => Some "Verified"
  end.

Definition auth_sends (a : auth_action) : option FrontendMessage :=
  match a with
  | Auth_password p => Some (F_PasswordResponse (p ++ [x00]))
  | Auth_sasl m i => Some (F_PasswordResponse (put_i32 (len i) (m ++ [x00]) ++ i))
  | Auth_respond d => Some (F_PasswordResponse d)
  | _ => None
  end.

Definition auth_conforms {S} (a : auth_action) (st : auth_state S) (fs : list Frame) (st' : auth_state S) : Prop :=
  auth_transport st' = auth_transport st /\
  map FrontendMessage_to_frame (option_list (auth_sends a)) = map Ok fs /\
  match auth_event a st with
  | Some e => enters authentication (auth_name st) e (auth_name st') = true
  | None => st' = st
  end.

Lemma do_auth_conforms {S} a (st : auth_state S) fs st' :
  do_auth a st = Some (fs, st') -> auth_conforms a st fs st'.
Proof.
  destruct st as [P c|c|c]; [|done..]. unfold auth_conforms.
  destruct P; destruct a as [m|item|p|mech init|d|]; try discriminate; cbn [do_auth].
  all: try (destruct m; try match goal with x : Authentication |- _ => destruct x end;
    vm_compute; intros [= <- <-]; easy).
  all: try (destruct item as [m|[] []|]; vm_compute; intros [= <- <-]; easy).
  - unfold password. destruct (decide (x00 ∈ p)); [done|]. intros [= <- <-]. easy.
  - unfold sasl, client_sasl_initial. destruct (I32_MAX <? len init); [done|]. intros [= <- <-]. easy.
  - intros [= <- <-]. easy.
  - intros [= <- <-]. easy.
  - intros [= <- <-]. easy.
Qed.

(** ** What a finished client handshake proves *)

Section Evidence.
Context {S : Type}.
Implicit Types (st : auth_state S).

Definition is_ready st : bool := match st with AuthReady _ => true | _ => false end.
Definition awaits_startup st : bool :=
  match st with AuthAt AP.AwaitingStartupReady _ | AuthReady _ => true | _ => false end.
Definition left_sasl st : bool := match st with AuthAt (AP.Sasl | AP.SaslChallenge) _ => false | _ => true end.
Definition left_final st : bool := match st with AuthAt AP.SaslFinal _ => false | _ => true end.

Definition received (a : Authentication) : auth_action := Auth_receive (B_Authentication a).

(** Evaluate a step on every phase and action. *)
Ltac auth_cases a st H :=
  destruct st as [[] ?|?|?]; try discriminate H;
  destruct a as [m|item|p|mech init|d|]; try discriminate H; cbn [do_auth] in H;
  first
    [ destruct m; try match goal with x : Authentication |- _ => destruct x end; vm_compute in H; injection H as <- <-
    | destruct item as [?|[] []|]; vm_compute in H; injection H as <- <-
    | unfold password in H; destruct (decide (x00 ∈ p)); [discriminate H|injection H as <- <-]
    | unfold sasl, client_sasl_initial in H; destruct (I32_MAX <? len init); [discriminate H|injection H as <- <-]
    | injection H as <- <- ].

Lemma step_ready a st fs st' : do_auth a st = Some (fs, st') -> is_ready st' = true ->
  a = Auth_item (Item_ReadyForQuery Idle false) /\ awaits_startup st = true.
Proof. intros H Hr. auth_cases a st H; try discriminate Hr; done. Qed.

Lemma step_startup a st fs st' : do_auth a st = Some (fs, st') ->
  awaits_startup st = false -> awaits_startup st' = true -> a = received A_Ok.
Proof. intros H H0 H1. auth_cases a st H; try discriminate H0; try discriminate H1; done. Qed.

Lemma step_left_sasl a st fs st' : do_auth a st = Some (fs, st') -> left_sasl st = false -> left_sasl st' = true ->
  (exists v, a = received (A_SaslFinal v) /\ left_final st' = false) \/ exists c, st' = AuthEnded c.
Proof. intros H H0 H1. auth_cases a st H; try discriminate H0; try discriminate H1; eauto. Qed.

Lemma step_left_final a st fs st' : do_auth a st = Some (fs, st') -> left_final st = false -> left_final st' = true ->
  a = Auth_verified /\ awaits_startup st' = false.
Proof. intros H H0 H1. auth_cases a st H; try discriminate H0; try discriminate H1; done. Qed.

Lemma run_ended actions (c : AuthConn S Phase.Terminated) fs st' :
  run_auth actions (AuthEnded c) = Some (fs, st') -> st' = AuthEnded c.
Proof. destruct actions; [|done]. now intros [= <- <-]. Qed.

Lemma run_ready actions (c : AuthConn S SP.Ready) fs st' :
  run_auth actions (AuthReady c) = Some (fs, st') -> actions = [].
Proof. destruct actions; done. Qed.

Lemma run_to_startup actions st fs st' :
  run_auth actions st = Some (fs, st') -> awaits_startup st = false -> awaits_startup st' = true ->
  exists pre post, actions = pre ++ received A_Ok :: post.
Proof.
  intros Hr H0 H1. apply (run_flip _ awaits_startup) in Hr as (pre & a & post & ? & s1 & ? & s2 & -> & _ & Ha & H2 & H3);
    [|done..]. rewrite (step_startup _ _ _ _ Ha H2 H3). eauto.
Qed.

Lemma sasl_verified_before_ok actions st fs (c : AuthConn S SP.Ready) :
  run_auth actions st = Some (fs, AuthReady c) -> left_sasl st = false ->
  exists y1 v y2 y3 y4, actions =
    y1 ++ received (A_SaslFinal v) :: y2 ++ Auth_verified :: y3 ++ received A_Ok :: y4.
Proof.
  intros Hr H0. apply (run_flip _ left_sasl) in Hr as Hf; [|done..].
  destruct Hf as (y1 & a & l1 & ? & s1 & ? & s1' & -> & Hr1 & Ha & H1 & H1').
  rewrite run_app, Hr1 in Hr. destruct (run do_auth (a :: l1) s1) as [[? e1]|] eqn:E1; [|done].
  injection Hr as _ ->. apply run_cons_inv in E1 as (? & s1'' & ? & Ha' & E1 & _). rewrite Ha in Ha'. simplify_eq.
  apply step_left_sasl in Ha as [(v & -> & Hf)|[c' ->]]; [|now apply run_ended in E1|done..].
  apply (run_flip _ left_final) in E1 as Hg; [|done..].
  destruct Hg as (y2 & b & l2 & ? & s2 & ? & s2' & -> & Hr2 & Hb & H2 & H2').
  rewrite run_app, Hr2 in E1. destruct (run do_auth (b :: l2) s2) as [[? e2]|] eqn:E2; [|done].
  injection E1 as _ ->. apply run_cons_inv in E2 as (? & s2'' & ? & Hb' & E2 & _). rewrite Hb in Hb'. simplify_eq.
  apply step_left_final in Hb as [-> Hs]; [|done..].
  destruct (run_to_startup _ _ _ _ E2 Hs eq_refl) as (y3 & y4 & ->). exists y1, v, y2, y3, y4. done.
Qed.
End Evidence.

(** C22: A client that reports a ready session has the evidence for it: the backend
    confirmed authentication and then announced an idle readiness with unchanged
    parameters, as the last thing that happened; and whenever the client had
    selected a SASL mechanism, it received the server's final message and its
    caller vouched for having verified it before that confirmation. *)
Theorem handshake_evidence {S} actions (c : AuthConn S AP.Auth) fs c' :
  run_auth actions (AuthAt AP.Auth c) = Some (fs, AuthReady c') ->
  (exists pre mid, actions = pre ++ received A_Ok :: mid ++ [Auth_item (Item_ReadyForQuery Idle false)]) /\
  (forall before mechanism initial after, actions = before ++ Auth_sasl mechanism initial :: after ->
     exists y1 v y2 y3 y4, after =
       y1 ++ received (A_SaslFinal v) :: y2 ++ Auth_verified :: y3 ++ received A_Ok :: y4).
Proof.
  intros Hr. split.
  - apply (run_flip _ is_ready) in Hr as Hf; [|done..].
    destruct Hf as (l & a & post & ? & s1 & ? & s2 & -> & Hl & Ha & H1 & H2).
    destruct (step_ready _ _ _ _ Ha H2) as [-> Hs].
    assert (post = []) as ->.
    { rewrite run_app, Hl in Hr. cbn [run] in Hr. rewrite Ha in Hr. destruct s2 as [| |]; try discriminate H2.
      destruct (run do_auth post (AuthReady conn)) as [[]|] eqn:E; [|done]. eauto using run_ready. }
    destruct (run_to_startup _ _ _ _ Hl eq_refl Hs) as (pre & mid & ->). exists pre, mid. now rewrite <- app_assoc.
  - intros before mechanism initial after ->. rewrite run_app in Hr.
    destruct (run do_auth before _) as [[? s1]|]; [|done].
    destruct (run do_auth (Auth_sasl _ _ :: after) s1) as [[? e]|] eqn:E; [|done]. injection Hr as _ ->.
    apply run_cons_inv in E as (? & s2 & ? & Ha & E & _). apply (sasl_verified_before_ok _ _ _ _ E).
    destruct s1 as [[] c1|c1|c1]; try discriminate Ha. cbn [do_auth] in Ha. unfold sasl, client_sasl_initial in Ha.
    case_match; simplify_eq. case_match; simplify_eq. done.
Qed.

Lemma handshake_evidence_witness :
  let actions := [received (A_Sasl [[x41]]); Auth_sasl [x41] [x62]; received (A_SaslContinue [x63]); Auth_respond [x64];
                  received (A_SaslFinal [x65]); Auth_verified; received A_Ok; Auth_item (Item_ReadyForQuery Idle false)] in
  exists pre mid, actions = pre ++ received A_Ok :: mid ++ [Auth_item (Item_ReadyForQuery Idle false)].
Proof.
  intros actions.
  eapply (proj1 (handshake_evidence actions (mkConn (Some 7)) _ (mkConn (Some 7)) _)).
  Unshelve. 2: vm_compute; reflexivity.
Defined.

(** The grammar beside the machine. *)
Fixpoint auth_walk {S} (actions : list auth_action) (st : auth_state S) (s : string) : option string :=
  match actions with
  | [] => Some s
  | a :: actions =>
      match do_auth a st, auth_event a st with
      | Some (_, st), Some e =>
          match Fsm.transition authentication s e with Some t => auth_walk actions st (r_target t) | None => None end
      | Some (_, st), None => auth_walk actions st s
      | None, _ => None
      end
  end.

(** C23: The client's authentication refines its grammar: the events of any sequence
    of operations are a path of the authentication grammar between the phases it
    starts and ends in, what the grammar does not take changes nothing, the frames
    are the encodings of the responses, and the transport is kept. *)
Theorem auth_refines_grammar {S} actions (st : auth_state S) fs st' :
  run_auth actions st = Some (fs, st') ->
  auth_walk actions st (auth_name st) = Some (auth_name st') /\
  map FrontendMessage_to_frame (omap auth_sends actions) = map Ok fs /\
  auth_transport st' = auth_transport st.
Proof.
  revert st fs. induction actions as [|a actions IH]; intros st fs Hr.
  { now injection Hr as <- <-. }
  apply run_cons_inv in Hr as (f1 & s1 & f2 & Ha & Hr & ->).
  destruct (IH _ _ Hr) as (Hw & Hm & Ht). apply do_auth_conforms in Ha as Hc. destruct Hc as (Ht1 & Hm1 & He).
  cbn [auth_walk omap list_omap]. rewrite Ha. split_and!; [|rewrite map_app, <- Hm1, <- Hm; now destruct (auth_sends a)|congruence].
  destruct (auth_event a st) as [e|]; [|now subst]. unfold enters in He.
  destruct (Fsm.transition authentication (auth_name st) e) as [t|]; [|done].
  apply bool_decide_eq_true in He. now rewrite He.
Qed.

Lemma auth_refines_grammar_witness :
  let actions := [received A_CleartextPassword; Auth_password [x61]; Auth_receive B_NoData; received A_Ok;
                  Auth_item (Item_ReadyForQuery Idle false)] in
  let st := AuthAt AP.Auth (mkConn (Some 7)) : auth_state Z in
  exists fs st', auth_walk actions st "Auth" = Some (auth_name st') /\
    map FrontendMessage_to_frame (omap auth_sends actions) = map Ok fs /\ auth_transport st' = auth_transport st.
Proof.
  intros actions st. exists [mkFrame "p"%byte [x61; x00]], (AuthReady (mkConn (Some 7))).
  apply (auth_refines_grammar actions st). vm_compute. reflexivity.
Defined.

(** ** Delivery of credentials *)

Lemma password_body_nul p : password_body (p ++ [x00]) = if decide (x00 ∈ p) then Err (p ++ [x00]) else Ok p.
Proof.
  unfold password_body. rewrite last_snoc, removelast_last. rewrite bool_decide_eq_true_2 by done. cbn [andb].
  destruct (decide (x00 ∈ p)).
  - now rewrite bool_decide_eq_true_2.
  - now rewrite bool_decide_eq_false_2.
Qed.

Lemma auth_position_nul_app m rest : x00 ∉ m -> position_nul (m ++ x00 :: rest) = Some (length m).
Proof.
  induction m as [|b m IH]; intros Hm; cbn; [done|].
  apply not_elem_of_cons in Hm as [Hb Hm]. rewrite decide_False by done. now rewrite IH.
Qed.

Lemma sasl_initial_encoded m i : x00 ∉ m -> len i <= I32_MAX ->
  sasl_initial (put_i32 (len i) (m ++ [x00]) ++ i) = Ok (mkSaslInitial m (Some i)).
Proof.
  intros Hm Hi. unfold sasl_initial, put_i32, put_uint. rewrite <- !app_assoc. cbn [app].
  rewrite auth_position_nul_app by done.
  replace (take (length m) (m ++ x00 :: be_bytes 4 (len i) ++ i)) with m by now rewrite take_app_length.
  replace (drop (length m + 1) (m ++ x00 :: be_bytes 4 (len i) ++ i)) with (be_bytes 4 (len i) ++ i)
    by (now rewrite <- drop_drop, drop_app_length).
  assert (0 <= len i) by (unfold len; lia).
  destruct (Z.ltb_spec (len (be_bytes 4 (len i) ++ i)) 4).
  { unfold len in *. rewrite length_app, length_be_bytes in *. lia. }
  rewrite take_be_bytes, drop_app_length' by now rewrite length_be_bytes. rewrite be_value_bytes.
  change (8 * Z.of_nat 4) with 32. rewrite to_signed_mod; [|lia|unfold in_i, I32_MAX in *; lia].
  destruct (Z.eqb_spec (len i) (-1)); [lia|]. cbn [andb].
  destruct (Z.ltb_spec (len i) 0); [lia|]. now rewrite Z.eqb_refl.
Qed.

(** What the client sends in answer to a credential request is what the server's
    policy gets: a password without a NUL byte arrives as it is and any other is
    refused before it is sent; a SASL mechanism name without a NUL byte and its
    initial response, up to the 32-bit limit above which it is refused, arrive as
    they are; SASL and token responses arrive as they are. *)
Theorem credentials_delivered {S T} {C} :
  (forall (c : AuthConn S AP.PasswordResponse) (s : Conn T SAP.ServerPassword C) p,
     if decide (x00 ∈ p) then password c p = Err (mkError InvalidInput "password response contains a NUL byte")
     else exists f m, password c p = Ok (transition c, f) /\ Frontend_decode f = Ok m /\
       receive_password s m = Ok (transition s, p)) /\
  (forall (c : AuthConn S AP.SaslInitial) (s : Conn T SAP.ServerSaslInitial C) mechanism initial, x00 ∉ mechanism ->
     if I32_MAX <? len initial then sasl c mechanism initial = Err (mkError InvalidInput "SASL response too large")
     else exists f m, sasl c mechanism initial = Ok (transition c, f) /\ Frontend_decode f = Ok m /\
       receive_initial s m = Ok (transition s, mkSaslInitial mechanism (Some initial))) /\
  (forall (c : AuthConn S AP.SaslChallenge) (s : Conn T SAP.ServerSaslResponse C) data,
     exists m, Frontend_decode (sasl_respond c data).2 = Ok m /\ receive_sasl_response s m = Ok (transition s, data)) /\
  (forall (c : AuthConn S AP.TokenResponse) (s : Conn T SAP.ServerAuthResponse C) data,
     exists m, Frontend_decode (token_respond c data).2 = Ok m /\ receive_token_response s m = Ok (transition s, data)).
Proof.
  split_and!.
  - intros c s p. destruct (decide (x00 ∈ p)) as [Hp|Hp] eqn:E.
    + unfold password. now rewrite decide_True.
    + unfold password. rewrite decide_False by done. eexists _, _. split; [done|]. split; [reflexivity|].
      unfold receive_password.
      change (project_external server_authentication "PasswordResponse" (F_PasswordResponse (body (mkFrame "p"%byte (p ++ [x00])))))
        with (Some "Response"). cbv iota. cbn [body]. now rewrite password_body_nul, E.
  - intros c s mech init Hm. unfold sasl, client_sasl_initial.
    destruct (Z.ltb_spec I32_MAX (len init)); [done|]. eexists _, _. split; [done|]. split; [reflexivity|].
    unfold receive_initial. cbn [body].
    change (project_external server_authentication "SaslInitial" (F_PasswordResponse (put_i32 (len init) (mech ++ [x00]) ++ init)))
      with (Some "Initial"). cbv iota. now rewrite sasl_initial_encoded.
  - intros c s data. exists (F_PasswordResponse data). split; [reflexivity|vm_compute; reflexivity].
  - intros c s data. exists (F_PasswordResponse data). split; [reflexivity|vm_compute; reflexivity].
Qed.

(** A mechanism name with a NUL byte is sent all the same, and the server reads
    another mechanism or none. *)
Theorem sasl_mechanism_nul_sent :
  let c := mkConn (Some 7) : AuthConn Z AP.SaslInitial in
  let s := mkConn (Some 8) : Conn Z SAP.ServerSaslInitial Pristine in
  exists f m, sasl c [x41; x00; x00; x00; x00; x05] [] = Ok (transition c, f) /\ Frontend_decode f = Ok m /\
    receive_initial s m = Ok (transition s, mkSaslInitial [x41] (Some [x00; x00; x00; x00; x00])).
Proof.
  exists (mkFrame "p"%byte [x41; x00; x00; x00; x00; x05; x00; x00; x00; x00; x00]),
    (F_PasswordResponse [x41; x00; x00; x00; x00; x05; x00; x00; x00; x00; x00]).
  vm_compute. split_and!; reflexivity.
Qed.

(** ** The server machine *)

Inductive server_auth_state (S : Type) (C : Cleanliness) : Type :=
| SAuthAt (P : SAP.t) (conn : Conn S P C)
| SAuthReady (conn : Conn S SV.Ready C)
| SAuthEnded (conn : Conn S Phase.Terminated C).
Arguments SAuthAt {S C} P conn.
Arguments SAuthReady {S C} conn.
Arguments SAuthEnded {S C} conn.

Inductive server_auth_action : Type :=
| SAuth_send (m : BackendMessage)
| SAuth_receive (m : FrontendMessage)
| SAuth_begin
| SAuth_verified.

(** What a receive delivers to its caller. *)
Inductive delivery : Type :=
| GotPassword (password : bytes)
| GotInitial (initial : SaslInitialResponse)
| GotResponse (response : bytes).

(** The observable result of an operation: a frame written, a message taken with
    what was delivered, or a message handed back with the connection. *)
Inductive server_auth_output : Type :=
| AuthWrote (f : Frame)
| AuthTook (d : delivery)
| AuthRefused (m : FrontendMessage).

Section Server.
Context {S : Type} {C : Cleanliness}.

Definition sent_auth {P} (r : io (Conn S P C * Frame)) : option (list server_auth_output * server_auth_state S C) :=
  match r with Ok (c, f) => Some ([AuthWrote f], SAuthAt P c) | _ => None end.

Definition took {P Q : SAP.t} {A} (deliver : A -> delivery) (r : result (Conn S Q C * A) (Conn S P C * FrontendMessage))
    : option (list server_auth_output * server_auth_state S C) :=
  match r with
  | Ok (c, a) => Some ([AuthTook (deliver a)], SAuthAt Q c)
  | Err (c, m) => Some ([AuthRefused m], SAuthAt P c)
  | Panic => None
  end.

Definition do_server_auth (a : server_auth_action) (st : server_auth_state S C)
    : option (list server_auth_output * server_auth_state S C) :=
  match st with
  | SAuthReady _ | SAuthEnded _ => None
  | SAuthAt P conn =>
      match P return Conn S P C -> _ with
      | SAP.ServerStartupValidated => fun c =>
          match a with SAuth_begin => Some ([], SAuthAt _ (begin_server_auth c)) | _ => None end
      | SAP.ServerStartupRejected => fun c =>
          match a with
          | SAuth_send (B_ErrorResponse d) =>
              match rejected_error c d with Ok (c, f) => Some ([AuthWrote f], SAuthEnded c) | _ => None end
          | _ => None
          end
      | SAP.ServerAuth => fun c =>
          match a with
          | SAuth_send (B_Authentication A_CleartextPassword) => sent_auth (request_cleartext c)
          | SAuth_send (B_Authentication (A_Md5Password salt)) => sent_auth (request_md5 c salt)
          | SAuth_send (B_Authentication (A_Sasl mechanisms)) => sent_auth (request_sasl c mechanisms)
          | SAuth_send (B_Authentication A_KerberosV5) => sent_auth (request_kerberos_v5 c)
          | SAuth_send (B_Authentication A_Gss) => sent_auth (request_gss c)
          | SAuth_send (B_Authentication A_Sspi) => sent_auth (request_sspi c)
          | SAuth_send (B_Authentication A_Ok) => sent_auth (authentication_ok c)
          | _ => None
          end
      | SAP.ServerPassword => fun c =>
          match a with SAuth_receive m => took GotPassword (receive_password c m) | _ => None end
      | SAP.ServerSaslInitial => fun c =>
          match a with SAuth_receive m => took GotInitial (receive_initial c m) | _ => None end
      | SAP.ServerSasl => fun c =>
          match a with
          | SAuth_send (B_Authentication (A_SaslContinue d)) => sent_auth (continue_with c d)
          | SAuth_send (B_Authentication (A_SaslFinal d)) => sent_auth (sasl_finish c d)
          | _ => None
          end
      | SAP.ServerSaslResponse => fun c =>
          match a with SAuth_receive m => took GotResponse (receive_sasl_response c m) | _ => None end
      | SAP.ServerAuthResponse => fun c =>
          match a with SAuth_receive m => took GotResponse (receive_token_response c m) | _ => None end
      | SAP.ServerAuthPolicy => fun c =>
          match a with
          | SAuth_send (B_Authentication (A_GssContinue d)) => sent_auth (continue_gss c d)
          | SAuth_verified => Some ([], SAuthAt _ (token_verified c))
          | _ => None
          end
      | SAP.ServerStartupReady => fun c =>
          match a with
          | SAuth_send (B_ParameterStatus n v) => sent_auth (startup_parameter_status c n v)
          | SAuth_send (B_BackendKeyData p k) => sent_auth (startup_backend_key_data c p k)
          | SAuth_send (B_NegotiateProtocolVersion m) => sent_auth (negotiate_protocol c (newest m) (unsupported_options m))
          | SAuth_send (B_ReadyForQuery Idle) =>
              match startup_ready c with Ok (c, f) => Some ([AuthWrote f], SAuthReady c) | _ => None end
          | _ => None
          end
      end conn
  end.

Definition server_auth_name (st : server_auth_state S C) : string :=
  match st with
  | SAuthReady _ => "Ready"
  | SAuthEnded _ => "Terminated"
  | SAuthAt P _ =>
      match P with
      | SAP.ServerStartupValidated | SAP.ServerStartupRejected => "Startup"
      | SAP.ServerAuth => "Auth" | SAP.ServerPassword => "PasswordResponse" | SAP.ServerSaslInitial => "SaslInitial"
      | SAP.ServerSasl => "Sasl" | SAP.ServerSaslResponse => "SaslResponse" | SAP.ServerAuthResponse => "TokenResponse"
      | SAP.ServerAuthPolicy => "TokenPolicy" | SAP.ServerStartupReady => "StartupReady"
      end
  end.

Definition server_auth_transport (st : server_auth_state S C) : option S :=
  match st with SAuthAt _ c => transport c | SAuthReady c => transport c | SAuthEnded c => transport c end.

End Server.

(** *** The server authentication grammar as a machine *)

(** How the body of a password response is read in a state. *)
Definition read_body (s : string) (body : bytes) : option delivery :=
  if decide (s = "PasswordResponse") then
    match password_body body with Ok password => Some (GotPassword password) | _ => None end
  else if decide (s = "SaslInitial") then
    match sasl_initial body with Ok initial => Some (GotInitial initial) | _ => None end
  else Some (GotResponse body).

(** Protocol negotiation is an operation of the phase after authentication; the
    grammar has it before. *)
Definition late_negotiation (s : string) (m : BackendMessage) : bool :=
  bool_decide (s = "StartupReady") && match m with B_NegotiateProtocolVersion _ => true | _ => false end.

Definition auth_moves (s e : string) (os : list server_auth_output) : option (list server_auth_output * string) :=
  match Fsm.transition server_authentication s e with Some t => Some (os, r_target t) | None => None end.

(** A message is sent along the grammar and written as its encoding; the late
    negotiation is the only message sent without a transition. A message is taken
    when the grammar takes it and its body can be read; otherwise it is refused and
    the state stays. *)
Definition grammar_auth (a : server_auth_action) (s : string) : option (list server_auth_output * string) :=
  match a with
  | SAuth_begin => auth_moves s "Begin" []
  | SAuth_verified => auth_moves s "Verified" []
  | SAuth_send m =>
      match BackendMessage_to_frame m, project_internal server_authentication s m with
      | Ok f, Some e => auth_moves s e [AuthWrote f]
      | Ok f, None => if late_negotiation s m then Some ([AuthWrote f], s) else None
      | _, _ => None
      end
  | SAuth_receive m =>
      match project_external server_authentication s m, m with
      | Some e, F_PasswordResponse body =>
          match read_body s body with
          | Some d => auth_moves s e [AuthTook d]
          | None => Some ([AuthRefused m], s)
          end
      | _, _ => Some ([AuthRefused m], s)
      end
  end.

Definition server_auth_conforms {S C} (a : server_auth_action) (st : server_auth_state S C)
    (os : list server_auth_output) (st' : server_auth_state S C) : Prop :=
  server_auth_transport st' = server_auth_transport st /\
  grammar_auth a (server_auth_name st) = Some (os, server_auth_name st').

Lemma sent_auth_inv {S C} {P Q : SAP.t} (c : Conn S P C) a os st' :
  sent_auth (transition_with_frame (Q := Q) c (authentication_frame a)) = Some (os, st') ->
  exists f, BackendMessage_to_frame (B_Authentication a) = Ok f /\ os = [AuthWrote f] /\ st' = SAuthAt Q (transition c).
Proof.
  unfold transition_with_frame, authentication_frame.
  destruct (BackendMessage_to_frame _) as [f|e|]; [|now destruct (into_transport c)|done].
  intros [= <- <-]. eauto.
Qed.

Lemma kept_auth_inv {S C} {P : SAP.t} (c : Conn S P C) m os st' :
  sent_auth (let? frame := BackendMessage_to_frame m in Ok (c, frame)) = Some (os, st') ->
  exists f, BackendMessage_to_frame m = Ok f /\ os = [AuthWrote f] /\ st' = SAuthAt P c.
Proof. destruct (BackendMessage_to_frame m) as [f| |]; [|done..]. intros [= <- <-]. eauto. Qed.

Lemma sasl_initial_err body b : sasl_initial body = Err b -> b = body.
Proof. unfold sasl_initial. repeat (case_match; try done); congruence. Qed.
Lemma password_body_err body b : password_body body = Err b -> b = body.
Proof. unfold password_body. case_match; congruence. Qed.

Lemma receive_password_conforms {S C} (c : Conn S SAP.ServerPassword C) data os st' :
  took GotPassword (receive_password c (F_PasswordResponse data)) = Some (os, st') ->
  server_auth_conforms (SAuth_receive (F_PasswordResponse data)) (SAuthAt SAP.ServerPassword c) os st'.
Proof.
  unfold receive_password, server_auth_conforms, grammar_auth, server_auth_name.
  change (project_external server_authentication "PasswordResponse" (F_PasswordResponse data)) with (Some "Response").
  cbv iota. unfold read_body. rewrite decide_True by done.
  destruct (password_body data) as [p|b|] eqn:E; [| |done]; intros [= <- <-]; (split; [done|]).
  - vm_compute. reflexivity.
  - now apply password_body_err in E as ->.
Qed.

Lemma receive_initial_conforms {S C} (c : Conn S SAP.ServerSaslInitial C) data os st' :
  took GotInitial (receive_initial c (F_PasswordResponse data)) = Some (os, st') ->
  server_auth_conforms (SAuth_receive (F_PasswordResponse data)) (SAuthAt SAP.ServerSaslInitial c) os st'.
Proof.
  unfold receive_initial, server_auth_conforms, grammar_auth, server_auth_name.
  change (project_external server_authentication "SaslInitial" (F_PasswordResponse data)) with (Some "Initial").
  cbv iota. unfold read_body. rewrite decide_False, decide_True by done.
  destruct (sasl_initial data) as [p|b|] eqn:E; [| |done]; intros [= <- <-]; (split; [done|]).
  - vm_compute. reflexivity.
  - now apply sasl_initial_err in E as ->.
Qed.

(** The grammar's part of a send, once the message encodes. *)
Lemma send_grammar m s f e t : BackendMessage_to_frame m = Ok f -> project_internal server_authentication s m = Some e ->
  enters server_authentication s e t = true -> grammar_auth (SAuth_send m) s = Some ([AuthWrote f], t).
Proof.
  intros Hf He Ht. unfold grammar_auth, auth_moves. rewrite Hf, He. unfold enters in Ht.
  destruct (Fsm.transition server_authentication s e); [|done]. now apply bool_decide_eq_true in Ht as ->.
Qed.

Lemma do_send_auth_conforms {S C} m (st : server_auth_state S C) os st' :
  do_server_auth (SAuth_send m) st = Some (os, st') -> server_auth_conforms (SAuth_send m) st os st'.
Proof.
  intros H. unfold server_auth_conforms. destruct st as [P c|c|c]; [|done..].
  destruct P; try discriminate H; destruct m; try discriminate H;
    try match goal with x : Authentication |- _ => destruct x; try discriminate H end; cbn [do_server_auth] in H.
  all: unfold request_cleartext, request_md5, request_sasl, request_kerberos_v5, request_gss, request_sspi,
    authentication_ok, continue_with, sasl_finish, continue_gss, rejected_error, startup_parameter_status,
    startup_backend_key_data, negotiate_protocol in H.
  all: try (apply sent_auth_inv in H as (f & Hf & -> & ->)).
  all: try (destruct (negb _); [discriminate H|]).
  all: try (apply kept_auth_inv in H as (f & Hf & -> & ->)).
  all: try (destruct (BackendMessage_to_frame _) as [f| |] eqn:Hf in H; [injection H as <- <-|discriminate H..]).
  all: try (split; [reflexivity|]; eapply send_grammar; [exact Hf|vm_compute; reflexivity|vm_compute; reflexivity]).
  - destruct status; try discriminate H. injection H as <- <-. split; [reflexivity|vm_compute; reflexivity].
  - split; [reflexivity|]. destruct m as [n u]. cbn [newest unsupported_options] in Hf. unfold grammar_auth. rewrite Hf.
    vm_compute. reflexivity.
Qed.

Lemma do_server_auth_conforms {S C} a (st : server_auth_state S C) os st' :
  do_server_auth a st = Some (os, st') -> server_auth_conforms a st os st'.
Proof.
  destruct a as [m|m| |]; [apply do_send_auth_conforms|..]; (destruct st as [P c|c|c]; [|done..]);
    destruct P; try discriminate; cbn [do_server_auth].
  5,6: intros [= <- <-]; split; [reflexivity|vm_compute; reflexivity].
  all: destruct m; first [apply receive_password_conforms|apply receive_initial_conforms|
    intros H; vm_compute in H; injection H as <- <-; split; [reflexivity|vm_compute; reflexivity]].
Qed.

Abbreviation run_server_auth := (run do_server_auth).
Abbreviation run_grammar_auth := (run grammar_auth).

(** C24: The server's authentication refines its grammar: any sequence of operations
    and received messages has exactly the outputs of the server authentication
    grammar, between the states its phases stand for: a message is sent only along
    the grammar, written as its encoding, with the protocol negotiation after
    authentication as the one message that is no event of the grammar; a message is
    taken exactly when the grammar takes it and its body is well formed, delivering
    what the body says, and is otherwise handed back unchanged without a state
    change; begin and verification are the grammar's own moves; the transport is
    kept. *)
Theorem server_auth_refines_grammar {S C} actions (st : server_auth_state S C) os st' :
  run_server_auth actions st = Some (os, st') ->
  run_grammar_auth actions (server_auth_name st) = Some (os, server_auth_name st') /\
  server_auth_transport st' = server_auth_transport st.
Proof.
  revert st os. induction actions as [|a actions IH]; intros st os Hr.
  { now injection Hr as <- <-. }
  apply run_cons_inv in Hr as (o1 & s1 & o2 & Ha & Hr & ->).
  destruct (IH _ _ Hr) as [Hw Ht]. apply do_server_auth_conforms in Ha as [Ht1 Hg].
  cbn [run]. rewrite Hg, Hw. split; [done|congruence].
Qed.

(** A login in which a malformed password response is refused first. *)
Definition sample_login : list server_auth_action :=
  [SAuth_begin; SAuth_send (B_Authentication A_CleartextPassword); SAuth_receive (F_PasswordResponse [x61]);
   SAuth_receive (F_PasswordResponse [x61; x00]); SAuth_send (B_Authentication A_Ok); SAuth_send (B_ReadyForQuery Idle)].
Definition sample_login_outputs : list server_auth_output :=
  [AuthWrote (mkFrame "R"%byte [x00; x00; x00; x03]); AuthRefused (F_PasswordResponse [x61]);
   AuthTook (GotPassword [x61]); AuthWrote (mkFrame "R"%byte [x00; x00; x00; x00]);
   AuthWrote (mkFrame "Z"%byte ["I"%byte])].

Definition login_start : server_auth_state Z Pristine := SAuthAt SAP.ServerStartupValidated (mkConn (Some 7)).
Definition login_end : server_auth_state Z Pristine := SAuthReady (mkConn (Some 7)).

Lemma server_auth_refines_grammar_witness :
  run_grammar_auth sample_login "Startup" = Some (sample_login_outputs, "Ready") /\
  server_auth_transport login_end = server_auth_transport login_start.
Proof.
  apply (server_auth_refines_grammar sample_login login_start sample_login_outputs login_end). vm_compute. reflexivity.
Defined.

(** The grammar machine is no wider than the grammar but for that one message. *)
Lemma grammar_auth_sends m s os t : grammar_auth (SAuth_send m) s = Some (os, t) ->
  (exists e, project_internal server_authentication s m = Some e /\ enters server_authentication s e t = true) \/
  (s = "StartupReady" /\ t = s /\ exists n, m = B_NegotiateProtocolVersion n).
Proof.
  unfold grammar_auth, auth_moves, enters. destruct (BackendMessage_to_frame m); [|done..].
  destruct (project_internal server_authentication s m) as [e|].
  - destruct (Fsm.transition server_authentication s e) as [r|] eqn:Er; [|done]. intros [= _ <-]. left. exists e.
    rewrite Er. split; [done|]. now apply bool_decide_eq_true.
  - unfold late_negotiation. case_bool_decide; [|done]. destruct m; try done. intros [= _ <-]. eauto.
Qed.

(** Negotiation comes too late: the typed server can announce a protocol version
    only after confirming authentication, where the server's grammar has no such
    message and the client no longer takes it. *)
Theorem negotiation_after_authentication :
  let server := SAuthAt SAP.ServerStartupReady (mkConn (Some 7)) : server_auth_state Z Pristine in
  let m := B_NegotiateProtocolVersion (mkNegotiate V3_0 []) in
  do_server_auth (SAuth_send m) (SAuthAt SAP.ServerAuth (mkConn (Some 7)) : server_auth_state Z Pristine) = None /\
  (exists f, do_server_auth (SAuth_send m) server = Some ([AuthWrote f], server)) /\
  project_internal server_authentication "StartupReady" m = None /\
  project_internal server_authentication "Auth" m = Some "Negotiate" /\
  project_external authentication "AwaitingStartupReady" m = None.
Proof. vm_compute. split_and!; try reflexivity. eexists. reflexivity. Qed.
