(* ===== verification/Handshake.v ===== *)
(** A SCRAM login through both typed roles, the wire and the verifier: the
    composition of [Auth], [Scram], [Demux] and the codecs. *)

From Stdlib Require Import ZArith Lia String.
From Stdlib Require Import Init.Byte DecimalString DecimalN.
From stdpp Require Import prelude.
From S2P Require Import Prelude OrdMap Wire Frame Frontend Startup Backend Replication Demux Fsm Grammar Resources PreStartup Session ServerSession Auth AuthSpec Scram ScramSpec.

Local Open Scope string_scope.
Local Open Scope Z_scope.
Local Open Scope list_scope.

Definition ok {A E} (r : result A E) : option A := match r with Ok a => Some a | _ => None end.

Definition parse_decimal (l : bytes) : option Z :=
  Z.of_N ∘ N.of_uint <$> NilZero.uint_of_string (string_of_list_byte l).

Lemma parse_decimal_decimal n : 0 <= n -> parse_decimal (decimal n) = Some n.
Proof.
  intros Hn. unfold parse_decimal, decimal. rewrite string_of_list_byte_of_string.
  rewrite NilZero.usu by (destruct (Z.to_N n) as [|p]; [done|]; apply DecimalPos.Unsigned.to_uint_nonnil).
  cbn. rewrite DecimalN.Unsigned.of_to. now rewrite Z2N.id.
Qed.

Section Login.
Context `{K : Crypto} {S T : Type} {C : Cleanliness}.

(** The client of RFC 5802 on a challenge: its final message and the server's
    final message it will accept. *)
Definition client_answer (password gs2 data bare nonce challenge : bytes) : option (bytes * bytes) :=
  attrs ← ok (attributes challenge);
  combined ← ok (required attrs "r"%byte);
  encoded ← ok (required attrs "s"%byte);
  digits ← ok (required attrs "i"%byte);
  salt ← b64_decode encoded;
  iterations ← parse_decimal digits;
  if negb (starts_with nonce combined) then None else
  let salted := pbkdf2 password salt (Z.to_nat iterations) in
  let w := final_without_proof gs2 data combined in
  let auth := auth_message bare challenge w in
  Some (client_final w (client_proof salted auth), str "v=" ++ b64_encode (server_signature salted auth)).

(** What a client and a server do, message by message: every message is encoded
    by one role's typed operation and decoded and projected by the other's. *)
Definition login (client : AuthConn S AP.Auth) (server : Conn T SAP.ServerAuth C) (verifier : ScramServer)
    (mechanism gs2 data username nonce password : bytes) (draws : list byte)
    : option (AuthConn S SP.Ready * Conn T SV.Ready C) :=
  '(server, f) ← ok (request_sasl server [mechanism]);
  m ← ok (Backend_decode f);
  client ← match auth_offer_backend client m with
           | Ok (Event_Authentication (Auth_Sasl c mechanisms)) => if decide (mechanism ∈ mechanisms) then Some c else None
           | _ => None
           end;
  let bare := first_bare username nonce in
  '(client, f) ← ok (sasl client mechanism (gs2 ++ bare));
  m ← ok (Frontend_decode f);
  '(server, initial) ← ok (receive_initial server m);
  first ← response initial;
  '(exchange, challenge) ← ok (start verifier (Auth.mechanism initial) first draws);
  '(server, f) ← ok (continue_with server challenge);
  m ← ok (Backend_decode f);
  '(client, challenge) ← match sasl_offer_backend client m with Ok (Sasl_Continue c d) => Some (c, d) | _ => None end;
  '(final, expected) ← client_answer password gs2 data bare nonce challenge;
  let (client, f) := sasl_respond client final in
  m ← ok (Frontend_decode f);
  '(server, final) ← ok (receive_sasl_response server m);
  server_final ← ok (finish exchange final);
  '(server, f) ← ok (sasl_finish server server_final);
  m ← ok (Backend_decode f);
  '(client, server_final) ← match sasl_offer_backend client m with Ok (Sasl_Final c d) => Some (c, d) | _ => None end;
  client ← (if decide (server_final = expected) then Some (sasl_verified client) else None);
  '(server, f) ← ok (authentication_ok server);
  m ← ok (Backend_decode f);
  client ← match completion_offer client m with Ok (Completion_Ok c) => Some c | _ => None end;
  '(server, f) ← ok (startup_ready server);
  m ← ok (Backend_decode f);
  item ← fst (route m Demux_default);
  client ← ok (offer_ready client item);
  Some (client, server).
End Login.

Section Properties.
Context `{K : Crypto} `{L : !CryptoLaws K}.

(** Each message on its way from one role's operation to the other's. *)
Section Delivery.
Context {S T : Type} {C : Cleanliness}.

Lemma deliver_sasl_request (client : AuthConn S AP.Auth) (server : Conn T SAP.ServerAuth C) mechanism b gs2 data :
  binding_mode mechanism b gs2 data ->
  exists f, request_sasl server [mechanism] = Ok (transition server, f) /\
    Backend_decode f = Ok (B_Authentication (A_Sasl [mechanism])).
Proof.
  intros Hm. unfold request_sasl, transition_with_frame.
  destruct (Auth.authentication_frame (A_Sasl [mechanism])) as [f| |] eqn:E;
    [|now destruct Hm; vm_compute in E..].
  exists f. split; [done|]. apply decode_backend_to_frame; [|done]. constructor; [|constructor]. now destruct Hm.
Qed.

Lemma deliver_sasl_initial (client : AuthConn S AP.SaslInitial) (server : Conn T SAP.ServerSaslInitial C)
    mechanism b gs2 data initial : binding_mode mechanism b gs2 data -> len initial <= I32_MAX ->
  exists f m, sasl client mechanism initial = Ok (transition client, f) /\ Frontend_decode f = Ok m /\
    receive_initial server m = Ok (transition server, mkSaslInitial mechanism (Some initial)).
Proof.
  intros Hm Hl. unfold sasl, client_sasl_initial. destruct (Z.ltb_spec I32_MAX (len initial)); [lia|].
  eexists _, _. split; [done|]. split; [reflexivity|]. cbn [body]. unfold receive_initial.
  change (project_external server_authentication "SaslInitial"
    (F_PasswordResponse (put_i32 (len initial) (mechanism ++ [x00]) ++ initial))) with (Some "Initial").
  cbv iota. rewrite sasl_initial_encoded; [done| |done].
  destruct Hm; apply (bool_decide_eq_true_1 _); vm_compute; reflexivity.
Qed.

Lemma deliver_challenge (client : AuthConn S AP.Sasl) (server : Conn T SAP.ServerSasl C) d :
  exists f, continue_with server d = Ok (transition server, f) /\
    Backend_decode f = Ok (B_Authentication (A_SaslContinue d)) /\
    sasl_offer_backend client (B_Authentication (A_SaslContinue d)) = Ok (Sasl_Continue (transition client) d).
Proof.
  eexists. split; [reflexivity|]. split; [now apply decode_backend_to_frame|vm_compute; reflexivity].
Qed.

Lemma deliver_final (client : AuthConn S AP.Sasl) (server : Conn T SAP.ServerSasl C) d :
  exists f, sasl_finish server d = Ok (transition server, f) /\
    Backend_decode f = Ok (B_Authentication (A_SaslFinal d)) /\
    sasl_offer_backend client (B_Authentication (A_SaslFinal d)) = Ok (Sasl_Final (transition client) d).
Proof.
  eexists. split; [reflexivity|]. split; [now apply decode_backend_to_frame|vm_compute; reflexivity].
Qed.

Lemma deliver_response (client : AuthConn S AP.SaslChallenge) (server : Conn T SAP.ServerSaslResponse C) d :
  Frontend_decode (sasl_respond client d).2 = Ok (F_PasswordResponse d) /\
  receive_sasl_response server (F_PasswordResponse d) = Ok (transition server, d).
Proof. split; [reflexivity|vm_compute; reflexivity]. Qed.

Lemma deliver_ok (client : AuthConn S AP.AwaitingAuthOk) (server : Conn T SAP.ServerAuth C) :
  exists f, authentication_ok server = Ok (transition server, f) /\ Backend_decode f = Ok (B_Authentication A_Ok) /\
    completion_offer client (B_Authentication A_Ok) = Ok (Completion_Ok (transition client)).
Proof. eexists. split; [reflexivity|]. split; [reflexivity|vm_compute; reflexivity]. Qed.

Lemma deliver_ready (client : AuthConn S AP.AwaitingStartupReady) (server : Conn T SAP.ServerStartupReady C) :
  exists f, startup_ready server = Ok (transition server, f) /\ Backend_decode f = Ok (B_ReadyForQuery Idle) /\
    fst (route (B_ReadyForQuery Idle) Demux_default) = Some (Item_ReadyForQuery Idle false) /\
    offer_ready client (Item_ReadyForQuery Idle false) = Ok (transition client).
Proof. eexists. split; [reflexivity|]. split_and!; reflexivity. Qed.
End Delivery.

Lemma client_answer_first server gs2 data bare nonce more : 0 <= iterations server ->
  forallb nonce_byte (nonce ++ more) = true ->
  let challenge := first_of server (nonce ++ more) in
  let salted := hi (Scram.password server) (salt server) (iterations server) in
  let w := final_without_proof gs2 data (nonce ++ more) in
  let auth := auth_message bare challenge w in
  client_answer (Scram.password server) gs2 data bare nonce challenge =
    Some (client_final w (client_proof salted auth), str "v=" ++ b64_encode (server_signature salted auth)).
Proof.
  intros Hi Hn challenge salted w auth. unfold client_answer, challenge. rewrite first_readable by done.
  set (attrs := [_; _; _]). cbn [ok mbind option_bind].
  change (required attrs "r"%byte) with (@Ok bytes io_error (nonce ++ more)).
  change (required attrs "s"%byte) with (@Ok bytes io_error (b64_encode (salt server))).
  change (required attrs "i"%byte) with (@Ok bytes io_error (decimal (iterations server))).
  cbn [ok mbind option_bind]. rewrite b64_decode_encode. cbn [ok mbind option_bind].
  rewrite parse_decimal_decimal by done. cbn [ok mbind option_bind].
  rewrite starts_with_app. cbn [negb]. now rewrite <- hi_pbkdf2.
Qed.
End Properties.

(** One message further. *)
Ltac step_with H := rewrite H; cbn [ok mbind option_bind].

(** C25: A SCRAM login succeeds end to end: for every allowed combination of mechanism
    and channel binding, every user name without a comma, nonces, salt and
    iteration count, a client with the verifier's password and a server that runs
    the verifier reach their ready states through the typed operations of both
    roles and the encodings of all messages, on the transports they started with,
    and the client has verified the server. *)
Theorem scram_login_complete `{K : Crypto} `{!CryptoLaws K} {S T C} (client : AuthConn S AP.Auth)
    (server : Conn T SAP.ServerAuth C) verifier mechanism gs2 data username nonce draws :
  binding_mode mechanism (channel_binding verifier) gs2 data ->
  utf8 username = true -> no_comma username = true -> validate_nonce nonce = Ok tt -> drawn draws = true ->
  0 <= iterations verifier -> len (gs2 ++ first_bare username nonce) <= I32_MAX ->
  login client server verifier mechanism gs2 data username nonce (Scram.password verifier) draws =
    Some (mkConn (transport client), mkConn (transport server)).
Proof.
  intros Hm Hu Hc Hn Hd Hi Hl. unfold login.
  assert (forallb nonce_byte (nonce ++ random_nonce draws) = true) as Hcn.
  { rewrite forallb_app, random_nonce_ok by done. apply validate_nonce_ok in Hn as [_ ->]. done. }
  destruct (deliver_sasl_request client server _ _ _ _ Hm) as (f1 & H1 & D1). step_with H1. step_with D1.
  assert (auth_offer_backend client (B_Authentication (A_Sasl [mechanism])) =
    Ok (Event_Authentication (Auth_Sasl (transition client) [mechanism]))) as -> by (vm_compute; reflexivity).
  rewrite decide_True by now left. cbn [ok mbind option_bind].
  match goal with |- context [sasl ?x] => set (client1 := x) end.
  match goal with |- context [receive_initial ?x] => set (server1 := x) end.
  pose proof (deliver_sasl_initial client1 server1 _ _ _ _ _ Hm Hl) as (f2 & m2 & H2 & D2 & R2).
  step_with H2. step_with D2. step_with R2. cbn [response Auth.mechanism mbind option_bind].
  erewrite start_honest by eassumption. cbn [ok mbind option_bind].
  set (ex := mkScramExchange _ _ _ _ _). set (challenge := first_of _ _).
  match goal with |- context [sasl_offer_backend ?x] => set (client2 := x) end.
  match goal with |- context [continue_with ?x] => set (server2 := x) end.
  pose proof (deliver_challenge client2 server2 challenge) as (f3 & H3 & D3 & R3).
  step_with H3. step_with D3. step_with R3.
  unfold challenge. rewrite client_answer_first by done. fold challenge. cbn [ok mbind option_bind].
  set (final := client_final _ _). set (expected := _ ++ b64_encode _).
  match goal with |- context [sasl_respond ?x] => set (client3 := x) end.
  match goal with |- context [receive_sasl_response ?x] => set (server3 := x) end.
  destruct (deliver_response client3 server3 final) as [D4 R4].
  destruct (sasl_respond client3 final) as [client4 f4] eqn:E4. cbn [snd] in D4. step_with D4. step_with R4.
  assert (finish ex final = Ok expected) as H4 by now apply (finish_honest ex gs2 data). step_with H4.
  match goal with |- context [sasl_finish ?x] => set (server4 := x) end.
  pose proof (deliver_final client4 server4 expected) as (f5 & H5 & D5 & R5).
  step_with H5. step_with D5. step_with R5. rewrite decide_True by done. cbn [ok mbind option_bind].
  match goal with |- context [completion_offer ?x] => set (client5 := x) end.
  match goal with |- context [authentication_ok ?x] => set (server5 := x) end.
  pose proof (deliver_ok client5 server5) as (f6 & H6 & D6 & R6). step_with H6. step_with D6. step_with R6.
  match goal with |- context [offer_ready ?x] => set (client6 := x) end.
  match goal with |- context [startup_ready ?x] => set (server6 := x) end.
  pose proof (deliver_ready client6 server6) as (f7 & H7 & D7 & I7 & R7).
  step_with H7. step_with D7. step_with I7. step_with R7. injection E4 as <- _. reflexivity.
Qed.

Lemma scram_login_complete_witness :
  @login Model.crypto Z Z Dirty (mkConn (Some 1)) (mkConn (Some 2)) Model.server SCRAM_SHA_256_PLUS
    (str "p=tls-server-end-point,,") (str "cert") (str "user") (str "abc") (Scram.password Model.server) Model.draws =
  Some (mkConn (Some 1), mkConn (Some 2)).
Proof.
  apply (@scram_login_complete Model.crypto Model.laws); [constructor|reflexivity..|vm_compute; discriminate|vm_compute; discriminate].
Defined.
