(* ===== verification/Erased.v ===== *)
(** Runtime erasure of typestates and the evidence for connection reuse:
    src/erased.rs and src/cleanliness.rs. *)

From Stdlib Require Import ZArith Lia String.
From Stdlib Require Import Init.Byte.
From stdpp Require Import prelude.
From S2P Require Import Prelude OrdMap Wire Startup Backend PreStartup Session.

Local Open Scope string_scope.
Local Open Scope list_scope.

(** ** src/erased.rs *)

(** [TypeId::of] and [type_name] of the marker types of one family: identities
    are equal exactly when the markers are. *)
Class Markers (Ph : Type) := {
  marker_eq_dec : EqDecision Ph;
  type_name : Ph -> string
}.

Definition cleanliness_type_name (C : Cleanliness) : string :=
  match C with Pristine => "Pristine" | Dirty => "Dirty" end.

Record ErasedConn (S Ph : Type) : Type := mkErased {
  erased_transport : option S;
  phase : Ph;
  phase_name_ : string;
  cleanliness_ : Cleanliness;
  cleanliness_name_ : string
}.
Arguments mkErased {S Ph}. Arguments erased_transport {S Ph}. Arguments phase {S Ph}. Arguments phase_name_ {S Ph}.
Arguments cleanliness_ {S Ph}. Arguments cleanliness_name_ {S Ph}.

Section Erasure.
Context {S Ph : Type} `{M : Markers Ph}.
#[local] Existing Instance marker_eq_dec.

Definition erased_phase_name (e : ErasedConn S Ph) : string := phase_name_ e.
Definition erased_cleanliness_name (e : ErasedConn S Ph) : string := cleanliness_name_ e.
Definition phase_is (P : Ph) (e : ErasedConn S Ph) : bool := bool_decide (phase e = P).
Definition cleanliness_is (C : Cleanliness) (e : ErasedConn S Ph) : bool := bool_decide (cleanliness_ e = C).

(** A failed attempt returns the erased connection. *)
Definition try_reenter (P : Ph) (C : Cleanliness) (e : ErasedConn S Ph) : result (Conn S P C) (ErasedConn S Ph) :=
  if negb (phase_is P e) || negb (cleanliness_is C e) then Err e else Ok (mkConn (erased_transport e)).

Definition erased_map_transport {T} (map : S -> T) (e : ErasedConn S Ph) : io (ErasedConn T Ph) :=
  match erased_transport e with
  | Some t => Ok (mkErased (Some (map t)) (phase e) (phase_name_ e) (cleanliness_ e) (cleanliness_name_ e))
  | None => Panic
  end.

Definition erased_into_transport (e : ErasedConn S Ph) : io S :=
  match erased_transport e with Some t => Ok t | None => Panic end.

Definition erase {P : Ph} {C} (c : Conn S P C) : ErasedConn S Ph :=
  mkErased (transport c) P (type_name P) C (cleanliness_type_name C).
End Erasure.

(** ** src/cleanliness.rs *)

Inductive CleanlinessEvent : Type :=
| CE_TransactionStatus (status : TransactionStatus)
| CE_ParameterChanged (name value : bytes)
| CE_Listen (channel : bytes)
| CE_Unlisten (channel : option bytes)
| CE_AdvisoryLockAcquired
| CE_AdvisoryLocksReleased
| CE_PortalOpened (name : bytes)
| CE_PortalClosed (name : bytes)
| CE_StatementPrepared (name : bytes)
| CE_StatementClosed (name : bytes)
| CE_ResetComplete
| CE_Application (kind detail : bytes).

Class CleanlinessPolicy (Policy : Type) := {
  observe : CleanlinessEvent -> Policy -> Policy;
  reusable : Policy -> bool
}.

#[export] Instance IgnoreCleanliness : CleanlinessPolicy unit := {|
  observe _ p := p;
  reusable _ := true
|}.

(** ** Properties *)

#[export] Instance session_markers : Markers SP.t := {|
  marker_eq_dec := session_phase_eq_dec;
  type_name P :=
    match P with
    | SP.Ready => "Ready" | SP.SimpleQuery => "SimpleQuery" | SP.FunctionCalling => "FunctionCalling"
    | SP.Building => "Building" | SP.BoundBuilding => "BoundBuilding" | SP.AwaitingReady => "AwaitingReady"
    | SP.CopyIn => "CopyIn" | SP.CopyOut => "CopyOut" | SP.CopyBoth => "CopyBoth"
    | SP.CopyBothClientDone => "CopyBothClientDone" | SP.CopyBothServerDone => "CopyBothServerDone"
    | SP.Draining => "Draining" | SP.Resetting => "Resetting" | SP.ResetComplete => "ResetComplete"
    end
|}.

(** Erasing a connection and re-entering it gives the connection back exactly
    when both markers asked for are the erased ones, and otherwise the erased
    connection; changing the transport in between carries over, and a live
    connection never panics on the way. *)
Theorem erasure_exact {S T Ph} `{Markers Ph} (P Q : Ph) (C D : Cleanliness) (c : Conn S P C) (f : S -> T) t :
  transport c = Some t ->
  exists e, erased_map_transport f (erase c) = Ok e /\ erased_into_transport (erase c) = Ok t /\
    (try_reenter P C (erase c) = Ok c /\ try_reenter P C e = Ok (mkConn (Some (f t)))) /\
    ((Q, D) <> (P, C) -> try_reenter Q D (erase c) = Err (erase c)).
Proof.
  intros Ht. destruct c as [t']. cbn in Ht. subst t'. eexists. split; [reflexivity|]. split; [reflexivity|].
  unfold try_reenter, phase_is, cleanliness_is. cbn. rewrite !bool_decide_eq_true_2 by done.
  split; [split; reflexivity|]. intros Hn.
  case_bool_decide; case_bool_decide; try done. exfalso. apply Hn. now subst.
Qed.

Lemma erasure_exact_witness :
  let c := mkConn (Some 7%nat) : Conn nat SP.Ready Dirty in
  exists e, erased_map_transport Nat.succ (erase c) = Ok e /\ erased_into_transport (erase c) = Ok 7%nat /\
    (try_reenter SP.Ready Dirty (erase c) = Ok c /\ try_reenter SP.Ready Dirty e = Ok (mkConn (Some 8%nat))) /\
    ((SP.Ready, Pristine) <> (SP.Ready, Dirty) -> try_reenter SP.Ready Pristine (erase c) = Err (erase c)).
Proof.
  intros c. apply (erasure_exact SP.Ready SP.Ready Dirty Pristine c Nat.succ 7%nat). reflexivity.
Defined.
