(* ===== verification/Intermediary.v ===== *)
(** The forwarding core of an intermediary connection:
    src/intermediary_component.rs, with the message operations of the two role
    cores it owns (src/server_component.rs, src/client_component.rs) and the
    session pair of src/intermediary.rs. *)

From Stdlib Require Import ZArith Lia String.
From Stdlib Require Import Init.Byte.
From stdpp Require Import prelude gmap.
From S2P Require Import Prelude OrdMap Wire Frame Frontend Startup PreStartup Backend Replication Demux Cancel BackendHold Fsm Grammar Pipeline RuntimeMiddleware.

Local Open Scope string_scope.
Local Open Scope Z_scope.
Local Open Scope list_scope.

(** ** Data *)

Definition is_backend_batch_barrier (m : BackendMessage) : bool :=
  match m with
  | B_CommandComplete _ | B_PortalSuspended | B_EmptyQueryResponse | B_ErrorResponse _ | B_ReadyForQuery _
  | B_CopyInResponse _ | B_CopyOutResponse _ | B_CopyBothResponse _ | B_CopyDone | B_NoticeResponse _
  | B_NotificationResponse _ _ _ | B_ParameterStatus _ _ | B_BackendKeyData _ _ => true
  | _ => false
  end.

Inductive FrontendMiddlewareOutput : Type :=
| FM_Forward (m : FrontendMessage)
| FM_ForwardThenFlush (m : FrontendMessage)
| FM_Suppress (m : FrontendMessage)
| FM_Respond (request : FrontendMessage) (responses : list BackendMessage).

Inductive BackendMiddlewareOutput : Type :=
| BM_Forward (m : BackendMessage)
| BM_Expand (ms : list BackendMessage)
| BM_Suppress (m : BackendMessage)
| BM_Hold.

Inductive BackendBatchOutput : Type :=
| KeepHolding
| ReplaceOneToOne (ms : list BackendMessage).

Inductive BackendFlushReason : Type := FlushCapacity | ProtocolBarrier | Explicit | Teardown.

Record BackendHoldLimits : Type := mkLimits { max_messages : Z (* usize *); max_bytes : Z (* usize *) }.
Inductive BackendHoldConfigError : Type := mkHoldConfigError.

Definition BackendHoldLimits_new (max_messages_ max_bytes_ : Z) : result BackendHoldLimits BackendHoldConfigError :=
  if (max_messages_ =? 0) || (max_bytes_ =? 0) then Err mkHoldConfigError else Ok (mkLimits max_messages_ max_bytes_).

(** [AttributedBackendMessages]: the borrowed span with its operation identities. *)
Record AttributedBackendMessages : Type := mkAttributed {
  attributed_messages : list BackendMessage;
  attributed_bytes : Z;
  operation_ids : list (option OperationId)
}.

Inductive ProtocolTransitionDirection : Type := TowardsBackend | TowardsFrontend.

Record ProtocolTransitionObservation : Type := mkObservation {
  observed_id : string;
  direction : ProtocolTransitionDirection;
  observed_operation : option OperationId
}.

Record PendingLocalResponses : Type := mkPendingLocal { local_operation : OperationId; local_messages : list BackendMessage }.

Record PreparedFrontendForwarding : Type := mkPreparedForwarding {
  forwarding_source : FrontendMessage;
  forwarding_messages : list FrontendMessage
}.

Inductive FrontendForwarding : Type :=
| FF_Forwarded (m : FrontendMessage)
| FF_Expanded (source : FrontendMessage) (messages : list FrontendMessage)
| FF_Suppressed (m : FrontendMessage)
| FF_LocallyHandled (m : FrontendMessage).

Inductive BackendForwarding : Type :=
| BF_Forwarded (m : BackendMessage)
| BF_Expanded (source : BackendMessage) (messages : list BackendMessage)
| BF_Suppressed (m : BackendMessage)
| BF_Held.

Definition FrontendForwarding_into_message (f : FrontendForwarding) : FrontendMessage :=
  match f with FF_Forwarded m | FF_Suppressed m | FF_LocallyHandled m => m | FF_Expanded source _ => source end.

Definition BackendForwarding_into_message (f : BackendForwarding) : result BackendMessage unit :=
  match f with BF_Forwarded m | BF_Suppressed m => Ok m | BF_Expanded source _ => Ok source | BF_Held => Panic end.

Inductive BackendBatchForwarding : Type := Released (ms : list BackendMessage) | Kept | Empty.

Inductive BackendBatchProjectionError : Type :=
| BB_Cardinality (expected actual : Z)
| BB_IllegalSource
| BB_IllegalReplacement
| BB_DifferentSpan.

Definition batch_error_from (e : BackendSequenceError) : BackendBatchProjectionError :=
  match e with
  | Cardinality expected actual => BB_Cardinality expected actual
  | Source _ => BB_IllegalSource
  | Replacement _ => BB_IllegalReplacement
  | DifferentSpan => BB_DifferentSpan
  end.

Inductive ForwardedMessage : Type :=
| FwdFrontend (m : FrontendMessage)
| FwdFrontendExpanded (source : FrontendMessage) (messages : list FrontendMessage)
| FwdBackend (m : BackendMessage)
| FwdBackendExpanded (source : BackendMessage) (messages : list BackendMessage)
| FwdFrontendSuppressed (m : FrontendMessage)
| FwdFrontendLocallyHandled (m : FrontendMessage)
| FwdBackendSuppressed (m : BackendMessage)
| FwdBackendHeld.

Definition frontend_outcome (f : FrontendForwarding) : ForwardedMessage :=
  match f with
  | FF_Forwarded m => FwdFrontend m
  | FF_Expanded source messages => FwdFrontendExpanded source messages
  | FF_Suppressed m => FwdFrontendSuppressed m
  | FF_LocallyHandled m => FwdFrontendLocallyHandled m
  end.

Definition backend_outcome (f : BackendForwarding) : ForwardedMessage :=
  match f with
  | BF_Forwarded m => FwdBackend m
  | BF_Expanded source messages => FwdBackendExpanded source messages
  | BF_Suppressed m => FwdBackendSuppressed m
  | BF_Held => FwdBackendHeld
  end.

Inductive ForwardError (E : Type) : Type :=
| FE_Io (e : io_error)
| FE_Frontend (e : FrontendProjectionError)
| FE_Backend (e : BackendProjectionError)
| FE_Deferred (m : BackendMessage)
| FE_EmptyExpansion (m : BackendMessage)
| FE_BackendHoldingDisabled (m : BackendMessage)
| FE_BackendHoldCapacity
| FE_BackendHoldRefused
| FE_BackendBatch (error : BackendBatchProjectionError) (proposed : list BackendMessage)
| FE_Middleware (e : E).
Arguments FE_Io {E}. Arguments FE_Frontend {E}. Arguments FE_Backend {E}. Arguments FE_Deferred {E}.
Arguments FE_EmptyExpansion {E}. Arguments FE_BackendHoldingDisabled {E}. Arguments FE_BackendHoldCapacity {E}.
Arguments FE_BackendHoldRefused {E}. Arguments FE_BackendBatch {E}. Arguments FE_Middleware {E}.

(** ** Interfaces *)

(** One side's transport: the next message, and a frame pushed and flushed. The buffered
    streams of the crate are such a transport ([stream_wire] of the file RelayWire). *)
Class MessageWire (W In : Type) := {
  wire_receive : W -> io In * W;
  wire_transmit : Frame -> W -> io unit * W
}.

(** What the driver relies on, with the messages received and the frames handed
    to the stream so far as observations: a receive appends what it returns and
    sends nothing; a transmission appends its frame, and one that fails may have
    done so already (the frame is buffered before the flush). *)
Class MessageWireLaws (W In : Type) `{MessageWire W In} : Type := {
  sent : W -> list Frame;
  received : W -> list In;
  receive_keeps_sent w r w' : wire_receive w = (r, w') -> sent w' = sent w;
  receive_ok w m w' : wire_receive w = (Ok m, w') -> received w' = received w ++ [m];
  receive_err w e w' : wire_receive w = (Err e, w') -> received w' = received w;
  transmit_keeps_received f w r w' : wire_transmit f w = (r, w') -> received w' = received w;
  transmit_ok f w w' : wire_transmit f w = (Ok tt, w') -> sent w' = sent w ++ [f];
  transmit_err f w e w' : wire_transmit f w = (Err e, w') -> sent w' = sent w \/ sent w' = sent w ++ [f]
}.

(** The methods of [IntermediaryMiddleware] the driver calls; their futures have
    completed. *)
Class IntermediaryMiddleware (B State SC CC E : Type) := {
  observe_transition : B -> SC -> CC -> State -> ProtocolTransitionObservation -> B * State;
  frontend_operation : B -> SC -> CC -> State -> OperationId -> FrontendMessage ->
    result FrontendMiddlewareOutput E * (B * State);
  backend_operation : B -> SC -> CC -> State -> option OperationId -> BackendMessage ->
    result BackendMiddlewareOutput E * (B * State);
  flush_backend_operations : B -> SC -> CC -> State -> AttributedBackendMessages -> BackendFlushReason ->
    result BackendBatchOutput E * (B * State)
}.

Inductive IdentityIntermediaryMiddleware : Type := mkIdentityIntermediary.
Inductive Infallible : Type := .

(** The trait's default methods. *)
#[export] Instance identity_intermediary {State SC CC}
    : IntermediaryMiddleware IdentityIntermediaryMiddleware State SC CC Infallible := {|
  observe_transition b _ _ st _ := (b, st);
  frontend_operation b _ _ st _ m := (Ok (FM_Forward m), (b, st));
  backend_operation b _ _ st _ m := (Ok (BM_Forward m), (b, st));
  flush_backend_operations b _ _ st held _ := (Ok (ReplaceOneToOne (attributed_messages held)), (b, st))
|}.

(** ** Cancellation routes *)

(** [ConnectTarget] of src/client_component.rs *)
Record ConnectTarget : Type := mkTarget { target_name : bytes; target_metadata : BTreeMap }.
Definition ConnectTarget_new (name : bytes) : ConnectTarget := mkTarget name [].
Definition with_metadata (key value : bytes) (t : ConnectTarget) : ConnectTarget :=
  mkTarget (target_name t) (btree_insert key value (target_metadata t)).2.

Record CancellationRoute : Type := mkRoute { route_target : ConnectTarget; upstream_key : CancelKey }.

(** The trait's methods take [&self]; the store an implementation shares between
    its clones is passed along. *)
Class IntermediaryCancellationRegistry (K E : Type) : Type := {
  registry_register : CancellationRoute -> K -> result CancelKey E * K;
  registry_resolve : CancelKey -> K -> option CancellationRoute;
  registry_detach : CancelKey -> K -> option CancellationRoute * K
}.

Inductive InMemoryCancellationRegistryError : Type := DuplicateKey | Poisoned.

(** The routes behind the mutex, and whether a panic poisoned it. *)
Record InMemoryCancellationRegistry : Type :=
  mkRegistry { routes : gmap CancelKey CancellationRoute; poisoned : bool }.

#[export] Instance in_memory_registry
    : IntermediaryCancellationRegistry InMemoryCancellationRegistry InMemoryCancellationRegistryError := {
  registry_register route k :=
    let client_key := upstream_key route in
    if poisoned k then (Err Poisoned, k)
    else
      match routes k !! client_key with
      | Some _ => (Err DuplicateKey, k)
      | None => (Ok client_key, mkRegistry (<[client_key := route]> (routes k)) false)
      end;
  registry_resolve client k := if poisoned k then None else routes k !! client;
  registry_detach client k :=
    if poisoned k then (None, k) else (routes k !! client, mkRegistry (delete client (routes k)) false)
}.

Inductive RejectCancellation : Type := mkRejectCancellation.
#[export] Instance reject_registry : IntermediaryCancellationRegistry RejectCancellation Infallible := {
  registry_register _ k := (Panic (* unreachable! *), k);
  registry_resolve _ _ := None;
  registry_detach _ k := (None, k)
}.

(** ** Role cores *)

(** [ServerConnectionCore] and [ClientConnectionCore]: a connection, its role's
    middleware and context. *)
Record RoleCore (W H Context : Type) : Type := mkCore { core_conn : W; core_handler : H; core_context : Context }.
Arguments mkCore {W H Context}. Arguments core_conn {W H Context}. Arguments core_handler {W H Context}.
Arguments core_context {W H Context}.

Definition core_receive_wire_raw {W H Context In} `{MessageWire W In} (c : RoleCore W H Context)
    : io In * RoleCore W H Context :=
  let (r, w) := wire_receive (core_conn c) in (r, mkCore w (core_handler c) (core_context c)).

Definition core_transmit {W H Context In} `{MessageWire W In} (frame : io Frame) (c : RoleCore W H Context)
    : io unit * RoleCore W H Context :=
  match frame with
  | Ok frame => let (r, w) := wire_transmit frame (core_conn c) in (r, mkCore w (core_handler c) (core_context c))
  | Err e => (Err e, c)
  | Panic => (Panic, c)
  end.

(** [intercept_frontend] and [intercept_backend]: the role's hook on its context. *)
Definition core_intercept {W H Context State M} (on : hook H Context State M) (st : State) (m : M)
    (c : RoleCore W H Context) : M * (RoleCore W H Context * State) :=
  let '(m, (h, st)) := on (core_handler c) (core_context c) st m in
  (m, (mkCore (core_conn c) h (core_context c), st)).

(** ** Session pairs: src/intermediary.rs *)

Record SessionPair (Downstream Upstream P : Type) : Type :=
  mkPair { pair_downstream : Downstream; pair_upstream : Upstream; pair_pipeline : Pipeline P }.
Arguments mkPair {Downstream Upstream P}. Arguments pair_downstream {Downstream Upstream P}.
Arguments pair_upstream {Downstream Upstream P}. Arguments pair_pipeline {Downstream Upstream P}.

Definition SessionPair_new {D U} (downstream : D) (upstream : U) : SessionPair D U NoPipeline :=
  mkPair downstream upstream (Pipeline_new mkNoPipeline).

Definition with_pipeline {D U P Next} (policy : Next) (s : SessionPair D U P) : io (SessionPair D U Next) :=
  if pipeline_is_empty (pair_pipeline s)
  then Ok (mkPair (pair_downstream s) (pair_upstream s) (Pipeline_new policy))
  else Panic.

(** A side's transition returns the original side when it is rejected. *)
Definition transition_downstream {D U P Next Output E} (transition : D -> result (Next * Output) (D * E))
    (s : SessionPair D U P) : result (SessionPair Next U P * Output) (SessionPair D U P * E) :=
  match transition (pair_downstream s) with
  | Ok (downstream, output) => Ok (mkPair downstream (pair_upstream s) (pair_pipeline s), output)
  | Err (downstream, error) => Err (mkPair downstream (pair_upstream s) (pair_pipeline s), error)
  | Panic => Panic
  end.

Definition transition_upstream {D U P Next Output E} (transition : U -> result (Next * Output) (U * E))
    (s : SessionPair D U P) : result (SessionPair D Next P * Output) (SessionPair D U P * E) :=
  match transition (pair_upstream s) with
  | Ok (upstream, output) => Ok (mkPair (pair_downstream s) upstream (pair_pipeline s), output)
  | Err (upstream, error) => Err (mkPair (pair_downstream s) upstream (pair_pipeline s), error)
  | Panic => Panic
  end.

Definition inspect {D U P Message Output E} (policy : D -> U -> Message -> result Output E * (D * U))
    (message : Message) (s : SessionPair D U P) : result Output E * SessionPair D U P :=
  let '(r, (downstream, upstream)) := policy (pair_downstream s) (pair_upstream s) message in
  (r, mkPair downstream upstream (pair_pipeline s)).
