(* ===== verification/Relay.v ===== *)
(** The forwarding driver of src/intermediary_component.rs: the operations of an
    established [IntermediaryConnection]. *)

From Stdlib Require Import ZArith Lia String.
From Stdlib Require Import Init.Byte.
From stdpp Require Import prelude gmap.
From S2P Require Import Prelude OrdMap Wire Frame Frontend Backend Demux Cancel BackendHold Fsm Pipeline RuntimeMiddleware Intermediary.

Local Open Scope Z_scope.
Local Open Scope list_scope.

Record IntermediaryConnection (WD WU State SC CC SH CH B P K : Type) : Type := mkRelay {
  downstream : RoleCore WD SH SC;
  upstream : RoleCore WU CH CC;
  relay_state : State;
  boundary : B;
  pipeline : Pipeline P;
  target : ConnectTarget;
  pending_frontend : option PreparedFrontendForwarding;
  backend_hold : BackendHold;
  backend_hold_limits : option BackendHoldLimits;
  pending_local : list PendingLocalResponses;
  cancellation_registry : K;
  client_cancel_key : option CancelKey
}.
Arguments mkRelay {WD WU State SC CC SH CH B P K}. Arguments downstream {WD WU State SC CC SH CH B P K}.
Arguments upstream {WD WU State SC CC SH CH B P K}. Arguments relay_state {WD WU State SC CC SH CH B P K}.
Arguments boundary {WD WU State SC CC SH CH B P K}. Arguments pipeline {WD WU State SC CC SH CH B P K}.
Arguments target {WD WU State SC CC SH CH B P K}. Arguments pending_frontend {WD WU State SC CC SH CH B P K}.
Arguments backend_hold {WD WU State SC CC SH CH B P K}.
Arguments backend_hold_limits {WD WU State SC CC SH CH B P K}.
Arguments pending_local {WD WU State SC CC SH CH B P K}.
Arguments cancellation_registry {WD WU State SC CC SH CH B P K}.
Arguments client_cancel_key {WD WU State SC CC SH CH B P K}.

Declare Scope relay_scope.
Delimit Scope relay_scope with relay.

Section Driver.
Context {WD WU State SC CC SH CH B P K E KE : Type}.
Context `{!MessageWire WD FrontendMessage} `{!MessageWire WU BackendMessage}.
Context `{!ServerMiddleware SH State SC} `{!ClientMiddleware CH State CC}.
Context `{!IntermediaryMiddleware B State SC CC E} `{!PipelinePolicy P}.
Context `{!IntermediaryCancellationRegistry K KE}.

Abbreviation Relay := (IntermediaryConnection WD WU State SC CC SH CH B P K).
Implicit Type r : Relay.

(** *** Fields *)

Definition set_downstream (c : RoleCore WD SH SC) r : Relay :=
  mkRelay c (upstream r) (relay_state r) (boundary r) (pipeline r) (target r) (pending_frontend r)
    (backend_hold r) (backend_hold_limits r) (pending_local r) (cancellation_registry r) (client_cancel_key r).
Definition set_upstream (c : RoleCore WU CH CC) r : Relay :=
  mkRelay (downstream r) c (relay_state r) (boundary r) (pipeline r) (target r) (pending_frontend r)
    (backend_hold r) (backend_hold_limits r) (pending_local r) (cancellation_registry r) (client_cancel_key r).
Definition set_state (st : State) r : Relay :=
  mkRelay (downstream r) (upstream r) st (boundary r) (pipeline r) (target r) (pending_frontend r)
    (backend_hold r) (backend_hold_limits r) (pending_local r) (cancellation_registry r) (client_cancel_key r).
Definition set_boundary (b : B) r : Relay :=
  mkRelay (downstream r) (upstream r) (relay_state r) b (pipeline r) (target r) (pending_frontend r)
    (backend_hold r) (backend_hold_limits r) (pending_local r) (cancellation_registry r) (client_cancel_key r).
Definition set_pipeline (p : Pipeline P) r : Relay :=
  mkRelay (downstream r) (upstream r) (relay_state r) (boundary r) p (target r) (pending_frontend r)
    (backend_hold r) (backend_hold_limits r) (pending_local r) (cancellation_registry r) (client_cancel_key r).
Definition set_pending_frontend (f : option PreparedFrontendForwarding) r : Relay :=
  mkRelay (downstream r) (upstream r) (relay_state r) (boundary r) (pipeline r) (target r) f
    (backend_hold r) (backend_hold_limits r) (pending_local r) (cancellation_registry r) (client_cancel_key r).
Definition set_backend_hold (h : BackendHold) r : Relay :=
  mkRelay (downstream r) (upstream r) (relay_state r) (boundary r) (pipeline r) (target r) (pending_frontend r)
    h (backend_hold_limits r) (pending_local r) (cancellation_registry r) (client_cancel_key r).
Definition set_pending_local (l : list PendingLocalResponses) r : Relay :=
  mkRelay (downstream r) (upstream r) (relay_state r) (boundary r) (pipeline r) (target r) (pending_frontend r)
    (backend_hold r) (backend_hold_limits r) l (cancellation_registry r) (client_cancel_key r).
Definition set_cancellation (k : K) (key : option CancelKey) r : Relay :=
  mkRelay (downstream r) (upstream r) (relay_state r) (boundary r) (pipeline r) (target r) (pending_frontend r)
    (backend_hold r) (backend_hold_limits r) (pending_local r) k key.

(** *** Fallible steps over the connection: [&mut self] and [?] *)

Definition M (A : Type) : Type := Relay -> result A (ForwardError E) * Relay.
Definition ret {A} (x : A) : M A := fun r => (Ok x, r).
Definition raise {A} (e : ForwardError E) : M A := fun r => (Err e, r).
Definition panic {A} : M A := fun r => (Panic, r).
Definition bind {A C} (m : M A) (k : A -> M C) : M C :=
  fun r => match m r with
           | (Ok x, r') => k x r'
           | (Err e, r') => (Err e, r')
           | (Panic, r') => (Panic, r')
           end.
Definition get {A} (f : Relay -> A) : M A := fun r => (Ok (f r), r).
Definition put (f : Relay -> Relay) : M unit := fun r => (Ok tt, f r).
Notation "'do' x <- m ; k" := (bind m (fun x => k))
  (at level 10, x pattern, m at level 100, k at level 200) : relay_scope.
Notation "m ;; k" := (bind m (fun _ => k)) (at level 100, k at level 200, right associativity) : relay_scope.
Local Open Scope relay_scope.

(** A [for] loop that collects a value per element. *)
Fixpoint for_each {A C} (f : A -> M C) (l : list A) : M (list C) :=
  match l with
  | [] => ret []
  | x :: l => do y <- f x; do ys <- for_each f l; ret (y :: ys)
  end.

(** *** The calls into the role cores and the boundary middleware *)

Definition receive_downstream : M FrontendMessage := fun r =>
  let (x, c) := core_receive_wire_raw (downstream r) in (map_err FE_Io x, set_downstream c r).
Definition receive_upstream : M BackendMessage := fun r =>
  let (x, c) := core_receive_wire_raw (upstream r) in (map_err FE_Io x, set_upstream c r).
Definition send_downstream (m : BackendMessage) : M unit := fun r =>
  let (x, c) := core_transmit (BackendMessage_to_frame m) (downstream r) in (map_err FE_Io x, set_downstream c r).
Definition send_upstream (m : FrontendMessage) : M unit := fun r =>
  let (x, c) := core_transmit (FrontendMessage_to_frame m) (upstream r) in (map_err FE_Io x, set_upstream c r).

Definition downstream_frontend (m : FrontendMessage) : M FrontendMessage := fun r =>
  let '(m, (c, st)) := core_intercept server_frontend (relay_state r) m (downstream r) in
  (Ok m, set_state st (set_downstream c r)).
Definition downstream_backend (m : BackendMessage) : M BackendMessage := fun r =>
  let '(m, (c, st)) := core_intercept server_backend (relay_state r) m (downstream r) in
  (Ok m, set_state st (set_downstream c r)).
Definition upstream_frontend (m : FrontendMessage) : M FrontendMessage := fun r =>
  let '(m, (c, st)) := core_intercept client_frontend (relay_state r) m (upstream r) in
  (Ok m, set_state st (set_upstream c r)).
Definition upstream_backend (m : BackendMessage) : M BackendMessage := fun r =>
  let '(m, (c, st)) := core_intercept client_backend (relay_state r) m (upstream r) in
  (Ok m, set_state st (set_upstream c r)).

Definition at_boundary {A} (f : B -> SC -> CC -> State -> A * (B * State)) (r : Relay) : A * Relay :=
  let '(a, (b, st)) := f (boundary r) (core_context (downstream r)) (core_context (upstream r)) (relay_state r) in
  (a, set_state st (set_boundary b r)).
Definition boundary_frontend (op : OperationId) (m : FrontendMessage) : M FrontendMiddlewareOutput := fun r =>
  let (x, r) := at_boundary (fun b s c st => frontend_operation b s c st op m) r in (map_err FE_Middleware x, r).
Definition boundary_backend (op : option OperationId) (m : BackendMessage) : M BackendMiddlewareOutput := fun r =>
  let (x, r) := at_boundary (fun b s c st => backend_operation b s c st op m) r in (map_err FE_Middleware x, r).
Definition boundary_flush (held : AttributedBackendMessages) (reason : BackendFlushReason)
    : M BackendBatchOutput := fun r =>
  let (x, r) := at_boundary (fun b s c st => flush_backend_operations b s c st held reason) r in
  (map_err FE_Middleware x, r).
Definition observe (o : ProtocolTransitionObservation) : M unit := fun r =>
  let (_, r) := at_boundary (fun b s c st => (tt, observe_transition b s c st o)) r in (Ok tt, r).

(** A pipeline operation, with the error it is reported as. *)
Definition on_pipeline {A PE} (err : PE -> ForwardError E) (f : Pipeline P -> result A PE * Pipeline P) : M A :=
  fun r => let (x, p) := f (pipeline r) in (map_err err x, set_pipeline p r).
(** A hold operation; its assertions panic. *)
Definition on_hold (f : BackendHold -> io BackendHold) : M unit := fun r =>
  match f (backend_hold r) with
  | Ok h => (Ok tt, set_backend_hold h r)
  | Err _ | Panic => (Panic, r)
  end.

(** *** Responses *)

Definition advance_backend (message : BackendMessage) : M BackendMessage :=
  do action <- on_pipeline FE_Backend (accept_backend message);
  match action with
  | Emit message => ret message
  | Deferred message => raise (FE_Deferred message)
  end.

Definition emit_backend (message : BackendMessage) : M BackendMessage :=
  do operation <- get (fun r => backend_operation_id message (pipeline r));
  do transition <- get (fun r => backend_transition_id message (pipeline r));
  do message <- advance_backend message;
  match transition with
  | Some transition => observe (mkObservation transition TowardsFrontend operation)
  | None => ret tt
  end;;
  send_downstream message;;
  ret message.

(** The loop of [flush_local_responses]: one iteration drops an empty entry or
    takes one queued message. *)
Fixpoint flush_local_loop (fuel : nat) (r : Relay) : option (result unit (ForwardError E) * Relay) :=
  match fuel with
  | O => None
  | S fuel =>
      match pending_local r with
      | [] => Some (Ok tt, r)
      | pending :: queue =>
          match local_messages pending with
          | [] => flush_local_loop fuel (set_pending_local queue r)
          | message :: messages =>
              let r := set_pending_local (mkPendingLocal (local_operation pending) messages :: queue) r in
              match on_pipeline FE_Backend (try_emit_local (local_operation pending) message) r with
              | (Ok (Emit message), r) =>
                  match send_downstream message r with
                  | (Ok _, r) => flush_local_loop fuel r
                  | (Err e, r) => Some (Err e, r)
                  | (Panic, r) => Some (Panic, r)
                  end
              | (Ok (Deferred message), r) =>
                  Some (Ok tt,
                    set_pending_local (mkPendingLocal (local_operation pending) (message :: messages) :: queue) r)
              | (Err e, r) => Some (Err e, r)
              | (Panic, r) => Some (Panic, r)
              end
          end
      end
  end.

(** Entries and messages the loop has left. *)
Definition queued_work (l : list PendingLocalResponses) : nat :=
  foldr (fun pending n => (S (List.length (local_messages pending)) + n)%nat) O l.

Definition flush_local_responses : M unit :=
  fun r => default (Panic, r) (flush_local_loop (S (queued_work (pending_local r))) r).

(** *** Requests *)

Definition forward_item (item : FrontendSequenceItem) : M (option FrontendMessage) :=
  match into_action (admission item) with
  | Action_Forward id message =>
      match item_transition item with
      | Some transition => observe (mkObservation transition TowardsBackend (Some id))
      | None => ret tt
      end;;
      send_upstream message;;
      ret (Some message)
  | Action_Discard _ => ret None
  end.

(** Send a committed sequence and report what left. *)
Definition forward_items (prepared : PreparedFrontendForwarding) (items : list FrontendSequenceItem)
    : M FrontendForwarding :=
  let expanded := bool_decide (1 < List.length (forwarding_messages prepared))%nat in
  let source := forwarding_source prepared in
  do forwarded <- for_each forward_item items;
  let messages := omap (fun message => message) forwarded in
  match messages with
  | [] => ret (FF_Suppressed source)
  | message :: _ =>
      if expanded then ret (FF_Expanded source messages)
      else ret (FF_Forwarded (List.last messages message))
  end.

Definition forward_prepared_frontend (prepared : PreparedFrontendForwarding) : M FrontendForwarding := fun r =>
  match prepare_frontend_sequence (forwarding_messages prepared) Forward (pipeline r) with
  | Err error => (Err (FE_Frontend error), set_pending_frontend (Some prepared) r)
  | Panic => (Panic, r)
  | Ok projection =>
      let (items, p) := commit_frontend_sequence projection (pipeline r) in
      forward_items prepared items (set_pipeline p r)
  end.

Definition process_frontend (message : FrontendMessage) : M FrontendForwarding :=
  do message <- downstream_frontend message;
  do operation <- get (fun r => next_operation_id (pipeline r));
  do decision <- boundary_frontend operation message;
  match decision with
  | FM_Forward message =>
      do message <- upstream_frontend message;
      forward_prepared_frontend (mkPreparedForwarding message [message])
  | FM_ForwardThenFlush source =>
      do primary <- upstream_frontend source;
      do flush <- upstream_frontend F_Flush;
      forward_prepared_frontend (mkPreparedForwarding source [primary; flush])
  | FM_Suppress message => ret (FF_Suppressed message)
  | FM_Respond request responses =>
      do admission <- on_pipeline FE_Frontend (accept_frontend request Local);
      match into_action admission with
      | Action_Forward _ _ => panic
      | Action_Discard id =>
          do messages <- for_each downstream_backend responses;
          put (fun r => set_pending_local (pending_local r ++ [mkPendingLocal id messages]) r);;
          flush_local_responses;;
          ret (FF_LocallyHandled request)
      end
  end.

Definition take_pending_frontend : M (option PreparedFrontendForwarding) :=
  fun r => (Ok (pending_frontend r), set_pending_frontend None r).

Definition forward_frontend : M FrontendForwarding :=
  do prepared <- take_pending_frontend;
  match prepared with
  | Some prepared => forward_prepared_frontend prepared
  | None => do message <- receive_downstream; process_frontend message
  end.

(** *** Held responses *)

Definition is_full (limits : option BackendHoldLimits) (h : BackendHold) : bool :=
  match limits with
  | Some limits => (max_messages limits <=? hold_len h) || (max_bytes limits <=? held_bytes h)
  | None => false
  end.
Definition backend_hold_is_full (r : Relay) : bool := is_full (backend_hold_limits r) (backend_hold r).

Definition attributed (r : Relay) : AttributedBackendMessages :=
  mkAttributed (held (backend_hold r)) (held_bytes (backend_hold r))
    (backend_operation_ids (held (backend_hold r)) (pipeline r)).

(** [message.to_frame().map_err(ForwardError::Io)?] *)
Definition check_frame (message : BackendMessage) : M unit := fun r =>
  match BackendMessage_to_frame message with
  | Ok _ => (Ok tt, r)
  | Err e => (Err (FE_Io e), r)
  | Panic => (Panic, r)
  end.

(** Adopt the validated projection of [messages] and empty the hold. *)
Definition release_hold (messages : list BackendMessage) : M unit := fun r =>
  match prepare_backend_replacements (held (backend_hold r)) messages (pipeline r) with
  | Err error => (Err (FE_BackendBatch (batch_error_from error) messages), r)
  | Panic => (Panic, r)
  | Ok prepared => (Ok tt, set_backend_hold (clear (backend_hold r)).2 (set_pipeline prepared r))
  end.

Definition release_span (messages : list BackendMessage) : M BackendBatchForwarding :=
  release_hold messages;;
  for_each send_downstream messages;;
  flush_local_responses;;
  ret (Released messages).

Definition flush_backend_hold_for (reason : BackendFlushReason) : M BackendBatchForwarding :=
  do empty <- get (fun r => hold_is_empty (backend_hold r));
  if empty : bool then ret Empty
  else
    do held <- get attributed;
    do decision <- boundary_flush held reason;
    match decision with
    | KeepHolding => ret Kept
    | ReplaceOneToOne messages =>
        do messages <- for_each downstream_backend messages;
        for_each check_frame messages;;
        release_span messages
    end.

Definition flush_backend_hold : M BackendBatchForwarding := flush_backend_hold_for Explicit.

Definition prepare_backend_teardown : M BackendBatchForwarding :=
  do outcome <- flush_backend_hold_for Teardown;
  match outcome with
  | Kept => raise FE_BackendHoldRefused
  | _ => ret outcome
  end.

Definition drop_pending : M unit := put (fun r => set_backend_hold (take_pending (backend_hold r)).2 r).

Definition process_pending_backend : M BackendForwarding :=
  do pending <- get (fun r => hold_pending_message (backend_hold r));
  match pending with
  | None => panic (* expect *)
  | Some source =>
      do operation <- get (fun r => backend_operation_id source (pipeline r));
      do decision <- boundary_backend operation source;
      do outcome <-
        match decision with
        | BM_Forward message =>
            drop_pending;;
            do message <- downstream_backend message;
            do message <- emit_backend message;
            ret (BF_Forwarded message)
        | BM_Suppress message =>
            drop_pending;;
            do message <- advance_backend message;
            ret (BF_Suppressed message)
        | BM_Expand messages =>
            match messages with
            | [] => raise (FE_EmptyExpansion source)
            | _ =>
                drop_pending;;
                do emitted <- for_each (fun message =>
                  do message <- downstream_backend message; emit_backend message) messages;
                ret (BF_Expanded source emitted)
            end
        | BM_Hold =>
            do limits <- get backend_hold_limits;
            match limits with
            | None => raise (FE_BackendHoldingDisabled source)
            | Some _ => on_hold hold_pending;; ret BF_Held
            end
        end;
      flush_local_responses;;
      ret outcome
  end.

(** Release the hold or fail with [refused] when middleware keeps it. *)
Definition release_or (reason : BackendFlushReason) (refused : ForwardError E) : M unit :=
  do outcome <- flush_backend_hold_for reason;
  match outcome with
  | Released _ | Empty => ret tt
  | Kept => raise refused
  end.

Definition process_backend (message : BackendMessage) : M BackendForwarding :=
  do message <- upstream_backend message;
  on_hold (set_pending message);;
  do barrier <- get (fun r =>
    match hold_pending_message (backend_hold r) with Some m => is_backend_batch_barrier m | None => false end
    && negb (hold_is_empty (backend_hold r)));
  (if barrier : bool then release_or ProtocolBarrier FE_BackendHoldRefused else ret tt);;
  process_pending_backend.

Definition make_room : M unit :=
  do full <- get backend_hold_is_full;
  if full : bool then release_or FlushCapacity FE_BackendHoldCapacity else ret tt.

Definition forward_backend : M BackendForwarding :=
  do pending <- get (fun r => hold_pending_message (backend_hold r));
  match pending with
  | Some _ => process_pending_backend
  | None =>
      make_room;;
      do message <- receive_upstream;
      process_backend message
  end.

(** *** Duplex forwarding *)

(** Retry a retained sequence; a capacity failure keeps it and lets backend
    traffic go on. *)
Definition retry_frontend : M (option ForwardedMessage) :=
  do prepared <- take_pending_frontend;
  match prepared with
  | None => ret None
  | Some prepared => fun r =>
      match forward_prepared_frontend prepared r with
      | (Ok outcome, r) => (Ok (Some (frontend_outcome outcome)), r)
      | (Err (FE_Frontend (Capacity _)), r) => (Ok None, r)
      | (Err e, r) => (Err e, r)
      | (Panic, r) => (Panic, r)
      end
  end.

(** Which receive of the [select!] completes. *)
Inductive side : Type := Downstream | Upstream.

Definition forward_next (ready : side) : M ForwardedMessage :=
  do pending <- get (fun r => hold_pending_message (backend_hold r));
  match pending with
  | Some _ => do outcome <- process_pending_backend; ret (backend_outcome outcome)
  | None =>
      make_room;;
      do retried <- retry_frontend;
      match retried with
      | Some outcome => ret outcome
      | None =>
          do blocked <- get (fun r => is_some (pending_frontend r));
          match (if blocked : bool then Upstream else ready) with
          | Upstream =>
              do message <- receive_upstream;
              do outcome <- process_backend message;
              ret (backend_outcome outcome)
          | Downstream =>
              do message <- receive_downstream;
              do outcome <- process_frontend message;
              ret (frontend_outcome outcome)
          end
      end
  end.

(** *** Teardown *)

Definition detach_cancellation (r : Relay) : option CancellationRoute * Relay :=
  match client_cancel_key r with
  | None => (None, r)
  | Some key =>
      let (route, k) := registry_detach key (cancellation_registry r) in (route, set_cancellation k None r)
  end.

Record RelayParts : Type := mkParts {
  part_transports : WD * WU;
  part_state : State;
  part_boundary : B;
  part_handlers : SH * CH;
  part_contexts : SC * CC;
  part_registry : K
}.

Definition teardown (r : Relay) : io RelayParts :=
  if hold_is_empty (backend_hold r) && bool_decide (hold_pending_message (backend_hold r) = None) then
    let r := (detach_cancellation r).2 in
    Ok (mkParts (core_conn (downstream r), core_conn (upstream r)) (relay_state r) (boundary r)
      (core_handler (downstream r), core_handler (upstream r))
      (core_context (downstream r), core_context (upstream r)) (cancellation_registry r))
  else Panic.
End Driver.
