(* ===== verification/RelayProofs.v ===== *)
(** A small program logic for the forwarding driver, and what every operation of
    the driver does to the ledger and to the two wires. *)

From Stdlib Require Import ZArith Lia String Sorting.Sorted.
From stdpp Require Import prelude gmap.
From S2P Require Import Prelude OrdMap Wire Frame Frontend Backend Demux Cancel BackendHold Fsm Pipeline PipelineProofs PipelineSpec RuntimeMiddleware Intermediary Relay.

Local Open Scope Z_scope.
Local Open Scope list_scope.

(** ** Observations of a ledger history *)

Section Observations.
Context {P : Type} `{PipelinePolicy P}.
Implicit Type p : Pipeline P.

(** The message a response emits, with the operation it answers. *)
Definition tagged_response (local : option OperationId) (m : BackendMessage) p
    : list (option OperationId * BackendMessage) :=
  match (accept_response local m p).1 with
  | Ok (Emit m') => [(head (emitted local m p), m')]
  | _ => []
  end.

Definition forwarded_message (a : FrontendAdmission) : option FrontendMessage :=
  match into_action a with Action_Forward _ m => Some m | Action_Discard _ => None end.

Definition step_responses (s : pipeline_step) p : list (option OperationId * BackendMessage) :=
  match s with
  | AcceptFrontend _ _ | AcceptSequence _ _ => []
  | AcceptBackend m => tagged_response None m p
  | EmitLocal id m => tagged_response (Some id) m p
  end.

Definition step_forwards (s : pipeline_step) p : list FrontendMessage :=
  match s with
  | AcceptFrontend m h =>
      match (accept_frontend m h p).1 with Ok a => option_list (forwarded_message a) | _ => [] end
  | AcceptSequence ms h =>
      match prepare_frontend_sequence ms h p with
      | Ok prepared => omap (fun item => forwarded_message (admission item)) prepared.2
      | _ => []
      end
  | AcceptBackend _ | EmitLocal _ _ => []
  end.

(** The responses of a history and the requests it forwards, in order. *)
Fixpoint responses (h : list pipeline_step) p : list (option OperationId * BackendMessage) :=
  match h with [] => [] | s :: h => step_responses s p ++ responses h (step_pipeline s p).2 end.
Fixpoint forwards (h : list pipeline_step) p : list FrontendMessage :=
  match h with [] => [] | s :: h => step_forwards s p ++ forwards h (step_pipeline s p).2 end.

Lemma run_pipeline_snoc h : forall p out p1 s o p2, run_pipeline h p = (Some out, p1) ->
  step_pipeline s p1 = (Some o, p2) ->
  run_pipeline (h ++ [s]) p = (Some (out ++ o), p2) /\
  responses (h ++ [s]) p = responses h p ++ step_responses s p1 /\
  forwards (h ++ [s]) p = forwards h p ++ step_forwards s p1.
Proof.
  induction h as [|s0 h IH]; intros p out p1 s o p2 Hr Hs; cbn [run_pipeline app] in *.
  - injection Hr as <- <-. rewrite Hs. simpl. rewrite !app_nil_r. auto.
  - destruct (step_pipeline s0 p) as [[o0|] q] eqn:Es; [|done].
    destruct (run_pipeline h q) as [[os|] q'] eqn:Er; [|done]. simpl in Hr. injection Hr as <- <-.
    destruct (IH _ _ _ _ _ _ Er Hs) as (E1 & E2 & E3). rewrite E1. cbn [responses forwards app].
    rewrite Es. cbn [snd]. rewrite E2, E3. simpl. rewrite !app_assoc. auto.
Qed.

Lemma run_pipeline_app h h' : forall p out p1 out' p2, run_pipeline h p = (Some out, p1) ->
  run_pipeline h' p1 = (Some out', p2) ->
  run_pipeline (h ++ h') p = (Some (out ++ out'), p2) /\ responses (h ++ h') p = responses h p ++ responses h' p1.
Proof.
  induction h as [|s h IH]; intros p out p1 out' p2 Hr Hr'; cbn [run_pipeline app] in *.
  - injection Hr as <- <-. auto.
  - destruct (step_pipeline s p) as [[o|] q] eqn:Es; [|done].
    destruct (run_pipeline h q) as [[os|] q'] eqn:Er; [|done]. simpl in Hr. injection Hr as <- <-.
    destruct (IH _ _ _ _ _ Er Hr') as [E1 E2]. rewrite E1. cbn [responses app].
    rewrite Es. cbn [snd]. rewrite E2. simpl. rewrite !app_assoc. auto.
Qed.

Lemma accept_response_emit local m p m' p' : accept_response local m p = (Ok (Emit m'), p') -> m' = m.
Proof.
  intros E. destruct (prepare_response local m p) as [|hd s| |] eqn:Ep.
  2:{ unfold accept_response in E. rewrite Ep in E. unfold commit_response in E.
      repeat (match type of E with context [match ?x with _ => _ end] => destruct x end); now simplify_eq. }
  all: unfold accept_response in E; rewrite Ep in E; simpl in E; now simplify_eq.
Qed.

(** The identities of a response's tags are those the history reports. *)
Lemma tagged_response_ids local m p : omap fst (tagged_response local m p) = emitted local m p.
Proof.
  unfold tagged_response, emitted. pose proof (accept_response_no_panic local m p) as Hn.
  destruct (prepare_response local m p) as [|hd s| |] eqn:Ep.
  - unfold accept_response. rewrite Ep. reflexivity.
  - destruct (accept_response local m p) as [[[m'|m']|e|] p'] eqn:E; try done; exfalso.
    all: unfold accept_response in E; rewrite Ep in E; unfold commit_response in E;
      repeat (match type of E with context [match ?x with _ => _ end] => destruct x end); now simplify_eq.
  - unfold accept_response. rewrite Ep. now destruct local; try destruct (is_error m).
  - unfold accept_response. rewrite Ep. reflexivity.
Qed.

Lemma step_responses_ids s p o p' : step_pipeline s p = (Some o, p') -> omap fst (step_responses s p) = o.
Proof.
  destruct s as [m hd|ms hd|m|id m]; simpl; intros Hs.
  - destruct (accept_frontend m hd p) as [[] ?]; now simplify_eq.
  - destruct (prepare_frontend_sequence ms hd p); now simplify_eq.
  - rewrite tagged_response_ids. destruct (accept_backend m p) as [[] ?]; now simplify_eq.
  - rewrite tagged_response_ids. destruct (try_emit_local id m p) as [[] ?]; now simplify_eq.
Qed.

Lemma responses_ids h : forall p out p', run_pipeline h p = (Some out, p') -> omap fst (responses h p) = out.
Proof.
  induction h as [|s h IH]; intros p out p' Hr; cbn [run_pipeline responses] in *; [now simplify_eq|].
  destruct (step_pipeline s p) as [[o|] q] eqn:Es; [|done].
  destruct (run_pipeline h q) as [[os|] q'] eqn:Er; [|done]. simpl in Hr. injection Hr as <- <-.
  rewrite omap_app. f_equal; [now apply step_responses_ids in Es|now apply IH in Er].
Qed.
End Observations.

Definition backend_frames (ms : list BackendMessage) : list Frame :=
  omap (fun m => match BackendMessage_to_frame m with Ok f => Some f | _ => None end) ms.
Definition frontend_frames (ms : list FrontendMessage) : list Frame :=
  omap (fun m => match FrontendMessage_to_frame m with Ok f => Some f | _ => None end) ms.

(** ** A program logic for the driver *)

Section Logic.
Context {WD WU State SC CC SH CH B P K E KE : Type}.
Context `{!MessageWire WD FrontendMessage} `{!MessageWire WU BackendMessage}.
Context `{!ServerMiddleware SH State SC} `{!ClientMiddleware CH State CC}.
Context `{!IntermediaryMiddleware B State SC CC E} `{!PipelinePolicy P}.
Context `{!IntermediaryCancellationRegistry K KE}.

Abbreviation Relay := (IntermediaryConnection WD WU State SC CC SH CH B P K).
Abbreviation Mr := (@M WD WU State SC CC SH CH B P K E).
Implicit Type r : Relay.

(** From a connection that satisfies [Pre], [m] panics, returns with [Q], or fails
    with [F]. *)
Definition triple {A} (Pre : Relay -> Prop) (m : Mr A) (Q : A -> Relay -> Prop) (F : Relay -> Prop) : Prop :=
  forall r, Pre r ->
    match m r with
    | (Ok x, r') => Q x r'
    | (Err _, r') => F r'
    | (Panic, _) => True
    end.

Lemma triple_ret {A} (Pre : Relay -> Prop) (x : A) Q F : (forall r, Pre r -> Q x r) -> triple Pre (ret x) Q F.
Proof. intros H r Hr. now apply H. Qed.
Lemma triple_raise {A} (Pre : Relay -> Prop) e (Q : A -> Relay -> Prop) (F : Relay -> Prop) :
  (forall r, Pre r -> F r) -> triple Pre (raise e) Q F.
Proof. intros H r Hr. now apply H. Qed.
Lemma triple_panic {A} (Pre : Relay -> Prop) (Q : A -> Relay -> Prop) F : triple Pre panic Q F.
Proof. now intros r Hr. Qed.
Lemma triple_bind {A C} Pre (m : Mr A) (k : A -> Mr C) R Q F :
  triple Pre m R F -> (forall x, triple (R x) (k x) Q F) -> triple Pre (bind m k) Q F.
Proof.
  intros Hm Hk r Hr. unfold bind. specialize (Hm r Hr). destruct (m r) as [[x|e|] r']; [|done..].
  exact (Hk x r' Hm).
Qed.
Lemma triple_get {A} (Pre : Relay -> Prop) (f : Relay -> A) F :
  triple Pre (get f) (fun x r => Pre r /\ x = f r) F.
Proof. intros r Hr. split; [exact Hr|reflexivity]. Qed.
Lemma triple_put (Pre : Relay -> Prop) f (Q : unit -> Relay -> Prop) F :
  (forall r, Pre r -> Q tt (f r)) -> triple Pre (put f) Q F.
Proof. intros H r Hr. now apply H. Qed.
Lemma triple_conseq {A} (Pre Pre' : Relay -> Prop) (m : Mr A) (Q Q' : A -> Relay -> Prop) (F : Relay -> Prop) :
  triple Pre m Q F -> (forall r, Pre' r -> Pre r) -> (forall x r, Q x r -> Q' x r) -> triple Pre' m Q' F.
Proof.
  intros Hm Hp Hq r Hr. specialize (Hm r (Hp r Hr)). destruct (m r) as [[]]; auto.
Qed.
(** A loop invariant speaks about the elements that are left. *)
Lemma triple_for_each {A C} (I : list A -> Relay -> Prop) (f : A -> Mr C) F :
  (forall x l, triple (I (x :: l)) (f x) (fun _ => I l) F) ->
  forall l, triple (I l) (for_each f l) (fun _ => I []) F.
Proof.
  intros Hf l. induction l as [|x l IH]; cbn [for_each]; [now apply triple_ret|].
  eapply triple_bind; [apply Hf|]. intros y. eapply triple_bind; [apply IH|]. intros ys. now apply triple_ret.
Qed.

(** The same invariant before and after, also on failure. *)
Definition keeps {A} (I : Relay -> Prop) (m : Mr A) : Prop := triple I m (fun _ => I) I.

Lemma keeps_bind {A C} I (m : Mr A) (k : A -> Mr C) : keeps I m -> (forall x, keeps I (k x)) -> keeps I (bind m k).
Proof. intros. now apply (triple_bind _ _ _ (fun _ => I)). Qed.
Lemma keeps_ret {A} I (x : A) : keeps I (ret x). Proof. now apply triple_ret. Qed.
Lemma keeps_raise {A} I e : keeps I (raise (A := A) e). Proof. now apply triple_raise. Qed.
Lemma keeps_panic {A} I : keeps I (panic (A := A)). Proof. apply triple_panic. Qed.
Lemma keeps_get {A} I (f : Relay -> A) : keeps I (get f).
Proof. now intros r Hr. Qed.
Lemma keeps_for_each {A C} I (f : A -> Mr C) l : (forall x, keeps I (f x)) -> keeps I (for_each f l).
Proof. intros Hf. apply (triple_for_each (fun _ => I)). intros x _. apply Hf. Qed.

(** *** Steps that leave the ledger, the queues and the outputs alone *)

Context `{!MessageWireLaws WD FrontendMessage} `{!MessageWireLaws WU BackendMessage}.

Definition to_client r : list Frame := sent (core_conn (downstream r)).
Definition to_server r : list Frame := sent (core_conn (upstream r)).

Record quiet r r' : Prop := mkQuiet {
  quiet_pipeline : pipeline r' = pipeline r;
  quiet_hold : backend_hold r' = backend_hold r;
  quiet_limits : backend_hold_limits r' = backend_hold_limits r;
  quiet_local : pending_local r' = pending_local r;
  quiet_client : to_client r' = to_client r;
  quiet_server : to_server r' = to_server r
}.

Definition stable (I : Relay -> Prop) : Prop := forall r r', quiet r r' -> I r -> I r'.
Definition quiet_op {A} (m : Mr A) : Prop := forall r, (m r).1 = Panic \/ quiet r (m r).2.

Lemma keeps_quiet {A} I (m : Mr A) : stable I -> quiet_op m -> keeps I m.
Proof.
  intros Hs Hm r Hr. specialize (Hm r). destruct (m r) as [[x|e|] r']; simpl in Hm; [| |done];
    destruct Hm as [?|Hq]; try done; eapply Hs; eassumption.
Qed.

Lemma quiet_receive_downstream : quiet_op receive_downstream.
Proof.
  intros r. right. unfold receive_downstream, core_receive_wire_raw. destruct (wire_receive _) as [x w] eqn:Ew.
  split; try reflexivity. unfold to_client. simpl. eapply receive_keeps_sent; exact Ew.
Qed.
Lemma quiet_receive_upstream : quiet_op receive_upstream.
Proof.
  intros r. right. unfold receive_upstream, core_receive_wire_raw. destruct (wire_receive _) as [x w] eqn:Ew.
  split; try reflexivity. unfold to_server. simpl. eapply receive_keeps_sent; exact Ew.
Qed.
Ltac quiet_hook := intros r; right; unfold core_intercept; destruct (_ _ _ _ _) as [m' [h st]]; split; reflexivity.
Lemma quiet_downstream_frontend m : quiet_op (downstream_frontend m). Proof. unfold downstream_frontend. quiet_hook. Qed.
Lemma quiet_downstream_backend m : quiet_op (downstream_backend m). Proof. unfold downstream_backend. quiet_hook. Qed.
Lemma quiet_upstream_frontend m : quiet_op (upstream_frontend m). Proof. unfold upstream_frontend. quiet_hook. Qed.
Lemma quiet_upstream_backend m : quiet_op (upstream_backend m). Proof. unfold upstream_backend. quiet_hook. Qed.
Lemma quiet_at_boundary {A} (f : B -> SC -> CC -> State -> A * (B * State)) r : quiet r (at_boundary f r).2.
Proof. unfold at_boundary. destruct (f _ _ _ _) as [a [b st]]. split; reflexivity. Qed.
Ltac quiet_boundary := intros r; right;
  match goal with |- context [at_boundary ?f r] =>
    let Hq := fresh in pose proof (quiet_at_boundary f r) as Hq; destruct (at_boundary f r); exact Hq
  end.
Lemma quiet_boundary_frontend op m : quiet_op (boundary_frontend op m).
Proof. unfold boundary_frontend. quiet_boundary. Qed.
Lemma quiet_boundary_backend op m : quiet_op (boundary_backend op m).
Proof. unfold boundary_backend. quiet_boundary. Qed.
Lemma quiet_boundary_flush h reason : quiet_op (boundary_flush h reason).
Proof. unfold boundary_flush. quiet_boundary. Qed.
Lemma quiet_observe o : quiet_op (observe o).
Proof. unfold observe. quiet_boundary. Qed.
Lemma quiet_take_pending_frontend : quiet_op take_pending_frontend.
Proof. intros r. right. split; reflexivity. Qed.
Lemma quiet_check_frame m : quiet_op (check_frame m).
Proof. intros r. unfold check_frame. destruct (BackendMessage_to_frame m); [right|right|left]; split; reflexivity. Qed.
End Logic.

Create HintDb relay.
#[export] Hint Resolve keeps_ret keeps_raise keeps_panic keeps_get keeps_for_each : relay.
#[export] Hint Resolve quiet_receive_downstream quiet_receive_upstream quiet_downstream_frontend
  quiet_downstream_backend quiet_upstream_frontend quiet_upstream_backend quiet_boundary_frontend
  quiet_boundary_backend quiet_boundary_flush quiet_observe quiet_take_pending_frontend quiet_check_frame : relay.

(** Walk through a driver program, closing quiet steps. *)
Ltac relay_walk :=
  repeat first
    [ match goal with |- forall _, _ => intro end
    | solve [eauto 3 with relay]
    | apply keeps_bind
    | apply keeps_for_each
    | apply keeps_quiet; [assumption|solve [eauto 3 with relay]]
    | case_match ].

(** ** Traffic is what the ledger emits *)

Section Traffic.
Context {WD WU State SC CC SH CH B P K E KE : Type}.
Context `{!MessageWire WD FrontendMessage} `{!MessageWire WU BackendMessage}.
Context `{!ServerMiddleware SH State SC} `{!ClientMiddleware CH State CC}.
Context `{!IntermediaryMiddleware B State SC CC E} `{!PipelinePolicy P}.
Context `{!IntermediaryCancellationRegistry K KE}.
Context `{!MessageWireLaws WD FrontendMessage} `{!MessageWireLaws WU BackendMessage}.

Abbreviation Relay := (IntermediaryConnection WD WU State SC CC SH CH B P K).
Abbreviation Mr := (@M WD WU State SC CC SH CH B P K E).
Implicit Type r : Relay.

(** [r] is reached from [r0] by a ledger history whose responses, in order and
    with omissions, are the frames sent to the client; [due] are responses of the
    history that may still be sent. Likewise the forwarded requests. *)
Definition accounts (r0 : Relay) (due : list (option OperationId * BackendMessage))
    (due_up : list FrontendMessage) (r : Relay) : Prop :=
  exists h out down up,
    run_pipeline h (pipeline r0) = (Some out, pipeline r) /\
    (down ++ due) `sublist_of` responses h (pipeline r0) /\
    to_client r = to_client r0 ++ backend_frames down.*2 /\
    (up ++ due_up) `sublist_of` forwards h (pipeline r0) /\
    to_server r = to_server r0 ++ frontend_frames up.

Lemma accounts_refl r : accounts r [] [] r.
Proof. exists [], [], [], []. simpl. rewrite !app_nil_r. auto. Qed.

Lemma accounts_stable r0 due due_up : stable (accounts r0 due due_up).
Proof.
  intros r r' Hq (h & out & down & up & Hr & Hd & Hc & Hu & Hs). exists h, out, down, up.
  now rewrite (quiet_pipeline _ _ Hq), (quiet_client _ _ Hq), (quiet_server _ _ Hq).
Qed.

Lemma accounts_drop r0 due due_up r : accounts r0 due due_up r -> accounts r0 [] [] r.
Proof.
  intros (h & out & down & up & Hr & Hd & Hc & Hu & Hs). exists h, out, down, up.
  rewrite !app_nil_r. split_and!; try done; (etrans; [|eassumption]); now apply sublist_inserts_r.
Qed.

(** A ledger step adds to what may be sent. *)
Lemma accounts_step r0 due due_up r s o p :
  accounts r0 due due_up r -> step_pipeline s (pipeline r) = (Some o, p) ->
  accounts r0 (due ++ step_responses s (pipeline r)) (due_up ++ step_forwards s (pipeline r)) (set_pipeline p r).
Proof.
  intros (h & out & down & up & Hr & Hd & Hc & Hu & Hs) Hst.
  destruct (run_pipeline_snoc h _ _ _ _ _ _ Hr Hst) as (E1 & E2 & E3).
  exists (h ++ [s]), (out ++ o), down, up. rewrite E2, E3, !app_assoc.
  split_and!; try done; now apply sublist_app.
Qed.

Lemma backend_frames_snoc l m f : BackendMessage_to_frame m = Ok f -> backend_frames (l ++ [m]) = backend_frames l ++ [f].
Proof. intros E1. unfold backend_frames. rewrite omap_app. simpl. now rewrite E1. Qed.
Lemma frontend_frames_snoc l m f : FrontendMessage_to_frame m = Ok f -> frontend_frames (l ++ [m]) = frontend_frames l ++ [f].
Proof. intros E1. unfold frontend_frames. rewrite omap_app. simpl. now rewrite E1. Qed.

(** What a transmission leaves: its frame sent, or on failure perhaps not. *)
Lemma send_downstream_cases m r x r' : (send_downstream m : Mr unit) r = (x, r') ->
  match x with
  | Ok _ => exists f, BackendMessage_to_frame m = Ok f /\ to_client r' = to_client r ++ [f]
  | Err _ => to_client r' = to_client r \/
      exists f, BackendMessage_to_frame m = Ok f /\ to_client r' = to_client r ++ [f]
  | Panic => True
  end /\ pipeline r' = pipeline r /\ to_server r' = to_server r.
Proof.
  unfold send_downstream, core_transmit, to_client, to_server.
  destruct (BackendMessage_to_frame m) as [f|e|]; [|intros [= <- <-]; simpl; auto..].
  destruct (wire_transmit f _) as [[[]|e|] w] eqn:Ew; intros [= <- <-]; simpl; split; auto.
  - apply transmit_ok in Ew. eauto.
  - apply transmit_err in Ew as [?|?]; eauto.
Qed.
Lemma send_upstream_cases m r x r' : (send_upstream m : Mr unit) r = (x, r') ->
  match x with
  | Ok _ => exists f, FrontendMessage_to_frame m = Ok f /\ to_server r' = to_server r ++ [f]
  | Err _ => to_server r' = to_server r \/
      exists f, FrontendMessage_to_frame m = Ok f /\ to_server r' = to_server r ++ [f]
  | Panic => True
  end /\ pipeline r' = pipeline r /\ to_client r' = to_client r.
Proof.
  unfold send_upstream, core_transmit, to_client, to_server.
  destruct (FrontendMessage_to_frame m) as [f|e|]; [|intros [= <- <-]; simpl; auto..].
  destruct (wire_transmit f _) as [[[]|e|] w] eqn:Ew; intros [= <- <-]; simpl; split; auto.
  - apply transmit_ok in Ew. eauto.
  - apply transmit_err in Ew as [?|?]; eauto.
Qed.

Lemma accounts_sent_down r0 t m due due_up r r' f : accounts r0 ((t, m) :: due) due_up r ->
  BackendMessage_to_frame m = Ok f -> pipeline r' = pipeline r -> to_server r' = to_server r ->
  to_client r' = to_client r ++ [f] -> accounts r0 due due_up r'.
Proof.
  intros (h & out & down & up & Hr & Hd & Hc & Hu & Hs) Hf Ep Es Ec. exists h, out, (down ++ [(t, m)]), up.
  rewrite Ep, Es, Ec, Hc, fmap_app. simpl. rewrite (backend_frames_snoc _ _ _ Hf), <- !app_assoc. auto.
Qed.
Lemma accounts_sent_up r0 m due due_up r r' f : accounts r0 due (m :: due_up) r ->
  FrontendMessage_to_frame m = Ok f -> pipeline r' = pipeline r -> to_client r' = to_client r ->
  to_server r' = to_server r ++ [f] -> accounts r0 due due_up r'.
Proof.
  intros (h & out & down & up & Hr & Hd & Hc & Hu & Hs) Hf Ep Ec Es. exists h, out, down, (up ++ [m]).
  rewrite Ep, Es, Ec, Hs, (frontend_frames_snoc _ _ _ Hf), <- !app_assoc. auto.
Qed.
Lemma accounts_same r0 due due_up r r' : accounts r0 due due_up r ->
  pipeline r' = pipeline r -> to_client r' = to_client r -> to_server r' = to_server r -> accounts r0 due due_up r'.
Proof. intros H E1 E2 E3. unfold accounts. now rewrite E1, E2, E3. Qed.

Lemma send_downstream_due r0 t m due due_up :
  triple (accounts r0 ((t, m) :: due) due_up) (send_downstream m : Mr unit) (fun _ => accounts r0 due due_up) (accounts r0 [] []).
Proof.
  intros r Hr. destruct (send_downstream m r) as [x r'] eqn:Em.
  apply send_downstream_cases in Em as (Hc & Ep & Es). destruct x as [x|e|]; simpl in *; [|destruct Hc as [Hc|Hc]|done].
  2: apply accounts_drop in Hr; eapply accounts_same; eassumption.
  2: eapply accounts_drop.
  all: destruct Hc as (f & Hf & Hc); eapply accounts_sent_down; eassumption.
Qed.
Lemma send_upstream_due r0 m due due_up :
  triple (accounts r0 due (m :: due_up)) (send_upstream m : Mr unit) (fun _ => accounts r0 due due_up) (accounts r0 [] []).
Proof.
  intros r Hr. destruct (send_upstream m r) as [x r'] eqn:Em.
  apply send_upstream_cases in Em as (Hc & Ep & Es). destruct x as [x|e|]; simpl in *; [|destruct Hc as [Hc|Hc]|done].
  2: apply accounts_drop in Hr; eapply accounts_same; eassumption.
  2: eapply accounts_drop.
  all: destruct Hc as (f & Hf & Hc); eapply accounts_sent_up; eassumption.
Qed.

(** The ledger's answer to a response, as a triple. *)
Lemma response_due r0 (local : option OperationId) m :
  triple (accounts r0 [] []) (on_pipeline FE_Backend (accept_response local m) : Mr BackendAction)
    (fun a r => match a with
                | Emit m' => exists t, accounts r0 [(t, m')] [] r
                | Deferred _ => accounts r0 [] [] r
                end) (accounts r0 [] []).
Proof.
  intros r Hr. unfold on_pipeline. destruct (accept_response local m (pipeline r)) as [x p] eqn:Ea.
  pose proof (accept_response_no_panic local m (pipeline r)) as Hn. rewrite Ea in Hn.
  set (s := match local with Some id => EmitLocal id m | None => AcceptBackend m end).
  assert (step_pipeline s (pipeline r) = (Some (emitted local m (pipeline r)), p)) as Hs.
  { subst s. destruct local; simpl; unfold accept_backend, try_emit_local; rewrite Ea; now destruct x. }
  assert (step_responses s (pipeline r) = tagged_response local m (pipeline r) /\ step_forwards s (pipeline r) = [])
    as [Er Ef] by (subst s; now destruct local).
  pose proof (accounts_step _ _ _ _ _ _ _ Hr Hs) as Hp. rewrite Er, Ef in Hp. simpl in Hp.
  destruct x as [[m'|m']|e|]; simpl; [|now apply accounts_drop in Hp|now apply accounts_drop in Hp|done].
  unfold tagged_response in Hp. rewrite Ea in Hp. simpl in Hp. eauto.
Qed.

Lemma advance_backend_due r0 m :
  triple (accounts r0 [] []) (advance_backend m : Mr BackendMessage)
    (fun m' r => exists t, accounts r0 [(t, m')] [] r) (accounts r0 [] []).
Proof.
  unfold advance_backend, accept_backend. eapply triple_bind; [apply response_due|]. intros [m'|m'].
  - now apply triple_ret.
  - now apply triple_raise.
Qed.

Lemma triple_exists {A T} (I : T -> Relay -> Prop) (m : Mr A) Q F :
  (forall t, triple (I t) m Q F) -> triple (fun r => exists t, I t r) m Q F.
Proof. intros Hm r [t Hr]. exact (Hm t r Hr). Qed.

(** A quiet step in a triple whose failure drops what is due. *)
Lemma triple_quiet {A} r0 due due_up (m : Mr A) : quiet_op m ->
  triple (accounts r0 due due_up) m (fun _ => accounts r0 due due_up) (accounts r0 [] []).
Proof.
  intros Hm r Hr. pose proof (keeps_quiet _ m (accounts_stable r0 due due_up) Hm r Hr) as H.
  destruct (m r) as [[]]; [done|now apply accounts_drop in H|done].
Qed.

Lemma observe_opt_quiet (o : option string) d i :
  quiet_op (match o with Some t => observe (mkObservation t d i) | None => ret tt end : Mr unit).
Proof. destruct o; [apply quiet_observe|]. intros r. right. split; reflexivity. Qed.

Lemma emit_backend_keeps r0 m : keeps (accounts r0 [] []) (emit_backend m : Mr BackendMessage).
Proof.
  unfold emit_backend. apply keeps_bind; [apply keeps_get|intros operation].
  apply keeps_bind; [apply keeps_get|intros transition].
  eapply triple_bind; [apply advance_backend_due|]. intros m'. apply triple_exists. intros t.
  eapply triple_bind; [apply triple_quiet, observe_opt_quiet|]. intros [].
  eapply triple_bind; [apply send_downstream_due|]. intros []. now apply triple_ret.
Qed.

Lemma pending_local_stable r0 l r : accounts r0 [] [] r -> accounts r0 [] [] (set_pending_local l r).
Proof. done. Qed.

Lemma flush_local_loop_keeps r0 fuel : forall r, accounts r0 [] [] r ->
  match (flush_local_loop fuel r : option (result unit (ForwardError E) * Relay)) with
  | None | Some (Panic, _) => True
  | Some (_, r') => accounts r0 [] [] r'
  end.
Proof.
  induction fuel as [|fuel IH]; intros r Hr; cbn [flush_local_loop]; [done|].
  destruct (pending_local r) as [|pending queue]; [done|].
  destruct (local_messages pending) as [|message messages]; [now apply IH|].
  set (r1 := set_pending_local _ r). assert (accounts r0 [] [] r1) as Hr1 by exact Hr. clearbody r1.
  pose proof (response_due r0 (Some (local_operation pending)) message r1 Hr1) as Hd. unfold try_emit_local.
  destruct (on_pipeline FE_Backend _ r1) as [[[m'|m']|e|] r2]; [|exact Hd|exact Hd|done].
  destruct Hd as [t Hd]. pose proof (send_downstream_due r0 t m' [] [] r2 Hd) as Hsd.
  destruct (send_downstream m' r2) as [[x|e|] r3]; [now apply IH|done..].
Qed.

Lemma flush_local_responses_keeps r0 : keeps (accounts r0 [] []) (flush_local_responses : Mr unit).
Proof.
  intros r Hr. unfold flush_local_responses.
  pose proof (flush_local_loop_keeps r0 (S (queued_work (pending_local r))) r Hr) as H.
  destruct (flush_local_loop _ r) as [[[]]|]; done.
Qed.

(** The requests of a sequence that are still to be sent. *)
Definition to_forward (items : list FrontendSequenceItem) : list FrontendMessage :=
  omap (fun item => forwarded_message (admission item)) items.

Lemma forward_item_due r0 item items :
  triple (accounts r0 [] (to_forward (item :: items))) (forward_item item : Mr (option FrontendMessage))
    (fun _ => accounts r0 [] (to_forward items)) (accounts r0 [] []).
Proof.
  unfold to_forward, forward_item, forwarded_message. cbn [omap list_omap].
  destruct (into_action (admission item)) as [id m|id]; [|now apply triple_ret].
  eapply triple_bind; [apply triple_quiet, observe_opt_quiet|]. intros [].
  eapply triple_bind; [apply send_upstream_due|]. intros []. now apply triple_ret.
Qed.

Lemma forward_items_due r0 prepared items :
  triple (accounts r0 [] (to_forward items)) (forward_items prepared items : Mr FrontendForwarding)
    (fun _ => accounts r0 [] []) (accounts r0 [] []).
Proof.
  unfold forward_items. eapply triple_bind.
  { apply (triple_for_each (fun l => accounts r0 [] (to_forward l))). intros. apply forward_item_due. }
  intros l. cbv zeta. destruct (omap _ l) as [|m0 ms]; [|destruct (bool_decide _)]; now apply triple_ret.
Qed.

Lemma forward_prepared_frontend_keeps r0 prepared :
  keeps (accounts r0 [] []) (forward_prepared_frontend prepared : Mr FrontendForwarding).
Proof.
  intros r Hr. unfold forward_prepared_frontend.
  destruct (prepare_frontend_sequence _ Forward (pipeline r)) as [[p items]|e|] eqn:Es; [|exact Hr|done].
  cbn [commit_frontend_sequence fst snd].
  assert (accounts r0 [] (to_forward items) (set_pipeline p r)) as Hp.
  { pose proof (accounts_step r0 [] [] r (AcceptSequence (forwarding_messages prepared) Forward) [] p Hr) as H.
    cbn [step_pipeline step_forwards step_responses] in H. rewrite Es in H. now apply H. }
  revert Hp. generalize (set_pipeline p r). exact (forward_items_due r0 prepared items).
Qed.

#[local] Hint Resolve emit_backend_keeps flush_local_responses_keeps forward_prepared_frontend_keeps : relay.
#[local] Hint Resolve accounts_stable : relay.

Lemma accept_local_keeps r0 request :
  keeps (accounts r0 [] []) (on_pipeline FE_Frontend (accept_frontend request Local) : Mr FrontendAdmission).
Proof.
  intros r Hr. unfold on_pipeline. destruct (accept_frontend request Local (pipeline r)) as [x p] eqn:Ea.
  pose proof (accounts_step r0 [] [] r (AcceptFrontend request Local) [] p Hr) as H.
  cbn [step_pipeline] in H. rewrite Ea in H. destruct x; simpl; [| |done]; eapply accounts_drop, H; reflexivity.
Qed.
#[local] Hint Resolve accept_local_keeps : relay.

Lemma put_keeps (I : Relay -> Prop) f : (forall r, I r -> I (f r)) -> keeps I (put f : Mr unit).
Proof. intros H. now apply triple_put. Qed.

Lemma process_frontend_keeps r0 m : keeps (accounts r0 [] []) (process_frontend m : Mr FrontendForwarding).
Proof.
  pose proof (accounts_stable r0 [] []) as Hst. unfold process_frontend. relay_walk.
  apply put_keeps. auto.
Qed.

Lemma forward_frontend_keeps r0 : keeps (accounts r0 [] []) (forward_frontend : Mr FrontendForwarding).
Proof.
  pose proof (accounts_stable r0 [] []) as Hst. pose proof (process_frontend_keeps r0).
  unfold forward_frontend. relay_walk.
Qed.

(** A checked span that the ledger accepts is emitted message by message. *)
Lemma project_span_due r0 ms : forall r p due, accounts r0 due [] r ->
  project_span true ms (pipeline r) = Ok p ->
  exists tags, tags.*2 = ms /\ accounts r0 (due ++ tags) [] (set_pipeline p r).
Proof.
  induction ms as [|m ms IH]; intros r p due Hr Hp; cbn [project_span] in Hp.
  { exists []. injection Hp as <-. rewrite app_nil_r. split; [done|]. now destruct r. }
  destruct (true && _); [done|]. destruct (accept_backend m (pipeline r)) as [[[m'|m']|e|] q] eqn:Ea; try done.
  pose proof (accept_response_emit None m _ _ _ Ea) as ->.
  pose proof (accounts_step r0 due [] r (AcceptBackend m) (emitted None m (pipeline r)) q Hr) as H.
  cbn [step_pipeline step_responses step_forwards] in H. unfold tagged_response in H.
  unfold accept_backend in Ea. unfold accept_backend in H. rewrite Ea in H. specialize (H eq_refl). simpl in H.
  destruct (IH (set_pipeline q r) p _ H Hp) as (tags & Et & Ht).
  exists ((head (emitted None m (pipeline r)), m) :: tags). cbn [fmap list_fmap snd]. rewrite Et.
  split; [done|]. now rewrite <- app_assoc in Ht.
Qed.

Lemma release_hold_due r0 ms :
  triple (accounts r0 [] []) (release_hold ms : Mr unit)
    (fun _ r => exists tags, tags.*2 = ms /\ accounts r0 tags [] r) (accounts r0 [] []).
Proof.
  intros r Hr. unfold release_hold. destruct (prepare_backend_replacements _ ms (pipeline r)) as [p|e|] eqn:Ep;
    [|exact Hr|done].
  unfold prepare_backend_replacements in Ep. destruct (negb _); [done|].
  destruct (project_span false _ _) as [p1| |]; try done. cbn [map_err] in Ep.
  destruct (project_span true ms (pipeline r)) as [p2| |] eqn:E2; try done. simpl in Ep.
  destruct (_ || _); [done|]. injection Ep as <-.
  exact (project_span_due r0 ms r p2 [] Hr E2).
Qed.

Lemma send_all_due r0 tags :
  triple (accounts r0 tags []) (for_each send_downstream tags.*2 : Mr (list unit))
    (fun _ => accounts r0 [] []) (accounts r0 [] []).
Proof.
  induction tags as [|[t m] tags IH]; cbn [fmap list_fmap for_each snd]; [now apply triple_ret|].
  eapply triple_bind; [apply send_downstream_due|]. intros []. eapply triple_bind; [apply IH|].
  intros l. now apply triple_ret.
Qed.

Lemma release_span_keeps r0 ms : keeps (accounts r0 [] []) (release_span ms : Mr BackendBatchForwarding).
Proof.
  unfold release_span. eapply triple_bind; [apply release_hold_due|]. intros []. apply triple_exists. intros tags.
  intros r [<- Hr]. revert r Hr. eapply triple_bind; [apply send_all_due|]. intros l.
  exact (keeps_bind _ _ _ (flush_local_responses_keeps r0) (fun _ => keeps_ret _ _)).
Qed.
#[local] Hint Resolve release_span_keeps : relay.

Lemma flush_backend_hold_for_keeps r0 reason :
  keeps (accounts r0 [] []) (flush_backend_hold_for reason : Mr BackendBatchForwarding).
Proof. pose proof (accounts_stable r0 [] []) as Hst. unfold flush_backend_hold_for. relay_walk. Qed.
#[local] Hint Resolve flush_backend_hold_for_keeps : relay.

Lemma advance_backend_keeps r0 m : keeps (accounts r0 [] []) (advance_backend m : Mr BackendMessage).
Proof.
  eapply triple_conseq; [apply advance_backend_due|auto|]. intros m' r [t Hr]. now apply accounts_drop in Hr.
Qed.
#[local] Hint Resolve advance_backend_keeps : relay.

Lemma on_hold_keeps r0 f : keeps (accounts r0 [] []) (on_hold f : Mr unit).
Proof. intros r Hr. unfold on_hold. now destruct (f (backend_hold r)). Qed.
#[local] Hint Resolve on_hold_keeps : relay.

Lemma drop_pending_keeps r0 : keeps (accounts r0 [] []) (drop_pending : Mr unit).
Proof. apply put_keeps. auto. Qed.
#[local] Hint Resolve drop_pending_keeps : relay.

Lemma process_pending_backend_keeps r0 : keeps (accounts r0 [] []) (process_pending_backend : Mr BackendForwarding).
Proof. pose proof (accounts_stable r0 [] []) as Hst. unfold process_pending_backend. relay_walk. Qed.
#[local] Hint Resolve process_pending_backend_keeps : relay.

Lemma release_or_keeps r0 reason e : keeps (accounts r0 [] []) (release_or reason e : Mr unit).
Proof. unfold release_or. relay_walk. Qed.
#[local] Hint Resolve release_or_keeps : relay.

Lemma process_backend_keeps r0 m : keeps (accounts r0 [] []) (process_backend m : Mr BackendForwarding).
Proof. pose proof (accounts_stable r0 [] []) as Hst. unfold process_backend. relay_walk. Qed.
#[local] Hint Resolve process_backend_keeps process_frontend_keeps : relay.

Lemma make_room_keeps r0 : keeps (accounts r0 [] []) (make_room : Mr unit).
Proof. unfold make_room. relay_walk. Qed.
#[local] Hint Resolve make_room_keeps : relay.

Lemma forward_backend_keeps r0 : keeps (accounts r0 [] []) (forward_backend : Mr BackendForwarding).
Proof. pose proof (accounts_stable r0 [] []) as Hst. unfold forward_backend. relay_walk. Qed.

Lemma retry_frontend_keeps r0 : keeps (accounts r0 [] []) (retry_frontend : Mr (option ForwardedMessage)).
Proof.
  pose proof (accounts_stable r0 [] []) as Hst. unfold retry_frontend. relay_walk.
  intros r Hr. pose proof (forward_prepared_frontend_keeps r0 p r Hr) as H0.
  destruct (forward_prepared_frontend p r) as [[o|er|] r']; [exact H0| |done]. destruct er as [|[]| | | | | | | |]; exact H0.
Qed.
#[local] Hint Resolve retry_frontend_keeps : relay.

Lemma forward_next_keeps r0 ready : keeps (accounts r0 [] []) (forward_next ready : Mr ForwardedMessage).
Proof. pose proof (accounts_stable r0 [] []) as Hst. unfold forward_next. relay_walk. Qed.
End Traffic.
