(* ===== verification/RelayHold.v ===== *)
(** The backend hold of the forwarding driver: which operations touch it, its
    limits, and the termination of the local-response loop. *)

From Stdlib Require Import ZArith Lia String.
From stdpp Require Import prelude gmap.
From S2P Require Import Prelude OrdMap Wire Frame Frontend Backend Demux Cancel BackendHold Fsm Pipeline RuntimeMiddleware Intermediary Relay RelayProofs.

Local Open Scope Z_scope.
Local Open Scope list_scope.

Section Hold.
Context {WD WU State SC CC SH CH B P K E KE : Type}.
Context `{!MessageWire WD FrontendMessage} `{!MessageWire WU BackendMessage}.
Context `{!ServerMiddleware SH State SC} `{!ClientMiddleware CH State CC}.
Context `{!IntermediaryMiddleware B State SC CC E} `{!PipelinePolicy P}.
Context `{!IntermediaryCancellationRegistry K KE}.
Context `{!MessageWireLaws WD FrontendMessage} `{!MessageWireLaws WU BackendMessage}.

Abbreviation Relay := (IntermediaryConnection WD WU State SC CC SH CH B P K).
Abbreviation Mr := (@M WD WU State SC CC SH CH B P K E).
Implicit Type r : Relay.

(** *** Termination of [flush_local_responses] *)

Lemma send_downstream_queue m r : pending_local ((send_downstream m : Mr unit) r).2 = pending_local r.
Proof. unfold send_downstream. now destruct (core_transmit _ _). Qed.
Lemma on_pipeline_queue {A PE} err (f : Pipeline P -> result A PE * Pipeline P) r :
  pending_local ((on_pipeline err f : Mr A) r).2 = pending_local r.
Proof. unfold on_pipeline. now destruct (f _). Qed.

(** One unit of fuel per queued entry and message, and one to notice the end,
    is enough; what the loop returns does not depend on how much more there is. *)
Lemma flush_local_loop_fuel n : forall r, (queued_work (pending_local r) < n)%nat ->
  exists x, forall k, (n <= k)%nat -> (flush_local_loop k r : option (_ * Relay)) = Some (x : result unit (ForwardError E) * Relay).
Proof.
  induction n as [|n IH]; intros r Hn; [lia|].
  destruct (pending_local r) as [|pending queue] eqn:Eq.
  { exists (Ok tt, r). intros [|k] Hk; [lia|]. cbn [flush_local_loop]. now rewrite Eq. }
  simpl in Hn. destruct (local_messages pending) as [|m ms] eqn:Em.
  { destruct (IH (set_pending_local queue r)) as [x Hx]; [simpl in *; lia|].
    exists x. intros [|k] Hk; [lia|]. cbn [flush_local_loop]. rewrite Eq, Em. apply Hx. lia. }
  simpl in Hn. set (r1 := set_pending_local (mkPendingLocal (local_operation pending) ms :: queue) r).
  pose proof (on_pipeline_queue FE_Backend (try_emit_local (local_operation pending) m) r1) as Hq.
  destruct (on_pipeline FE_Backend (try_emit_local (local_operation pending) m) r1) as [y r2] eqn:Ep.
  destruct y as [[m'|m']|e|].
  2-4: eexists; intros [|k] Hk; [lia|]; cbn [flush_local_loop]; rewrite Eq, Em; fold r1; rewrite Ep; reflexivity.
  pose proof (send_downstream_queue m' r2) as Hs. destruct (send_downstream m' r2) as [z r3] eqn:Es.
  destruct z as [u|e|].
  2-3: eexists; intros [|k] Hk; [lia|]; cbn [flush_local_loop]; rewrite Eq, Em; fold r1; rewrite Ep, Es; reflexivity.
  destruct (IH r3) as [x Hx].
  { simpl in Hs, Hq. rewrite Hs, Hq. simpl. lia. }
  exists x. intros [|k] Hk; [lia|]. cbn [flush_local_loop]. rewrite Eq, Em. fold r1. rewrite Ep, Es. apply Hx. lia.
Qed.

(** Where the loop stops: the queue is empty, or its first message was deferred by
    the ledger. *)
Definition waiting_for_turn r : Prop :=
  pending_local r = [] \/
  exists pending queue m ms p, pending_local r = pending :: queue /\ local_messages pending = m :: ms /\
    try_emit_local (local_operation pending) m p = (Ok (Deferred m), pipeline r).

Lemma accept_response_deferred local m p m' p' : accept_response (P := P) local m p = (Ok (Deferred m'), p') -> m' = m.
Proof.
  unfold accept_response. destruct (prepare_response local m p); cbn [commit_response]; try (intros; now simplify_eq).
  all: try (destruct local; [destruct (is_error m)|]; intros; now simplify_eq).
  intros E0. repeat (match type of E0 with context [match ?x with _ => _ end] => destruct x end); now simplify_eq.
Qed.

Lemma flush_local_loop_stops n : forall r r',
  (flush_local_loop n r : option (result unit (ForwardError E) * Relay)) = Some (Ok tt, r') -> waiting_for_turn r'.
Proof.
  induction n as [|n IH]; intros r r' Hl; cbn [flush_local_loop] in Hl; [done|].
  destruct (pending_local r) as [|pending queue] eqn:Eq; [injection Hl as <-; now left|].
  destruct (local_messages pending) as [|m ms] eqn:Em; [now apply IH in Hl|].
  set (r1 := set_pending_local _ r) in Hl.
  unfold on_pipeline in Hl. destruct (try_emit_local (local_operation pending) m (pipeline r1)) as [y p] eqn:Ep.
  destruct y as [[m'|m']|e|]; cbn [map_err] in Hl; [| |done..].
  - destruct (send_downstream m' (set_pipeline p r1)) as [[u|e|] r3]; [now apply IH in Hl|done..].
  - injection Hl as <-. right. pose proof (accept_response_deferred _ _ _ _ _ Ep) as ->.
    exists (mkPendingLocal (local_operation pending) (m :: ms)), queue, m, ms, (pipeline r1).
    split; [done|]. split; [done|]. exact Ep.
Qed.

(** *** Operations that leave the hold alone *)

(** An assertion about the hold and its limits. *)
Definition on_hold_state (J : option BackendHoldLimits -> BackendHold -> Prop) (r : Relay) : Prop :=
  J (backend_hold_limits r) (backend_hold r).

Section Untouched.
Variable J : option BackendHoldLimits -> BackendHold -> Prop.

Lemma hold_state_stable : stable (on_hold_state J).
Proof. intros r r' Hq. unfold on_hold_state. now rewrite (quiet_hold _ _ Hq), (quiet_limits _ _ Hq). Qed.
#[local] Hint Resolve hold_state_stable : relay.

Lemma send_downstream_hold m : keeps (on_hold_state J) (send_downstream m : Mr unit).
Proof. intros r Hr. unfold send_downstream. destruct (core_transmit _ _) as [[]]; exact Hr || exact I. Qed.
Lemma send_upstream_hold m : keeps (on_hold_state J) (send_upstream m : Mr unit).
Proof. intros r Hr. unfold send_upstream. destruct (core_transmit _ _) as [[]]; exact Hr || exact I. Qed.
Lemma on_pipeline_hold {A PE} err (f : Pipeline P -> result A PE * Pipeline P) :
  keeps (on_hold_state J) (on_pipeline err f : Mr A).
Proof. intros r Hr. unfold on_pipeline. destruct (f _) as [[]]; exact Hr || exact I. Qed.
#[local] Hint Resolve send_downstream_hold send_upstream_hold on_pipeline_hold : relay.

Lemma flush_local_loop_hold n : forall r, on_hold_state J r ->
  match (flush_local_loop n r : option (result unit (ForwardError E) * Relay)) with
  | Some (_, r') => on_hold_state J r'
  | None => True
  end.
Proof.
  induction n as [|n IH]; intros r Hr; cbn [flush_local_loop]; [done|].
  destruct (pending_local r) as [|pending queue]; [done|].
  destruct (local_messages pending) as [|m ms]; [now apply IH|].
  unfold on_pipeline. destruct (try_emit_local _ m _) as [[[m'|m']|e|] p]; cbn [map_err]; try exact Hr.
  unfold send_downstream. destruct (core_transmit _ _) as [[u|e|] c]; cbn [map_err]; [now apply IH|exact Hr..].
Qed.
Lemma flush_local_hold : keeps (on_hold_state J) (flush_local_responses : Mr unit).
Proof.
  intros r Hr. unfold flush_local_responses.
  pose proof (flush_local_loop_hold (S (queued_work (pending_local r))) r Hr) as H.
  destruct (flush_local_loop _ r) as [[[]]|]; done.
Qed.
#[local] Hint Resolve flush_local_hold : relay.

Lemma advance_backend_hold m : keeps (on_hold_state J) (advance_backend m : Mr BackendMessage).
Proof. unfold advance_backend. relay_walk. Qed.
#[local] Hint Resolve advance_backend_hold : relay.
Lemma emit_backend_hold m : keeps (on_hold_state J) (emit_backend m : Mr BackendMessage).
Proof. pose proof hold_state_stable. unfold emit_backend. relay_walk. Qed.
Lemma forward_item_hold item : keeps (on_hold_state J) (forward_item item : Mr (option FrontendMessage)).
Proof. pose proof hold_state_stable. unfold forward_item. relay_walk. Qed.
#[local] Hint Resolve emit_backend_hold forward_item_hold : relay.
Lemma forward_items_hold prepared items : keeps (on_hold_state J) (forward_items prepared items : Mr FrontendForwarding).
Proof. unfold forward_items. relay_walk. Qed.
Lemma forward_prepared_hold prepared : keeps (on_hold_state J) (forward_prepared_frontend prepared : Mr FrontendForwarding).
Proof.
  intros r Hr. unfold forward_prepared_frontend.
  destruct (prepare_frontend_sequence _ _ _) as [[p items]|e|]; [|exact Hr|done].
  exact (forward_items_hold prepared items (set_pipeline p r) Hr).
Qed.
#[local] Hint Resolve forward_prepared_hold : relay.
Lemma process_frontend_hold m : keeps (on_hold_state J) (process_frontend m : Mr FrontendForwarding).
Proof. pose proof hold_state_stable. unfold process_frontend. relay_walk. apply put_keeps. auto. Qed.
#[local] Hint Resolve process_frontend_hold : relay.
Lemma forward_frontend_hold : keeps (on_hold_state J) (forward_frontend : Mr FrontendForwarding).
Proof. pose proof hold_state_stable. unfold forward_frontend. relay_walk. Qed.
Lemma retry_frontend_hold : keeps (on_hold_state J) (retry_frontend : Mr (option ForwardedMessage)).
Proof.
  pose proof hold_state_stable. unfold retry_frontend. relay_walk.
  intros r Hr. pose proof (forward_prepared_hold p r Hr) as Hfp.
  destruct (forward_prepared_frontend p r) as [[o|er|] r']; [exact Hfp| |done]. destruct er as [|[]| | | | | | | |]; exact Hfp.
Qed.
End Untouched.

(** *** Limits *)

Definition limits_valid (limits : BackendHoldLimits) : Prop :=
  0 < max_messages limits /\ 0 < max_bytes limits <= USIZE_MAX.

(** The hold has at most the configured number of messages, all but its last fit
    in the byte limit, and a source is only pending while there is room. *)
Definition within_limits (limits : option BackendHoldLimits) (h : BackendHold) : Prop :=
  hold_inv h /\
  match limits with
  | None => held h = []
  | Some limits => limits_valid limits /\ hold_len h <= max_messages limits /\
      forall ms m, held h = ms ++ [m] -> accounted ms < max_bytes limits
  end /\
  (pending h <> None -> is_full limits h = false).

(** The hold is empty, whatever is pending. *)
Definition emptied (limits : option BackendHoldLimits) (h : BackendHold) : Prop :=
  within_limits limits h /\ held h = [].

Definition has_room (limits : option BackendHoldLimits) (h : BackendHold) : Prop :=
  within_limits limits h /\ is_full limits h = false.

Lemma emptied_room limits h : emptied limits h -> has_room limits h.
Proof.
  intros [Hw He]. split; [done|]. destruct Hw as ((Hb & _) & Hl & _). unfold is_full.
  destruct limits as [l|]; [|done]. destruct Hl as ((H0 & H1) & _). unfold hold_len.
  rewrite He in *. rewrite Hb. unfold accounted, len. simpl.
  apply orb_false_iff; split; apply Z.leb_gt; unfold USIZE_MAX; lia.
Qed.

Lemma clear_within limits h : within_limits limits h -> emptied limits (clear h).2.
Proof.
  intros ((Hb & Hp) & Hl & Hf). assert (hold_inv (clear h).2) as Hi.
  { split; [|exact Hp]. simpl. unfold accounted. simpl. unfold USIZE_MAX. lia. }
  assert (match limits with None => True | Some l => limits_valid l end) as Hv by (destruct limits; tauto).
  assert (is_full limits (clear h).2 = false) as He.
  { unfold is_full. destruct limits as [l|]; [|done]. destruct Hv as [H0 H1]. unfold hold_len, len. simpl.
    apply orb_false_iff; split; apply Z.leb_gt; lia. }
  split; [split; [exact Hi|]|done]. split; [|intros _; exact He].
  destruct limits as [l|]; [|done]. split; [exact Hv|]. destruct Hv as [H0 H1]. split.
  - unfold hold_len, len. simpl. lia.
  - intros ms m Hm. simpl in Hm. now destruct ms.
Qed.

Lemma take_within limits h : within_limits limits h -> within_limits limits (take_pending h).2.
Proof. intros ((Hb & Hp) & Hl & Hf). split; [now split|]. split; [exact Hl|]. simpl. done. Qed.

Lemma set_pending_within limits m h h' : has_room limits h -> set_pending m h = Ok h' -> within_limits limits h'.
Proof.
  intros [((Hb & Hp) & Hl & Hf) Hr] Hs. unfold set_pending in Hs. destruct (pending h) as [|]; [done|].
  apply Ok_inj in Hs as <-. split; [now split|]. split; [exact Hl|]. intros _. exact Hr.
Qed.

Lemma hold_pending_within limits l h h' : limits = Some l -> within_limits limits h -> hold_pending h = Ok h' ->
  within_limits limits h'.
Proof.
  intros -> (Hi & Hl & Hf) Hh. assert (hold_inv h') as Hi'.
  { apply (hold_step_inv HoldPending h [] h' Hi). simpl. now rewrite Hh. }
  unfold hold_pending in Hh. destruct (pending h) as [[m n]|] eqn:Ep; [|done]. apply Ok_inj in Hh as <-.
  split; [exact Hi'|]. split; [|simpl; done]. destruct Hl as (Hv & Hn & Hb). split; [exact Hv|].
  specialize (Hf ltac:(congruence)). unfold is_full in Hf. apply orb_false_iff in Hf as [F1 F2].
  apply Z.leb_gt in F1, F2. split.
  - unfold hold_len in *. simpl. unfold len in *. rewrite length_app. simpl. lia.
  - intros ms m' Hm. simpl in Hm. apply app_inj_tail in Hm as [<- _].
    destruct Hi as [Ha _], Hv as [_ Hv]. rewrite Ha in F2. pose proof (accounted_nonneg (held h)). lia.
Qed.

Lemma emptied_within r : on_hold_state emptied r -> on_hold_state within_limits r.
Proof. now intros [? _]. Qed.

(** Steps that keep an assertion on success and its weakening on failure. *)
Lemma keeps_weaken {A} (I I' : Relay -> Prop) (m : Mr A) : keeps I m -> (forall r, I r -> I' r) ->
  triple I m (fun _ => I) I'.
Proof. intros Hm Hw r Hr. specialize (Hm r Hr). destruct (m r) as [[]]; auto. Qed.

(** A release replaces the hold by the cleared one and nothing later touches it. *)
Lemma release_span_clears (J J' : option BackendHoldLimits -> BackendHold -> Prop) ms :
  (forall l h, J l h -> J' l (clear h).2) -> (forall l h, J' l h -> J l h) ->
  triple (on_hold_state J) (release_span ms : Mr BackendBatchForwarding) (fun _ => on_hold_state J') (on_hold_state J).
Proof.
  intros Hc Hw. assert (forall r, on_hold_state J' r -> on_hold_state J r) as Hw' by (intros r; apply Hw).
  unfold release_span. apply (triple_bind _ _ _ (fun _ => on_hold_state J')).
  { intros r Hr. unfold release_hold. destruct (prepare_backend_replacements _ ms _); [|exact Hr|done].
    exact (Hc _ _ Hr). }
  intros []. eapply triple_bind.
  { apply keeps_weaken; [apply keeps_for_each; intros; apply send_downstream_hold|exact Hw']. }
  intros l. eapply triple_bind; [apply keeps_weaken; [apply flush_local_hold|exact Hw']|].
  intros []. now apply triple_ret.
Qed.

Lemma release_span_within ms : triple (on_hold_state within_limits) (release_span ms : Mr BackendBatchForwarding)
  (fun _ => on_hold_state emptied) (on_hold_state within_limits).
Proof. apply release_span_clears; [apply clear_within|now intros l h [? _]]. Qed.

Lemma flush_backend_hold_for_within reason :
  triple (on_hold_state within_limits) (flush_backend_hold_for reason : Mr BackendBatchForwarding)
    (fun out r => on_hold_state within_limits r /\ (out <> Kept -> on_hold_state emptied r))
    (on_hold_state within_limits).
Proof.
  pose proof (hold_state_stable within_limits) as Hst.
  unfold flush_backend_hold_for. eapply triple_bind; [apply triple_get|]. intros [|].
  { apply triple_ret. intros r [Hr He]. split; [exact Hr|]. intros _. split; [exact Hr|].
    unfold hold_is_empty in He. now destruct (held (backend_hold r)). }
  apply (triple_conseq (on_hold_state within_limits)) with (Q := fun out r =>
    on_hold_state within_limits r /\ (out <> Kept -> on_hold_state emptied r)); [|tauto|auto].
  eapply (triple_bind _ _ _ (fun _ => on_hold_state within_limits)); [apply keeps_get|intros span].
  eapply (triple_bind _ _ _ (fun _ => on_hold_state within_limits));
    [apply keeps_quiet; [exact Hst|apply quiet_boundary_flush]|intros [|ms]].
  { apply triple_ret. intros r Hr. split; [exact Hr|]. done. }
  eapply (triple_bind _ _ _ (fun _ => on_hold_state within_limits));
    [apply keeps_for_each; intros; apply keeps_quiet; [exact Hst|apply quiet_downstream_backend]|intros out].
  eapply (triple_bind _ _ _ (fun _ => on_hold_state within_limits));
    [apply keeps_for_each; intros; apply keeps_quiet; [exact Hst|apply quiet_check_frame]|intros _].
  eapply triple_conseq; [apply release_span_within|auto|]. intros x r Hr. split; [now apply emptied_within|auto].
Qed.

Abbreviation Within := (on_hold_state within_limits).

Lemma flush_hold_within reason : keeps Within (flush_backend_hold_for reason : Mr BackendBatchForwarding).
Proof. eapply triple_conseq; [apply flush_backend_hold_for_within|auto|]. now intros x r [? _]. Qed.

(** A release that does not fail leaves room for one more message. *)
Lemma release_or_room reason e : triple Within (release_or reason e : Mr unit)
  (fun _ => on_hold_state has_room) Within.
Proof.
  unfold release_or. eapply triple_bind; [apply flush_backend_hold_for_within|].
  intros [ms| |]; [apply triple_ret|apply triple_raise|apply triple_ret]; intros r [Hr He]; try exact Hr.
  all: apply emptied_room, He; discriminate.
Qed.

Lemma room_within r : on_hold_state has_room r -> Within r.
Proof. now intros [? _]. Qed.

Lemma make_room_has_room : triple Within (make_room : Mr unit) (fun _ => on_hold_state has_room) Within.
Proof.
  unfold make_room. eapply triple_bind; [apply triple_get|]. intros [|].
  - eapply triple_conseq; [apply release_or_room|now intros r [? _]|auto].
  - apply triple_ret. intros r [Hr He]. now split.
Qed.

Lemma drop_pending_within : keeps Within (drop_pending : Mr unit).
Proof. apply put_keeps. intros r. apply take_within. Qed.

Lemma hold_decision_within source : keeps Within
  (bind (get backend_hold_limits) (fun limits => match limits with
     | None => raise (FE_BackendHoldingDisabled source)
     | Some _ => bind (on_hold hold_pending) (fun _ => ret BF_Held)
     end) : Mr BackendForwarding).
Proof.
  eapply triple_bind; [apply triple_get|]. intros [l|]; [|now apply triple_raise; intros r [? _]].
  eapply (triple_bind _ _ _ (fun _ => Within)); [|intros []; now apply triple_ret].
  intros r [Hr El]. unfold on_hold. destruct (hold_pending (backend_hold r)) as [h| |] eqn:Eh; [|done..].
  exact (hold_pending_within _ l _ _ (eq_sym El) Hr Eh).
Qed.

Lemma process_pending_within : keeps Within (process_pending_backend : Mr BackendForwarding).
Proof.
  pose proof (hold_state_stable within_limits) as Hst. pose proof drop_pending_within.
  pose proof hold_decision_within. pose proof (flush_local_hold within_limits).
  pose proof (emit_backend_hold within_limits). pose proof (advance_backend_hold within_limits).
  unfold process_pending_backend.
  apply keeps_bind; [apply keeps_get|intros [source|]]; [|apply keeps_panic].
  apply keeps_bind; [apply keeps_get|intros operation].
  apply keeps_bind; [relay_walk|intros decision].
  apply keeps_bind; [|intros outcome; relay_walk].
  destruct decision as [m|[|m ms]|m|]; [relay_walk..|auto].
Qed.

Lemma process_backend_within m : triple (on_hold_state has_room) (process_backend m : Mr BackendForwarding)
  (fun _ => Within) Within.
Proof.
  unfold process_backend. eapply triple_bind.
  { apply keeps_weaken; [|apply room_within].
    apply keeps_quiet; [apply hold_state_stable|apply quiet_upstream_backend]. }
  intros m'. eapply (triple_bind _ _ _ (fun _ => Within)).
  { intros r Hr. unfold on_hold. destruct (set_pending m' (backend_hold r)) as [h| |] eqn:Es; [|done..].
    exact (set_pending_within _ _ _ _ Hr Es). }
  intros []. apply keeps_bind; [apply keeps_get|intros barrier].
  apply keeps_bind; [|intros []; apply process_pending_within].
  destruct barrier; [|apply keeps_ret].
  eapply triple_conseq; [apply release_or_room|auto|]. intros x. apply room_within.
Qed.

Lemma forward_backend_within : keeps Within (forward_backend : Mr BackendForwarding).
Proof.
  unfold forward_backend. apply keeps_bind; [apply keeps_get|intros [m|]]; [apply process_pending_within|].
  eapply triple_bind; [apply make_room_has_room|]. intros [].
  eapply triple_bind; [|intros m; apply process_backend_within].
  apply keeps_weaken; [|apply room_within]. apply keeps_quiet; [apply hold_state_stable|apply quiet_receive_upstream].
Qed.

Lemma forward_next_within ready : keeps Within (forward_next ready : Mr ForwardedMessage).
Proof.
  unfold forward_next. apply keeps_bind; [apply keeps_get|intros [m|]].
  { apply keeps_bind; [apply process_pending_within|intros; apply keeps_ret]. }
  eapply triple_bind; [apply make_room_has_room|]. intros [].
  eapply triple_bind; [apply keeps_weaken; [apply retry_frontend_hold|apply room_within]|].
  intros [o|]; [apply triple_ret, room_within|].
  eapply triple_bind; [apply keeps_weaken; [apply keeps_get|apply room_within]|]. intros blocked.
  destruct (if blocked : bool then Upstream else ready).
  - apply (triple_conseq Within) with (Q := fun _ => Within); [|apply room_within|auto].
    pose proof (hold_state_stable within_limits). pose proof (process_frontend_hold within_limits). relay_walk.
  - eapply triple_bind.
    { apply keeps_weaken; [|apply room_within].
      apply keeps_quiet; [apply hold_state_stable|apply quiet_receive_upstream]. }
    intros m. eapply triple_bind; [apply process_backend_within|]. intros o. now apply triple_ret.
Qed.
End Hold.
