(* ===== verification/RelaySpec.v ===== *)
(** What the forwarding driver guarantees over whole histories: order of traffic,
    backpressure, bounded and atomic holding, transparency. *)

From Stdlib Require Import ZArith Lia String Sorting.Sorted.
From Stdlib Require Import Init.Byte.
From stdpp Require Import prelude gmap.
From S2P Require Import Prelude OrdMap Wire Frame Frontend Backend Demux Cancel BackendHold Fsm Pipeline PipelineProofs PipelineSpec RuntimeMiddleware Intermediary Relay RelayProofs RelayHold.

Local Open Scope Z_scope.
Local Open Scope list_scope.

(** ** Histories of driver calls *)

Inductive driver_op : Type :=
| ForwardFrontend
| ForwardBackend
| ForwardNext (ready : side)
| FlushHold
| PrepareTeardown
| DetachCancellation.

Section Spec.
Context {WD WU State SC CC SH CH B P K E KE : Type}.
Context `{!MessageWire WD FrontendMessage} `{!MessageWire WU BackendMessage}.
Context `{!ServerMiddleware SH State SC} `{!ClientMiddleware CH State CC}.
Context `{!IntermediaryMiddleware B State SC CC E} `{!PipelinePolicy P}.
Context `{!IntermediaryCancellationRegistry K KE}.

Abbreviation Relay := (IntermediaryConnection WD WU State SC CC SH CH B P K).
Abbreviation Mr := (@M WD WU State SC CC SH CH B P K E).
Implicit Type r : Relay.

(** What a call leaves, unless it panics; a caller may go on after an error. *)
Definition outcome_of {A} (x : result A (ForwardError E) * Relay) : option Relay :=
  match x with (Panic, _) => None | (_, r) => Some r end.

Definition drive (op : driver_op) r : option Relay :=
  match op with
  | ForwardFrontend => outcome_of ((forward_frontend : Mr _) r)
  | ForwardBackend => outcome_of ((forward_backend : Mr _) r)
  | ForwardNext ready => outcome_of ((forward_next ready : Mr _) r)
  | FlushHold => outcome_of ((flush_backend_hold : Mr _) r)
  | PrepareTeardown => outcome_of ((prepare_backend_teardown : Mr _) r)
  | DetachCancellation => Some (detach_cancellation r).2
  end.

Fixpoint run_driver (ops : list driver_op) r : option Relay :=
  match ops with
  | [] => Some r
  | op :: ops => match drive op r with Some r => run_driver ops r | None => None end
  end.

Lemma run_driver_invariant (I : Relay -> Prop) :
  (forall op r r', I r -> drive op r = Some r' -> I r') ->
  forall ops r r', I r -> run_driver ops r = Some r' -> I r'.
Proof.
  intros Hs ops. induction ops as [|op ops IH]; intros r r' Hr Hd; cbn [run_driver] in Hd; [now injection Hd as <-|].
  destruct (drive op r) as [r1|] eqn:Ed; [|done]. eauto.
Qed.

Lemma keeps_outcome {A} (I : Relay -> Prop) (m : Mr A) r r' : keeps I m -> I r -> outcome_of (m r) = Some r' -> I r'.
Proof. intros Hm Hr Ho. specialize (Hm r Hr). destruct (m r) as [[]]; simpl in Ho; now simplify_eq. Qed.

Lemma keeps_teardown I : keeps I (flush_backend_hold_for Teardown : Mr BackendBatchForwarding) ->
  keeps I (prepare_backend_teardown : Mr BackendBatchForwarding).
Proof.
  intros H. unfold prepare_backend_teardown. apply keeps_bind; [exact H|].
  intros [| |]; [apply keeps_ret|apply keeps_raise|apply keeps_ret].
Qed.

Lemma detach_fields r : let r' := (detach_cancellation r).2 in
  pipeline r' = pipeline r /\ downstream r' = downstream r /\ upstream r' = upstream r /\
  backend_hold r' = backend_hold r /\ backend_hold_limits r' = backend_hold_limits r.
Proof. unfold detach_cancellation. destruct (client_cancel_key r); [destruct (registry_detach _ _)|]; done. Qed.

Context `{!MessageWireLaws WD FrontendMessage} `{!MessageWireLaws WU BackendMessage}.

Lemma drive_accounts r0 op r r' : accounts r0 [] [] r -> drive op r = Some r' -> accounts r0 [] [] r'.
Proof.
  intros Hr Hd. destruct op; simpl in Hd;
    try (eapply (keeps_outcome (accounts r0 [] [])); [|exact Hr|exact Hd]).
  - apply forward_frontend_keeps.
  - apply forward_backend_keeps.
  - apply forward_next_keeps.
  - apply flush_backend_hold_for_keeps.
  - apply keeps_teardown, flush_backend_hold_for_keeps.
  - injection Hd as <-. destruct (detach_fields r) as (E1 & E2 & E3 & _).
    unfold accounts, to_client, to_server. rewrite E1, E2, E3. exact Hr.
Qed.

Lemma drive_within op r r' : on_hold_state within_limits r -> drive op r = Some r' -> on_hold_state within_limits r'.
Proof.
  intros Hr Hd. destruct op; simpl in Hd;
    try (eapply (keeps_outcome (on_hold_state within_limits)); [|exact Hr|exact Hd]).
  - apply forward_frontend_hold.
  - apply forward_backend_within.
  - apply forward_next_within.
  - apply flush_hold_within.
  - apply keeps_teardown, flush_hold_within.
  - injection Hd as <-. destruct (detach_fields r) as (_ & _ & _ & E4 & E5). unfold on_hold_state. now rewrite E4, E5.
Qed.

Lemma sublist_sorted (l l' : list Z) : l `sublist_of` l' -> StronglySorted Z.le l' -> StronglySorted Z.le l.
Proof.
  induction 1 as [|x l l' Hs IH|x l l' Hs IH]; intros Hl; [constructor|inversion Hl; subst..]; auto.
  constructor; auto. match goal with H : Forall _ l' |- _ => rewrite Forall_forall in * end.
  intros y Hy. apply elem_of_submseteq with (k := l') in Hy; auto using sublist_submseteq.
Qed.

Lemma omap_sublist {A C} (f : A -> option C) l l' : l `sublist_of` l' -> omap f l `sublist_of` omap f l'.
Proof.
  induction 1 as [|x l l' Hs IH|x l l' Hs IH]; simpl; [constructor|destruct (f x)..]; auto; now constructor.
Qed.

(** What a history of calls put on the two wires, call by call. For every call
    there is a history [h] of ledger operations that takes the ledger from its
    state before that call to its state after it; the frames sent to the client in
    the call are responses that [h] emitted, in order, and the frames sent to the
    server are requests that [h] forwarded, in order. The two lists are what was
    sent over all calls, each response with the operation it answers. *)
Inductive ledger_relayed : list driver_op -> Relay -> list (option OperationId * BackendMessage) ->
    list FrontendMessage -> Relay -> Prop :=
| ledger_relayed_none r : ledger_relayed [] r [] [] r
| ledger_relayed_call op ops r r1 r' h out answered requests later_answered later_requests :
    drive op r = Some r1 ->
    run_pipeline h (pipeline r) = (Some out, pipeline r1) ->
    to_client r1 = to_client r ++ backend_frames answered.*2 ->
    answered `sublist_of` responses h (pipeline r) ->
    to_server r1 = to_server r ++ frontend_frames requests ->
    requests `sublist_of` forwards h (pipeline r) ->
    ledger_relayed ops r1 later_answered later_requests r' ->
    ledger_relayed (op :: ops) r (answered ++ later_answered) (requests ++ later_requests) r'.

Lemma ledger_relayed_frames ops r answered requests r' : ledger_relayed ops r answered requests r' ->
  to_client r' = to_client r ++ backend_frames answered.*2 /\ to_server r' = to_server r ++ frontend_frames requests.
Proof.
  unfold backend_frames, frontend_frames.
  induction 1 as [r|op ops r r1 r' h out answered requests la lr _ _ Hc _ Hs _ _ [IHc IHs]]; [cbn; now rewrite !app_nil_r|].
  rewrite IHc, IHs, Hc, Hs, fmap_app, !omap_app, <- !app_assoc. done.
Qed.

Lemma run_driver_relayed ops : forall r r', run_driver ops r = Some r' ->
  exists answered requests, ledger_relayed ops r answered requests r'.
Proof.
  induction ops as [|op ops IH]; intros r r' Hd; cbn [run_driver] in Hd.
  { injection Hd as <-. do 2 eexists. constructor. }
  destruct (drive op r) as [r1|] eqn:Ed; [|done]. destruct (IH _ _ Hd) as (a & q & Hl).
  destruct (drive_accounts r op r r1 (accounts_refl r) Ed) as (h & out & down & up & Hr & Hs & Hc & Hu & Hv).
  rewrite app_nil_r in Hs, Hu. do 2 eexists. eapply ledger_relayed_call; eassumption.
Qed.

Lemma ledger_relayed_history ops r answered requests r' : ledger_relayed ops r answered requests r' ->
  exists h out, run_pipeline h (pipeline r) = (Some out, pipeline r') /\
    answered `sublist_of` responses h (pipeline r).
Proof.
  induction 1 as [r|op ops r r1 r' h out answered requests la lr _ Hr _ Hs _ _ _ (h' & out' & Hr' & Hs')].
  { exists [], []. split; [done|constructor]. }
  destruct (run_pipeline_app _ _ _ _ _ _ _ Hr Hr') as [E1 E2]. exists (h ++ h'), (out ++ out').
  split; [exact E1|]. rewrite E2. now apply sublist_app.
Qed.

(** The answers of a connection's ledger are in request order. *)
Lemma ledger_relayed_sorted (pol : P) ops r0 answered requests r :
  pipeline r0 = Pipeline_new pol -> next_id (pipeline r) < U64_MAX ->
  ledger_relayed ops r0 answered requests r -> StronglySorted Z.le (omap fst answered).
Proof.
  intros Hp Hn Hl. apply ledger_relayed_history in Hl as (h & out & Hr & Hs). rewrite Hp in *.
  eapply sublist_sorted; [apply omap_sublist; exact Hs|]. rewrite (responses_ids _ _ _ _ Hr).
  assert (ordered 0 (Pipeline_new pol)) as Ho by (split; [constructor|split; [constructor|simpl; lia]]).
  apply (run_ordered h 0 _ _ _ Ho) in Hr as (_ & Hso & _); [exact Hso|simpl; unfold U64_MAX; lia|exact Hn].
Qed.

(** C1: Responses reach the client in request order. Whatever the three middleware
    layers decide, however calls are interleaved and whichever of them fail, every
    call of the run moved the connection's own ledger by a history of ledger
    operations, and sent the client only responses that the ledger emitted in that
    call, in order, each for the operation that was its front, and the server only
    requests that the ledger forwarded in that call, in order. Over the whole run
    the operations answered never decrease. *)
Theorem relay_in_request_order (pol : P) ops r0 r :
  pipeline r0 = Pipeline_new pol -> run_driver ops r0 = Some r -> next_id (pipeline r) < U64_MAX ->
  exists answered requests,
    ledger_relayed ops r0 answered requests r /\ StronglySorted Z.le (omap fst answered).
Proof.
  intros Hp Hd Hn. destruct (run_driver_relayed ops r0 r Hd) as (answered & requests & Hl).
  exists answered, requests. split; [exact Hl|]. eapply ledger_relayed_sorted; eassumption.
Qed.

(** C10: The hold never outgrows its limits: over any history of calls it keeps at most
    the configured number of messages, the messages before the last one are below
    the byte limit, the byte count is the sum of their sizes (saturating), and
    nothing is held when batching is not configured. *)
Theorem hold_within_limits ops r0 r :
  (forall l, backend_hold_limits r0 = Some l -> limits_valid l) ->
  backend_hold r0 = BackendHold_default -> run_driver ops r0 = Some r ->
  on_hold_state within_limits r.
Proof.
  intros Hl Hh Hd.
  apply (run_driver_invariant (on_hold_state within_limits) drive_within ops r0 r); [|exact Hd].
  unfold on_hold_state. rewrite Hh. split; [split; [vm_compute; reflexivity|done]|]. split; [|done].
  destruct (backend_hold_limits r0) as [l|]; [|done]. specialize (Hl l eq_refl). destruct Hl as [H0 H1].
  split; [now split|]. split; [unfold hold_len, len; simpl; lia|]. intros ms m Hm. simpl in Hm. now destruct ms.
Qed.

(** The local-response loop ends: with the fuel the driver gives it the loop always
    returns, more fuel does not change the result, and a successful return means
    that no queued response is left whose turn has come. *)
Theorem local_responses_flushed r :
  exists x, (forall k, (S (queued_work (pending_local r)) <= k)%nat ->
      (flush_local_loop k r : option (_ * Relay)) = Some x) /\
    (flush_local_responses : Mr unit) r = x /\
    (forall r', x = (Ok tt, r') -> waiting_for_turn r').
Proof.
  destruct (flush_local_loop_fuel (E := E) (S (queued_work (pending_local r))) r) as [x Hx]; [lia|].
  exists x. split; [exact Hx|]. split.
  - unfold flush_local_responses. now rewrite (Hx _ (Nat.le_refl _)).
  - intros r' ->. eapply flush_local_loop_stops, Hx, Nat.le_refl.
Qed.

(** *** Backpressure *)

Lemma bind_err {A C} (m : Mr A) (k : A -> Mr C) r e r' : bind m k r = (Err e, r') ->
  m r = (Err e, r') \/ exists x r1, m r = (Ok x, r1) /\ k x r1 = (Err e, r').
Proof. unfold bind. destruct (m r) as [[x|e0|] r1] eqn:Em; intros Hb; simplify_eq; eauto. Qed.
Lemma bind_ok {A C} (m : Mr A) (k : A -> Mr C) r y r' : bind m k r = (Ok y, r') ->
  exists x r1, m r = (Ok x, r1) /\ k x r1 = (Ok y, r').
Proof. unfold bind. destruct (m r) as [[x|e0|] r1] eqn:Em; intros Hb; simplify_eq; eauto. Qed.

(** Errors of [m] satisfy [Q]. *)
Definition fails_with {A} (Q : ForwardError E -> Prop) (m : Mr A) : Prop := forall r e r', m r = (Err e, r') -> Q e.

Lemma fails_bind {A C} Q (m : Mr A) (k : A -> Mr C) :
  fails_with Q m -> (forall x, fails_with Q (k x)) -> fails_with Q (bind m k).
Proof. intros Hm Hk r e r' [?|(x & r1 & _ & ?)]%bind_err; [eapply Hm|eapply Hk]; eassumption. Qed.
Lemma fails_ret {A} Q (x : A) : fails_with Q (ret x). Proof. done. Qed.
Lemma fails_for_each {A C} Q (f : A -> Mr C) l : (forall x, fails_with Q (f x)) -> fails_with Q (for_each f l).
Proof.
  intros Hf. induction l as [|x l IH]; cbn [for_each]; [apply fails_ret|].
  apply fails_bind; [apply Hf|]. intros y. apply fails_bind; [apply IH|]. intros ys. apply fails_ret.
Qed.

Definition is_io_failure (e : ForwardError E) : Prop := match e with FE_Io _ => True | _ => False end.
(** Failures after a release was adopted. *)
Definition is_late_failure (e : ForwardError E) : Prop := match e with FE_Io _ | FE_Backend _ => True | _ => False end.

Lemma send_upstream_fails m : fails_with is_io_failure (send_upstream m).
Proof. intros r e r' H0. unfold send_upstream in H0. destruct (core_transmit _ _) as [[]]; simpl in H0; now simplify_eq. Qed.
Lemma send_downstream_fails m : fails_with is_io_failure (send_downstream m).
Proof. intros r e r' H0. unfold send_downstream in H0. destruct (core_transmit _ _) as [[]]; simpl in H0; now simplify_eq. Qed.
Lemma observe_opt_fails Q (o : option string) d i :
  fails_with Q (match o with Some t => observe (mkObservation t d i) | None => ret tt end).
Proof. intros r e r' H0. destruct o; simpl in H0; [unfold observe in H0; destruct (at_boundary _ r)|]; now simplify_eq. Qed.

Lemma forward_items_fails prepared items : fails_with is_io_failure (forward_items prepared items).
Proof.
  unfold forward_items. apply fails_bind.
  - apply fails_for_each. intros item. unfold forward_item. destruct (into_action _); [|apply fails_ret].
    apply fails_bind; [apply observe_opt_fails|]. intros []. apply fails_bind; [apply send_upstream_fails|].
    intros []. apply fails_ret.
  - intros l. cbv zeta. destruct (omap _ l); [|destruct (bool_decide _)]; apply fails_ret.
Qed.

Lemma set_pending_frontend_twice a b r : set_pending_frontend a (set_pending_frontend b r) = set_pending_frontend a r.
Proof. reflexivity. Qed.

Lemma forward_prepared_refused prepared r e r' :
  (forward_prepared_frontend prepared : Mr _) r = (Err (FE_Frontend e), r') ->
  prepare_frontend_sequence (forwarding_messages prepared) Forward (pipeline r) = Err e /\
  r' = set_pending_frontend (Some prepared) r.
Proof.
  unfold forward_prepared_frontend.
  destruct (prepare_frontend_sequence _ _ _) as [[p items]|e'|]; [|intros; now simplify_eq|done].
  cbn [commit_frontend_sequence fst snd]. intros H0. now apply forward_items_fails in H0.
Qed.

(** C11: Backpressure keeps the request. When the ledger refuses an intercepted request
    sequence, nothing is sent and the only change is that the sequence is retained;
    the next [forward_frontend] retries exactly that sequence without reading or
    intercepting anything again; and after a capacity refusal [forward_next] reads
    only from the server, whichever side has data, until there is room. *)
Theorem backpressure_retains_request prepared r e r' :
  (forward_prepared_frontend prepared : Mr _) r = (Err (FE_Frontend e), r') ->
  r' = set_pending_frontend (Some prepared) r /\
  (forward_frontend : Mr _) r' = forward_prepared_frontend prepared (set_pending_frontend None r) /\
  forall m ready, e = Capacity m -> hold_pending_message (backend_hold r) = None ->
    backend_hold_is_full r = false ->
    (forward_next ready : Mr _) r' =
      bind receive_upstream (fun m => bind (process_backend m) (fun o => ret (backend_outcome o))) r'.
Proof.
  intros (Ep & ->)%forward_prepared_refused. split; [done|]. split; [done|]. intros m ready -> Hh Hf.
  unfold forward_next at 1. unfold bind at 1, get at 1. cbn [backend_hold set_pending_frontend]. rewrite Hh.
  unfold bind at 1, make_room, bind at 1, get at 1. unfold backend_hold_is_full in *.
  cbn [backend_hold backend_hold_limits set_pending_frontend]. rewrite Hf. unfold ret at 1.
  unfold bind at 1, retry_frontend, bind at 1, take_pending_frontend. cbn [pending_frontend set_pending_frontend].
  unfold forward_prepared_frontend. cbn [pipeline set_pending_frontend]. rewrite Ep. reflexivity.
Qed.

(** *** Releasing the hold *)

Lemma send_all_ok ms : forall r l r', (for_each send_downstream ms : Mr (list unit)) r = (Ok l, r') ->
  to_client r' = to_client r ++ backend_frames ms /\ len (backend_frames ms) = len ms.
Proof.
  induction ms as [|m ms IH]; intros r l r' Hs; cbn [for_each] in Hs.
  { unfold ret in Hs. simplify_eq. now rewrite app_nil_r. }
  apply bind_ok in Hs as (u & r1 & H1 & (us & r2 & H2 & H3)%bind_ok). unfold ret in H3. simplify_eq.
  apply send_downstream_cases in H1 as ((f & Hf & Hc) & _). apply IH in H2 as [Hc' Hl].
  assert (backend_frames (m :: ms) = f :: backend_frames ms) as ->
    by (unfold backend_frames; cbn [omap list_omap]; now rewrite Hf).
  rewrite Hc', Hc, <- app_assoc. split; [done|]. unfold len in *. simpl. lia.
Qed.

Lemma flush_local_loop_extends c n : forall r, c `prefix_of` to_client r ->
  match (flush_local_loop n r : option (result unit (ForwardError E) * Relay)) with
  | None | Some (Panic, _) => True
  | Some (Err e, r') => c `prefix_of` to_client r' /\ is_late_failure e
  | Some (Ok _, r') => c `prefix_of` to_client r'
  end.
Proof.
  induction n as [|n IH]; intros r Hr; cbn [flush_local_loop]; [done|].
  destruct (pending_local r) as [|pending queue]; [done|].
  destruct (local_messages pending) as [|m ms]; [now apply IH|].
  unfold on_pipeline. destruct (try_emit_local _ m _) as [[[m'|m']|e|] p]; cbn [map_err]; try done.
  destruct (send_downstream m' _) as [x r3] eqn:Es. pose proof Es as Hf. apply send_downstream_cases in Es as (Hc & _).
  assert (forall f, to_client r3 = to_client r ++ [f] -> c `prefix_of` to_client r3) as Hx.
  { intros f ->. now apply prefix_app_r. }
  destruct x as [u|e|]; [|split|done].
  - destruct Hc as (f & _ & Hc). apply IH. eapply Hx. exact Hc.
  - destruct Hc as [Hc|(f & _ & Hc)]; [rewrite Hc; exact Hr|eapply Hx; exact Hc].
  - apply send_downstream_fails in Hf. now destruct e.
Qed.

Lemma flush_local_extends r x r' : (flush_local_responses : Mr unit) r = (x, r') ->
  match x with
  | Ok _ => to_client r `prefix_of` to_client r'
  | Err e => is_late_failure e
  | Panic => True
  end.
Proof.
  unfold flush_local_responses. intros H0.
  pose proof (flush_local_loop_extends (to_client r) (S (queued_work (pending_local r))) r ltac:(done)) as H1.
  destruct (flush_local_loop _ r) as [[[] r1]|]; simpl in H0; simplify_eq; tauto.
Qed.

Lemma release_span_cases ms r x r' : (release_span ms : Mr BackendBatchForwarding) r = (x, r') ->
  match prepare_backend_replacements (held (backend_hold r)) ms (pipeline r) with
  | Ok p =>
      match x with
      | Ok out => out = Released ms /\ (to_client r ++ backend_frames ms) `prefix_of` to_client r' /\
          len (backend_frames ms) = len ms
      | Err e => is_late_failure e
      | Panic => True
      end
  | Err e => x = Err (FE_BackendBatch (batch_error_from e) ms) /\ r' = r
  | Panic => x = Panic
  end.
Proof.
  unfold release_span, bind at 1, release_hold.
  destruct (prepare_backend_replacements _ ms (pipeline r)) as [p|e|]; [|intros; now simplify_eq..].
  intros H0. destruct x as [out|e|]; [| |done].
  - apply bind_ok in H0 as (us & r1 & H1 & (u & r2 & H2 & H3)%bind_ok). unfold ret in H3. simplify_eq.
    apply send_all_ok in H1 as [Hc Hl]. apply flush_local_extends in H2. rewrite Hc in H2. auto.
  - apply bind_err in H0 as [H1|(us & r1 & _ & [H2|(u & r2 & _ & H3)]%bind_err)]; [| |done].
    + apply (fails_for_each is_io_failure) in H1; [now destruct e|apply send_downstream_fails].
    + now apply flush_local_extends in H2.
Qed.

Lemma quiet_refl r : quiet r r.
Proof. now split. Qed.
Lemma quiet_stable r : stable (quiet r).
Proof. intros r1 r2 [] []. split; congruence. Qed.

Lemma quiet_run {A} (m : Mr A) r x r' : keeps (quiet r) m -> m r = (x, r') -> x = Panic \/ quiet r r'.
Proof. intros Hm H0. specialize (Hm r (quiet_refl r)). rewrite H0 in Hm. destruct x; auto. Qed.

Lemma check_frame_fails m : fails_with is_io_failure (check_frame m).
Proof. intros r e r' H0. unfold check_frame in H0. destruct (BackendMessage_to_frame m); now simplify_eq. Qed.
Lemma boundary_flush_fails h reason :
  fails_with (fun e => match e with FE_Middleware _ => True | _ => False end) (boundary_flush h reason).
Proof.
  intros r e r' H0. unfold boundary_flush in H0. destruct (at_boundary _ r) as [[]]; simpl in H0; now simplify_eq.
Qed.
Lemma hooks_total ms : fails_with (fun _ => False) (for_each downstream_backend ms).
Proof.
  apply fails_for_each. intros m r e r' H0. unfold downstream_backend in H0.
  destruct (core_intercept _ _ _ _) as [? []]. now simplify_eq.
Qed.

(** The part of a flush before the release. *)
Definition propose (reason : BackendFlushReason) : Mr (option (list BackendMessage)) :=
  bind (get attributed) (fun held => bind (boundary_flush held reason) (fun decision =>
    match decision with
    | KeepHolding => ret None
    | ReplaceOneToOne ms =>
        bind (for_each downstream_backend ms) (fun ms => bind (for_each check_frame ms) (fun _ => ret (Some ms)))
    end)).

Lemma propose_quiet reason r x r' : propose reason r = (x, r') -> x = Panic \/ quiet r r'.
Proof. apply quiet_run. pose proof (quiet_stable r). unfold propose. relay_walk. Qed.

Lemma flush_by_proposal reason r :
  (flush_backend_hold_for reason : Mr _) r =
    if hold_is_empty (backend_hold r) then (Ok Empty, r)
    else bind (propose reason) (fun o => match o with None => ret Kept | Some ms => release_span ms end) r.
Proof.
  unfold flush_backend_hold_for, propose, bind at 1, get at 1. destruct (hold_is_empty (backend_hold r)); [done|].
  unfold bind, get, ret. destruct (boundary_flush (attributed r) reason r) as [[[|ms]|e|] r1]; [done| |done..].
  destruct (for_each downstream_backend ms r1) as [[ms'|e|] r2]; [|done..].
  now destruct (for_each check_frame ms' r2) as [[]].
Qed.

(** C9: Releases are atomic. A flush whose middleware fails, keeps the hold or proposes
    a span the ledger does not accept changes neither the hold nor the ledger and
    sends nothing. A flush that releases validated the whole span first, one
    message per held message, emptied the hold and sent the span in order before
    anything else. *)
Theorem batch_release_atomic reason r x r' : (flush_backend_hold_for reason : Mr _) r = (x, r') ->
  match x with
  | Ok Empty => held (backend_hold r) = [] /\ r' = r
  | Ok Kept | Err (FE_Middleware _) | Err (FE_BackendBatch _ _) => quiet r r'
  | Ok (Released ms) =>
      is_ok (prepare_backend_replacements (held (backend_hold r)) ms (pipeline r)) = true /\
      len ms = len (held (backend_hold r)) /\ held (backend_hold r') = [] /\
      (to_client r ++ backend_frames ms) `prefix_of` to_client r' /\ len (backend_frames ms) = len ms
  | _ => True
  end.
Proof.
  rewrite flush_by_proposal. unfold hold_is_empty. destruct (held (backend_hold r)) as [|m0 ms0] eqn:Eh.
  { intros. now simplify_eq. }
  unfold bind at 1. destruct (propose reason r) as [o r1] eqn:Ep. pose proof (propose_quiet _ _ _ _ Ep) as Hq.
  destruct o as [[ms|]|e|]; [|unfold ret; intros; simplify_eq; now destruct Hq| |intros; now simplify_eq].
  2:{ intros; simplify_eq. destruct Hq as [|Hq]; [done|]. now destruct e. }
  destruct Hq as [|Hq]; [done|]. intros Hs. pose proof Hs as Hc. apply release_span_cases in Hc.
  pose proof (release_span_clears (E := E) (fun _ _ => True) (fun _ h => held h = []) ms ltac:(done) ltac:(done) r1 I) as Hh.
  rewrite (quiet_hold _ _ Hq), (quiet_pipeline _ _ Hq), Eh in Hc. rewrite Hs in Hh.
  destruct (prepare_backend_replacements (m0 :: ms0) ms (pipeline r)) as [p|e|] eqn:Er.
  - destruct x as [out|e|]; [destruct Hc as (-> & Hc & Hl)|now destruct e|exact I]. split; [now rewrite Er|].
    split; [|rewrite <- (quiet_client _ _ Hq); auto].
    unfold prepare_backend_replacements in Er. destruct (negb _) eqn:En; [done|].
    apply negb_false_iff, Z.eqb_eq in En. done.
  - destruct Hc as [-> ->]. exact Hq.
  - now subst x.
Qed.
End Spec.

(** ** Transparency without middleware *)

Section Transparent.
Context {WD WU State SC CC P K KE : Type}.
Context `{!MessageWire WD FrontendMessage} `{!MessageWire WU BackendMessage} `{!PipelinePolicy P}.
Context `{!IntermediaryCancellationRegistry K KE}.

Abbreviation Plain := (IntermediaryConnection WD WU State SC CC IdentityMiddleware IdentityMiddleware
  IdentityIntermediaryMiddleware P K).
Abbreviation Mp := (@M WD WU State SC CC IdentityMiddleware IdentityMiddleware IdentityIntermediaryMiddleware P K
  Infallible).
Implicit Type r : Plain.

(** Nothing held and nothing queued. *)
Definition drained r : Prop :=
  pending_local r = [] /\ pending (backend_hold r) = None /\ held (backend_hold r) = [].

Lemma plain_process_frontend m r :
  (process_frontend m : Mp _) r = forward_prepared_frontend (mkPreparedForwarding m [m]) r.
Proof. destruct r as [[] []]. reflexivity. Qed.

Lemma plain_emit_backend m r :
  (emit_backend m : Mp _) r =
    match accept_backend m (pipeline r) with
    | (Ok (Emit m), p) => bind (send_downstream m) (fun _ => ret m) (set_pipeline p r)
    | (Ok (Deferred m), p) => (Err (FE_Deferred m), set_pipeline p r)
    | (Err e, p) => (Err (FE_Backend e), set_pipeline p r)
    | (Panic, p) => (Panic, set_pipeline p r)
    end.
Proof.
  unfold emit_backend, advance_backend, bind, get, on_pipeline.
  destruct (accept_backend m (pipeline r)) as [[[m'|m']|e|] p]; try reflexivity. cbn [map_err]. unfold ret at 1.
  destruct (backend_transition_id m (pipeline r)); [|reflexivity]. destruct r as [[] []]. reflexivity.
Qed.

Lemma bind_step {A C} (m : Mp A) (k : A -> Mp C) r x r' : m r = (Ok x, r') -> bind m k r = k x r'.
Proof. intros H0. unfold bind. now rewrite H0. Qed.

Lemma bind_get {A C} (f : Plain -> A) (k : A -> Mp C) r : bind (get f) k r = k (f r) r.
Proof. reflexivity. Qed.
Lemma bind_ret {A C} (x : A) (k : A -> Mp C) r : bind (ret x) k r = k x r.
Proof. reflexivity. Qed.

Lemma plain_upstream_backend m r : (upstream_backend m : Mp _) r = (Ok m, r).
Proof. now destruct r as [[] []]. Qed.
Lemma plain_downstream_backend m r : (downstream_backend m : Mp _) r = (Ok m, r).
Proof. now destruct r as [[] []]. Qed.
Lemma plain_boundary_backend op m r : (boundary_backend op m : Mp _) r = (Ok (BM_Forward m), r).
Proof. now destruct r as [[] []]. Qed.
Lemma plain_flush_local r : pending_local r = [] -> (flush_local_responses : Mp _) r = (Ok tt, r).
Proof. intros Hl. unfold flush_local_responses. rewrite Hl. cbn [queued_work foldr flush_local_loop]. now rewrite Hl. Qed.

Lemma emit_local_queue m r : pending_local ((emit_backend m : Mp _) r).2 = pending_local r.
Proof.
  rewrite plain_emit_backend. destruct (accept_backend m (pipeline r)) as [[[m'|m']|e|] p]; try reflexivity.
  unfold bind. pose proof (send_downstream_queue (E := Infallible) m' (set_pipeline p r)) as Hq.
  destruct (send_downstream m' _) as [[]]; exact Hq.
Qed.

Lemma plain_process_backend m r : drained r ->
  (process_backend m : Mp _) r = bind (emit_backend m) (fun m => ret (BF_Forwarded m)) r.
Proof.
  intros (Hl & Hp & Hh). set (r1 := set_backend_hold (mkHold (Some (m, retained_bytes m)) [] (held_bytes (backend_hold r))) r).
  assert ((on_hold (set_pending m) : Mp _) r = (Ok tt, r1)) as H1.
  { unfold on_hold, set_pending. rewrite Hp, Hh. reflexivity. }
  assert ((drop_pending : Mp _) r1 = (Ok tt, r)) as H2.
  { unfold drop_pending, put. f_equal. destruct r as [dc uc st b p t pf [pd hd hb] lim loc reg key]. simpl in *. now subst. }
  unfold process_backend. rewrite (bind_step _ _ _ _ _ (plain_upstream_backend m r)).
  rewrite (bind_step _ _ _ _ _ H1), bind_get. cbn [backend_hold set_backend_hold r1 hold_is_empty held negb].
  rewrite andb_false_r, bind_ret. unfold process_pending_backend.
  rewrite bind_get. cbn [backend_hold set_backend_hold r1 hold_pending_message pending fmap option_fmap option_map fst].
  rewrite bind_get.
  rewrite (bind_step _ _ _ _ _ (plain_boundary_backend _ m r1)). cbv beta iota.
  pose proof (emit_local_queue m r) as Hq. unfold bind at 1. rewrite (bind_step _ _ _ _ _ H2).
  rewrite (bind_step _ _ _ _ _ (plain_downstream_backend m r)). unfold bind.
  destruct (emit_backend m r) as [[m'|e|] r2]; try reflexivity. simpl in Hq. unfold ret at 1.
  now rewrite plain_flush_local by congruence.
Qed.

Lemma plain_make_room r : held (backend_hold r) = [] -> (make_room : Mp _) r = (Ok tt, r).
Proof.
  intros Hh. unfold make_room. rewrite bind_get. destruct (backend_hold_is_full r); [|done].
  unfold release_or. rewrite (bind_step _ _ r Empty r); [done|]. unfold flush_backend_hold_for.
  rewrite bind_get. unfold hold_is_empty. now rewrite Hh.
Qed.

(** The driver without middleware: retry a retained request, else take from the
    side that is ready. *)
Lemma plain_forward_next ready r : drained r ->
  (forward_next ready : Mp _) r =
    bind retry_frontend (fun retried => match retried with
      | Some outcome => ret outcome
      | None => bind (get (fun r => is_some (pending_frontend r))) (fun blocked =>
          match (if blocked : bool then Upstream else ready) with
          | Upstream => bind receive_upstream (fun m => bind (process_backend m) (fun o => ret (backend_outcome o)))
          | Downstream => bind receive_downstream (fun m => bind (process_frontend m) (fun o => ret (frontend_outcome o)))
          end)
      end) r.
Proof.
  intros (_ & Hp & Hh). unfold forward_next. rewrite bind_get.
  unfold hold_pending_message. rewrite Hp. cbn [fmap option_fmap option_map].
  now rewrite (bind_step _ _ _ _ _ (plain_make_room r Hh)).
Qed.

Context `{!MessageWireLaws WD FrontendMessage} `{!MessageWireLaws WU BackendMessage}.

Lemma forwarded_sublist ms h : forall (p : Pipeline P) p' items, project_sequence ms h p = Ok (p', items) ->
  to_forward items `sublist_of` ms.
Proof.
  induction ms as [|m ms IH]; intros p p' items Hs; cbn [project_sequence] in Hs; [now injection Hs as <- <-|].
  destruct (negb _); [done|]. destruct (accept_frontend m h p) as [[a|e|] q] eqn:Ea; [|done..].
  destruct (project_sequence ms h q) as [[q' its]| |] eqn:Es; [|done..]. injection Hs as <- <-. apply IH in Es.
  unfold to_forward in *. cbn [omap list_omap admission]. unfold forwarded_message at 1.
  destruct (into_action a) as [i m'|i] eqn:Ei; [|now constructor].
  enough (m' = m) as -> by now constructor.
  unfold accept_frontend in Ea. destruct (prepare_frontend m p); [|done..]. unfold commit_frontend in Ea.
  destruct (classify_frontend _ m) as [[k n]| |]; [|done..].
  injection Ea as Ea _. rewrite <- Ea in Ei. clear Ea.
  repeat (match type of Ei with context [match ?y with _ => _ end] => destruct y end); now simplify_eq/=.
Qed.

Lemma plain_observe o r : (observe o : Mp _) r = (Ok tt, r).
Proof. now destruct r as [[] []]. Qed.

Lemma plain_forward_item item r :
  (forward_item item : Mp _) r =
    match forwarded_message (admission item) with
    | Some m => bind (send_upstream m) (fun _ => ret (Some m)) r
    | None => (Ok None, r)
    end.
Proof.
  unfold forward_item, forwarded_message. destruct (into_action (admission item)); [|reflexivity].
  destruct (item_transition item); [|reflexivity]. now rewrite (bind_step _ _ _ _ _ (plain_observe _ r)).
Qed.

(** Sending a sequence touches only the upstream wire. *)
Lemma plain_send_items items : forall r l r', (for_each forward_item items : Mp _) r = (Ok l, r') ->
  r' = set_upstream (upstream r') r /\ received (core_conn (upstream r')) = received (core_conn (upstream r)) /\
  to_server r' = to_server r ++ frontend_frames (to_forward items) /\
  len (frontend_frames (to_forward items)) = len (to_forward items).
Proof.
  induction items as [|item items IH]; intros r l r' Hs; cbn [for_each] in Hs.
  { unfold ret in Hs. simplify_eq. rewrite app_nil_r. now destruct r'. }
  apply bind_ok in Hs as (o & r1 & H1 & (os & r2 & H2 & H3)%bind_ok). unfold ret in H3. simplify_eq.
  apply IH in H2 as (E1 & E2 & E3 & E4). rewrite plain_forward_item in H1.
  unfold to_forward in *. cbn [omap list_omap]. destruct (forwarded_message (admission item)) as [m|].
  2:{ injection H1 as <- <-. auto. }
  apply bind_ok in H1 as ([] & r3 & H1 & H4). unfold ret in H4. simplify_eq.
  pose proof H1 as Hc. apply send_upstream_cases in Hc as ((f & Hf & Hc) & _).
  unfold send_upstream in H1. unfold core_transmit in H1. rewrite Hf in H1.
  destruct (wire_transmit f (core_conn (upstream r))) as [[u|e|] w] eqn:Ew; simpl in H1; simplify_eq.
  apply transmit_keeps_received in Ew. cbn [upstream set_upstream core_conn] in E2.
  split; [exact E1|]. split; [now rewrite E2|]. rewrite E3, Hc, <- app_assoc.
  unfold frontend_frames in *. cbn [omap list_omap]. rewrite Hf. split; [done|]. unfold len in *. simpl. lia.
Qed.

Definition waiting_requests r : list FrontendMessage :=
  match pending_frontend r with Some prepared => forwarding_messages prepared | None => [] end.

(** What has passed through between [r0] and [r]. *)
Record relayed (r0 r : Plain) : Prop := mkRelayed {
  relayed_drained : drained r;
  relayed_backend : exists ms,
    received (core_conn (upstream r)) = received (core_conn (upstream r0)) ++ ms /\
    to_client r = to_client r0 ++ backend_frames ms /\ len (backend_frames ms) = len ms;
  relayed_frontend : exists ms up,
    received (core_conn (downstream r)) = received (core_conn (downstream r0)) ++ ms /\
    to_server r = to_server r0 ++ frontend_frames up /\ len (frontend_frames up) = len up /\
    (up ++ waiting_requests r) `sublist_of` (waiting_requests r0 ++ ms)
}.

Lemma relayed_refl r : drained r -> relayed r r.
Proof.
  intros Hd. split; [exact Hd|exists []; now rewrite !app_nil_r|]. exists [], []. rewrite !app_nil_r. done.
Qed.

(** A response passed through. *)
Lemma relayed_response r0 r m f p c w : relayed r0 r -> BackendMessage_to_frame m = Ok f ->
  received w = received (core_conn (upstream r)) ++ [m] -> sent w = sent (core_conn (upstream r)) ->
  received (core_conn c) = received (core_conn (downstream r)) ->
  sent (core_conn c) = sent (core_conn (downstream r)) ++ [f] ->
  relayed r0 (set_downstream c (set_pipeline p (set_upstream (mkCore w (core_handler (upstream r)) (core_context (upstream r))) r))).
Proof.
  intros [Hd (ms & B1 & B2 & B3) (fs & up & F1 & F2 & F3 & F4)] Hf Hw Hs Hc Ht. split; [exact Hd| |].
  - exists (ms ++ [m]). unfold to_client in *. cbn. rewrite Hw, B1, Ht, B2, <- !app_assoc.
    rewrite (backend_frames_snoc _ _ _ Hf). split_and!; try done. unfold len in *. rewrite !length_app. simpl. lia.
  - exists fs, up. unfold to_server in *. cbn. rewrite Hc, Hs. auto.
Qed.

(** Requests were read, forwarded or retained. *)
Lemma relayed_requests r0 r r' ms up : relayed r0 r -> drained r' ->
  received (core_conn (downstream r')) = received (core_conn (downstream r)) ++ ms ->
  to_server r' = to_server r ++ frontend_frames up -> len (frontend_frames up) = len up ->
  (up ++ waiting_requests r') `sublist_of` (waiting_requests r ++ ms) ->
  received (core_conn (upstream r')) = received (core_conn (upstream r)) -> to_client r' = to_client r ->
  relayed r0 r'.
Proof.
  intros [Hd (bs & B1 & B2 & B3) (fs & up0 & F1 & F2 & F3 & F4)] Hd' H1 H2 H3 H4 H5 H6. split; [exact Hd'| |].
  - exists bs. now rewrite H5, H6.
  - exists (fs ++ ms), (up0 ++ up). rewrite H1, F1, H2, F2, <- !app_assoc.
    unfold frontend_frames in *. rewrite omap_app. split_and!; try done.
    + unfold len in *. rewrite !length_app. lia.
    + etrans; [apply sublist_app; [reflexivity|exact H4]|]. rewrite !app_assoc. now apply sublist_app.
Qed.

(** Results after which forwarding goes on: success, or a request that waits. *)
Definition goes_on {A} (x : result A (ForwardError Infallible)) : bool :=
  match x with Ok _ | Err (FE_Frontend _) => true | _ => false end.

Lemma plain_forward_prepared prepared r x r' : pending_frontend r = None ->
  (forward_prepared_frontend prepared : Mp _) r = (x, r') -> goes_on x = true ->
  (drained r -> drained r') /\ downstream r' = downstream r /\
  received (core_conn (upstream r')) = received (core_conn (upstream r)) /\
  exists up, to_server r' = to_server r ++ frontend_frames up /\ len (frontend_frames up) = len up /\
    (up ++ waiting_requests r') `sublist_of` forwarding_messages prepared.
Proof.
  intros Hp H0 Hx. unfold forward_prepared_frontend in H0.
  destruct (prepare_frontend_sequence _ Forward (pipeline r)) as [[p items]|e|] eqn:Es; [|simplify_eq|now simplify_eq].
  2:{ split_and!; try done. exists []. simpl. rewrite app_nil_r. done. }
  cbn [commit_frontend_sequence fst snd] in H0. destruct x as [out|e|]; [|apply forward_items_fails in H0; now destruct e|done].
  unfold forward_items in H0. apply bind_ok in H0 as (l & r1 & H1 & H2).
  assert (r1 = r') as ->.
  { cbv zeta in H2. destruct (omap _ l); [|destruct (bool_decide _)]; unfold ret in H2; now simplify_eq. }
  apply plain_send_items in H1 as (E1 & E2 & E3 & E4). apply forwarded_sublist in Es.
  rewrite E1. split; [done|]. split; [done|]. cbn [upstream set_upstream]. split; [exact E2|].
  exists (to_forward items). unfold to_server. cbn [upstream set_upstream]. split; [exact E3|]. split; [exact E4|].
  unfold waiting_requests. cbn [pending_frontend set_upstream set_pipeline]. rewrite Hp, app_nil_r. exact Es.
Qed.

Lemma relayed_prepared prepared r0 r r1 x r' ms : relayed r0 r -> drained r1 -> pending_frontend r1 = None ->
  (forward_prepared_frontend prepared : Mp _) r1 = (x, r') -> goes_on x = true ->
  received (core_conn (downstream r1)) = received (core_conn (downstream r)) ++ ms ->
  to_client r1 = to_client r -> upstream r1 = upstream r ->
  forwarding_messages prepared `sublist_of` (waiting_requests r ++ ms) -> relayed r0 r'.
Proof.
  intros Hr Hd Hp H0 Hx E1 E2 E3 Hs.
  destruct (plain_forward_prepared _ _ _ _ Hp H0 Hx) as (D1 & D2 & D3 & up & U1 & U2 & U3).
  eapply (relayed_requests r0 r r' ms up); [exact Hr|auto|now rewrite D2| |exact U2| |now rewrite D3, E3|].
  - rewrite U1. unfold to_server. now rewrite E3.
  - etrans; eassumption.
  - unfold to_client in *. now rewrite D2.
Qed.

Lemma relayed_from_server r0 r m r1 x r' : relayed r0 r -> (receive_upstream : Mp _) r = (Ok m, r1) ->
  bind (process_backend m) (fun o => ret (backend_outcome o)) r1 = (x, r') -> goes_on (A := ForwardedMessage) x = true ->
  relayed r0 r'.
Proof.
  intros Hr H1 H2 Hx. unfold receive_upstream, core_receive_wire_raw in H1.
  destruct (wire_receive (core_conn (upstream r))) as [y w] eqn:Ew. destruct y as [m'|e|]; simpl in H1; simplify_eq.
  set (r1 := set_upstream _ r) in H2. assert (drained r1) as Hd by exact (relayed_drained _ _ Hr).
  unfold bind in H2. rewrite (plain_process_backend m r1 Hd) in H2. unfold bind in H2.
  rewrite plain_emit_backend in H2.
  destruct (accept_backend m (pipeline r1)) as [[[m'|m']|e|] p] eqn:Ea; try (simplify_eq; done).
  pose proof (accept_response_emit None m _ _ _ Ea) as ->. unfold bind in H2.
  destruct (send_downstream m (set_pipeline p r1)) as [[u|e|] r2] eqn:Es; [|simplify_eq|now simplify_eq].
  2:{ apply send_downstream_fails in Es. now destruct e. }
  unfold ret in H2. simplify_eq. pose proof Es as Hc. apply send_downstream_cases in Hc as ((f & Hf & Hc) & _).
  unfold send_downstream, core_transmit in Es. rewrite Hf in Es.
  destruct (wire_transmit f _) as [[v|e|] w'] eqn:Et; simpl in Es; simplify_eq.
  pose proof (receive_ok _ _ _ Ew) as R1. pose proof (receive_keeps_sent _ _ _ Ew) as R2.
  pose proof (transmit_keeps_received _ _ _ _ Et) as T1.
  exact (relayed_response r0 r m f p (mkCore w' (core_handler (downstream r)) (core_context (downstream r))) w
    Hr Hf R1 R2 T1 Hc).
Qed.

Lemma drained_downstream c r : drained r -> drained (set_downstream c r).
Proof. done. Qed.

Lemma forward_next_relayed r0 ready r x r' : relayed r0 r -> (forward_next ready : Mp _) r = (x, r') ->
  goes_on x = true -> relayed r0 r'.
Proof.
  intros Hr H0 Hx. pose proof (relayed_drained _ _ Hr) as Hd. rewrite (plain_forward_next ready r Hd) in H0.
  unfold bind at 1 in H0. unfold retry_frontend, bind at 1, take_pending_frontend in H0.
  destruct (pending_frontend r) as [prepared|] eqn:Ep.
  - set (r1 := set_pending_frontend None r) in H0.
    destruct (forward_prepared_frontend prepared r1) as [y r2] eqn:Ef.
    assert (goes_on y = true -> relayed r0 r2) as Hf.
    { intros Hy. eapply (relayed_prepared prepared r0 r r1 y r2 []); try done.
      - now rewrite app_nil_r.
      - unfold waiting_requests. now rewrite Ep, app_nil_r. }
    destruct y as [out|e|]; [| |now simplify_eq].
    { unfold ret in H0. simplify_eq. now apply Hf. }
    destruct e as [|[m0|st m0]| | | | | | | |]; try (simplify_eq; now apply Hf).
    rewrite bind_get in H0. specialize (Hf eq_refl).
    apply forward_prepared_refused in Ef as [_ ->]. cbn [pending_frontend set_pending_frontend is_some] in H0.
    unfold bind at 1 in H0.
    destruct (receive_upstream _) as [[m|e|] r3] eqn:Em; [|simplify_eq|now simplify_eq].
    + exact (relayed_from_server r0 _ m r3 x r' Hf Em H0 Hx).
    + unfold receive_upstream in Em. destruct (core_receive_wire_raw _) as [[]]; simpl in Em; now simplify_eq.
  - replace (set_pending_frontend None r) with r in H0 by (destruct r; simpl in *; now subst).
    unfold ret at 1 in H0. rewrite bind_get, Ep in H0. cbn [is_some] in H0. destruct ready.
    + unfold bind at 1 in H0. destruct (receive_downstream r) as [[m|e|] r3] eqn:Em; [|simplify_eq|now simplify_eq].
      * unfold receive_downstream, core_receive_wire_raw in Em.
        destruct (wire_receive (core_conn (downstream r))) as [[m'|e|] w] eqn:Ew; simpl in Em; simplify_eq.
        unfold bind in H0. rewrite plain_process_frontend in H0.
        destruct (forward_prepared_frontend _ _) as [y r4] eqn:Ef.
        assert (goes_on y = true /\ r4 = r') as [Hy ->].
        { destruct y; unfold ret in H0; simplify_eq; split; try done. }
        eapply (relayed_prepared _ r0 r _ y r' [m] Hr); [| |exact Ef|exact Hy| | | |]; try done.
        -- cbn. eapply receive_ok; exact Ew.
        -- unfold to_client. cbn. eapply receive_keeps_sent; exact Ew.
        -- unfold waiting_requests. now rewrite Ep.
      * unfold receive_downstream in Em. destruct (core_receive_wire_raw _) as [[]]; simpl in Em; now simplify_eq.
    + unfold bind at 1 in H0. destruct (receive_upstream r) as [[m|e|] r3] eqn:Em; [|simplify_eq|now simplify_eq].
      * exact (relayed_from_server r0 _ m r3 x r' Hr Em H0 Hx).
      * unfold receive_upstream in Em. destruct (core_receive_wire_raw _) as [[]]; simpl in Em; now simplify_eq.
Qed.

(** Call [forward_next] once per choice of the ready side. *)
Fixpoint pump (choices : list side) r : option Plain :=
  match choices with
  | [] => Some r
  | ready :: choices =>
      let (x, r) := (forward_next ready : Mp _) r in if goes_on x then pump choices r else None
  end.

Lemma pump_relayed choices : forall r0 r r', relayed r0 r -> pump choices r = Some r' -> relayed r0 r'.
Proof.
  induction choices as [|ready choices IH]; intros r0 r r' Hr Hp; cbn [pump] in Hp; [now injection Hp as <-|].
  destruct (forward_next ready r) as [x r1] eqn:Ef. destruct (goes_on x) eqn:Ex; [|done].
  eapply IH; [|exact Hp]. eapply forward_next_relayed; eassumption.
Qed.

(** C8: Without middleware the intermediary is transparent. However the two sides'
    traffic interleaves and however often requests wait for capacity, every
    response read from the server has been sent to the client, each as its own
    frame and in order, and nothing else has; the requests sent to the server
    followed by those waiting are requests read from the client in order (the
    ledger drops those a failed extended batch discards). *)
Theorem relay_transparent choices r r' : drained r -> pump choices r = Some r' -> relayed r r'.
Proof. intros Hd Hp. eapply pump_relayed; [now apply relayed_refl|exact Hp]. Qed.
End Transparent.

(** ** A concrete connection *)

Module Model.
(** A wire that is a queue of messages and a list of frames. *)
Record QueueWire (In : Type) : Type := mkQueue { arriving : list In; taken : list In; departed : list Frame }.
Arguments mkQueue {In}. Arguments arriving {In}. Arguments taken {In}. Arguments departed {In}.

#[export] Instance queue_wire {In} : MessageWire (QueueWire In) In := {
  wire_receive w :=
    match arriving w with
    | [] => (Err (mkError UnexpectedEof ""), w)
    | m :: rest => (Ok m, mkQueue rest (taken w ++ [m]) (departed w))
    end;
  wire_transmit f w := (Ok tt, mkQueue (arriving w) (taken w) (departed w ++ [f]))
}.
#[export] Program Instance queue_wire_laws {In} : MessageWireLaws (QueueWire In) In :=
  {| sent := departed; received := taken |}.
Next Obligation. intros In w r w' H. simpl in H. destruct (arriving w); now simplify_eq. Qed.
Next Obligation. intros In w m w' H. simpl in H. destruct (arriving w); now simplify_eq. Qed.
Next Obligation. intros In w e w' H. simpl in H. destruct (arriving w); now simplify_eq. Qed.
Next Obligation. intros In f w r w' H. simpl in H. now simplify_eq. Qed.
Next Obligation. intros In f w w' H. simpl in H. now simplify_eq. Qed.
Next Obligation. intros In f w e w' H. simpl in H. now simplify_eq. Qed.

(** Boundary middleware that answers queries with an empty text itself, and holds
    rows without columns. *)
Inductive Chooser : Type := mkChooser.
#[export] Instance chooser : IntermediaryMiddleware Chooser unit unit unit unit := {|
  observe_transition b _ _ st _ := (b, st);
  frontend_operation b _ _ st _ m :=
    (Ok (match m with
         | F_Query [] => FM_Respond m [B_EmptyQueryResponse; B_ReadyForQuery Idle]
         | _ => FM_Forward m
         end), (b, st));
  backend_operation b _ _ st _ m :=
    (Ok (match m with B_DataRow (mkDataRow []) => BM_Hold | _ => BM_Forward m end), (b, st));
  flush_backend_operations b _ _ st span _ := (Ok (ReplaceOneToOne (attributed_messages span)), (b, st))
|}.

Abbreviation Demo Bd := (IntermediaryConnection (QueueWire FrontendMessage) (QueueWire BackendMessage) unit unit unit
  IdentityMiddleware IdentityMiddleware Bd BoundedPipeline RejectCancellation).

Definition connect {Bd} (b : Bd) (limit : Z) (requests : list FrontendMessage) (replies : list BackendMessage) : Demo Bd :=
  mkRelay (mkCore (mkQueue requests [] []) mkIdentityMiddleware tt) (mkCore (mkQueue replies [] []) mkIdentityMiddleware tt)
    tt b (Pipeline_new (mkBounded limit)) (ConnectTarget_new []) None BackendHold_default (Some (mkLimits 4 1024)) []
    mkRejectCancellation None.

Definition row : BackendMessage := B_DataRow (mkDataRow [None]).
Definition held_row : BackendMessage := B_DataRow (mkDataRow []).
Definition query : FrontendMessage := F_Query ["q"%byte].
Definition replies : list BackendMessage :=
  [held_row; held_row; B_CommandComplete []; B_ReadyForQuery Idle].

(** A query for the server, one answered locally, and the server's replies. *)
Definition demo : Demo Chooser := connect mkChooser 4 [query; F_Query []] replies.
Definition demo_ops : list driver_op :=
  [ForwardFrontend; ForwardNext Downstream; ForwardBackend; ForwardBackend; ForwardBackend; ForwardNext Upstream].
Definition demo_end : Demo Chooser := default demo (run_driver demo_ops demo).
End Model.

Import Model.

Lemma relay_in_request_order_witness : exists answered requests,
  ledger_relayed (E := unit) demo_ops demo answered requests demo_end /\ StronglySorted Z.le (omap fst answered).
Proof.
  apply (relay_in_request_order (mkBounded 4) demo_ops demo demo_end);
    [reflexivity|vm_compute; reflexivity|vm_compute; reflexivity].
Defined.

(** In the run the local answer waited for the server's. *)
Example demo_end_traffic : to_client demo_end =
  backend_frames (replies ++ [B_EmptyQueryResponse; B_ReadyForQuery Idle]).
Proof. vm_compute. reflexivity. Qed.

Lemma hold_within_limits_witness :
  on_hold_state within_limits (default demo (run_driver (take 4 demo_ops) demo)).
Proof.
  apply (hold_within_limits (take 4 demo_ops) demo); [|reflexivity|vm_compute; reflexivity].
  intros l [= <-]. vm_compute. now split; [|split].
Defined.

(** A ledger of one operation that is taken. *)
Definition busy : Demo Chooser := ((forward_frontend : @M _ _ _ _ _ _ _ _ _ _ unit _)
  (connect mkChooser 1 [query; query] replies)).2.
Definition second : PreparedFrontendForwarding := mkPreparedForwarding query [query].

Lemma backpressure_retains_request_witness :
  (forward_next Downstream : @M _ _ _ _ _ _ _ _ _ _ unit _) (set_pending_frontend (Some second) busy) =
    bind receive_upstream (fun m => bind (process_backend m) (fun o => ret (backend_outcome o)))
      (set_pending_frontend (Some second) busy).
Proof.
  refine (proj2 (proj2 (backpressure_retains_request (E := unit) second busy (Capacity query)
    (set_pending_frontend (Some second) busy) _)) query Downstream _ _ _); vm_compute; reflexivity.
Defined.

(** Two rows held by the first two backend calls. *)
Definition holding : Demo Chooser :=
  default demo (run_driver [ForwardFrontend; ForwardBackend; ForwardBackend] demo).
Definition released : Demo Chooser := ((flush_backend_hold : @M _ _ _ _ _ _ _ _ _ _ unit _) holding).2.

Lemma batch_release_atomic_witness :
  held (backend_hold holding) = [held_row; held_row] /\ held (backend_hold released) = [] /\
  (to_client holding ++ backend_frames [held_row; held_row]) `prefix_of` to_client released.
Proof.
  split; [vm_compute; reflexivity|].
  pose proof (batch_release_atomic (E := unit) Explicit holding (Ok (Released [held_row; held_row])) released) as H.
  destruct (H ltac:(vm_compute; reflexivity)) as (_ & _ & H1 & H2 & _). auto.
Defined.

Definition plain_demo : Demo IdentityIntermediaryMiddleware :=
  connect mkIdentityIntermediary 1 [query; query] replies.
Definition plain_end : Demo IdentityIntermediaryMiddleware :=
  default plain_demo (pump [Downstream; Downstream; Upstream; Upstream; Downstream; Upstream; Upstream] plain_demo).

Lemma relay_transparent_witness : relayed plain_demo plain_end.
Proof.
  apply (relay_transparent [Downstream; Downstream; Upstream; Upstream; Downstream; Upstream; Upstream]);
    [now split|vm_compute; reflexivity].
Defined.

(** The design document of the hold says that order is stable: inputs retain wire
    order. A message that middleware forwards while earlier messages are held, and
    that is not a barrier, is emitted before them. *)
Theorem forward_overtakes_held :
  exists r, run_driver [ForwardFrontend; ForwardBackend; ForwardBackend; FlushHold]
      (connect mkChooser 4 [query] [held_row; row]) = Some r /\
    taken (core_conn (upstream r)) = [held_row; row] /\ to_client r = backend_frames [row; held_row].
Proof. eexists. split; [vm_compute; reflexivity|]. vm_compute. auto. Qed.
