(* ===== verification/RelayWire.v ===== *)
(** The relay over buffered streams: the message transport the forwarding driver
    uses (its class [MessageWire]) implemented by [Transport.Buffered], with the
    frames the driver sends tied to the bytes on the stream. *)

From Stdlib Require Import ZArith Lia String Sorted.
From Stdlib Require Import Init.Byte.
From stdpp Require Import prelude.
From S2P Require Import Prelude OrdMap Wire Frame Frontend Startup Backend Demux Cancel BackendHold Pipeline Transport RuntimeMiddleware Intermediary Relay RelayProofs RelaySpec.

Local Open Scope string_scope.
Local Open Scope Z_scope.
Local Open Scope list_scope.

Section Streams.
Context {S : Type} `{AsyncIo S} (taken written : S -> bytes) `{!AsyncIoLaws S taken written}.
Context {In : Type} `{Direction In}.

(** How often an await is polled before its caller drops it, and whether a
    receive is dropped and started again while it waits. *)
Context (polls : nat) (cancelled : nat -> bool).

(** A buffered connection with the messages received from it and the frames
    accepted into its buffer so far. *)
Record Wired : Type := mkWired { wired : Buffered S; wired_received : list In; wired_sent : list Frame }.

(** An await dropped before it completed yields nothing. *)
Definition abandoned : io_error := mkError Other "dropped before completion".

Definition wired_receive (w : Wired) : io In * Wired :=
  let (r, b) := receive_wire polls cancelled (wired w) in
  match r with
  | Some (Ok m) => (Ok m, mkWired b (wired_received w ++ [m]) (wired_sent w))
  | Some (Err e) => (Err e, mkWired b (wired_received w) (wired_sent w))
  | Some Panic => (Panic, mkWired b (wired_received w) (wired_sent w))
  | None => (Err abandoned, mkWired b (wired_received w) (wired_sent w))
  end.

(** [self.conn.push(frame)?] and [self.conn.flush().await?]. *)
Definition wired_transmit (frame : Frame) (w : Wired) : io unit * Wired :=
  let (r, b) := push frame (wired w) in
  match r with
  | Ok _ =>
      let (r, b) := flush polls b in
      (match r with Some r => r | None => Err abandoned end,
       mkWired b (wired_received w) (wired_sent w ++ [frame]))
  | Err e => (Err e, mkWired b (wired_received w) (wired_sent w))
  | Panic => (Panic, mkWired b (wired_received w) (wired_sent w))
  end.

(** The frames sent are, in order, the bytes written to the stream since
    [before] and those waiting to be. *)
Definition accounted (before : bytes) (w : Wired) : Prop :=
  codec_valid (inbound_codec (wired w)) /\
  written (stream (wired w)) ++ outbound (wired w) = before ++ concat (map wire_image (wired_sent w)).

Lemma receive_loop_writes_nothing {M} (dec : bytes -> io (option M) * bytes) eof fuel : forall b pt r b',
  receive_loop dec eof fuel cancelled pt b = (r, b') ->
  written (stream b') = written (stream b) /\ outbound b' = outbound b /\ inbound_codec b' = inbound_codec b.
Proof using AsyncIoLaws0.
  induction fuel as [|fuel IH]; intros b pt r b' E; cbn [receive_loop] in E; [now simplify_eq|]. destruct pt.
  - destruct (dec (inbound b)) as [[[m|]|e|] rest]; simplify_eq; try done. now apply IH in E.
  - destruct (poll_read (stream b)) as [q s] eqn:Ep. apply read_law in Ep as [Es _].
    destruct q as [[[|x c]|e|]|]; simplify_eq; try done; apply IH in E as (E1 & E2 & E3); cbn in *; now rewrite E1, E2, E3, Es.
Qed.

Lemma wired_receive_accounted before w : accounted before w -> accounted before (wired_receive w).2.
Proof using AsyncIoLaws0.
  unfold accounted, wired_receive, receive_wire. destruct (receive_loop _ _ _ _ _ (wired w)) as [r b] eqn:Er.
  apply receive_loop_writes_nothing in Er as (E1 & E2 & E3). intros [Hc Hw].
  destruct r as [[m|e|]|]; cbn; now rewrite E1, E2, E3.
Qed.

Lemma wired_transmit_accounted before frame w : accounted before w -> accounted before (wired_transmit frame w).2.
Proof using AsyncIoLaws0.
  unfold accounted, wired_transmit, push. intros [Hc Hw].
  destruct (PgCodec_encode _ frame _) as [o|e|] eqn:Ee; try done.
  apply encode_image in Ee as [-> _]; [|done].
  destruct (flush polls _) as [r b] eqn:Ef. apply (flush_conserves taken written) in Ef as ((Ew & _ & Eb) & _ & _). cbn in *.
  split; [now rewrite Eb|]. rewrite Ew, map_app, concat_app. cbn. rewrite app_nil_r, !app_assoc. now rewrite <- Hw.
Qed.

(** Such connections are wires of the driver. *)
Definition StreamWire (before : bytes) : Type := { w : Wired | accounted before w }.

#[export] Instance stream_wire before : MessageWire (StreamWire before) In := {
  wire_receive w := ((wired_receive (`w)).1, exist _ (wired_receive (`w)).2 (wired_receive_accounted before _ (proj2_sig w)));
  wire_transmit f w := ((wired_transmit f (`w)).1, exist _ (wired_transmit f (`w)).2 (wired_transmit_accounted before f _ (proj2_sig w)))
}.

#[export] Program Instance stream_wire_laws before : MessageWireLaws (StreamWire before) In :=
  {| Intermediary.sent w := wired_sent (`w); Intermediary.received w := wired_received (`w) |}.
Next Obligation.
  intros before w r w' [= <- <-]. cbn. unfold wired_receive. now destruct (receive_wire _ _ _) as [[[]|] ?].
Qed.
Next Obligation.
  intros before w m w' [= Hr <-]. cbn. revert Hr. unfold wired_receive. destruct (receive_wire _ _ _) as [[[]|] ?]; cbn; congruence.
Qed.
Next Obligation.
  intros before w e w' [= Hr <-]. cbn. revert Hr. unfold wired_receive. now destruct (receive_wire _ _ _) as [[[]|] ?].
Qed.
Next Obligation.
  intros before f w r w' [= <- <-]. cbn. unfold wired_transmit. destruct (push _ _) as [[] b]; [now destruct (flush _ _)|done..].
Qed.
Next Obligation.
  intros before f w w' [= Hr <-]. cbn. revert Hr. unfold wired_transmit. destruct (push _ _) as [[] b]; [now destruct (flush _ _)|done..].
Qed.
Next Obligation.
  intros before f w e w' [= Hr <-]. cbn. revert Hr. unfold wired_transmit. destruct (push _ _) as [[] b]; [destruct (flush _ _); cbn; eauto|eauto|eauto].
Qed.

(** What the driver has sent over such a wire is on the stream or in its buffer. *)
Lemma stream_wire_bytes before (w : StreamWire before) :
  written (stream (wired (`w))) ++ outbound (wired (`w)) = before ++ concat (map wire_image (Intermediary.sent w)).
Proof. exact (proj2 (proj2_sig w)). Qed.
End Streams.

(** ** The bytes of a relayed conversation *)

Section Relayed.
Context {SD SU : Type} `{AsyncIo SD} `{AsyncIo SU} (takenD writtenD : SD -> bytes) (takenU writtenU : SU -> bytes).
Context `{!AsyncIoLaws SD takenD writtenD} `{!AsyncIoLaws SU takenU writtenU}.
Context {State SC CC SH CH B P K E KE : Type}.
Context `{!ServerMiddleware SH State SC} `{!ClientMiddleware CH State CC}.
Context `{!IntermediaryMiddleware B State SC CC E} `{!PipelinePolicy P}.
Context `{!IntermediaryCancellationRegistry K KE}.
Context (polls : nat) (cancelled : nat -> bool) (greeted logged_in : bytes).

Abbreviation ClientSide := (StreamWire (S := SD) writtenD (In := FrontendMessage) greeted).
Abbreviation ServerSide := (StreamWire (S := SU) writtenU (In := BackendMessage) logged_in).
#[local] Instance client_side : MessageWire ClientSide FrontendMessage := stream_wire takenD writtenD polls cancelled greeted.
#[local] Instance server_side : MessageWire ServerSide BackendMessage := stream_wire takenU writtenU polls cancelled logged_in.
#[local] Instance client_side_laws : MessageWireLaws ClientSide FrontendMessage := stream_wire_laws takenD writtenD polls cancelled greeted.
#[local] Instance server_side_laws : MessageWireLaws ServerSide BackendMessage := stream_wire_laws takenU writtenU polls cancelled logged_in.
Abbreviation Relay := (IntermediaryConnection ClientSide ServerSide State SC CC SH CH B P K).

(** C35: The forwarding driver over two byte streams: whatever the streams, the
    middleware and the callers do, the bytes after those of establishment on the
    client's stream and in its buffer are exactly the frames of responses of the
    connection's own ledger, in request order, and on the server's stream the
    frames of requests it forwarded: partial writes, waits and dropped calls
    neither lose, repeat nor reorder a byte. *)
Theorem relay_over_streams (pol : P) ops (r0 r : Relay) :
  pipeline r0 = Pipeline_new pol -> to_client r0 = [] -> to_server r0 = [] ->
  run_driver (E := E) ops r0 = Some r -> next_id (pipeline r) < U64_MAX ->
  exists answered requests, ledger_relayed (E := E) ops r0 answered requests r /\
    StronglySorted Z.le (omap fst answered) /\
    (let b := wired (proj1_sig (core_conn (downstream r))) in
     writtenD (stream b) ++ outbound b = greeted ++ concat (map wire_image (backend_frames answered.*2))) /\
    (let b := wired (proj1_sig (core_conn (upstream r))) in
     writtenU (stream b) ++ outbound b = logged_in ++ concat (map wire_image (frontend_frames requests))).
Proof.
  intros Hp Hd Hu Hr Hn. destruct (run_driver_relayed ops r0 r Hr) as (answered & requests & Hl).
  exists answered, requests. split; [exact Hl|]. split; [eapply ledger_relayed_sorted; eassumption|].
  destruct (ledger_relayed_frames _ _ _ _ _ Hl) as [Ec Es]. rewrite Hd in Ec. rewrite Hu in Es. cbn zeta.
  pose proof (stream_wire_bytes takenD writtenD polls cancelled greeted (core_conn (downstream r))) as Bc.
  pose proof (stream_wire_bytes takenU writtenU polls cancelled logged_in (core_conn (upstream r))) as Bs.
  split; [rewrite Bc, <- (app_nil_l (backend_frames _)), <- Ec|rewrite Bs, <- (app_nil_l (frontend_frames _)), <- Es]; done.
Qed.
End Relayed.

(** ** A concrete pair of streams *)

Section Example.
Import Model.

(** Reads cut inside frames, with waits; writes that take a few bytes. *)
Definition scripted {In} (before : bytes) (messages : bytes) : Wired (S := Script) (In := In) :=
  mkWired (Buffered_new (mkScript [Ready (take 3 messages); Pending; Ready (drop 3 messages)]
    [Ready 2%nat; Pending; Ready 4%nat] [] before)) [] [].

Lemma scripted_accounted {In} before messages : accounted write_log before (scripted (In := In) before messages).
Proof. split; [apply codec_default_valid|]. cbn. now rewrite !app_nil_r. Qed.

Abbreviation ClientScript := (StreamWire (S := Script) write_log (In := FrontendMessage) ["Z"%byte]).
Abbreviation ServerScript := (StreamWire (S := Script) write_log (In := BackendMessage) []).
#[local] Instance client_script : MessageWire ClientScript FrontendMessage := stream_wire read_log write_log 20 Nat.even _.
#[local] Instance server_script : MessageWire ServerScript BackendMessage := stream_wire read_log write_log 20 Nat.even _.

Definition stream_demo : IntermediaryConnection ClientScript ServerScript unit unit unit
    IdentityMiddleware IdentityMiddleware Chooser BoundedPipeline RejectCancellation :=
  mkRelay (mkCore (exist _ _ (scripted_accounted _ (concat (map wire_image (frontend_frames [query; F_Query []]))))) mkIdentityMiddleware tt)
    (mkCore (exist _ _ (scripted_accounted _ (concat (map wire_image (backend_frames replies))))) mkIdentityMiddleware tt)
    tt mkChooser (Pipeline_new (mkBounded 4)) (ConnectTarget_new []) None BackendHold_default (Some (mkLimits 4 1024)) []
    mkRejectCancellation None.
Definition stream_end := default stream_demo (run_driver (E := unit) demo_ops stream_demo).

Lemma stream_demo_runs : run_driver (E := unit) demo_ops stream_demo = Some stream_end.
Proof.
  unfold stream_end.
  assert (match run_driver (E := unit) demo_ops stream_demo with Some _ => true | None => false end = true) as Hr
    by (vm_compute; reflexivity).
  now destruct (run_driver demo_ops stream_demo).
Qed.

Definition to_script : Buffered Script := wired (proj1_sig (core_conn (downstream stream_end))).

Lemma relay_over_streams_witness :
  (exists answered, StronglySorted Z.le (omap fst answered) /\
     write_log (stream to_script) ++ outbound to_script = ["Z"%byte] ++ concat (map wire_image (backend_frames answered.*2))) /\
  write_log (stream to_script) =
    "Z"%byte :: concat (map wire_image (backend_frames (replies ++ [B_EmptyQueryResponse; B_ReadyForQuery Idle]))).
Proof.
  split; [|vm_compute; reflexivity].
  destruct (relay_over_streams (E := unit) read_log write_log read_log write_log 20 Nat.even ["Z"%byte] []
    (mkBounded 4) demo_ops stream_demo stream_end) as (answered & requests & _ & Hs & Hc & _);
    [reflexivity|reflexivity|reflexivity|exact stream_demo_runs|vm_compute; reflexivity|].
  exists answered. split; [exact Hs|exact Hc].
Defined.
End Example.
