(* ===== verification/Establish.v ===== *)
(** The effects of connection establishment, shared by the role components of
    src/client_component.rs and src/server_component.rs: fallible steps that
    also run middleware, may not have finished, and drop typed connections
    (the drop assertion of src/lib.rs). *)

From Stdlib Require Import ZArith Lia String.
From Stdlib Require Import Init.Byte.
From stdpp Require Import prelude.
From S2P Require Import Prelude OrdMap Wire Frame Frontend Startup PreStartup Backend Demux Transport.

Declare Scope establish_scope.
Delimit Scope establish_scope with est.

(** ** Steps

    [Env] is what the step may change besides its own values: the handler, the
    user state and the world the application's callbacks run in. [None] is a
    future that has not finished. *)
Section Steps.
Context {Env : Type}.

Definition M (E A : Type) : Type := Env -> option (result A E) * Env.
Definition ret {E A} (x : A) : M E A := fun env => (Some (Ok x), env).
Definition raise {E A} (e : E) : M E A := fun env => (Some (Err e), env).
Definition panic {E A} : M E A := fun env => (Some Panic, env).
Definition unfinished {E A} : M E A := fun env => (None, env).
Definition bind {E A B} (m : M E A) (k : A -> M E B) : M E B := fun env =>
  match m env with
  | (Some (Ok x), env) => k x env
  | (Some (Err e), env) => (Some (Err e), env)
  | (Some Panic, env) => (Some Panic, env)
  | (None, env) => (None, env)
  end.
Definition of_result {E A} (r : result A E) : M E A := fun env => (Some r, env).
(** [m.map_err(f)] *)
Definition wrap_error {E F A} (f : E -> F) (m : M E A) : M F A := fun env =>
  let (r, env) := m env in (map_err f <$> r, env).
(** The [Result] itself: [let r = m.await;] *)
Definition outcome {E F A} (m : M E A) : M F (result A E) := fun env =>
  match m env with
  | (Some Panic, env) => (Some Panic, env)
  | (Some r, env) => (Some (Ok r), env)
  | (None, env) => (None, env)
  end.
Definition modify {E} (f : Env -> Env) : M E unit := fun env => (Some (Ok tt), f env).
End Steps.
Arguments M Env E A : clear implicits.

Notation "'do' x <- m ; k" := (bind m (fun x => k))
  (at level 10, x pattern, m at level 100, k at level 200) : establish_scope.
Notation "m ;; k" := (bind m (fun _ => k)) (at level 100, k at level 200, right associativity) : establish_scope.
Local Open Scope establish_scope.

(** ** Dropping connections

    [Drop for Conn] exists under [cfg(debug_assertions)] only: a live connection
    that goes out of scope then panics. *)
Class BuildProfile : Type := debug_assertions : bool.

Section Drops.
Context `{BuildProfile} {Env E : Type}.

Definition drop_asserts {T} {Ph : Type} {P : Ph} {C} (c : Conn T P C) : bool :=
  match transport c with None => true | Some _ => negb debug_assertions end.

(** [return Err(e)] and [?] with [c] still in scope. *)
Definition raise_dropping {T A} {Ph : Type} {P : Ph} {C} (c : Conn T P C) (e : E) : M Env E A :=
  if drop_asserts c then raise e else panic.

(** [let _ = c.into_transport(); return Err(e)] *)
Definition abort {T A} {Ph : Type} {P : Ph} {C} (c : Conn T P C) (e : E) : M Env E A :=
  match into_transport c with
  | Ok _ => raise e
  | _ => panic
  end.

(** A transition that fails with [c] consumed, and dropped, by it. *)
Definition transition_or_drop {T A} {Ph : Type} {P : Ph} {C} (wrap : io_error -> E) (c : Conn T P C) (r : io A)
    : M Env E A :=
  match r with
  | Ok a => ret a
  | Err e => raise_dropping c (wrap e)
  | Panic => panic
  end.
End Drops.

(** ** Awaiting the transport *)

(** Futures of an establishment are polled to their end: no receive of it is
    dropped and repeated. *)
Definition never : nat -> bool := fun _ => false.

Section Awaits.
Context `{BuildProfile} {Env E S : Type} `{AsyncIo S} {Ph : Type} {P : Ph} {C : Cleanliness}.
Implicit Types (c : Conn (Buffered S) P C).

Definition push_frame (frame : Frame) : Conn (Buffered S) P C -> option (io unit) * Conn (Buffered S) P C :=
  on_transport (fun b => let (r, b) := push frame b in (Some r, b)).
Definition receive_backend_wire (fuel : nat) : Conn (Buffered S) P C -> option (io BackendMessage) * Conn (Buffered S) P C :=
  on_transport (receive_backend fuel never).
Definition receive_frontend_wire (fuel : nat) : Conn (Buffered S) P C -> option (io FrontendMessage) * Conn (Buffered S) P C :=
  on_transport (receive_wire fuel never).
Definition conn_receive (fuel : nat) : Conn (Buffered S) P C -> option (io SessionItem) * Conn (Buffered S) P C :=
  on_transport (receive_session fuel fuel never).

(** Run an operation of a connection; [leave] is what its caller does on an error. *)
Definition on_conn {A} (leave : Conn (Buffered S) P C -> E -> M Env E (A * Conn (Buffered S) P C)) (wrap : io_error -> E)
    (op : Conn (Buffered S) P C -> option (io A) * Conn (Buffered S) P C) c : M Env E (A * Conn (Buffered S) P C) :=
  match op c with
  | (Some (Ok a), c) => ret (a, c)
  | (Some (Err e), c) => leave c (wrap e)
  | (Some Panic, _) => panic
  | (None, _) => unfinished
  end.

(** [op.await.map_err(wrap)?] *)
Definition or_drop {A} (wrap : io_error -> E) (op : Conn (Buffered S) P C -> option (io A) * Conn (Buffered S) P C)
    : Conn (Buffered S) P C -> M Env E (A * Conn (Buffered S) P C) := on_conn raise_dropping wrap op.
(** [if let Err(e) = op.await { let _ = c.into_transport(); return Err(wrap(e)) }] *)
Definition or_abort {A} (wrap : io_error -> E) (op : Conn (Buffered S) P C -> option (io A) * Conn (Buffered S) P C)
    : Conn (Buffered S) P C -> M Env E (A * Conn (Buffered S) P C) := on_conn abort wrap op.

(** [push_frame(frame)?; flush().await?] on the same terms. *)
Definition send_or_drop (wrap : io_error -> E) (fuel : nat) (frame : Frame) c : M Env E (Conn (Buffered S) P C) :=
  do (_, c) <- or_drop wrap (push_frame frame) c;
  do (_, c) <- or_drop wrap (conn_flush fuel) c;
  ret c.
End Awaits.

(** ** A bare stream *)

Section BareStream.
Context {S : Type} `{AsyncIo S}.

(** tokio's [write_all]. *)
Fixpoint write_all (fuel : nat) (buf : bytes) (s : S) : option (io unit) * S :=
  match fuel, buf with
  | O, _ => (None, s)
  | _, [] => (Some (Ok tt), s)
  | Datatypes.S fuel, _ =>
      match poll_write buf s with
      | (Ready (Ok n), s) =>
          if n =? 0 then (Some (Err (mkError WriteZero "write zero")), s)
          else
            match advance (Z.to_nat n) buf with
            | Ok buf => write_all fuel buf s
            | _ => (Some Panic, s)
            end
      | (Ready (Err e), s) => (Some (Err e), s)
      | (Ready Panic, s) => (Some Panic, s)
      | (Pending, s) => write_all fuel buf s
      end
  end.

(** Awaiting one poll function. *)
Fixpoint await_poll {A} (poll : S -> Poll (io A) * S) (fuel : nat) (s : S) : option (io A) * S :=
  match fuel with
  | O => (None, s)
  | Datatypes.S fuel =>
      match poll s with
      | (Ready r, s) => (Some r, s)
      | (Pending, s) => await_poll poll fuel s
      end
  end.

Definition on_stream {Env E A} (wrap : io_error -> E) (r : option (io A) * S) : M Env E (A * S) :=
  match r with
  | (Some (Ok a), s) => ret (a, s)
  | (Some (Err e), _) => raise (wrap e)
  | (Some Panic, _) => panic
  | (None, _) => unfinished
  end.
End BareStream.
