(* ===== verification/EstablishProofs.v ===== *)
(** What the transport operations of an establishment preserve, and a program
    logic for its steps: a step returns a value with a property, fails, or, in
    builds with debug assertions only, panics. *)

From Stdlib Require Import ZArith Lia String.
From Stdlib Require Import Init.Byte.
From stdpp Require Import prelude.
From S2P Require Import Prelude OrdMap Wire Frame Frontend Startup PreStartup Backend Demux Transport Establish.

Local Open Scope Z_scope.
Local Open Scope list_scope.
Local Open Scope establish_scope.

(** ** Streams *)

(** Polls do not panic, and a write reports no more than it was offered. *)
Class StreamTotal (S : Type) `{AsyncIo S} : Prop := {
  read_total (s : S) : (poll_read s).1 <> Ready Panic;
  read_u8_total (s : S) : (poll_read_u8 s).1 <> Ready Panic;
  write_total offered (s : S) : (poll_write offered s).1 <> Ready Panic;
  write_bounded offered (s : S) n : (poll_write offered s).1 = Ready (Ok n) -> 0 <= n <= len offered;
  flush_total (s : S) : (poll_flush s).1 <> Ready Panic
}.

(** A property of streams that I/O preserves. *)
Class StreamStable {S : Type} `{AsyncIo S} (I : S -> Prop) : Prop := {
  read_stable s : I s -> I (poll_read s).2;
  read_u8_stable s : I s -> I (poll_read_u8 s).2;
  write_stable offered s : I s -> I (poll_write offered s).2;
  flush_stable s : I s -> I (poll_flush s).2
}.

#[export] Instance stable_true {S} `{AsyncIo S} : StreamStable (fun _ : S => True).
Proof. now split. Qed.

#[export] Instance Script_total : StreamTotal Script.
Proof.
  split; intros.
  - now destruct s as [[|[c|] rs] ws rl wl].
  - now destruct s as [[|[[|x c]|] rs] ws rl wl].
  - now destruct s as [rs [|[k|] ws] rl wl].
  - destruct s as [rs [|[k|] ws] rl wl]; cbn in *; simplify_eq; unfold len; rewrite ?length_take; lia.
  - done.
Qed.

(** ** Decoding *)

Lemma decode_frame_no_panic source max : (decode_frame source max).1 <> Panic.
Proof.
  unfold decode_frame. destruct (Z.ltb_spec (len source) 5) as [|H5]; [done|].
  generalize (be_value (take 4 (drop 1 source))). intros n.
  destruct (Z.ltb_spec n 4) as [|Hl]; [done|]. unfold checked_add. destruct (_ <=? USIZE_MAX); [|done].
  destruct (_ >? _); [done|]. destruct (_ >? _); [done|]. destruct (Z.ltb_spec (len source) (n + 1)) as [|Hs]; [done|].
  destruct source as [|t source]; [done|]. set (src := t :: source) in *. clearbody src. unfold split_to, len in *.
  rewrite (proj2 (Nat.ltb_ge _ _)) by lia. cbn. unfold advance. rewrite (proj2 (Nat.ltb_ge _ _)); [done|].
  rewrite length_take. lia.
Qed.

(** Decoders of the two directions. *)
Class DecodeTotal (Message : Type) `{Direction Message} : Prop := decode_total f : decode (Message := Message) f <> Panic.
#[export] Instance backend_total : DecodeTotal BackendMessage := Backend_decode_no_panic.
#[export] Instance frontend_total : DecodeTotal FrontendMessage := Frontend_decode_no_panic.

Lemma PgCodec_decode_no_panic {Message} `{DecodeTotal Message} codec source :
  (PgCodec_decode (Message := Message) codec source).1 <> Panic.
Proof.
  unfold PgCodec_decode. pose proof (decode_frame_no_panic source (max_frame_len codec)) as Hf.
  destruct (decode_frame source (max_frame_len codec)) as [[[f|]|e|] rest]; try done. cbn.
  pose proof (decode_total f). now destruct (decode f).
Qed.

(** ** Encoding *)

Lemma put_all_no_panic {A} (put_item : A -> bytes -> io bytes) items : (forall a b, put_item a b <> Panic) ->
  forall body, put_all put_item items body <> Panic.
Proof.
  intros Hp. induction items as [|a items IH]; intros body; cbn; [done|]. specialize (Hp a body).
  now destruct (put_item a body).
Qed.
Lemma put_counted_no_panic {A} (put_item : A -> bytes -> io bytes) items body : (forall a b, put_item a b <> Panic) ->
  put_counted put_item items body <> Panic.
Proof.
  intros Hp. unfold put_counted, put_count. destruct (_ <=? _); [|done]. now apply put_all_no_panic.
Qed.
Lemma put_cstr_no_panic v b : put_cstr v b <> Panic.
Proof. unfold put_cstr. now case_decide. Qed.
Lemma let_no_panic {A B E} (r : result A E) (k : A -> result B E) : r <> Panic -> (forall a, k a <> Panic) ->
  (let? a := r in k a) <> Panic.
Proof. destruct r; auto. Qed.

Lemma BackendMessage_to_frame_no_panic m : BackendMessage_to_frame m <> Panic.
Proof.
  assert (forall t d, diagnostic_frame t d <> Panic) as Hd.
  { intros t d. apply let_no_panic; [|done]. apply put_all_no_panic. intros f b. unfold put_diagnostic_field.
    case_decide; [done|]. apply put_cstr_no_panic. }
  assert (forall t r, copy_response_frame t r <> Panic) as Hc.
  { intros t r. apply let_no_panic; [|done]. now apply put_counted_no_panic. }
  destruct m; cbn [BackendMessage_to_frame]; try done; try apply Hd; try apply Hc.
  - apply let_no_panic; [|done]. apply put_counted_no_panic. intros f b. unfold put_field.
    now apply let_no_panic; [apply put_cstr_no_panic|].
  - apply let_no_panic; [|done]. destruct m; cbn; try done. apply let_no_panic; [|done].
    apply put_all_no_panic, put_cstr_no_panic.
  - now apply let_no_panic; [apply put_cstr_no_panic|].
  - apply let_no_panic; [|done]. apply put_counted_no_panic. intros [v|] b; cbn; [now destruct (_ <=? _)|done].
  - apply let_no_panic; [apply put_cstr_no_panic|]. intros ?. now apply let_no_panic; [apply put_cstr_no_panic|].
  - apply let_no_panic; [apply put_cstr_no_panic|]. intros ?. now apply let_no_panic; [apply put_cstr_no_panic|].
  - now destruct (negb _).
  - apply let_no_panic; [|done]. now apply put_counted_no_panic.
  - apply let_no_panic; [now destruct (_ <=? _)|]. intros n. apply let_no_panic; [|done].
    apply put_all_no_panic, put_cstr_no_panic.
Qed.

(** ** Transport operations *)

(** [b'] is [b] after reads and writes of its stream. *)
Section Operations.
Context {S : Type} `{AsyncIo S} (I : S -> Prop) `{!StreamStable I} `{!StreamTotal S}.
Implicit Type b : Buffered S.

Definition moved b b' : Prop := (I (stream b) -> I (stream b')) /\ demux b' = demux b.

Lemma moved_refl b : moved b b.
Proof. done. Qed.
Lemma moved_trans b1 b2 b3 : moved b1 b2 -> moved b2 b3 -> moved b1 b3.
Proof. intros [] []. split; [auto|congruence]. Qed.

Lemma push_moves frame b : moved b (push frame b).2 /\ (push frame b).1 <> Panic.
Proof.
  unfold push, PgCodec_encode. destruct (checked_add _ 5); [|done]. destruct (_ >? _); [done|].
  destruct (checked_add _ 4); [|done]. now destruct (_ <=? _).
Qed.

Lemma flush_moves fuel : forall b, moved b (flush fuel b).2 /\ (flush fuel b).1 <> Some Panic.
Proof using All.
  assert (Hgo : forall b b1 r, moved b b1 -> moved b1 r.2 /\ r.1 <> Some Panic -> moved b (r : option (io unit) * _).2 /\ r.1 <> Some Panic).
  { intros b b1 r H1 [H2 ?]. split; [now apply (moved_trans _ b1)|done]. }
  induction fuel as [|fuel IH]; intros b; cbn [flush]; [done|].
  destruct (outbound b) as [|x o] eqn:Eo; [|rewrite <- Eo; clear x o Eo].
  - pose proof (flush_stable (stream b)) as Hs. pose proof (flush_total (stream b)) as Ht.
    destruct (poll_flush (stream b)) as [[r|] s]; cbn in *; [split; [done|congruence]|].
    now apply (Hgo _ (set_stream s b)).
  - pose proof (write_stable (outbound b) (stream b)) as Hs. pose proof (write_total (outbound b) (stream b)) as Ht.
    pose proof (write_bounded (outbound b) (stream b)) as Hb.
    destruct (poll_write (outbound b) (stream b)) as [[[n|e|]|] s]; cbn in *; try done.
    + destruct (n =? 0); [done|]. unfold advance. rewrite (proj2 (Nat.ltb_ge _ _)).
      * now apply (Hgo _ (set_outbound (drop (Z.to_nat n) (outbound b)) (set_stream s b))).
      * destruct (Hb n eq_refl). unfold len in *. lia.
    + now apply (Hgo _ (set_stream s b)).
Qed.

Lemma receive_loop_moves {Msg} (dec : bytes -> io (option Msg) * bytes) eof cancelled fuel :
  (forall i, (dec i).1 <> Panic) ->
  forall pt b, moved b (receive_loop dec eof fuel cancelled pt b).2 /\
    (receive_loop dec eof fuel cancelled pt b).1 <> Some Panic.
Proof using All.
  intros Hdec.
  assert (Hgo : forall b b1 r, moved b b1 -> moved b1 r.2 /\ r.1 <> Some Panic -> moved b (r : option (io Msg) * _).2 /\ r.1 <> Some Panic).
  { intros b b1 r H1 [H2 ?]. split; [now apply (moved_trans _ b1)|done]. }
  induction fuel as [|fuel IH]; intros pt b; cbn [receive_loop]; [done|]. destruct pt.
  - specialize (Hdec (inbound b)). destruct (dec (inbound b)) as [[[m|]|e|] rest]; cbn in *; try done.
    now apply (Hgo _ (set_inbound rest b)).
  - pose proof (read_stable (stream b)) as Hs. pose proof (read_total (stream b)) as Ht.
    destruct (poll_read (stream b)) as [[[[|x c]|e|]|] s]; cbn in *; try done.
    + now apply (Hgo _ (set_inbound (inbound b ++ x :: c) (set_stream s b))).
    + now apply (Hgo _ (set_stream s b)).
Qed.

Lemma receive_wire_moves {Msg} `{DecodeTotal Msg} fuel cancelled b :
  moved b (receive_wire (M := Msg) fuel cancelled b).2 /\ (receive_wire (M := Msg) fuel cancelled b).1 <> Some Panic.
Proof using All. apply receive_loop_moves. intros i. apply PgCodec_decode_no_panic. Qed.

Lemma receive_pre_startup_moves fuel cancelled b :
  moved b (receive_pre_startup fuel cancelled b).2 /\ (receive_pre_startup fuel cancelled b).1 <> Some Panic.
Proof using All.
  apply receive_loop_moves. intros i. pose proof (decode_pre_startup_cases i (max_pre_startup_packet_len b)) as Hc.
  destruct (decode_pre_startup_with_limit i _) as [r rest]. destruct Hc as [(_ & Hp & _)|(p & _ & Hf & _ & ->)]; [done|].
  now apply decode_packet_no_panic.
Qed.

(** What the session stream adds: the key data and the baseline a received item
    leaves in the demultiplexer. *)
Definition key_after (item : SessionItem) (key : option CancelKey) : option CancelKey :=
  match into_backend_message item with
  | B_BackendKeyData process_id secret_key => Some (mkCancelKey process_id secret_key)
  | _ => key
  end.

Lemma route_key m d : match (route m d).1 with
  | Some item => into_backend_message item = m /\ cancel_key (route m d).2 = key_after item (cancel_key d)
  | None => cancel_key (route m d).2 = cancel_key d
  end.
Proof.
  destruct m; try done. cbn. unfold route_parameter_status. cbn. now destruct (startup_parameters d).
Qed.

Lemma route_baseline m d status changed : (route m d).1 = Some (Item_ReadyForQuery status changed) ->
  transaction_status (route m d).2 = Some status /\ is_Some (startup_parameters (route m d).2) /\
  changed = parameters_changed (route m d).2.
Proof. destruct m; try done. cbn. intros [= <- <-]. destruct (startup_parameters d); eauto. Qed.

Lemma receive_session_moves fuel cancelled receives : forall b,
  let '(r, b') := receive_session receives fuel cancelled b in
  (I (stream b) -> I (stream b')) /\ r <> Some Panic /\
  match r with
  | Some (Ok item) =>
      cancel_key (demux b') = key_after item (cancel_key (demux b)) /\
      (forall status changed, item = Item_ReadyForQuery status changed ->
         transaction_status (demux b') = Some status /\ is_Some (startup_parameters (demux b')))
  | _ => True
  end.
Proof using All.
  induction receives as [|receives IH]; intros b; cbn [receive_session]; [done|]. unfold receive_backend.
  pose proof (receive_wire_moves (Msg := BackendMessage) fuel cancelled b) as [[Hs Hd] Hp].
  destruct (receive_wire fuel cancelled b) as [[[m|e|]|] b1]; cbn in *; try done.
  unfold project_backend. rewrite Hd. pose proof (route_key m (demux b)) as Hk.
  pose proof (route_baseline m (demux b)) as Hb. destruct (route m (demux b)) as [[item|] d]; cbn in *.
  - split; [done|]. split; [done|]. destruct Hk as [_ ->]. split; [done|]. intros status changed ->.
    now destruct (Hb status changed eq_refl) as (? & ? & _).
  - specialize (IH (set_demux d b1)). cbn in IH. rewrite Hk in IH.
    destruct (receive_session receives fuel cancelled (set_demux d b1)) as [r b2].
    destruct IH as (Hs' & Hp' & Hr). split; [auto|]. done.
Qed.
End Operations.

Section Bare.
Context {S : Type} `{AsyncIo S} (I : S -> Prop) `{!StreamStable I} `{!StreamTotal S}.

Lemma write_all_moves fuel : forall buf s, I s -> I (write_all fuel buf s).2 /\ (write_all fuel buf s).1 <> Some Panic.
Proof using All.
  induction fuel as [|fuel IH]; intros buf s HI; [done|]. destruct buf as [|x buf]; [done|]. cbn [write_all].
  set (buf' := x :: buf). clearbody buf'. clear x buf.
  pose proof (write_stable buf' s HI) as Hs. pose proof (write_total buf' s) as Ht. pose proof (write_bounded buf' s) as Hb.
  destruct (poll_write buf' s) as [[[n|e|]|] s1]; cbn in *; try done; [|now apply IH].
  destruct (n =? 0); [done|]. unfold advance. rewrite (proj2 (Nat.ltb_ge _ _)); [now apply IH|].
  destruct (Hb n eq_refl). unfold len in *. lia.
Qed.

Lemma await_poll_moves {A} (poll : S -> Poll (io A) * S) :
  (forall s, I s -> I (poll s).2) -> (forall s, (poll s).1 <> Ready Panic) ->
  forall fuel s, I s -> I (await_poll poll fuel s).2 /\ (await_poll poll fuel s).1 <> Some Panic.
Proof.
  intros Hs Ht. induction fuel as [|fuel IH]; intros s HI; [done|]. cbn [await_poll].
  specialize (Hs s HI). specialize (Ht s). destruct (poll s) as [[r|] s1]; cbn in *; [split; [done|congruence]|].
  now apply IH.
Qed.
End Bare.

(** ** A logic of steps *)

Section Logic.
Context `{Profile : BuildProfile} {Env : Type}.

(** A finished step returns a value with [Φ], fails, or, with debug assertions
    only, panics. *)
Definition safe {E A} (m : M Env E A) (Φ : A -> Prop) : Prop :=
  forall env, match (m env).1 with
              | Some (Ok a) => Φ a
              | Some Panic => debug_assertions = true
              | _ => True
              end.

Lemma safe_ret {E A} (a : A) (Φ : A -> Prop) : Φ a -> safe (E := E) (ret a) Φ.
Proof. intros ? ?. done. Qed.
Lemma safe_raise {E A} (e : E) (Φ : A -> Prop) : safe (raise e) Φ.
Proof. intros ?. done. Qed.
Lemma safe_unfinished {E A} (Φ : A -> Prop) : safe (E := E) unfinished Φ.
Proof. intros ?. done. Qed.
Lemma safe_weaken {E A} (m : M Env E A) (Φ Ψ : A -> Prop) : safe m Φ -> (forall a, Φ a -> Ψ a) -> safe m Ψ.
Proof. intros Hm HΦ env. specialize (Hm env). destruct (m env).1 as [[]|]; auto. Qed.
Lemma safe_bind {E A B} (m : M Env E A) (k : A -> M Env E B) (Φ : A -> Prop) (Ψ : B -> Prop) :
  safe m Φ -> (forall a, Φ a -> safe (k a) Ψ) -> safe (bind m k) Ψ.
Proof.
  intros Hm Hk env. specialize (Hm env). unfold bind. destruct (m env) as [[[a|e|]|] env']; cbn in *; try done.
  now apply Hk.
Qed.
Lemma safe_wrap {E F A} (f : E -> F) (m : M Env E A) (Φ : A -> Prop) : safe m Φ -> safe (wrap_error f m) Φ.
Proof.
  intros Hm env. specialize (Hm env). unfold wrap_error. now destruct (m env) as [[[a|e|]|] env'].
Qed.
Lemma safe_outcome {E F A} (m : M Env E A) (Φ : A -> Prop) : safe m Φ ->
  safe (E := F) (outcome m) (fun r => match r with Ok a => Φ a | Err _ => True | Panic => False end).
Proof.
  intros Hm env. specialize (Hm env). unfold outcome. now destruct (m env) as [[[a|e|]|] env'].
Qed.
Lemma safe_result {E A} (r : result A E) (Φ : A -> Prop) :
  r <> Panic -> (forall a, r = Ok a -> Φ a) -> safe (of_result r) Φ.
Proof. intros Hp Hr env. cbn. destruct r; auto. Qed.

(** ** Connections *)

(** A live connection whose stream has [I] and whose demultiplexer has [D]. *)
Definition holds {S} {Ph : Type} {P : Ph} {C} (I : S -> Prop) (D : Demux -> Prop) (c : Conn (Buffered S) P C) : Prop :=
  exists b, transport c = Some b /\ I (stream b) /\ D (demux b).

Lemma holds_transition {S} {Ph Ph' : Type} {P : Ph} {P' : Ph'} {C C'} (I : S -> Prop) D (c : Conn (Buffered S) P C) :
  holds I D c -> holds I D (transition (P' := P') (C' := C') c).
Proof. done. Qed.
Lemma holds_weaken {S} {Ph : Type} {P : Ph} {C} (I : S -> Prop) (D D' : Demux -> Prop) (c : Conn (Buffered S) P C) :
  holds I D c -> (forall d, D d -> D' d) -> holds I D' c.
Proof. intros (b & ? & ? & ?) HD. exists b. auto. Qed.

Lemma safe_abort {S} {Ph : Type} {P : Ph} {C E A} (I : S -> Prop) D (c : Conn (Buffered S) P C) (e : E) (Φ : A -> Prop) :
  holds I D c -> safe (abort c e) Φ.
Proof. intros (b & Hb & _) env. unfold abort, into_transport. now rewrite Hb. Qed.
Lemma safe_dropping {T} {Ph : Type} {P : Ph} {C E A} (c : Conn T P C) (e : E) (Φ : A -> Prop) : safe (raise_dropping c e) Φ.
Proof.
  intros env. unfold raise_dropping, drop_asserts. destruct (transport c); [|done].
  now destruct debug_assertions.
Qed.
Lemma safe_transition {T} {Ph : Type} {P : Ph} {C E A} (wrap : io_error -> E) (c : Conn T P C) (r : io A) (Φ : A -> Prop) :
  r <> Panic -> (forall a, r = Ok a -> Φ a) -> safe (transition_or_drop wrap c r) Φ.
Proof. intros Hp Hr. destruct r; [apply safe_ret; auto|apply safe_dropping|done]. Qed.

Section Awaited.
Context {S : Type} `{AsyncIo S} (I : S -> Prop) `{!StreamStable I} `{!StreamTotal S} {Ph : Type} {P : Ph} {C : Cleanliness}.
Implicit Types (c : Conn (Buffered S) P C).

(** Operations that keep the demultiplexer. *)
Definition keeps {A} (op : Conn (Buffered S) P C -> option (io A) * Conn (Buffered S) P C) : Prop :=
  forall D c, holds I D c -> holds I D (op c).2 /\ (op c).1 <> Some Panic.

Lemma keeps_transport {A} (op : Buffered S -> option (io A) * Buffered S) :
  (forall b, moved I b (op b).2 /\ (op b).1 <> Some Panic) -> keeps (on_transport op).
Proof.
  intros Hop D c (b & Hb & HI & HD). unfold on_transport. rewrite Hb. destruct (Hop b) as [[Hs Hd] Hp].
  destruct (op b) as [r b']; cbn in *. split; [|done]. exists b'. rewrite Hd. auto.
Qed.
Lemma keeps_push frame : keeps (push_frame frame).
Proof using StreamStable0 StreamTotal0.
  apply keeps_transport. intros b. destruct (push_moves I frame b) as [Hm Hp]. destruct (push frame b); cbn in *.
  split; [done|congruence].
Qed.
Lemma keeps_flush fuel : keeps (conn_flush fuel).
Proof using StreamStable0 StreamTotal0. apply keeps_transport, (flush_moves I). Qed.
Lemma keeps_backend fuel : keeps (receive_backend_wire fuel).
Proof using StreamStable0 StreamTotal0. apply keeps_transport. intros b. apply (receive_wire_moves I). Qed.
Lemma keeps_frontend fuel : keeps (receive_frontend_wire fuel).
Proof using StreamStable0 StreamTotal0. apply keeps_transport. intros b. apply (receive_wire_moves I). Qed.

Lemma safe_on_conn {A E} leave wrap (op : Conn (Buffered S) P C -> option (io A) * Conn (Buffered S) P C) D c :
  (forall c e Φ, holds I D c -> safe (leave c e) Φ) ->
  keeps op -> holds I D c -> safe (E := E) (on_conn leave wrap op c) (fun '(_, c) => holds I D c).
Proof.
  intros Hl Hop Hc. destruct (Hop D c Hc) as [Hc' Hp]. unfold on_conn.
  destruct (op c) as [[[a|e|]|] c']; cbn in *; [now apply safe_ret|now apply Hl|done|apply safe_unfinished].
Qed.
Lemma safe_or_abort {A E} wrap (op : Conn (Buffered S) P C -> option (io A) * Conn (Buffered S) P C) D c :
  keeps op -> holds I D c -> safe (E := E) (or_abort wrap op c) (fun '(_, c) => holds I D c).
Proof. apply safe_on_conn. intros; now apply (safe_abort I D). Qed.
Lemma safe_or_drop {A E} wrap (op : Conn (Buffered S) P C -> option (io A) * Conn (Buffered S) P C) D c :
  keeps op -> holds I D c -> safe (E := E) (or_drop wrap op c) (fun '(_, c) => holds I D c).
Proof. apply safe_on_conn. intros; apply safe_dropping. Qed.
Lemma safe_send {E} wrap fuel frame D c : holds I D c -> safe (E := E) (send_or_drop wrap fuel frame c) (holds I D).
Proof using StreamStable0 StreamTotal0.
  intros Hc. unfold send_or_drop. apply (safe_bind _ _ (fun '(_, c) => holds I D c)).
  { apply safe_or_drop; [apply keeps_push|done]. }
  intros [[] c1] Hc1. apply (safe_bind _ _ (fun '(_, c) => holds I D c)).
  { apply safe_or_drop; [apply keeps_flush|done]. }
  intros [[] c2] Hc2. now apply safe_ret.
Qed.

(** A received session item and the demultiplexer it leaves. *)
Lemma safe_receive {E} wrap fuel k c : holds I (fun d => cancel_key d = k) c ->
  safe (E := E) (or_abort wrap (conn_receive fuel) c) (fun '(item, c) =>
    holds I (fun d => cancel_key d = key_after item k /\
      forall status changed, item = Item_ReadyForQuery status changed ->
        transaction_status d = Some status /\ is_Some (startup_parameters d)) c).
Proof using StreamStable0 StreamTotal0.
  intros (b & Hb & HI & HD). unfold or_abort, on_conn, conn_receive, on_transport. rewrite Hb.
  pose proof (receive_session_moves I fuel never fuel b) as Hm.
  destruct (receive_session fuel fuel never b) as [r b']. destruct Hm as (Hs & Hp & Hr).
  destruct r as [[item|e|]|]; [|now apply (safe_abort I (fun _ => True)); exists b'; auto|done|apply safe_unfinished].
  apply safe_ret. exists b'. rewrite <- HD. auto.
Qed.

Lemma safe_stream {A E} wrap (r : option (io A) * S) : I r.2 -> r.1 <> Some Panic ->
  safe (E := E) (on_stream wrap r) (fun '(_, s) => I s).
Proof.
  destruct r as [[[a|e|]|] s]; cbn; intros HI Hp; [now apply safe_ret|apply safe_raise|done|apply safe_unfinished].
Qed.
End Awaited.
End Logic.
