(* ===== verification/ResourceSession.v ===== *)
(** The resource-aware connection of src/resources.rs: a typed connection paired
    with its statement and portal namespace through the extended-query phases,
    and the name table that its wire traffic alone determines. *)

From Stdlib Require Import ZArith Lia String.
From Stdlib Require Import Init.Byte.
From stdpp Require Import prelude gmap.
From S2P Require Import Prelude OrdMap Wire Frame Frontend Startup Backend Demux Fsm Grammar Resources PreStartup Session Establish.

Local Open Scope string_scope.
Local Open Scope Z_scope.
Local Open Scope list_scope.

(** ** Connections and their transitions *)

Section Types.
Context (S : Type).

Record ResourceConnection (P : SP.t) (C : Cleanliness) : Type :=
  mkResource { rc_conn : Conn S P C; rc_resources : ResourceScope }.

Inductive ResourceReadyState (C : Cleanliness) : Type :=
| RR_Clean (conn : ResourceConnection SP.Ready C)
| RR_Dirty (conn : ResourceConnection SP.Ready Dirty) (status : TransactionStatus) (parameters_changed : bool).

Inductive ResourceAwaitingTransition (C : Cleanliness) : Type :=
| RA_Continue (conn : ResourceConnection SP.AwaitingReady C) (item : SessionItem)
| RA_Ready (ready : ResourceReadyState C)
| RA_Error (conn : ResourceConnection SP.Draining C) (error : ErrorResponse).

Inductive ResourceDrainingTransition (C : Cleanliness) : Type :=
| RD_Continue (conn : ResourceConnection SP.Draining C) (item : SessionItem)
| RD_Ready (ready : ResourceReadyState C).
End Types.
Arguments mkResource {S P C}. Arguments rc_conn {S P C}. Arguments rc_resources {S P C}.
Arguments RR_Clean {S C}. Arguments RR_Dirty {S C}.
Arguments RA_Continue {S C}. Arguments RA_Ready {S C}. Arguments RA_Error {S C}.
Arguments RD_Continue {S C}. Arguments RD_Ready {S C}.

(** ** Operations *)

Section Scoped.
Context {S : Type} {P : SP.t} {C : Cleanliness}.

Definition with_connection_resources {R} (conn : Conn S P C) (operation : ResourceConnection S P C -> R) : R :=
  operation (mkResource conn scope_new).

(** [None] is a future that has not finished. *)
Definition with_connection_resources_async {R} (conn : Conn S P C)
    (operation : ResourceConnection S P C -> option R) : option R :=
  operation (mkResource conn scope_new).

Definition connection (rc : ResourceConnection S P C) : Conn S P C := rc_conn rc.
(** What a caller does through the borrowed connection. *)
Definition connection_mut {A} (f : Conn S P C -> A * Conn S P C) (rc : ResourceConnection S P C)
    : A * ResourceConnection S P C :=
  let (a, conn) := f (rc_conn rc) in (a, mkResource conn (rc_resources rc)).
Definition into_connection (rc : ResourceConnection S P C) : Conn S P C := rc_conn rc.
End Scoped.

Section Operations.
Context `{BuildProfile} {S : Type}.

(** [r?] while [c] is in scope: an error drops the connection on its way out. *)
Definition or_drop {E A} {P : SP.t} {C} (c : Conn S P C) (wrap : E -> ResourceProtocolError) (r : result A E)
    : result A ResourceProtocolError :=
  match r with
  | Ok a => Ok a
  | Err e => if drop_asserts c then Err (wrap e) else Panic
  | Panic => Panic
  end.

Section Building.
Context {C : Cleanliness}.

Definition building_prepare (rc : ResourceConnection S SP.Building C) (client_name upstream_name query : bytes)
    (parameter_types : list Z)
    : result (ResourceConnection S SP.Building Dirty * PreparedStatement * Frame) ResourceProtocolError :=
  let conn := rc_conn rc in
  let (r, resources) := prepare client_name upstream_name query parameter_types (rc_resources rc) in
  let? (statement, message) := or_drop conn Resource r in
  let? (conn, frame) := or_drop conn WireError (push_parse conn message) in
  Ok (mkResource conn resources, statement, frame).

Definition building_bind (rc : ResourceConnection S SP.Building C) (statement : PreparedStatement)
    (client_name upstream_name : bytes) (parameter_formats : list Z) (parameters : list (option bytes))
    (result_formats : list Z)
    : result (ResourceConnection S SP.BoundBuilding Dirty * Resources.Portal * Frame) ResourceProtocolError :=
  let conn := rc_conn rc in
  let (r, resources) := Resources.bind statement client_name upstream_name parameter_formats parameters
                          result_formats (rc_resources rc) in
  let? (portal, message) := or_drop conn Resource r in
  let? (conn, frame) := or_drop conn WireError (push_bind conn message) in
  Ok (mkResource conn resources, portal, frame).

Definition building_describe_statement (rc : ResourceConnection S SP.Building C) (statement : PreparedStatement)
    : result (ResourceConnection S SP.Building C * Frame) ResourceProtocolError :=
  let conn := rc_conn rc in
  let? message := or_drop conn Resource (describe_statement statement (rc_resources rc)) in
  let? (conn, frame) := or_drop conn WireError (push_describe conn message) in
  Ok (mkResource conn (rc_resources rc), frame).

Definition building_close_statement (rc : ResourceConnection S SP.Building C) (statement : PreparedStatement)
    : result (ResourceConnection S SP.Building C * Frame) ResourceProtocolError :=
  let conn := rc_conn rc in
  let (r, resources) := close_statement statement (rc_resources rc) in
  let? message := or_drop conn Resource r in
  let? (conn, frame) := or_drop conn WireError (push_close conn message) in
  Ok (mkResource conn resources, frame).

Definition building_close_portal (rc : ResourceConnection S SP.Building C) (portal : Resources.Portal)
    : result (ResourceConnection S SP.Building C * Frame) ResourceProtocolError :=
  let conn := rc_conn rc in
  let (r, resources) := close_portal portal (rc_resources rc) in
  let? message := or_drop conn Resource r in
  let? (conn, frame) := or_drop conn WireError (push_close conn message) in
  Ok (mkResource conn resources, frame).

Definition building_flush (rc : ResourceConnection S SP.Building C) : ResourceConnection S SP.Building C * Frame :=
  let (conn, frame) := push_flush (rc_conn rc) in (mkResource conn (rc_resources rc), frame).

Definition building_sync (rc : ResourceConnection S SP.Building C)
    : ResourceConnection S SP.AwaitingReady C * Frame :=
  let (conn, frame) := push_sync (rc_conn rc) in (mkResource conn (rc_resources rc), frame).

(** [Ready] *)

Definition resource_begin_extended (rc : ResourceConnection S SP.Ready C) : ResourceConnection S SP.Building C :=
  mkResource (begin_extended (rc_conn rc)) (rc_resources rc).

Definition resource_query (rc : ResourceConnection S SP.Ready C) (query : bytes)
    : result (ResourceConnection S SP.SimpleQuery Dirty * Frame) ResourceProtocolError :=
  let conn := rc_conn rc in
  let resources := simple_query_boundary (rc_resources rc) in
  let? (conn, frame) := or_drop conn WireError (push_query conn query) in
  Ok (mkResource conn resources, frame).

(** [BoundBuilding] *)

Definition bound_prepare (rc : ResourceConnection S SP.BoundBuilding C) (client_name upstream_name query : bytes)
    (parameter_types : list Z)
    : result (ResourceConnection S SP.BoundBuilding Dirty * PreparedStatement * Frame) ResourceProtocolError :=
  let conn := rc_conn rc in
  let (r, resources) := prepare client_name upstream_name query parameter_types (rc_resources rc) in
  let? (statement, message) := or_drop conn Resource r in
  let? (conn, frame) := or_drop conn WireError (bound_push_parse conn message) in
  Ok (mkResource conn resources, statement, frame).

Definition bound_bind (rc : ResourceConnection S SP.BoundBuilding C) (statement : PreparedStatement)
    (client_name upstream_name : bytes) (parameter_formats : list Z) (parameters : list (option bytes))
    (result_formats : list Z)
    : result (ResourceConnection S SP.BoundBuilding Dirty * Resources.Portal * Frame) ResourceProtocolError :=
  let conn := rc_conn rc in
  let (r, resources) := Resources.bind statement client_name upstream_name parameter_formats parameters
                          result_formats (rc_resources rc) in
  let? (portal, message) := or_drop conn Resource r in
  let? (conn, frame) := or_drop conn WireError (bound_push_bind conn message) in
  Ok (mkResource conn resources, portal, frame).

Definition bound_describe_statement (rc : ResourceConnection S SP.BoundBuilding C) (statement : PreparedStatement)
    : result (ResourceConnection S SP.BoundBuilding C * Frame) ResourceProtocolError :=
  let conn := rc_conn rc in
  let? message := or_drop conn Resource (describe_statement statement (rc_resources rc)) in
  let? (conn, frame) := or_drop conn WireError (bound_push_describe conn message) in
  Ok (mkResource conn (rc_resources rc), frame).

Definition bound_describe_portal (rc : ResourceConnection S SP.BoundBuilding C) (portal : Resources.Portal)
    : result (ResourceConnection S SP.BoundBuilding C * Frame) ResourceProtocolError :=
  let conn := rc_conn rc in
  let? message := or_drop conn Resource (describe_portal portal (rc_resources rc)) in
  let? (conn, frame) := or_drop conn WireError (bound_push_describe conn message) in
  Ok (mkResource conn (rc_resources rc), frame).

Definition bound_execute (rc : ResourceConnection S SP.BoundBuilding C) (portal : Resources.Portal) (max_rows : Z)
    : result (ResourceConnection S SP.BoundBuilding C * Frame) ResourceProtocolError :=
  let conn := rc_conn rc in
  let? message := or_drop conn Resource (execute portal max_rows (rc_resources rc)) in
  let? (conn, frame) := or_drop conn WireError (push_execute conn message) in
  Ok (mkResource conn (rc_resources rc), frame).

Definition bound_close_statement (rc : ResourceConnection S SP.BoundBuilding C) (statement : PreparedStatement)
    : result (ResourceConnection S SP.BoundBuilding C * Frame) ResourceProtocolError :=
  let conn := rc_conn rc in
  let (r, resources) := close_statement statement (rc_resources rc) in
  let? message := or_drop conn Resource r in
  let? (conn, frame) := or_drop conn WireError (bound_push_close conn message) in
  Ok (mkResource conn resources, frame).

Definition bound_close_portal (rc : ResourceConnection S SP.BoundBuilding C) (portal : Resources.Portal)
    : result (ResourceConnection S SP.BoundBuilding C * Frame) ResourceProtocolError :=
  let conn := rc_conn rc in
  let (r, resources) := close_portal portal (rc_resources rc) in
  let? message := or_drop conn Resource r in
  let? (conn, frame) := or_drop conn WireError (bound_push_close conn message) in
  Ok (mkResource conn resources, frame).

Definition bound_flush (rc : ResourceConnection S SP.BoundBuilding C)
    : ResourceConnection S SP.BoundBuilding C * Frame :=
  let (conn, frame) := bound_push_flush (rc_conn rc) in (mkResource conn (rc_resources rc), frame).

Definition bound_sync (rc : ResourceConnection S SP.BoundBuilding C)
    : ResourceConnection S SP.AwaitingReady C * Frame :=
  let (conn, frame) := bound_push_sync (rc_conn rc) in (mkResource conn (rc_resources rc), frame).

(** [AwaitingReady] and [Draining] *)

Definition resource_ready (resources : ResourceScope) (ready : ReadyState S C) : ResourceReadyState S C :=
  match ready with
  | RS_Clean conn => RR_Clean (mkResource conn (transaction_ended resources))
  | RS_Dirty conn status parameters_changed =>
      let resources := if decide (status = Idle) then transaction_ended resources else resources in
      RR_Dirty (mkResource conn resources) status parameters_changed
  end.

Definition resource_offer_awaiting (rc : ResourceConnection S SP.AwaitingReady C) (item : SessionItem)
    : ResourceAwaitingTransition S C :=
  let resources := rc_resources rc in
  match offer_awaiting (rc_conn rc) item with
  | Awaiting_Continue conn item => RA_Continue (mkResource conn resources) item
  | Awaiting_Ready ready => RA_Ready (resource_ready resources ready)
  | Awaiting_Error conn error => RA_Error (mkResource conn resources) error
  end.

Definition resource_offer_draining (rc : ResourceConnection S SP.Draining C) (item : SessionItem)
    : ResourceDrainingTransition S C :=
  let resources := rc_resources rc in
  match offer_draining (rc_conn rc) item with
  | Draining_Continue conn item => RD_Continue (mkResource conn resources) item
  | Draining_Ready ready => RD_Ready (resource_ready resources ready)
  end.
End Building.
End Operations.

(** ** The name table of the wire

    What an observer of the connection knows of the statements and portals: every
    resource is numbered by the order of creation, and a message is in scope when
    the name it uses stands for the very resource its token was issued for. *)

Inductive wire_event : Type :=
| Sent (used issued : option Z) (frame : Frame)
    (* the generation of the token an operation was given, and of the one it returned *)
| Received (item : SessionItem).

Record NameTable : Type :=
  mkTable { t_statements : gmap bytes Z; t_portals : gmap bytes Z; t_created : Z }.

Definition table_new : NameTable := mkTable ∅ ∅ 0.

(** The unnamed resource may be replaced, a named one may not. *)
Definition free_name (name : bytes) (table : gmap bytes Z) : Prop := name = [] \/ table !! name = None.
#[export] Instance free_name_dec name table : Decision (free_name name table).
Proof. unfold free_name. apply _. Defined.

Definition observe_message (used issued : option Z) (m : FrontendMessage) (t : NameTable) : option NameTable :=
  let '(mkTable sts pos n) := t in
  match m with
  | F_Parse m =>
      if decide (issued = Some n /\ free_name (parse_statement m) sts)
      then Some (mkTable (<[parse_statement m := n]> sts) pos (n + 1)) else None
  | F_Bind m =>
      if decide (issued = Some n /\ is_Some used /\ sts !! bind_statement m = used /\ free_name (bind_portal m) pos)
      then Some (mkTable sts (<[bind_portal m := n]> pos) (n + 1)) else None
  | F_Execute m => if decide (is_Some used /\ pos !! execute_portal m = used) then Some t else None
  | F_Describe m =>
      if decide (is_Some used /\ match describe_target m with Statement => sts | Frontend.Portal => pos end !! describe_name m = used)
      then Some t else None
  | F_Close m =>
      match close_target m with
      | Statement =>
          if decide (is_Some used /\ sts !! close_name m = used) then Some (mkTable (delete (close_name m) sts) pos n) else None
      | Frontend.Portal =>
          if decide (is_Some used /\ pos !! close_name m = used) then Some (mkTable sts (delete (close_name m) pos) n) else None
      end
  | F_Query _ => Some (mkTable (delete [] sts) pos n)
  | F_Flush | F_Sync => Some t
  | _ => None
  end.

Definition observe (e : wire_event) (t : NameTable) : option NameTable :=
  match e with
  | Sent used issued frame =>
      match Frontend_decode frame with Ok m => observe_message used issued m t | _ => None end
  | Received (Item_ReadyForQuery Idle _) => Some (mkTable (t_statements t) (delete [] (t_portals t)) (t_created t))
  | Received _ => Some t
  end.

Fixpoint replay (trace : list wire_event) (t : NameTable) : option NameTable :=
  match trace with
  | [] => Some t
  | e :: trace => t ← observe e t; replay trace t
  end.

(** ** Runs of a resource-aware connection *)

Inductive AnyConnection (S : Type) : Type :=
| AnyC {P : SP.t} {C : Cleanliness} (rc : ResourceConnection S P C).
Arguments AnyC {S P C}.

Section Runs.
Context `{BuildProfile} {S : Type}.

Definition scope_of (a : AnyConnection S) : ResourceScope := let '(AnyC rc) := a in rc_resources rc.

Definition of_ready {C} (ready : ResourceReadyState S C) : AnyConnection S :=
  match ready with RR_Clean rc => AnyC rc | RR_Dirty rc _ _ => AnyC rc end.
Definition of_awaiting {C} (t : ResourceAwaitingTransition S C) : AnyConnection S :=
  match t with RA_Continue rc _ => AnyC rc | RA_Ready ready => of_ready ready | RA_Error rc _ => AnyC rc end.
Definition of_draining {C} (t : ResourceDrainingTransition S C) : AnyConnection S :=
  match t with RD_Continue rc _ => AnyC rc | RD_Ready ready => of_ready ready end.

(** One operation that succeeds. Tokens are arbitrary values, so also stale ones;
    integer arguments are within their Rust types. *)
Inductive resource_step : AnyConnection S -> list wire_event -> AnyConnection S -> Prop :=
| step_transport {P C A} (rc : ResourceConnection S P C) (f : Conn S P C -> A * Conn S P C) :
    resource_step (AnyC rc) [] (AnyC (connection_mut f rc).2)
| step_begin {C} (rc : ResourceConnection S SP.Ready C) :
    resource_step (AnyC rc) [] (AnyC (resource_begin_extended rc))
| step_query {C} (rc : ResourceConnection S SP.Ready C) query rc' frame :
    resource_query rc query = Ok (rc', frame) ->
    resource_step (AnyC rc) [Sent None None frame] (AnyC rc')
| step_prepare {C} (rc : ResourceConnection S SP.Building C) c u q ts rc' st frame :
    Forall (in_u 32) ts -> building_prepare rc c u q ts = Ok (rc', st, frame) ->
    resource_step (AnyC rc) [Sent None (Some (st_generation st)) frame] (AnyC rc')
| step_bind {C} (rc : ResourceConnection S SP.Building C) st c u fs ps rs rc' po frame :
    Forall (in_i 16) fs -> Forall (in_i 16) rs -> building_bind rc st c u fs ps rs = Ok (rc', po, frame) ->
    resource_step (AnyC rc) [Sent (Some (st_generation st)) (Some (po_generation po)) frame] (AnyC rc')
| step_describe_statement {C} (rc : ResourceConnection S SP.Building C) st rc' frame :
    building_describe_statement rc st = Ok (rc', frame) ->
    resource_step (AnyC rc) [Sent (Some (st_generation st)) None frame] (AnyC rc')
| step_close_statement {C} (rc : ResourceConnection S SP.Building C) st rc' frame :
    building_close_statement rc st = Ok (rc', frame) ->
    resource_step (AnyC rc) [Sent (Some (st_generation st)) None frame] (AnyC rc')
| step_close_portal {C} (rc : ResourceConnection S SP.Building C) po rc' frame :
    building_close_portal rc po = Ok (rc', frame) ->
    resource_step (AnyC rc) [Sent (Some (po_generation po)) None frame] (AnyC rc')
| step_flush {C} (rc : ResourceConnection S SP.Building C) :
    resource_step (AnyC rc) [Sent None None (building_flush rc).2] (AnyC (building_flush rc).1)
| step_sync {C} (rc : ResourceConnection S SP.Building C) :
    resource_step (AnyC rc) [Sent None None (building_sync rc).2] (AnyC (building_sync rc).1)
| step_bound_prepare {C} (rc : ResourceConnection S SP.BoundBuilding C) c u q ts rc' st frame :
    Forall (in_u 32) ts -> bound_prepare rc c u q ts = Ok (rc', st, frame) ->
    resource_step (AnyC rc) [Sent None (Some (st_generation st)) frame] (AnyC rc')
| step_bound_bind {C} (rc : ResourceConnection S SP.BoundBuilding C) st c u fs ps rs rc' po frame :
    Forall (in_i 16) fs -> Forall (in_i 16) rs -> bound_bind rc st c u fs ps rs = Ok (rc', po, frame) ->
    resource_step (AnyC rc) [Sent (Some (st_generation st)) (Some (po_generation po)) frame] (AnyC rc')
| step_bound_describe_statement {C} (rc : ResourceConnection S SP.BoundBuilding C) st rc' frame :
    bound_describe_statement rc st = Ok (rc', frame) ->
    resource_step (AnyC rc) [Sent (Some (st_generation st)) None frame] (AnyC rc')
| step_bound_describe_portal {C} (rc : ResourceConnection S SP.BoundBuilding C) po rc' frame :
    bound_describe_portal rc po = Ok (rc', frame) ->
    resource_step (AnyC rc) [Sent (Some (po_generation po)) None frame] (AnyC rc')
| step_bound_execute {C} (rc : ResourceConnection S SP.BoundBuilding C) po max_rows rc' frame :
    in_i 32 max_rows -> bound_execute rc po max_rows = Ok (rc', frame) ->
    resource_step (AnyC rc) [Sent (Some (po_generation po)) None frame] (AnyC rc')
| step_bound_close_statement {C} (rc : ResourceConnection S SP.BoundBuilding C) st rc' frame :
    bound_close_statement rc st = Ok (rc', frame) ->
    resource_step (AnyC rc) [Sent (Some (st_generation st)) None frame] (AnyC rc')
| step_bound_close_portal {C} (rc : ResourceConnection S SP.BoundBuilding C) po rc' frame :
    bound_close_portal rc po = Ok (rc', frame) ->
    resource_step (AnyC rc) [Sent (Some (po_generation po)) None frame] (AnyC rc')
| step_bound_flush {C} (rc : ResourceConnection S SP.BoundBuilding C) :
    resource_step (AnyC rc) [Sent None None (bound_flush rc).2] (AnyC (bound_flush rc).1)
| step_bound_sync {C} (rc : ResourceConnection S SP.BoundBuilding C) :
    resource_step (AnyC rc) [Sent None None (bound_sync rc).2] (AnyC (bound_sync rc).1)
| step_awaiting {C} (rc : ResourceConnection S SP.AwaitingReady C) item :
    resource_step (AnyC rc) [Received item] (of_awaiting (resource_offer_awaiting rc item))
| step_draining {C} (rc : ResourceConnection S SP.Draining C) item :
    resource_step (AnyC rc) [Received item] (of_draining (resource_offer_draining rc item)).

Inductive resource_run : AnyConnection S -> list wire_event -> AnyConnection S -> Prop :=
| run_done a : resource_run a [] a
| run_step a b c t1 t2 : resource_step a t1 b -> resource_run b t2 c -> resource_run a (t1 ++ t2) c.

(** ** The scope is the name table *)

Definition table_of (s : ResourceScope) : NameTable := mkTable (statements s) (portals s) (next_generation s).

(** What a scope operation that sends [m] must do to agree with the table. *)
Definition tracks (used issued : option Z) (m : FrontendMessage) (s s' : ResourceScope) : Prop :=
  next_generation s <= U64_MAX ->
  next_generation s <= next_generation s' <= U64_MAX /\
  (next_generation s' < U64_MAX -> observe_message used issued m (table_of s) = Some (table_of s')).

Lemma free_name_intro (u : bytes) (m : gmap bytes Z) : (Resources.is_empty u = false -> m !! u = None) -> free_name u m.
Proof. destruct u; [now left|right; auto]. Qed.

Lemma live_statement st s : statement_is_live st s = true -> statements s !! st_upstream_name st = Some (st_generation st).
Proof. apply bool_decide_eq_true. Qed.
Lemma live_portal po s : portal_is_live po s = true -> portals s !! po_upstream_name po = Some (po_generation po).
Proof. apply bool_decide_eq_true. Qed.

Lemma saturating_next n : n <= U64_MAX -> n <= saturating_add U64_MAX n 1 <= U64_MAX.
Proof. unfold saturating_add. lia. Qed.
Lemma saturating_below n : saturating_add U64_MAX n 1 < U64_MAX -> saturating_add U64_MAX n 1 = n + 1.
Proof. unfold saturating_add. lia. Qed.

Lemma prepare_tracks c u q ts s st m s' : prepare c u q ts s = (Ok (st, m), s') ->
  m = mkParse u q ts /\ tracks None (Some (st_generation st)) (F_Parse m) s s'.
Proof.
  destruct (prepare_cases c u q ts s) as [[e ->]|(-> & Hu & _)]; [done|]. intros [= <- <- <-].
  split; [done|]. intros Hn. simpl. split; [now apply saturating_next|]. intros Hlt.
  rewrite decide_True by auto using free_name_intro. unfold table_of. simpl. now rewrite saturating_below.
Qed.

Lemma bind_tracks st c u fs ps rs s po m s' : Resources.bind st c u fs ps rs s = (Ok (po, m), s') ->
  m = mkBind u (st_upstream_name st) fs ps rs /\
  tracks (Some (st_generation st)) (Some (po_generation po)) (F_Bind m) s s'.
Proof.
  destruct (bind_cases st c u fs ps rs s) as [[e ->]|(-> & Hl & Hu & _)]; [done|]. intros [= <- <- <-].
  split; [done|]. intros Hn. simpl. split; [now apply saturating_next|]. intros Hlt.
  rewrite decide_True by (split_and!; eauto using free_name_intro, live_statement).
  unfold table_of. simpl. now rewrite saturating_below.
Qed.

Lemma close_statement_tracks st s m s' : close_statement st s = (Ok m, s') ->
  tracks (Some (st_generation st)) None (F_Close m) s s'.
Proof.
  unfold close_statement. destruct (statement_is_live st s) eqn:E; [|done]. intros [= <- <-] Hn. split; [simpl; lia|].
  intros _. simpl. rewrite decide_True by eauto using live_statement. done.
Qed.

Lemma close_portal_tracks po s m s' : close_portal po s = (Ok m, s') ->
  tracks (Some (po_generation po)) None (F_Close m) s s'.
Proof.
  unfold close_portal. destruct (portal_is_live po s) eqn:E; [|done]. intros [= <- <-] Hn. split; [simpl; lia|].
  intros _. simpl. rewrite decide_True by eauto using live_portal. done.
Qed.

Lemma describe_statement_tracks st s m : describe_statement st s = Ok m ->
  tracks (Some (st_generation st)) None (F_Describe m) s s.
Proof.
  unfold describe_statement. destruct (statement_is_live st s) eqn:E; [|done]. intros [= <-] Hn. split; [lia|].
  intros _. simpl. rewrite decide_True by eauto using live_statement. done.
Qed.

Lemma describe_portal_tracks po s m : describe_portal po s = Ok m ->
  tracks (Some (po_generation po)) None (F_Describe m) s s.
Proof.
  unfold describe_portal. destruct (portal_is_live po s) eqn:E; [|done]. intros [= <-] Hn. split; [lia|].
  intros _. simpl. rewrite decide_True by eauto using live_portal. done.
Qed.

Lemma execute_tracks po k s m : execute po k s = Ok m ->
  m = mkExecute (po_upstream_name po) k /\ tracks (Some (po_generation po)) None (F_Execute m) s s.
Proof.
  unfold execute. destruct (portal_is_live po s) eqn:E; [|done]. intros [= <-]. split; [done|]. intros Hn. split; [lia|].
  intros _. simpl. rewrite decide_True by eauto using live_portal. done.
Qed.

(** A stretch of the trace agrees with what it does to the scope. *)
Definition agrees (s : ResourceScope) (trace : list wire_event) (s' : ResourceScope) : Prop :=
  next_generation s <= U64_MAX ->
  next_generation s <= next_generation s' <= U64_MAX /\
  (next_generation s' < U64_MAX -> replay trace (table_of s) = Some (table_of s')).

Lemma agrees_refl s : agrees s [] s.
Proof. intros Hn. split; [lia|done]. Qed.

Lemma agrees_app s1 t1 s2 t2 s3 : agrees s1 t1 s2 -> agrees s2 t2 s3 -> agrees s1 (t1 ++ t2) s3.
Proof.
  intros H1 H2 Hn. destruct (H1 Hn) as [B1 E1]. destruct (H2 ltac:(lia)) as [B2 E2]. split; [lia|]. intros Hlt.
  rewrite <- (E2 Hlt). specialize (E1 ltac:(lia)). clear -E1. revert E1. generalize (table_of s1).
  induction t1 as [|e t1 IH]; intros t; simpl; [congruence|]. destruct (observe e t); simpl; [apply IH|discriminate].
Qed.

Lemma sent_agrees used issued m frame s s' : tracks used issued m s s' -> FrontendMessage_typed m ->
  FrontendMessage_to_frame m = Ok frame -> agrees s [Sent used issued frame] s'.
Proof.
  intros Htr Ht Hf Hn. destruct (Htr Hn) as [B E]. split; [done|]. intros Hlt. cbn [replay observe].
  now rewrite (decode_frontend_to_frame m frame Ht Hf), (E Hlt).
Qed.

Lemma or_drop_ok {E A} {P : SP.t} {C} (c : Conn S P C) (w : E -> ResourceProtocolError) r (a : A) :
  or_drop c w r = Ok a -> r = Ok a.
Proof. destruct r; simpl; [now intros [= ->]|now case_match|done]. Qed.

(** Open a resource operation that succeeded. *)
Ltac open_resource :=
  repeat match goal with
  | H : context [let (_, _) := ?p in _] |- _ => let E := fresh "Eop" in destruct p as [? ?] eqn:E
  | H : context [or_drop ?c ?w ?r] |- _ =>
      let E := fresh "Eor" in destruct (or_drop c w r) as [?| |] eqn:E; [apply or_drop_ok in E|discriminate H..]
  end; simpl in *; simplify_eq.

Lemma ready_agrees {C} {P : SP.t} (c : Conn S P C) s status changed :
  agrees s [Received (Item_ReadyForQuery status changed)] (scope_of (of_ready (resource_ready s (ready_state c status changed)))).
Proof.
  intros Hn. unfold ready_state, resource_ready. destruct status, changed; simpl; (split; [lia|done]).
Qed.

(** Only readiness completes a cycle. *)
Lemma awaiting_ready_inv {C} (c : Conn S SP.AwaitingReady C) item r : offer_awaiting c item = Awaiting_Ready r ->
  exists status changed, item = Item_ReadyForQuery status changed /\ r = ready_state c status changed.
Proof.
  unfold offer_awaiting. destruct item as [m|status changed|tag ? ?]; intros Ho.
  2: { revert Ho. replace (project_session_item "AwaitingReady" (Item_ReadyForQuery status changed))
         with (Some "Ready") by (now destruct status). intros [= <-]. eauto. }
  all: repeat match type of Ho with context [match ?x with _ => _ end] => destruct x; try discriminate Ho end.
Qed.

Lemma draining_ready_inv {C} (c : Conn S SP.Draining C) item r : offer_draining c item = Draining_Ready r ->
  exists status changed, item = Item_ReadyForQuery status changed /\ r = ready_state c status changed.
Proof.
  unfold offer_draining. destruct item as [m|status changed|tag ? ?]; intros Ho.
  2: { revert Ho. replace (project_session_item "Draining" (Item_ReadyForQuery status changed))
         with (Some "Ready") by (now destruct status). intros [= <-]. eauto. }
  all: repeat match type of Ho with context [match ?x with _ => _ end] => destruct x; try discriminate Ho end.
Qed.

(** Any other item leaves the table alone, as does readiness inside a transaction. *)
Lemma quiet_agrees s item : (forall changed, item <> Item_ReadyForQuery Idle changed) -> agrees s [Received item] s.
Proof.
  intros Hi Hn. split; [lia|]. intros _. destruct item as [m|[] changed|tag ? ?]; try done. now destruct (Hi changed).
Qed.

Lemma awaiting_agrees {C} (rc : ResourceConnection S SP.AwaitingReady C) item :
  agrees (rc_resources rc) [Received item] (scope_of (of_awaiting (resource_offer_awaiting rc item))).
Proof.
  unfold resource_offer_awaiting. destruct (offer_awaiting (rc_conn rc) item) as [conn item'|ready|conn error] eqn:Eo.
  2: { apply awaiting_ready_inv in Eo as (status & changed & -> & ->). apply ready_agrees. }
  all: apply quiet_agrees; intros changed ->; discriminate Eo.
Qed.

Lemma draining_agrees {C} (rc : ResourceConnection S SP.Draining C) item :
  agrees (rc_resources rc) [Received item] (scope_of (of_draining (resource_offer_draining rc item))).
Proof.
  unfold resource_offer_draining. destruct (offer_draining (rc_conn rc) item) as [conn item'|ready] eqn:Eo.
  2: { apply draining_ready_inv in Eo as (status & changed & -> & ->). apply ready_agrees. }
  apply quiet_agrees; intros changed ->; discriminate Eo.
Qed.

Lemma cstr_frame_query query frame : cstr_frame "Q"%byte query = Ok frame -> FrontendMessage_to_frame (F_Query query) = Ok frame.
Proof. unfold cstr_frame. simpl. unfold cstr_message, put_cstr. case_decide; [done|]. now intros [= <-]. Qed.

Lemma query_tracks query s : tracks None None (F_Query query) s (simple_query_boundary s).
Proof. intros Hn. split; [simpl; lia|done]. Qed.

Lemma boundary_tracks m s : m = F_Flush \/ m = F_Sync -> tracks None None m s s.
Proof. intros [-> | ->] Hn; (split; [lia|done]). Qed.

(** [push] sent the frame of its message, which tracks the scope by [Ht]. *)
Ltac sent push Ht :=
  unfold push in *; inv_ok; apply (sent_agrees _ _ _ _ _ _ Ht); done.

Lemma resource_step_agrees a trace b : resource_step a trace b -> agrees (scope_of a) trace (scope_of b).
Proof.
  intros Hstep. destruct Hstep; simpl.
  - unfold connection_mut. destruct (f _). apply agrees_refl.
  - apply agrees_refl.
  - unfold resource_query in *. open_resource. unfold push_query in *. inv_ok.
    apply (sent_agrees _ _ (F_Query query)); [apply query_tracks|done|now apply cstr_frame_query].
  - unfold building_prepare in *. open_resource. apply prepare_tracks in Eop as [-> Ht]. sent (@push_parse) Ht.
  - unfold building_bind in *. open_resource. apply bind_tracks in Eop as [-> Ht]. sent (@push_bind) Ht.
  - unfold building_describe_statement in *. open_resource. apply describe_statement_tracks in Eor as Ht. sent (@push_describe) Ht.
  - unfold building_close_statement in *. open_resource. apply close_statement_tracks in Eop as Ht. sent (@push_close) Ht.
  - unfold building_close_portal in *. open_resource. apply close_portal_tracks in Eop as Ht. sent (@push_close) Ht.
  - apply (sent_agrees _ _ F_Flush); [apply boundary_tracks; auto|done..].
  - apply (sent_agrees _ _ F_Sync); [apply boundary_tracks; auto|done..].
  - unfold bound_prepare in *. open_resource. apply prepare_tracks in Eop as [-> Ht]. sent (@bound_push_parse) Ht.
  - unfold bound_bind in *. open_resource. apply bind_tracks in Eop as [-> Ht]. sent (@bound_push_bind) Ht.
  - unfold bound_describe_statement in *. open_resource. apply describe_statement_tracks in Eor as Ht. sent (@bound_push_describe) Ht.
  - unfold bound_describe_portal in *. open_resource. apply describe_portal_tracks in Eor as Ht. sent (@bound_push_describe) Ht.
  - unfold bound_execute in *. open_resource. apply execute_tracks in Eor as [-> Ht]. sent (@push_execute) Ht.
  - unfold bound_close_statement in *. open_resource. apply close_statement_tracks in Eop as Ht. sent (@bound_push_close) Ht.
  - unfold bound_close_portal in *. open_resource. apply close_portal_tracks in Eop as Ht. sent (@bound_push_close) Ht.
  - apply (sent_agrees _ _ F_Flush); [apply boundary_tracks; auto|done..].
  - apply (sent_agrees _ _ F_Sync); [apply boundary_tracks; auto|done..].
  - apply awaiting_agrees.
  - apply draining_agrees.
Qed.

Lemma resource_run_agrees a trace b : resource_run a trace b -> agrees (scope_of a) trace (scope_of b).
Proof. induction 1; eauto using agrees_refl, agrees_app, resource_step_agrees. Qed.
End Runs.

(** ** Where live names come from *)

Lemma replay_snoc trace e t : replay (trace ++ [e]) t = replay trace t ≫= observe e.
Proof.
  revert t. induction trace as [|e' trace IH]; intros t; simpl; [now destruct (observe e t)|].
  destruct (observe e' t); simpl; [apply IH|done].
Qed.

(** The trace has an event that issued [g] for a frame whose message satisfies [Q]. *)
Definition issued_by (Q : option Z -> FrontendMessage -> list wire_event -> Prop) (g : Z) (trace : list wire_event) : Prop :=
  exists pre used frame m post, trace = pre ++ Sent used (Some g) frame :: post /\
    Frontend_decode frame = Ok m /\ Q used m pre.

Lemma issued_later Q g trace e : issued_by Q g trace -> issued_by Q g (trace ++ [e]).
Proof.
  intros (pre & used & frame & m & post & -> & H). exists pre, used, frame, m, (post ++ [e]).
  now rewrite <- app_assoc.
Qed.

Lemma issued_now Q g trace used frame m : Frontend_decode frame = Ok m -> Q used m trace ->
  issued_by Q g (trace ++ [Sent used (Some g) frame]).
Proof. intros Hd HQ. exists trace, used, frame, m, []. now split. Qed.

(** What one event adds to the table. *)
Lemma observe_adds e t t' : observe e t = Some t' ->
  (forall n g, t_statements t' !! n = Some g -> t_statements t !! n = Some g \/
     exists used frame m, e = Sent used (Some g) frame /\ Frontend_decode frame = Ok (F_Parse m) /\ parse_statement m = n) /\
  (forall n g, t_portals t' !! n = Some g -> t_portals t !! n = Some g \/
     exists gs frame m, e = Sent (Some gs) (Some g) frame /\ Frontend_decode frame = Ok (F_Bind m) /\ bind_portal m = n /\
       t_statements t !! bind_statement m = Some gs).
Proof.
  destruct t as [sts pos k], e as [used issued frame|item]; simpl.
  - destruct (Frontend_decode frame) as [m| |] eqn:Ed; [|done..].
    destruct m; simpl; intros H; repeat (case_decide || case_match); simplify_eq; simpl;
      split; intros n g Hl; try (now left); try (apply lookup_delete_Some in Hl as [_ Hl]; now left).
    + apply lookup_insert_Some in Hl as [[<- <-]|[_ Hl]]; [right|now left]. destruct_and!. simplify_eq. eauto 10.
    + apply lookup_insert_Some in Hl as [[<- <-]|[_ Hl]]; [right|now left].
      match goal with H : _ /\ is_Some _ /\ _ |- _ => destruct H as (-> & [gs ->] & Hs & _) end. eauto 10.
  - intros H. repeat case_match; simplify_eq; simpl; split; intros n g Hl; try (now left).
    apply lookup_delete_Some in Hl as [_ Hl]; now left.
Qed.

Definition parses (name : bytes) (_ : option Z) (m : FrontendMessage) (_ : list wire_event) : Prop :=
  exists p, m = F_Parse p /\ parse_statement p = name.

(** A bind, to portal [name], of a statement that the trace so far has parsed. *)
Definition binds (name : bytes) (used : option Z) (m : FrontendMessage) (pre : list wire_event) : Prop :=
  exists b gs, m = F_Bind b /\ bind_portal b = name /\ used = Some gs /\ issued_by (parses (bind_statement b)) gs pre.

Lemma replay_origins trace : forall t, replay trace table_new = Some t ->
  (forall n g, t_statements t !! n = Some g -> issued_by (parses n) g trace) /\
  (forall n g, t_portals t !! n = Some g -> issued_by (binds n) g trace).
Proof.
  induction trace as [|e trace IH] using rev_ind; intros t.
  - intros [= <-]. split; intros n g Hl; simpl in Hl; now rewrite lookup_empty in Hl.
  - rewrite replay_snoc. destruct (replay trace table_new) as [t0|]; [|done]. simpl. intros Ho.
    destruct (IH t0 eq_refl) as [Hs Hp]. destruct (observe_adds e t0 t Ho) as [As Ap]. split; intros n g Hl.
    + destruct (As n g Hl) as [Hl0|(used & frame & m & -> & Hd & Hm)]; [now apply issued_later, Hs|].
      eapply issued_now; [exact Hd|]. exists m. auto.
    + destruct (Ap n g Hl) as [Hl0|(gs & frame & m & -> & Hd & Hm & Hst)]; [now apply issued_later, Hp|].
      eapply issued_now; [exact Hd|]. exists m, gs. auto.
Qed.

(** ** Properties *)

(** C18: Scoped wire traffic. Over any run of a resource-aware connection, with
    any tokens and through errors and recovery, every message put on the wire is in
    scope for an observer of the wire alone: no live named statement or portal is
    redefined, and a bind, describe, execute or close reaches the very resource its
    token was issued for. The live names of the connection are exactly the
    observer's; a live portal was bound on this connection from a statement parsed
    on it before. *)
Theorem resource_wire_scoped `{BuildProfile} {S} {P0 P C0 C} (conn : Conn S P0 C0) trace (rc : ResourceConnection S P C) :
  resource_run (with_connection_resources conn AnyC) trace (AnyC rc) ->
  next_generation (rc_resources rc) < U64_MAX ->
  replay trace table_new = Some (table_of (rc_resources rc)) /\
  (forall st, statement_is_live st (rc_resources rc) = true ->
     issued_by (parses (st_upstream_name st)) (st_generation st) trace) /\
  (forall po, portal_is_live po (rc_resources rc) = true ->
     issued_by (binds (po_upstream_name po)) (po_generation po) trace).
Proof.
  intros Hrun Hlt. destruct (resource_run_agrees _ _ _ Hrun) as [_ Hreplay]; [vm_compute; discriminate|].
  specialize (Hreplay Hlt). split; [exact Hreplay|].
  destruct (replay_origins trace _ Hreplay) as [Hs Hp]. split; intros t Hl.
  - apply Hs. now apply live_statement.
  - apply Hp. now apply live_portal.
Qed.

Module Sample.
Definition str := list_byte_of_string.
Definition frame_of (m : FrontendMessage) : Frame :=
  match FrontendMessage_to_frame m with Ok f => f | _ => empty_frame x00 end.
Definition conn : Conn unit SP.Building Pristine := mkConn (Some tt).
Definition trace : list wire_event :=
  [Sent None (Some 0) (frame_of (F_Parse (mkParse (str "s1") (str "select $1") [23])));
   Sent (Some 0) (Some 1) (frame_of (F_Bind (mkBind (str "p1") (str "s1") [1] [Some (str "x")] [])));
   Sent (Some 1) None (frame_of (F_Execute (mkExecute (str "p1") 0)));
   Sent None None (empty_frame "S"%byte);
   Received (Item_ReadyForQuery InTransaction false)].

Definition st : PreparedStatement := mkStatement (str "s") (str "s1") 0.
Definition po : Resources.Portal := mkPortal (str "p") (str "p1") 1.
Definition scope1 : ResourceScope := (prepare (str "s") (str "s1") (str "select $1") [23] scope_new).2.
Definition scope2 : ResourceScope := (Resources.bind st (str "p") (str "p1") [1] [Some (str "x")] [] scope1).2.
Definition at_phase (P : SP.t) (s : ResourceScope) : ResourceConnection unit P Dirty := mkResource (mkConn (Some tt)) s.

Section Profile.
Context `{BuildProfile}.

Lemma sample_prepared : building_prepare (mkResource conn scope_new) (str "s") (str "s1") (str "select $1") [23] =
  Ok (at_phase SP.Building scope1, st, frame_of (F_Parse (mkParse (str "s1") (str "select $1") [23]))).
Proof. vm_compute. reflexivity. Qed.
Lemma sample_bound : building_bind (at_phase SP.Building scope1) st (str "p") (str "p1") [1] [Some (str "x")] [] =
  Ok (at_phase SP.BoundBuilding scope2, po, frame_of (F_Bind (mkBind (str "p1") (str "s1") [1] [Some (str "x")] []))).
Proof. vm_compute. reflexivity. Qed.
Lemma sample_executed : bound_execute (at_phase SP.BoundBuilding scope2) po 0 =
  Ok (at_phase SP.BoundBuilding scope2, frame_of (F_Execute (mkExecute (str "p1") 0))).
Proof. vm_compute. reflexivity. Qed.
Lemma sample_readied : of_awaiting (resource_offer_awaiting (at_phase SP.AwaitingReady scope2) (Item_ReadyForQuery InTransaction false)) =
  AnyC (at_phase SP.Ready scope2).
Proof. reflexivity. Qed.

Lemma sample_run : resource_run (with_connection_resources conn AnyC) trace (AnyC (at_phase SP.Ready scope2)).
Proof.
  eapply (run_step _ _ _ [_]). { refine (step_prepare _ _ _ _ _ _ _ _ _ sample_prepared). now repeat constructor. }
  eapply (run_step _ _ _ [_]). { refine (step_bind _ _ _ _ _ _ _ _ _ _ _ _ sample_bound); now repeat constructor. }
  eapply (run_step _ _ _ [_]). { refine (step_bound_execute _ _ _ _ _ _ sample_executed). easy. }
  eapply (run_step _ _ _ [_]). { apply step_bound_sync. }
  eapply (run_step _ _ _ [_] []); [|apply run_done]. rewrite <- sample_readied. apply step_awaiting.
Qed.
End Profile.
End Sample.

Lemma resource_wire_scoped_witness :
  issued_by (binds (Sample.str "p1")) 1 Sample.trace /\ issued_by (parses (Sample.str "s1")) 0 Sample.trace.
Proof.
  destruct (resource_wire_scoped (H := true) Sample.conn Sample.trace (Sample.at_phase SP.Ready Sample.scope2) Sample.sample_run)
    as (_ & Hs & Hp); [vm_compute; reflexivity|].
  split; [apply (Hp Sample.po)|apply (Hs Sample.st)]; vm_compute; reflexivity.
Defined.

(** ** Refusals and lifetimes *)

(** A refused operation drops the live connection: it returns the error in
    release builds and panics in builds with debug assertions. *)
Theorem refused_resource_drops_connection `{BuildProfile} {S C C'} (rc : ResourceConnection S SP.Building C)
    (rb : ResourceConnection S SP.BoundBuilding C') t tb c u q ts e s po k :
  transport (rc_conn rc) = Some t -> transport (rc_conn rb) = Some tb ->
  prepare c u q ts (rc_resources rc) = (Err e, s) -> portal_is_live po (rc_resources rb) = false ->
  building_prepare rc c u q ts = (if debug_assertions then Panic else Err (Resource e)) /\
  bound_execute rb po k = (if debug_assertions then Panic else Err (Resource UnknownPortal)).
Proof.
  intros Ht Htb Hp Hl. unfold building_prepare, bound_execute, execute. rewrite Hp, Hl. simpl.
  unfold drop_asserts. rewrite Ht, Htb. now destruct debug_assertions.
Qed.

(** Recovery forgets nothing: a statement whose Parse the server refused stays live
    through the error and the drain, and its name stays taken. *)
Theorem failed_parse_keeps_name {S C} (rc : ResourceConnection S SP.AwaitingReady C) error status changed st c q ts :
  statement_is_live st (rc_resources rc) = true -> Resources.is_empty (st_upstream_name st) = false ->
  exists rd ready, resource_offer_awaiting rc (Item_Message (B_ErrorResponse error)) = RA_Error rd error /\
    resource_offer_draining rd (Item_ReadyForQuery status changed) = RD_Ready ready /\
    statement_is_live st (scope_of (of_ready ready)) = true /\
    (prepare c (st_upstream_name st) q ts (scope_of (of_ready ready))).1 = Err StatementNameCollision.
Proof.
  intros Hl Hne. eexists _, _. split; [reflexivity|]. split; [destruct status; reflexivity|].
  assert (forall s, statements s = statements (rc_resources rc) ->
    statement_is_live st s = true /\ (prepare c (st_upstream_name st) q ts s).1 = Err StatementNameCollision) as Hkeep.
  { intros s Es. unfold statement_is_live, prepare, allocate, contains_key in *. rewrite Es, Hne.
    split; [exact Hl|]. apply bool_decide_eq_true in Hl. now rewrite Hl. }
  apply Hkeep. destruct status, changed; reflexivity.
Qed.

(** A named portal stays live past the end of its transaction. *)
Theorem named_portal_outlives_transaction {S C} (rc : ResourceConnection S SP.AwaitingReady C) changed po :
  portal_is_live po (rc_resources rc) = true -> Resources.is_empty (po_upstream_name po) = false ->
  portal_is_live po (scope_of (of_awaiting (resource_offer_awaiting rc (Item_ReadyForQuery Idle changed)))) = true.
Proof.
  intros Hl Hne. destruct (resource_boundaries (rc_resources rc) (mkStatement [] [] 0) po (mkStatement [] [] 0)) as (_ & _ & Hp & _).
  destruct changed; simpl; now rewrite Hp, Hl, Hne.
Qed.
