(* ===== verification/ClientComponent.v ===== *)
(** The client role's builder, connection establishment and facade:
    src/client_component.rs. *)

From Stdlib Require Import ZArith Lia String.
From Stdlib Require Import Init.Byte.
From stdpp Require Import prelude.
From S2P Require Import Prelude OrdMap Wire Frame Frontend Startup PreStartup Backend Demux Resources Transport Session Scram Auth RuntimeMiddleware Intermediary Tls Establish.

Local Open Scope string_scope.
Local Open Scope Z_scope.
Local Open Scope list_scope.
Local Open Scope establish_scope.

(** ** Startup parameters *)

(** [String]s are byte strings. *)
Record StartupParameters : Type := mkStartupParameters {
  user : option bytes;
  database : option bytes;
  extensions : BTreeMap
}.

Inductive StartupParameterError : Type :=
| ReservedExtension (name : bytes)
| MissingUser.

Definition StartupParameters_default : StartupParameters := mkStartupParameters None None [].
Definition StartupParameters_new (user : bytes) : StartupParameters := mkStartupParameters (Some user) None [].

(** One entry of the loop of [from_wire]. *)
Definition wire_parameter (entry : bytes * bytes) (p : StartupParameters) : io StartupParameters :=
  let (name, value) := entry in
  if negb (utf8 name) then Err (Wire.invalid "startup parameter name is not UTF-8")
  else if negb (utf8 value) then Err (Wire.invalid "startup parameter value is not UTF-8")
  else Ok (if decide (name = str "user") then mkStartupParameters (Some value) (database p) (extensions p)
           else if decide (name = str "database") then mkStartupParameters (user p) (Some value) (extensions p)
           else mkStartupParameters (user p) (database p) (btree_insert name value (extensions p)).2).

Fixpoint wire_parameters (entries : BTreeMap) (p : StartupParameters) : io StartupParameters :=
  match entries with
  | [] => Ok p
  | entry :: entries => let? p := wire_parameter entry p in wire_parameters entries p
  end.

Definition from_wire (message : StartupMessage) : io StartupParameters :=
  wire_parameters (Startup.parameters message) StartupParameters_default.

Definition with_database (database : bytes) (p : StartupParameters) : StartupParameters :=
  mkStartupParameters (user p) (Some database) (extensions p).

Definition extension (name value : bytes) (p : StartupParameters) : result StartupParameters StartupParameterError :=
  if decide (name = str "user" \/ name = str "database") then Err (ReservedExtension name)
  else Ok (mkStartupParameters (user p) (database p) (btree_insert name value (extensions p)).2).

(** [BTreeMap::extend] *)
Definition btree_extend (entries m : BTreeMap) : BTreeMap :=
  foldl (fun m entry => (btree_insert entry.1 entry.2 m).2) m entries.

Definition merged_with (p overrides : StartupParameters) : StartupParameters :=
  mkStartupParameters
    (match user overrides with Some user => Some user | None => user p end)
    (match database overrides with Some database => Some database | None => database p end)
    (btree_extend (extensions overrides) (extensions p)).

(** Collecting the extensions into a new map keeps their order. *)
Definition into_message (p : StartupParameters) : result StartupMessage StartupParameterError :=
  match user p with
  | None => Err MissingUser
  | Some user =>
      let parameters := btree_extend (extensions p) [] in
      let parameters := (btree_insert (str "user") user parameters).2 in
      let parameters :=
        match database p with
        | Some database => (btree_insert (str "database") database parameters).2
        | None => parameters
        end in
      Ok (mkStartup V3_2 parameters)
  end.

(** ** Limits *)

Record ProtocolLimits : Type := mkProtocolLimits { limit_frame_len : Z (* usize *) }.
Inductive ProtocolLimitError : Type := mkProtocolLimitError.

Definition ProtocolLimits_default : ProtocolLimits := mkProtocolLimits (1024 * 1024).
Definition limits_max_frame_len (limit : Z) (l : ProtocolLimits) : result ProtocolLimits ProtocolLimitError :=
  if negb (contains 5 (I32_MAX + 1) limit) then Err mkProtocolLimitError else Ok (mkProtocolLimits limit).
Definition without_frame_limit (l : ProtocolLimits) : ProtocolLimits := mkProtocolLimits (I32_MAX + 1).

(** ** Connection facts *)

Inductive ClientTlsStatus : Type := Status_Plaintext | Status_Encrypted.

Record ClientConnectionContext (Evidence : Type) : Type := mkClientContext {
  context_target : ConnectTarget;
  context_tls : option ClientTlsStatus;
  context_identity : option Evidence;
  context_backend_key : option CancelKey
}.
Arguments mkClientContext {Evidence}. Arguments context_target {Evidence}. Arguments context_tls {Evidence}.
Arguments context_identity {Evidence}. Arguments context_backend_key {Evidence}.

Definition set_tls {Evidence} (status : option ClientTlsStatus) (c : ClientConnectionContext Evidence)
    : ClientConnectionContext Evidence :=
  mkClientContext (context_target c) status (context_identity c) (context_backend_key c).

(** [identity()]: panics before authentication. *)
Definition client_identity {Evidence} (c : ClientConnectionContext Evidence) : result Evidence Empty_set :=
  match context_identity c with Some identity => Ok identity | None => Panic end.

Record ClientInitialContext : Type := mkInitialContext { initial_target : ConnectTarget }.

(** ** TLS policy *)

Inductive ClientTlsPolicy : Type := ClientTls_Disabled.
Record ReloadableClientTls (Provider : Type) : Type := mkReloadable { tls_mode : SslMode; tls_provider : Provider }.
Arguments mkReloadable {Provider}. Arguments tls_mode {Provider}. Arguments tls_provider {Provider}.
Definition libpq {Provider} (mode : SslMode) (provider : Provider) : ReloadableClientTls Provider := mkReloadable mode provider.

Class ClientTlsConfiguration (Tls Provider : Type) : Type := configured : Tls -> option (SslMode * Provider).
#[export] Instance disabled_configuration : ClientTlsConfiguration ClientTlsPolicy unit := fun _ => None.
#[export] Instance reloadable_configuration {Provider} : ClientTlsConfiguration (ReloadableClientTls Provider) Provider :=
  fun tls => Some (tls_mode tls, tls_provider tls).

Record ClientTlsConfig `{Rustls} : Type := mkTlsConfig { config_server_name : ServerName; config_roots : RootCertStore }.

Class ClientTlsProvider `{Rustls} (Provider Error World : Type) : Type :=
  provider_resolve : Provider -> ConnectTarget -> World -> result ClientTlsConfig Error * World.
#[export] Instance unit_provider `{Rustls} {World} : ClientTlsProvider unit Empty_set World := fun _ _ w => (Panic, w).

Inductive ClientTlsError (ProviderError : Type) : Type :=
| Tls_Provider (error : ProviderError)
| Tls_Handshake (error : io_error).
Arguments Tls_Provider {ProviderError}. Arguments Tls_Handshake {ProviderError}.

Section Transports.
Context `{TlsLibrary} {T : Type}.

Inductive ClientTransport : Type :=
| CT_Plain (stream : T)
| CT_Tls (stream : ClientTls T).

#[export] Instance ClientTransport_io `{AsyncIo T} : AsyncIo ClientTransport := {|
  poll_read t := match t with CT_Plain s => delegate CT_Plain poll_read s | CT_Tls s => delegate CT_Tls poll_read s end;
  poll_read_u8 t :=
    match t with CT_Plain s => delegate CT_Plain poll_read_u8 s | CT_Tls s => delegate CT_Tls poll_read_u8 s end;
  poll_write offered t :=
    match t with
    | CT_Plain s => delegate CT_Plain (poll_write offered) s
    | CT_Tls s => delegate CT_Tls (poll_write offered) s
    end;
  poll_flush t := match t with CT_Plain s => delegate CT_Plain poll_flush s | CT_Tls s => delegate CT_Tls poll_flush s end
|}.
End Transports.
Arguments ClientTransport {_ _} T.

(** ** Authentication policies *)

Inductive ClientAuthenticationChallenge : Type :=
| Ch_CleartextPassword
| Ch_Md5Password (salt : bytes)
| Ch_Sasl (mechanisms : list bytes)
| Ch_SaslContinue (challenge : bytes)
| Ch_SaslFinal (server_final : bytes)
| Ch_Gss
| Ch_Sspi
| Ch_KerberosV5
| Ch_TokenContinue (token : bytes).

Inductive ClientAuthenticationResponse : Type :=
| Re_Password (password : bytes)
| Re_SaslInitial (mechanism response : bytes)
| Re_Sasl (response : bytes)
| Re_Token (token : bytes)
| Re_Verified.

(** The policy's futures run in the application's world. *)
Class ClientAuthenticationSession (Session Evidence Error World : Type) : Type := {
  session_respond : ClientAuthenticationChallenge -> Session -> World ->
    result ClientAuthenticationResponse Error * (Session * World);
  session_authenticated : Session -> World -> result Evidence Error * World
}.
Class ClientAuthentication (Authentication Session Error World : Type) : Type :=
  authentication_begin : Authentication -> ConnectTarget -> World -> result Session Error * World.

Inductive ClientAuthenticationError (PolicyError : Type) : Type :=
| CA_Policy (error : PolicyError)
| CA_Rejected
| CA_InvalidResponse.
Arguments CA_Policy {PolicyError}. Arguments CA_Rejected {PolicyError}. Arguments CA_InvalidResponse {PolicyError}.

Inductive AuthenticationDriveError (PolicyError : Type) : Type :=
| Drive_Policy (error : PolicyError)
| Drive_Rejected
| Drive_InvalidResponse
| Drive_Protocol (error : io_error).
Arguments Drive_Policy {PolicyError}. Arguments Drive_Rejected {PolicyError}.
Arguments Drive_InvalidResponse {PolicyError}. Arguments Drive_Protocol {PolicyError}.

Inductive TrustClientAuthentication : Type := mkTrustClient.
#[export] Instance trust_authentication {World}
    : ClientAuthentication TrustClientAuthentication TrustClientAuthentication Empty_set World := fun t _ w => (Ok t, w).
#[export] Instance trust_session {World} : ClientAuthenticationSession TrustClientAuthentication unit Empty_set World := {
  session_respond _ t w := (Ok Re_Verified, (t, w));
  session_authenticated _ w := (Ok tt, w)
}.

(** *** Static credentials *)

(** [rand::rng().fill] of [n] bytes. *)
Class Rng (World : Type) : Type := fill : nat -> World -> bytes * World.

(** postgres_protocol's SCRAM client; [scram_new] draws its nonce. *)
Class ScramClient (World : Type) : Type := {
  ScramSha256 : Type;
  scram_new : bytes -> World -> ScramSha256 * World;
  scram_message : ScramSha256 -> bytes;
  scram_update : bytes -> ScramSha256 -> io unit * ScramSha256;
  scram_finish : bytes -> ScramSha256 -> io unit * ScramSha256
}.

Record StaticClientCredentials : Type := mkClientCredentials { credentials_username : bytes; credentials_password : bytes }.

Inductive StaticCredentialError : Type :=
| UnsupportedAuthentication
| InvalidChallengeSequence
| ScramFailed (error : io_error)
| AuthenticationFailed.

Section StaticCredentials.
Context `{Crypto} {World : Type} `{ScramClient World}.

Record StaticClientCredentialSession : Type := mkCredentialSession {
  session_username : bytes;
  session_password : bytes;
  session_scram : option ScramSha256
}.

Definition set_scram (scram : ScramSha256) (s : StaticClientCredentialSession) : StaticClientCredentialSession :=
  mkCredentialSession (session_username s) (session_password s) (Some scram).

(** [self.scram.as_mut().ok_or(..)?], then a fallible step of it. *)
Definition advance_scram (step : ScramSha256 -> io unit * ScramSha256) (answer : ScramSha256 -> ClientAuthenticationResponse)
    (s : StaticClientCredentialSession) : result ClientAuthenticationResponse StaticCredentialError * StaticClientCredentialSession :=
  match session_scram s with
  | None => (Err InvalidChallengeSequence, s)
  | Some scram =>
      let (r, scram) := step scram in
      (let? _ := map_err ScramFailed r in Ok (answer scram), set_scram scram s)
  end.

Definition static_respond (challenge : ClientAuthenticationChallenge) (s : StaticClientCredentialSession) (w : World)
    : result ClientAuthenticationResponse StaticCredentialError * (StaticClientCredentialSession * World) :=
  match challenge with
  | Ch_CleartextPassword => (Ok (Re_Password (session_password s)), (s, w))
  | Ch_Md5Password salt => (Ok (Re_Password (md5_response (session_username s) (session_password s) salt)), (s, w))
  | Ch_Sasl mechanisms =>
      if decide (SCRAM_SHA_256 ∈ mechanisms) then
        let (scram, w) := scram_new (session_password s) w in
        (Ok (Re_SaslInitial SCRAM_SHA_256 (scram_message scram)), (set_scram scram s, w))
      else (Err UnsupportedAuthentication, (s, w))
  | Ch_SaslContinue message =>
      let (r, s) := advance_scram (scram_update message) (fun scram => Re_Sasl (scram_message scram)) s in (r, (s, w))
  | Ch_SaslFinal message => let (r, s) := advance_scram (scram_finish message) (fun _ => Re_Verified) s in (r, (s, w))
  | _ => (Err UnsupportedAuthentication, (s, w))
  end.

#[export] Instance static_authentication
    : ClientAuthentication StaticClientCredentials StaticClientCredentialSession StaticCredentialError World :=
  fun c _ w => (Ok (mkCredentialSession (credentials_username c) (credentials_password c) None), w).
#[export] Instance static_session : ClientAuthenticationSession StaticClientCredentialSession unit StaticCredentialError World := {
  session_respond := static_respond;
  session_authenticated _ w := (Ok tt, w)
}.
End StaticCredentials.

(** ** The component and its builder *)

Inductive BuildError : Type := MissingConnector | MissingTls | MissingAuthentication.

Inductive IdentityHandler : Type := mkIdentityHandler.
#[export] Instance identity_handler_factory {Context} : MiddlewareFactory IdentityHandler Context IdentityHandler := fun h _ => h.
#[export] Instance identity_handler_client {State Context} : ClientMiddleware IdentityHandler State Context := {
  client_pre_startup := default_hook;
  client_startup := default_hook;
  client_frontend := default_hook;
  client_backend := default_hook
}.

Record Client (Connector Tls Authentication Middleware : Type) : Type := mkClient {
  client_connector : Connector;
  client_tls : Tls;
  client_authentication : Authentication;
  client_defaults : StartupParameters;
  client_limits : ProtocolLimits;
  client_middleware : Middleware
}.
Arguments mkClient {Connector Tls Authentication Middleware}.
Arguments client_connector {Connector Tls Authentication Middleware}.
Arguments client_tls {Connector Tls Authentication Middleware}.
Arguments client_authentication {Connector Tls Authentication Middleware}.
Arguments client_defaults {Connector Tls Authentication Middleware}.
Arguments client_limits {Connector Tls Authentication Middleware}.
Arguments client_middleware {Connector Tls Authentication Middleware}.

Record ClientBuilder (Connector Tls Authentication Middleware : Type) : Type := mkClientBuilder {
  builder_connector : option Connector;
  builder_tls : option Tls;
  builder_authentication : option Authentication;
  builder_defaults : StartupParameters;
  builder_limits : ProtocolLimits;
  builder_middleware : Middleware
}.
Arguments mkClientBuilder {Connector Tls Authentication Middleware}.
Arguments builder_connector {Connector Tls Authentication Middleware}.
Arguments builder_tls {Connector Tls Authentication Middleware}.
Arguments builder_authentication {Connector Tls Authentication Middleware}.
Arguments builder_defaults {Connector Tls Authentication Middleware}.
Arguments builder_limits {Connector Tls Authentication Middleware}.
Arguments builder_middleware {Connector Tls Authentication Middleware}.

Definition ClientBuilder_default : ClientBuilder unit unit unit IdentityHandler :=
  mkClientBuilder None None None StartupParameters_default ProtocolLimits_default mkIdentityHandler.

Definition with_connector {Next} (connector : Next) (b : ClientBuilder unit unit unit IdentityHandler)
    : ClientBuilder Next unit unit IdentityHandler :=
  mkClientBuilder (Some connector) (builder_tls b) (builder_authentication b) (builder_defaults b) (builder_limits b)
    (builder_middleware b).

Section Builder.
Context {Connector Tls Authentication Middleware : Type}.
Implicit Types (b : ClientBuilder Connector Tls Authentication Middleware).

Definition with_tls {Next} (tls : Next) b : ClientBuilder Connector Next Authentication Middleware :=
  mkClientBuilder (builder_connector b) (Some tls) (builder_authentication b) (builder_defaults b) (builder_limits b)
    (builder_middleware b).
Definition with_authentication {Next} (authentication : Next) b : ClientBuilder Connector Tls Next Middleware :=
  mkClientBuilder (builder_connector b) (builder_tls b) (Some authentication) (builder_defaults b) (builder_limits b)
    (builder_middleware b).
Definition with_startup_parameters (defaults : StartupParameters) b : ClientBuilder Connector Tls Authentication Middleware :=
  mkClientBuilder (builder_connector b) (builder_tls b) (builder_authentication b) defaults (builder_limits b)
    (builder_middleware b).
Definition with_protocol_limits (limits : ProtocolLimits) b : ClientBuilder Connector Tls Authentication Middleware :=
  mkClientBuilder (builder_connector b) (builder_tls b) (builder_authentication b) (builder_defaults b) limits
    (builder_middleware b).
Definition with_middleware {Next} (factory : Next) b
    : ClientBuilder Connector Tls Authentication (MiddlewareChain Middleware Next) :=
  mkClientBuilder (builder_connector b) (builder_tls b) (builder_authentication b) (builder_defaults b) (builder_limits b)
    (mkChain (builder_middleware b) factory).

Definition ok_or {A E} (o : option A) (e : E) : result A E := match o with Some a => Ok a | None => Err e end.

Definition build b : result (Client Connector Tls Authentication Middleware) BuildError :=
  let? connector := ok_or (builder_connector b) MissingConnector in
  let? tls := ok_or (builder_tls b) MissingTls in
  let? authentication := ok_or (builder_authentication b) MissingAuthentication in
  Ok (mkClient connector tls authentication (builder_defaults b) (builder_limits b) (builder_middleware b)).
End Builder.

(** ** Establishment *)

Inductive ConnectError (ConnectorError TlsError AuthenticationError : Type) : Type :=
| Connect_Connector (error : ConnectorError)
| Connect_Tls (error : TlsError)
| Connect_Authentication (error : AuthenticationError)
| Connect_Startup (error : StartupParameterError)
| Connect_Protocol (error : io_error).
Arguments Connect_Connector {ConnectorError TlsError AuthenticationError}.
Arguments Connect_Tls {ConnectorError TlsError AuthenticationError}.
Arguments Connect_Authentication {ConnectorError TlsError AuthenticationError}.
Arguments Connect_Startup {ConnectorError TlsError AuthenticationError}.
Arguments Connect_Protocol {ConnectorError TlsError AuthenticationError}.

Inductive SessionEstablishError (AuthenticationError : Type) : Type :=
| Establish_Authentication (error : ClientAuthenticationError AuthenticationError)
| Establish_Protocol (error : io_error).
Arguments Establish_Authentication {AuthenticationError}. Arguments Establish_Protocol {AuthenticationError}.

Definition session_authentication_error {Error} (error : AuthenticationDriveError Error) : SessionEstablishError Error :=
  match error with
  | Drive_Policy error => Establish_Authentication (CA_Policy error)
  | Drive_Rejected => Establish_Authentication CA_Rejected
  | Drive_InvalidResponse => Establish_Authentication CA_InvalidResponse
  | Drive_Protocol error => Establish_Protocol error
  end.

Definition map_session_error {ConnectorError TlsError AuthenticationError}
    (error : SessionEstablishError AuthenticationError)
    : ConnectError ConnectorError TlsError (ClientAuthenticationError AuthenticationError) :=
  match error with
  | Establish_Authentication error => Connect_Authentication error
  | Establish_Protocol error => Connect_Protocol error
  end.

Definition replace_session_item (item : SessionItem) (replacement : BackendMessage) : option SessionItem :=
  match item, replacement with
  | Item_Message _, message => Some (Item_Message message)
  | Item_ReadyForQuery _ parameters_changed, B_ReadyForQuery status => Some (Item_ReadyForQuery status parameters_changed)
  | Item_CommandComplete _ command notices, B_CommandComplete tag => Some (Item_CommandComplete tag command notices)
  | _, _ => None
  end.

(** What an establishment changes: the handler, the user state, and the world
    the connector, the TLS provider and the policy run in. *)
Record ClientEnv (H State World : Type) : Type := mkEnv { env_handler : H; env_state : State; env_world : World }.
Arguments mkEnv {H State World}. Arguments env_handler {H State World}. Arguments env_state {H State World}.
Arguments env_world {H State World}.

Section Drive.
Context `{Profile : BuildProfile}.
Context {H State World Evidence Session PolicyError : Type}.
Abbreviation Context_ := (ClientConnectionContext Evidence).
Context `{ClientMiddleware H State Context_} `{ClientAuthenticationSession Session Evidence PolicyError World}.
Abbreviation Env := (ClientEnv H State World).

(** [handler.hook(context, state, message)] *)
Definition intercept {E Msg} (on : hook H Context_ State Msg) (context : Context_) (message : Msg) : M Env E Msg :=
  fun env =>
    let '(message, (h, st)) := on (env_handler env) context (env_state env) message in
    (Some (Ok message), mkEnv h st (env_world env)).

Definition in_world {E A} (op : World -> result A E * World) : M Env E A := fun env =>
  let (r, w) := op (env_world env) in (Some r, mkEnv (env_handler env) (env_state env) w).

(** [policy.respond(challenge).await.map_err(Policy)?] with [c] in scope. *)
Definition ask {T} {Ph : Type} {P : Ph} {C} (c : Conn T P C) (policy : Session) (challenge : ClientAuthenticationChallenge)
    : M Env (AuthenticationDriveError PolicyError) (ClientAuthenticationResponse * Session) := fun env =>
  match session_respond challenge policy (env_world env) with
  | (Ok response, (policy, w)) => (Some (Ok (response, policy)), mkEnv (env_handler env) (env_state env) w)
  | (Err error, (_, w)) => raise_dropping c (Drive_Policy error) (mkEnv (env_handler env) (env_state env) w)
  | (Panic, (_, w)) => (Some Panic, mkEnv (env_handler env) (env_state env) w)
  end.

(** [intercept_auth_response(..).map_err(|_| InvalidResponse)?] with [c] in scope. *)
Definition intercept_auth_response {T} {Ph : Type} {P : Ph} {C} (c : Conn T P C) (context : Context_) (response : bytes)
    : M Env (AuthenticationDriveError PolicyError) bytes :=
  do message <- intercept client_frontend context (F_PasswordResponse response);
  match message with
  | F_PasswordResponse response => ret response
  | _ => raise_dropping c Drive_InvalidResponse
  end.

Section Exchanges.
Context {T : Type} `{AsyncIo T} (fuel : nat) (context : Context_).
Abbreviation Authenticated := (AuthConn (Buffered T) AP.AwaitingStartupReady).
Abbreviation Drive A := (M Env (AuthenticationDriveError PolicyError) A).

(** Receive one message through the middleware; an error drops the connection. *)
Definition receive_intercepted {Ph : Type} {P : Ph} (c : Conn (Buffered T) P Pristine)
    : Drive (BackendMessage * Conn (Buffered T) P Pristine) :=
  do (message, c) <- or_drop Drive_Protocol (receive_backend_wire fuel) c;
  do message <- intercept client_backend context message;
  ret (message, c).

(** [match awaiting.offer(message)] *)
Definition offer_completion (illegal : string) (awaiting : AuthConn (Buffered T) AP.AwaitingAuthOk)
    (message : BackendMessage) : Drive Authenticated :=
  match completion_offer awaiting message with
  | Ok (Completion_Ok connection) => ret connection
  | Ok (Completion_Error conn _) => abort conn Drive_Rejected
  | Err (conn, _) => abort conn (Drive_Protocol (Wire.invalid illegal))
  | Panic => panic
  end.

Definition complete_password (connection : AuthConn (Buffered T) AP.PasswordResponse)
    (challenge : ClientAuthenticationChallenge) (policy : Session) : Drive (Authenticated * Session) :=
  do (response, policy) <- ask connection policy challenge;
  match response with
  | Re_Password password =>
      do password <- intercept_auth_response connection context password;
      do (awaiting, frame) <- transition_or_drop Drive_Protocol connection (Auth.password connection password);
      do awaiting <- send_or_drop Drive_Protocol fuel frame awaiting;
      do (message, awaiting) <- receive_intercepted awaiting;
      do connection <- offer_completion "illegal authentication completion" awaiting message;
      ret (connection, policy)
  | _ => abort connection Drive_InvalidResponse
  end.

Fixpoint sasl_loop (rounds : nat) (sasl : AuthConn (Buffered T) AP.Sasl) (policy : Session) : Drive (Authenticated * Session) :=
  match rounds with
  | O => unfinished
  | S rounds =>
      do (message, sasl) <- receive_intercepted sasl;
      match sasl_offer_backend sasl message with
      | Ok (Sasl_Continue conn challenge) =>
          do (response, policy) <- ask conn policy (Ch_SaslContinue challenge);
          match response with
          | Re_Sasl response =>
              do response <- intercept_auth_response conn context response;
              let (next, frame) := sasl_respond conn response in
              do next <- send_or_drop Drive_Protocol fuel frame next;
              sasl_loop rounds next policy
          | _ => abort conn Drive_InvalidResponse
          end
      | Ok (Sasl_Final conn server_final) =>
          do (response, policy) <- ask conn policy (Ch_SaslFinal server_final);
          match response with
          | Re_Verified =>
              let awaiting := sasl_verified conn in
              do (message, awaiting) <- receive_intercepted awaiting;
              do connection <- offer_completion "illegal SASL authentication completion" awaiting message;
              ret (connection, policy)
          | _ => abort conn Drive_InvalidResponse
          end
      | Ok (Sasl_Error conn _) => abort conn Drive_Rejected
      | Err (conn, _) => abort conn (Drive_Protocol (Wire.invalid "illegal SASL authentication message"))
      | Panic => panic
      end
  end.

Definition complete_sasl (connection : AuthConn (Buffered T) AP.SaslInitial) (mechanisms : list bytes) (policy : Session)
    : Drive (Authenticated * Session) :=
  do (response, policy) <- ask connection policy (Ch_Sasl mechanisms);
  match response with
  | Re_SaslInitial mechanism response =>
      do response <- intercept_auth_response connection context response;
      do (sasl, frame) <- transition_or_drop Drive_Protocol connection (Auth.sasl connection mechanism response);
      do sasl <- send_or_drop Drive_Protocol fuel frame sasl;
      sasl_loop fuel sasl policy
  | _ => abort connection Drive_InvalidResponse
  end.

Fixpoint token_loop (rounds : nat) (waiting : AuthConn (Buffered T) AP.TokenChallenge) (policy : Session)
    : Drive (Authenticated * Session) :=
  match rounds with
  | O => unfinished
  | S rounds =>
      do (message, waiting) <- receive_intercepted waiting;
      match token_offer waiting message with
      | Ok (Token_Continue conn token) =>
          do (response, policy) <- ask conn policy (Ch_TokenContinue token);
          match response with
          | Re_Token token =>
              do token <- intercept_auth_response conn context token;
              let (next, frame) := token_respond conn token in
              do next <- send_or_drop Drive_Protocol fuel frame next;
              token_loop rounds next policy
          | _ => abort conn Drive_InvalidResponse
          end
      | Ok (Token_Ok connection) => ret (connection, policy)
      | Ok (Token_Error conn _) => abort conn Drive_Rejected
      | Err (conn, _) => abort conn (Drive_Protocol (Wire.invalid "illegal token authentication message"))
      | Panic => panic
      end
  end.

Definition complete_token (connection : AuthConn (Buffered T) AP.TokenResponse)
    (challenge : ClientAuthenticationChallenge) (policy : Session) : Drive (Authenticated * Session) :=
  do (response, policy) <- ask connection policy challenge;
  match response with
  | Re_Token token =>
      do token <- intercept_auth_response connection context token;
      let (waiting, frame) := token_respond connection token in
      do waiting <- send_or_drop Drive_Protocol fuel frame waiting;
      token_loop fuel waiting policy
  | _ => abort connection Drive_InvalidResponse
  end.

(** *** The session *)

Abbreviation Establish A := (M Env (SessionEstablishError PolicyError) A).

(** A message that is illegal but names no source is passed over. *)
Fixpoint auth_loop (rounds : nat) (authentication : AuthConn (Buffered T) AP.Auth) (policy : Session)
    : Establish (Authenticated * Session) :=
  match rounds with
  | O => unfinished
  | S rounds =>
      do (message, authentication) <- or_abort Establish_Protocol (receive_backend_wire fuel) authentication;
      do message <- intercept client_backend context message;
      match auth_offer_backend authentication message with
      | Ok (Event_Authentication (Auth_Ok connection)) => ret (connection, policy)
      | Ok (Event_Negotiate conn _) => auth_loop rounds conn policy
      | Ok (Event_Authentication (Auth_Cleartext connection)) =>
          wrap_error session_authentication_error (complete_password connection Ch_CleartextPassword policy)
      | Ok (Event_Authentication (Auth_Md5 conn salt)) =>
          wrap_error session_authentication_error (complete_password conn (Ch_Md5Password salt) policy)
      | Ok (Event_Authentication (Auth_Sasl conn mechanisms)) =>
          wrap_error session_authentication_error (complete_sasl conn mechanisms policy)
      | Ok (Event_Authentication (Auth_Gss conn)) =>
          wrap_error session_authentication_error (complete_token conn Ch_Gss policy)
      | Ok (Event_Authentication (Auth_Sspi conn)) =>
          wrap_error session_authentication_error (complete_token conn Ch_Sspi policy)
      | Ok (Event_Authentication (Auth_KerberosV5 conn)) =>
          wrap_error session_authentication_error (complete_token conn Ch_KerberosV5 policy)
      | Ok (Event_Error conn _) => abort conn (Establish_Authentication CA_Rejected)
      | Err (conn, _, Some source) => abort conn (Establish_Protocol source)
      | Err (conn, _, None) => auth_loop rounds conn policy
      | Panic => panic
      end
  end.

Definition observed_key (item : SessionItem) (backend_key : option CancelKey) : option CancelKey :=
  match into_backend_message item with
  | B_BackendKeyData process_id secret_key => Some (mkCancelKey process_id secret_key)
  | _ => backend_key
  end.

Fixpoint ready_loop (rounds : nat) (awaiting_ready : Authenticated) (backend_key : option CancelKey)
    : Establish (AuthConn (Buffered T) SP.Ready * option CancelKey) :=
  match rounds with
  | O => unfinished
  | S rounds =>
      do (item, awaiting_ready) <- or_abort Establish_Protocol (conn_receive fuel) awaiting_ready;
      let backend_key := observed_key item backend_key in
      do replacement <- intercept client_backend context (into_backend_message item);
      match replace_session_item item replacement with
      | None =>
          abort awaiting_ready (Establish_Protocol
            (Wire.invalid "middleware replacement during startup readiness is not phase-compatible"))
      | Some item =>
          match offer_ready awaiting_ready item with
          | Ok ready => ret (ready, backend_key)
          | Err (connection, Item_Message _) => ready_loop rounds connection backend_key
          | Err (connection, _) =>
              abort connection (Establish_Protocol (Wire.invalid "startup did not reach an idle operational phase"))
          | Panic => panic
          end
      end
  end.

Definition establish_client_session {Authentication} `{ClientAuthentication Authentication Session PolicyError World}
    (transport : T) (startup_message : StartupMessage) (target : ConnectTarget) (authentication_policy : Authentication)
    (max_frame_len : Z) : Establish (AuthConn (Buffered T) SP.Ready * Evidence * option CancelKey) :=
  do policy <- wrap_error (fun error => Establish_Authentication (CA_Policy error))
                 (in_world (authentication_begin authentication_policy target));
  do buffered <- wrap_error Establish_Protocol (of_result (Buffered_with_max_frame_len transport max_frame_len));
  do (startup_connection, packet) <- transition_or_drop Establish_Protocol (Conn_new buffered)
                                       (startup (Conn_new buffered) startup_message);
  do startup_connection <- wrap_error Establish_Protocol (of_result (push_startup_packet packet startup_connection));
  let authentication := begin_authentication startup_connection in
  do (_, authentication) <- or_abort Establish_Protocol (conn_flush fuel) authentication;
  do (awaiting_ready, policy) <- auth_loop fuel authentication policy;
  do (ready, backend_key) <- ready_loop fuel awaiting_ready None;
  do evidence <- outcome (in_world (session_authenticated policy));
  match evidence with
  | Ok evidence => ret (ready, evidence, backend_key)
  | Err error => raise_dropping ready (Establish_Authentication (CA_Policy error))
  | Panic => panic
  end.
End Exchanges.

(** *** Encryption *)

Section Encryption.
Context `{TlsLibrary} `{Certificates} {T : Type} `{AsyncIo T} (fuel : nat).
Context {Provider ProviderError : Type} `{!ClientTlsProvider Provider ProviderError World}.
Abbreviation Tls A := (M Env (ClientTlsError ProviderError) A).

Definition handshake_error {A} (kind : ErrorKind) (text : string) : Tls A := raise (Tls_Handshake (mkError kind text)).

Definition negotiate_client_tls (transport : T) (mode : SslMode) (provider : Provider) (target : ConnectTarget)
    (context : Context_) : Tls (ClientTransport T * Context_) :=
  if negb (request_on_first_connection (strategy mode)) then
    ret (CT_Plain transport, set_tls (Some Status_Plaintext) context)
  else
    do request <- intercept client_pre_startup context SslRequest;
    match request with
    | SslRequest =>
        do (_, transport) <- on_stream Tls_Handshake (write_all fuel ssl_request_packet transport);
        do (_, transport) <- on_stream Tls_Handshake (await_poll poll_flush fuel transport);
        do (reply, transport) <- on_stream Tls_Handshake (await_poll poll_read_u8 fuel transport);
        match reply with
        | x53 (* S *) =>
            do resolved <- wrap_error Tls_Provider (in_world (provider_resolve provider target));
            let config := client_config mode (config_roots resolved) in
            do stream <- wrap_error Tls_Handshake (of_result (tls_connect transport (config_server_name resolved) config));
            ret (CT_Tls stream, set_tls (Some Status_Encrypted) context)
        | x4e (* N *) =>
            if allow_server_rejection (strategy mode)
            then ret (CT_Plain transport, set_tls (Some Status_Plaintext) context)
            else handshake_error PermissionDenied "server rejected required TLS"
        | x45 (* E *) => handshake_error ConnectionAborted "server terminated TLS negotiation"
        | _ => handshake_error InvalidData "invalid TLS negotiation response"
        end
    | _ => handshake_error InvalidData "middleware replaced SSLRequest with an incompatible packet"
    end.
End Encryption.
End Drive.

(** *** Connecting *)

(** [Fn(&ConnectTarget) -> Future<Output = Result<Transport, Error>>] *)
Abbreviation Connector T Error World := (ConnectTarget -> World -> result T Error * World).

Section Connect.
Context {H State World Evidence Session PolicyError T ConnectorError Tls Provider ProviderError Authentication Factory : Type}.
Context `{Profile : BuildProfile} `{TlsLibrary} `{Certificates}.
Context `{AsyncIo T}.
Context `{!ClientMiddleware H State (ClientConnectionContext Evidence)} `{!MiddlewareFactory Factory ClientInitialContext H}.
Context `{!ClientAuthentication Authentication Session PolicyError World}.
Context `{!ClientAuthenticationSession Session Evidence PolicyError World}.
Context `{!ClientTlsConfiguration Tls Provider} `{!ClientTlsProvider Provider ProviderError World}.
Context (fuel : nat) (client : Client (Connector T ConnectorError World) Tls Authentication Factory).

Abbreviation Context_ := (ClientConnectionContext Evidence).
Abbreviation Env := (ClientEnv H State World).
Abbreviation Error := (ConnectError ConnectorError (ClientTlsError ProviderError) (ClientAuthenticationError PolicyError)).
Abbreviation Core := (RoleCore (AuthConn (Buffered (ClientTransport T)) SP.Ready) H Context_).

Definition open_transport (target : ConnectTarget) : M Env Error T :=
  wrap_error Connect_Connector (in_world (client_connector client target)).

Definition negotiate (transport : T) (mode : SslMode) (provider : Provider) (target : ConnectTarget) (context : Context_)
    : M Env Error (ClientTransport T * Context_) :=
  wrap_error Connect_Tls (negotiate_client_tls fuel transport mode provider target context).

Definition establish (transport : ClientTransport T) (startup : StartupMessage) (target : ConnectTarget) (context : Context_)
    : M Env (SessionEstablishError PolicyError)
        (AuthConn (Buffered (ClientTransport T)) SP.Ready * Evidence * option CancelKey) :=
  establish_client_session fuel context transport startup target (client_authentication client)
    (limit_frame_len (client_limits client)).

(** The second attempt of [SslMode::Allow]. *)
Definition retry_encrypted (provider : Provider) (startup : StartupMessage) (target : ConnectTarget) (context : Context_)
    : M Env Error (AuthConn (Buffered (ClientTransport T)) SP.Ready * Evidence * option CancelKey * Context_) :=
  do transport <- open_transport target;
  let context := set_tls None context in
  do (transport, context) <- negotiate transport Require_ provider target context;
  do retry_startup <- intercept client_startup context startup;
  do session <- wrap_error map_session_error (establish transport retry_startup target context);
  ret (session, context).

(** After the handler has been created. *)
Definition connect_steps (target : ConnectTarget) (overrides : StartupParameters) : M Env Error Core :=
  do startup <- wrap_error Connect_Startup (of_result (into_message (merged_with (client_defaults client) overrides)));
  let context := mkClientContext target None None None in
  do transport <- open_transport target;
  let configured_tls := configured (client_tls client) in
  do (transport, context) <-
    match configured_tls with
    | None => ret (CT_Plain transport, set_tls (Some Status_Plaintext) context)
    | Some (mode, provider) => negotiate transport mode provider target context
    end;
  do first_startup <- intercept client_startup context startup;
  do first <- outcome (establish transport first_startup target context);
  let retry_provider :=
    match configured_tls, first with
    | Some (Allow, provider), Err _ => Some provider
    | _, _ => None
    end in
  do (ready, identity, backend_key, context) <-
    match retry_provider with
    | Some provider => retry_encrypted provider startup target context
    | None => do session <- wrap_error map_session_error (of_result first); ret (session, context)
    end;
  fun env =>
    (Some (Ok (mkCore ready (env_handler env)
       (mkClientContext (context_target context) (context_tls context) (Some identity) backend_key))), env).

(** The state and the world survive every failure. *)
Definition connect_core (target : ConnectTarget) (overrides : StartupParameters) (st : State) (w : World)
    : option (result Core Error) * (State * World) :=
  let handler := create (client_middleware client) (mkInitialContext target) in
  let (r, env) := connect_steps target overrides (mkEnv handler st w) in (r, (env_state env, env_world env)).

(** [ClientConnection]: its cleanliness is [ConnectionClean] or [ConnectionChanged],
    and the typed connection's marker follows it. *)
Definition connect (target : ConnectTarget) (overrides : StartupParameters) (st : State) (w : World)
    : option (result (Core * State) Error) * World :=
  let '(r, (st, w)) := connect_core target overrides st w in
  (result_map (fun core =>
     (mkCore (transition (core_conn core)) (core_handler core) (core_context core), st)) <$> r, w).

(** *** Cancelling *)

(** [AsyncWrite::poll_shutdown] *)
Class AsyncShutdown (S : Type) : Type := poll_shutdown : S -> Poll (io unit) * S.

Inductive CancelError : Type :=
| Cancel_Connector (error : ConnectorError)
| Cancel_Protocol (error : io_error).

(** The final transport is part of the outcome. *)
Definition cancel `{AsyncShutdown T} (target : ConnectTarget) (key : CancelKey) : M World CancelError T :=
  do transport <- (fun w => let (r, w) := client_connector client target w in (Some (map_err Cancel_Connector r), w));
  do packet <- wrap_error Cancel_Protocol (of_result (to_packet (CancelRequest (key_process_id key) (key_secret key))));
  do (_, transport) <- on_stream Cancel_Protocol (write_all fuel packet transport);
  do (_, transport) <- on_stream Cancel_Protocol (await_poll poll_shutdown fuel transport);
  ret transport.
End Connect.

(** ** The operational connection *)

Section Operational.
Context `{Profile : BuildProfile} {T H State Evidence : Type} `{AsyncIo T}.
Context `{!ClientMiddleware H State (ClientConnectionContext Evidence)} {C : Cleanliness} (fuel : nat).
Abbreviation Core C := (RoleCore (Conn (Buffered T) SP.Ready C) H (ClientConnectionContext Evidence)).

Definition client_receive_wire (core : Core C) (st : State) : option (io BackendMessage) * (Core C * State) :=
  match receive_backend_wire fuel (core_conn core) with
  | (Some (Ok message), c) =>
      let '(message, (core, st)) := core_intercept client_backend st message (mkCore c (core_handler core) (core_context core)) in
      (Some (Ok message), (core, st))
  | (Some (Err e), c) => (Some (Err e), (mkCore c (core_handler core) (core_context core), st))
  | (Some Panic, c) => (Some Panic, (mkCore c (core_handler core) (core_context core), st))
  | (None, c) => (None, (mkCore c (core_handler core) (core_context core), st))
  end.

Definition client_into_parts (core : Core C) (st : State) : io (T * State * H * ClientConnectionContext Evidence) :=
  let? b := into_transport (core_conn core) in
  Ok (stream b, st, core_handler core, core_context core).

Definition core_pop_parameter_status (core : Core C) : io (option BackendMessage) * Core C :=
  match transport (core_conn core) with
  | Some b =>
      let (status, d) := pop_parameter_status (demux b) in
      (Ok (match status with
           | Some status => Some (B_ParameterStatus (status_name status) (status_value status))
           | None => None
           end),
       mkCore (mkConn (Some (set_demux d b))) (core_handler core) (core_context core))
  | None => (Panic, core)
  end.

(** *** Simple queries *)

(** [QueryError(io::Error)] is the error itself. *)
Record QueryEnv : Type := mkQueryEnv { query_handler : H; query_state : State }.
Abbreviation Query A := (M QueryEnv io_error A).

Definition query_intercept {Msg} (on : hook H (ClientConnectionContext Evidence) State Msg)
    (context : ClientConnectionContext Evidence) (message : Msg) : Query Msg := fun env =>
  let '(message, (h, st)) := on (query_handler env) context (query_state env) message in
  (Some (Ok message), mkQueryEnv h st).

Definition other (text : string) : io_error := mkError Other text.

Fixpoint query_loop (rounds : nat) (context : ClientConnectionContext Evidence)
    (query_connection : Conn (Buffered T) SP.SimpleQuery Dirty) (messages : list BackendMessage)
    : Query (Conn (Buffered T) SP.Ready Dirty * list BackendMessage) :=
  match rounds with
  | O => unfinished
  | S rounds =>
      do (item, query_connection) <- or_abort (fun error => error) (conn_receive fuel) query_connection;
      do observed <- query_intercept client_backend context (into_backend_message item);
      match replace_session_item item observed with
      | None =>
          abort query_connection
            (Wire.invalid "middleware replacement during simple query is not phase-compatible")
      | Some item =>
          let messages := messages ++ [observed] in
          match offer_simple query_connection item with
          | Ok (Simple_Continue connection _) => query_loop rounds context connection messages
          | Ok (Simple_Ready (RS_Clean connection)) => ret (transition connection, messages)
          | Ok (Simple_Ready (RS_Dirty connection _ _)) => ret (transition connection, messages)
          | Ok (Simple_Error connection _) => abort connection (other "backend rejected simple query")
          | Ok (Simple_CopyIn connection _) => abort connection (other "simple query entered COPY IN")
          | Ok (Simple_CopyOut connection _) => abort connection (other "simple query entered COPY OUT")
          | Ok (Simple_CopyBoth connection _) => abort connection (other "simple query entered COPY BOTH")
          | Err (connection, _) => abort connection (Wire.invalid "illegal simple-query response")
          | Panic => panic
          end
      end
  end.

Definition simple_query (core : Core C) (query : bytes)
    : Query (RoleCore (Conn (Buffered T) SP.Ready Dirty) H (ClientConnectionContext Evidence) * list BackendMessage) :=
  let connection := core_conn core in
  let context := core_context core in
  do outbound <- query_intercept client_frontend context (F_Query query);
  match outbound with
  | F_Query query =>
      do (query_connection, frame) <- transition_or_drop (fun error => error) connection (push_query connection query);
      do (_, query_connection) <- or_abort (fun error => error) (push_frame frame) query_connection;
      do (_, query_connection) <- or_abort (fun error => error) (conn_flush fuel) query_connection;
      do (connection, messages) <- query_loop fuel context query_connection [];
      fun env => (Some (Ok (mkCore connection (query_handler env) context, messages)), env)
  | _ => abort connection (Wire.invalid "middleware replaced Query with an incompatible message")
  end.

(** On a connection with its handler and state. *)
Definition connection_simple_query (core : Core C) (st : State) (query : bytes)
    : option (io (RoleCore (Conn (Buffered T) SP.Ready Dirty) H (ClientConnectionContext Evidence) * State
        * list BackendMessage)) :=
  let (r, env) := simple_query core query (mkQueryEnv (core_handler core) st) in
  result_map (fun '(core, messages) => (core, query_state env, messages)) <$> r.
End Operational.
