(* ===== verification/TlsModel.v ===== *)
(** A small model of the TLS libraries, the cryptography and the randomness, on
    which the establishment theorems are run. *)

From Stdlib Require Import ZArith Lia String.
From Stdlib Require Import Init.Byte.
From stdpp Require Import prelude.
From S2P Require Import Prelude Wire Frame Startup Transport Scram ScramSpec Tls Establish EstablishProofs ClientComponent.

Local Open Scope string_scope.
Local Open Scope Z_scope.
Local Open Scope list_scope.

Module TlsModel.

(** The one certificate of the peer; a root store lists the certificates it
    vouches for, and the host name is part of the certificate. *)
Definition leaf : bytes := str "db.example".
Definition vouch (ok : bool) : result unit string := if ok then Ok tt else Err "UnknownIssuer".

#[export] Instance rustls : Rustls := {|
  RootCertStore := list bytes; ServerName := bytes; UnixTime := unit; TlsError := string;
  WebPkiSupportedAlgorithms := unit; ParsedCertificate := bytes; WebPkiServerVerifier := list bytes;
  signature_verification_algorithms := tt;
  parse_certificate certificate := Ok certificate;
  verify_signed_by_trust_anchor certificate roots _ _ _ := vouch (bool_decide (certificate ∈ roots));
  build_verifier roots := match roots with [] => Err "no roots" | _ => Ok roots end;
  general_error text := text;
  webpki_verifier roots := roots;
  webpki_verify roots certificate _ name _ := vouch (bool_decide (certificate ∈ roots) && bool_decide (name = certificate))
|}.

#[export] Instance certificates : Certificates := {|
  X509 := bytes;
  from_der certificate := match certificate with [] => Err "empty" | _ => Ok certificate end;
  pss_hash_oid _ := None;
  signature_algorithm_oid _ := "1.2.840.113549.1.1.11";
  sha256_digest certificate := certificate;
  sha384_digest certificate := certificate ++ certificate;
  sha512_digest certificate := certificate ++ certificate ++ certificate
|}.

#[export] Instance library : TlsLibrary := {|
  ClientStream S := S; ServerStream S := S; ServerConfig := unit;
  connector_connect S config name s :=
    match config_verify config leaf [] name tt with
    | Ok _ => Ok s
    | Err error => Err (invalid error)
    | Panic => Panic
    end;
  acceptor_accept S _ s := Ok s;
  peer_certificates S _ := Some [leaf];
  ClientStream_io S io := io;
  ServerStream_io S io := io
|}.

#[export] Instance library_laws : TlsLibraryLaws.
Proof.
  intros S config name s inner Hc. unfold connector_connect in Hc. cbn [library] in Hc.
  destruct (config_verify config leaf [] name tt) as [[]|e|] eqn:Ev; try done. now exists leaf, [], tt.
Qed.

Lemma tls_connect_total {S} config name (s : S) : tls_connect s name config <> Panic.
Proof.
  unfold tls_connect, connector_connect. cbn [library].
  destruct (config_verify config leaf [] name tt) as [[]|e|] eqn:Ev; [discriminate..|].
  exfalso. destruct config as [roots|[[] roots []]]; cbn in Ev; unfold vouch in Ev;
    repeat match type of Ev with context [if ?b then _ else _] => destruct b; cbn in Ev end; discriminate Ev.
Qed.

Lemma tls_accept_total {S} (s : S) config leaf : tls_accept s config leaf <> Panic.
Proof. unfold tls_accept. now destruct leaf. Qed.

(** The draws to come, and a SCRAM client that is never asked. *)
Abbreviation World := bytes.
#[export] Instance rng : Rng World := fun n w => (take n w, drop n w).
#[export] Instance scram : ScramClient World := {|
  ScramSha256 := unit; scram_new _ w := (tt, w); scram_message _ := [];
  scram_update _ s := (Err (invalid "no exchange"), s); scram_finish _ s := (Err (invalid "no exchange"), s)
|}.
#[export] Existing Instance Model.crypto.

(** Builds without debug assertions. *)
#[export] Instance release : BuildProfile := false.
End TlsModel.
