(* ===== verification/ClientSpec.v ===== *)
(** What connection establishment of the client role guarantees. *)

From Stdlib Require Import ZArith Lia String.
From Stdlib Require Import Init.Byte.
From stdpp Require Import prelude.
From S2P Require Import Prelude OrdMap Wire Frame Frontend Startup Backend Demux Fsm Grammar Resources PreStartup Transport Session Scram Auth RuntimeMiddleware Intermediary Tls Establish EstablishProofs ClientComponent TlsModel.

Local Open Scope string_scope.
Local Open Scope Z_scope.
Local Open Scope list_scope.
Local Open Scope establish_scope.

(** ** The offers of authentication, message by message *)

Section Offers.
Context {S : Type}.

Ltac offer_cases m :=
  destruct m; try match goal with a : Authentication |- _ => destruct a end; vm_compute; reflexivity.

Lemma completion_offer_equation (c : AuthConn S AP.AwaitingAuthOk) m : completion_offer c m =
  match m with
  | B_Authentication A_Ok => Ok (Completion_Ok (transition c))
  | B_ErrorResponse e => Ok (Completion_Error (transition c) e)
  | m => Err (c, m)
  end.
Proof. offer_cases m. Qed.

Lemma token_offer_equation (c : AuthConn S AP.TokenChallenge) m : token_offer c m =
  match m with
  | B_Authentication (A_GssContinue token) => Ok (Token_Continue (transition c) token)
  | B_Authentication A_Ok => Ok (Token_Ok (transition c))
  | B_ErrorResponse e => Ok (Token_Error (transition c) e)
  | m => Err (c, m)
  end.
Proof. offer_cases m. Qed.

Lemma sasl_offer_equation (c : AuthConn S AP.Sasl) m : sasl_offer_backend c m =
  match m with
  | B_Authentication (A_SaslContinue challenge) => Ok (Sasl_Continue (transition c) challenge)
  | B_Authentication (A_SaslFinal final) => Ok (Sasl_Final (transition c) final)
  | B_ErrorResponse e => Ok (Sasl_Error (transition c) e)
  | m => Err (c, m)
  end.
Proof. offer_cases m. Qed.

Lemma auth_offer_equation (c : AuthConn S AP.Auth) m : auth_offer_backend c m =
  match m with
  | B_Authentication A_Ok => Ok (Event_Authentication (Auth_Ok (transition c)))
  | B_Authentication A_CleartextPassword => Ok (Event_Authentication (Auth_Cleartext (transition c)))
  | B_Authentication (A_Md5Password salt) => Ok (Event_Authentication (Auth_Md5 (transition c) salt))
  | B_Authentication (A_Sasl mechanisms) => Ok (Event_Authentication (Auth_Sasl (transition c) mechanisms))
  | B_Authentication A_Gss => Ok (Event_Authentication (Auth_Gss (transition c)))
  | B_Authentication A_Sspi => Ok (Event_Authentication (Auth_Sspi (transition c)))
  | B_Authentication A_KerberosV5 => Ok (Event_Authentication (Auth_KerberosV5 (transition c)))
  | B_Authentication a => Err (c, B_Authentication a, Some continuation_early)
  | B_NegotiateProtocolVersion n => Ok (Event_Negotiate c n)
  | B_ErrorResponse e => Ok (Event_Error (transition c) e)
  | m => Err (c, m, None)
  end.
Proof. offer_cases m. Qed.
End Offers.

(** ** Policies and middleware do not panic *)

Class PolicyTotal {Session Evidence Error World : Type} `(!ClientAuthenticationSession Session Evidence Error World) : Prop := {
  respond_total challenge (s : Session) (w : World) : (session_respond challenge s w).1 <> Panic;
  authenticated_total (s : Session) (w : World) : (session_authenticated s w).1 <> Panic
}.
#[export] Instance trust_total {World} : PolicyTotal (World := World) trust_session.
Proof. now split. Qed.

Section Safety.
Context {H State World Evidence Session PolicyError : Type}.
Abbreviation Context_ := (ClientConnectionContext Evidence).
Context `{Profile : BuildProfile} `{!ClientMiddleware H State Context_}.
Context `{Policy : !ClientAuthenticationSession Session Evidence PolicyError World} `{!PolicyTotal Policy}.
Abbreviation Env := (ClientEnv H State World).

Lemma safe_intercept {E Msg} (on : hook H Context_ State Msg) context m :
  safe (Env := Env) (E := E) (intercept on context m) (fun _ => True).
Proof. intros env. unfold intercept. now destruct (on _ _ _ _) as [? []]. Qed.

Lemma safe_in_world {E A} (op : World -> result A E * World) :
  (forall w, (op w).1 <> Panic) -> safe (Env := Env) (in_world op) (fun a => exists w w', op w = (Ok a, w')).
Proof.
  intros Hp env. specialize (Hp (env_world env)). unfold in_world.
  destruct (op (env_world env)) as [[a|e|] w] eqn:Eo; cbn in *; [eauto|done..].
Qed.

Context (begun : Session -> Prop).

(** The sessions of the policy that challenges lead to. *)
Inductive challenged : Session -> Prop :=
| challenged_begun session : begun session -> challenged session
| challenged_respond session challenge (w : World) : challenged session ->
    challenged (session_respond challenge session w).2.1.

Lemma safe_ask {T} {Ph : Type} {P : Ph} {C} (c : Conn T P C) policy challenge : challenged policy ->
  safe (Env := Env) (ask c policy challenge) (fun '(_, policy) => challenged policy).
Proof using PolicyTotal0.
  intros Hc env. pose proof (challenged_respond policy challenge (env_world env) Hc) as Hnext. revert Hnext. unfold ask. pose proof (respond_total challenge policy (env_world env)) as Hp.
  destruct (session_respond challenge policy (env_world env)) as [[a|e|] [s w]]; cbn in *; intros Hnext; try done.
  apply (safe_dropping c (Drive_Policy e) (fun '(_, policy) => challenged policy)).
Qed.

Lemma safe_intercept_auth {T} {Ph : Type} {P : Ph} {C} (c : Conn T P C) context response :
  safe (Env := Env) (intercept_auth_response (PolicyError := PolicyError) c context response) (fun _ => True).
Proof.
  eapply safe_bind; [apply safe_intercept|]. intros m _. destruct m; try apply safe_dropping. now apply safe_ret.
Qed.

Section Sessions.
Context {T : Type} `{AsyncIo T} (I : T -> Prop) `{!StreamStable I} `{!StreamTotal T} (fuel : nat) (context : Context_).
Abbreviation unkeyed := (fun d => cancel_key d = None).
Abbreviation connected := (holds I unkeyed).

Lemma safe_receive_intercepted {Ph : Type} {P : Ph} (c : Conn (Buffered T) P Pristine) : connected c ->
  safe (Env := Env) (receive_intercepted (PolicyError := PolicyError) fuel context c) (fun '(_, c) => connected c).
Proof using All.
  intros Hc. eapply safe_bind; [apply (safe_or_drop I), Hc; apply (keeps_backend I)|].
  intros [m c'] Hc'. eapply safe_bind; [apply safe_intercept|]. intros m' _. now apply safe_ret.
Qed.

Lemma safe_completion illegal (c : AuthConn (Buffered T) AP.AwaitingAuthOk) m : connected c ->
  safe (Env := Env) (offer_completion (PolicyError := PolicyError) illegal c m) connected.
Proof.
  intros Hc. unfold offer_completion. rewrite completion_offer_equation.
  destruct m; try (now apply (safe_abort I unkeyed)). destruct m; try (now apply (safe_abort I unkeyed)). now apply safe_ret.
Qed.

(** The result of an exchange. *)
Abbreviation authenticated := (fun '(c, policy) => connected (c : AuthConn (Buffered T) AP.AwaitingStartupReady) /\ challenged policy).

Lemma safe_complete_password (c : AuthConn (Buffered T) AP.PasswordResponse) challenge policy : connected c -> challenged policy ->
  safe (Env := Env) (complete_password fuel context c challenge policy) authenticated.
Proof using All.
  intros Hc Hk. eapply safe_bind; [apply safe_ask, Hk|]. intros [response policy'] Hk'.
  destruct response; try (now apply (safe_abort I unkeyed)).
  eapply safe_bind; [apply safe_intercept_auth|]. intros p _.
  eapply (safe_bind _ _ (fun '(c, _) => connected c)).
  { apply safe_transition; unfold Auth.password; case_decide; try done. now intros [] [= <- <-]. }
  intros [c1 frame] Hc1. eapply safe_bind; [apply (safe_send I), Hc1|]. intros c2 Hc2.
  eapply safe_bind; [apply safe_receive_intercepted, Hc2|]. intros [m c3] Hc3.
  eapply safe_bind; [apply safe_completion, Hc3|]. intros c4 Hc4. now apply safe_ret.
Qed.

Lemma safe_sasl_loop rounds : forall (c : AuthConn (Buffered T) AP.Sasl) policy, connected c -> challenged policy ->
  safe (Env := Env) (sasl_loop fuel context rounds c policy) authenticated.
Proof using All.
  induction rounds as [|rounds IH]; intros c policy Hc Hk; cbn [sasl_loop]; [apply safe_unfinished|].
  eapply safe_bind; [apply safe_receive_intercepted, Hc|]. intros [m c1] Hc1. rewrite sasl_offer_equation.
  destruct m; try (now apply (safe_abort I unkeyed)). destruct m; try (now apply (safe_abort I unkeyed)).
  - eapply safe_bind; [apply safe_ask, Hk|]. intros [response policy'] Hk'.
    destruct response; try (now apply (safe_abort I unkeyed)).
    eapply safe_bind; [apply safe_intercept_auth|]. intros r _. cbn [sasl_respond].
    eapply safe_bind; [apply (safe_send I _ _ _ unkeyed), Hc1|]. intros c2 Hc2. now apply IH.
  - eapply safe_bind; [apply safe_ask, Hk|]. intros [response policy'] Hk'.
    destruct response; try (now apply (safe_abort I unkeyed)).
    eapply safe_bind; [apply safe_receive_intercepted, Hc1|]. intros [m c2] Hc2.
    eapply safe_bind; [apply safe_completion, Hc2|]. intros c3 Hc3. now apply safe_ret.
Qed.

Lemma safe_complete_sasl (c : AuthConn (Buffered T) AP.SaslInitial) mechanisms policy : connected c -> challenged policy ->
  safe (Env := Env) (complete_sasl fuel context c mechanisms policy) authenticated.
Proof using All.
  intros Hc Hk. eapply safe_bind; [apply safe_ask, Hk|]. intros [response policy'] Hk'.
  destruct response; try (now apply (safe_abort I unkeyed)).
  eapply safe_bind; [apply safe_intercept_auth|]. intros r _.
  eapply (safe_bind _ _ (fun '(c, _) => connected c)).
  { apply safe_transition; unfold Auth.sasl, client_sasl_initial; destruct (_ <? _); try done. now intros [] [= <- <-]. }
  intros [c1 frame] Hc1. eapply safe_bind; [apply (safe_send I), Hc1|]. intros c2 Hc2. now apply safe_sasl_loop.
Qed.

Lemma safe_token_loop rounds : forall (c : AuthConn (Buffered T) AP.TokenChallenge) policy, connected c -> challenged policy ->
  safe (Env := Env) (token_loop fuel context rounds c policy) authenticated.
Proof using All.
  induction rounds as [|rounds IH]; intros c policy Hc Hk; cbn [token_loop]; [apply safe_unfinished|].
  eapply safe_bind; [apply safe_receive_intercepted, Hc|]. intros [m c1] Hc1. rewrite token_offer_equation.
  destruct m; try (now apply (safe_abort I unkeyed)). destruct m; try (now apply (safe_abort I unkeyed)); [now apply safe_ret|].
  eapply safe_bind; [apply safe_ask, Hk|]. intros [response policy'] Hk'.
  destruct response; try (now apply (safe_abort I unkeyed)).
  eapply safe_bind; [apply safe_intercept_auth|]. intros r _. cbn [token_respond].
  eapply safe_bind; [apply (safe_send I _ _ _ unkeyed), Hc1|]. intros c2 Hc2. now apply IH.
Qed.

Lemma safe_complete_token (c : AuthConn (Buffered T) AP.TokenResponse) challenge policy : connected c -> challenged policy ->
  safe (Env := Env) (complete_token fuel context c challenge policy) authenticated.
Proof using All.
  intros Hc Hk. eapply safe_bind; [apply safe_ask, Hk|]. intros [response policy'] Hk'.
  destruct response; try (now apply (safe_abort I unkeyed)).
  eapply safe_bind; [apply safe_intercept_auth|]. intros r _. cbn [token_respond].
  eapply safe_bind; [apply (safe_send I _ _ _ unkeyed), Hc|]. intros c1 Hc1. now apply safe_token_loop.
Qed.

Lemma safe_auth_loop rounds : forall (c : AuthConn (Buffered T) AP.Auth) policy, connected c -> challenged policy ->
  safe (Env := Env) (auth_loop fuel context rounds c policy) authenticated.
Proof using All.
  induction rounds as [|rounds IH]; intros c policy Hc Hk; cbn [auth_loop]; [apply safe_unfinished|].
  eapply safe_bind; [apply (safe_or_abort I), Hc; apply (keeps_backend I)|]. intros [m c1] Hc1.
  eapply safe_bind; [apply safe_intercept|]. intros m' _. rewrite auth_offer_equation.
  destruct m'; try (now apply IH); try (now apply (safe_abort I unkeyed)).
  destruct m0; try (now apply (safe_abort I unkeyed)).
  - now apply safe_ret.
  - now apply safe_wrap, safe_complete_token.
  - now apply safe_wrap, safe_complete_password.
  - now apply safe_wrap, safe_complete_password.
  - now apply safe_wrap, safe_complete_token.
  - now apply safe_wrap, safe_complete_token.
  - now apply safe_wrap, safe_complete_sasl.
Qed.

(** A ready connection: its demultiplexer holds the key that is reported and the
    baseline of the parameters. *)
Definition ready_with (key : option CancelKey) (d : Demux) : Prop := cancel_key d = key /\ is_Some (startup_parameters d).

Lemma safe_ready_loop rounds : forall (c : AuthConn (Buffered T) AP.AwaitingStartupReady) key,
  holds I (fun d => cancel_key d = key) c ->
  safe (Env := Env) (ready_loop (PolicyError := PolicyError) fuel context rounds c key)
    (fun '(ready, key) => holds I (ready_with key) ready).
Proof using All.
  induction rounds as [|rounds IH]; intros c key Hc; cbn [ready_loop]; [apply safe_unfinished|].
  eapply safe_bind; [apply (safe_receive I), Hc|]. intros [item c1] Hc1.
  change (observed_key item key) with (key_after item key) in *.
  eapply safe_bind; [apply safe_intercept|]. intros m _.
  assert (holds I (fun d => cancel_key d = key_after item key) c1) as Hk.
  { eapply holds_weaken; [exact Hc1|]. now intros d [? _]. }
  destruct (replace_session_item item m) as [item'|] eqn:Hi; [|eapply safe_abort, Hk].
  destruct item' as [m'|status changed|tag command notices]; cbn [offer_ready]; [now apply IH| |eapply safe_abort, Hk].
  destruct status; try eapply safe_abort, Hk. destruct changed; [eapply safe_abort, Hk|]. apply safe_ret.
  eapply holds_weaken; [exact Hc1|]. intros d [Hkey Hb]. split; [done|].
  destruct item as [?|status changed|? ? ?]; [done| |now destruct m]. now destruct (Hb status changed eq_refl).
Qed.

Lemma safe_establish {Authentication} `{!ClientAuthentication Authentication Session PolicyError World}
    t startup_message target (authentication : Authentication) max :
  I t -> (forall target w, (authentication_begin authentication target w).1 <> Panic) ->
  (forall session w w', authentication_begin authentication target w = (Ok session, w') -> begun session) ->
  safe (Env := Env) (establish_client_session fuel context t startup_message target authentication max)
    (fun '(ready, identity, key) => holds I (ready_with key) ready /\
       exists (policy : Session) (w w' : World), challenged policy /\ session_authenticated policy w = (Ok identity, w')).
Proof using All.
  intros HI Hbegin Hbegun. eapply safe_bind; [apply safe_wrap, safe_in_world, Hbegin|]. intros policy (w & w' & Hw).
  eapply (safe_bind _ _ (fun b => I (stream b) /\ demux b = Demux_default)).
  { apply safe_wrap, safe_result; unfold Buffered_with_max_frame_len, with_max_frame_len; destruct (negb _); try done.
    now intros ? [= <-]. }
  intros b [HI' Hd]. eapply (safe_bind _ _ (fun '(c, _) => transport c = Some b)).
  { apply safe_transition; unfold startup; pose proof (StartupMessage_encode_no_panic startup_message);
      destruct (StartupMessage_encode startup_message); try done. now intros [] [= <- <-]. }
  intros [c packet] Hc. eapply (safe_bind _ _ (fun c => holds I (fun d => cancel_key d = None) c)).
  { apply safe_wrap, safe_result; unfold push_startup_packet; rewrite Hc; [done|]. intros ? [= <-].
    eexists. split; [done|]. cbn. split; [done|]. now rewrite Hd. }
  intros c1 Hc1. eapply safe_bind; [apply (safe_or_abort I), holds_transition, Hc1; apply (keeps_flush I)|].
  intros [[] c2] Hc2. eapply safe_bind; [apply safe_auth_loop; [exact Hc2|]; apply challenged_begun; eauto|]. intros [c3 policy'] [Hc3 Hk].
  eapply safe_bind; [apply safe_ready_loop, Hc3|]. intros [ready key] Hr.
  eapply safe_bind; [apply safe_outcome, safe_in_world; intros; apply authenticated_total|].
  intros [identity|error|] Hid; [|apply safe_dropping|done]. apply safe_ret. destruct Hid as (w1 & w1' & Hid). eauto 6.
Qed.
End Sessions.
End Safety.

(** ** The channel *)

Section Channel.
Context {T : Type} `{TlsLibrary} `{AsyncIo T}.

(** Reduce a poll of a wrapped stream to one of the stream inside. *)
Ltac open_io := repeat progress (cbn; unfold delegate).

#[export] Instance ClientTransport_total `{!StreamTotal T} `{!StreamTotal (ClientStream T)} : StreamTotal (ClientTransport T).
Proof.
  split.
  - intros [s|[s b]]; open_io; pose proof (read_total s); now destruct (poll_read s).
  - intros [s|[s b]]; open_io; pose proof (read_u8_total s); now destruct (poll_read_u8 s).
  - intros offered [s|[s b]]; open_io; pose proof (write_total offered s); now destruct (poll_write offered s).
  - intros offered [s|[s b]] n; open_io; pose proof (write_bounded offered s n); now destruct (poll_write offered s).
  - intros [s|[s b]]; open_io; pose proof (flush_total s); now destruct (poll_flush s).
Qed.

Definition status_of (t : ClientTransport T) : ClientTlsStatus :=
  match t with CT_Plain _ => Status_Plaintext | CT_Tls _ => Status_Encrypted end.

(** The same kind of transport, with the same channel binding. *)
Definition same_channel (t t' : ClientTransport T) : Prop :=
  match t, t' with
  | CT_Plain _, CT_Plain _ => True
  | CT_Tls s, CT_Tls s' => client_end_point s' = client_end_point s
  | _, _ => False
  end.

Lemma same_channel_refl t : same_channel t t.
Proof. now destruct t. Qed.

#[export] Instance same_channel_stable t : StreamStable (same_channel t).
Proof.
  split; intros; destruct t, s; try done; open_io;
    match goal with
    | |- context [poll_read ?s] => destruct (poll_read s)
    | |- context [poll_read_u8 ?s] => destruct (poll_read_u8 s)
    | |- context [poll_write ?o ?s] => destruct (poll_write o s)
    | |- context [poll_flush ?s] => destruct (poll_flush s)
    end; done.
Qed.
End Channel.

Section Connecting.
Context {H State World Evidence Session PolicyError T ConnectorError Tls Provider ProviderError Authentication Factory : Type}.
Context `{Profile : BuildProfile} `{TlsLibraryLaws} `{Certificates} `{AsyncIo T}.
Context `{!ClientMiddleware H State (ClientConnectionContext Evidence)} `{!MiddlewareFactory Factory ClientInitialContext H}.
Context `{!ClientAuthentication Authentication Session PolicyError World}.
Context `{Policy : !ClientAuthenticationSession Session Evidence PolicyError World} `{!PolicyTotal Policy}.
Context `{!ClientTlsConfiguration Tls Provider} `{!ClientTlsProvider Provider ProviderError World}.
Context `{!StreamTotal T} `{!StreamTotal (ClientStream T)}.
Abbreviation Env := (ClientEnv H State World).

(** A transport as the mode demands it: plaintext only where the mode lets the
    server decline; encrypted only after a request, with the chain checked
    against the material the provider resolved for the target. *)
Definition honours (mode : SslMode) (provider : Provider) (target : ConnectTarget) (t : ClientTransport T) : Prop :=
  match t with
  | CT_Plain _ => allow_server_rejection (strategy mode) = true
  | CT_Tls st =>
      request_on_first_connection (strategy mode) = true /\
      exists config w w' leaf intermediates now,
        provider_resolve provider target w = (Ok config, w') /\
        chain_checked mode (config_roots config) (config_server_name config) leaf intermediates now /\
        channel_binding leaf = Ok (client_end_point st)
  end.

Lemma honours_channel mode provider target t t' : same_channel t t' -> honours mode provider target t -> honours mode provider target t'.
Proof. destruct t, t'; try done. cbn. now intros ->. Qed.

Lemma safe_negotiate fuel (t : T) mode provider target (context : ClientConnectionContext Evidence) :
  (forall target w, (provider_resolve provider target w).1 <> Panic) ->
  (forall config name (s : T), tls_connect s name config <> Panic) ->
  safe (Env := Env) (negotiate_client_tls fuel t mode provider target context)
    (fun '(t, context') => honours mode provider target t /\ context' = set_tls (Some (status_of t)) context).
Proof using All.
  intros Hprov Htls. unfold negotiate_client_tls. destruct (request_on_first_connection (strategy mode)) eqn:Hreq; cbn [negb].
  2:{ apply safe_ret. split; [|done]. now destruct mode. }
  eapply safe_bind; [apply safe_intercept|]. intros request _. destruct request; try apply safe_raise.
  eapply safe_bind; [apply (safe_stream (fun _ => True)); [done|now apply (write_all_moves (fun _ => True))]|]. intros [[] s1] _.
  eapply safe_bind.
  { apply (safe_stream (fun _ => True)); [done|]. apply (await_poll_moves (fun _ => True)); [done|apply flush_total|done]. }
  intros [[] s2] _. eapply safe_bind.
  { apply (safe_stream (fun _ => True)); [done|]. apply (await_poll_moves (fun _ => True)); [done|apply read_u8_total|done]. }
  intros [reply s3] _. destruct reply; try apply safe_raise.
  - destruct (allow_server_rejection (strategy mode)) eqn:Hr; [now apply safe_ret|apply safe_raise].
  - eapply safe_bind; [apply safe_wrap, safe_in_world, Hprov|]. intros config (w & w' & Hw).
    eapply (safe_bind _ _ (fun st => tls_connect s3 (config_server_name config) (client_config mode (config_roots config)) = Ok st)).
    { apply safe_wrap, safe_result; [apply Htls|done]. }
    intros st Hst. apply safe_ret. split; [|done]. split; [done|].
    destruct (tls_connect_checked _ _ _ _ _ Hst) as (leaf & more & now_ & _ & Hc & Hb & _).
    now exists config, w, w', leaf, more, now_.
Qed.

Context (fuel : nat) (client : Client (Connector T ConnectorError World) Tls Authentication Factory).

(** The application's callbacks do not panic. *)
Definition callbacks_total : Prop :=
  (forall target w, (client_connector client target w).1 <> Panic) /\
  (forall target w, (authentication_begin (client_authentication client) target w).1 <> Panic) /\
  (forall mode provider, configured (client_tls client) = Some (mode, provider) ->
     forall target w, (provider_resolve provider target w).1 <> Panic) /\
  (forall config name (s : T), tls_connect s name config <> Panic).

(** What the component's TLS configuration allows of a connection's transport. *)
Definition policy_honoured (target : ConnectTarget) (t : ClientTransport T) : Prop :=
  match configured (client_tls client) with
  | None => match t with CT_Plain _ => True | CT_Tls _ => False end
  | Some (mode, provider) =>
      honours mode provider target t \/ (mode = Allow /\ match t with CT_Tls _ => True | _ => False end /\ honours Require_ provider target t)
  end.

(** Evidence of the authentication policy: given by a session that was begun for
    the target, after the challenges it answered. *)
Definition begun_for (target : ConnectTarget) (session : Session) : Prop :=
  exists w w', authentication_begin (client_authentication client) target w = (Ok session, w').
Definition proven (target : ConnectTarget) (identity : Evidence) : Prop :=
  exists (policy : Session) (w w' : World), challenged (begun_for target) policy /\ session_authenticated policy w = (Ok identity, w').

(** An established session over a channel like [t], with the facts of [context]. *)
Definition established (target : ConnectTarget) (t : ClientTransport T)
    (session : AuthConn (Buffered (ClientTransport T)) SP.Ready * Evidence * option CancelKey) : Prop :=
  let '(ready, identity, key) := session in
  holds (same_channel t) (ready_with key) ready /\
  proven target identity.

Lemma safe_session t message target context : callbacks_total ->
  safe (Env := Env) (establish fuel client t message target context) (established target t).
Proof using All.
  intros (_ & Hbegin & _). eapply safe_weaken; [apply (safe_establish (begun_for target) (same_channel t)); [apply same_channel_refl|apply Hbegin|intros ? w w' ?; now exists w, w']|].
  now intros [[ready identity] key].
Qed.

Lemma safe_retry provider message target context : callbacks_total ->
  configured (client_tls client) = Some (Allow, provider) ->
  safe (Env := Env) (retry_encrypted (ConnectorError := ConnectorError) fuel client provider message target context)
    (fun '(session, context') => exists t, match t with CT_Tls _ => True | _ => False end /\ honours Require_ provider target t /\
       established target t session /\ context' = set_tls (Some (status_of t)) (set_tls None context)).
Proof using All.
  intros Hcb Hcfg. destruct (Hcb) as (Hconn & _ & Hprov & Htls).
  eapply safe_bind; [apply safe_wrap, safe_in_world, Hconn|]. intros t0 _.
  eapply safe_bind; [apply safe_wrap, safe_negotiate; [now apply (Hprov Allow)|done]|]. intros [t context'] [Ht ->].
  eapply safe_bind; [apply safe_intercept|]. intros message' _.
  eapply safe_bind; [apply safe_wrap, safe_session, Hcb|]. intros session Hs. apply safe_ret.
  exists t. split; [|done]. now destruct t.
Qed.

(** What a returned connection is. *)
Definition connected_core (target : ConnectTarget)
    (core : RoleCore (AuthConn (Buffered (ClientTransport T)) SP.Ready) H (ClientConnectionContext Evidence)) : Prop :=
  exists b identity, transport (core_conn core) = Some b /\ policy_honoured target (stream b) /\
    core_context core =
      mkClientContext target (Some (status_of (stream b))) (Some identity) (cancel_key (demux b)) /\
    is_Some (startup_parameters (demux b)) /\ proven target identity.

Lemma established_core t target (context : ClientConnectionContext Evidence) ready identity key h :
  (forall t', same_channel t t' -> policy_honoured target t') -> established target t (ready, identity, key) ->
  context_target context = target -> context_tls context = Some (status_of t) ->
  connected_core target
    (mkCore ready h (mkClientContext (context_target context) (context_tls context) (Some identity) key)).
Proof.
  intros Ht [(b & Hb & Hc & Hk & Hp) Hid] <- Htls. exists b, identity. split; [done|]. split; [now apply Ht|]. cbn.
  rewrite Htls, Hk. split; [|done]. do 2 f_equal. revert Hc. now destruct (stream b), t.
Qed.

Lemma safe_connect target overrides : callbacks_total ->
  safe (Env := Env) (connect_steps fuel client target overrides) (connected_core target).
Proof using All.
  intros Hcb. pose proof Hcb as (Hconn & _ & Hprov & Htls). unfold connect_steps.
  eapply safe_bind.
  { apply safe_wrap, (safe_result _ (fun _ => True)); [|done]. unfold into_message. now destruct (user _). }
  intros message _. eapply safe_bind; [apply safe_wrap, safe_in_world, Hconn|]. intros t0 _.
  set (context := mkClientContext target None None None : ClientConnectionContext Evidence).
  eapply (safe_bind _ _ (fun '(t, context') => context' = set_tls (Some (status_of t)) context /\
    forall t', same_channel t t' -> policy_honoured target t')).
  { unfold policy_honoured. destruct (configured (client_tls client)) as [[mode provider]|] eqn:Hcfg.
    - eapply safe_weaken; [apply safe_wrap, safe_negotiate; [now apply (Hprov mode)|done]|].
      intros [t context'] [Ht ->]. split; [done|]. intros t' Hc. left. now apply (honours_channel _ _ _ t).
    - apply safe_ret. split; [done|]. now intros []. }
  intros [t context1] [-> Ht]. eapply safe_bind; [apply safe_intercept|]. intros message1 _.
  eapply safe_bind; [apply safe_outcome, safe_session, Hcb|]. intros first Hfirst.
  set (retry_provider := match configured (client_tls client), first with Some (Allow, provider), Err _ => Some provider | _, _ => None end).
  eapply (safe_bind _ _ (fun '(session, context') => exists t, (forall t', same_channel t t' -> policy_honoured target t') /\
    established target t session /\ context_target (context' : ClientConnectionContext Evidence) = target /\ context_tls context' = Some (status_of t))).
  { destruct retry_provider as [provider|] eqn:Hretry.
    - unfold retry_provider in Hretry. destruct (configured (client_tls client)) as [[mode p]|] eqn:Hcfg; [|done].
      assert (mode = Allow /\ p = provider) as [-> ->] by (destruct mode, first; simplify_eq; done).
      eapply safe_weaken; [now apply safe_retry|]. intros [session context'] (t1 & Hty & Hh & Hs & ->). exists t1.
      split; [|done]. intros t' Hc. unfold policy_honoured. rewrite Hcfg. right. split; [done|].
      split; [now destruct t1, t'|now apply (honours_channel _ _ _ t1)].
    - destruct first as [session|e|]; [|apply safe_raise|done]. apply (safe_bind _ _ (established target t)).
      { now apply safe_ret. }
      intros session' Hs. apply safe_ret. exists t. done. }
  intros [[[ready identity] key] context2] (t2 & Ht2 & Hs & Htar & Hctls) env. cbn.
  now apply (established_core t2).
Qed.

(** C5: What [connect] returns, for every server, middleware, policy and
    sequence of outcomes of the application's callbacks: an operational connection
    whose transport is as the TLS policy demands (plaintext only where the mode
    tolerates it, encrypted only with the chain checked for the mode against the
    material resolved for this target, [Allow] encrypted only on its retry), whose
    context reports that transport, the evidence of the authentication policy and
    the cancellation key the demultiplexer holds, and whose parameter baseline is
    set. In builds without debug assertions it never panics. *)
Theorem connect_enforces_policy target overrides st w r st' w' : callbacks_total ->
  connect_core fuel client target overrides st w = (Some r, (st', w')) ->
  match r with
  | Ok core => connected_core target core
  | Err _ => True
  | Panic => debug_assertions = true
  end.
Proof using All.
  intros Hcb. unfold connect_core. set (env := mkEnv _ st w).
  pose proof (safe_connect target overrides Hcb env) as Hs.
  destruct (connect_steps fuel client target overrides env) as [r' env']. intros [= -> _ _]. exact Hs.
Qed.
End Connecting.

(** A client that demands a verified host name, and a server that speaks TLS and
    trusts it. *)
Module ConnectModel.
Import TlsModel.

Definition conversation : Script :=
  mkScript [Ready ["S"%byte; "R"%byte; x00]; Pending; Ready [x00; x00; x08; x00; x00; x00; x00; "Z"%byte; x00];
            Ready [x00; x00; x05; "I"%byte]] [] [] [].
Definition roots (trusted : list bytes) : ClientTlsConfig := @mkTlsConfig rustls leaf trusted.
Definition target : ConnectTarget := ConnectTarget_new (str "primary").
#[export] Instance provider : ClientTlsProvider (list bytes) Empty_set World := fun trusted _ w => (Ok (roots trusted), w).
Definition client (trusted : list bytes) : Client (Connector Script Empty_set World) (ReloadableClientTls (list bytes)) TrustClientAuthentication IdentityHandler :=
  mkClient (fun _ w => (Ok conversation, w)) (libpq VerifyFull trusted) mkTrustClient (StartupParameters_new (str "app")) ProtocolLimits_default mkIdentityHandler.
Abbreviation run trusted := (connect_core (State := unit) 20 (client trusted) target StartupParameters_default tt []).

Lemma client_total : callbacks_total (client [leaf]).
Proof.
  split; [discriminate|]. split; [discriminate|]. split; [intros mode trusted [= <- <-]; discriminate|].
  intros. apply tls_connect_total.
Qed.
End ConnectModel.

Import TlsModel ConnectModel.

Lemma connect_enforces_policy_witness :
  exists core, (run [leaf]).1 = Some (Ok core) /\
    connected_core (client [leaf]) target core /\ context_tls (core_context core) = Some Status_Encrypted.
Proof.
  assert (match (run [leaf]).1 with Some (Ok core) => context_tls (core_context core) | _ => None end = Some Status_Encrypted) as Hc
    by (vm_compute; reflexivity).
  destruct (run [leaf]) as [[[core|e|]|] [st w]] eqn:E; cbn [fst] in Hc; [|discriminate Hc..].
  exists core. split; [reflexivity|]. split; [|exact Hc].
  exact (connect_enforces_policy 20 (client [leaf]) target StartupParameters_default tt [] (Ok core) st w client_total E).
Defined.

