(* ===== verification/ServerComponent.v ===== *)
(** The server role's builder, connection establishment and facade:
    src/server_component.rs. *)

From Stdlib Require Import ZArith Lia String.
From Stdlib Require Import Init.Byte.
From stdpp Require Import prelude.
From S2P Require Import Prelude OrdMap Wire Frame Frontend Startup PreStartup Backend Demux Transport Session ServerSession Scram Auth RuntimeMiddleware Intermediary Tls Establish ClientComponent.

Local Open Scope string_scope.
Local Open Scope Z_scope.
Local Open Scope list_scope.
Local Open Scope establish_scope.

(** ** Connection facts *)

Inductive NegotiatedServerTls : Type :=
| Negotiated_Plaintext
| Negotiated_Tls (server_end_point : bytes).

Record ServerConnectionContext (Peer Identity : Type) : Type := mkServerContext {
  server_peer : Peer;
  server_tls : option NegotiatedServerTls;
  server_identity : option Identity
}.
Arguments mkServerContext {Peer Identity}. Arguments server_peer {Peer Identity}.
Arguments server_tls {Peer Identity}. Arguments server_identity {Peer Identity}.

Definition set_negotiated {Peer Identity} (tls : NegotiatedServerTls) (c : ServerConnectionContext Peer Identity)
    : ServerConnectionContext Peer Identity := mkServerContext (server_peer c) (Some tls) (server_identity c).
Definition set_identity {Peer Identity} (identity : Identity) (c : ServerConnectionContext Peer Identity)
    : ServerConnectionContext Peer Identity := mkServerContext (server_peer c) (server_tls c) (Some identity).

(** [tls()] and [identity()] panic before the fact is known. *)
Definition known {A E} (fact : option A) : result A E := match fact with Some a => Ok a | None => Panic end.

(** ** TLS policy *)

Record ServerIdentity `{TlsLibrary} : Type := mkServerIdentity { identity_config : ServerConfig; leaf_certificate : bytes }.

Class ServerIdentityProvider `{TlsLibrary} (Provider Error World : Type) : Type :=
  identity_resolve : Provider -> World -> result ServerIdentity Error * World.

Inductive NoServerIdentityProvider : Type := mkNoServerIdentityProvider.
Inductive NoServerIdentity : Type := mkNoServerIdentity.
#[export] Instance no_identity `{TlsLibrary} {World} : ServerIdentityProvider NoServerIdentityProvider NoServerIdentity World :=
  fun _ w => (Err mkNoServerIdentity, w).

Inductive DisabledServerTls : Type := mkDisabledServerTls.
Inductive OptionalServerTls (Provider : Type) : Type := mkOptionalServerTls (provider : Provider).
Inductive RequiredServerTls (Provider : Type) : Type := mkRequiredServerTls (provider : Provider).
Arguments mkOptionalServerTls {Provider}. Arguments mkRequiredServerTls {Provider}.

Class ServerTlsConfiguration (Tls Provider : Type) : Type := {
  tls_identities : Tls -> option Provider;
  tls_required : Tls -> bool;
  tls_category : Tls -> string
}.
#[export] Instance disabled_server_tls : ServerTlsConfiguration DisabledServerTls NoServerIdentityProvider :=
  {| tls_identities _ := None; tls_required _ := false; tls_category _ := "disabled" |}.
#[export] Instance optional_server_tls {Provider} : ServerTlsConfiguration (OptionalServerTls Provider) Provider :=
  {| tls_identities '(mkOptionalServerTls provider) := Some provider; tls_required _ := false; tls_category _ := "optional" |}.
#[export] Instance required_server_tls {Provider} : ServerTlsConfiguration (RequiredServerTls Provider) Provider :=
  {| tls_identities '(mkRequiredServerTls provider) := Some provider; tls_required _ := true; tls_category _ := "required" |}.

Definition tls_required_diagnostic : BackendMessage :=
  let field code value := mkDiagnosticField code (str value) in
  B_ErrorResponse (mkDiagnostic [field "S"%byte "FATAL"; field "V"%byte "FATAL"; field "C"%byte "08001";
    field "M"%byte "Transport Layer Security (TLS) connection is required"]).

(** ** Authentication policies *)

Record ServerAuthenticationRequest (Peer : Type) : Type := mkAuthenticationRequest {
  request_startup : StartupMessage;
  request_tls : NegotiatedServerTls;
  request_peer : Peer
}.
Arguments mkAuthenticationRequest {Peer}. Arguments request_startup {Peer}. Arguments request_tls {Peer}.
Arguments request_peer {Peer}.

Inductive ServerAuthenticationAction (Identity : Type) : Type :=
| Act_Accept (identity : Identity)
| Act_CleartextPassword
| Act_Md5Password (salt : bytes)
| Act_Sasl (mechanisms : list bytes)
| Act_SaslContinue (challenge : bytes)
| Act_SaslFinal (server_final : bytes) (identity : Identity)
| Act_KerberosV5
| Act_Gss
| Act_Sspi
| Act_GssContinue (token : bytes).
Arguments Act_Accept {Identity}. Arguments Act_CleartextPassword {Identity}. Arguments Act_Md5Password {Identity}.
Arguments Act_Sasl {Identity}. Arguments Act_SaslContinue {Identity}. Arguments Act_SaslFinal {Identity}.
Arguments Act_KerberosV5 {Identity}. Arguments Act_Gss {Identity}. Arguments Act_Sspi {Identity}.
Arguments Act_GssContinue {Identity}.

Inductive ServerAuthenticationResponse : Type :=
| Resp_Password (credential : bytes)
| Resp_SaslInitial (mechanism : bytes) (response : option bytes)
| Resp_Sasl (response : bytes)
| Resp_Token (token : bytes).

Class ServerAuthentication (Policy Peer Identity Error World : Type) : Type := {
  policy_start : ServerAuthenticationRequest Peer -> Policy -> World ->
    result (ServerAuthenticationAction Identity) Error * (Policy * World);
  policy_respond : ServerAuthenticationRequest Peer -> ServerAuthenticationResponse -> Policy -> World ->
    result (ServerAuthenticationAction Identity) Error * (Policy * World)
}.
Class ServerAuthenticationProvider (Authentication Policy World : Type) : Type :=
  policy_create : Authentication -> World -> Policy * World.

Inductive TrustIdentity : Type := mkTrustIdentity.
Inductive TrustServerAuthentication : Type := mkTrustServer.
#[export] Instance trust_provider {World} : ServerAuthenticationProvider TrustServerAuthentication TrustServerAuthentication World :=
  fun t w => (t, w).
#[export] Instance trust_policy {Peer World}
    : ServerAuthentication TrustServerAuthentication Peer TrustIdentity Empty_set World := {|
  policy_start _ t w := (Ok (Act_Accept mkTrustIdentity), (t, w));
  policy_respond _ _ t w := (Panic, (t, w))
|}.

(** *** Static MD5 credentials *)

Record StaticMd5ServerCredentials : Type := mkMd5Credentials { md5_username : bytes; md5_password : bytes }.
Record StaticMd5ServerCredentialSession : Type := mkMd5Session {
  md5_session_username : bytes;
  md5_session_password : bytes;
  md5_session_salt : bytes (* [u8; 4] *)
}.

Section Md5.
Context `{Crypto} {World : Type} `{Rng World}.

#[export] Instance md5_provider : ServerAuthenticationProvider StaticMd5ServerCredentials StaticMd5ServerCredentialSession World :=
  fun c w => let (salt, w) := fill 4 w in (mkMd5Session (md5_username c) (md5_password c) salt, w).

Definition md5_respond (s : StaticMd5ServerCredentialSession) (response : ServerAuthenticationResponse)
    : result (ServerAuthenticationAction unit) StaticCredentialError :=
  match response with
  | Resp_Password received =>
      if negb (verify_md5_response received (md5_session_username s) (md5_session_password s) (md5_session_salt s))
      then Err AuthenticationFailed
      else Ok (Act_Accept tt)
  | _ => Err AuthenticationFailed
  end.

#[export] Instance md5_policy {Peer}
    : ServerAuthentication StaticMd5ServerCredentialSession Peer unit StaticCredentialError World := {|
  policy_start _ s w := (Ok (Act_Md5Password (md5_session_salt s)), (s, w));
  policy_respond _ response s w := (md5_respond s response, (s, w))
|}.
End Md5.

(** ** Limits and the builder *)

Record ServerProtocolLimits : Type := mkServerLimits {
  server_max_frame_len : Z (* usize *);
  server_max_pre_startup : Z (* usize *)
}.
Definition ServerProtocolLimits_default : ServerProtocolLimits :=
  mkServerLimits DEFAULT_MAX_FRAME_LEN DEFAULT_MAX_PRE_STARTUP_PACKET_LEN.
Definition server_with_max_frame_len (bytes : Z) (l : ServerProtocolLimits) : ServerProtocolLimits :=
  mkServerLimits bytes (server_max_pre_startup l).
Definition server_with_max_pre_startup (bytes : Z) (l : ServerProtocolLimits) : ServerProtocolLimits :=
  mkServerLimits (server_max_frame_len l) bytes.
Definition limits_valid (l : ServerProtocolLimits) : bool :=
  (9 <=? server_max_frame_len l) && (server_max_frame_len l <=? I32_MAX) &&
  (8 <=? server_max_pre_startup l) && (server_max_pre_startup l <=? I32_MAX).

Inductive BuildServerError : Type := MissingTlsPolicy | MissingAuthenticationPolicy | InvalidProtocolLimits.

Inductive IdentityServerHandler : Type := mkIdentityServerHandler.
#[export] Instance identity_server_factory {Context}
    : MiddlewareFactory IdentityServerHandler Context IdentityServerHandler := fun h _ => h.
#[export] Instance identity_server_handler {State Context} : ServerMiddleware IdentityServerHandler State Context := {
  server_pre_startup_hook := default_hook;
  server_startup := default_hook;
  server_cancellation := default_hook;
  server_frontend := default_hook;
  server_backend := default_hook
}.

Record Server (Tls Authentication Middleware : Type) : Type := mkServer {
  server_tls_policy : Tls;
  server_authentication_policy : Authentication;
  server_limits : ServerProtocolLimits;
  server_middleware : Middleware
}.
Arguments mkServer {Tls Authentication Middleware}. Arguments server_tls_policy {Tls Authentication Middleware}.
Arguments server_authentication_policy {Tls Authentication Middleware}.
Arguments server_limits {Tls Authentication Middleware}. Arguments server_middleware {Tls Authentication Middleware}.

Record ServerBuilder (Tls Authentication Middleware : Type) : Type := mkServerBuilder {
  sbuilder_tls : option Tls;
  sbuilder_authentication : option Authentication;
  sbuilder_limits : ServerProtocolLimits;
  sbuilder_middleware : Middleware
}.
Arguments mkServerBuilder {Tls Authentication Middleware}. Arguments sbuilder_tls {Tls Authentication Middleware}.
Arguments sbuilder_authentication {Tls Authentication Middleware}.
Arguments sbuilder_limits {Tls Authentication Middleware}. Arguments sbuilder_middleware {Tls Authentication Middleware}.

Definition ServerBuilder_default : ServerBuilder unit unit IdentityServerHandler :=
  mkServerBuilder None None ServerProtocolLimits_default mkIdentityServerHandler.

Section Builder.
Context {Tls Authentication Middleware : Type}.
Implicit Types (b : ServerBuilder Tls Authentication Middleware).

Definition server_with_tls {Next} (policy : Next) b : ServerBuilder Next Authentication Middleware :=
  mkServerBuilder (Some policy) (sbuilder_authentication b) (sbuilder_limits b) (sbuilder_middleware b).
Definition server_with_authentication {Next} (policy : Next) b : ServerBuilder Tls Next Middleware :=
  mkServerBuilder (sbuilder_tls b) (Some policy) (sbuilder_limits b) (sbuilder_middleware b).
Definition server_with_limits (limits : ServerProtocolLimits) b : ServerBuilder Tls Authentication Middleware :=
  mkServerBuilder (sbuilder_tls b) (sbuilder_authentication b) limits (sbuilder_middleware b).
Definition server_with_middleware {Next} (factory : Next) b : ServerBuilder Tls Authentication (MiddlewareChain Middleware Next) :=
  mkServerBuilder (sbuilder_tls b) (sbuilder_authentication b) (sbuilder_limits b) (mkChain (sbuilder_middleware b) factory).

Definition server_build b : result (Server Tls Authentication Middleware) BuildServerError :=
  let? tls := ok_or (sbuilder_tls b) MissingTlsPolicy in
  let? authentication := ok_or (sbuilder_authentication b) MissingAuthenticationPolicy in
  if negb (limits_valid (sbuilder_limits b)) then Err InvalidProtocolLimits
  else Ok (mkServer tls authentication (sbuilder_limits b) (sbuilder_middleware b)).
End Builder.

(** ** Establishment *)

Inductive AcceptError (TlsError AuthenticationError : Type) : Type :=
| Accept_Io (error : io_error)
| UnsupportedProtocolVersion
| TlsRequired
| Accept_TlsIdentity (error : TlsError)
| Accept_Authentication (error : AuthenticationError)
| AuthenticationProtocol.
Arguments Accept_Io {TlsError AuthenticationError}. Arguments UnsupportedProtocolVersion {TlsError AuthenticationError}.
Arguments TlsRequired {TlsError AuthenticationError}. Arguments Accept_TlsIdentity {TlsError AuthenticationError}.
Arguments Accept_Authentication {TlsError AuthenticationError}. Arguments AuthenticationProtocol {TlsError AuthenticationError}.

Inductive RoutedAcceptError (TlsError AuthenticationError RouteError : Type) : Type :=
| Routed_Accept (error : AcceptError TlsError AuthenticationError)
| Routed_Route (error : RouteError).
Arguments Routed_Accept {TlsError AuthenticationError RouteError}.
Arguments Routed_Route {TlsError AuthenticationError RouteError}.

(** The startup router of the intermediary facade. *)
Class StartupResolver (Resolver State Context Route Error World : Type) : Type := {
  defer_ready : Resolver -> bool;
  startup_resolve : StartupMessage -> Context -> Resolver -> State -> World ->
    result Route Error * (Resolver * State * World)
}.
Inductive NoStartupRoute : Type := mkNoStartupRoute.
#[export] Instance no_startup_route {State Context World}
    : StartupResolver NoStartupRoute State Context unit Empty_set World := {|
  defer_ready _ := false;
  startup_resolve _ _ r st w := (Ok tt, (r, st, w))
|}.

Record ServerEnv (H State Resolver World : Type) : Type := mkServerEnv {
  senv_handler : H; senv_state : State; senv_resolver : Resolver; senv_world : World
}.
Arguments mkServerEnv {H State Resolver World}. Arguments senv_handler {H State Resolver World}.
Arguments senv_state {H State Resolver World}. Arguments senv_resolver {H State Resolver World}.
Arguments senv_world {H State Resolver World}.

Section Authenticate.
Context {H State Resolver World Peer Identity Policy AuthError TlsErr : Type}.
Abbreviation Context_ := (ServerConnectionContext Peer Identity).
Abbreviation Env := (ServerEnv H State Resolver World).
Context `{Profile : BuildProfile} `{!ServerMiddleware H State Context_}.
Context `{!ServerAuthentication Policy Peer Identity AuthError World}.
Abbreviation Accept A := (M Env (AcceptError TlsErr AuthError) A).

Definition on_hook {E Msg} (on : hook H Context_ State Msg) (context : Context_) (message : Msg) : M Env E Msg :=
  fun env =>
    let '(message, (h, st)) := on (senv_handler env) context (senv_state env) message in
    (Some (Ok message), mkServerEnv h st (senv_resolver env) (senv_world env)).

Definition in_server_world {E A} (op : World -> result A E * World) : M Env E A := fun env =>
  let (r, w) := op (senv_world env) in (Some r, mkServerEnv (senv_handler env) (senv_state env) (senv_resolver env) w).

(** A step of the policy: its own failure is a value, the policy goes on. *)
Definition consult {E} (policy : Policy)
    (step : Policy -> World -> result (ServerAuthenticationAction Identity) AuthError * (Policy * World))
    : M Env E (result (ServerAuthenticationAction Identity) AuthError * Policy) := fun env =>
  let '(r, (policy, w)) := step policy (senv_world env) in
  match r with
  | Panic => (Some Panic, mkServerEnv (senv_handler env) (senv_state env) (senv_resolver env) w)
  | _ => (Some (Ok (r, policy)), mkServerEnv (senv_handler env) (senv_state env) (senv_resolver env) w)
  end.

(** [handler.backend(context, state, Backend::decode(frame)?).to_frame()] *)
Definition intercept_server_backend (context : Context_) (frame : Frame) : M Env io_error Frame :=
  do message <- of_result (Backend_decode frame);
  do message <- on_hook server_backend context message;
  of_result (BackendMessage_to_frame message).

(** A fallible step with [c] in scope: [.map_err(AcceptError::Io)?]. *)
Definition with_live {T A} {Ph : Type} {P : Ph} {C} (c : Conn T P C) (m : M Env io_error A) : Accept A :=
  do r <- outcome m;
  match r with
  | Ok a => ret a
  | Err e => raise_dropping c (Accept_Io e)
  | Panic => panic
  end.

Section Exchange.
Context {I : Type} `{AsyncIo I} (fuel : nat).
Abbreviation C P := (Conn (Buffered I) P Pristine).

Definition flush_or_abort {Ph : Type} {P : Ph} (c : C P) : Accept (C P) :=
  do (_, c) <- or_abort Accept_Io (conn_flush fuel) c; ret c.
Definition push_or_abort {Ph : Type} {P : Ph} (c : C P) (frame : Frame) : Accept (C P) :=
  do (_, c) <- or_abort Accept_Io (push_frame frame) c; ret c.
Definition receive_frontend_or_abort {Ph : Type} {P : Ph} (c : C P) : Accept (C P * FrontendMessage) :=
  do (message, c) <- or_abort Accept_Io (receive_frontend_wire fuel) c; ret (c, message).

(** Intercept a generated frame, send it, and receive the answer through the
    middleware. *)
Definition challenge {Ph : Type} {P : Ph} (context : Context_) (waiting : C P) (frame : Frame) : Accept (C P * FrontendMessage) :=
  do frame <- with_live waiting (intercept_server_backend context frame);
  do waiting <- push_or_abort waiting frame;
  do waiting <- flush_or_abort waiting;
  do (waiting, wire) <- receive_frontend_or_abort waiting;
  do wire <- on_hook server_frontend context wire;
  ret (waiting, wire).

Definition authenticate_password (auth : io (C SAP.ServerPassword * Frame)) (policy : Policy)
    (request : ServerAuthenticationRequest Peer) (context : Context_) : Accept (C SAP.ServerAuth * Identity * option Frame) :=
  do (waiting, frame) <- wrap_error Accept_Io (of_result auth);
  do (waiting, wire) <- challenge context waiting frame;
  match receive_password waiting wire with
  | Ok (auth, credential) =>
      do (action, _) <- consult policy (policy_respond request (Resp_Password credential));
      match action with
      | Ok (Act_Accept evidence) => ret (auth, evidence, None)
      | Ok _ => abort auth AuthenticationProtocol
      | Err error => abort auth (Accept_Authentication error)
      | Panic => panic
      end
  | Err (waiting, _) => abort waiting AuthenticationProtocol
  | Panic => panic
  end.

Fixpoint server_sasl_loop (rounds : nat) (sasl : C SAP.ServerSasl) (action : ServerAuthenticationAction Identity)
    (policy : Policy) (request : ServerAuthenticationRequest Peer) (context : Context_)
    : Accept (C SAP.ServerAuth * Identity * option Frame) :=
  match rounds with
  | O => unfinished
  | S rounds =>
      match action with
      | Act_SaslContinue data =>
          do (waiting, frame) <- wrap_error Accept_Io (of_result (continue_with sasl data));
          do (waiting, wire) <- challenge context waiting frame;
          match receive_sasl_response waiting wire with
          | Ok (sasl, response) =>
              do (action, policy) <- consult policy (policy_respond request (Resp_Sasl response));
              match action with
              | Ok action => server_sasl_loop rounds sasl action policy request context
              | Err error => abort sasl (Accept_Authentication error)
              | Panic => panic
              end
          | Err (waiting, _) => abort waiting AuthenticationProtocol
          | Panic => panic
          end
      | Act_SaslFinal server_final evidence =>
          do (auth, frame) <- wrap_error Accept_Io (of_result (sasl_finish sasl server_final));
          ret (auth, evidence, Some frame)
      | _ => abort sasl AuthenticationProtocol
      end
  end.

Definition authenticate_sasl (auth : C SAP.ServerAuth) (mechanisms : list bytes) (policy : Policy)
    (request : ServerAuthenticationRequest Peer) (context : Context_) : Accept (C SAP.ServerAuth * Identity * option Frame) :=
  if existsb (fun mechanism => bool_decide (x00 ∈ mechanism)) mechanisms
  then abort auth (Accept_Io (mkError InvalidInput "SASL mechanism contains NUL"))
  else
    do (initial, frame) <- wrap_error Accept_Io (of_result (request_sasl auth mechanisms));
    do (initial, wire) <- challenge context initial frame;
    match receive_initial initial wire with
    | Ok (sasl, initial_response) =>
        do (action, policy) <- consult policy
          (policy_respond request (Resp_SaslInitial (mechanism initial_response) (response initial_response)));
        match action with
        | Ok action => server_sasl_loop fuel sasl action policy request context
        | Err error => abort sasl (Accept_Authentication error)
        | Panic => panic
        end
    | Err (initial, _) => abort initial AuthenticationProtocol
    | Panic => panic
    end.

(** A token exchange enters each round with a frame to send. *)
Fixpoint server_token_loop (rounds : nat) (waiting : C SAP.ServerAuthResponse) (frame : Frame) (policy : Policy)
    (request : ServerAuthenticationRequest Peer) (context : Context_) : Accept (C SAP.ServerAuth * Identity * option Frame) :=
  match rounds with
  | O => unfinished
  | S rounds =>
      do (waiting, wire) <- challenge context waiting frame;
      match receive_token_response waiting wire with
      | Ok (decision, token) =>
          do (action, policy) <- consult policy (policy_respond request (Resp_Token token));
          match action with
          | Ok (Act_Accept evidence) => ret (token_verified decision, evidence, None)
          | Ok (Act_GssContinue token) =>
              do (next, frame) <- wrap_error Accept_Io (of_result (continue_gss decision token));
              server_token_loop rounds next frame policy request context
          | Ok _ => abort decision AuthenticationProtocol
          | Err error => abort decision (Accept_Authentication error)
          | Panic => panic
          end
      | Err (waiting, _) => abort waiting AuthenticationProtocol
      | Panic => panic
      end
  end.

Definition authenticate_token (auth : io (C SAP.ServerAuthResponse * Frame)) (policy : Policy)
    (request : ServerAuthenticationRequest Peer) (context : Context_) : Accept (C SAP.ServerAuth * Identity * option Frame) :=
  do (waiting, frame) <- wrap_error Accept_Io (of_result auth);
  server_token_loop fuel waiting frame policy request context.

(** The exchange the policy's first action selects. *)
Definition authenticate (auth : C SAP.ServerAuth) (action : ServerAuthenticationAction Identity) (policy : Policy)
    (request : ServerAuthenticationRequest Peer) (context : Context_) : Accept (C SAP.ServerAuth * Identity * option Frame) :=
  match action with
  | Act_Accept evidence => ret (auth, evidence, None)
  | Act_CleartextPassword => authenticate_password (request_cleartext auth) policy request context
  | Act_Md5Password salt => authenticate_password (request_md5 auth salt) policy request context
  | Act_Sasl mechanisms => authenticate_sasl auth mechanisms policy request context
  | Act_KerberosV5 => authenticate_token (request_kerberos_v5 auth) policy request context
  | Act_Gss => authenticate_token (Auth.request_gss auth) policy request context
  | Act_Sspi => authenticate_token (request_sspi auth) policy request context
  | Act_SaslContinue _ | Act_SaslFinal _ _ | Act_GssContinue _ => abort auth AuthenticationProtocol
  end.

(** The messages that end establishment, in one flush. *)
Definition finish_startup (auth : C SAP.ServerAuth) (final_frame : option Frame) (deferred : bool) (context : Context_)
    : Accept (C SV.Ready) :=
  do (startup_ready, _) <- wrap_error Accept_Io (of_result (authentication_ok auth));
  do startup_ready <-
    match final_frame with
    | Some frame =>
        do frame <- with_live startup_ready (intercept_server_backend context frame);
        push_or_abort startup_ready frame
    | None => ret startup_ready
    end;
  do ok <- on_hook server_backend context (B_Authentication A_Ok);
  do ok <- with_live startup_ready (of_result (BackendMessage_to_frame ok));
  do startup_ready <- push_or_abort startup_ready ok;
  do (ready, _) <- transition_or_drop Accept_Io startup_ready (Auth.startup_ready startup_ready);
  do ready <-
    (if deferred : bool then ret ready
     else
       do message <- on_hook server_backend context (B_ReadyForQuery Idle);
       do frame <- with_live ready (of_result (BackendMessage_to_frame message));
       push_or_abort ready frame);
  flush_or_abort ready.

Definition complete_auth {Authentication} `{ServerAuthenticationProvider Authentication Policy World}
    (startup_conn : C Phase.Startup) (message : StartupMessage) (provider : Authentication) (context : Context_)
    (deferred : bool) : Accept (C SV.Ready * Context_) :=
  match validate_protocol startup_conn message V3_2 with
  | Supported validated _ _ =>
      do policy <- in_server_world (fun w => let (policy, w) := policy_create provider w in (Ok policy, w));
      let auth := begin_server_auth validated in
      do tls <- of_result (known (server_tls context));
      let request := mkAuthenticationRequest message tls (server_peer context) in
      do (action, policy) <- consult policy (policy_start request);
      match action with
      | Ok action =>
          do (auth, evidence, final_frame) <- authenticate auth action policy request context;
          let context := set_identity evidence context in
          do ready <- finish_startup auth final_frame deferred context;
          ret (ready, context)
      | Err error => abort auth (Accept_Authentication error)
      | Panic => panic
      end
  | ProtocolRejected conn _ => abort conn UnsupportedProtocolVersion
  end.
End Exchange.
End Authenticate.

(** ** Accepting *)

Inductive AcceptedServerTransport `{TlsLibrary} (T : Type) : Type :=
| Accepted_Plaintext (transport : T)
| Accepted_Tls (transport : ServerTls T).
Arguments Accepted_Plaintext {_ _ T}. Arguments Accepted_Tls {_ _ T}.

Inductive ServerConnectionInner `{TlsLibrary} (T : Type) : Type :=
| Inner_Plaintext (conn : Conn (Buffered T) SV.Ready Pristine)
| Inner_Tls (conn : Conn (Buffered (ServerTls T)) SV.Ready Pristine).
Arguments Inner_Plaintext {_ _ T}. Arguments Inner_Tls {_ _ T}.

(** [ServerConnection]: the core with its startup message, and the state. *)
Record ServerConnectionCore `{TlsLibrary} (T H Context : Type) : Type := mkServerCore {
  server_conn : ServerConnectionInner T;
  server_startup_message : StartupMessage;
  server_handler : H;
  server_context : Context
}.
Arguments mkServerCore {_ _ T H Context}. Arguments server_conn {_ _ T H Context}.
Arguments server_startup_message {_ _ T H Context}. Arguments server_handler {_ _ T H Context}.
Arguments server_context {_ _ T H Context}.

Record ServerCancellation `{TlsLibrary} (T H State Peer : Type) : Type := mkServerCancellation {
  cancellation_transport : AcceptedServerTransport T;
  cancellation_request : CancellationRequest;
  cancellation_state : State;
  cancellation_handler : H;
  cancellation_context : ServerConnectionContext Peer unit
}.
Arguments mkServerCancellation {_ _ T H State Peer}. Arguments cancellation_transport {_ _ T H State Peer}.
Arguments cancellation_request {_ _ T H State Peer}. Arguments cancellation_state {_ _ T H State Peer}.
Arguments cancellation_handler {_ _ T H State Peer}. Arguments cancellation_context {_ _ T H State Peer}.

Definition cancellation_teardown `{TlsLibrary} {T H State Peer} (c : ServerCancellation T H State Peer)
    : AcceptedServerTransport T * CancellationRequest * State * H * ServerConnectionContext Peer unit :=
  (cancellation_transport c, cancellation_request c, cancellation_state c, cancellation_handler c, cancellation_context c).

Inductive ServerAccept `{TlsLibrary} (T H State Peer Identity : Type) : Type :=
| Accept_Session (core : ServerConnectionCore T H (ServerConnectionContext Peer Identity)) (st : State)
| Accept_Cancellation (cancellation : ServerCancellation T H State Peer).
Arguments Accept_Session {_ _ T H State Peer Identity}. Arguments Accept_Cancellation {_ _ T H State Peer Identity}.

Section Accepting.
Context {H State Resolver Route RouteError World Peer Identity Policy AuthError T Tls Provider ProviderError Authentication Factory : Type}.
Abbreviation Context_ := (ServerConnectionContext Peer Identity).
Abbreviation Env := (ServerEnv H State Resolver World).
Context `{Profile : BuildProfile} `{TlsLibrary} `{Certificates} `{AsyncIo T}.
Context `{!ServerMiddleware H State Context_} `{!MiddlewareFactory Factory Context_ H}.
Context `{!ServerAuthentication Policy Peer Identity AuthError World}.
Context `{!ServerAuthenticationProvider Authentication Policy World}.
Context `{!StartupResolver Resolver State Context_ Route RouteError World}.
Context `{!ServerTlsConfiguration Tls Provider} `{!ServerIdentityProvider Provider ProviderError World}.
Context (fuel : nat) (server : Server Tls Authentication Factory).
Abbreviation Routed A := (M Env (RoutedAcceptError ProviderError AuthError RouteError) A).
Abbreviation Outcome := (ServerAccept T H State Peer Identity * option Route)%type.

Definition resolve_startup (message : StartupMessage) (context : Context_) : M Env RouteError Route := fun env =>
  let '(r, (resolver, st, w)) := startup_resolve message context (senv_resolver env) (senv_state env) (senv_world env) in
  (Some r, mkServerEnv (senv_handler env) st resolver w).

(** The parts a returned branch owns. *)
Definition with_parts {E A} (f : H -> State -> A) : M Env E A := fun env =>
  (Some (Ok (f (senv_handler env) (senv_state env))), env).

(** The cancellation branch. *)
Definition accept_cancellation (transport : AcceptedServerTransport T) (process_id : Z) (secret_key : bytes)
    (context : Context_) : Routed Outcome :=
  do request <- on_hook server_cancellation context (mkCancellation process_id secret_key);
  with_parts (fun h st =>
    (Accept_Cancellation (mkServerCancellation transport request st h
       (mkServerContext (server_peer context) (server_tls context) None)), None)).

(** The startup branch over either transport. *)
Definition accept_session {I} `{AsyncIo I} (inner : Conn (Buffered I) SV.Ready Pristine -> ServerConnectionInner T)
    (startup_conn : Conn (Buffered I) Phase.Startup Pristine) (message : StartupMessage) (context : Context_)
    : Routed Outcome :=
  do message <- on_hook server_startup context message;
  do route <- outcome (resolve_startup message context);
  match route with
  | Ok route =>
      do deferred <- (fun env => (Some (Ok (defer_ready (senv_resolver env))), env));
      do (ready, context) <- wrap_error Routed_Accept
        (complete_auth fuel startup_conn message (server_authentication_policy server) context deferred);
      with_parts (fun h st => (Accept_Session (mkServerCore (inner ready) message h context) st, Some route))
  | Err error => abort startup_conn (Routed_Route error)
  | Panic => panic
  end.

Definition decline {I} `{AsyncIo I} (conn : io (Conn (Buffered I) Phase.PreStartup Pristine))
    : Routed (Conn (Buffered I) Phase.PreStartup Pristine) :=
  do conn <- wrap_error (fun error => Routed_Accept (Accept_Io error)) (of_result conn);
  wrap_error Routed_Accept (flush_or_abort fuel conn).

Definition accept_io : io_error -> RoutedAcceptError ProviderError AuthError RouteError :=
  fun error => Routed_Accept (Accept_Io error).

Definition await_pre_startup {I} `{AsyncIo I} (conn : Conn (Buffered I) Phase.PreStartup Pristine) (context : Context_)
    : Routed (PreStartupMessage * Conn (Buffered I) Phase.PreStartup Pristine) :=
  do (message, conn) <- or_abort accept_io (receive_pre_startup_wire fuel never) conn;
  do message <- on_hook server_pre_startup_hook context message;
  ret (message, conn).

(** The loop of [accept_encrypted]. *)
Fixpoint encrypted_loop (rounds : nat) (conn : Conn (Buffered (ServerTls T)) Phase.PreStartup Pristine)
    (context : Context_) : Routed Outcome :=
  match rounds with
  | O => unfinished
  | S rounds =>
      do (message, conn) <- await_pre_startup conn context;
      match offer_pre_startup conn message with
      | Offer_Ssl decision => do conn <- decline (decline_ssl decision); encrypted_loop rounds conn context
      | Offer_Gss decision => do conn <- decline (decline_gss decision); encrypted_loop rounds conn context
      | Offer_Cancel terminal process_id secret_key =>
          do b <- of_result (map_err accept_io (into_transport terminal));
          accept_cancellation (Accepted_Tls (stream b)) process_id secret_key context
      | Offer_Startup startup_conn message => accept_session Inner_Tls startup_conn message context
      end
  end.

Definition accept_encrypted (conn : Conn (Buffered (ServerTls T)) Phase.PreStartup Pristine) (context : Context_)
    : Routed Outcome :=
  do b <- of_result (match transport conn with Some b => Ok b | None => Panic end);
  encrypted_loop fuel conn (set_negotiated (Negotiated_Tls (server_end_point (stream b))) context).

(** The diagnostic is best effort. *)
Definition send_tls_required (conn : Conn (Buffered T) Phase.Startup Pristine) : Routed Outcome :=
  do conn <-
    match BackendMessage_to_frame tls_required_diagnostic with
    | Ok frame =>
        match push_frame frame conn with
        | (Some Panic, _) => panic
        | (_, conn) =>
            match conn_flush fuel conn with
            | (Some Panic, _) => panic
            | (Some _, conn) => ret conn
            | (None, _) => unfinished
            end
        end
    | _ => ret conn
    end;
  abort conn (Routed_Accept TlsRequired).

(** The loop of [accept_routed]. *)
Fixpoint accept_loop (rounds : nat) (conn : Conn (Buffered T) Phase.PreStartup Pristine) (context : Context_)
    : Routed Outcome :=
  match rounds with
  | O => unfinished
  | S rounds =>
      do (message, conn) <- await_pre_startup conn context;
      match offer_pre_startup conn message with
      | Offer_Ssl decision =>
          match tls_identities (server_tls_policy server) with
          | None => do conn <- decline (decline_ssl decision); accept_loop rounds conn context
          | Some provider =>
              do resolved <- outcome (in_server_world (identity_resolve provider));
              match resolved with
              | Ok resolved =>
                  do handshake <- of_result (map_err accept_io (approve_ssl decision));
                  do handshake <- wrap_error Routed_Accept (flush_or_abort fuel handshake);
                  do encrypted <- of_result (map_err accept_io
                    (conn_accept_tls (fun s => tls_accept s (identity_config resolved) (leaf_certificate resolved)) handshake));
                  accept_encrypted encrypted context
              | Err error => abort decision (Routed_Accept (Accept_TlsIdentity error))
              | Panic => panic
              end
          end
      | Offer_Gss decision => do conn <- decline (decline_gss decision); accept_loop rounds conn context
      | Offer_Cancel terminal process_id secret_key =>
          do b <- of_result (map_err accept_io (into_transport terminal));
          accept_cancellation (Accepted_Plaintext (stream b)) process_id secret_key (set_negotiated Negotiated_Plaintext context)
      | Offer_Startup startup_conn message =>
          if tls_required (server_tls_policy server) then send_tls_required startup_conn
          else accept_session Inner_Plaintext startup_conn message (set_negotiated Negotiated_Plaintext context)
      end
  end.

Definition buffer_transport (transport : T) : io (Buffered T) :=
  with_limits_frontend transport (server_max_frame_len (server_limits server)) (server_max_pre_startup (server_limits server)).

(** [accept_routed]: the resolver and the world come back. *)
Definition accept_routed (transport : T) (peer : Peer) (st : State) (resolver : Resolver) (w : World)
    : option (result Outcome (RoutedAcceptError ProviderError AuthError RouteError)) * (Resolver * World) :=
  let context := mkServerContext peer None None in
  let handler := create (server_middleware server) context in
  let (r, env) :=
    (do buffered <- of_result (map_err accept_io (buffer_transport transport));
     accept_loop fuel (Conn_new buffered) context) (mkServerEnv handler st resolver w) in
  (r, (senv_resolver env, senv_world env)).
End Accepting.

(** [accept]: no route, whose error type is empty. *)
Definition accept_error {TlsErr AuthErr} (e : RoutedAcceptError TlsErr AuthErr Empty_set) : AcceptError TlsErr AuthErr :=
  match e with Routed_Accept error => error | Routed_Route never => match never with end end.

Section Accept.
Context {H State World Peer Identity Policy AuthError T Tls Provider ProviderError Authentication Factory : Type}.
Context `{Profile : BuildProfile} `{TlsLibrary} `{Certificates} `{AsyncIo T}.
Context `{!ServerMiddleware H State (ServerConnectionContext Peer Identity)}.
Context `{!MiddlewareFactory Factory (ServerConnectionContext Peer Identity) H}.
Context `{!ServerAuthentication Policy Peer Identity AuthError World}.
Context `{!ServerAuthenticationProvider Authentication Policy World}.
Context `{!ServerTlsConfiguration Tls Provider} `{!ServerIdentityProvider Provider ProviderError World}.

Definition accept (fuel : nat) (server : Server Tls Authentication Factory) (transport : T) (peer : Peer) (st : State) (w : World)
    : option (result (ServerAccept T H State Peer Identity) (AcceptError ProviderError AuthError)) * World :=
  let '(r, (_, w)) := accept_routed fuel server transport peer st mkNoStartupRoute w in
  ((fun r => map_err accept_error (result_map fst r)) <$> r, w).
End Accept.

(** ** The operational connection *)

Section Operational.
Context {T H State Context_ : Type} `{TlsLibrary} `{AsyncIo T} `{!ServerMiddleware H State Context_} (fuel : nat).
Abbreviation Core := (ServerConnectionCore T H Context_).

Definition set_server_conn (conn : ServerConnectionInner T) (c : Core) : Core :=
  mkServerCore conn (server_startup_message c) (server_handler c) (server_context c).

(** An operation of the connection inside, whatever its transport. *)
Definition on_inner {A}
    (plain : Conn (Buffered T) SV.Ready Pristine -> option (io A) * Conn (Buffered T) SV.Ready Pristine)
    (tls : Conn (Buffered (ServerTls T)) SV.Ready Pristine -> option (io A) * Conn (Buffered (ServerTls T)) SV.Ready Pristine)
    (c : Core) : option (io A) * Core :=
  match server_conn c with
  | Inner_Plaintext conn => let (r, conn) := plain conn in (r, set_server_conn (Inner_Plaintext conn) c)
  | Inner_Tls conn => let (r, conn) := tls conn in (r, set_server_conn (Inner_Tls conn) c)
  end.

Definition server_receive_wire_raw : Core -> option (io FrontendMessage) * Core :=
  on_inner (receive_frontend_wire fuel) (receive_frontend_wire fuel).

Definition server_send_wire_raw (message : BackendMessage) (c : Core) : option (io unit) * Core :=
  match BackendMessage_to_frame message with
  | Ok frame =>
      match on_inner (push_frame frame) (push_frame frame) c with
      | (Some (Ok _), c) => on_inner (conn_flush fuel) (conn_flush fuel) c
      | r => r
      end
  | Err e => (Some (Err e), c)
  | Panic => (Some Panic, c)
  end.

(** [intercept_frontend] and [intercept_backend] *)
Definition server_intercept {Msg} (on : hook H Context_ State Msg) (st : State) (message : Msg) (c : Core) : Msg * (Core * State) :=
  let '(message, (h, st)) := on (server_handler c) (server_context c) st message in
  (message, (mkServerCore (server_conn c) (server_startup_message c) h (server_context c), st)).

Definition server_receive_wire (c : Core) (st : State) : option (io FrontendMessage) * (Core * State) :=
  match server_receive_wire_raw c with
  | (Some (Ok message), c) =>
      let (message, cs) := server_intercept server_frontend st message c in (Some (Ok message), cs)
  | (r, c) => (r, (c, st))
  end.

Definition server_send_wire (message : BackendMessage) (c : Core) (st : State) : option (io unit) * (Core * State) :=
  let '(message, (c, st)) := server_intercept server_backend st message c in
  let (r, c) := server_send_wire_raw message c in (r, (c, st)).

Definition send_generated_error (message : BackendMessage) (c : Core) (st : State) : option (io unit) * (Core * State) :=
  let '(message, (c, st)) := server_intercept server_backend st message c in
  match message with
  | B_ErrorResponse _ => let (r, c) := server_send_wire_raw message c in (r, (c, st))
  | _ => (Some (Err (Wire.invalid "middleware rejected generated diagnostic")), (c, st))
  end.

Definition server_teardown (c : Core) (st : State) : io (AcceptedServerTransport T * State * H * Context_) :=
  match server_conn c with
  | Inner_Plaintext conn =>
      let? b := into_transport conn in Ok (Accepted_Plaintext (stream b), st, server_handler c, server_context c)
  | Inner_Tls conn => let? b := into_transport conn in Ok (Accepted_Tls (stream b), st, server_handler c, server_context c)
  end.
End Operational.
