(* ===== verification/ServerSpec.v ===== *)
(** What connection establishment of the server role guarantees. *)

From Stdlib Require Import ZArith Lia String.
From Stdlib Require Import Init.Byte.
From stdpp Require Import prelude.
From S2P Require Import Prelude OrdMap Wire Frame Frontend Startup Backend Demux Fsm Grammar Resources PreStartup Transport Session ServerSession Scram Auth RuntimeMiddleware Intermediary Tls Establish EstablishProofs ClientComponent ServerComponent TlsModel.

Local Open Scope string_scope.
Local Open Scope Z_scope.
Local Open Scope list_scope.
Local Open Scope establish_scope.

(** ** The receives of authentication, message by message *)

Section Receives.
Context {S : Type} {C : Cleanliness}.

(** Evaluate the grammar's projection of the message at hand. *)
Ltac project_message :=
  lazymatch goal with
  | |- context [project_external ?g ?s ?m] =>
      let v := eval vm_compute in (project_external g s m) in change (project_external g s m) with v
  end.

Lemma receive_password_equation (c : Conn S SAP.ServerPassword C) m : receive_password c m =
  match m with
  | F_PasswordResponse body =>
      match password_body body with
      | Ok password => Ok (transition c, password)
      | Err body => Err (c, F_PasswordResponse body)
      | Panic => Panic
      end
  | m => Err (c, m)
  end.
Proof. unfold receive_password. destruct m; project_message; reflexivity. Qed.

Lemma receive_initial_equation (c : Conn S SAP.ServerSaslInitial C) m : receive_initial c m =
  match m with
  | F_PasswordResponse body =>
      match sasl_initial body with
      | Ok initial => Ok (transition c, initial)
      | Err body => Err (c, F_PasswordResponse body)
      | Panic => Panic
      end
  | m => Err (c, m)
  end.
Proof. unfold receive_initial. destruct m; project_message; reflexivity. Qed.

Lemma receive_sasl_response_equation (c : Conn S SAP.ServerSaslResponse C) m : receive_sasl_response c m =
  match m with F_PasswordResponse response => Ok (transition c, response) | m => Err (c, m) end.
Proof. unfold receive_sasl_response. destruct m; project_message; reflexivity. Qed.

Lemma receive_token_response_equation (c : Conn S SAP.ServerAuthResponse C) m : receive_token_response c m =
  match m with F_PasswordResponse response => Ok (transition c, response) | m => Err (c, m) end.
Proof. unfold receive_token_response. destruct m; project_message; reflexivity. Qed.

Lemma password_body_no_panic body : password_body body <> Panic.
Proof. unfold password_body. now destruct (_ && _). Qed.
Lemma sasl_initial_no_panic body : sasl_initial body <> Panic.
Proof.
  unfold sasl_initial. destruct (Auth.position_nul body); [|done]. destruct (_ <? 4); [done|].
  destruct (_ && _); [done|]. destruct (_ <? 0); [done|]. now destruct (negb _).
Qed.
End Receives.

(** ** Consultations *)

(** The kind of answer a question to the client calls for; an admission, and
    the end of a SASL exchange, ask nothing. *)
Definition answers {Identity} (question : ServerAuthenticationAction Identity) (response : ServerAuthenticationResponse) : Prop :=
  match question, response with
  | (Act_CleartextPassword | Act_Md5Password _), Resp_Password _ => True
  | Act_Sasl _, Resp_SaslInitial _ _ => True
  | Act_SaslContinue _, Resp_Sasl _ => True
  | (Act_KerberosV5 | Act_Gss | Act_Sspi | Act_GssContinue _), Resp_Token _ => True
  | _, _ => False
  end.

Section Consultations.
Context {Policy Peer Identity Error World : Type} {Auth : ServerAuthentication Policy Peer Identity Error World}.
Context (fresh : Policy -> Prop).

(** Where a consultation on [request] has come to: the policy's last action and
    the policy after it. It begins with [start] on a fresh policy, and goes on
    with [respond] on an answer to the question last asked. *)
Inductive consulted (request : ServerAuthenticationRequest Peer) : ServerAuthenticationAction Identity -> Policy -> Prop :=
| consulted_start policy policy' action (w w' : World) :
    fresh policy -> policy_start request policy w = (Ok action, (policy', w')) -> consulted request action policy'
| consulted_respond question policy policy' response action (w w' : World) :
    consulted request question policy -> answers question response ->
    policy_respond request response policy w = (Ok action, (policy', w')) -> consulted request action policy'.

(** Such a consultation granted [identity]: at once, or in answer to a response
    to the question it had come to. *)
Definition granted (request : ServerAuthenticationRequest Peer) (identity : Identity) : Prop :=
  (exists (policy : Policy) (w : World), fresh policy /\ (policy_start request policy w).1 = Ok (Act_Accept identity)) \/
  (exists question (policy : Policy) response (w : World), consulted request question policy /\ answers question response /\
     ((policy_respond request response policy w).1 = Ok (Act_Accept identity) \/
      exists final, (policy_respond request response policy w).1 = Ok (Act_SaslFinal final identity))).

(** What an action of the policy says of the identity. *)
Definition action_granted (request : ServerAuthenticationRequest Peer) (action : ServerAuthenticationAction Identity) : Prop :=
  match action with
  | Act_Accept identity | Act_SaslFinal _ identity => granted request identity
  | _ => True
  end.
End Consultations.

Lemma consulted_mono {Policy Peer Identity Error World} {Auth : ServerAuthentication Policy Peer Identity Error World}
    (fresh fresh' : Policy -> Prop) request question policy :
  (forall p, fresh p -> fresh' p) -> consulted fresh request question policy -> consulted fresh' request question policy.
Proof. intros Hf. induction 1; [eapply consulted_start|eapply consulted_respond]; eauto. Qed.

(** Policies do not panic on what they are asked: neither [start], nor [respond]
    on an answer to a question they put. Trust asks nothing, so the
    [unreachable!] of its [respond] is no obstacle. *)
Class ServerPolicyTotal {Policy Peer Identity Error World : Type} `(!ServerAuthentication Policy Peer Identity Error World) : Prop := {
  start_total request (p : Policy) (w : World) : (policy_start request p w).1 <> Panic;
  server_respond_total request question response (p : Policy) (w : World) :
    consulted (fun _ => True) request question p -> answers question response -> (policy_respond request response p w).1 <> Panic
}.
#[export] Instance md5_total `{Crypto} {World Peer} : ServerPolicyTotal (World := World) (md5_policy (Peer := Peer)).
Proof.
  split; [done|]. intros request question [] p w _ _; cbn; try done. now destruct (negb _).
Qed.
#[export] Instance trust_server_total {World Peer} : ServerPolicyTotal (World := World) (trust_policy (Peer := Peer)).
Proof.
  split; [done|]. intros request question response p w Hc Ha. exfalso.
  enough (question = Act_Accept mkTrustIdentity) by now subst. clear Ha.
  induction Hc as [policy policy' action w0 w1 _ Hs|q policy policy' r action w0 w1 _ -> Hr Ho]; [|done]. cbn in Hs. now simplify_eq.
Qed.

Section Safety.
Context {H State Resolver World Peer Identity Policy AuthError TlsErr : Type}.
Abbreviation Context_ := (ServerConnectionContext Peer Identity).
Abbreviation Env := (ServerEnv H State Resolver World).
Context `{Profile : BuildProfile} `{!ServerMiddleware H State Context_}.
Context `{Auth : !ServerAuthentication Policy Peer Identity AuthError World}.
Abbreviation Accept A := (M Env (AcceptError TlsErr AuthError) A).

Context (fresh : Policy -> Prop).

Abbreviation consulted := (consulted (Auth := Auth) fresh).
Abbreviation granted := (granted (Auth := Auth) fresh).
Abbreviation action_granted := (action_granted (Auth := Auth) fresh).

Lemma safe_on_hook {E Msg} (on : hook H Context_ State Msg) context m :
  safe (Env := Env) (E := E) (on_hook on context m) (fun _ => True).
Proof. intros env. unfold on_hook. now destruct (on _ _ _ _) as [? []]. Qed.

Lemma safe_server_world {E A} (op : World -> result A E * World) :
  (forall w, (op w).1 <> Panic) -> safe (Env := Env) (in_server_world op) (fun a => exists w w', op w = (Ok a, w')).
Proof.
  intros Hp env. specialize (Hp (senv_world env)). unfold in_server_world.
  destruct (op (senv_world env)) as [[a|e|] w] eqn:Eo; cbn in *; [eauto|done..].
Qed.

Context `{Total : !ServerPolicyTotal Auth}.

Lemma safe_respond {E} policy request question response : consulted request question policy -> answers question response ->
  safe (Env := Env) (E := E) (consult policy (policy_respond request response))
    (fun '(r, policy) => r <> Panic /\ forall action, r = Ok action -> consulted request action policy /\ action_granted request action).
Proof using Total.
  intros Hc Ha env. unfold consult.
  pose proof (server_respond_total request question response policy (senv_world env) (consulted_mono _ _ _ _ _ (fun _ _ => I) Hc) Ha) as Hp.
  destruct (policy_respond request response policy (senv_world env)) as [[action|e|] [p w]] eqn:Er; cbn in *; try done.
  split; [done|]. intros ? [= <-]. split; [exact (consulted_respond _ _ _ _ _ _ _ _ _ Hc Ha Er)|].
  assert (forall identity, action = Act_Accept identity \/ (exists final, action = Act_SaslFinal final identity) -> granted request identity) as Hg.
  { intros identity Hi. right. exists question, policy, response, (senv_world env). rewrite Er. cbn.
    destruct Hi as [->|[final ->]]; eauto. }
  destruct action; cbn; try done; apply Hg; eauto.
Qed.

Lemma safe_start {E} policy request : fresh policy ->
  safe (Env := Env) (E := E) (consult policy (policy_start request))
    (fun '(r, policy) => r <> Panic /\ forall action, r = Ok action -> consulted request action policy /\
       forall identity, action = Act_Accept identity -> granted request identity).
Proof using Total.
  intros Hf env. unfold consult. pose proof (start_total request policy (senv_world env)) as Hp.
  destruct (policy_start request policy (senv_world env)) as [[action|e|] [p w]] eqn:Er; cbn in *; try done.
  split; [done|]. intros ? [= <-]. split; [exact (consulted_start _ _ _ _ _ _ _ Hf Er)|].
  intros identity ->. left. exists policy, (senv_world env). now rewrite Er.
Qed.

Lemma safe_with_live {T A} {Ph : Type} {P : Ph} {C} (c : Conn T P C) (m : M Env io_error A) (Φ : A -> Prop) :
  safe m Φ -> safe (with_live (TlsErr := TlsErr) (AuthError := AuthError) c m) Φ.
Proof.
  intros Hm. eapply safe_bind; [apply safe_outcome, Hm|]. intros [a|e|] Ha; [now apply safe_ret|apply safe_dropping|done].
Qed.

Lemma safe_encode m : safe (Env := Env) (of_result (BackendMessage_to_frame m)) (fun _ => True).
Proof. apply safe_result; [apply BackendMessage_to_frame_no_panic|done]. Qed.

Lemma safe_intercept_backend context frame :
  safe (Env := Env) (intercept_server_backend context frame) (fun _ => True).
Proof.
  eapply (safe_bind _ _ (fun _ => True)); [apply safe_result; [apply Backend_decode_no_panic|done]|]. intros m _.
  eapply safe_bind; [apply safe_on_hook|]. intros m' _. apply safe_encode.
Qed.

Section Exchanges.
Context {I : Type} `{AsyncIo I} (Q : I -> Prop) `{!StreamStable Q} `{!StreamTotal I} (fuel : nat).
Abbreviation C P := (Conn (Buffered I) P Pristine).
Abbreviation alive := (holds Q (fun _ => True)).

Lemma safe_flush_or_abort {Ph : Type} {P : Ph} (c : C P) : alive c ->
  safe (flush_or_abort fuel c : Accept (C P)) alive.
Proof using StreamStable0 StreamTotal0.
  intros Hc. eapply safe_bind; [apply (safe_or_abort Q), Hc; apply (keeps_flush Q)|]. intros [[] c'] Hc'. now apply safe_ret.
Qed.
Lemma safe_push_or_abort {Ph : Type} {P : Ph} (c : C P) frame : alive c ->
  safe (push_or_abort c frame : Accept (C P)) alive.
Proof using StreamStable0 StreamTotal0.
  intros Hc. eapply safe_bind; [apply (safe_or_abort Q), Hc; apply (keeps_push Q)|]. intros [[] c'] Hc'. now apply safe_ret.
Qed.
Lemma safe_challenge {Ph : Type} {P : Ph} context (c : C P) frame : alive c ->
  safe (challenge fuel context c frame : Accept (C P * FrontendMessage)) (fun '(c, _) => alive c).
Proof using StreamStable0 StreamTotal0.
  intros Hc. eapply safe_bind; [apply safe_with_live, safe_intercept_backend|]. intros f _.
  eapply safe_bind; [apply safe_push_or_abort, Hc|]. intros c1 Hc1.
  eapply safe_bind; [apply safe_flush_or_abort, Hc1|]. intros c2 Hc2.
  eapply (safe_bind _ _ (fun '(c, _) => alive c)).
  { eapply safe_bind; [apply (safe_or_abort Q), Hc2; apply (keeps_frontend Q)|]. intros [m c3] Hc3. now apply safe_ret. }
  intros [c4 wire] Hc4. eapply safe_bind; [apply safe_on_hook|]. intros wire' _. now apply safe_ret.
Qed.

(** A request of the server, and its encoding. *)
Lemma safe_request {P P' : SAP.t} (c : C P) (frame : io Frame) : frame <> Panic -> alive c ->
  safe (wrap_error Accept_Io (of_result (transition_with_frame (Q := P') c frame)) : Accept (C P' * Frame)) (fun '(c, _) => alive c).
Proof.
  intros Hf Hc. apply safe_wrap, safe_result; destruct Hc as (b & Hb & Hq); unfold transition_with_frame;
    destruct frame; try done; unfold into_transport; rewrite ?Hb; try done.
  intros [] [= <- <-]. exists b. done.
Qed.

(** The result of an exchange. *)
Definition authenticated (request : ServerAuthenticationRequest Peer) (r : C SAP.ServerAuth * Identity * option Frame) : Prop :=
  alive r.1.1 /\ granted request r.1.2.

Lemma safe_authenticate_password auth policy request question context :
  safe (wrap_error Accept_Io (of_result auth) : Accept (C SAP.ServerPassword * Frame)) (fun '(c, _) => alive c) ->
  consulted request question policy -> (forall credential, answers question (Resp_Password credential)) ->
  safe (authenticate_password fuel auth policy request context : Accept _) (authenticated request).
Proof using StreamStable0 StreamTotal0 Total.
  intros Ha Hk Hq. eapply safe_bind; [exact Ha|]. intros [c frame] Hc.
  eapply safe_bind; [apply safe_challenge, Hc|]. intros [c1 wire] Hc1. rewrite receive_password_equation.
  destruct wire; try eapply safe_abort, Hc1. rename data into body. pose proof (password_body_no_panic body).
  destruct (password_body body) as [credential|?|]; [|eapply safe_abort, Hc1|done].
  eapply safe_bind; [apply (safe_respond _ _ _ _ Hk), Hq|]. intros [[action|e|] policy'] [Hp Hg]; [|eapply safe_abort, holds_transition, Hc1|done].
  specialize (Hg _ eq_refl) as [_ Hg]. destruct action; try (eapply safe_abort, holds_transition, Hc1). now apply safe_ret.
Qed.

Lemma safe_server_sasl_loop rounds : forall c action policy request context, alive c -> consulted request action policy -> action_granted request action ->
  safe (server_sasl_loop fuel rounds c action policy request context : Accept _) (authenticated request).
Proof using StreamStable0 StreamTotal0 Total.
  induction rounds as [|rounds IH]; intros c action policy request context Hc Hk Hg; cbn [server_sasl_loop]; [apply safe_unfinished|].
  destruct action; try (eapply safe_abort, Hc).
  - eapply safe_bind; [apply safe_request, Hc; apply BackendMessage_to_frame_no_panic|]. intros [c1 frame] Hc1.
    eapply safe_bind; [apply safe_challenge, Hc1|]. intros [c2 wire] Hc2. rewrite receive_sasl_response_equation.
    destruct wire; try eapply safe_abort, Hc2.
    eapply safe_bind; [now apply (safe_respond _ _ _ _ Hk)|]. intros [[action|e|] policy'] [Hp Hg']; [|eapply safe_abort, holds_transition, Hc2|done].
    now apply IH; [|apply Hg'..].
  - eapply safe_bind; [apply safe_request, Hc; apply BackendMessage_to_frame_no_panic|]. intros [c1 frame] Hc1.
    now apply safe_ret.
Qed.

Lemma safe_authenticate_sasl auth mechanisms policy request context : alive auth -> consulted request (Act_Sasl mechanisms) policy ->
  safe (authenticate_sasl fuel auth mechanisms policy request context : Accept _) (authenticated request).
Proof using StreamStable0 StreamTotal0 Total.
  intros Hc Hk. unfold authenticate_sasl. destruct (existsb _ _); [eapply safe_abort, Hc|].
  eapply safe_bind; [apply safe_request, Hc; apply BackendMessage_to_frame_no_panic|]. intros [c1 frame] Hc1.
  eapply safe_bind; [apply safe_challenge, Hc1|]. intros [c2 wire] Hc2. rewrite receive_initial_equation.
  destruct wire; try eapply safe_abort, Hc2. rename data into body. pose proof (sasl_initial_no_panic body).
  destruct (sasl_initial body) as [initial|?|]; [|eapply safe_abort, Hc2|done].
  eapply safe_bind; [now apply (safe_respond _ _ _ _ Hk)|]. intros [[action|e|] policy'] [Hp Hg]; [|eapply safe_abort, holds_transition, Hc2|done].
  now apply safe_server_sasl_loop; [|apply Hg..].
Qed.

Lemma safe_server_token_loop rounds : forall c frame policy request question context, alive c ->
  consulted request question policy -> (forall token, answers question (Resp_Token token)) ->
  safe (server_token_loop fuel rounds c frame policy request context : Accept _) (authenticated request).
Proof using StreamStable0 StreamTotal0 Total.
  induction rounds as [|rounds IH]; intros c frame policy request question context Hc Hk Hq; cbn [server_token_loop]; [apply safe_unfinished|].
  eapply safe_bind; [apply safe_challenge, Hc|]. intros [c2 wire] Hc2. rewrite receive_token_response_equation.
  destruct wire; try eapply safe_abort, Hc2.
  eapply safe_bind; [apply (safe_respond _ _ _ _ Hk), Hq|]. intros [[action|e|] policy'] [Hp Hg]; [|eapply safe_abort, holds_transition, Hc2|done].
  specialize (Hg _ eq_refl) as [Hk' Hg]. destruct action; try (eapply safe_abort, holds_transition, Hc2); [now apply safe_ret|].
  eapply safe_bind; [apply safe_request, holds_transition, Hc2; apply BackendMessage_to_frame_no_panic|]. intros [c3 frame'] Hc3.
  now eapply IH; [|exact Hk'|].
Qed.

Lemma safe_authenticate auth action policy request context : alive auth -> consulted request action policy ->
  (forall identity, action = Act_Accept identity -> granted request identity) ->
  safe (authenticate fuel auth action policy request context : Accept _) (authenticated request).
Proof using StreamStable0 StreamTotal0 Total.
  intros Hc Hk Hg. destruct action; cbn [authenticate]; try (eapply safe_abort, Hc).
  - apply safe_ret. split; [done|]. now apply Hg.
  - eapply safe_authenticate_password; [|exact Hk|done]. apply safe_request, Hc. apply BackendMessage_to_frame_no_panic.
  - eapply safe_authenticate_password; [|exact Hk|done]. apply safe_request, Hc. apply BackendMessage_to_frame_no_panic.
  - now apply safe_authenticate_sasl.
  - eapply safe_bind; [apply safe_request, Hc; apply BackendMessage_to_frame_no_panic|]. intros [c1 frame] Hc1.
    now eapply safe_server_token_loop; [|exact Hk|].
  - eapply safe_bind; [apply safe_request, Hc; apply BackendMessage_to_frame_no_panic|]. intros [c1 frame] Hc1.
    now eapply safe_server_token_loop; [|exact Hk|].
  - eapply safe_bind; [apply safe_request, Hc; apply BackendMessage_to_frame_no_panic|]. intros [c1 frame] Hc1.
    now eapply safe_server_token_loop; [|exact Hk|].
Qed.

(** A connection with nothing left to send. *)
Definition drained {Ph : Type} {P : Ph} (c : C P) : Prop :=
  exists b, transport c = Some b /\ Q (stream b) /\ outbound b = [].

Lemma flush_drains n : forall b b', flush n b = (Some (Ok tt), b') -> outbound b' = [].
Proof.
  induction n as [|n IH]; intros b b' Hf; cbn [flush] in Hf; [done|]. destruct (outbound b) as [|x o] eqn:Eo.
  - destruct (poll_flush (stream b)) as [[r|] s]; [|now apply IH in Hf]. now injection Hf as -> <-.
  - destruct (poll_write (x :: o) (stream b)) as [[[k|e|]|] s]; try done; [|now apply IH in Hf].
    destruct (k =? 0); [done|]. cbn in Hf. unfold advance in Hf. destruct (_ <? _)%nat; [done|]. now apply IH in Hf.
Qed.

Lemma safe_flush_drains {Ph : Type} {P : Ph} (c : C P) : alive c ->
  safe (flush_or_abort fuel c : Accept (C P)) drained.
Proof using StreamStable0 StreamTotal0.
  intros Hc. pose proof (keeps_flush Q fuel (fun _ => True) c Hc) as [Hc' Hp].
  unfold flush_or_abort, or_abort, on_conn, conn_flush, on_transport in *. destruct Hc as (b & Hb & _). rewrite Hb in *.
  destruct (flush fuel b) as [r b'] eqn:Ef; cbn in Hc', Hp. destruct r as [[[]|e|]|].
  - eapply (safe_bind _ _ (fun '(_, c) => c = mkConn (Some b'))); [now apply safe_ret|]. intros [[] c'] ->. apply safe_ret.
    destruct Hc' as (b1 & Hb1 & Hq & _). injection Hb1 as <-. exists b'. split; [done|]. split; [done|]. now apply (flush_drains fuel b).
  - eapply (safe_bind _ _ (fun _ => False)); [eapply safe_abort, Hc'|done].
  - done.
  - eapply (safe_bind _ _ (fun _ => False)); [apply safe_unfinished|done].
Qed.

Lemma safe_finish_startup auth final_frame deferred context : alive auth ->
  safe (finish_startup fuel auth final_frame deferred context : Accept _) drained.
Proof using StreamStable0 StreamTotal0.
  intros Hc. eapply safe_bind; [apply safe_request, Hc; apply BackendMessage_to_frame_no_panic|]. intros [c1 frame] Hc1.
  eapply (safe_bind _ _ alive).
  { destruct final_frame as [f|]; [|now apply safe_ret].
    eapply safe_bind; [apply safe_with_live, safe_intercept_backend|]. intros f' _. now apply safe_push_or_abort. }
  intros c2 Hc2. eapply safe_bind; [apply safe_on_hook|]. intros ok _.
  eapply safe_bind; [apply safe_with_live, safe_encode|]. intros okf _.
  eapply safe_bind; [apply safe_push_or_abort, Hc2|]. intros c3 Hc3.
  eapply (safe_bind _ _ (fun '(c, _) => alive c)).
  { apply safe_transition; unfold startup_ready; [done|]. now intros [] [= <- <-]. }
  intros [c4 f4] Hc4. eapply (safe_bind _ _ alive).
  { destruct deferred; [now apply safe_ret|]. eapply safe_bind; [apply safe_on_hook|]. intros m _.
    eapply safe_bind; [apply safe_with_live, safe_encode|]. intros f _. now apply safe_push_or_abort. }
  intros c5 Hc5. now apply safe_flush_drains.
Qed.

(** A completed authentication. *)
Definition admitted (message : StartupMessage) (tls : NegotiatedServerTls) (peer : Peer) (context : Context_) : Prop :=
  exists identity, context = mkServerContext peer (Some tls) (Some identity) /\ major (version message) = 3 /\
    granted (mkAuthenticationRequest message tls peer) identity.

Lemma safe_complete_auth {Authentication} `{!ServerAuthenticationProvider Authentication Policy World}
    (c : C Phase.Startup) message (provider : Authentication) peer tls deferred : alive c ->
  (forall w, fresh (policy_create provider w).1) ->
  safe (complete_auth fuel c message provider (mkServerContext peer (Some tls) None) deferred : Accept _)
    (fun '(ready, context) => drained ready /\ admitted message tls peer context).
Proof using StreamStable0 StreamTotal0 Total.
  intros Hc Hfresh. unfold complete_auth, validate_protocol. destruct (Z.eqb_spec (major (version message)) (major V3_2)) as [Hv|];
    [|eapply safe_abort, holds_transition, Hc].
  eapply safe_bind; [apply safe_server_world; intros w; now destruct (policy_create provider w)|]. intros policy (w & w' & Hw). cbn [server_tls known].
  eapply (safe_bind _ _ (eq tls)); [now apply safe_ret|]. intros ? <-.
  eapply safe_bind; [apply safe_start; specialize (Hfresh w); now destruct (policy_create provider w); simplify_eq|].
  intros [[action|e|] policy'] [Hp Hg]; [|eapply safe_abort, holds_transition, Hc|done].
  specialize (Hg _ eq_refl) as [Hk Hg]. eapply safe_bind.
  { apply safe_authenticate; [apply holds_transition, holds_transition, Hc|done|]. intros identity ->. now apply Hg. }
  intros [[auth identity] final] [Ha Hgr]. eapply safe_bind; [apply safe_finish_startup, Ha|]. intros ready Hr.
  apply safe_ret. split; [done|]. exists identity. done.
Qed.
End Exchanges.
End Safety.

(** ** Accepting *)

Section Accepting.
Context {H State Resolver Route RouteError World Peer Identity Policy AuthError T Tls Provider ProviderError Authentication Factory : Type}.
Abbreviation Context_ := (ServerConnectionContext Peer Identity).
Abbreviation Env := (ServerEnv H State Resolver World).
Context `{Profile : BuildProfile} `{TlsLibrary} `{Certificates} `{AsyncIo T}.
Context `{!ServerMiddleware H State Context_} `{!MiddlewareFactory Factory Context_ H}.
Context `{Auth : !ServerAuthentication Policy Peer Identity AuthError World} `{Total : !ServerPolicyTotal Auth}.
Context `{!ServerAuthenticationProvider Authentication Policy World}.
Context `{!StartupResolver Resolver State Context_ Route RouteError World}.
Context `{!ServerTlsConfiguration Tls Provider} `{!ServerIdentityProvider Provider ProviderError World}.
Context `{!StreamTotal T} `{!StreamTotal (ServerStream T)}.
Context (fuel : nat) (server : Server Tls Authentication Factory).
Abbreviation Routed A := (M Env (RoutedAcceptError ProviderError AuthError RouteError) A).
Abbreviation Outcome := (ServerAccept T H State Peer Identity * option Route)%type.

#[export] Instance ServerTls_total : StreamTotal (ServerTls T).
Proof using StreamTotal1.
  split.
  - intros [s b]; cbn; unfold delegate; pose proof (read_total s); now destruct (poll_read s).
  - intros [s b]; cbn; unfold delegate; pose proof (read_u8_total s); now destruct (poll_read_u8 s).
  - intros offered [s b]; cbn; unfold delegate; pose proof (write_total offered s); now destruct (poll_write offered s).
  - intros offered [s b] n; cbn; unfold delegate; pose proof (write_bounded offered s n); now destruct (poll_write offered s).
  - intros [s b]; cbn; unfold delegate; pose proof (flush_total s); now destruct (poll_flush s).
Qed.

(** I/O keeps the channel binding. *)
Definition bound_to (end_point : bytes) (s : ServerTls T) : Prop := server_end_point s = end_point.
#[export] Instance bound_to_stable end_point : StreamStable (bound_to end_point).
Proof.
  split; intros; destruct s as [s b]; cbn in *; unfold delegate;
    match goal with
    | |- context [poll_read ?s] => destruct (poll_read s)
    | |- context [poll_read_u8 ?s] => destruct (poll_read_u8 s)
    | |- context [poll_write ?o ?s] => destruct (poll_write o s)
    | |- context [poll_flush ?s] => destruct (poll_flush s)
    end; done.
Qed.

(** The policies of the component's provider. *)
Definition created (policy : Policy) : Prop := exists w, (policy_create (server_authentication_policy server) w).1 = policy.

Definition server_callbacks_total : Prop :=
  (forall message context r st w, server_tls context <> None -> (startup_resolve message context r st w).1 <> Panic) /\
  (forall provider, tls_identities (server_tls_policy server) = Some provider ->
     forall w, (identity_resolve provider w).1 <> Panic) /\
  (forall (s : T) config leaf, tls_accept s config leaf <> Panic).

(** An encrypted channel: terminated with an identity the policy's provider
    resolved, and bound to its leaf certificate. *)
Definition terminated_with (end_point : bytes) : Prop :=
  exists provider resolved w w', tls_identities (server_tls_policy server) = Some provider /\
    identity_resolve provider w = (Ok resolved, w') /\ channel_binding (leaf_certificate resolved) = Ok end_point.

(** A session's route: the resolver's answer for its startup message and its
    transport security. *)
Definition resolved (core : ServerConnectionCore T H Context_) (route : Route) : Prop :=
  exists resolver st w, (startup_resolve (server_startup_message core)
    (mkServerContext (server_peer (server_context core)) (server_tls (server_context core)) None) resolver st w).1 = Ok route.

(** A session's channel, drained, and who was admitted on it. *)
Definition session_accepted (peer : Peer) (core : ServerConnectionCore T H Context_) : Prop :=
  match server_conn core with
  | Inner_Plaintext c =>
      tls_required (server_tls_policy server) = false /\ drained (fun _ => True) c /\
      admitted created (server_startup_message core) Negotiated_Plaintext peer (server_context core)
  | Inner_Tls c =>
      exists end_point, terminated_with end_point /\ drained (bound_to end_point) c /\
        admitted created (server_startup_message core) (Negotiated_Tls end_point) peer (server_context core)
  end.

(** What [accept] may return. *)
Definition accepted (peer : Peer) (outcome : Outcome) : Prop :=
  match outcome with
  | (Accept_Session core _, Some route) => session_accepted peer core /\ resolved core route
  | (Accept_Cancellation cancellation, None) =>
      match cancellation_transport cancellation with
      | Accepted_Plaintext _ => cancellation_context cancellation = mkServerContext peer (Some Negotiated_Plaintext) None
      | Accepted_Tls s => terminated_with (server_end_point s) /\
          cancellation_context cancellation = mkServerContext peer (Some (Negotiated_Tls (server_end_point s))) None
      end
  | _ => False
  end.

Section Branches.
Context {I : Type} `{AsyncIo I} (Q : I -> Prop) `{!StreamStable Q} `{!StreamTotal I}.
Abbreviation alive := (holds Q (fun _ => True)).

Lemma safe_await_pre_startup (c : Conn (Buffered I) Phase.PreStartup Pristine) context : alive c ->
  safe (await_pre_startup fuel c context : Routed _) (fun '(_, c) => alive c).
Proof using StreamStable0 StreamTotal2.
  intros Hc. eapply safe_bind.
  { apply (safe_or_abort Q), Hc. apply (keeps_transport Q). intros b. apply (receive_pre_startup_moves Q). }
  intros [m c1] Hc1. eapply safe_bind; [apply safe_on_hook|]. intros m' _. now apply safe_ret.
Qed.

Lemma alive_reply {P P' : Phase.t} raw (c : Conn (Buffered I) P Pristine) : alive c ->
  exists c' : Conn (Buffered I) P' Pristine, raw_reply raw c = Ok c' /\ alive c'.
Proof.
  intros (b & Hb & Hq & _). unfold raw_reply. rewrite Hb. eexists. split; [done|]. eexists. split; [done|]. done.
Qed.

Lemma safe_decline {P : Phase.t} raw (c : Conn (Buffered I) P Pristine) : alive c ->
  safe (decline fuel (raw_reply raw c) : Routed _) alive.
Proof using StreamStable0 StreamTotal2.
  intros Hc. destruct (alive_reply (P' := Phase.PreStartup) raw c Hc) as (c' & -> & Hc').
  eapply (safe_bind _ _ (eq c')); [now apply safe_ret|]. intros ? <-. now apply safe_wrap, (safe_flush_or_abort Q).
Qed.

Lemma safe_accept_session inner (c : Conn (Buffered I) Phase.Startup Pristine) message peer tls :
  server_callbacks_total -> alive c ->
  (forall ready core, server_conn core = inner ready -> drained Q ready ->
     admitted created (server_startup_message core) tls peer (server_context core) -> session_accepted peer core) ->
  safe (accept_session fuel server inner c message (mkServerContext peer (Some tls) None) : Routed _) (accepted peer).
Proof using StreamStable0 StreamTotal2 Total.
  intros (Hres & _) Hc Hacc. eapply safe_bind; [apply safe_on_hook|]. intros message' _.
  eapply safe_bind; [eapply (safe_outcome _ (fun route => exists resolver st w,
    (startup_resolve message' (mkServerContext peer (Some tls) None) resolver st w).1 = Ok route))|].
  { intros env. unfold resolve_startup.
    specialize (Hres message' (mkServerContext peer (Some tls) None) (senv_resolver env) (senv_state env) (senv_world env) ltac:(done)).
    destruct (startup_resolve _ _ _ _ _) as [[] [[]]] eqn:Er; try done. cbn. exists (senv_resolver env), (senv_state env), (senv_world env).
    now rewrite Er. }
  intros [route|e|] Hr; [|eapply safe_abort, Hc|done]. eapply (safe_bind _ _ (fun _ => True)); [done|]. intros deferred _.
  eapply safe_bind; [apply safe_wrap, (safe_complete_auth created Q); [exact Hc|intros w; now exists w]|]. intros [ready context] [Hd Ha].
  intros env. unfold with_parts. cbn [fst]. split; [now apply (Hacc ready)|]. destruct Ha as (identity & -> & _). exact Hr.
Qed.

Lemma alive_transport {P : Phase.t} (c : Conn (Buffered I) P Pristine) : alive c ->
  exists b, into_transport c = Ok b /\ Q (stream b).
Proof. intros (b & Hb & Hq & _). exists b. unfold into_transport. now rewrite Hb. Qed.
End Branches.

Lemma safe_encrypted_loop rounds peer end_point : server_callbacks_total -> terminated_with end_point -> forall c,
  holds (bound_to end_point) (fun _ => True) c ->
  safe (encrypted_loop fuel server rounds c (mkServerContext peer (Some (Negotiated_Tls end_point)) None) : Routed Outcome)
    (accepted peer).
Proof using StreamTotal1 Total.
  intros Hcb Ht. induction rounds as [|rounds IH]; intros c Hc; cbn [encrypted_loop]; [apply safe_unfinished|].
  eapply safe_bind; [apply (safe_await_pre_startup (bound_to end_point)), Hc|]. intros [m c1] Hc1.
  destruct m; cbn [offer_pre_startup].
  - eapply safe_bind; [apply (safe_decline (bound_to end_point)), holds_transition, Hc1|]. intros c2 Hc2. now apply IH.
  - eapply safe_bind; [apply (safe_decline (bound_to end_point)), holds_transition, Hc1|]. intros c2 Hc2. now apply IH.
  - destruct (alive_transport (bound_to end_point) c1 Hc1) as (b & Hb & Hq). unfold into_transport in *. cbn [transport transition].
    destruct (transport c1); simplify_eq. eapply (safe_bind _ _ (eq b)); [now apply safe_ret|]. intros ? <-.
    eapply safe_bind; [apply safe_on_hook|]. intros request _ env. cbn. now rewrite Hq.
  - apply (safe_accept_session (bound_to end_point)); [done|apply holds_transition, Hc1|].
    intros ready core Hcore Hd Ha. unfold session_accepted. rewrite Hcore. eauto.
Qed.

Lemma safe_tls_required c peer : holds (fun _ => True) (fun _ => True) c ->
  safe (send_tls_required fuel c : Routed Outcome) (accepted peer).
Proof using StreamTotal0.
  intros Hc. eapply (safe_bind _ _ (holds (fun _ => True) (fun _ => True))); [|intros c' Hc'; eapply safe_abort, Hc'].
  destruct (BackendMessage_to_frame tls_required_diagnostic) as [frame| |]; [|now apply safe_ret..].
  pose proof (keeps_push (fun _ : T => True) frame (fun _ => True) c Hc) as [Hc1 Hp1].
  destruct (push_frame frame c) as [r1 c1]; cbn in Hc1, Hp1.
  pose proof (keeps_flush (fun _ : T => True) fuel (fun _ => True) c1 Hc1) as [Hc2 Hp2].
  assert (safe (match conn_flush fuel c1 with
    | (Some Panic, _) => panic | (Some _, conn) => ret conn | (None, _) => unfinished end
      : Routed _) (holds (fun _ => True) (fun _ => True))) as Hs.
  { destruct (conn_flush fuel c1) as [[[[]|e|]|] c2]; cbn in *; [now apply safe_ret|now apply safe_ret|done|apply safe_unfinished]. }
  destruct r1 as [[[]|e|]|]; [exact Hs|exact Hs|done|exact Hs].
Qed.

Lemma safe_accept_loop rounds peer : server_callbacks_total -> forall c, holds (fun _ => True) (fun _ => True) c ->
  safe (accept_loop fuel server rounds c (mkServerContext peer None None) : Routed Outcome) (accepted peer).
Proof using StreamTotal0 StreamTotal1 Total.
  intros Hcb. pose proof Hcb as (_ & Hprov & Htls).
  induction rounds as [|rounds IH]; intros c Hc; cbn [accept_loop]; [apply safe_unfinished|].
  eapply safe_bind; [apply (safe_await_pre_startup (fun _ => True)), Hc|]. intros [m c1] Hc1. destruct m; cbn [offer_pre_startup].
  - destruct (tls_identities (server_tls_policy server)) as [provider|] eqn:Hid.
    2:{ eapply safe_bind; [apply (safe_decline (fun _ => True)), holds_transition, Hc1|]. intros c2 Hc2. now apply IH. }
    eapply safe_bind; [apply safe_outcome, safe_server_world, (Hprov provider eq_refl)|].
    intros [resolved|e|] Hr; [|eapply safe_abort, holds_transition, Hc1|done]. destruct Hr as (w & w' & Hr).
    destruct (alive_reply (fun _ => True) (P' := Phase.TlsHandshake) ["S"%byte] (transition (P' := Phase.ServerSslDecision) (C' := Pristine) c1) Hc1)
      as (c2 & Hc2 & Hl2). unfold approve_ssl. rewrite Hc2.
    eapply (safe_bind _ _ (eq c2)); [now apply safe_ret|]. intros ? <-.
    eapply safe_bind; [apply safe_wrap, (safe_flush_or_abort (fun _ => True)), Hl2|]. intros c3 (b3 & Hb3 & _).
    eapply (safe_bind _ _ (fun c => exists b, transport c = Some b /\ terminated_with (server_end_point (stream b)))).
    { apply safe_result; unfold conn_accept_tls, into_transport, accept_tls, upgrade_tls; rewrite Hb3; cbn;
        destruct (_ || _); try done;
        pose proof (Htls (stream b3) (identity_config resolved) (leaf_certificate resolved)) as Hp; unfold tls_accept in *;
        destruct (channel_binding (leaf_certificate resolved)) as [ep|?|] eqn:Hb; try done;
        destruct (acceptor_accept (identity_config resolved) (stream b3)); try done.
      intros ? [= <-]. eexists. split; [done|]. cbn. now exists provider, resolved, w, w'. }
    intros c4 (b4 & Hb4 & Ht). unfold accept_encrypted. rewrite Hb4. eapply (safe_bind _ _ (eq b4)); [now apply safe_ret|]. intros ? <-.
    apply safe_encrypted_loop; [done|done|]. now exists b4.
  - eapply safe_bind; [apply (safe_decline (fun _ => True)), holds_transition, Hc1|]. intros c2 Hc2. now apply IH.
  - destruct (alive_transport (fun _ => True) c1 Hc1) as (b & Hb & _). unfold into_transport in *. cbn [transport transition].
    destruct (transport c1); simplify_eq. eapply (safe_bind _ _ (eq b)); [now apply safe_ret|]. intros ? <-.
    eapply safe_bind; [apply safe_on_hook|]. intros request _ env. done.
  - destruct (tls_required (server_tls_policy server)) eqn:Hreq; [apply safe_tls_required, holds_transition, Hc1|].
    apply (safe_accept_session (fun _ => True)); [done|apply holds_transition, Hc1|].
    intros ready core Hcore Hd Ha. unfold session_accepted. rewrite Hcore. auto.
Qed.

Lemma safe_accepting (t : T) peer : server_callbacks_total ->
  safe (do buffered <- of_result (map_err accept_io (buffer_transport server t));
    accept_loop fuel server fuel (Conn_new buffered) (mkServerContext peer None None) : Routed Outcome) (accepted peer).
Proof using StreamTotal0 StreamTotal1 Total.
  intros Hcb. eapply (safe_bind _ _ (fun _ => True)).
  - apply safe_result; [|done]. unfold buffer_transport, with_limits_frontend, with_max_frame_len.
    destruct (negb _); [done|]. now destruct (negb _).
  - intros b _. apply safe_accept_loop; [done|]. now exists b.
Qed.

(** C4: What [accept] returns, for every client, middleware, policy, router and
    sequence of outcomes of the application's callbacks: a session over plaintext
    only when TLS is not required, an encrypted one only on an identity resolved
    from the policy's provider and bound to its leaf certificate, in either case
    with protocol version 3, an identity the authentication policy granted for
    this startup message, transport security and peer, the context that reports
    them, the router's answer for them, and all generated messages written; or a cancellation without identity.
    In builds without debug assertions it never panics. *)
Theorem accept_enforces_policy (t : T) peer st resolver w r resolver' w' : server_callbacks_total ->
  accept_routed fuel server t peer st resolver w = (Some r, (resolver', w')) ->
  match r with
  | Ok outcome => accepted peer outcome
  | Err _ => True
  | Panic => debug_assertions = true
  end.
Proof using StreamTotal0 StreamTotal1 Total.
  intros Hcb. unfold accept_routed. set (env := mkServerEnv _ st resolver w). pose proof (safe_accepting t peer Hcb env) as Hs.
  destruct (bind _ _ env) as [r' env']. intros [= -> _ _]. exact Hs.
Qed.
End Accepting.

(** A server that requires TLS, with an MD5 password; the client asks for TLS and
    answers the challenge. *)
Module AcceptModel.
Import TlsModel.

Definition startup_packet : bytes :=
  [x00; x00; x00; x12; x00; x03; x00; x02] ++ str "user" ++ [x00] ++ str "app" ++ [x00; x00].
Definition salt : bytes := str "salt".
Definition response : bytes := md5_response (str "app") (str "secret") salt.
Definition conversation (answer : bytes) : Script :=
  mkScript [Ready ssl_request_packet; Ready startup_packet; Pending;
            Ready ("p"%byte :: put_u32 (len answer + 5) [] ++ answer ++ [x00])] [] [] [].
Definition conversation_plain (answer : bytes) : Script :=
  mkScript [Ready startup_packet; Ready ("p"%byte :: put_u32 (len answer + 5) [] ++ answer ++ [x00])] [] [] [].
#[export] Instance provider : ServerIdentityProvider unit Empty_set World := fun _ w => (Ok (@mkServerIdentity rustls library tt leaf), w).
Definition server : Server (RequiredServerTls unit) StaticMd5ServerCredentials IdentityServerHandler :=
  mkServer (mkRequiredServerTls tt) (mkMd5Credentials (str "app") (str "secret")) ServerProtocolLimits_default mkIdentityServerHandler.
Abbreviation run answer := (accept_routed (Peer := unit) (State := unit) 20 server (conversation answer) tt tt mkNoStartupRoute salt).

Lemma server_total : server_callbacks_total (T := Script) (Peer := unit) (State := unit) (Resolver := NoStartupRoute) (Identity := unit) server.
Proof. split; [discriminate|]. split; [discriminate|]. intros. apply tls_accept_total. Qed.
End AcceptModel.

Import TlsModel AcceptModel.

Lemma accept_enforces_policy_witness :
  exists outcome, (run response).1 = Some (Ok outcome) /\ accepted server tt outcome /\
    match outcome with (Accept_Session core _, _) => server_context core = mkServerContext tt (Some (Negotiated_Tls leaf)) (Some tt) | _ => False end.
Proof.
  assert (match (run response).1 with Some (Ok (Accept_Session core _, _)) => Some (server_context core) | _ => None end =
    Some (mkServerContext tt (Some (Negotiated_Tls leaf)) (Some tt))) as Hc by (vm_compute; reflexivity).
  destruct (run response) as [[[outcome|e|]|] [resolver w]] eqn:E; cbn [fst] in Hc; [|discriminate Hc..].
  exists outcome. split; [reflexivity|]. split.
  - exact (accept_enforces_policy 20 server (conversation response) tt tt mkNoStartupRoute salt (Ok outcome) resolver w server_total E).
  - destruct outcome as [[core st|c] route]; [now injection Hc|discriminate Hc].
Defined.
