(* ===== verification/Conversation.v ===== *)
(** A client and a server establish a connection with each other: [connect] and
    [accept] run over scripted streams that carry each other's bytes, cut into
    reads in any way. *)

From Stdlib Require Import ZArith Lia String.
From Stdlib Require Import Init.Byte.
From stdpp Require Import prelude.
From S2P Require Import Prelude OrdMap Wire Frame Frontend Startup Backend Demux Fsm Grammar Resources PreStartup Transport Session ServerSession Scram Auth AuthSpec RuntimeMiddleware Intermediary Tls Establish EstablishProofs ClientComponent ClientSpec ServerComponent ServerSpec TlsModel.

Local Open Scope string_scope.
Local Open Scope Z_scope.
Local Open Scope list_scope.
Local Open Scope establish_scope.

(** ** Scripted streams, bare or wrapped *)

Class ScriptLike (S : Type) `{AsyncIo S} : Type := {
  embed : Script -> S;
  embed_read s : poll_read (embed s) = delegate embed poll_read s;
  embed_write o s : poll_write o (embed s) = delegate embed (poll_write o) s;
  embed_flush s : poll_flush (embed s) = delegate embed poll_flush s
}.

#[export] Instance script_like : ScriptLike Script.
Proof.
  refine {| embed s := s |}; intros; unfold delegate;
    [destruct (poll_read s)|destruct (poll_write o s)|destruct (poll_flush s)]; done.
Defined.
#[export] Instance plain_like `{TlsLibrary} : ScriptLike (ClientTransport Script) := {|
  embed := CT_Plain; embed_read s := eq_refl; embed_write o s := eq_refl; embed_flush s := eq_refl
|}.

(** The bytes a script of reads delivers. *)
Definition input (rs : list (Poll bytes)) : bytes := concat (map (fun r => match r with Ready c => c | Pending => [] end) rs).
(** No read ends the stream early. *)
Definition open_reads (rs : list (Poll bytes)) : Prop := Forall (fun r => r <> Ready []) rs.

Section Streams.
Context {S : Type} `{ScriptLike S}.

(** A connection on a script: [incoming] is still to be read, [o] buffered,
    [written] sent, with at most [n] reads left. *)
Definition on_script {Ph : Type} {P : Ph} {C : Cleanliness} (codec : PgCodec) (max : Z) (d : Demux) (n : nat)
    (incoming o written : bytes) (c : Conn (Buffered S) P C) : Prop :=
  exists rs rl i, transport c = Some (mkBuffered (embed (mkScript rs [] rl written)) o i codec max d) /\
    open_reads rs /\ (length rs <= n)%nat /\ i ++ input rs = incoming.

Context {Ph : Type} {P : Ph} {C : Cleanliness} (codec : PgCodec) (max : Z) (n : nat).
Implicit Types (c : Conn (Buffered S) P C) (d : Demux) (incoming o written : bytes).

Lemma script_transition {Ph' : Type} {P' : Ph'} {C'} d incoming o written c :
  on_script codec max d n incoming o written c ->
  on_script codec max d n incoming o written (transition (P' := P') (C' := C') c).
Proof. done. Qed.

(** A receive loop over a script whose next bytes are a message. *)
Lemma script_loop {Msg} (dec : bytes -> io (option Msg) * bytes) (image : Msg -> bytes -> Prop) eof
    `{!StreamDecoder dec image} m w d o written tail : image m w -> forall rs rl i pt fuel,
  open_reads rs -> i ++ input rs = w ++ tail ->
  (match pt with Decoding => True | Reading => exists q, q <> [] /\ w = i ++ q end) ->
  (2 * length rs + (match pt with Decoding => 1 | Reading => 0 end) <= fuel)%nat ->
  exists rs' rl' i', receive_loop dec eof fuel never pt (mkBuffered (embed (mkScript rs [] rl written)) o i codec max d) =
      (Some (Ok m), mkBuffered (embed (mkScript rs' [] rl' written)) o i' codec max d) /\
    open_reads rs' /\ (length rs' <= length rs)%nat /\ i' ++ input rs' = tail.
Proof.
  intros Hm.
  assert (Hdec : forall rs rl i fuel, open_reads rs -> i ++ input rs = w ++ tail -> (2 * length rs + 1 <= fuel)%nat ->
    (forall fuel, (2 * length rs <= fuel)%nat -> (exists q, q <> [] /\ w = i ++ q) ->
       exists rs' rl' i', receive_loop dec eof fuel never Reading (mkBuffered (embed (mkScript rs [] rl written)) o i codec max d) =
         (Some (Ok m), mkBuffered (embed (mkScript rs' [] rl' written)) o i' codec max d) /\
       open_reads rs' /\ (length rs' <= length rs)%nat /\ i' ++ input rs' = tail) ->
    exists rs' rl' i', receive_loop dec eof fuel never Decoding (mkBuffered (embed (mkScript rs [] rl written)) o i codec max d) =
         (Some (Ok m), mkBuffered (embed (mkScript rs' [] rl' written)) o i' codec max d) /\
       open_reads rs' /\ (length rs' <= length rs)%nat /\ i' ++ input rs' = tail).
  { intros rs rl i fuel Ho Hw Hf Hread. destruct fuel as [|fuel]; [lia|]. cbn [receive_loop inbound].
    destruct (cut_cases _ _ _ _ Hw) as [(r & -> & Hr)|(q & Hq & -> & Hc)].
    - rewrite (decodes m w r Hm). exists rs, rl, r. done.
    - rewrite (awaits m i q Hm Hq). cbn [set_inbound]. apply Hread; [lia|eauto]. }
  induction rs as [|r rs IH]; intros rl i pt fuel Ho Hw Hpt Hf.
  - assert (~ exists q, q <> [] /\ w = i ++ q) as Hno.
    { intros (q & Hq & ->). apply Hq. unfold input in Hw. cbn in Hw. rewrite app_nil_r, <- app_assoc in Hw.
      apply (f_equal length) in Hw. rewrite !length_app in Hw. destruct q; [done|cbn in Hw; lia]. }
    destruct pt; [|done]. apply Hdec; [done..|]. now intros ? _ ?.
  - assert (Hreading : forall fuel, (2 * length (r :: rs) <= fuel)%nat -> (exists q, q <> [] /\ w = i ++ q) ->
       exists rs' rl' i', receive_loop dec eof fuel never Reading (mkBuffered (embed (mkScript (r :: rs) [] rl written)) o i codec max d) =
         (Some (Ok m), mkBuffered (embed (mkScript rs' [] rl' written)) o i' codec max d) /\
       open_reads rs' /\ (length rs' <= length (r :: rs))%nat /\ i' ++ input rs' = tail).
    { intros fuel' Hf' (q & Hq & Hwq). destruct fuel' as [|fuel']; [simpl in Hf'; lia|]. cbn [receive_loop stream].
      rewrite embed_read. inversion Ho as [|? ? Hr Ho']; subst. unfold delegate. destruct r as [c|]; cbn [poll_read Script_io reads].
      - destruct c as [|x c]; [done|]. set (c' := x :: c) in *.
        destruct (IH (rl ++ c') (i ++ c') Decoding fuel') as (rs' & rl' & i' & E & E1 & E2 & E3); try done.
        { unfold input in *. cbn in Hw. now rewrite <- app_assoc. }
        { simpl in *. lia. }
        exists rs', rl', i'. split; [exact E|]. split; [done|]. split; [simpl; lia|done].
      - destruct (IH rl i Reading fuel') as (rs' & rl' & i' & E & E1 & E2 & E3); try done; [now exists q|simpl in *; lia|].
        exists rs', rl', i'. split; [exact E|]. split; [done|]. split; [simpl; lia|done]. }
    destruct pt; [now apply Hdec|]. apply Hreading; [simpl in *; lia|done].
Qed.

Lemma script_receive {Msg} `{Direction Msg} fuel d (m : Msg) w tail o written c :
  codec_valid codec -> tagged codec m w -> (2 * n + 1 <= fuel)%nat ->
  on_script codec max d n (w ++ tail) o written c ->
  exists c', on_transport (receive_wire (M := Msg) fuel never) c = (Some (Ok m), c') /\
    on_script codec max d n tail o written c'.
Proof.
  intros Hc Hm Hf (rs & rl & i & Hb & Ho & Hn & Hi). unfold on_transport, receive_wire. rewrite Hb. cbn [inbound_codec].
  destruct (script_loop _ (tagged codec) "peer closed with no complete message" (StreamDecoder0 := tagged_decoder codec Hc)
    m w d o written tail Hm rs rl i Decoding fuel Ho Hi I) as (rs' & rl' & i' & E & E1 & E2 & E3); [lia|].
  rewrite E. eexists. split; [done|]. exists rs', rl', i'. split; [done|]. split; [done|]. split; [lia|done].
Qed.

Lemma script_pre_startup fuel d m w tail o written c :
  contains 8 I32_MAX max = true -> first_packet max m w -> (2 * n + 1 <= fuel)%nat ->
  on_script codec max d n (w ++ tail) o written c ->
  exists c', on_transport (receive_pre_startup fuel never) c = (Some (Ok m), c') /\
    on_script codec max d n tail o written c'.
Proof.
  intros Hc Hm Hf (rs & rl & i & Hb & Ho & Hn & Hi). unfold on_transport, receive_pre_startup. rewrite Hb.
  cbn [max_pre_startup_packet_len].
  destruct (script_loop _ (first_packet max) "client closed with no complete pre-startup packet"
    (StreamDecoder0 := first_packet_decoder max Hc)
    m w d o written tail Hm rs rl i Decoding fuel Ho Hi I) as (rs' & rl' & i' & E & E1 & E2 & E3); [lia|].
  rewrite E. eexists. split; [done|]. exists rs', rl', i'. split; [done|]. split; [done|]. split; [lia|done].
Qed.

Lemma script_push f d incoming o written c :
  codec_valid codec -> len (body f) + 5 <= max_frame_len codec -> on_script codec max d n incoming o written c ->
  exists c', push_frame f c = (Some (Ok tt), c') /\ on_script codec max d n incoming (o ++ wire_image f) written c'.
Proof.
  intros Hc Hl (rs & rl & i & Hb & Hr). unfold push_frame, on_transport. rewrite Hb. unfold push. cbn [inbound_codec outbound].
  rewrite (proj2 (encode_image codec f o (o ++ wire_image f) Hc)) by done. eexists. split; [done|]. now exists rs, rl, i.
Qed.

Lemma script_flush fuel d incoming o written c : (2 <= fuel)%nat -> on_script codec max d n incoming o written c ->
  exists c', conn_flush fuel c = (Some (Ok tt), c') /\ on_script codec max d n incoming [] (written ++ o) c'.
Proof.
  intros Hf (rs & rl & i & Hb & Hr). unfold conn_flush, on_transport. rewrite Hb.
  destruct fuel as [|[|fuel]]; [lia..|].
  assert (forall fuel s, flush (Datatypes.S fuel) (mkBuffered (embed (mkScript rs [] rl s)) [] i codec max d) =
    (Some (Ok tt), mkBuffered (embed (mkScript rs [] rl s)) [] i codec max d)) as He.
  { intros fuel' s. cbn [flush outbound stream]. now rewrite embed_flush. }
  destruct o as [|x o].
  - rewrite He. eexists. split; [done|]. rewrite app_nil_r. now exists rs, rl, i.
  - set (o' := x :: o). assert (flush (Datatypes.S (Datatypes.S fuel)) (mkBuffered (embed (mkScript rs [] rl written)) o' i codec max d) =
      (Some (Ok tt), mkBuffered (embed (mkScript rs [] rl (written ++ o'))) [] i codec max d)) as ->.
    { rewrite <- (He fuel (written ++ o')). set (k := Datatypes.S fuel). cbn [flush outbound stream]. unfold o' at 1. cbv iota.
      rewrite embed_write. unfold delegate. cbn [poll_write Script_io writes_].
      replace (len o' =? 0) with false by (symmetry; apply Z.eqb_neq; unfold len, o'; cbn; lia).
      unfold advance, len. rewrite Nat2Z.id. cbn [outbound set_stream]. rewrite Nat.ltb_irrefl, drop_all. done. }
    eexists. split; [done|]. now exists rs, rl, i.
Qed.
End Streams.

(** A session item that is not absorbed. *)
Lemma script_item {S} `{ScriptLike S} {Ph : Type} {P : Ph} {C : Cleanliness} codec max n fuel d d' m item w tail o written
    (c : Conn (Buffered S) P C) :
  codec_valid codec -> tagged codec m w -> route m d = (Some item, d') -> (2 * n + 1 <= fuel)%nat ->
  on_script codec max d n (w ++ tail) o written c ->
  exists c', conn_receive fuel c = (Some (Ok item), c') /\ on_script codec max d' n tail o written c'.
Proof.
  intros Hc Hm Hr Hf Hs. destruct (script_receive codec max n fuel d m w tail o written c Hc Hm Hf Hs) as (c1 & E & Hs1).
  unfold conn_receive, on_transport in *. destruct (transport c) as [b|]; [|done].
  destruct fuel as [|fuel]; [lia|]. cbn [receive_session]. unfold receive_backend.
  destruct (receive_wire (Datatypes.S fuel) never b) as [r b1]. injection E as -> <-.
  destruct Hs1 as (rs & rl & i & Hb & Hrest). injection Hb as ->. unfold project_backend. cbn [demux]. rewrite Hr.
  eexists. split; [done|]. now exists rs, rl, i.
Qed.

(** Steps that succeed. *)
Lemma then_ok {Env E A B} (m : M Env E A) (k : A -> M Env E B) env a env' :
  m env = (Some (Ok a), env') -> bind m k env = k a env'.
Proof. intros Hm. unfold bind. now rewrite Hm. Qed.
Lemma wrap_ok {Env E F A} (f : E -> F) (m : M Env E A) env a env' :
  m env = (Some (Ok a), env') -> wrap_error f m env = (Some (Ok a), env').
Proof. intros Hm. unfold wrap_error. now rewrite Hm. Qed.
Lemma outcome_ok {Env E F A} (m : M Env E A) env a env' :
  m env = (Some (Ok a), env') -> outcome (F := F) m env = (Some (Ok (Ok a)), env').
Proof. intros Hm. unfold outcome. now rewrite Hm. Qed.

Section Awaits.
Context {S : Type} `{AsyncIo S} `{Profile : BuildProfile} {Env E : Type} {Ph : Type} {P : Ph} {C : Cleanliness}.

Lemma on_conn_ok {A} leave wrap (op : Conn (Buffered S) P C -> option (io A) * Conn (Buffered S) P C) c a c' (env : Env) :
  op c = (Some (Ok a), c') -> on_conn (E := E) leave wrap op c env = (Some (Ok (a, c')), env).
Proof. intros Hop. unfold on_conn. now rewrite Hop. Qed.

Lemma send_ok `{!ScriptLike S} codec max n d incoming written fuel f (c : Conn (Buffered S) P C) (wrap : io_error -> E) (env : Env) :
  codec_valid codec -> len (body f) + 5 <= max_frame_len codec -> (2 <= fuel)%nat ->
  on_script codec max d n incoming [] written c ->
  exists c', send_or_drop wrap fuel f c env = (Some (Ok c'), env) /\
    on_script codec max d n incoming [] (written ++ wire_image f) c'.
Proof.
  intros Hc Hl Hf Hs. destruct (script_push codec max n f d incoming [] written c Hc Hl Hs) as (c1 & E1 & Hs1).
  destruct (script_flush codec max n fuel d incoming _ written c1 Hf Hs1) as (c2 & E2 & Hs2).
  exists c2. split; [|done]. unfold send_or_drop, or_drop. erewrite then_ok by (apply on_conn_ok; exact E1).
  cbv beta iota. erewrite then_ok by (apply on_conn_ok; exact E2). done.
Qed.
End Awaits.

(** ** The MD5 login of the two roles' static credentials *)

Definition md5_challenge (salt : bytes) : Frame := mkFrame "R"%byte (put_u32 5 [] ++ salt).
Definition ok_frame : Frame := mkFrame "R"%byte (put_u32 0 []).
Definition ready_frame : Frame := mkFrame "Z"%byte ["I"%byte].
Definition password_frame (credential : bytes) : Frame := mkFrame "p"%byte (credential ++ [x00]).

(** What the server sends and what the client sends. *)
Definition server_transcript (salt : bytes) : bytes :=
  wire_image (md5_challenge salt) ++ wire_image ok_frame ++ wire_image ready_frame.
Definition client_transcript (packet credential : bytes) : bytes := packet ++ wire_image (password_frame credential).

Lemma tagged_challenge codec salt : length salt = 4%nat -> 13 <= max_frame_len codec ->
  tagged codec (B_Authentication (A_Md5Password salt)) (wire_image (md5_challenge salt)).
Proof.
  intros Hs Hl. exists (md5_challenge salt). split; [now apply decode_backend_to_frame|]. split; [done|].
  cbn [md5_challenge body]. rewrite len_app. unfold len. rewrite Hs. cbn. lia.
Qed.
Lemma tagged_ok codec : 9 <= max_frame_len codec -> tagged codec (B_Authentication A_Ok) (wire_image ok_frame).
Proof. intros Hl. exists ok_frame. split; [done|]. split; [done|]. change (len (body ok_frame)) with 4. lia. Qed.
Lemma tagged_ready codec : 6 <= max_frame_len codec -> tagged codec (B_ReadyForQuery Idle) (wire_image ready_frame).
Proof. intros Hl. exists ready_frame. split; [done|]. split; [done|]. change (len (body ready_frame)) with 1. lia. Qed.
Lemma tagged_password codec credential : len credential + 6 <= max_frame_len codec ->
  tagged codec (F_PasswordResponse (credential ++ [x00])) (wire_image (password_frame credential)).
Proof.
  intros Hl. exists (password_frame credential). split; [done|]. split; [done|].
  cbn [password_frame body]. rewrite len_app. change (len [x00]) with 1. lia.
Qed.

Section Login.
Context {World State : Type} `{Profile : BuildProfile} `{TlsLibrary} `{Certificates} `{Crypto} `{ScramClient World} `{Rng World}.
Context (fuel n : nat) (enough : (2 * n + 2 <= fuel)%nat) (user password salt : bytes) (salt_len : length salt = 4%nat).
Abbreviation credential := (md5_response user password salt).
Context (no_nul : x00 ∉ credential).

(** *** The client *)

Section Client.
Context (codec : PgCodec) (valid : codec_valid codec) (room : 13 <= max_frame_len codec)
  (room_credential : len credential + 6 <= max_frame_len codec) (context : ClientConnectionContext unit).
Abbreviation Env := (ClientEnv IdentityHandler State World).
Abbreviation S := (ClientTransport Script).
Abbreviation Session := (StaticClientCredentialSession (World := World)).
Abbreviation max := DEFAULT_MAX_PRE_STARTUP_PACKET_LEN.
Abbreviation policy scram := (mkCredentialSession user password scram : Session).

Lemma intercepted {E Msg} (on : hook IdentityHandler (ClientConnectionContext unit) State Msg) m (env : Env) :
  on = default_hook -> intercept (E := E) on context m env = (Some (Ok m), env).
Proof. intros ->. unfold intercept, default_hook. now destruct env. Qed.

Lemma client_password_exchange scram (c : AuthConn (Buffered S) AP.PasswordResponse) tail written (env : Env) :
  on_script codec max Demux_default n (wire_image ok_frame ++ tail) [] written c ->
  exists c', complete_password (PolicyError := StaticCredentialError) fuel context c (Ch_Md5Password salt) (policy scram) env =
      (Some (Ok (c', policy scram)), env) /\
    on_script codec max Demux_default n tail [] (written ++ wire_image (password_frame credential)) c'.
Proof using valid room room_credential enough no_nul salt_len.
  intros Hs. unfold complete_password.
  assert (ask c (policy scram) (Ch_Md5Password salt) env = (Some (Ok (Re_Password credential, policy scram)), env)) as Ha
    by now destruct env.
  erewrite then_ok by exact Ha. cbv beta iota.
  assert (intercept_auth_response (PolicyError := StaticCredentialError) c context credential env = (Some (Ok credential), env)) as Hi.
  { unfold intercept_auth_response. erewrite then_ok by now apply intercepted. done. }
  erewrite then_ok by exact Hi.
  assert (transition_or_drop (Drive_Protocol (PolicyError := StaticCredentialError)) c (Auth.password c credential) env =
    (Some (Ok (transition c, password_frame credential)), env)) as Ht.
  { unfold Auth.password. rewrite decide_False by done. done. }
  erewrite then_ok by exact Ht. cbv beta iota.
  destruct (send_ok codec max n Demux_default (wire_image ok_frame ++ tail) written fuel (password_frame credential)
    (transition c : AuthConn (Buffered S) AP.AwaitingAuthOk) (Drive_Protocol (PolicyError := StaticCredentialError)) env valid) as (c1 & E1 & Hs1);
    [cbn [password_frame body]; rewrite len_app; change (len [x00]) with 1; lia|lia|exact Hs|].
  erewrite then_ok by exact E1.
  destruct (script_receive codec max n fuel Demux_default (B_Authentication A_Ok) _ tail [] _ c1 valid (tagged_ok codec ltac:(lia)) ltac:(lia) Hs1)
    as (c2 & E2 & Hs2).
  assert (receive_intercepted (PolicyError := StaticCredentialError) fuel context c1 env =
    (Some (Ok (B_Authentication A_Ok, c2)), env)) as Hr.
  { unfold receive_intercepted. unfold or_drop. erewrite then_ok by (apply on_conn_ok; exact E2). cbv beta iota.
    erewrite then_ok by now apply intercepted. done. }
  erewrite then_ok by exact Hr. cbv beta iota.
  assert (offer_completion (PolicyError := StaticCredentialError) "illegal authentication completion" c2 (B_Authentication A_Ok) env =
    (Some (Ok (transition c2)), env)) as Ho by (unfold offer_completion; now rewrite completion_offer_equation).
  erewrite then_ok by exact Ho. exists (transition c2). split; [done|]. exact Hs2.
Qed.

Lemma client_authenticates rounds scram (c : AuthConn (Buffered S) AP.Auth) written (env : Env) :
  (0 < rounds)%nat -> on_script codec max Demux_default n (server_transcript salt) [] written c ->
  exists c', auth_loop (PolicyError := StaticCredentialError) fuel context rounds c (policy scram) env =
      (Some (Ok (c', policy scram)), env) /\
    on_script codec max Demux_default n (wire_image ready_frame) [] (written ++ wire_image (password_frame credential)) c'.
Proof using valid room room_credential enough no_nul salt_len.
  intros Hk Hs. destruct rounds as [|rounds]; [lia|]. cbn [auth_loop].
  destruct (script_receive codec max n fuel Demux_default (B_Authentication (A_Md5Password salt)) _ _ [] _ c valid
    (tagged_challenge codec salt salt_len ltac:(lia)) ltac:(lia) Hs) as (c1 & E1 & Hs1).
  unfold or_abort. erewrite then_ok by (apply on_conn_ok; exact E1). cbv beta iota.
  erewrite then_ok by now apply intercepted. rewrite auth_offer_equation. cbv iota.
  destruct (client_password_exchange scram (transition c1) (wire_image ready_frame) written env Hs1) as (c2 & E2 & Hs2).
  exists c2. split; [|done]. now apply wrap_ok.
Qed.

(** The demultiplexer after the first readiness. *)
Definition first_ready : Demux := (route (B_ReadyForQuery Idle) Demux_default).2.

Lemma client_becomes_ready rounds (c : AuthConn (Buffered S) AP.AwaitingStartupReady) written (env : Env) :
  (0 < rounds)%nat -> on_script codec max Demux_default n (wire_image ready_frame) [] written c ->
  exists c', ready_loop (PolicyError := StaticCredentialError) fuel context rounds c None env =
      (Some (Ok (c', None)), env) /\ on_script codec max first_ready n [] [] written c'.
Proof using valid room enough salt_len.
  intros Hk Hs. rewrite <- (app_nil_r (wire_image ready_frame)) in Hs.
  destruct rounds as [|rounds]; [lia|]. cbn [ready_loop].
  destruct (script_item codec max n fuel Demux_default first_ready (B_ReadyForQuery Idle) (Item_ReadyForQuery Idle false) _ [] [] _ c valid
    (tagged_ready codec ltac:(lia)) eq_refl ltac:(lia) Hs) as (c1 & E1 & Hs1).
  unfold or_abort. erewrite then_ok by (apply on_conn_ok; exact E1). cbv beta iota zeta.
  erewrite then_ok by now apply intercepted. cbn. exists (transition c1). split; [done|]. exact Hs1.
Qed.

Lemma client_establishes (t : S) message target written_to rs packet (env : Env) :
  t = CT_Plain (mkScript rs [] [] written_to) -> open_reads rs -> (length rs <= n)%nat ->
  input rs = server_transcript salt -> StartupMessage_encode message = Ok packet ->
  exists c', establish_client_session fuel context t message target (mkClientCredentials user password)
      (max_frame_len codec) env = (Some (Ok (c', tt, None)), env) /\
    on_script codec max first_ready n [] [] (written_to ++ client_transcript packet credential) c'.
Proof using valid room room_credential enough no_nul salt_len.
  intros -> Ho Hn Hi Hp. unfold establish_client_session.
  assert (in_world (authentication_begin (mkClientCredentials user password) target) env = (Some (Ok (policy None)), env)) as Hb
    by now destruct env.
  erewrite then_ok by (apply wrap_ok; exact Hb). clear Hb.
  set (b := mkBuffered (CT_Plain (mkScript rs [] [] written_to)) [] [] codec max Demux_default).
  assert (Buffered_with_max_frame_len (CT_Plain (mkScript rs [] [] written_to)) (max_frame_len codec) = Ok b) as Hb.
  { unfold Buffered_with_max_frame_len, with_max_frame_len. destruct valid as [Hlo Hhi].
    destruct (Z.leb_spec 5 (max_frame_len codec)); [|lia]. destruct (Z.leb_spec (max_frame_len codec) MAX_PROTOCOL_FRAME_LEN); [|lia].
    unfold b. now destruct codec. }
  erewrite then_ok by (apply wrap_ok; unfold of_result; rewrite Hb; reflexivity). cbv beta.
  unfold startup. rewrite Hp.
  erewrite then_ok by reflexivity. cbv beta iota. erewrite then_ok by reflexivity. cbv beta zeta.
  destruct (script_flush codec max n fuel Demux_default (server_transcript salt) packet written_to
    (begin_authentication (mkConn (Some (set_outbound ([] ++ packet) b)))) ltac:(lia)) as (c1 & E1 & Hs1).
  { exists rs, [], []. split; [done|]. done. }
  unfold or_abort at 1. erewrite then_ok by (apply on_conn_ok; exact E1). cbv beta iota.
  destruct (client_authenticates fuel None c1 _ env ltac:(lia) Hs1) as (c2 & E2 & Hs2). erewrite then_ok by exact E2. cbv beta iota.
  destruct (client_becomes_ready fuel c2 _ env ltac:(lia) Hs2) as (c3 & E3 & Hs3). erewrite then_ok by exact E3. cbv beta iota.
  exists c3. split; [now destruct env|]. unfold client_transcript. now rewrite app_assoc.
Qed.
End Client.

(** A client role with static credentials, whose connector opens a script that
    delivers the server's side. *)
Lemma client_connects {ConnectorError} codec (client : Client (Connector Script ConnectorError World) ClientTlsPolicy
      StaticClientCredentials IdentityHandler) target overrides message packet rs (st : State) w w' :
  codec_valid codec -> 13 <= max_frame_len codec -> len credential + 6 <= max_frame_len codec ->
  limit_frame_len (client_limits client) = max_frame_len codec ->
  client_authentication client = mkClientCredentials user password ->
  client_connector client target w = (Ok (mkScript rs [] [] []), w') ->
  into_message (merged_with (client_defaults client) overrides) = Ok message -> StartupMessage_encode message = Ok packet ->
  open_reads rs -> (length rs <= n)%nat -> input rs = server_transcript salt ->
  exists c', connect fuel client target overrides st w =
      (Some (Ok (mkCore c' (client_middleware client) (mkClientContext target (Some Status_Plaintext) (Some tt) None), st)), w') /\
    on_script codec DEFAULT_MAX_PRE_STARTUP_PACKET_LEN first_ready n [] [] (client_transcript packet credential) c'.
Proof using enough no_nul salt_len.
  intros Hvalid Hroom Hcred Hl Ha Hcon Hm Hp Ho Hn Hi. set (ctx := mkClientContext target (Some Status_Plaintext) None None : ClientConnectionContext unit).
  set (h := client_middleware client). set (env := mkEnv h st w').
  destruct (client_establishes codec Hvalid Hroom Hcred ctx (CT_Plain (mkScript rs [] [] [])) message target [] rs packet env eq_refl Ho Hn Hi Hp) as (c' & E & Hs).
  exists (transition c'). split; [|exact Hs]. unfold connect, connect_core, connect_steps. rewrite Hm.
  erewrite then_ok by reflexivity. cbv beta zeta.
  erewrite then_ok. 2:{ unfold open_transport, wrap_error, in_world. cbn [env_world create identity_handler_factory]. rewrite Hcon. reflexivity. }
  cbn [configured disabled_configuration]. erewrite then_ok by reflexivity. cbv beta iota.
  erewrite then_ok by reflexivity. unfold establish. rewrite Hl, Ha.
  erewrite then_ok by (apply outcome_ok; exact E). reflexivity.
Qed.

(** *** The server *)

Section Server.
Context (codec : PgCodec) (valid : codec_valid codec) (room : 13 <= max_frame_len codec) (max : Z)
  (max_valid : contains 8 I32_MAX max = true).
Context {Peer : Type}.
Abbreviation Env := (ServerEnv IdentityServerHandler State NoStartupRoute World).
Abbreviation Context_ := (ServerConnectionContext Peer unit).
Abbreviation session := (mkMd5Session user password salt).
Abbreviation Accept A := (M Env (AcceptError NoServerIdentity StaticCredentialError) A).

Lemma hooked {E Msg} (on : hook IdentityServerHandler Context_ State Msg) context m (env : Env) :
  on = default_hook -> on_hook (E := E) on context m env = (Some (Ok m), env).
Proof. intros ->. unfold on_hook, default_hook. now destruct env. Qed.

Section Connection.
Context {Ph : Type} {P : Ph}.
Implicit Types (c : Conn (Buffered Script) P Pristine).

Lemma push_ok f c d incoming o written (env : Env) : len (body f) + 5 <= max_frame_len codec ->
  on_script codec max d n incoming o written c ->
  exists c', (push_or_abort c f : Accept _) env = (Some (Ok c'), env) /\
    on_script codec max d n incoming (o ++ wire_image f) written c'.
Proof using valid.
  intros Hl Hs. destruct (script_push codec max n f d incoming o written c valid Hl Hs) as (c' & E & Hs').
  exists c'. split; [|done]. unfold push_or_abort, or_abort. erewrite then_ok by (apply on_conn_ok; exact E). done.
Qed.
Lemma flush_ok c d incoming o written (env : Env) : on_script codec max d n incoming o written c ->
  exists c', (flush_or_abort fuel c : Accept _) env = (Some (Ok c'), env) /\
    on_script codec max d n incoming [] (written ++ o) c'.
Proof using enough salt_len.
  intros Hs. destruct (script_flush codec max n fuel d incoming o written c ltac:(lia) Hs) as (c' & E & Hs').
  exists c'. split; [|done]. unfold flush_or_abort, or_abort. erewrite then_ok by (apply on_conn_ok; exact E). done.
Qed.

(** A generated message goes out as it is, and the answer comes in. *)
Lemma challenge_ok (context : Context_) m f answer w tail d written c (env : Env) :
  Backend_decode f = Ok m -> BackendMessage_to_frame m = Ok f -> len (body f) + 5 <= max_frame_len codec ->
  tagged codec answer w -> on_script codec max d n (w ++ tail) [] written c ->
  exists c', (challenge fuel context c f : Accept _) env = (Some (Ok (c', answer)), env) /\
    on_script codec max d n tail [] (written ++ wire_image f) c'.
Proof using valid enough salt_len.
  intros Hd He Hl Ha Hs. unfold challenge.
  assert (intercept_server_backend context f env = (Some (Ok f), env)) as Hi.
  { unfold intercept_server_backend. erewrite then_ok by (unfold of_result; rewrite Hd; reflexivity).
    erewrite then_ok by now apply hooked. unfold of_result. now rewrite He. }
  assert (with_live (TlsErr := NoServerIdentity) (AuthError := StaticCredentialError) c (intercept_server_backend context f) env =
    (Some (Ok f), env)) as Hw.
  { unfold with_live. erewrite then_ok by (apply outcome_ok; exact Hi). done. }
  erewrite then_ok by exact Hw.
  destruct (push_ok f c d _ [] written env Hl Hs) as (c1 & E1 & Hs1). erewrite then_ok by exact E1.
  destruct (flush_ok c1 d _ _ written env Hs1) as (c2 & E2 & Hs2). erewrite then_ok by exact E2.
  destruct (script_receive codec max n fuel d answer w tail [] _ c2 valid Ha ltac:(lia) Hs2) as (c3 & E3 & Hs3).
  assert ((receive_frontend_or_abort fuel c2 : Accept _) env = (Some (Ok (c3, answer)), env)) as Hr.
  { unfold receive_frontend_or_abort, or_abort. erewrite then_ok by (apply on_conn_ok; exact E3). done. }
  erewrite then_ok by exact Hr. cbv beta iota. erewrite then_ok by now apply hooked.
  exists c3. split; [done|]. exact Hs3.
Qed.
End Connection.

Context (response : bytes) (response_clean : x00 ∉ response) (room_response : len response + 6 <= max_frame_len codec).

Lemma server_password_exchange (c : Conn (Buffered Script) SAP.ServerAuth Pristine) request (context : Context_) written (env : Env) :
  on_script codec max Demux_default n (wire_image (password_frame response)) [] written c ->
  if decide (response = credential) then
    exists c', (authenticate_password fuel (request_md5 c salt) session request context : Accept _) env =
        (Some (Ok (c', tt, None)), env) /\
      on_script codec max Demux_default n [] [] (written ++ wire_image (md5_challenge salt)) c'
  else (authenticate_password fuel (request_md5 c salt) session request context : Accept _) env =
    (Some (Err (Accept_Authentication AuthenticationFailed)), env).
Proof using valid room enough salt_len response_clean room_response.
  intros Hs. rewrite <- (app_nil_r (wire_image (password_frame response))) in Hs.
  destruct (challenge_ok context (B_Authentication (A_Md5Password salt)) (md5_challenge salt)
    (F_PasswordResponse (response ++ [x00])) (wire_image (password_frame response)) [] Demux_default written
    (transition c : Conn (Buffered Script) SAP.ServerPassword Pristine) env) as (c1 & E1 & Hs1);
    [now apply decode_backend_to_frame|done| |now apply tagged_password|exact Hs|].
  { cbn [md5_challenge body]. rewrite len_app. unfold len. rewrite salt_len. cbn. lia. }
  assert (forall B (k : _ -> Accept B), bind (wrap_error Accept_Io (of_result (request_md5 c salt)) : Accept _) k env =
    k (transition c, md5_challenge salt) env) as Hreq by reflexivity.
  assert (receive_password c1 (F_PasswordResponse (response ++ [x00])) = Ok (transition c1, response)) as Hp.
  { rewrite receive_password_equation, password_body_nul, decide_False by done. reflexivity. }
  assert (forall B (k : _ -> Accept B), bind (consult session (policy_respond request (Resp_Password response))) k env =
    k (md5_respond session (Resp_Password response), session) env) as Hc.
  { intros B k. apply then_ok. unfold consult. cbn [policy_respond md5_policy]. unfold md5_respond.
    now destruct (negb _), env. }
  case_decide as Hr.
  - exists (transition c1). split; [|exact Hs1]. unfold authenticate_password. rewrite Hreq. cbv beta iota.
    erewrite then_ok by exact E1. cbv beta iota. rewrite Hp, Hc. cbn [md5_respond md5_session_username md5_session_password md5_session_salt].
    unfold verify_md5_response. rewrite bool_decide_eq_true_2 by done. reflexivity.
  - unfold authenticate_password. rewrite Hreq. cbv beta iota.
    erewrite then_ok by exact E1. cbv beta iota. rewrite Hp, Hc. cbn [md5_respond md5_session_username md5_session_password md5_session_salt].
    unfold verify_md5_response. rewrite bool_decide_eq_false_2 by done. cbn [negb]. unfold abort, into_transport. cbn [transport transition].
    destruct Hs1 as (rs & rl & i & -> & _). reflexivity.
Qed.

Lemma server_finishes (c : Conn (Buffered Script) SAP.ServerAuth Pristine) (context : Context_) written (env : Env) :
  on_script codec max Demux_default n [] [] written c ->
  exists c', (finish_startup fuel c None false context : Accept _) env = (Some (Ok c'), env) /\
    on_script codec max Demux_default n [] [] (written ++ wire_image ok_frame ++ wire_image ready_frame) c'.
Proof using valid room enough salt_len.
  intros Hs. unfold finish_startup. erewrite then_ok by reflexivity. cbv beta iota. erewrite then_ok by reflexivity.
  erewrite then_ok by now apply hooked. erewrite then_ok by reflexivity.
  destruct (push_ok ok_frame (transition c : Conn (Buffered Script) SAP.ServerStartupReady Pristine) Demux_default [] [] written env)
    as (c1 & E1 & Hs1); [change (len (body ok_frame)) with 4; lia|exact Hs|].
  erewrite then_ok by exact E1. erewrite then_ok by reflexivity. cbv beta iota.
  destruct (push_ok ready_frame (transition c1 : Conn (Buffered Script) SV.Ready Pristine) Demux_default [] ([] ++ wire_image ok_frame) written env)
    as (c2 & E2 & Hs2); [change (len (body ready_frame)) with 1; lia|exact Hs1|].
  erewrite then_ok.
  2:{ erewrite then_ok by now apply hooked. erewrite then_ok by reflexivity. exact E2. }
  destruct (flush_ok c2 Demux_default [] _ written env Hs2) as (c3 & E3 & Hs3). exists c3. done.
Qed.
(** The transport of a server built with these limits. *)
Lemma buffered_script (server : Server DisabledServerTls StaticMd5ServerCredentials IdentityServerHandler) (t : Script) :
  server_limits server = mkServerLimits (max_frame_len codec) max ->
  buffer_transport server t = Ok (mkBuffered t [] [] codec max Demux_default).
Proof using valid max_valid.
  intros Hl. unfold buffer_transport, with_limits_frontend, with_max_frame_len. rewrite Hl. cbn [server_max_frame_len server_max_pre_startup].
  rewrite max_valid. destruct valid as [Hlo%Z.leb_le Hhi%Z.leb_le]. rewrite Hlo, Hhi.
  cbn [negb andb]. assert (forall k, mkPgCodec (max_frame_len k) = k) as Heta by now intros []. now rewrite Heta.
Qed.

(** From the startup packet to the first readiness, or to the rejection. *)
Lemma server_completes (c : Conn (Buffered Script) Phase.Startup Pristine) message (peer : Peer) written h (st : State) resolver w w' :
  major (version message) = 3 -> fill 4 w = (salt, w') ->
  on_script codec max Demux_default n (wire_image (password_frame response)) [] written c ->
  let context : Context_ := mkServerContext peer (Some Negotiated_Plaintext) None in
  let run := (complete_auth fuel c message (mkMd5Credentials user password) context false : Accept _) (mkServerEnv h st resolver w) in
  if decide (response = credential) then
    exists c', run = (Some (Ok (c', set_identity tt context)), mkServerEnv h st resolver w') /\
      on_script codec max Demux_default n [] [] (written ++ server_transcript salt) c'
  else run = (Some (Err (Accept_Authentication AuthenticationFailed)), mkServerEnv h st resolver w').
Proof using valid room enough salt_len response_clean room_response.
  intros Hv Hfill Hs context run. set (env := mkServerEnv h st resolver w').
  set (auth := begin_server_auth (transition c) : Conn (Buffered Script) SAP.ServerAuth Pristine).
  set (request := mkAuthenticationRequest message Negotiated_Plaintext peer).
  assert (run = (do (auth, evidence, final_frame) <- authenticate fuel auth (Act_Md5Password salt) session request context;
      let context := set_identity evidence context in
      do ready <- finish_startup fuel auth final_frame false context;
      ret (ready, context) : Accept _) env) as Hrun.
  { unfold run, complete_auth, validate_protocol. rewrite Hv. change (3 =? major V3_2) with true. cbv beta iota.
    unfold bind at 1, in_server_world at 1, policy_create, md5_provider. cbn [senv_world]. rewrite Hfill. reflexivity. }
  rewrite Hrun. clear run Hrun. cbn [authenticate].
  pose proof (server_password_exchange auth request context written env Hs) as Hp.
  case_decide as Hr.
  - destruct Hp as (c1 & E1 & Hs1). erewrite then_ok by exact E1. cbv beta iota zeta.
    destruct (server_finishes c1 (set_identity tt context) _ env Hs1) as (c2 & E2 & Hs2). erewrite then_ok by exact E2.
    exists c2. split; [done|]. unfold server_transcript. now rewrite app_assoc.
  - unfold bind at 1. now rewrite Hp.
Qed.

(** A server role with static MD5 credentials on a script that delivers a startup
    packet and a password message. *)
Lemma server_accepts (server : Server DisabledServerTls StaticMd5ServerCredentials IdentityServerHandler) message packet rs peer
    (st : State) w w' :
  server_limits server = mkServerLimits (max_frame_len codec) max ->
  server_authentication_policy server = mkMd5Credentials user password ->
  StartupMessage_canonical message -> major (version message) = 3 -> StartupMessage_encode message = Ok packet ->
  len packet <= max -> fill 4 w = (salt, w') -> open_reads rs -> (length rs <= n)%nat ->
  input rs = client_transcript packet response ->
  let run := accept (Peer := Peer) fuel server (mkScript rs [] [] []) peer st w in
  if decide (response = credential) then
    exists c', run = (Some (Ok (Accept_Session (mkServerCore (Inner_Plaintext c') message (server_middleware server)
        (mkServerContext peer (Some Negotiated_Plaintext) (Some tt))) st)), w') /\
      on_script codec max Demux_default n [] [] (server_transcript salt) c'
  else run = (Some (Err (Accept_Authentication AuthenticationFailed)), w').
Proof using valid room max_valid enough salt_len response_clean room_response.
  intros Hl Hpol Hcan Hv Hp Hlen Hfill Ho Hn Hi run.
  assert (first_packet max (MsgStartup message) packet) as Hfirst.
  { split; [now apply (to_packet_framed (MsgStartup message))|]. split; [done|]. apply decode_packet_to_packet; [|done].
    split; [done|]. intros Hx. rewrite Hx in Hv. done. }
  destruct (script_pre_startup codec max n fuel Demux_default (MsgStartup message) packet (wire_image (password_frame response)) [] []
    (Conn_new (mkBuffered (mkScript rs [] [] []) [] [] codec max Demux_default)) max_valid Hfirst ltac:(lia)) as (c1 & E1 & Hs1).
  { exists rs, [], []. done. }
  assert (exists rounds, fuel = Datatypes.S rounds) as (rounds & Hfuel) by (exists (pred fuel); lia).
  assert (run = let '(r, env) := (accept_session fuel server Inner_Plaintext (transition c1) message
      (mkServerContext peer (Some Negotiated_Plaintext) None)) (mkServerEnv (server_middleware server) st mkNoStartupRoute w) in
      ((fun r => map_err accept_error (result_map fst r)) <$> r, senv_world env)) as Hrun.
  { unfold run, accept, accept_routed. rewrite buffered_script by done. cbn [map_err].
    erewrite then_ok by reflexivity. rewrite Hfuel at 2. cbn [accept_loop].
    unfold await_pre_startup, or_abort. erewrite then_ok.
    2:{ erewrite then_ok by (apply on_conn_ok; exact E1). cbv beta iota. erewrite then_ok by now apply hooked. reflexivity. }
    cbv beta iota. cbn [offer_pre_startup]. change (tls_required (server_tls_policy server)) with false. cbv iota.
    now destruct (accept_session _ _ _ _ _ _ _). }
  rewrite Hrun. clear run Hrun. unfold accept_session. erewrite then_ok by now apply hooked.
  erewrite then_ok by reflexivity. cbv beta iota. erewrite then_ok by reflexivity. cbv beta. rewrite Hpol. cbn [defer_ready no_startup_route senv_handler senv_state senv_resolver senv_world].
  pose proof (server_completes (transition c1) message peer [] (server_middleware server) st mkNoStartupRoute w w' Hv Hfill Hs1) as Hc.
  cbv zeta in Hc. case_decide as Hr.
  - destruct Hc as (c2 & E2 & Hs2). exists c2. split; [|exact Hs2].
    unfold bind, wrap_error. rewrite E2. reflexivity.
  - unfold bind, wrap_error. rewrite Hc. reflexivity.
Qed.
End Server.
End Login.

(** ** The two roles together *)

Section Interoperation.
Context {CW SW ClientState ServerState Peer ConnectorError : Type} `{Profile : BuildProfile} `{TlsLibrary} `{Certificates} `{Crypto}.
Context `{!ScramClient CW} `{!Rng SW}.
Context (client : Client (Connector Script ConnectorError CW) ClientTlsPolicy StaticClientCredentials IdentityHandler)
  (server : Server DisabledServerTls StaticMd5ServerCredentials IdentityServerHandler).
Abbreviation client_codec := (mkPgCodec (limit_frame_len (client_limits client))).
Abbreviation server_codec := (mkPgCodec (server_max_frame_len (server_limits server))).
Abbreviation packet_limit := (server_max_pre_startup (server_limits server)).

(** Limits in range that leave room for the login. *)
Definition login_fits (packet response : bytes) : Prop :=
  13 <= max_frame_len client_codec <= MAX_PROTOCOL_FRAME_LEN /\ len response + 6 <= max_frame_len client_codec /\
  13 <= max_frame_len server_codec <= MAX_PROTOCOL_FRAME_LEN /\ len response + 6 <= max_frame_len server_codec /\
  8 <= packet_limit <= I32_MAX /\ len packet <= packet_limit.

(** C7: A client and a server with static credentials complete the MD5 login
    over plaintext with each other, however the bytes of each side are cut into
    reads and delayed for the other: when the client reads what the server wrote
    and the server what the client wrote, both return a ready connection with
    empty buffers, the server's with the client's startup message. A server that
    reads any response other than the one for its user, password and salt returns
    the authentication failure. *)
Theorem md5_login_interoperates fuel n user password salt target overrides peer message packet response cst sst cw cw' sw sw' client_reads server_reads :
  (2 * n + 2 <= fuel)%nat -> length salt = 4%nat -> login_fits packet response -> x00 ∉ response ->
  client_authentication client = mkClientCredentials user password ->
  server_authentication_policy server = mkMd5Credentials user password ->
  into_message (merged_with (client_defaults client) overrides) = Ok message -> StartupMessage_canonical message ->
  StartupMessage_encode message = Ok packet ->
  client_connector client target cw = (Ok (mkScript client_reads [] [] []), cw') -> fill 4 sw = (salt, sw') ->
  open_reads client_reads -> (length client_reads <= n)%nat -> input client_reads = server_transcript salt ->
  open_reads server_reads -> (length server_reads <= n)%nat -> input server_reads = client_transcript packet response ->
  let connected := connect (State := ClientState) fuel client target overrides cst cw in
  let accepted := accept (State := ServerState) (Peer := Peer) fuel server (mkScript server_reads [] [] []) peer sst sw in
  if decide (response = md5_response user password salt) then
    (exists c, connected = (Some (Ok (mkCore c (client_middleware client)
         (mkClientContext target (Some Status_Plaintext) (Some tt) None), cst)), cw') /\
       on_script client_codec DEFAULT_MAX_PRE_STARTUP_PACKET_LEN first_ready n [] [] (client_transcript packet response) c) /\
    (exists c, accepted = (Some (Ok (Accept_Session (mkServerCore (Inner_Plaintext c) message (server_middleware server)
         (mkServerContext peer (Some Negotiated_Plaintext) (Some tt))) sst)), sw') /\
       on_script server_codec packet_limit Demux_default n [] [] (server_transcript salt) c)
  else accepted = (Some (Err (Accept_Authentication AuthenticationFailed)), sw').
Proof.
  intros Hfuel Hsalt (Hcr & Hcl & Hsr & Hsl & Hlim & Hpl) Hnul Hcp Hsp Hm Hcan Hp Hconn Hfill Hco Hcn Hci Hso Hsn Hsi connected accepted.
  assert (major (version message) = 3) as Hv by (unfold into_message in Hm; destruct (ClientComponent.user _); now simplify_eq).
  assert (codec_valid client_codec /\ codec_valid server_codec) as [Hvc Hvs] by (unfold codec_valid; lia).
  assert (contains 8 I32_MAX packet_limit = true) as Hmax by (unfold contains; apply andb_true_intro; split; apply Z.leb_le; lia).
  pose proof (server_accepts (World := SW) (State := ServerState) fuel n Hfuel user password salt Hsalt server_codec Hvs (proj1 Hsr)
    packet_limit Hmax response Hnul Hsl server message packet server_reads peer sst sw sw' ltac:(now destruct (server_limits server))
    Hsp Hcan Hv Hp Hpl Hfill Hso Hsn Hsi) as Hserver.
  case_decide as Hr; [|exact Hserver]. split; [|exact Hserver]. subst response.
  exact (client_connects fuel n Hfuel user password salt Hsalt Hnul client_codec client target overrides message packet client_reads cst cw cw'
    Hvc (proj1 Hcr) Hcl eq_refl Hcp Hconn Hm Hp Hco Hcn Hci).
Qed.
End Interoperation.

(** One login, in pieces. *)
Module LoginModel.
Import TlsModel.

Definition salt : bytes := str "salt".
Definition packet : bytes := [x00; x00; x00; x12; x00; x03; x00; x02] ++ str "user" ++ [x00] ++ str "app" ++ [x00; x00].
Definition response : bytes := md5_response (str "app") (str "secret") salt.
Definition client_reads : list (Poll bytes) := Pending :: map (fun b => Ready [b]) (server_transcript salt).
Definition server_reads (answer : bytes) : list (Poll bytes) :=
  [Ready (take 5 (client_transcript packet answer)); Pending; Ready (drop 5 (client_transcript packet answer))].
Definition client : Client (Connector Script Empty_set World) ClientTlsPolicy StaticClientCredentials IdentityHandler :=
  mkClient (fun _ w => (Ok (mkScript client_reads [] [] []), w)) ClientTls_Disabled (mkClientCredentials (str "app") (str "secret"))
    (StartupParameters_new (str "app")) ProtocolLimits_default mkIdentityHandler.
Definition server : Server DisabledServerTls StaticMd5ServerCredentials IdentityServerHandler :=
  mkServer mkDisabledServerTls (mkMd5Credentials (str "app") (str "secret")) ServerProtocolLimits_default mkIdentityServerHandler.
Definition target : ConnectTarget := ConnectTarget_new (str "primary").
Definition message : StartupMessage := mkStartup V3_2 [(str "user", str "app")].

Lemma message_canonical : StartupMessage_canonical message.
Proof. unfold StartupMessage_canonical, in_u. vm_compute. intuition (try discriminate); repeat constructor; discriminate. Qed.
Lemma client_open : open_reads client_reads.
Proof. repeat constructor; discriminate. Qed.
Lemma server_open answer : open_reads (server_reads answer).
Proof. repeat constructor; discriminate. Qed.
End LoginModel.

Import TlsModel LoginModel.

Lemma md5_login_interoperates_witness :
  (exists c, (connect (State := unit) 100 client target StartupParameters_default tt []).1 =
     Some (Ok (mkCore c mkIdentityHandler (mkClientContext target (Some Status_Plaintext) (Some tt) None), tt))) /\
  (exists core, (accept (State := unit) (Peer := unit) 100 server (mkScript (server_reads response) [] [] []) tt tt salt).1 =
     Some (Ok (Accept_Session core tt))) /\
  (accept (State := unit) (Peer := unit) 100 server (mkScript (server_reads (str "guess")) [] [] []) tt tt salt).1 =
    Some (Err (Accept_Authentication AuthenticationFailed)).
Proof.
  pose proof (md5_login_interoperates client server 100 49 (str "app") (str "secret") salt target StartupParameters_default tt
    message packet response tt tt [] [] salt [] client_reads (server_reads response)
    ltac:(lia) eq_refl ltac:(vm_compute; intuition discriminate) ltac:(apply (bool_decide_eq_true_1 _); vm_compute; reflexivity)
    eq_refl eq_refl eq_refl message_canonical eq_refl eq_refl eq_refl client_open ltac:(vm_compute; lia) eq_refl
    (server_open response) ltac:(vm_compute; lia) eq_refl) as Hok.
  pose proof (md5_login_interoperates client server 100 49 (str "app") (str "secret") salt target StartupParameters_default tt
    message packet (str "guess") tt tt [] [] salt [] client_reads (server_reads (str "guess"))
    ltac:(lia) eq_refl ltac:(vm_compute; intuition discriminate) ltac:(apply (bool_decide_eq_true_1 _); vm_compute; reflexivity)
    eq_refl eq_refl eq_refl message_canonical eq_refl eq_refl eq_refl client_open ltac:(vm_compute; lia) eq_refl
    (server_open (str "guess")) ltac:(vm_compute; lia) eq_refl) as Hno.
  cbv zeta in Hok, Hno. rewrite decide_True in Hok by reflexivity. rewrite decide_False in Hno by discriminate.
  destruct Hok as [(c & -> & _) (s & -> & _)]. rewrite Hno. split; [now exists c|]. split; [|done]. eexists. reflexivity.
Defined.
