(* ===== verification/EstablishErrors.v ===== *)
(** Establishment against particular peers: what [connect] and [accept] do where
    the peer, the middleware or the build profile departs from the plain case. *)

From Stdlib Require Import ZArith Lia String.
From Stdlib Require Import Init.Byte.
From stdpp Require Import prelude.
From S2P Require Import Prelude OrdMap Wire Frame Frontend Startup Backend Demux Fsm Grammar Resources PreStartup Transport Session ServerSession Scram Auth RuntimeMiddleware Intermediary Tls Establish ClientComponent ServerComponent TlsModel Conversation.

Local Open Scope string_scope.
Local Open Scope Z_scope.
Local Open Scope list_scope.

Import TlsModel.
#[local] Remove Hints release : typeclass_instances.

(** A client with static credentials whose server sends these frames and closes. *)
Section Client.
Context `{Profile : BuildProfile}.

Definition dial (frames : list Frame) (password : bytes) : Client (Connector Script Empty_set World) ClientTlsPolicy StaticClientCredentials IdentityHandler :=
  mkClient (fun _ w => (Ok (mkScript (map (fun f => Ready (wire_image f)) frames) [] [] []), w)) ClientTls_Disabled
    (mkClientCredentials (str "app") password) (StartupParameters_new (str "app")) ProtocolLimits_default mkIdentityHandler.
Definition login (frames : list Frame) (password : bytes) : option (result unit (ConnectError Empty_set (ClientTlsError Empty_set) (ClientAuthenticationError StaticCredentialError))) :=
  result_map (fun _ => tt) <$> (connect (State := unit) 50 (dial frames password) LoginModel.target StartupParameters_default tt []).1.
End Client.

Definition cleartext_frame : Frame := mkFrame "R"%byte (put_u32 3 []).
Definition error_frame (text : string) : Frame := mkFrame "E"%byte ("M"%byte :: str text ++ [x00; x00]).
Definition notice_frame (text : string) : Frame := mkFrame "N"%byte ("M"%byte :: str text ++ [x00; x00]).

(** A server that goes away during the password exchange: [connect] returns the
    error in release builds, but a build with debug assertions panics, since the
    live connection is dropped by [?]. *)
Theorem lost_login_panics_in_debug :
  login (Profile := false) [cleartext_frame] (str "secret") =
    Some (Err (Connect_Protocol (mkError UnexpectedEof "peer closed with no complete message"))) /\
  login (Profile := true) [cleartext_frame] (str "secret") = Some Panic.
Proof. split; vm_compute; reflexivity. Qed.

(** The same for a password that cannot be sent, and for a server that asks for
    what the policy refuses. *)
Theorem refused_login_panics_in_debug :
  (forall profile, login (Profile := profile) [cleartext_frame] (str "secret" ++ [x00]) =
    Some (if profile then Panic else Err (Connect_Protocol (mkError InvalidInput "password response contains a NUL byte")))) /\
  forall profile, login (Profile := profile) [mkFrame "R"%byte (put_u32 7 [])] (str "secret") =
    Some (if profile then Panic else Err (Connect_Authentication (CA_Policy UnsupportedAuthentication))).
Proof. split; intros []; vm_compute; reflexivity. Qed.

(** An error after [AuthenticationOk], such as an unknown database, is passed over:
    the caller sees the end of the stream. *)
Theorem startup_error_unreported :
  forall profile, login (Profile := profile) [cleartext_frame; ok_frame; error_frame "no such database"] (str "secret") =
    Some (Err (Connect_Protocol (mkError UnexpectedEof "peer closed with no complete message"))).
Proof. intros []; vm_compute; reflexivity. Qed.

(** A notice between the password and [AuthenticationOk] fails the login. *)
Theorem notice_fails_login :
  forall profile,
  login (Profile := profile) [cleartext_frame; ok_frame; ready_frame] (str "secret") = Some (Ok tt) /\
  login (Profile := profile) [notice_frame "hello"; cleartext_frame; ok_frame; ready_frame] (str "secret") = Some (Ok tt) /\
  login (Profile := profile) [cleartext_frame; notice_frame "hello"; ok_frame; ready_frame] (str "secret") =
    Some (Err (Connect_Protocol (mkError InvalidData "illegal authentication completion"))).
Proof. intros []; vm_compute; done. Qed.

(** A server without passwords whose client asks for a protocol version. *)
Section Server.
Context `{Profile : BuildProfile}.

Definition visitor (minor_ : Z) : Script :=
  mkScript [Ready ([x00; x00; x00; x12] ++ put_u16 3 [] ++ put_u16 minor_ [] ++ str "user" ++ [x00] ++ str "app" ++ [x00; x00])] [] [] [].
Definition host : Server DisabledServerTls TrustServerAuthentication IdentityServerHandler :=
  mkServer mkDisabledServerTls mkTrustServer ServerProtocolLimits_default mkIdentityServerHandler.
(** The minor version the session was accepted with, and what was sent. *)
Definition greet (minor_ : Z) : option (Z * bytes) :=
  match (accept (State := unit) (Peer := unit) (World := World) 20 host (visitor minor_) tt tt []).1 with
  | Some (Ok (Accept_Session core _)) =>
      match server_conn core with
      | Inner_Plaintext c => b ← transport c; Some (minor (version (server_startup_message core)), write_log (stream b))
      | _ => None
      end
  | _ => None
  end.
End Server.

(** A newer minor version is accepted without [NegotiateProtocolVersion]: the
    client is told nothing, the transcript is the one of 3.2. *)
Theorem newer_minor_not_negotiated :
  forall profile,
  greet (Profile := profile) 2 = Some (2, wire_image ok_frame ++ wire_image ready_frame) /\
  greet (Profile := profile) 9 = Some (9, wire_image ok_frame ++ wire_image ready_frame).
Proof. intros []; vm_compute; done. Qed.
