(* ===== verification/IntermediaryEstablish.v ===== *)
(** The intermediary's builder and the establishment of both of its roles:
    src/intermediary_component.rs.

    The cancellation registry is shared by the sessions of a process behind a
    mutex. It is a store passed from step to step here: the definitions are the
    steps of one establishment, each of which holds the lock for one insertion
    or removal, and what other sessions do between them is not modelled. *)

From Stdlib Require Import ZArith Lia String.
From Stdlib Require Import Init.Byte.
From stdpp Require Import prelude gmap.
From S2P Require Import Prelude OrdMap Wire Frame Frontend Startup PreStartup Backend Demux Cancel BackendHold Fsm Pipeline Transport Session ServerSession Scram Auth RuntimeMiddleware Intermediary Relay Tls Establish ClientComponent ServerComponent.

Local Open Scope string_scope.
Local Open Scope Z_scope.
Local Open Scope list_scope.
Local Open Scope establish_scope.

(** ** Configuration *)

Inductive CancellationPolicy : Type := Reject | Forward.
#[export] Instance CancellationPolicy_eq_dec : EqDecision CancellationPolicy.
Proof. solve_decision. Defined.
Inductive EstablishmentFailurePolicy : Type := Close_ | SafeDiagnostic.

Definition safe_establishment_diagnostic : BackendMessage :=
  let field code value := mkDiagnosticField code (str value) in
  B_ErrorResponse (mkDiagnostic [field "S"%byte "ERROR"; field "M"%byte "connection establishment failed"]).

Inductive IntermediaryBuildError : Type :=
| MissingServer | MissingClient | MissingStartupResolver | MissingCancellationPolicy.

Record InitialServerContext (Peer : Type) : Type := mkInitialServer { initial_peer : Peer; initial_tls : NegotiatedServerTls }.
Arguments mkInitialServer {Peer}. Arguments initial_peer {Peer}. Arguments initial_tls {Peer}.

Class StartupRouteResolver (Resolver Peer Error World : Type) : Type :=
  route_resolve : Resolver -> StartupParameters -> InitialServerContext Peer -> World -> result ConnectTarget Error * World.

Record AuthenticatedRouteContext (Peer Identity : Type) : Type := mkRouteContext { routed_peer : Peer; routed_identity : Identity }.
Arguments mkRouteContext {Peer Identity}. Arguments routed_peer {Peer Identity}. Arguments routed_identity {Peer Identity}.

Class AuthenticatedRoutePolicy (Policy Peer Identity Error World : Type) : Type :=
  authenticated_route : Policy -> ConnectTarget -> AuthenticatedRouteContext Peer Identity -> World ->
    result ConnectTarget Error * World.

Inductive AllowAuthenticatedRoute : Type := mkAllowRoute.
#[export] Instance allow_route {Peer Identity World}
    : AuthenticatedRoutePolicy AllowAuthenticatedRoute Peer Identity Infallible World := fun _ target _ w => (Ok target, w).

(** [IntermediaryMiddleware::backend], which establishment calls itself. *)
Class BoundaryBackend (B State SC CC E : Type) : Type :=
  boundary_message : B -> SC -> CC -> State -> BackendMessage -> result BackendMiddlewareOutput E * (B * State).
#[export] Instance identity_boundary {State SC CC} : BoundaryBackend IdentityIntermediaryMiddleware State SC CC Infallible :=
  fun b _ _ st message => (Ok (BM_Forward message), (b, st)).

Class IntermediaryMiddlewareFactory (Factory SC CC B : Type) : Type := create_boundary : Factory -> SC -> CC -> B.
#[export] Instance function_factory {SC CC B} : IntermediaryMiddlewareFactory (SC -> CC -> B) SC CC B := fun f => f.
#[export] Instance identity_boundary_factory {SC CC}
    : IntermediaryMiddlewareFactory IdentityIntermediaryMiddleware SC CC IdentityIntermediaryMiddleware := fun b _ _ => b.

Record Intermediary (S C R A P B : Type) : Type := mkIntermediary {
  mid_server : S;
  mid_client : C;
  mid_resolver : R;
  mid_route : A;
  mid_pipeline : P;
  mid_boundary : B;
  mid_cancellation : CancellationPolicy;
  mid_failure_policy : EstablishmentFailurePolicy;
  mid_hold_limits : option BackendHoldLimits
}.
Arguments mkIntermediary {S C R A P B}. Arguments mid_server {S C R A P B}. Arguments mid_client {S C R A P B}.
Arguments mid_resolver {S C R A P B}. Arguments mid_route {S C R A P B}. Arguments mid_pipeline {S C R A P B}.
Arguments mid_boundary {S C R A P B}. Arguments mid_cancellation {S C R A P B}.
Arguments mid_failure_policy {S C R A P B}. Arguments mid_hold_limits {S C R A P B}.

(** The registry is a field of both in the source; its shared store is passed
    along here, so the builder keeps only its type. *)
Record IntermediaryBuilder (S C R A P B K : Type) : Type := mkIBuilder {
  ib_server : option S;
  ib_client : option C;
  ib_resolver : option R;
  ib_route : A;
  ib_pipeline : P;
  ib_boundary : B;
  ib_cancellation : option CancellationPolicy;
  ib_registry : K;
  ib_failure_policy : EstablishmentFailurePolicy;
  ib_hold_limits : option BackendHoldLimits
}.
Arguments mkIBuilder {S C R A P B K}. Arguments ib_server {S C R A P B K}. Arguments ib_client {S C R A P B K}.
Arguments ib_resolver {S C R A P B K}. Arguments ib_route {S C R A P B K}. Arguments ib_pipeline {S C R A P B K}.
Arguments ib_boundary {S C R A P B K}. Arguments ib_cancellation {S C R A P B K}. Arguments ib_registry {S C R A P B K}.
Arguments ib_failure_policy {S C R A P B K}. Arguments ib_hold_limits {S C R A P B K}.

Definition IntermediaryBuilder_default
    : IntermediaryBuilder unit unit unit AllowAuthenticatedRoute NoPipeline IdentityIntermediaryMiddleware RejectCancellation :=
  mkIBuilder None None None mkAllowRoute mkNoPipeline mkIdentityIntermediary None mkRejectCancellation Close_ None.

Section Builder.
Context {S C R A P B K : Type}.
Implicit Types (b : IntermediaryBuilder S C R A P B K).

Definition builder_server {Next} (server : Next) b : IntermediaryBuilder Next C R A P B K :=
  mkIBuilder (Some server) (ib_client b) (ib_resolver b) (ib_route b) (ib_pipeline b) (ib_boundary b)
    (ib_cancellation b) (ib_registry b) (ib_failure_policy b) (ib_hold_limits b).
Definition builder_client {Next} (client : Next) b : IntermediaryBuilder S Next R A P B K :=
  mkIBuilder (ib_server b) (Some client) (ib_resolver b) (ib_route b) (ib_pipeline b) (ib_boundary b)
    (ib_cancellation b) (ib_registry b) (ib_failure_policy b) (ib_hold_limits b).
Definition builder_startup_resolver {Next} (resolver : Next) b : IntermediaryBuilder S C Next A P B K :=
  mkIBuilder (ib_server b) (ib_client b) (Some resolver) (ib_route b) (ib_pipeline b) (ib_boundary b)
    (ib_cancellation b) (ib_registry b) (ib_failure_policy b) (ib_hold_limits b).
Definition builder_authenticated_route {Next} (route : Next) b : IntermediaryBuilder S C R Next P B K :=
  mkIBuilder (ib_server b) (ib_client b) (ib_resolver b) route (ib_pipeline b) (ib_boundary b)
    (ib_cancellation b) (ib_registry b) (ib_failure_policy b) (ib_hold_limits b).
Definition builder_pipeline {Next} (pipeline : Next) b : IntermediaryBuilder S C R A Next B K :=
  mkIBuilder (ib_server b) (ib_client b) (ib_resolver b) (ib_route b) pipeline (ib_boundary b)
    (ib_cancellation b) (ib_registry b) (ib_failure_policy b) (ib_hold_limits b).
Definition builder_boundary {Next} (boundary : Next) b : IntermediaryBuilder S C R A P Next K :=
  mkIBuilder (ib_server b) (ib_client b) (ib_resolver b) (ib_route b) (ib_pipeline b) boundary
    (ib_cancellation b) (ib_registry b) (ib_failure_policy b) (ib_hold_limits b).
(** Forwarding needs a registry: asking for it alone leaves the posture unset. *)
Definition builder_cancellation (cancellation : CancellationPolicy) b : IntermediaryBuilder S C R A P B K :=
  mkIBuilder (ib_server b) (ib_client b) (ib_resolver b) (ib_route b) (ib_pipeline b) (ib_boundary b)
    (match cancellation with Reject => Some Reject | Forward => None end)
    (ib_registry b) (ib_failure_policy b) (ib_hold_limits b).
Definition builder_establishment_failure (policy : EstablishmentFailurePolicy) b : IntermediaryBuilder S C R A P B K :=
  mkIBuilder (ib_server b) (ib_client b) (ib_resolver b) (ib_route b) (ib_pipeline b) (ib_boundary b)
    (ib_cancellation b) (ib_registry b) policy (ib_hold_limits b).
Definition builder_backend_batching (limits : BackendHoldLimits) b : IntermediaryBuilder S C R A P B K :=
  mkIBuilder (ib_server b) (ib_client b) (ib_resolver b) (ib_route b) (ib_pipeline b) (ib_boundary b)
    (ib_cancellation b) (ib_registry b) (ib_failure_policy b) (Some limits).
Definition builder_cancellation_registry {Next} (registry : Next) b : IntermediaryBuilder S C R A P B Next :=
  mkIBuilder (ib_server b) (ib_client b) (ib_resolver b) (ib_route b) (ib_pipeline b) (ib_boundary b)
    (Some Forward) registry (ib_failure_policy b) (ib_hold_limits b).

Definition intermediary_build b : result (Intermediary S C R A P B * K) IntermediaryBuildError :=
  let? server := ok_or (ib_server b) MissingServer in
  let? client := ok_or (ib_client b) MissingClient in
  let? resolver := ok_or (ib_resolver b) MissingStartupResolver in
  let? cancellation := ok_or (ib_cancellation b) MissingCancellationPolicy in
  Ok (mkIntermediary server client resolver (ib_route b) (ib_pipeline b) (ib_boundary b) cancellation
        (ib_failure_policy b) (ib_hold_limits b), ib_registry b).
End Builder.

(** ** Routing *)

Inductive StartupResolverAdapter (Resolver : Type) : Type := mkAdapter (resolver : Resolver).
Arguments mkAdapter {Resolver}.

Inductive StartupResolutionError (Error : Type) : Type :=
| Resolution_Parameters (error : io_error)
| Resolution_Resolver (error : Error).
Arguments Resolution_Parameters {Error}. Arguments Resolution_Resolver {Error}.

#[export] Instance startup_adapter {Resolver State Peer Identity Error World} `{!StartupRouteResolver Resolver Peer Error World}
    : StartupResolver (StartupResolverAdapter Resolver) State (ServerConnectionContext Peer Identity) ConnectTarget
        (StartupResolutionError Error) World := {|
  defer_ready _ := true;
  startup_resolve message context adapter st w :=
    let 'mkAdapter resolver := adapter in
    match from_wire message with
    | Ok parameters =>
        match server_tls context with
        | Some tls =>
            let (r, w) := route_resolve resolver parameters (mkInitialServer (server_peer context) tls) w in
            (map_err Resolution_Resolver r, (adapter, st, w))
        | None => (Panic (* expect *), (adapter, st, w))
        end
    | Err error => (Err (Resolution_Parameters error), (adapter, st, w))
    | Panic => (Panic, (adapter, st, w))
    end
|}.

(** ** Accepting *)

Inductive IntermediaryAcceptError (ServerError ResolverError RouteError ClientError RegistryError CancellationError MiddlewareError : Type) : Type :=
| IA_Server (error : ServerError)
| IA_StartupRoute (error : StartupResolutionError ResolverError)
| IA_CancellationRejected
| IA_AuthenticatedRoute (error : RouteError)
| IA_Client (error : ClientError)
| IA_CancellationRegistry (error : RegistryError)
| IA_ServerOutput (error : io_error)
| IA_Cancellation (error : CancellationError)
| IA_Middleware (error : MiddlewareError).
Arguments IA_Server {_ _ _ _ _ _ _}. Arguments IA_StartupRoute {_ _ _ _ _ _ _}. Arguments IA_CancellationRejected {_ _ _ _ _ _ _}.
Arguments IA_AuthenticatedRoute {_ _ _ _ _ _ _}. Arguments IA_Client {_ _ _ _ _ _ _}.
Arguments IA_CancellationRegistry {_ _ _ _ _ _ _}. Arguments IA_ServerOutput {_ _ _ _ _ _ _}.
Arguments IA_Cancellation {_ _ _ _ _ _ _}. Arguments IA_Middleware {_ _ _ _ _ _ _}.

Inductive IntermediaryAccept (Connection : Type) : Type :=
| Mid_Session (connection : Connection)
| CancellationForwarded.
Arguments Mid_Session {Connection}. Arguments CancellationForwarded {Connection}.

Definition into_session {Connection E} (a : IntermediaryAccept Connection) : result Connection E :=
  match a with Mid_Session connection => Ok connection | CancellationForwarded => Panic end.

Section Accept.
Context {DT UT State Peer World ProviderError AuthError Identity Evidence Session PolicyError ConnectorError : Type}.
Context {SH CH B BE K KE RouteError ResolveError ServerTls_ Provider ClientTls_ ClientProvider ClientProviderError : Type}.
Context {ServerAuth ServerPolicy ClientAuth ServerFactory ClientFactory Resolver Route Policy Boundary : Type}.
Abbreviation SC := (ServerConnectionContext Peer Identity).
Abbreviation CC := (ClientConnectionContext Evidence).
Context `{Profile : BuildProfile} `{TlsLibrary} `{Certificates} `{AsyncIo DT} `{AsyncIo UT} `{!AsyncShutdown UT}.
Context `{!ServerMiddleware SH State SC} `{!MiddlewareFactory ServerFactory SC SH}.
Context `{!ServerAuthentication ServerPolicy Peer Identity AuthError World} `{!ServerAuthenticationProvider ServerAuth ServerPolicy World}.
Context `{!ServerTlsConfiguration ServerTls_ Provider} `{!ServerIdentityProvider Provider ProviderError World}.
Context `{!ClientMiddleware CH State CC} `{!MiddlewareFactory ClientFactory ClientInitialContext CH}.
Context `{!ClientAuthentication ClientAuth Session PolicyError World} `{!ClientAuthenticationSession Session Evidence PolicyError World}.
Context `{!ClientTlsConfiguration ClientTls_ ClientProvider} `{!ClientTlsProvider ClientProvider ClientProviderError World}.
Context `{!StartupRouteResolver Resolver Peer ResolveError World} `{!AuthenticatedRoutePolicy Route Peer Identity RouteError World}.
Context `{!IntermediaryMiddlewareFactory Boundary SC CC B} `{!BoundaryBackend B State SC CC BE}.
Context `{!IntermediaryCancellationRegistry K KE}.
Context (fuel : nat).
Context (mid : Intermediary (Server ServerTls_ ServerAuth ServerFactory)
  (Client (Connector UT ConnectorError World) ClientTls_ ClientAuth ClientFactory) Resolver Route Policy Boundary).

Abbreviation Downstream := (ServerConnectionCore DT SH SC).
Abbreviation Upstream := (RoleCore (AuthConn (Buffered (ClientTransport UT)) SP.Ready) CH CC).
Abbreviation WD := (ServerConnectionInner DT * StartupMessage)%type.
Abbreviation WU := (AuthConn (Buffered (ClientTransport UT)) SP.Ready).
Abbreviation Relay := (IntermediaryConnection WD WU State SC CC SH CH B Policy K).
Abbreviation Error := (IntermediaryAcceptError (AcceptError ProviderError AuthError) ResolveError RouteError
  (ConnectError ConnectorError (ClientTlsError ClientProviderError) (ClientAuthenticationError PolicyError)) KE
  (CancelError (ConnectorError := ConnectorError)) BE).

(** What outlives the call: the registry's store and the world. *)
Record MidEnv : Type := mkMidEnv { mid_registry : K; mid_world : World }.
Abbreviation Step A := (M MidEnv Error A).

Definition with_world {E A} (op : World -> result A E * World) : M MidEnv E A := fun env =>
  let (r, w) := op (mid_world env) in (Some r, mkMidEnv (mid_registry env) w).

(** The server role's core as the forwarding driver holds it, and back. *)
Definition relay_core (c : Downstream) : RoleCore WD SH SC :=
  mkCore (server_conn c, server_startup_message c) (server_handler c) (server_context c).
Definition server_core (c : RoleCore WD SH SC) : Downstream :=
  mkServerCore (core_conn c).1 (core_conn c).2 (core_handler c) (core_context c).

(** [let _ = send.await]: only a panic or waiting forever is noticed. *)
Definition best_effort {A S} (r : option (io A) * S) : M MidEnv Error S := fun env =>
  match r with
  | (Some Panic, _) => (Some Panic, env)
  | (Some _, s) => (Some (Ok s), env)
  | (None, _) => (None, env)
  end.

(** [let _ = downstream.teardown()] and [into_parts()] *)
Definition close_downstream (c : Downstream) (st : State) : Step unit :=
  of_result (let? _ := map_err IA_ServerOutput (server_teardown c st) in Ok tt).
Definition close_upstream (c : Upstream) (st : State) : Step unit :=
  of_result (let? _ := map_err IA_ServerOutput (client_into_parts c st) in Ok tt).

(** The diagnostic before the downstream connection is taken apart. *)
Definition report_failure (c : Downstream) (st : State) : Step (Downstream * State) :=
  match mid_failure_policy mid with
  | SafeDiagnostic => best_effort (send_generated_error fuel safe_establishment_diagnostic c st)
  | Close_ => ret (c, st)
  end.
(** The same on the core, whose middleware's refusal is not an error. *)
Definition report_core_failure (c : Downstream) (st : State) : Step (Downstream * State) :=
  match mid_failure_policy mid with
  | SafeDiagnostic =>
      let '(diagnostic, (c, st)) := server_intercept server_backend st safe_establishment_diagnostic c in
      match diagnostic with
      | B_ErrorResponse _ => do c <- best_effort (server_send_wire_raw fuel diagnostic c); ret (c, st)
      | _ => ret (c, st)
      end
  | Close_ => ret (c, st)
  end.

Definition forward_cancellation (cancellation : ServerCancellation DT SH State Peer) : Step (IntermediaryAccept Relay) :=
  if decide (mid_cancellation mid = Reject) then raise IA_CancellationRejected
  else
    let request := cancellation_request cancellation in
    let client_key := mkCancelKey (cancel_process_id request) (cancel_secret_key request) in
    do route <- (fun env => (Some (Ok (registry_resolve client_key (mid_registry env))), env));
    match route with
    | None => raise IA_CancellationRejected
    | Some route =>
        do _ <- wrap_error IA_Cancellation (fun env =>
          let (r, w) := cancel fuel (mid_client mid) (route_target route) (upstream_key route) (mid_world env) in
          (r, mkMidEnv (mid_registry env) w));
        ret CancellationForwarded
    end.

(** *** The established pair *)

Definition send_raw (message : BackendMessage) (r : Relay) : option (io unit) * Relay :=
  let (x, c) := server_send_wire_raw fuel message (server_core (downstream r)) in (x, set_downstream (relay_core c) r).

Definition intercept_generated (message : BackendMessage) (r : Relay) : BackendMessage * Relay :=
  let '(message, (c, st)) := server_intercept server_backend (relay_state r) message (server_core (downstream r)) in
  (message, set_state st (set_downstream (relay_core c) r)).

(** [detach_cancellation], [teardown], and the error. The store of the torn-down
    connection is the registry's again. *)
Definition fail_pair {A} (r : Relay) (error : Error) : Step A := fun env =>
  let r := (detach_cancellation r).2 in
  match teardown r with
  | Ok parts => (Some (Err error), mkMidEnv (part_registry parts) (mid_world env))
  | Err _ | Panic => (Some Panic, env)
  end.

(** [if let Err(error) = connection.downstream.send_wire_raw(..).await] *)
Definition send_or_fail (message : BackendMessage) (r : Relay) : Step Relay :=
  match send_raw message r with
  | (Some (Ok _), r) => ret r
  | (Some (Err error), r) => fail_pair r (IA_ServerOutput error)
  | (Some Panic, _) => panic
  | (None, _) => unfinished
  end.

(** The startup parameters, as observed by the upstream side. *)
Fixpoint relay_parameters (rounds : nat) (r : Relay) : Step Relay :=
  match rounds with
  | O => unfinished
  | S rounds =>
      let (status, c) := core_pop_parameter_status (upstream r) in
      let r := set_upstream c r in
      match status with
      | Ok (Some message) => do r <- send_or_fail message r; relay_parameters rounds r
      | Ok None => ret r
      | Err _ | Panic => panic
      end
  end.

Definition at_boundary_backend (message : BackendMessage) (r : Relay) : result BackendMiddlewareOutput BE * Relay :=
  let '(x, (b, st)) :=
    boundary_message (boundary r) (core_context (downstream r)) (core_context (upstream r)) (relay_state r) message in
  (x, set_state st (set_boundary b r)).

(** The generated key may be observed, not changed. *)
Definition relay_backend_key (message : BackendMessage) (r : Relay) : Step Relay :=
  let expected := message in
  match at_boundary_backend message r with
  | (Ok (BM_Forward message), r) =>
      let (message, r) := intercept_generated message r in
      if decide (message = expected) then send_or_fail message r
      else fail_pair r (IA_ServerOutput (Wire.invalid "middleware rejected generated cancellation key"))
  | (Ok _, r) =>
      fail_pair r (IA_ServerOutput (Wire.invalid "middleware suppressed or expanded generated cancellation key"))
  | (Err error, r) => fail_pair r (IA_Middleware error)
  | (Panic, _) => panic
  end.

Definition relay_ready (r : Relay) : Step Relay :=
  let (ready, r) := intercept_generated (B_ReadyForQuery Idle) r in
  match ready with
  | B_ReadyForQuery _ => send_or_fail ready r
  | _ => fail_pair r (IA_ServerOutput (Wire.invalid "middleware rejected generated readiness"))
  end.

Definition key_message (key : CancelKey) : BackendMessage := B_BackendKeyData (key_process_id key) (key_secret key).

(** The connection hands its view of the store back. *)
Definition finish_pair (r : Relay) : Step (IntermediaryAccept Relay) := fun env =>
  (Some (Ok (Mid_Session r)), mkMidEnv (cancellation_registry r) (mid_world env)).

(** The route the client can cancel by. *)
Definition register_cancellation (c : Downstream) (u : Upstream) (st : State) (selected : ConnectTarget)
    : Step (option CancelKey * Downstream * State) :=
  match mid_cancellation mid, context_backend_key (core_context u) with
  | Forward, Some key =>
      do registered <- (fun env =>
        let (x, k) := registry_register (mkRoute selected key) (mid_registry env) in
        match x with
        | Panic => (Some Panic, mkMidEnv k (mid_world env))
        | _ => (Some (Ok x), mkMidEnv k (mid_world env))
        end);
      match registered with
      | Ok client_key => ret (Some client_key, c, st)
      | Err error =>
          do (c, st) <- report_core_failure c st;
          close_downstream c st;; close_upstream u st;; raise (IA_CancellationRegistry error)
      | Panic => panic
      end
  | _, _ => ret (None, c, st)
  end.

(** From the two roles to the operational pair. *)
Definition establish_pair (c : Downstream) (u : Upstream) (st : State) (selected : ConnectTarget)
    : Step (IntermediaryAccept Relay) :=
  let b := create_boundary (mid_boundary mid) (server_context c) (core_context u) in
  do (client_key, c, st) <- register_cancellation c u st selected;
  do r <- (fun env =>
    (Some (Ok (mkRelay (relay_core c) u st b (Pipeline_new (mid_pipeline mid)) selected None BackendHold_default
       (mid_hold_limits mid) [] (mid_registry env) client_key)), env));
  do r <- relay_parameters fuel r;
  do r <- match client_key with Some key => relay_backend_key (key_message key) r | None => ret r end;
  do r <- relay_ready r;
  finish_pair r.

(** After the client-facing role has been accepted. *)
Definition connect_upstream (c : Downstream) (st : State) (startup : StartupParameters) (selected : ConnectTarget)
    : Step (IntermediaryAccept Relay) :=
  do (upstream_, st) <- (fun env =>
    let '(r, (st, w)) := connect_core fuel (mid_client mid) selected startup st (mid_world env) in
    let env := mkMidEnv (mid_registry env) w in
    match r with
    | Some Panic => (Some Panic, env)
    | Some r => (Some (Ok (r, st)), env)
    | None => (None, env)
    end);
  match upstream_ with
  | Ok u => establish_pair c u st selected
  | Err error => do (c, st) <- report_core_failure c st; close_downstream c st;; raise (IA_Client error)
  | Panic => panic
  end.

Definition route_session (c : Downstream) (st : State) (selected : option ConnectTarget) : Step (IntermediaryAccept Relay) :=
  match from_wire (server_startup_message c) with
  | Err error =>
      do (c, st) <- report_failure c st;
      close_downstream c st;; raise (IA_StartupRoute (Resolution_Parameters error))
  | Panic => panic
  | Ok startup =>
      do evidence <- of_result (known (server_identity (server_context c)));
      let context := mkRouteContext (server_peer (server_context c)) evidence in
      match selected with
      | None => close_downstream c st;; raise IA_CancellationRejected
      | Some selected =>
          do routed <- outcome (with_world (authenticated_route (mid_route mid) selected context));
          match routed with
          | Ok selected => connect_upstream c st startup selected
          | Err error =>
              do (c, st) <- report_failure c st;
              close_downstream c st;; raise (IA_AuthenticatedRoute error)
          | Panic => panic
          end
      end
  end.

Definition intermediary_accept (transport : DT) (peer : Peer) (st : State) : Step (IntermediaryAccept Relay) :=
  do (accepted, selected) <- (fun env =>
    let '(r, (_, w)) := accept_routed fuel (mid_server mid) transport peer st (mkAdapter (mid_resolver mid)) (mid_world env) in
    (map_err (fun error => match error with
                           | Routed_Accept error => IA_Server error
                           | Routed_Route error => IA_StartupRoute error
                           end) <$> r, mkMidEnv (mid_registry env) w));
  match accepted with
  | Accept_Session c st => route_session c st selected
  | Accept_Cancellation cancellation => forward_cancellation cancellation
  end.
End Accept.
