(* ===== verification/IntermediaryAccept.v ===== *)
(** What establishing both roles of an intermediary guarantees. *)

From Stdlib Require Import ZArith Lia String.
From Stdlib Require Import Init.Byte.
From stdpp Require Import prelude gmap.
From S2P Require Import Prelude OrdMap Wire Frame Frontend Startup PreStartup Backend Demux Cancel BackendHold Fsm Pipeline Transport Session ServerSession Scram Auth RuntimeMiddleware Intermediary Relay Tls Establish EstablishProofs ClientComponent ServerComponent TlsModel ClientSpec ServerSpec IntermediaryEstablish.

Local Open Scope string_scope.
Local Open Scope Z_scope.
Local Open Scope list_scope.
Local Open Scope establish_scope.

(** What establishment relies on of a registry: a registered route is resolved by
    its key, and detaching the key restores the store. *)
Class RegistryLaws (K E : Type) `{IntermediaryCancellationRegistry K E} : Prop := {
  registered_route route k key k' : registry_register route k = (Ok key, k') -> registry_resolve key k' = Some route;
  registered_detach route k key k' : registry_register route k = (Ok key, k') -> (registry_detach key k').2 = k;
  refused_store route k e k' : registry_register route k = (Err e, k') -> k' = k
}.

#[export] Instance in_memory_laws : RegistryLaws InMemoryCancellationRegistry InMemoryCancellationRegistryError.
Proof.
  split; intros route [m []] x k'; cbn; intros Hreg; destruct (m !! upstream_key route) as [r|] eqn:El; simplify_eq; cbn; try done.
  - apply lookup_insert_eq.
  - now rewrite delete_insert_id.
Qed.
#[export] Instance reject_laws : RegistryLaws RejectCancellation Infallible.
Proof. split; intros; done. Qed.

Section Accept.
Context {DT UT State Peer World ProviderError AuthError Identity Evidence Session PolicyError ConnectorError : Type}.
Context {SH CH B BE K KE RouteError ResolveError ServerTls_ Provider ClientTls_ ClientProvider ClientProviderError : Type}.
Context {ServerAuth ServerPolicy ClientAuth ServerFactory ClientFactory Resolver Route Policy Boundary : Type}.
Abbreviation SC := (ServerConnectionContext Peer Identity).
Abbreviation CC := (ClientConnectionContext Evidence).
Context `{Profile : BuildProfile} `{TlsLibrary} `{Certificates} `{AsyncIo DT} `{AsyncIo UT} `{!AsyncShutdown UT}.
Context `{!ServerMiddleware SH State SC} `{!MiddlewareFactory ServerFactory SC SH}.
Context `{!ServerAuthentication ServerPolicy Peer Identity AuthError World} `{!ServerAuthenticationProvider ServerAuth ServerPolicy World}.
Context `{!ServerTlsConfiguration ServerTls_ Provider} `{!ServerIdentityProvider Provider ProviderError World}.
Context `{!ClientMiddleware CH State CC} `{!MiddlewareFactory ClientFactory ClientInitialContext CH}.
Context `{!ClientAuthentication ClientAuth Session PolicyError World} `{!ClientAuthenticationSession Session Evidence PolicyError World}.
Context `{!ClientTlsConfiguration ClientTls_ ClientProvider} `{!ClientTlsProvider ClientProvider ClientProviderError World}.
Context `{!StartupRouteResolver Resolver Peer ResolveError World} `{!AuthenticatedRoutePolicy Route Peer Identity RouteError World}.
Context `{!IntermediaryMiddlewareFactory Boundary SC CC B} `{!BoundaryBackend B State SC CC BE}.
Context `{Registry : !IntermediaryCancellationRegistry K KE} `{Laws : !RegistryLaws K KE}.
Context (fuel : nat).
Context (mid : Intermediary (Server ServerTls_ ServerAuth ServerFactory)
  (Client (Connector UT ConnectorError World) ClientTls_ ClientAuth ClientFactory) Resolver Route Policy Boundary).

Abbreviation Downstream := (ServerConnectionCore DT SH SC).
Abbreviation Upstream := (RoleCore (AuthConn (Buffered (ClientTransport UT)) SP.Ready) CH CC).
Abbreviation WD := (ServerConnectionInner DT * StartupMessage)%type.
Abbreviation WU := (AuthConn (Buffered (ClientTransport UT)) SP.Ready).
Abbreviation Relay := (IntermediaryConnection WD WU State SC CC SH CH B Policy K).
Abbreviation Error := (IntermediaryAcceptError (AcceptError ProviderError AuthError) ResolveError RouteError
  (ConnectError ConnectorError (ClientTlsError ClientProviderError) (ClientAuthenticationError PolicyError)) KE
  (CancelError (ConnectorError := ConnectorError)) BE).
Abbreviation Env := (MidEnv (World := World) (K := K)).
Abbreviation Step A := (M Env Error A).

(** *** The cancellation registry *)

(** From a store [k], the step ends in a store as [Φ] says, or, when it fails, in
    the store [k0]. *)
Definition stores {A} (k0 k : K) (m : Step A) (Φ : A -> K -> Prop) : Prop :=
  forall w, match m (mkMidEnv k w) with
            | (Some (Ok a), env) => Φ a (mid_registry env)
            | (Some (Err _), env) => mid_registry env = k0
            | _ => True
            end.

Lemma stores_bind {A C} k0 k (m : Step A) (f : A -> Step C) Φ Ψ :
  stores k0 k m Φ -> (forall a k', Φ a k' -> stores k0 k' (f a) Ψ) -> stores k0 k (bind m f) Ψ.
Proof.
  intros Hm Hf w. specialize (Hm w). unfold bind. destruct (m (mkMidEnv k w)) as [[[a|e|]|] [k' w']]; cbn in *; try done.
  apply (Hf a k' Hm).
Qed.
Lemma stores_pure {A} k0 k (m : Step A) (Φ : A -> K -> Prop) :
  (forall w, mid_registry (m (mkMidEnv k w)).2 = k) -> k0 = k -> (forall a, Φ a k) -> stores k0 k m Φ.
Proof.
  intros Hm -> HΦ w. specialize (Hm w). destruct (m (mkMidEnv k w)) as [[[a|e|]|] env]; cbn in *; subst; auto.
Qed.
Lemma stores_ret {A} k0 k (a : A) (Φ : A -> K -> Prop) : Φ a k -> stores k0 k (ret a) Φ.
Proof. intros ? w. done. Qed.
Lemma stores_raise {A} k (e : Error) (Φ : A -> K -> Prop) : stores k k (raise e) Φ.
Proof. intros w. done. Qed.
Lemma stores_result {A} k (r : result A Error) (Φ : A -> K -> Prop) : (forall a, Φ a k) -> stores k k (of_result r) Φ.
Proof. intros ? w. destruct r; cbn; auto. Qed.

Lemma stores_best_effort {A X} k0 k (r : option (io A) * X) (Φ : X -> K -> Prop) :
  (forall x, Φ x k) -> stores k0 k (best_effort r : Step X) Φ.
Proof. intros HΦ w. destruct r as [[[a|e|]|] x]; cbn; auto. Qed.

(** A pair whose key is registered over the store [k0], and its view of the store. *)
Definition registered (k0 : K) (r : Relay) : Prop :=
  hold_is_empty (backend_hold r) = true /\ hold_pending_message (backend_hold r) = None /\
  match client_cancel_key r with
  | Some key => exists route, registry_register route k0 = (Ok key, cancellation_registry r) /\
      route = mkRoute (target r) (upstream_key route) /\
      context_backend_key (core_context (upstream r)) = Some (upstream_key route) /\ mid_cancellation mid = Forward
  | None => cancellation_registry r = k0
  end.

Lemma registered_detached k0 r : registered k0 r -> cancellation_registry (detach_cancellation r).2 = k0.
Proof using Laws.
  intros (_ & _ & Hk). unfold detach_cancellation. destruct (client_cancel_key r) as [key|]; [|done].
  destruct Hk as (route & Hr & _). pose proof (registered_detach route k0 key _ Hr) as Hd.
  now destruct (registry_detach key (cancellation_registry r)).
Qed.

Lemma stores_fail_pair {A} k0 k r e (Φ : A -> K -> Prop) : registered k0 r -> stores k0 k (fail_pair r e : Step A) Φ.
Proof using Laws.
  intros Hr w. unfold fail_pair. pose proof (registered_detached k0 r Hr) as Hd. destruct Hr as (Hh & Hp & _).
  set (r' := (detach_cancellation r).2) in *. unfold teardown. destruct (_ && _); [|done]. cbn.
  assert (client_cancel_key r' = None) as Hn.
  { unfold r', detach_cancellation. destruct (client_cancel_key r) eqn:Hc; [|done]. now destruct (registry_detach _ _). }
  unfold detach_cancellation. now rewrite Hn.
Qed.

(** What a step over the pair leaves alone. *)
Lemma registered_downstream k0 r c : registered k0 r -> registered k0 (set_downstream c r).
Proof. done. Qed.
Lemma registered_state k0 r st : registered k0 r -> registered k0 (set_state st r).
Proof. done. Qed.
Lemma registered_boundary k0 r b : registered k0 r -> registered k0 (set_boundary b r).
Proof. done. Qed.
Lemma registered_upstream k0 r c : core_context c = core_context (upstream r) -> registered k0 r -> registered k0 (set_upstream c r).
Proof. intros Hc. unfold registered. cbn. now rewrite Hc. Qed.

Lemma stores_send_or_fail k0 k m r : registered k0 r -> stores k0 k (send_or_fail fuel m r : Step Relay) (fun r' _ => registered k0 r').
Proof using Laws.
  intros Hr. unfold send_or_fail, send_raw. destruct (server_send_wire_raw fuel m (server_core (downstream r))) as [[[[]|e|]|] c].
  - apply stores_ret. now apply registered_downstream.
  - apply stores_fail_pair. now apply registered_downstream.
  - now intros w.
  - now intros w.
Qed.

Lemma stores_relay_parameters k0 rounds : forall k r, registered k0 r ->
  stores k0 k (relay_parameters fuel rounds r : Step Relay) (fun r' _ => registered k0 r').
Proof using Laws.
  induction rounds as [|rounds IH]; intros k r Hr; cbn [relay_parameters]; [now intros w|].
  pose proof (registered_upstream k0 r (core_pop_parameter_status (upstream r)).2) as Hu.
  destruct (core_pop_parameter_status (upstream r)) as [[[m|]|e|] c] eqn:Ep; cbn in Hu; try (now intros w).
  all: assert (core_context c = core_context (upstream r)) as Hc
    by (unfold core_pop_parameter_status in Ep; destruct (transport _); [destruct (pop_parameter_status _)|]; simplify_eq; done).
  - eapply stores_bind; [apply stores_send_or_fail; now apply Hu|]. intros r' k' Hr'. now apply IH.
  - apply stores_ret. now apply Hu.
Qed.

Lemma stores_relay_key k0 k m r : registered k0 r -> stores k0 k (relay_backend_key fuel m r : Step Relay) (fun r' _ => registered k0 r').
Proof using Laws.
  intros Hr. unfold relay_backend_key, at_boundary_backend.
  destruct (boundary_message _ _ _ _ _) as [x [b st]]. set (r1 := set_state st (set_boundary b r)).
  assert (registered k0 r1) as Hr1 by done. destruct x as [[| | |]|e|]; try (now apply stores_fail_pair); [|now intros w].
  unfold intercept_generated. destruct (server_intercept _ _ _ _) as [m' [c st']].
  case_decide; [now apply stores_send_or_fail|now apply stores_fail_pair].
Qed.

Lemma stores_relay_ready k0 k r : registered k0 r -> stores k0 k (relay_ready fuel r : Step Relay) (fun r' _ => registered k0 r').
Proof using Laws.
  intros Hr. unfold relay_ready, intercept_generated. destruct (server_intercept _ _ _ _) as [m' [c st']].
  destruct m'; try (now apply stores_fail_pair). now apply stores_send_or_fail.
Qed.

(** Some key's route in the store, and the upstream cancellation to it. *)
Definition cancelled (k : K) : Prop :=
  mid_cancellation mid = Forward /\ exists key route w t w', registry_resolve key k = Some route /\
    cancel fuel (mid_client mid) (route_target route) (upstream_key route) w = (Some (Ok t), w').

(** What the caller has of the registry in the end. *)
Definition registry_left (k0 : K) (a : IntermediaryAccept Relay) (k : K) : Prop :=
  match a with
  | Mid_Session r => registered k0 r /\ k = cancellation_registry r
  | CancellationForwarded => k = k0 /\ cancelled k0
  end.

Lemma stores_report_core k (c : Downstream) (st : State) : stores k k (report_core_failure fuel mid c st : Step (Downstream * State)) (fun _ k' => k' = k).
Proof.
  unfold report_core_failure. destruct (mid_failure_policy mid); [now apply stores_ret|].
  destruct (server_intercept _ _ _ _) as [m [c' st']]. destruct m; try (now apply stores_ret).
  eapply stores_bind; [now apply (stores_best_effort _ _ _ (fun _ k' => k' = k))|]. intros c1 k' ->. now apply stores_ret.
Qed.
Lemma stores_report k (c : Downstream) (st : State) : stores k k (report_failure fuel mid c st : Step (Downstream * State)) (fun _ k' => k' = k).
Proof. unfold report_failure. destruct (mid_failure_policy mid); [now apply stores_ret|now apply stores_best_effort]. Qed.
Lemma stores_close_downstream k (c : Downstream) (st : State) : stores k k (close_downstream c st : Step unit) (fun _ k' => k' = k).
Proof. now apply stores_result. Qed.
Lemma stores_close_upstream k (c : Upstream) (st : State) : stores k k (close_upstream c st : Step unit) (fun _ k' => k' = k).
Proof. now apply stores_result. Qed.

Lemma stores_establish_pair k c u st selected :
  stores k k (establish_pair fuel mid c u st selected : Step (IntermediaryAccept Relay)) (registry_left k).
Proof using Laws.
  unfold establish_pair. cbv zeta. set (b := create_boundary _ _ _).
  eapply (stores_bind _ _ _ _ (fun '(key, _, _) k' => match key with
    | Some key => exists route, registry_register route k = (Ok key, k') /\ route = mkRoute selected (upstream_key route) /\
        context_backend_key (core_context u) = Some (upstream_key route) /\ mid_cancellation mid = Forward
    | None => k' = k end)).
  { unfold register_cancellation. destruct (mid_cancellation mid) eqn:Hp; [now apply stores_ret|].
    destruct (context_backend_key (core_context u)) as [key|] eqn:Hk; [|now apply stores_ret].
    eapply (stores_bind _ _ _ _ (fun x k' => registry_register (mkRoute selected key) k = (x, k') /\ x <> Panic)).
    { intros w. cbn. destruct (registry_register (mkRoute selected key) k) as [[x|x|] k'] eqn:Er; cbn; auto. }
    intros [x|x|] k' [Hr Hx]; [|apply refused_store in Hr as ->|done].
    - apply stores_ret. now exists (mkRoute selected key).
    - eapply stores_bind; [apply stores_report_core|]. intros [c' st'] k' ->.
      eapply stores_bind; [apply stores_close_downstream|]. intros [] k' ->.
      eapply stores_bind; [apply stores_close_upstream|]. intros [] k' ->. apply stores_raise. }
  intros [[key c'] st'] k' Hk.
  eapply (stores_bind _ _ _ _ (fun r _ => registered k r /\ client_cancel_key r = key)).
  { intros w. cbn. split; [|done]. split; [done|]. split; [done|]. cbn. destruct key; [exact Hk|done]. }
  intros r k1 [Hr Hkey].
  eapply stores_bind; [now apply stores_relay_parameters|]. intros r1 k2 Hr1.
  eapply stores_bind; [destruct key; [now apply stores_relay_key|now apply (stores_ret _ _ _ (fun r' _ => registered k r'))]|]. intros r2 k3 Hr2.
  eapply stores_bind; [now apply stores_relay_ready|]. intros r3 k4 Hr3. intros w. cbn. done.
Qed.

Lemma stores_route_session k c st selected :
  stores k k (route_session fuel mid c st selected : Step (IntermediaryAccept Relay)) (registry_left k).
Proof using Laws.
  unfold route_session. destruct (from_wire _) as [startup|e|]; [| |now intros w].
  2:{ eapply stores_bind; [apply stores_report|]. intros [c' st'] k' ->.
      eapply stores_bind; [apply stores_close_downstream|]. intros [] k' ->. apply stores_raise. }
  eapply (stores_bind _ _ _ _ (fun _ k' => k' = k)); [now apply stores_result|]. intros evidence k' ->.
  destruct selected as [selected|].
  2:{ eapply stores_bind; [apply stores_close_downstream|]. intros [] k' ->. apply stores_raise. }
  eapply (stores_bind _ _ _ _ (fun _ k' => k' = k)).
  { apply stores_pure; try done. intros w. unfold outcome, with_world. cbn.
    destruct (authenticated_route _ _ _ _) as [[] w']; done. }
  intros [target_|e|] k' ->; [| |now intros w].
  2:{ eapply stores_bind; [apply stores_report|]. intros [c' st'] k' ->.
      eapply stores_bind; [apply stores_close_downstream|]. intros [] k' ->. apply stores_raise. }
  eapply (stores_bind _ _ _ _ (fun _ k' => k' = k)).
  { apply stores_pure; try done. intros w. cbn. now destruct (connect_core _ _ _ _ _ _) as [[[]|] []]. }
  intros [[u|e|] st'] k' ->; [apply stores_establish_pair| |now intros w].
  eapply stores_bind; [apply stores_report_core|]. intros [c' st''] k' ->.
  eapply stores_bind; [apply stores_close_downstream|]. intros [] k' ->. apply stores_raise.
Qed.

Lemma stores_forward_cancellation k cancellation :
  stores k k (forward_cancellation fuel mid cancellation : Step (IntermediaryAccept Relay)) (registry_left k).
Proof.
  unfold forward_cancellation. case_decide as Hp; [apply stores_raise|]. cbv zeta.
  eapply (stores_bind _ _ _ _ (fun route k' => k' = k /\ exists key, route = registry_resolve key k)); [intros w; cbn; eauto|].
  intros [route|] k' [-> (key & Hkey)]; [|apply stores_raise].
  eapply (stores_bind _ _ _ _ (fun _ k' => k' = k /\ cancelled k)); [|intros a k' [-> Hc]; now apply stores_ret].
  intros w. unfold wrap_error. cbn. destruct (cancel _ _ _ _ _) as [[[t|e|]|] w'] eqn:Ec; cbn; try done. split; [done|].
  split; [now destruct (mid_cancellation mid)|]. now exists key, route, w, t, w'.
Qed.

(** C6: The cancellation registry over one establishment, whatever the peers,
    the middleware, the policies and the callbacks do. A session with a client key
    left exactly its route in the store: the key resolves to the session's target
    and the upstream's key, and detaching it restores the store from before. A
    session without a key, a forwarded cancellation and every failure, those after
    the registration included, leave the store as it was; a cancellation is
    forwarded only along a route of the store, and when the policy forwards. *)
Theorem establishment_registry_exact (t : DT) peer st k w r env :
  intermediary_accept fuel mid t peer st (mkMidEnv k w) = (Some r, env) ->
  match r with
  | Ok (Mid_Session relay) =>
      mid_registry env = cancellation_registry (relay : Relay) /\
      match client_cancel_key relay with
      | Some key =>
          mid_cancellation mid = Forward /\
          (exists upstream_, context_backend_key (core_context (upstream relay)) = Some upstream_ /\
             registry_resolve key (mid_registry env) = Some (mkRoute (target relay) upstream_)) /\
          (registry_detach key (mid_registry env)).2 = k
      | None => mid_registry env = k
      end
  | Ok CancellationForwarded => mid_registry env = k /\ cancelled k
  | Err _ => mid_registry env = k
  | Panic => True
  end.
Proof using Laws.
  assert (stores k k (intermediary_accept fuel mid t peer st : Step (IntermediaryAccept Relay)) (registry_left k)) as Hs.
  { unfold intermediary_accept. eapply (stores_bind _ _ _ _ (fun _ k' => k' = k)).
    { apply stores_pure; try done. intros w'. cbn. now destruct (accept_routed _ _ _ _ _ _ _) as [? []]. }
    intros [[c st'|cancellation] selected] k' ->; [apply stores_route_session|apply stores_forward_cancellation]. }
  intros E. specialize (Hs w). rewrite E in Hs. destruct r as [[relay|]|e|]; try done.
  destruct Hs as [(_ & _ & Hk) Heq]. split; [done|]. destruct (client_cancel_key relay) as [key|]; [|now rewrite Heq].
  destruct Hk as (route & Hreg & Hroute & Hu & Hp). rewrite Heq. split; [done|]. split.
  - exists (upstream_key route). split; [done|]. rewrite <- Hroute. now apply (registered_route route k).
  - now apply (registered_detach route).
Qed.
End Accept.

(** ** Both roles are what their policies demand *)

(** *** The client-facing connection while establishment goes on *)

Section Downstream.
Context {T H State Resolver Route RouteError World Peer Identity Policy AuthError Tls Provider ProviderError Authentication Factory : Type}.
Context `{Profile : BuildProfile} `{TlsLibrary} `{Certificates} `{AsyncIo T}.
Context `{!ServerMiddleware H State (ServerConnectionContext Peer Identity)}.
Context `{Auth : !ServerAuthentication Policy Peer Identity AuthError World}.
Context `{!ServerAuthenticationProvider Authentication Policy World}.
Context `{!ServerTlsConfiguration Tls Provider} `{!ServerIdentityProvider Provider ProviderError World}.
Context `{!StreamTotal T} `{!StreamTotal (ServerStream T)}.
Context (fuel : nat) (server : Server Tls Authentication Factory).
Abbreviation Core := (ServerConnectionCore T H (ServerConnectionContext Peer Identity)).

Definition conn_live {I} {Ph : Type} {P : Ph} (c : Conn (Buffered I) P Pristine) : Prop := exists b, transport c = Some b.
Definition live (c : Core) : Prop :=
  match server_conn c with Inner_Plaintext c => conn_live c | Inner_Tls c => conn_live c end.

Lemma accepted_live peer (c : Core) : session_accepted server peer c -> live c.
Proof.
  unfold session_accepted, live. destruct (server_conn c).
  - intros (_ & (b & Hb & _) & _). now exists b.
  - intros (ep & _ & (b & Hb & _) & _). now exists b.
Qed.

(** One send on a drained connection. *)
Lemma send_conn {I} `{AsyncIo I} (Q : I -> Prop) `{!StreamStable Q} `{!StreamTotal I} {Ph : Type} {P : Ph}
    frame (c : Conn (Buffered I) P Pristine) : drained Q c ->
  let r := push_frame frame c in
  r.1 <> Some Panic /\ conn_live r.2 /\
  let r' := conn_flush fuel r.2 in r'.1 <> Some Panic /\ conn_live r'.2 /\ (r'.1 = Some (Ok tt) -> drained Q r'.2).
Proof.
  intros (b & Hb & Hq & _) r. assert (holds Q (fun _ => True) c) as Hc by now exists b.
  destruct (keeps_push Q frame (fun _ => True) c Hc) as [Hc1 Hp]. fold r in Hc1, Hp. split; [done|].
  destruct (keeps_flush Q fuel (fun _ => True) r.2 Hc1) as [Hc2 Hp2].
  pose proof Hc1 as (b1 & Hb1 & _). pose proof Hc2 as (b2 & Hb2 & Hq2 & _).
  split; [now exists b1|]. split; [done|]. split; [now exists b2|].
  unfold conn_flush, on_transport in *. rewrite Hb1 in *. destruct (flush fuel b1) as [x b'] eqn:Ef. cbn in *.
  intros ->. injection Hb2 as ->. exists b2. split; [done|]. split; [done|]. now apply (flush_drains fuel b1).
Qed.

Lemma accepted_send peer m (c : Core) : session_accepted server peer c ->
  let r := server_send_wire_raw fuel m c in
  r.1 <> Some Panic /\ live r.2 /\ (r.1 = Some (Ok tt) -> session_accepted server peer r.2).
Proof using StreamTotal0 StreamTotal1.
  intros Hc r. pose proof (accepted_live peer c Hc) as Hl. subst r. unfold server_send_wire_raw.
  pose proof (BackendMessage_to_frame_no_panic m). destruct (BackendMessage_to_frame m) as [frame|e|]; [|done..].
  destruct c as [inner message h context]. unfold session_accepted, live, on_inner, set_server_conn in *. cbn in *.
  destruct inner as [c|c].
  - destruct Hc as (Ht & Hd & Ha). destruct (send_conn (fun _ => True) frame c Hd) as (Hp & Hv & Hp2 & Hv2 & Hd2).
    destruct (push_frame frame c) as [[[[]|e|]|] c1]; cbn in *; try done.
    destruct (conn_flush fuel c1) as [x c2]; cbn in *. split; [done|]. split; [done|]. intros Hx. now specialize (Hd2 Hx).
  - destruct Hc as (ep & Ht & Hd & Ha).
    destruct (send_conn (bound_to ep) frame c Hd) as (Hp & Hv & Hp2 & Hv2 & Hd2).
    destruct (push_frame frame c) as [[[[]|e|]|] c1]; cbn in *; try done.
    destruct (conn_flush fuel c1) as [x c2]; cbn in *. split; [done|]. split; [done|]. intros Hx. exists ep. now specialize (Hd2 Hx).
Qed.

Lemma accepted_intercept {Msg} peer (on : hook H (ServerConnectionContext Peer Identity) State Msg) st m (c : Core) :
  session_accepted server peer c -> session_accepted server peer (server_intercept on st m c).2.1.
Proof. unfold server_intercept. now destruct (on _ _ _ _) as [? []]. Qed.

(** Sends keep who and what the connection is. *)
Definition same_session (c c' : Core) : Prop :=
  server_startup_message c' = server_startup_message c /\ server_context c' = server_context c.

Lemma send_same m (c : Core) : same_session c (server_send_wire_raw fuel m c).2.
Proof.
  unfold server_send_wire_raw. destruct (BackendMessage_to_frame m); try done. unfold on_inner.
  destruct (server_conn c) as [conn|conn] eqn:Ec; destruct (push_frame _ conn) as [[[[]|e|]|] conn']; cbn; try done;
    destruct (conn_flush fuel conn'); done.
Qed.
Lemma intercept_same {Msg} (on : hook H (ServerConnectionContext Peer Identity) State Msg) st m (c : Core) :
  same_session c (server_intercept on st m c).2.1.
Proof. unfold server_intercept. now destruct (on _ _ _ _) as [? []]. Qed.
End Downstream.

(** *** Establishment *)

Section Secure.
Context {DT UT State Peer World ProviderError AuthError Identity Evidence Session PolicyError ConnectorError : Type}.
Context {SH CH B BE K KE RouteError ResolveError ServerTls_ Provider ClientTls_ ClientProvider ClientProviderError : Type}.
Context {ServerAuth ServerPolicy ClientAuth ServerFactory ClientFactory Resolver Route Policy Boundary : Type}.
Abbreviation SC := (ServerConnectionContext Peer Identity).
Abbreviation CC := (ClientConnectionContext Evidence).
Context `{Profile : BuildProfile} `{TlsLibraryLaws} `{Certificates} `{AsyncIo DT} `{AsyncIo UT} `{!AsyncShutdown UT}.
Context `{!ServerMiddleware SH State SC} `{!MiddlewareFactory ServerFactory SC SH}.
Context `{Auth : !ServerAuthentication ServerPolicy Peer Identity AuthError World} `{Total : !ServerPolicyTotal Auth}.
Context `{!ServerAuthenticationProvider ServerAuth ServerPolicy World}.
Context `{!ServerTlsConfiguration ServerTls_ Provider} `{!ServerIdentityProvider Provider ProviderError World}.
Context `{!ClientMiddleware CH State CC} `{!MiddlewareFactory ClientFactory ClientInitialContext CH}.
Context `{!ClientAuthentication ClientAuth Session PolicyError World}.
Context `{Evid : !ClientAuthenticationSession Session Evidence PolicyError World} `{ETotal : !PolicyTotal Evid}.
Context `{!ClientTlsConfiguration ClientTls_ ClientProvider} `{!ClientTlsProvider ClientProvider ClientProviderError World}.
Context `{!StartupRouteResolver Resolver Peer ResolveError World} `{!AuthenticatedRoutePolicy Route Peer Identity RouteError World}.
Context `{!IntermediaryMiddlewareFactory Boundary SC CC B} `{!BoundaryBackend B State SC CC BE}.
Context `{Registry : !IntermediaryCancellationRegistry K KE}.
Context `{!StreamTotal DT} `{!StreamTotal (ServerStream DT)} `{!StreamTotal UT} `{!StreamTotal (ClientStream UT)}.
Context (fuel : nat).
Context (mid : Intermediary (Server ServerTls_ ServerAuth ServerFactory)
  (Client (Connector UT ConnectorError World) ClientTls_ ClientAuth ClientFactory) Resolver Route Policy Boundary).

Abbreviation Downstream := (ServerConnectionCore DT SH SC).
Abbreviation Upstream := (RoleCore (AuthConn (Buffered (ClientTransport UT)) SP.Ready) CH CC).
Abbreviation WD := (ServerConnectionInner DT * StartupMessage)%type.
Abbreviation WU := (AuthConn (Buffered (ClientTransport UT)) SP.Ready).
Abbreviation Relay := (IntermediaryConnection WD WU State SC CC SH CH B Policy K).
Abbreviation Error := (IntermediaryAcceptError (AcceptError ProviderError AuthError) ResolveError RouteError
  (ConnectError ConnectorError (ClientTlsError ClientProviderError) (ClientAuthenticationError PolicyError)) KE
  (CancelError (ConnectorError := ConnectorError)) BE).
Abbreviation Env := (MidEnv (World := World) (K := K)).
Abbreviation Step A := (M Env Error A).

(** None of the application's callbacks panics. *)
Definition mid_callbacks_total : Prop :=
  server_callbacks_total (T := DT) (State := State) (Peer := Peer) (Identity := Identity) (Resolver := StartupResolverAdapter Resolver)
    (mid_server mid) /\
  callbacks_total (mid_client mid) /\
  (forall target context w, (authenticated_route (mid_route mid) target context w).1 <> Panic) /\
  (forall b (sc : SC) (cc : CC) (st : State) m, (boundary_message b sc cc st m).1 <> Panic) /\
  (mid_cancellation mid = Forward -> forall route k, (registry_register route k).1 <> Panic) /\
  (forall s : UT, (poll_shutdown s).1 <> Ready Panic).

(** A session's destination: selected by the resolver from its startup message,
    and confirmed by the route policy for the identity that was admitted. *)
Definition routed (core : Downstream) (destination : ConnectTarget) : Prop :=
  exists selected identity w,
    resolved (State := State) (Resolver := StartupResolverAdapter Resolver) core selected /\
    server_identity (server_context core) = Some identity /\
    (authenticated_route (mid_route mid) selected (mkRouteContext (server_peer (server_context core)) identity) w).1 = Ok destination.

Lemma routed_same c c' destination : same_session c c' -> routed c destination -> routed c' destination.
Proof. unfold routed, resolved. intros [-> ->]. done. Qed.

Definition secured (peer : Peer) (r : Relay) : Prop :=
  session_accepted (mid_server mid) peer (server_core (downstream r)) /\ routed (server_core (downstream r)) (target r) /\
  connected_core (mid_client mid) (target r) (upstream r) /\ backend_hold r = BackendHold_default.

Lemma safe_fail_pair {A} (r : Relay) e (Φ : A -> Prop) : backend_hold r = BackendHold_default -> safe (fail_pair r e : Step A) Φ.
Proof.
  intros Hh env. unfold fail_pair, teardown.
  assert (backend_hold (detach_cancellation r).2 = BackendHold_default) as ->.
  { unfold detach_cancellation. destruct (client_cancel_key r); [|done]. now destruct (registry_detach _ _). }
  done.
Qed.

Lemma safe_send_or_fail peer m r : secured peer r -> safe (send_or_fail fuel m r : Step Relay) (secured peer).
Proof using StreamTotal0 StreamTotal1.
  intros (Hd & Hr & Hu & Hh). unfold send_or_fail, send_raw.
  pose proof (accepted_send fuel (mid_server mid) peer m _ Hd) as (Hp & Hl & Hok).
  pose proof (send_same fuel m (server_core (downstream r))) as Hs.
  destruct (server_send_wire_raw fuel m (server_core (downstream r))) as [[[[]|e|]|] c]; cbn in *.
  - apply safe_ret. split; [now destruct c; apply Hok|]. split; [|done]. apply (routed_same (server_core (downstream r))); [|done].
    now destruct c.
  - now apply safe_fail_pair.
  - done.
  - apply safe_unfinished.
Qed.

Lemma pop_connected destination (u : Upstream) : connected_core (mid_client mid) destination u ->
  match core_pop_parameter_status u with
  | (Ok _, u') => connected_core (mid_client mid) destination u'
  | _ => False
  end.
Proof.
  intros (b & identity & Hb & Hp & Hc & Hs & He). unfold core_pop_parameter_status. rewrite Hb.
  unfold pop_parameter_status. destruct (pop_front _) as [x q]. exists (set_demux (mkDemux (command (demux b)) (pending_notices (demux b))
    (notices (demux b)) (notifications (demux b)) q (async_events (demux b)) (next_async_sequence (demux b)) (parameters (demux b))
    (startup_parameters (demux b)) (parameters_changed (demux b)) (cancel_key (demux b)) (transaction_status (demux b))) b), identity. done.
Qed.

Lemma safe_relay_parameters peer rounds : forall r, secured peer r ->
  safe (relay_parameters fuel rounds r : Step Relay) (secured peer).
Proof using StreamTotal0 StreamTotal1.
  induction rounds as [|rounds IH]; intros r Hr; cbn [relay_parameters]; [apply safe_unfinished|].
  destruct Hr as (Hd & Hr & Hu & Hh). pose proof (pop_connected _ _ Hu) as Hu'.
  destruct (core_pop_parameter_status (upstream r)) as [[x|e|] u]; [|done..].
  assert (secured peer (set_upstream u r)) as Hs by (split; [exact Hd|]; split; [exact Hr|]; split; [exact Hu'|exact Hh]).
  destruct x as [m|].
  - eapply safe_bind; [apply (safe_send_or_fail peer), Hs|]. intros r' Hr'. now apply IH.
  - now apply safe_ret.
Qed.

Lemma intercept_secured peer m r : secured peer r -> secured peer (intercept_generated m r).2.
Proof.
  intros (Hd & Hr & Hu & Hh). unfold intercept_generated.
  pose proof (accepted_intercept (mid_server mid) peer server_backend (relay_state r) m _ Hd) as Hd'.
  pose proof (intercept_same server_backend (relay_state r) m (server_core (downstream r))) as Hs.
  destruct (server_intercept _ _ _ _) as [m' [c st]]. cbn in *. split; [now destruct c|]. split; [|done].
  apply (routed_same (server_core (downstream r))); [|done]. now destruct c.
Qed.

Lemma safe_relay_key peer m r : mid_callbacks_total -> secured peer r -> safe (relay_backend_key fuel m r : Step Relay) (secured peer).
Proof using StreamTotal0 StreamTotal1.
  intros (_ & _ & _ & Hb & _) Hr. unfold relay_backend_key, at_boundary_backend.
  pose proof (Hb (boundary r) (core_context (downstream r)) (core_context (upstream r)) (relay_state r) m) as Hp.
  destruct (boundary_message _ _ _ _ _) as [x [b st]]. cbn in Hp. set (r1 := set_state st (set_boundary b r)).
  assert (secured peer r1) as Hr1 by done. destruct x as [[m1| | |]|e|]; try (now apply safe_fail_pair, Hr1); [|done].
  pose proof (intercept_secured peer m1 r1 Hr1) as Hr2. destruct (intercept_generated m1 r1) as [m2 r2]. cbn in Hr2.
  case_decide; [now apply safe_send_or_fail|now apply safe_fail_pair, Hr2].
Qed.

Lemma safe_relay_ready peer r : secured peer r -> safe (relay_ready fuel r : Step Relay) (secured peer).
Proof using StreamTotal0 StreamTotal1.
  intros Hr. unfold relay_ready. pose proof (intercept_secured peer (B_ReadyForQuery Idle) r Hr) as Hr2.
  destruct (intercept_generated _ r) as [m2 r2]. cbn in Hr2.
  destruct m2; try (now apply safe_fail_pair, Hr2). now apply safe_send_or_fail.
Qed.

Lemma safe_best_effort {A X} (r : option (io A) * X) (Φ : X -> Prop) : r.1 <> Some Panic -> Φ r.2 ->
  safe (best_effort r : Step X) Φ.
Proof. intros Hp HΦ env. now destruct r as [[[a|e|]|] x]. Qed.

Lemma safe_close_downstream (c : Downstream) (st : State) : live c -> safe (close_downstream c st : Step unit) (fun _ => True).
Proof.
  intros Hl. apply safe_result; [|done]. unfold server_teardown, live, into_transport in *.
  destruct (server_conn c); destruct Hl as (b & ->); done.
Qed.

Lemma safe_report_core peer (c : Downstream) (st : State) : session_accepted (mid_server mid) peer c ->
  safe (report_core_failure fuel mid c st : Step (Downstream * State)) (fun '(c, _) => live c).
Proof using StreamTotal0 StreamTotal1.
  intros Hc. unfold report_core_failure. destruct (mid_failure_policy mid); [apply safe_ret, (accepted_live _ _ _ Hc)|].
  pose proof (accepted_intercept (mid_server mid) peer server_backend st safe_establishment_diagnostic c Hc) as Hc1.
  destruct (server_intercept _ _ _ _) as [m [c1 st1]]. cbn in Hc1.
  pose proof (accepted_send fuel (mid_server mid) peer m c1 Hc1) as (Hp & Hl & _). pose proof (accepted_live _ _ _ Hc1).
  destruct m; try (now apply safe_ret). eapply safe_bind; [now apply (safe_best_effort _ live)|]. intros c2 Hc2. now apply safe_ret.
Qed.

Lemma safe_report peer (c : Downstream) (st : State) : session_accepted (mid_server mid) peer c ->
  safe (report_failure fuel mid c st : Step (Downstream * State)) (fun '(c, _) => live c).
Proof using StreamTotal0 StreamTotal1.
  intros Hc. unfold report_failure. destruct (mid_failure_policy mid); [apply safe_ret, (accepted_live _ _ _ Hc)|].
  unfold send_generated_error.
  pose proof (accepted_intercept (mid_server mid) peer server_backend st safe_establishment_diagnostic c Hc) as Hc1.
  destruct (server_intercept _ _ _ _) as [m [c1 st1]]. cbn in Hc1. pose proof (accepted_live _ _ _ Hc1).
  destruct m; try (now apply safe_best_effort). match goal with |- context [server_send_wire_raw _ ?m c1] =>
    pose proof (accepted_send fuel (mid_server mid) peer m c1 Hc1) as (Hp & Hl & _); destruct (server_send_wire_raw fuel m c1) end.
  now apply safe_best_effort.
Qed.

(** Reporting, closing and failing. *)
Lemma safe_give_up {A} (report : Step (Downstream * State)) e (Φ : A -> Prop) : safe report (fun '(c, _) => live c) ->
  safe (do (c, st) <- report; close_downstream c st;; raise e : Step A) Φ.
Proof.
  intros Hr. eapply safe_bind; [exact Hr|]. intros [c st] Hc.
  eapply safe_bind; [now apply safe_close_downstream|]. intros _ _. apply safe_raise.
Qed.

Lemma safe_establish_pair peer c u st destination : mid_callbacks_total -> session_accepted (mid_server mid) peer c ->
  routed c destination -> connected_core (mid_client mid) destination u ->
  safe (establish_pair fuel mid c u st destination : Step (IntermediaryAccept Relay))
    (fun a => match a with Mid_Session r => secured peer r | CancellationForwarded => False end).
Proof using StreamTotal0 StreamTotal1.
  intros Hcb Hc Hr Hu. unfold establish_pair. cbv zeta.
  eapply (safe_bind _ _ (fun '(_, c', _) => c' = c)).
  { unfold register_cancellation. destruct (mid_cancellation mid) eqn:Hp; [now apply safe_ret|].
    destruct (context_backend_key (core_context u)) as [key|]; [|now apply safe_ret].
    destruct Hcb as (_ & _ & _ & _ & Hreg & _). specialize (Hreg Hp (mkRoute destination key)).
    eapply (safe_bind _ _ (fun x => x <> Panic)).
    { intros env. specialize (Hreg (mid_registry env)). now destruct (registry_register _ _) as [[x|x|] k]. }
    intros [x|x|] Hx; [now apply safe_ret| |done].
    eapply safe_bind; [apply (safe_report_core peer), Hc|]. intros [c' st'] Hl.
    eapply safe_bind; [now apply safe_close_downstream|]. intros _ _.
    eapply (safe_bind _ _ (fun _ => True)); [|intros _ _; apply safe_raise]. apply safe_result; [|done].
    destruct Hu as (b & _ & Hb & _). unfold client_into_parts, into_transport. now rewrite Hb. }
  intros [[key c'] st'] ->. eapply (safe_bind _ _ (secured peer)).
  { intros env. cbn. split; [now destruct c|]. split; [|done]. now destruct c. }
  intros r Hsec. eapply safe_bind; [apply (safe_relay_parameters peer), Hsec|]. intros r1 Hr1.
  eapply (safe_bind _ _ (secured peer)); [destruct key; [now apply safe_relay_key|now apply safe_ret]|]. intros r2 Hr2.
  eapply safe_bind; [apply (safe_relay_ready peer), Hr2|]. intros r3 Hr3 env. exact Hr3.
Qed.

Lemma from_wire_no_panic m : from_wire m <> Panic.
Proof.
  unfold from_wire. generalize StartupParameters_default. induction (Startup.parameters m) as [|[name value] l IH]; intros p; [done|].
  cbn [wire_parameters]. unfold wire_parameter. destruct (negb _); [done|]. destruct (negb _); [done|]. apply IH.
Qed.

Lemma safe_route_session peer c st selected : mid_callbacks_total -> session_accepted (mid_server mid) peer c ->
  resolved (State := State) (Resolver := StartupResolverAdapter Resolver) c selected ->
  safe (route_session fuel mid c st (Some selected) : Step (IntermediaryAccept Relay))
    (fun a => match a with Mid_Session r => secured peer r | CancellationForwarded => False end).
Proof using All.
  intros Hcb Hc Hres. pose proof Hcb as (_ & Hclient & Hroute & _). unfold route_session.
  pose proof (from_wire_no_panic (server_startup_message c)). destruct (from_wire _) as [startup|e|]; [| |done].
  2:{ apply safe_give_up, (safe_report peer), Hc. }
  assert (exists evidence, server_context c = mkServerContext peer (server_tls (server_context c)) (Some evidence)) as (evidence & Hid).
  { unfold session_accepted in Hc. destruct (server_conn c); [destruct Hc as (_ & _ & evidence & -> & _)|
      destruct Hc as (ep & _ & _ & evidence & -> & _)]; now exists evidence. }
  eapply (safe_bind _ _ (eq evidence)); [rewrite Hid; now apply safe_ret|]. intros ? <-.
  eapply (safe_bind _ _ (fun x => x <> Panic /\ forall destination, x = Ok destination -> routed c destination)).
  { intros env. unfold outcome, with_world. set (context := mkRouteContext _ evidence).
    specialize (Hroute selected context (mid_world env)).
    destruct (authenticated_route (mid_route mid) selected context (mid_world env)) as [[d|e|] w] eqn:Ea; cbn in *; try done.
    split; [done|]. intros ? [= <-]. exists selected, evidence, (mid_world env). split; [done|]. split; [now rewrite Hid|].
    fold context. now rewrite Ea. }
  intros [destination|e|] [Hx Hd]; [|apply safe_give_up, (safe_report peer), Hc|done].
  eapply (safe_bind _ _ (fun '(x, _) => match x with Ok u => connected_core (mid_client mid) destination u | Err _ => True | Panic => False end)).
  { intros env. unfold connect_core. set (cenv := mkEnv _ st (mid_world env)).
    pose proof (safe_connect fuel (mid_client mid) destination startup Hclient cenv) as Hs.
    destruct (connect_steps fuel (mid_client mid) destination startup cenv) as [[[u|e|]|] env']; cbn in *; done. }
  intros [[u|e|] st'] Hu; [|apply safe_give_up, (safe_report_core peer), Hc|done].
  apply safe_establish_pair; auto.
Qed.

Lemma safe_forward_cancellation (cancellation : ServerCancellation DT SH State Peer) : mid_callbacks_total ->
  safe (forward_cancellation fuel mid cancellation : Step (IntermediaryAccept Relay))
    (fun a => match a with Mid_Session r => False | CancellationForwarded => True end).
Proof using StreamTotal2.
  intros (_ & (Hconn & _) & _ & _ & _ & Hshut). unfold forward_cancellation. case_decide; [apply safe_raise|]. cbv zeta.
  eapply (safe_bind _ _ (fun _ => True)); [done|]. intros [route|] _; [|apply safe_raise].
  eapply (safe_bind _ _ (fun _ => True)); [|intros _ _; now apply safe_ret]. apply safe_wrap. intros env.
  assert (safe (cancel fuel (mid_client mid) (route_target route) (upstream_key route)) (fun _ => True)) as Hs.
  { unfold cancel. eapply (safe_bind _ _ (fun _ => True)).
    { intros w. specialize (Hconn (route_target route) w). now destruct (client_connector _ _ w) as [[]]. }
    intros t _. eapply (safe_bind _ _ (fun _ => True)).
    { apply safe_wrap, safe_result; [|done]. cbn. unfold cancel_packet. destruct (negb _); [done|]. now destruct (_ <? _). }
    intros packet _. eapply safe_bind; [apply (safe_stream (fun _ => True)); [done|now apply (write_all_moves (fun _ => True))]|].
    intros [[] t1] _. eapply safe_bind.
    { apply (safe_stream (fun _ => True)); [done|]. apply (await_poll_moves (fun _ => True)); [done|apply Hshut|done]. }
    intros [[] t2] _. now apply safe_ret. }
  specialize (Hs (mid_world env)). destruct (cancel _ _ _ _ _) as [[[]|] w]; exact Hs.
Qed.

(** C3: An intermediary session exists only between roles that are both what
    their policies demand: the client-facing side accepted under the server role's
    TLS and authentication policies, with everything that was generated for it
    written, the PostgreSQL-facing side connected under the client role's, to the
    destination that the startup resolver selected from the client's startup message and the route
    policy confirmed for the client's authenticated identity. In builds without
    debug assertions establishment never panics. *)
Theorem intermediary_session_secured (t : DT) peer st env r env' : mid_callbacks_total ->
  intermediary_accept fuel mid t peer st env = (Some r, env') ->
  match r with
  | Ok (Mid_Session relay) =>
      session_accepted (mid_server mid) peer (server_core (downstream (relay : Relay))) /\
      routed (server_core (downstream relay)) (target relay) /\ connected_core (mid_client mid) (target relay) (upstream relay)
  | Ok CancellationForwarded | Err _ => True
  | Panic => debug_assertions = true
  end.
Proof using All.
  intros Hcb E.
  assert (safe (intermediary_accept fuel mid t peer st : Step (IntermediaryAccept Relay))
    (fun a => match a with Mid_Session r => secured peer r | CancellationForwarded => True end)) as Hs.
  { unfold intermediary_accept.
    eapply (safe_bind _ _ (accepted (State := State) (Resolver := StartupResolverAdapter Resolver) (mid_server mid) peer)).
    { intros env0. unfold accept_routed. set (senv := mkServerEnv _ st _ _).
      pose proof (safe_accepting fuel (mid_server mid) t peer (proj1 Hcb) senv) as Ha.
      destruct (bind _ _ senv) as [[[a|e|]|] senv']; cbn in *; done. }
    intros [[c st'|cancellation] [selected|]] Ha; try done.
    - destruct Ha as [Ha Hres]. eapply safe_weaken; [now apply (safe_route_session peer)|]. now intros [].
    - eapply safe_weaken; [now apply safe_forward_cancellation|]. now intros []. }
  specialize (Hs env). rewrite E in Hs. destruct r as [[relay|]|e|]; try done. destruct Hs as (? & ? & ? & _). done.
Qed.
End Secure.

(** An intermediary over plaintext whose client answers an MD5 challenge, with
    cancellation forwarding. *)
Module MidModel.
Import TlsModel.

#[export] Instance script_shutdown : AsyncShutdown Script := fun s => (Ready (Ok tt), s).
#[export] Instance resolver : StartupRouteResolver unit unit Empty_set World := fun _ _ _ w => (Ok (ConnectTarget_new (str "primary")), w).

(** A boundary that drops what establishment generates, or forwards it. *)
Inductive Gate : Type := Open_ | Shut.
#[export] Instance gate {State SC CC} : BoundaryBackend Gate State SC CC Empty_set :=
  fun b _ _ st m => (Ok match b with Open_ => BM_Forward m | Shut => BM_Suppress m end, (b, st)).
#[export] Instance gates {SC CC} : IntermediaryMiddlewareFactory Gate SC CC Gate := fun b _ _ => b.

Definition visitor : Script := AcceptModel.conversation_plain AcceptModel.response.
Definition database : Script :=
  mkScript [Ready ["R"%byte; x00; x00; x00; x08; x00; x00; x00; x00];
            Ready (["S"%byte; x00; x00; x00; x08; "t"%byte; x00; "z"%byte; x00] ++ ["K"%byte; x00; x00; x00; x0c; x00; x00; x00; x07] ++ str "keys");
            Ready ["Z"%byte; x00; x00; x00; x05; "I"%byte]] [] [] [].
Definition server : Server DisabledServerTls StaticMd5ServerCredentials IdentityServerHandler :=
  mkServer mkDisabledServerTls (mkMd5Credentials (str "app") (str "secret")) ServerProtocolLimits_default mkIdentityServerHandler.
Definition client : Client (Connector Script Empty_set World) ClientTlsPolicy TrustClientAuthentication IdentityHandler :=
  mkClient (fun _ w => (Ok database, w)) ClientTls_Disabled mkTrustClient StartupParameters_default ProtocolLimits_default mkIdentityHandler.
Definition proxy (gate : Gate) :=
  mkIntermediary server client tt mkAllowRoute (mkNoPipeline) gate Forward SafeDiagnostic None.
Definition empty_registry : InMemoryCancellationRegistry := mkRegistry ∅ false.
Abbreviation run gate := (intermediary_accept (State := unit) (Peer := unit) 30 (proxy gate) visitor tt tt (mkMidEnv empty_registry AcceptModel.salt)).

Lemma proxy_total gate : mid_callbacks_total (DT := Script) (State := unit) (Peer := unit) (Identity := unit) (Evidence := unit) (B := Gate)
  (K := InMemoryCancellationRegistry) (proxy gate).
Proof.
  split; [|split].
  - split; [|split; [discriminate|intros; apply tls_accept_total]]. intros message context [[]] st w Htls. cbn.
    pose proof (from_wire_no_panic message). destruct (from_wire message); [|discriminate|done]. now destruct (server_tls context).
  - split; [discriminate|]. split; [discriminate|]. split; [discriminate|]. intros. apply tls_connect_total.
  - split; [discriminate|]. split; [discriminate|]. split; [|discriminate]. intros _ route [m []]; cbn; [discriminate|].
    now destruct (m !! upstream_key route).
Qed.
End MidModel.

Import TlsModel MidModel.

Lemma establishment_registry_exact_witness :
  (exists relay, (run Open_).1 = Some (Ok (Mid_Session relay)) /\
     exists key, client_cancel_key relay = Some key /\ (registry_detach key (mid_registry (run Open_).2)).2 = empty_registry) /\
  (exists e, (run Shut).1 = Some (Err e)) /\ mid_registry (run Shut).2 = empty_registry.
Proof.
  assert (match (run Open_).1 with Some (Ok (Mid_Session relay)) => client_cancel_key relay | _ => None end =
    Some (mkCancelKey 7 (str "keys"))) as Hopen by (vm_compute; reflexivity).
  assert (match (run Shut).1 with Some (Err _) => true | _ => false end = true) as Hshut by (vm_compute; reflexivity).
  destruct (run Open_) as [r env] eqn:E. destruct (run Shut) as [r' env'] eqn:E'. cbn [fst snd] in *.
  destruct r as [[[relay|]|e|]|]; [|discriminate Hopen..]. destruct r' as [[a|e|]|]; [discriminate Hshut| |discriminate Hshut..].
  pose proof (establishment_registry_exact 30 (proxy Open_) visitor tt tt empty_registry AcceptModel.salt (Ok (Mid_Session relay)) env E) as Ho.
  pose proof (establishment_registry_exact 30 (proxy Shut) visitor tt tt empty_registry AcceptModel.salt (Err e) env' E') as Hs.
  split; [|split; [now exists e|exact Hs]]. exists relay. split; [reflexivity|]. exists (mkCancelKey 7 (str "keys")).
  split; [exact Hopen|]. cbv beta iota in Ho. rewrite Hopen in Ho. destruct Ho as (_ & _ & _ & Ho). exact Ho.
Defined.

Lemma intermediary_session_secured_witness :
  exists relay, (run Open_).1 = Some (Ok (Mid_Session relay)) /\
    connected_core client (target relay) (upstream relay) /\
    session_accepted server tt (server_core (downstream relay)) /\
    routed (State := unit) (proxy Open_) (server_core (downstream relay)) (target relay).
Proof.
  assert (match (run Open_).1 with Some (Ok (Mid_Session relay)) => true | _ => false end = true) as Hopen by (vm_compute; reflexivity).
  destruct (run Open_) as [r env] eqn:E. cbn [fst snd] in *.
  destruct r as [[[relay|]|e|]|]; [|discriminate Hopen..]. exists relay. split; [reflexivity|].
  pose proof (intermediary_session_secured 30 (proxy Open_) visitor tt tt (mkMidEnv empty_registry AcceptModel.salt) (Ok (Mid_Session relay)) env
    (proxy_total Open_) E) as (Hd & Hr & Hu). split; [exact Hu|]. split; [exact Hd|exact Hr].
Defined.
