(* ===== verification/ReceiveTyped.v ===== *)
(** Receives through phase-typed and runtime-checked middleware for every message
    family, and the demultiplexer's queues behind a connection: the rest of
    src/transport.rs. *)

From Stdlib Require Import ZArith Lia String.
From Stdlib Require Import Init.Byte.
From stdpp Require Import prelude.
From S2P Require Import Prelude OrdMap Wire Frame Frontend Startup PreStartup Backend Demux Fsm Grammar Transport Middleware.

Local Open Scope string_scope.
Local Open Scope Z_scope.
Local Open Scope list_scope.

(** ** Buffers *)

Section Buffers.
Context {S : Type}.

Definition new_frontend (s : S) : Buffered S :=
  mkBuffered s [] [] PgCodec_default DEFAULT_MAX_PRE_STARTUP_PACKET_LEN Demux_default.
Definition into_inner (b : Buffered S) : S := stream b.

(** [self.transport_mut().demux_mut()] *)
Definition on_demux {A} (f : Demux -> A * Demux) (b : Buffered S) : A * Buffered S :=
  let (a, d) := f (demux b) in (a, set_demux d b).
Definition conn_pop_notification : Buffered S -> option Notification * Buffered S := on_demux pop_notification.
Definition conn_pop_notice : Buffered S -> option TaggedNotice * Buffered S := on_demux pop_notice.
Definition conn_pop_parameter_status : Buffered S -> option ParameterStatus * Buffered S := on_demux pop_parameter_status.
Definition conn_pop_async_event : Buffered S -> option OrderedAsyncEvent * Buffered S := on_demux pop_async_event.
End Buffers.

(** ** Receives *)

Section Receives.
Context {S State H : Type} `{AsyncIo S}.

(** A read whose outcome is handed to the middleware; [None] has not finished. *)
Definition receive_through {Wire A Er} (read : Buffered S -> option (io Wire) * Buffered S)
    (through : io Wire -> Middleware State H -> result A Er * Middleware State H)
    (mw : Middleware State H) (b : Buffered S) : option (result A Er) * Middleware State H * Buffered S :=
  match read b with
  | (Some outcome, b) => let (r, mw) := through outcome mw in (Some r, mw, b)
  | (None, b) => (None, mw, b)
  end.

(** A phase's message type is given by the messages it accepts. *)
Section Phases.
Context {E : Type} (fuel : nat) (cancelled : nat -> bool).

Definition receive_backend_typed (legal : BackendMessage -> bool) `{MessageMiddleware H (Typed legal) State E} :=
  receive_through (receive_backend fuel cancelled) (receive_typed legal).
Definition receive_encryption_reply_typed (legal : EncryptionReply -> bool) `{MessageMiddleware H (Typed legal) State E} :=
  receive_through (receive_encryption_reply fuel) (receive_typed legal).
Definition receive_frontend_typed (legal : FrontendMessage -> bool) `{MessageMiddleware H (Typed legal) State E} :=
  receive_through (receive_wire fuel cancelled) (receive_typed legal).
Definition receive_pre_startup_typed (legal : PreStartupMessage -> bool) `{MessageMiddleware H (Typed legal) State E} :=
  receive_through (receive_pre_startup fuel cancelled) (receive_typed legal).

Definition receive_frontend_wire_with_middleware {P} `{AcceptsMessage P FrontendMessage}
    `{MessageMiddleware H FrontendMessage State E} (protocol_state : P) :=
  receive_through (receive_wire fuel cancelled) (fun read => receive_checked read protocol_state).
Definition receive_pre_startup_wire_with_middleware {P} `{AcceptsMessage P PreStartupMessage}
    `{MessageMiddleware H PreStartupMessage State E} (protocol_state : P) :=
  receive_through (receive_pre_startup fuel cancelled) (fun read => receive_checked read protocol_state).

(** [Conn::receive_typed]; [receives] bounds the messages it takes. *)
Fixpoint receive_session_typed (legal : BackendMessage -> bool) `{MessageMiddleware H (Typed legal) State E}
    (receives : nat) (mw : Middleware State H) (b : Buffered S)
    : option (result SessionItem (TypedReceiveError E BackendMessage)) * Middleware State H * Buffered S :=
  match receives with
  | O => (None, mw, b)
  | Datatypes.S receives =>
      match receive_backend_typed legal mw b with
      | (Some (Ok message), mw, b) =>
          match project_backend (as_wire message) b with
          | (Some item, b) => (Some (Ok item), mw, b)
          | (None, b) => receive_session_typed legal receives mw b
          end
      | (Some (Err e), mw, b) => (Some (Err e), mw, b)
      | (Some Panic, mw, b) => (Some Panic, mw, b)
      | (None, mw, b) => (None, mw, b)
      end
  end.
End Phases.
End Receives.

(** ** Typed and checked session streams *)

(** The error of a typed receive as one of the checked receive. *)
Definition collapse_error {E Wire} (e : TypedReceiveError (WireAdapterError E Wire) Wire) : ReceiveError E Wire :=
  match e with
  | TypedIo e => ReceiveIo e
  | TypedMiddleware (AdapterMiddleware e) => ReceiveIntercept (InterceptMiddleware e)
  | TypedMiddleware (IllegalReplacement m) | InvalidWire m | TypedIllegal m => ReceiveIntercept (Invalid m)
  end.

Lemma collapse_map {E Wire} (legal : Wire -> bool) (r : result (Typed legal) (TypedReceiveError (WireAdapterError E Wire) Wire)) :
  collapse r = map_err collapse_error (result_map as_wire r).
Proof. now destruct r as [|[| |[]|]|]. Qed.

Definition unadapt {State H} (mw : Middleware State (WireAdapter H)) : Middleware State H :=
  mkMiddleware (mw_state mw) (adapted (mw_handler mw)).

(** Only an illegal peer message is reported as such, and the handler has not seen it. *)
Lemma typed_illegal_inv {H State Wire E} (legal : Wire -> bool) `{Hh : MessageMiddleware H (Typed legal) State E}
    `{ReconstructableMessage Wire} read (mw mw' : Middleware State H) m :
  receive_typed legal read mw = (Err (TypedIllegal m), mw') -> read = Ok m /\ legal m = false /\ mw' = mw.
Proof.
  destruct read as [m0|e|]; simpl; [|discriminate..]. pose proof (try_from_spec legal m0) as Ht.
  destruct (try_from legal m0) as [t|m1|]; [|destruct Ht as [-> Hl]; now intros [= -> ->]|discriminate].
  destruct (unit_intercept t mw) as [[t'|e|] mw1]; [destruct (is_reconstructable (as_wire t'))|..]; discriminate.
Qed.

Section Agreement.
Context {S State H E P : Type} `{AsyncIo S} `{Hh : MessageMiddleware H BackendMessage State E}.
Context `{AcceptsMessage P BackendMessage} (fuel : nat) (cancelled : nat -> bool) (p : P).

(** One receive: the typed and the checked one read the same and, unless the
    peer's message is illegal in the phase, end the same. *)
Lemma receive_backend_agrees mw (b : Buffered S) :
  match receive_backend_typed fuel cancelled (accepts p) mw b with
  | (Some (Err (TypedIllegal m)), mw', _) => accepts p m = false /\ mw' = mw
  | (o, mw', b') =>
      receive_backend_wire_with_middleware fuel cancelled p (unadapt mw) b =
        (map_err collapse_error ∘ result_map as_wire <$> o, unadapt mw', b')
  end.
Proof.
  destruct mw as [st [h]]. unfold receive_backend_typed, receive_through, receive_backend_wire_with_middleware, unadapt.
  cbn [mw_state mw_handler adapted]. destruct (receive_backend fuel cancelled b) as [[read|] b']; [|done].
  pose proof (typed_receive_agrees p read st h) as Ha.
  destruct (receive_typed (accepts p) read (mkMiddleware st (mkAdapter h))) as [rt mt] eqn:Er.
  assert (forall m, rt = Err (TypedIllegal m) -> accepts p m = false /\ mt = mkMiddleware st (mkAdapter h)) as Hill.
  { intros m ->. now apply typed_illegal_inv in Er as (_ & ? & ?). }
  assert ((exists m, rt = Err (TypedIllegal m)) \/
    receive_checked read p (mkMiddleware st h) = (collapse rt, unadapt mt)) as [[m ->]|Hc]; [|now apply Hill|].
  - destruct read as [m|e|]; [destruct (accepts p m); [now right|left; exists m; apply Ha]|..];
      right; destruct Ha as [-> ->]; done.
  - rewrite Hc, collapse_map. destruct rt as [t|[e|m'|[e|m']|m']|]; try done. now apply Hill.
Qed.

(** The phase-typed session stream is the checked one: for every stream, number of
    steps and cancellation, a handler adapted to the phase's message type sees the
    same messages, leaves the same state and yields the same item or, up to the
    name of the error, the same failure; a peer message illegal in the phase ends
    the typed stream before the handler sees it. *)
Theorem typed_stream_agrees receives : forall mw (b : Buffered S),
  match receive_session_typed fuel cancelled (accepts p) receives mw b with
  | (Some (Err (TypedIllegal m)), _, _) => accepts p m = false
  | (o, mw', b') =>
      receive_with_middleware receives fuel cancelled p (unadapt mw) b = (map_err collapse_error <$> o, unadapt mw', b')
  end.
Proof.
  induction receives as [|receives IH]; intros mw b; [done|]. cbn [receive_session_typed receive_with_middleware].
  pose proof (receive_backend_agrees mw b) as Hb.
  destruct (receive_backend_typed fuel cancelled (accepts p) mw b) as [[[[t|e|]|] mw1] b1].
  - rewrite Hb. cbn. destruct (project_backend (as_wire t) b1) as [[item|] b2]; [done|]. apply IH.
  - destruct e as [e|m|e|m]; [|now destruct Hb|..]; now rewrite Hb.
  - now rewrite Hb.
  - now rewrite Hb.
Qed.
End Agreement.
