(* ===== verification/Text.v ===== *)
(** Rust text as the burn-in harness uses it: decimal printing and parsing,
    blank strings, prefixes and joining, on UTF-8 bytes. *)

From Stdlib Require Import ZArith Lia String.
From Stdlib Require Import Init.Byte.
From stdpp Require Import prelude.
From S2P Require Import Prelude Scram.

Local Open Scope Z_scope.
Local Open Scope list_scope.

(** ** Decimal numbers *)

(** [u8::is_ascii_digit] *)
Definition is_ascii_digit (b : byte) : bool := (48 <=? byte_val b) && (byte_val b <=? 57).
Definition digit (d : Z) : byte := byte_of (48 + d).
Definition digit_value (b : byte) : Z := byte_val b - 48.

(** [to_string] of an unsigned number: a number has at most as many digits as bits. *)
Fixpoint decimal_digits (fuel : nat) (n : Z) : bytes :=
  match fuel with
  | O => []
  | S fuel => if n <? 10 then [digit n] else decimal_digits fuel (n / 10) ++ [digit (n mod 10)]
  end.
Definition to_decimal (n : Z) : bytes := decimal_digits (S (Z.to_nat (Z.log2 n))) n.

(** [{n:0w$}] *)
Definition zero_pad (w : nat) (n : Z) : bytes :=
  let d := to_decimal n in replicate (w - length d) (digit 0) ++ d.

(** [str::parse] of an unsigned type with the given maximum: digits after at most
    one plus sign, checked for overflow at each step. *)
Fixpoint parse_digits (max acc : Z) (s : bytes) : option Z :=
  match s with
  | [] => Some acc
  | b :: s =>
      if is_ascii_digit b then
        let acc := 10 * acc + digit_value b in
        if acc <=? max then parse_digits max acc s else None
      else None
  end.
Definition parse_unsigned (max : Z) (s : bytes) : option Z :=
  match s with
  | [] => None
  | b :: rest =>
      if decide (b = "+"%byte) then match rest with [] => None | _ => parse_digits max 0 rest end
      else parse_digits max 0 s
  end.

(** ** Other operations *)

(** [str::trim().is_empty()]: every character has the Unicode property White_Space. *)
Fixpoint is_blank (s : bytes) : bool :=
  match s with
  | [] => true
  | (x09 | x0a | x0b | x0c | x0d | x20) :: s => is_blank s
  | xc2 :: (x85 | xa0) :: s => is_blank s
  | xe1 :: x9a :: x80 :: s => is_blank s
  | xe2 :: x80 :: (x80 | x81 | x82 | x83 | x84 | x85 | x86 | x87 | x88 | x89 | x8a | xa8 | xa9 | xaf) :: s => is_blank s
  | xe2 :: x81 :: x9f :: s => is_blank s
  | xe3 :: x80 :: x80 :: s => is_blank s
  | _ => false
  end.

(** [str::starts_with] *)
Fixpoint starts_with (prefix s : bytes) : bool :=
  match prefix, s with
  | [], _ => true
  | _, [] => false
  | a :: prefix, b :: s => bool_decide (a = b) && starts_with prefix s
  end.

(** [str::contains] of a string *)
Fixpoint contains_str (needle s : bytes) : bool :=
  starts_with needle s || match s with [] => false | _ :: s => contains_str needle s end.

(** [join] *)
Fixpoint join (separator : bytes) (parts : list bytes) : bytes :=
  match parts with
  | [] => []
  | [part] => part
  | part :: parts => part ++ separator ++ join separator parts
  end.

(** ** Digits of fixed width *)

(** The [w] low decimal digits of [n], most significant first. *)
Fixpoint fixed (w : nat) (n : Z) : bytes :=
  match w with
  | O => []
  | S w => fixed w (n / 10) ++ [digit (n mod 10)]
  end.

Lemma length_fixed w n : length (fixed w n) = w.
Proof. revert n; induction w as [|w IH]; intros n; simpl; [done|]. rewrite length_app, IH. simpl. lia. Qed.

Lemma digit_val d : 0 <= d < 10 -> byte_val (digit d) = 48 + d.
Proof. intros H. unfold digit. rewrite byte_val_of. apply Z.mod_small. lia. Qed.

Lemma digit_is_digit d : 0 <= d < 10 -> is_ascii_digit (digit d) = true.
Proof. intros H. unfold is_ascii_digit. rewrite (digit_val d H). lia. Qed.

Lemma digit_value_digit d : 0 <= d < 10 -> digit_value (digit d) = d.
Proof. intros H. unfold digit_value. rewrite (digit_val d H). lia. Qed.

Lemma fixed_zero w : fixed w 0 = replicate w (digit 0).
Proof.
  induction w as [|w IH]; simpl; [done|]. rewrite Z.mod_0_l, Z.div_0_l, IH by lia.
  rewrite <- replicate_cons_app. done.
Qed.

Lemma fixed_digits w n : forallb is_ascii_digit (fixed w n) = true.
Proof.
  revert n; induction w as [|w IH]; intros n; simpl; [done|]. rewrite forallb_app, IH. simpl.
  rewrite digit_is_digit; [done|]. apply Z.mod_pos_bound. lia.
Qed.

(** Splitting off the leading digits. *)
Lemma decimal_fixed fuel n w : 0 <= n -> n < 2 ^ Z.of_nat fuel -> n < 10 ^ Z.of_nat w -> (0 < w)%nat ->
  replicate (w - length (decimal_digits fuel n)) (digit 0) ++ decimal_digits fuel n = fixed w n /\
  (length (decimal_digits fuel n) <= w)%nat \/ fuel = O.
Proof.
  revert n w; induction fuel as [|fuel IH]; intros n w Hn Hf Hw Hp; [now right|]. left.
  destruct w as [|w]; [lia|]. rewrite !Nat2Z.inj_succ, !Z.pow_succ_r in * by lia.
  simpl. destruct (Z.ltb_spec n 10).
  - rewrite Z.div_small, Z.mod_small, fixed_zero by lia. simpl. rewrite Nat.sub_0_r. split; [done|lia].
  - destruct w as [|w]; [simpl in Hw; lia|].
    destruct (IH (n / 10) (S w)) as [[E L]|E].
    + apply Z.div_pos; lia.
    + apply Z.div_lt_upper_bound; lia.
    + apply Z.div_lt_upper_bound; lia.
    + lia.
    + rewrite length_app. simpl. split; [|lia].
      rewrite <- E at 1. rewrite app_assoc. f_equal. f_equal. f_equal. lia.
    + subst fuel. simpl in Hf. lia.
Qed.

Lemma zero_pad_fixed w n : 0 <= n < 10 ^ Z.of_nat w -> (0 < w)%nat -> zero_pad w n = fixed w n.
Proof.
  intros [Hn Hw] Hp. unfold zero_pad, to_decimal.
  destruct (decimal_fixed (S (Z.to_nat (Z.log2 n))) n w) as [[E _]|E]; try done; try lia.
  rewrite Nat2Z.inj_succ, Z2Nat.id by apply Z.log2_nonneg. destruct (decide (n = 0)) as [->|]; [done|].
  apply Z.log2_spec. lia.
Qed.

Lemma parse_digits_app max acc s t :
  parse_digits max acc (s ++ t) = match parse_digits max acc s with Some acc => parse_digits max acc t | None => None end.
Proof.
  revert acc; induction s as [|b s IH]; intros acc; simpl; [done|].
  destruct (is_ascii_digit b); [|done]. destruct (_ <=? max); [apply IH|done].
Qed.

Lemma parse_fixed max w n acc : 0 <= n < 10 ^ Z.of_nat w -> 0 <= acc -> acc * 10 ^ Z.of_nat w + n <= max ->
  parse_digits max acc (fixed w n) = Some (acc * 10 ^ Z.of_nat w + n).
Proof.
  revert n; induction w as [|w IH]; intros n Hn Ha Hm; simpl fixed.
  - simpl in *. f_equal. lia.
  - rewrite Nat2Z.inj_succ, Z.pow_succ_r in * by lia. rewrite parse_digits_app.
    pose proof (Z.div_mod n 10 ltac:(lia)) as Hd. pose proof (Z.mod_pos_bound n 10 ltac:(lia)) as Hm10.
    rewrite IH; [|split; [apply Z.div_pos; lia|apply Z.div_lt_upper_bound; lia]|done|nia].
    cbn [parse_digits]. rewrite digit_is_digit, digit_value_digit by done.
    destruct (Z.leb_spec (10 * (acc * 10 ^ Z.of_nat w + n / 10) + n mod 10) max); [f_equal; nia|nia].
Qed.

Lemma parse_unsigned_fixed max w n : 0 <= n < 10 ^ Z.of_nat w -> n <= max -> (0 < w)%nat ->
  parse_unsigned max (fixed w n) = Some n.
Proof.
  intros Hn Hm Hw. pose proof (parse_fixed max w n 0 Hn ltac:(lia) ltac:(lia)) as E.
  pose proof (fixed_digits w n) as Hd. pose proof (length_fixed w n) as Hl.
  unfold parse_unsigned. destruct (fixed w n) as [|b s]; [simpl in Hl; lia|].
  simpl in Hd. apply andb_true_iff in Hd as [Hb _].
  rewrite decide_False; [rewrite E; f_equal; lia|]. intros ->. discriminate Hb.
Qed.

(** A string of digits is the fixed-width print of what it parses to. *)
Lemma digit_inv b : is_ascii_digit b = true -> exists d, 0 <= d < 10 /\ b = digit d.
Proof.
  unfold is_ascii_digit. rewrite andb_true_iff, !Z.leb_le. intros Hb. exists (byte_val b - 48). split; [lia|].
  unfold digit. replace (48 + (byte_val b - 48)) with (byte_val b) by lia. now rewrite byte_of_val.
Qed.

Lemma digits_fixed s : forallb is_ascii_digit s = true ->
  exists n, 0 <= n < 10 ^ Z.of_nat (length s) /\ s = fixed (length s) n.
Proof.
  induction s as [|b s IH] using rev_ind; intros Hs; [exists 0; now simpl|].
  rewrite forallb_app in Hs. simpl in Hs. rewrite andb_true_r, andb_true_iff in Hs. destruct Hs as [Hs Hb].
  destruct (IH Hs) as (n & Hn & E). destruct (digit_inv b Hb) as (d & Hd & ->).
  exists (10 * n + d). rewrite length_app. simpl length. rewrite Nat.add_1_r.
  rewrite Nat2Z.inj_succ, Z.pow_succ_r by lia. split; [lia|]. rewrite E at 1. simpl.
  replace ((10 * n + d) / 10) with n by (Z.to_euclidean_division_equations; lia).
  replace ((10 * n + d) mod 10) with d by (Z.to_euclidean_division_equations; lia). done.
Qed.

(** ** Order of fixed-width numbers *)

Lemma bytes_cmp_app a b s t : length a = length b ->
  bytes_cmp (a ++ s) (b ++ t) = match bytes_cmp a b with Eq => bytes_cmp s t | c => c end.
Proof.
  revert b; induction a as [|x a IH]; intros [|y b]; simpl; try done. intros [= H].
  destruct (byte_val x ?= byte_val y); auto.
Qed.

Lemma fixed_cmp w m n : 0 <= m < 10 ^ Z.of_nat w -> 0 <= n < 10 ^ Z.of_nat w ->
  bytes_cmp (fixed w m) (fixed w n) = (m ?= n).
Proof.
  revert m n; induction w as [|w IH]; intros m n Hm Hn; simpl fixed.
  - simpl in *. symmetry. apply Z.compare_eq_iff. lia.
  - rewrite Nat2Z.inj_succ, Z.pow_succ_r in * by lia. rewrite bytes_cmp_app by now rewrite !length_fixed.
    pose proof (Z.mod_pos_bound m 10 ltac:(lia)). pose proof (Z.mod_pos_bound n 10 ltac:(lia)).
    pose proof (Z.div_mod m 10 ltac:(lia)). pose proof (Z.div_mod n 10 ltac:(lia)).
    rewrite IH by (split; [apply Z.div_pos; lia|apply Z.div_lt_upper_bound; lia]).
    simpl. rewrite !digit_val by done.
    destruct (Z.compare_spec (m / 10) (n / 10)), (Z.compare_spec (48 + m mod 10) (48 + n mod 10)),
      (Z.compare_spec m n); try done; lia.
Qed.
