(* ===== verification/Civil.v ===== *)
(** Calendar dates of the burn-in harness: the UTC date of src/run_all.rs, the
    date check of src/catalogue.rs and the report names of src/trends.rs (paths
    under pg-proto-burn-in/), with the calendar they are measured against. *)

From Stdlib Require Import ZArith Lia String.
From Stdlib Require Import Init.Byte.
From stdpp Require Import prelude.
From S2P Require Import Prelude Scram Text.

Local Open Scope Z_scope.
Local Open Scope list_scope.

(** ** The UTC date *)

Definition I64_MAX : Z := 2 ^ 63 - 1.

(** The arithmetic of [utc_date]; Rust division truncates. *)
Definition civil_from_days (days : Z) : Z * Z * Z :=
  let shifted := days + 719468 in
  let era := Z.quot (if 0 <=? shifted then shifted else shifted - 146096) 146097 in
  let day_of_era := shifted - era * 146097 in
  let year_of_era :=
    Z.quot (day_of_era - Z.quot day_of_era 1460 + Z.quot day_of_era 36524 - Z.quot day_of_era 146096) 365 in
  let year := year_of_era + era * 400 in
  let day_of_year := day_of_era - (365 * year_of_era + Z.quot year_of_era 4 - Z.quot year_of_era 100) in
  let month_prime := Z.quot (5 * day_of_year + 2) 153 in
  let day := day_of_year - Z.quot (153 * month_prime + 2) 5 + 1 in
  let month := month_prime + (if month_prime <? 10 then 3 else -9) in
  (year + (if month <=? 2 then 1 else 0), month, day).

Definition format_date (date : Z * Z * Z) : bytes :=
  let '(year, month, day) := date in
  zero_pad 4 year ++ str "-" ++ zero_pad 2 month ++ str "-" ++ zero_pad 2 day.

(** [now] in seconds from the Unix epoch. *)
Definition utc_date (now : Z) : result bytes bytes :=
  if now <? 0 then Err (str "second time provided was later than self")
  else
    let days := now / 86400 in
    if days <=? I64_MAX then Ok (format_date (civil_from_days days))
    else Err (str "out of range integral type conversion attempted").

(** ** Checking dates *)

Definition leap (year : Z) : bool :=
  (year mod 4 =? 0) && (negb (year mod 100 =? 0) || (year mod 400 =? 0)).

(** [maximum] of [validate_date]; no day is valid in a month that does not exist. *)
Definition maximum_day (year month : Z) : Z :=
  match month with
  | 2 => if leap year then 29 else 28
  | 4 | 6 | 9 | 11 => 30
  | 1 | 3 | 5 | 7 | 8 | 10 | 12 => 31
  | _ => 0
  end.

Definition date_valid (value : bytes) : bool :=
  match split_on "-"%byte value with
  | [y; m; d] =>
      (Nat.eqb (length y) 4 && Nat.eqb (length m) 2 && Nat.eqb (length d) 2 &&
       forallb is_ascii_digit y && forallb is_ascii_digit m && forallb is_ascii_digit d) &&
      match parse_unsigned U16_MAX y, parse_unsigned 255 m, parse_unsigned 255 d with
      | Some year, Some month, Some day => (1 <=? day) && (day <=? maximum_day year month)
      | _, _, _ => false
      end
  | _ => false
  end.

Definition validate_date (value : bytes) : result unit bytes :=
  if date_valid value then Ok tt else Err (str "invalid ISO date: " ++ value).

(** ** Report names *)

Definition slice (lo hi : nat) (s : bytes) : bytes := take (hi - lo) (drop lo s).

(** Called on strings of the timestamp shape, so that the slices are in range. *)
Definition valid_timestamp (timestamp : bytes) : bool :=
  let parse lo hi := parse_unsigned U32_MAX (slice lo hi timestamp) in
  match parse 0%nat 4%nat, parse 4%nat 6%nat, parse 6%nat 8%nat,
        parse 9%nat 11%nat, parse 11%nat 13%nat, parse 13%nat 15%nat with
  | Some year, Some month, Some day, Some hour, Some minute, Some second =>
      match (match month with
             | 1 | 3 | 5 | 7 | 8 | 10 | 12 => Some 31
             | 4 | 6 | 9 | 11 => Some 30
             | 2 => if leap year then Some 29 else Some 28
             | _ => None
             end) with
      | Some days => (1 <=? day) && (day <=? days) && (hour <? 24) && (minute <? 60) && (second <? 60)
      | None => false
      end
  | _, _, _, _, _, _ => false
  end.

(** [str::rsplit_once] *)
Fixpoint rsplit_once (b : byte) (s : bytes) : option (bytes * bytes) :=
  match s with
  | [] => None
  | x :: s =>
      match rsplit_once b s with
      | Some (before, after) => Some (x :: before, after)
      | None => if decide (x = b) then Some ([], s) else None
      end
  end.

(** [is_ascii_hexdigit() && !is_ascii_uppercase()] *)
Definition is_lower_hex (b : byte) : bool :=
  is_ascii_digit b || ((97 <=? byte_val b) && (byte_val b <=? 102)).

Definition timestamp_shape (timestamp : bytes) : bool :=
  Nat.eqb (length timestamp) 16 && bool_decide (timestamp !! 8%nat = Some "T"%byte) &&
  bool_decide (timestamp !! 15%nat = Some "Z"%byte) &&
  forallb (fun ib => bool_decide (ib.1 = 8%nat \/ ib.1 = 15%nat) || is_ascii_digit ib.2) (zip (seq 0 (length timestamp)) timestamp).

Definition report_timestamp (name : bytes) : option bytes :=
  match rsplit_once "-"%byte name with
  | None => None
  | Some (sha, timestamp) =>
      let sha_valid := (7 <=? len sha) && (len sha <=? 40) && forallb is_lower_hex sha in
      if sha_valid && timestamp_shape timestamp && valid_timestamp timestamp then Some timestamp else None
  end.

(** ** The calendar *)

Definition next_day (date : Z * Z * Z) : Z * Z * Z :=
  let '(year, month, day) := date in
  if day <? maximum_day year month then (year, month, day + 1)
  else if month <? 12 then (year, month + 1, 1) else (year + 1, 1, 1).

Definition epoch : Z * Z * Z := (1970, 1, 1).

(** The date [n] days after the epoch. *)
Definition calendar (n : Z) : Z * Z * Z := Nat.iter (Z.to_nat n) next_day epoch.

Definition real_date (date : Z * Z * Z) : Prop :=
  let '(year, month, day) := date in 1970 <= year /\ 1 <= month <= 12 /\ 1 <= day <= maximum_day year month.

Definition later_years (k : Z) (date : Z * Z * Z) : Z * Z * Z :=
  let '(year, month, day) := date in (year + k, month, day).

Lemma leap_400 y : leap (y + 400) = leap y.
Proof.
  unfold leap. replace ((y + 400) mod 4) with (y mod 4) by (Z.to_euclidean_division_equations; lia).
  replace ((y + 400) mod 100) with (y mod 100) by (Z.to_euclidean_division_equations; lia).
  now replace ((y + 400) mod 400) with (y mod 400) by (Z.to_euclidean_division_equations; lia).
Qed.

Lemma next_day_400 date : next_day (later_years 400 date) = later_years 400 (next_day date).
Proof.
  destruct date as [[y m] d]. unfold next_day, later_years.
  assert (maximum_day (y + 400) m = maximum_day y m) as -> by (unfold maximum_day; now rewrite leap_400).
  repeat case_match; f_equal; f_equal; lia.
Qed.

(** The dates repeat with the era. *)
Lemma civil_period d : 0 <= d -> civil_from_days (d + 146097) = later_years 400 (civil_from_days d).
Proof.
  intros Hd. unfold civil_from_days.
  destruct (Z.leb_spec 0 (d + 146097 + 719468)); [|lia]. destruct (Z.leb_spec 0 (d + 719468)); [|lia].
  set (era := Z.quot (d + 719468) 146097).
  replace (Z.quot (d + 146097 + 719468) 146097) with (era + 1).
  2: { unfold era. rewrite !Z.quot_div_nonneg by lia. replace (d + 146097 + 719468) with (d + 719468 + 1 * 146097) by lia.
       now rewrite Z.div_add by lia. }
  replace (d + 146097 + 719468 - (era + 1) * 146097) with (d + 719468 - era * 146097) by lia.
  cbv zeta. unfold later_years. f_equal. f_equal. lia.
Qed.

(** *** One era: 400 years that begin in March *)

(** [year_of_era], and the first day of a year of the era and of the next. *)
Definition year_of_era (doe : Z) : Z :=
  Z.quot (doe - Z.quot doe 1460 + Z.quot doe 36524 - Z.quot doe 146096) 365.
Definition year_start (y : Z) : Z := 365 * y + Z.quot y 4 - Z.quot y 100.
Definition year_end (y : Z) : Z := if y =? 399 then 146097 else year_start (y + 1).

(** Month and day by the day of the year. *)
Definition month_day (doy : Z) : Z * Z :=
  let month_prime := Z.quot (5 * doy + 2) 153 in
  (month_prime + (if month_prime <? 10 then 3 else -9), doy - Z.quot (153 * month_prime + 2) 5 + 1).
Definition date_of (era y doy : Z) : Z * Z * Z :=
  let '(month, day) := month_day doy in (y + era * 400 + (if month <=? 2 then 1 else 0), month, day).

Lemma civil_parts d (era := Z.quot (d + 719468) 146097) (doe := d + 719468 - era * 146097) (y := year_of_era doe) :
  0 <= d -> civil_from_days d = date_of era y (doe - year_start y).
Proof. intros Hd. unfold civil_from_days. destruct (Z.leb_spec 0 (d + 719468)); [reflexivity|lia]. Qed.

Definition seqZ (n : nat) : list Z := Z.of_nat <$> seq 0 n.
Lemma seqZ_check (P : Z -> bool) n z : forallb P (seqZ n) = true -> 0 <= z < Z.of_nat n -> P z = true.
Proof.
  intros H Hz. rewrite forallb_forall in H. apply H, list_elem_of_In, list_elem_of_fmap. exists (Z.to_nat z).
  rewrite elem_of_seq. lia.
Qed.

(** Facts about the 400 years and the 366 days, by evaluation. *)
Definition year_ok (y : Z) : bool :=
  (year_of_era (year_start y) =? y) && (year_of_era (year_end y - 1) =? y) && (0 <=? year_start y) &&
  (year_end y - year_start y =? if leap (y + 1) then 366 else 365) &&
  (if y =? 399 then true else year_end y =? year_start (y + 1)).
Definition day_ok (doy : Z) : bool :=
  let '(month, day) := month_day doy in
  let '(month', day') := month_day (doy + 1) in
  if doy =? 365 then (month =? 2) && (day =? 29)
  else if month =? 2 then (month' =? 2) && (day' =? day + 1) && (1 <=? day) && ((day <=? 28) && Bool.eqb (day =? 28) (doy =? 364))
  else (doy <? 364) &&
       (if day <? maximum_day 1 month then (month' =? month) && (day' =? day + 1)
        else (month' =? if month <? 12 then month + 1 else 1) && (day' =? 1)).
Lemma years_ok y : 0 <= y < 400 -> year_ok y = true.
Proof. apply (seqZ_check year_ok 400). vm_compute. reflexivity. Qed.
Lemma days_ok doy : 0 <= doy < 366 -> day_ok doy = true.
Proof. apply (seqZ_check day_ok 366). vm_compute. reflexivity. Qed.

Lemma year_of_era_mono a b : 0 <= a <= b -> b < 146097 -> year_of_era a <= year_of_era b.
Proof.
  intros H Hb. unfold year_of_era. rewrite !(Z.quot_div_nonneg _ 1460), !(Z.quot_div_nonneg _ 36524), !(Z.quot_div_nonneg _ 146096) by lia.
  rewrite !Z.quot_div_nonneg by (Z.to_euclidean_division_equations; lia). apply Z.div_le_mono; [lia|].
  Z.to_euclidean_division_equations; lia.
Qed.

Lemma year_covers n : (n <= 400)%nat -> forall doe, 0 <= doe < (if Nat.eqb n 400 then 146097 else year_start (Z.of_nat n)) ->
  exists y, 0 <= y < Z.of_nat n /\ year_start y <= doe < year_end y.
Proof.
  induction n as [|n IH]; intros Hn doe Hd; [change (0 <= doe < 0) in Hd; lia|].
  destruct (Z.lt_ge_cases doe (year_start (Z.of_nat n))) as [Hlt|Hge].
  - destruct (IH ltac:(lia) doe) as (y & Hy & H); [|exists y; split; [lia|done]].
    destruct (Nat.eqb_spec n 400); [lia|]. lia.
  - exists (Z.of_nat n). split; [lia|]. split; [lia|]. unfold year_end.
    replace (Z.of_nat n + 1) with (Z.of_nat (S n)) by lia.
    destruct (Nat.eqb_spec (S n) 400), (Z.eqb_spec (Z.of_nat n) 399); lia.
Qed.

Lemma year_facts y : 0 <= y < 400 ->
  year_of_era (year_start y) = y /\ year_of_era (year_end y - 1) = y /\ 0 <= year_start y /\ (y <> 399 -> year_end y = year_start (y + 1)).
Proof.
  intros Hy. pose proof (years_ok y Hy) as Hok. unfold year_ok in Hok.
  rewrite !andb_true_iff, !Z.eqb_eq, Z.leb_le in Hok. destruct Hok as [[[[E1 E2] H0] _] H3]. split_and!; try done.
  intros Hn. destruct (Z.eqb_spec y 399); [done|]. now apply Z.eqb_eq.
Qed.

Lemma year_end_le y : 0 <= y < 400 -> year_end y <= 146097.
Proof.
  intros Hy. unfold year_end. destruct (Z.eqb_spec y 399); [done|].
  unfold year_start. rewrite !Z.quot_div_nonneg by lia. Z.to_euclidean_division_equations; lia.
Qed.

Lemma year_of_era_spec doe (y := year_of_era doe) : 0 <= doe < 146097 -> 0 <= y < 400 /\ year_start y <= doe < year_end y.
Proof.
  intros Hd. destruct (year_covers 400 ltac:(lia) doe Hd) as (y' & Hy & Hb).
  destruct (year_facts y' Hy) as (E1 & E2 & H0 & _). pose proof (year_end_le y' Hy).
  pose proof (year_of_era_mono (year_start y') doe ltac:(lia) ltac:(lia)).
  pose proof (year_of_era_mono doe (year_end y' - 1) ltac:(lia) ltac:(lia)).
  assert (y = y') as -> by (unfold y; lia). split; [lia|done].
Qed.

Lemma leap_era y k : leap (y + k * 400) = leap y.
Proof.
  unfold leap. replace ((y + k * 400) mod 4) with (y mod 4) by (Z.to_euclidean_division_equations; lia).
  replace ((y + k * 400) mod 100) with (y mod 100) by (Z.to_euclidean_division_equations; lia).
  now replace ((y + k * 400) mod 400) with (y mod 400) by (Z.to_euclidean_division_equations; lia).
Qed.
Lemma date_eq (y y' m m' d d' : Z) : y = y' -> m = m' -> d = d' -> (y, m, d) = (y', m', d').
Proof. now intros -> -> ->. Qed.

Lemma maximum_day_other y month : month <> 2 -> maximum_day y month = maximum_day 1 month.
Proof. intros Hm. unfold maximum_day. repeat case_match; done. Qed.

(** The day after, within the year and at its end. *)
Lemma date_next era y doy (L := year_end y - year_start y) : 0 <= y < 400 -> 0 <= doy < L ->
  next_day (date_of era y doy) = if doy + 1 <? L then date_of era y (doy + 1) else date_of era (y + 1) 0.
Proof.
  intros Hy Hdoy. pose proof (years_ok y Hy) as Hok. unfold year_ok in Hok.
  rewrite !andb_true_iff, !Z.eqb_eq in Hok. destruct Hok as [[_ HL] _]. fold L in HL.
  assert (doy < 366) as Hd by (destruct (leap (y + 1)); lia).
  pose proof (days_ok doy ltac:(lia)) as Hday. unfold day_ok in Hday. unfold date_of.
  destruct (month_day doy) as [month day], (month_day (doy + 1)) as [month' day'] eqn:E'.
  change (month_day 0) with (3, 1). cbn [next_day].
  destruct (Z.eqb_spec doy 365) as [->|H365].
  - rewrite andb_true_iff, !Z.eqb_eq in Hday. destruct Hday as [-> ->].
    destruct (Z.ltb_spec (365 + 1) L); [destruct (leap (y + 1)); lia|]. simpl.
    destruct (leap (y + era * 400 + 1)); simpl; apply date_eq; lia.
  - destruct (Z.eqb_spec month 2) as [->|Hm2].
    + rewrite !andb_true_iff, eqb_true_iff, !Z.eqb_eq, !Z.leb_le in Hday. destruct Hday as [[[-> ->] H1] [H28 Hend]].
      assert (day = 28 <-> doy = 364) as Hiff by (rewrite <- !Z.eqb_eq, Hend; done).
      simpl. replace (y + era * 400 + 1) with (y + 1 + era * 400) by lia. rewrite leap_era.
      destruct (leap (y + 1)), (Z.ltb_spec (doy + 1) L); try lia;
        match goal with |- context [day <? ?n] => destruct (Z.ltb_spec day n) end; try lia; simpl; apply date_eq; lia.
    + rewrite andb_true_iff, Z.ltb_lt in Hday. destruct Hday as [H364 Hday].
      rewrite (maximum_day_other _ month Hm2). destruct (Z.ltb_spec (doy + 1) L); [|destruct (leap (y + 1)); lia].
      destruct (Z.ltb_spec day (maximum_day 1 month)).
      * rewrite andb_true_iff, !Z.eqb_eq in Hday. destruct Hday as [-> ->]. done.
      * rewrite andb_true_iff, !Z.eqb_eq in Hday. destruct Hday as [-> ->].
        destruct (Z.ltb_spec month 12), (Z.leb_spec month 2); simpl; try lia;
          repeat (match goal with |- context [?a <=? 2] => destruct (Z.leb_spec a 2) end); apply date_eq; lia.
Qed.

Lemma civil_next d : 0 <= d -> civil_from_days (d + 1) = next_day (civil_from_days d).
Proof.
  intros Hd. rewrite !civil_parts by lia. set (era := Z.quot (d + 719468) 146097).
  set (doe := d + 719468 - era * 146097).
  assert (0 <= doe < 146097) as Hdoe.
  { unfold doe, era. rewrite Z.quot_div_nonneg by lia. Z.to_euclidean_division_equations; lia. }
  destruct (year_of_era_spec doe Hdoe) as [Hy Hb]. set (y := year_of_era doe) in *.
  rewrite date_next by (try done; lia).
  assert (Z.quot (d + 1 + 719468) 146097 = if doe =? 146096 then era + 1 else era) as ->.
  { unfold doe, era. rewrite !Z.quot_div_nonneg by lia.
    destruct (Z.eqb_spec (d + 719468 - (d + 719468) / 146097 * 146097) 146096); Z.to_euclidean_division_equations; lia. }
  destruct (Z.eqb_spec doe 146096) as [E|Hne].
  - assert (y = 399) as -> by (unfold y; now rewrite E). change (year_end 399) with 146097 in *. change (year_start 399) with 145731 in *.
    destruct (Z.ltb_spec (doe - 145731 + 1) (146097 - 145731)); [lia|].
    replace (d + 1 + 719468 - (era + 1) * 146097) with 0 by lia. change (year_of_era 0) with 0. change (0 - year_start 0) with 0.
    unfold date_of. change (month_day 0) with (3, 1). apply date_eq; simpl; lia.
  - replace (d + 1 + 719468 - era * 146097) with (doe + 1) by lia.
    destruct (year_of_era_spec (doe + 1) ltac:(lia)) as [Hy' Hb']. set (y' := year_of_era (doe + 1)) in *.
    pose proof (year_of_era_mono doe (doe + 1) ltac:(lia) ltac:(lia)) as Hmono. fold y y' in Hmono.
    destruct (year_facts y Hy) as (_ & Elast & _ & Hnext). destruct (Z.ltb_spec (doe - year_start y + 1) (year_end y - year_start y)).
    + pose proof (year_of_era_mono (doe + 1) (year_end y - 1) ltac:(lia) ltac:(pose proof (year_end_le y Hy); lia)) as Hm.
      fold y' in Hm. replace y' with y by lia. f_equal. lia.
    + assert (y <> 399) as Hn by (intros E; rewrite E in *; change (year_end 399) with 146097 in *; lia).
      destruct (year_facts (y + 1) ltac:(lia)) as (Efirst & _). specialize (Hnext Hn).
      assert (doe + 1 = year_start (y + 1)) as E by lia. assert (y' = y + 1) as -> by (unfold y'; now rewrite E).
      f_equal. lia.
Qed.

Lemma civil_calendar d : 0 <= d -> civil_from_days d = calendar d.
Proof.
  revert d. apply natlike_ind; [reflexivity|]. intros d Hd IH. rewrite <- Z.add_1_r, civil_next, IH by done.
  unfold calendar. now rewrite Z.add_1_r, Z2Nat.inj_succ.
Qed.

(** ** Printed dates *)

Definition date_key (date : Z * Z * Z) : Z := let '(year, month, day) := date in 10000 * year + 100 * month + day.

Lemma maximum_day_range y m : 1 <= m <= 12 -> 28 <= maximum_day y m <= 31.
Proof. intros Hm. unfold maximum_day. repeat case_match; lia. Qed.

Lemma next_day_real date : real_date date -> real_date (next_day date) /\ date_key date < date_key (next_day date).
Proof.
  destruct date as [[y m] d]. unfold real_date, next_day, date_key. intros (Hy & Hm & Hd).
  pose proof (maximum_day_range y m Hm). pose proof (maximum_day_range (y + 1) 1 ltac:(lia)).
  destruct (Z.ltb_spec d (maximum_day y m)); [lia|]. destruct (Z.ltb_spec m 12); [|lia].
  pose proof (maximum_day_range y (m + 1) ltac:(lia)). lia.
Qed.

Lemma calendar_real n : real_date (calendar n).
Proof. unfold calendar. induction (Z.to_nat n) as [|k IH]; simpl; [now vm_compute|]. now apply next_day_real. Qed.

Lemma calendar_mono m n : 0 <= m < n -> date_key (calendar m) < date_key (calendar n).
Proof.
  intros H. replace n with (m + (n - m)) by lia. remember (n - m) as k. assert (0 < k /\ 0 <= m) as [Hk Hm] by lia. clear Heqk H.
  unfold calendar.
  replace (Z.to_nat (m + k)) with (Z.to_nat k + Z.to_nat m)%nat by lia.
  assert (exists j, Z.to_nat k = S j) as [j ->] by (exists (Z.to_nat (k - 1)); lia).
  rewrite Nat.iter_add. pose proof (calendar_real m) as Hreal. unfold calendar in Hreal.
  revert Hreal. generalize (Nat.iter (Z.to_nat m) next_day epoch) as date. intros date Hreal.
  assert (real_date (Nat.iter (S j) next_day date) /\ date_key date < date_key (Nat.iter (S j) next_day date)) as [_ ?]; [|done].
  induction j as [|j IH]; [now apply next_day_real|]. destruct IH as [Hr Hlt].
  change (Nat.iter (S (S j)) next_day date) with (next_day (Nat.iter (S j) next_day date)).
  destruct (next_day_real _ Hr). split; [done|lia].
Qed.

(** Before the year 10000. *)
Definition last_day : Z := 2932896.
Lemma calendar_year n : 0 <= n <= last_day -> date_key (calendar n) <= 99991231.
Proof.
  intros Hn. assert (date_key (calendar last_day) = 99991231) as E by (rewrite <- civil_calendar by done; reflexivity).
  destruct (decide (n = last_day)) as [->|]; [lia|]. pose proof (calendar_mono n last_day ltac:(lia)). lia.
Qed.

Definition printable (date : Z * Z * Z) : Prop := real_date date /\ date_key date <= 99991231.

Lemma printable_bounds y m d : printable (y, m, d) -> 0 <= y < 10 ^ 4 /\ 0 <= m < 10 ^ 2 /\ 0 <= d < 10 ^ 2.
Proof. intros [(Hy & Hm & Hd) Hk]. simpl in Hk. pose proof (maximum_day_range y m Hm). lia. Qed.

Lemma format_date_fixed y m d : printable (y, m, d) ->
  format_date (y, m, d) = fixed 4 y ++ str "-" ++ fixed 2 m ++ str "-" ++ fixed 2 d.
Proof. intros H. apply printable_bounds in H as (Hy & Hm & Hd). unfold format_date. rewrite !zero_pad_fixed by (done || lia). done. Qed.

(** Dates compare as they are printed. *)
Lemma format_date_cmp a b : printable a -> printable b ->
  bytes_cmp (format_date a) (format_date b) = (date_key a ?= date_key b).
Proof.
  destruct a as [[y m] d], b as [[y' m'] d']. intros Ha Hb. rewrite !format_date_fixed by done.
  apply printable_bounds in Ha as (Hy & Hm & Hd), Hb as (Hy' & Hm' & Hd').
  rewrite bytes_cmp_app, (fixed_cmp 4) by (rewrite ?length_fixed; done).
  rewrite bytes_cmp_app by done. change (bytes_cmp (str "-") (str "-")) with Eq. cbv iota.
  rewrite bytes_cmp_app, (fixed_cmp 2) by (rewrite ?length_fixed; done).
  rewrite bytes_cmp_app by done. change (bytes_cmp (str "-") (str "-")) with Eq. cbv iota.
  rewrite (fixed_cmp 2) by done. unfold date_key.
  destruct (Z.compare_spec y y'), (Z.compare_spec m m'), (Z.compare_spec d d');
    symmetry; rewrite ?Z.compare_eq_iff, ?Z.compare_lt_iff, ?Z.compare_gt_iff; lia.
Qed.

Lemma split_on_digits s t : forallb is_ascii_digit s = true -> split_on "-"%byte (s ++ "-"%byte :: t) = s :: split_on "-"%byte t.
Proof.
  induction s as [|b s IH]; simpl; [done|]. rewrite andb_true_iff. intros [Hb Hs].
  rewrite decide_False by (intros ->; discriminate Hb). now rewrite IH.
Qed.
Lemma date_split_on_last s : forallb is_ascii_digit s = true -> split_on "-"%byte s = [s].
Proof.
  induction s as [|b s IH]; simpl; [done|]. rewrite andb_true_iff. intros [Hb Hs].
  rewrite decide_False by (intros ->; discriminate Hb). now rewrite IH.
Qed.

(** The check reads exactly the digits of a date. *)
Lemma date_valid_fixed y m d : 0 <= y < 10 ^ 4 -> 0 <= m < 10 ^ 2 -> 0 <= d < 10 ^ 2 ->
  date_valid (fixed 4 y ++ str "-" ++ fixed 2 m ++ str "-" ++ fixed 2 d) = (1 <=? d) && (d <=? maximum_day y m).
Proof.
  intros Hy Hm Hd. change (str "-") with ["-"%byte]. cbn [app]. unfold date_valid.
  rewrite !split_on_digits, date_split_on_last by apply fixed_digits. rewrite !length_fixed, !fixed_digits.
  rewrite (parse_unsigned_fixed U16_MAX 4), (parse_unsigned_fixed 255 2 m), (parse_unsigned_fixed 255 2 d)
    by (done || (unfold U16_MAX; lia) || lia). done.
Qed.

Lemma printed_valid date : printable date -> validate_date (format_date date) = Ok tt.
Proof.
  destruct date as [[y m] d]. intros Hp. unfold validate_date. rewrite format_date_fixed by done.
  destruct (printable_bounds _ _ _ Hp) as (Hy & Hm & Hd). rewrite date_valid_fixed by done.
  destruct Hp as [(_ & _ & H1 & H2) _]. now rewrite !(proj2 (Z.leb_le _ _)) by done.
Qed.

Lemma utc_date_printed now (day := calendar (now / 86400)) : 0 <= now / 86400 <= last_day ->
  utc_date now = Ok (format_date day) /\ validate_date (format_date day) = Ok tt /\ printable day.
Proof.
  intros Ht. assert (printable day) as Hp by (split; [apply calendar_real|now apply calendar_year]).
  split; [|split; [now apply printed_valid|done]]. unfold utc_date. destruct (Z.ltb_spec now 0); [Z.to_euclidean_division_equations; lia|].
  destruct (Z.leb_spec (now / 86400) I64_MAX) as [_|]; [|unfold last_day, I64_MAX in *; lia].
  now rewrite civil_calendar by lia.
Qed.

(** ** Properties *)

(** C40: UTC dates. Until the end of the year 9999 the printed date of a time is the
    calendar day that follows 1970-01-01 by the elapsed days, the date check of the
    catalogue accepts it, and two printed dates compare, as strings, the way the
    days do. *)
Theorem utc_date_calendar now now' : 0 <= now / 86400 <= last_day -> 0 <= now' / 86400 <= last_day ->
  exists text text', utc_date now = Ok text /\ utc_date now' = Ok text' /\
    text = format_date (calendar (now / 86400)) /\ validate_date text = Ok tt /\
    bytes_cmp text text' = (now / 86400 ?= now' / 86400).
Proof.
  intros H H'. destruct (utc_date_printed now H) as (-> & Hv & Hp), (utc_date_printed now' H') as (-> & _ & Hp').
  eexists _, _. split_and!; try done. rewrite format_date_cmp by done.
  destruct (Z.compare_spec (now / 86400) (now' / 86400)) as [->|Hlt|Hgt].
  - apply Z.compare_refl.
  - apply Z.compare_lt_iff, calendar_mono. lia.
  - apply Z.compare_gt_iff, calendar_mono. lia.
Qed.

Lemma utc_date_calendar_witness :
  exists text text', utc_date 1709164800 = Ok text /\ utc_date 0 = Ok text' /\ validate_date text = Ok tt /\ bytes_cmp text text' = Gt.
Proof.
  destruct (utc_date_calendar 1709164800 0) as (text & text' & E & E' & _ & Hv & Hc); [now vm_compute..|].
  exists text, text'. split; [exact E|]. split; [exact E'|]. split; [exact Hv|]. rewrite Hc. reflexivity.
Defined.

(** The two calendars agree: a report timestamp is valid exactly when its date passes
    the check of the catalogue and its time of day exists. *)
Theorem timestamp_agrees_with_date y m d hour minute second :
  0 <= y < 10 ^ 4 -> 0 <= m < 10 ^ 2 -> 0 <= d < 10 ^ 2 ->
  0 <= hour < 10 ^ 2 -> 0 <= minute < 10 ^ 2 -> 0 <= second < 10 ^ 2 ->
  valid_timestamp (fixed 4 y ++ fixed 2 m ++ fixed 2 d ++ str "T" ++ fixed 2 hour ++ fixed 2 minute ++ fixed 2 second ++ str "Z") =
  date_valid (fixed 4 y ++ str "-" ++ fixed 2 m ++ str "-" ++ fixed 2 d) && (hour <? 24) && (minute <? 60) && (second <? 60).
Proof.
  intros Hy Hm Hd Hh Hmi Hs. rewrite date_valid_fixed by done. unfold valid_timestamp.
  set (t := fixed 4 y ++ _).
  change (slice 0 4 t) with (fixed 4 y). change (slice 4 6 t) with (fixed 2 m). change (slice 6 8 t) with (fixed 2 d).
  change (slice 9 11 t) with (fixed 2 hour). change (slice 11 13 t) with (fixed 2 minute). change (slice 13 15 t) with (fixed 2 second).
  assert (forall w n, 0 <= n < 10 ^ Z.of_nat w -> (0 < w <= 4)%nat -> parse_unsigned U32_MAX (fixed w n) = Some n) as Hp.
  { intros w n Hn Hw. apply parse_unsigned_fixed; [done| |lia]. unfold U32_MAX.
    pose proof (Z.pow_le_mono_r 10 (Z.of_nat w) 4 ltac:(lia) ltac:(lia)). lia. }
  rewrite (Hp 4%nat), !(Hp 2%nat) by (done || lia). unfold maximum_day.
  repeat case_match; try done; rewrite ?andb_false_r; try done; destruct (Z.leb_spec 1 d), (Z.leb_spec d 0); try lia; try done; simplify_eq; done.
Qed.

(** A name that is a report root keeps its timestamp, and only well-formed names are. *)
Theorem report_timestamp_exact name timestamp : report_timestamp name = Some timestamp <->
  exists sha, rsplit_once "-"%byte name = Some (sha, timestamp) /\ (7 <= len sha <= 40) /\ forallb is_lower_hex sha = true /\
    timestamp_shape timestamp = true /\ valid_timestamp timestamp = true.
Proof.
  unfold report_timestamp. destruct (rsplit_once _ name) as [[sha t]|].
  - destruct (((7 <=? len sha) && (len sha <=? 40) && forallb is_lower_hex sha) && timestamp_shape t && valid_timestamp t) eqn:E.
    + rewrite !andb_true_iff, !Z.leb_le in E. split; [intros [= <-]; exists sha; tauto|].
      intros (? & [= <- <-] & _). done.
    + split; [done|]. intros (? & [= <- <-] & Hl & Hh & Hs & Hv). rewrite Hh, Hs, Hv, !andb_true_r in E.
      apply andb_false_iff in E. rewrite !Z.leb_gt in E. lia.
  - split; [done|]. now intros (? & ? & _).
Qed.
