(* ===== verification/Catalogue.v ===== *)
(** The protocol catalogue of the burn-in harness and the audit of its evidence:
    src/catalogue.rs of pg-proto-burn-in. The catalogue is every transition of the
    six grammars and the supplemental entries; the registries are JSON files whose
    parsed contents are arguments here. *)

From Stdlib Require Import ZArith Lia String.
From Stdlib Require Import Init.Byte.
From stdpp Require Import prelude.
From S2P Require Import Prelude Scram Text Fsm Grammar Civil.

Local Open Scope Z_scope.
Local Open Scope list_scope.

(** ** Ordered sets: [BTreeSet<String>] as its ordered elements *)

Definition bytes_eqb (a b : bytes) : bool := match bytes_cmp a b with Eq => true | _ => false end.

Definition set_contains (x : bytes) (s : list bytes) : bool := existsb (bytes_eqb x) s.

(** [insert]: also whether the value was new. *)
Fixpoint set_insert (x : bytes) (s : list bytes) : bool * list bytes :=
  match s with
  | [] => (true, [x])
  | y :: s' =>
      match bytes_cmp x y with
      | Lt => (true, x :: s)
      | Eq => (false, s)
      | Gt => let (new, s') := set_insert x s' in (new, y :: s')
      end
  end.
Definition set_union (s t : list bytes) : list bytes := foldr (fun x s => (set_insert x s).2) s t.
Definition set_difference (s t : list bytes) : list bytes := List.filter (fun x => negb (set_contains x t)) s.
Definition set_intersection (s t : list bytes) : list bytes := List.filter (fun x => set_contains x t) s.
Definition is_subset (s t : list bytes) : bool := forallb (fun x => set_contains x t) s.

(** ** Registries *)

Record GeneratedSnapshot : Type := mkSnapshot { snapshot_schema : Z (* u32 *); snapshot_ids : list bytes }.
Record SupplementalEntry : Type := mkEntry { entry_id : bytes; entry_category : bytes; entry_description : bytes }.
Record SupplementalCatalogue : Type := mkSupplemental { supplemental_schema : Z; supplemental_entries : list SupplementalEntry }.

Inductive MigrationKind : Type := Rename | Split | Merge | Retire.
Record Migration : Type := mkMigration {
  migration_id : bytes; migration_kind : MigrationKind; migration_from : list bytes; migration_to : list bytes;
  migration_reason : bytes; migration_review : bytes
}.
Record MigrationRegistry : Type := mkMigrations { migrations_schema : Z; migrations : list Migration }.

Record Exemption : Type := mkExemption {
  exemption_id : bytes; exemption_reason : bytes; postgres_versions : list bytes; scripted_coverage : option bytes;
  owner : bytes; reviewed_by : bytes; exemption_review : bytes; expires_on : bytes
}.
Record ExemptionRegistry : Type := mkExemptions { exemptions_schema : Z; exemptions : list Exemption }.

Record ReviewedDispositionRegistry : Type := mkReviewed {
  reviewed_schema : Z; generated_real_postgres : list bytes; generated_indirect_evidence : bytes;
  supplemental_real_postgres : list bytes; supplemental_scripted : list bytes; supplemental_indirect : list bytes
}.

Record EvidenceCoverage : Type := mkCoverage {
  real_postgres : list bytes; scripted : list bytes; indirect : list bytes; exempted : list bytes
}.

(** The checked-in files. *)
Record Registries : Type := mkRegistries {
  GENERATED_SNAPSHOT : GeneratedSnapshot; CATALOGUE_LOCK : GeneratedSnapshot; SUPPLEMENTAL : SupplementalCatalogue;
  MIGRATIONS : MigrationRegistry; EXEMPTIONS : ExemptionRegistry; DISPOSITIONS : ReviewedDispositionRegistry
}.

Inductive DispositionKind : Type := RealPostgres | Scripted | Indirect | Exempted.
Record Disposition : Type := mkDisposition { disposition_id : bytes; disposition_kind : DispositionKind; disposition_evidence : bytes }.

Record Authority : Type := mkAuthority {
  generated : list bytes; supplemental : list bytes; all : list bytes; authority_exemptions : list Exemption
}.

Record CatalogueResult : Type := mkCatalogueResult {
  generated_entries : Z; supplemental_entries_count : Z; catalogue_entries : Z; disposed_entries : Z; missing_entries : Z;
  dispositions : list Disposition; missing : list bytes; success : bool
}.

(** ** Loading *)

Fixpoint unique_loop (label : bytes) (values seen : list bytes) : result (list bytes) bytes :=
  match values with
  | [] => Ok seen
  | value :: values =>
      let (new, seen') := set_insert value seen in
      if is_blank value || negb new then Err (label ++ str " contains an empty or duplicate ID: " ++ value)
      else unique_loop label values seen'
  end.
Definition unique (values : list bytes) (label : bytes) : result (list bytes) bytes := unique_loop label values [].

(** [extend!] of each grammar. *)
Definition transition_ids {I E} (p : Protocol I E) : list bytes := map (fun t => str (id t)) (TRANSITIONS p).
Definition generated_ids : list bytes :=
  set_union [] (transition_ids frontend ++ transition_ids backend ++ transition_ids pre_startup ++
                transition_ids server_pre_startup ++ transition_ids authentication ++ transition_ids server_authentication).

Definition cardinality_ok (m : Migration) : bool :=
  match migration_kind m, migration_from m, migration_to m with
  | Rename, [_], [_] => true
  | Split, [_], _ :: _ :: _ => true
  | Merge, _ :: _ :: _, [_] => true
  | Retire, _ :: _, [] => true
  | _, _, _ => false
  end.

(** The loop over the sources (or destinations) of a migration. *)
Fixpoint insert_all (known : list bytes) (error : bytes -> bytes) (ids seen : list bytes) : result (list bytes) bytes :=
  match ids with
  | [] => Ok seen
  | id :: ids =>
      if negb (set_contains id known) then Err (error id)
      else let (new, seen) := set_insert id seen in
           if negb new then Err (error id) else insert_all known error ids seen
  end.

Fixpoint migrations_loop (previous current : list bytes) (ms : list Migration) (ids migrated_from migrated_to : list bytes)
    : result (list bytes) bytes :=
  match ms with
  | [] => Ok migrated_from
  | m :: ms =>
      let (new, ids) := set_insert (migration_id m) ids in
      if negb new || is_blank (migration_reason m) || is_blank (migration_review m)
      then Err (str "invalid or duplicate coverage migration " ++ migration_id m)
      else if negb (cardinality_ok m) then Err (str "coverage migration " ++ migration_id m ++ str " has invalid cardinality")
      else
        let? migrated_from := insert_all previous
          (fun id => str "coverage migration " ++ migration_id m ++ str " has unknown or duplicate source " ++ id)
          (migration_from m) migrated_from in
        let? migrated_to := insert_all current
          (fun id => str "coverage migration " ++ migration_id m ++ str " has unknown or duplicate destination " ++ id)
          (migration_to m) migrated_to in
        migrations_loop previous current ms ids migrated_from migrated_to
  end.

Definition validate_migrations (previous current : list bytes) (ms : list Migration) : result unit bytes :=
  let? migrated_from := migrations_loop previous current ms [] [] [] in
  let removed := set_difference previous current in
  match set_difference removed migrated_from with
  | _ :: _ as unmigrated => Err (str "unmigrated coverage IDs: " ++ join (str ", ") unmigrated)
  | [] =>
      match set_difference migrated_from removed with
      | _ :: _ as stale => Err (str "migration sources remain current: " ++ join (str ", ") stale)
      | [] => Ok tt
      end
  end.

Definition exemption_incomplete (e : Exemption) : bool :=
  is_blank (exemption_reason e) || match postgres_versions e with [] => true | _ => false end ||
  existsb is_blank (postgres_versions e) || is_blank (owner e) || is_blank (reviewed_by e) || is_blank (exemption_review e).

Fixpoint exemptions_loop (catalogue : list bytes) (es : list Exemption) (as_of : bytes) (ids : list bytes) : result unit bytes :=
  match es with
  | [] => Ok tt
  | e :: es =>
      let? _ := validate_date (expires_on e) in
      if negb (set_contains (exemption_id e) catalogue) then Err (str "exemption has unknown coverage ID " ++ exemption_id e)
      else
        let (new, ids) := set_insert (exemption_id e) ids in
        if negb new then Err (str "duplicate exemption for " ++ exemption_id e)
        else if match bytes_cmp (expires_on e) as_of with Lt => true | _ => false end
        then Err (str "expired exemption for " ++ exemption_id e)
        else if exemption_incomplete e
        then Err (str "exemption for " ++ exemption_id e ++ str " lacks required review metadata")
        else if match scripted_coverage e with Some value => negb (set_contains value catalogue) | None => false end
        then Err (str "exemption for " ++ exemption_id e ++ str " names unknown scripted coverage")
        else exemptions_loop catalogue es as_of ids
  end.
Definition validate_exemptions (catalogue : list bytes) (es : list Exemption) (as_of : bytes) : result unit bytes :=
  exemptions_loop catalogue es as_of [].

(** The closure over the supplemental entries, collected. *)
Fixpoint supplemental_ids (entries : list SupplementalEntry) : result (list bytes) bytes :=
  match entries with
  | [] => Ok []
  | entry :: entries =>
      if is_blank (entry_category entry) || is_blank (entry_description entry)
      then Err (str "supplemental entry " ++ entry_id entry ++ str " lacks metadata")
      else let? ids := supplemental_ids entries in Ok (entry_id entry :: ids)
  end.

Definition schema_versions (r : Registries) : list Z :=
  [snapshot_schema (GENERATED_SNAPSHOT r); snapshot_schema (CATALOGUE_LOCK r); supplemental_schema (SUPPLEMENTAL r);
   migrations_schema (MIGRATIONS r); exemptions_schema (EXEMPTIONS r)].

Definition load_authority (r : Registries) (as_of : bytes) : result Authority bytes :=
  let? _ := validate_date as_of in
  let generated := generated_ids in
  match List.find (fun v => negb (v =? 1)) (schema_versions r) with
  | Some version => Err (str "unsupported catalogue registry schema " ++ to_decimal version)
  | None =>
      let? snapshot := unique (snapshot_ids (GENERATED_SNAPSHOT r)) (str "generated catalogue snapshot") in
      let? ids := supplemental_ids (supplemental_entries (SUPPLEMENTAL r)) in
      let? supplemental := unique ids (str "supplemental catalogue") in
      match set_intersection generated supplemental with
      | duplicate :: _ => Err (str "catalogue ID " ++ duplicate ++ str " is both generated and supplemental")
      | [] =>
          let all := set_union generated supplemental in
          let? locked := unique (snapshot_ids (CATALOGUE_LOCK r)) (str "catalogue lock") in
          if negb (is_subset snapshot locked)
          then Err (str "generated snapshot contains IDs absent from the catalogue lock")
          else
            let? _ := validate_migrations locked all (migrations (MIGRATIONS r)) in
            let? _ := validate_exemptions all (exemptions (EXEMPTIONS r)) as_of in
            Ok (mkAuthority generated supplemental all (exemptions (EXEMPTIONS r)))
      end
  end.

(** ** Dispositions *)

(** [BTreeMap<String, Disposition>] in key order; each value carries its key. *)
Definition contains_key (id : bytes) (m : list Disposition) : bool := existsb (fun d => bytes_eqb id (disposition_id d)) m.
Fixpoint map_insert (d : Disposition) (m : list Disposition) : list Disposition :=
  match m with
  | [] => [d]
  | e :: m' =>
      match bytes_cmp (disposition_id d) (disposition_id e) with
      | Lt => d :: m
      | Eq => d :: m'
      | Gt => e :: map_insert d m'
      end
  end.

Definition insert_disposition (catalogue : list bytes) (id : bytes) (kind : DispositionKind) (evidence : bytes)
    (m : list Disposition) : result (list Disposition) bytes :=
  if negb (set_contains id catalogue) then Err (str "unknown coverage ID: " ++ id)
  else if contains_key id m then Err (str "duplicate coverage disposition: " ++ id)
  else Ok (map_insert (mkDisposition id kind evidence) m).

(** A loop of insertions. *)
Fixpoint insert_dispositions (catalogue : list bytes) (ds : list Disposition) (m : list Disposition)
    : result (list Disposition) bytes :=
  match ds with
  | [] => Ok m
  | d :: ds =>
      let? m := insert_disposition catalogue (disposition_id d) (disposition_kind d) (disposition_evidence d) m in
      insert_dispositions catalogue ds m
  end.

Definition add_evidence (catalogue : list bytes) (coverage : EvidenceCoverage) (source : bytes) (m : list Disposition)
    : result (list Disposition) bytes :=
  match exempted coverage with
  | _ :: _ => Err (str "artifact exemptions are not authoritative; use the reviewed exemption registry")
  | [] =>
      let? m := insert_dispositions catalogue (map (fun id => mkDisposition id RealPostgres source) (real_postgres coverage)) m in
      let? m := insert_dispositions catalogue (map (fun id => mkDisposition id Scripted source) (scripted coverage)) m in
      insert_dispositions catalogue (map (fun id => mkDisposition id Indirect source) (indirect coverage)) m
  end.

Definition reviewed_generated (registry : ReviewedDispositionRegistry) (generated_real snapshot ids : list bytes) : list Disposition :=
  map (fun id =>
         if set_contains id generated_real
         then mkDisposition id RealPostgres (str "conformance smoke artifact through public Intermediary and PostgreSQL 14-18")
         else mkDisposition id Indirect (generated_indirect_evidence registry))
    (List.filter (fun id => set_contains id snapshot) ids).

(** One turn of the loop over the three supplemental lists. *)
Definition add_supplemental (a : Authority) (kind : DispositionKind) (ids : list bytes) (evidence : bytes)
    (m : list Disposition) : result (list Disposition) bytes :=
  let? ids := unique ids (str "supplemental dispositions") in
  if negb (is_subset ids (supplemental a)) then Err (str "supplemental dispositions contain an unknown or generated ID")
  else insert_dispositions (all a) (map (fun id => mkDisposition id kind evidence) ids) m.

Definition add_reviewed_dispositions (r : Registries) (a : Authority) (m : list Disposition)
    : result (list Disposition) bytes :=
  let registry := DISPOSITIONS r in
  if negb (reviewed_schema registry =? 1)
  then Err (str "unsupported disposition registry schema " ++ to_decimal (reviewed_schema registry))
  else
    let? generated_real := unique (generated_real_postgres registry) (str "generated real PostgreSQL dispositions") in
    if negb (is_subset generated_real (generated a))
    then Err (str "generated real PostgreSQL dispositions contain an unknown ID")
    else if is_blank (generated_indirect_evidence registry)
    then Err (str "generated indirect dispositions lack evidence metadata")
    else
      let? snapshot := unique (snapshot_ids (GENERATED_SNAPSHOT r)) (str "generated catalogue snapshot") in
      let? m := insert_dispositions (all a) (reviewed_generated registry generated_real snapshot (generated a)) m in
      let? m := add_supplemental a RealPostgres (supplemental_real_postgres registry) (str "real PostgreSQL profile artifact") m in
      let? m := add_supplemental a Scripted (supplemental_scripted registry) (str "bounded scripted public-facade profile artifact") m in
      add_supplemental a Indirect (supplemental_indirect registry)
        (str "public authentication policy test proves PLUS-only rejection; client credentials do not yet provide channel binding") m.

Definition missing_ids (catalogue : list bytes) (m : list Disposition) : list bytes :=
  List.filter (fun id => negb (contains_key id m)) catalogue.

(** The loop over the input artifacts: file name and parsed coverage. *)
Fixpoint add_inputs (catalogue : list bytes) (inputs : list (bytes * EvidenceCoverage)) (m : list Disposition)
    : result (list Disposition) bytes :=
  match inputs with
  | [] => Ok m
  | (source, coverage) :: inputs => let? m := add_evidence catalogue coverage source m in add_inputs catalogue inputs m
  end.

Definition exemption_disposition (e : Exemption) : Disposition :=
  mkDisposition (exemption_id e) Exempted (str "reviewed exemption " ++ exemption_review e ++ str " expiring " ++ expires_on e).

(** [run] up to the result it writes. *)
Definition audit (r : Registries) (as_of : bytes) (approved : bool) (inputs : list (bytes * EvidenceCoverage))
    : result CatalogueResult bytes :=
  let? a := load_authority r as_of in
  let? m := if approved then add_reviewed_dispositions r a [] else Ok [] in
  let? m := add_inputs (all a) inputs m in
  let? m := insert_dispositions (all a) (map exemption_disposition (authority_exemptions a)) m in
  let missing := missing_ids (all a) m in
  Ok (mkCatalogueResult (len (generated a)) (len (supplemental a)) (len (all a)) (len m) (len missing) m missing
        match missing with [] => true | _ => false end).

(** What [run] returns after it has written the result. *)
Definition run (r : Registries) (as_of : bytes) (approved : bool) (inputs : list (bytes * EvidenceCoverage)) : result unit bytes :=
  let? res := audit r as_of approved inputs in
  if success res then Ok tt else Err (str "catalogue has " ++ to_decimal (missing_entries res) ++ str " missing entries").
