(* ===== verification/CatalogueSpec.v ===== *)
(** What the catalogue audit guarantees: migrations account for exactly the removed
    identifiers, every entry has one disposition or is reported missing, and
    exemptions come from the reviewed registry only. *)

From Stdlib Require Import ZArith Lia String.
From Stdlib Require Import Init.Byte.
From stdpp Require Import prelude sorting.
From S2P Require Import Prelude OrdMap Scram Text Fsm Grammar Civil Catalogue.

Local Open Scope Z_scope.
Local Open Scope list_scope.

(** ** Ordered sets *)

Lemma bytes_eqb_eq a b : bytes_eqb a b = true <-> a = b.
Proof. rewrite <- bytes_cmp_eq. unfold bytes_eqb. now destruct (bytes_cmp a b). Qed.

Lemma existsb_key {A} (key : A -> bytes) x l : existsb (fun y => bytes_eqb x (key y)) l = true <-> x ∈ map key l.
Proof.
  rewrite existsb_exists, list_elem_of_fmap. split; intros (y & H1 & H2); exists y; rewrite bytes_eqb_eq, <- ?list_elem_of_In in *; tauto.
Qed.
Lemma set_contains_spec x s : set_contains x s = true <-> x ∈ s.
Proof. unfold set_contains. rewrite (existsb_key (fun y => y)), map_id. done. Qed.
Lemma contains_key_spec x m : contains_key x m = true <-> x ∈ map disposition_id m.
Proof. apply existsb_key. Qed.

Definition ordered (s : list bytes) : Prop := StronglySorted bytes_lt s.

Lemma ordered_NoDup s : ordered s -> NoDup s.
Proof.
  induction 1 as [|x s Hs IH Hx]; constructor; [|done]. intros Hin. rewrite Forall_forall in Hx.
  exact (bytes_lt_irrefl x (Hx x Hin)).
Qed.

Lemma set_insert_spec x s : ordered s ->
  let (new, s') := set_insert x s in
  ordered s' /\ (forall y, y ∈ s' <-> y = x \/ y ∈ s) /\ (new = true <-> x ∉ s) /\ (new = true -> s' ≡ₚ x :: s).
Proof.
  induction 1 as [|y s Hs IH Hy]; simpl.
  - split; [repeat constructor|]. split; [intros y; set_solver|]. split; [set_solver|done].
  - destruct (bytes_cmp x y) eqn:E.
    + apply bytes_cmp_eq in E as ->. split; [now constructor|]. split; [set_solver|]. split; [set_solver|done].
    + assert (Forall (bytes_lt x) s) as Hxs by (eapply Forall_impl; [exact Hy|]; intros z; now apply bytes_lt_trans).
      split; [now repeat constructor|]. split; [set_solver|]. split; [|done]. split; [|done]. intros _ Hin.
      rewrite elem_of_cons in Hin. destruct Hin as [->|Hin]; [now apply bytes_lt_irrefl in E|].
      rewrite Forall_forall in Hxs. exact (bytes_lt_irrefl x (Hxs x Hin)).
    + destruct (set_insert x s) as [new s']. destruct IH as (IH1 & IH2 & IH3 & IH4).
      assert (bytes_lt y x) as Hyx by (unfold bytes_lt; rewrite bytes_cmp_antisym, E; done).
      split; [constructor; [done|]; apply Forall_forall; intros z Hz; apply IH2 in Hz as [->|Hz]; [done|]; rewrite Forall_forall in Hy; auto|].
      split; [intros z; rewrite !elem_of_cons, IH2; tauto|]. split.
      * rewrite IH3, not_elem_of_cons. split; [|tauto]. intros Hn. split; [|done]. intros ->. now apply bytes_lt_irrefl in Hyx.
      * intros ->. rewrite (IH4 eq_refl). apply Permutation_swap.
Qed.

Lemma insert_all_spec known error ids : forall seen, ordered seen ->
  match insert_all known error ids seen with
  | Ok seen' => ordered seen' /\ seen' ≡ₚ ids ++ seen /\ Forall (.∈ known) ids /\ NoDup (ids ++ seen)
  | Err _ => ~ (Forall (.∈ known) ids /\ NoDup (ids ++ seen))
  | Panic => False
  end.
Proof.
  induction ids as [|x ids IH]; intros seen Hs; simpl.
  - split_and!; try done. now apply ordered_NoDup.
  - destruct (set_contains x known) eqn:Ek; simpl.
    2: { intros [Hf _]. apply Forall_cons in Hf as [Hx _]. apply set_contains_spec in Hx. congruence. }
    apply set_contains_spec in Ek. pose proof (set_insert_spec x seen Hs) as Hi.
    destruct (set_insert x seen) as [new seen']. destruct Hi as (Ho & Hin & Hnew & Hperm). destruct new; simpl.
    + specialize (IH seen' Ho). destruct (insert_all known error ids seen') as [s2| |]; [| |done].
      * destruct IH as (H1 & H2 & H3 & H4). rewrite (Hperm eq_refl) in H2, H4. rewrite <- Permutation_middle in H2, H4.
        split_and!; try done. now constructor.
      * intros [Hf Hnd]. apply IH. apply Forall_cons in Hf as [_ Hf]. split; [done|].
        rewrite (Hperm eq_refl), <- Permutation_middle. done.
    + intros [_ Hnd]. apply NoDup_cons in Hnd as [Hx _]. destruct (decide (x ∈ seen)) as [Hxs|Hxs]; [set_solver|].
      apply Hnew in Hxs. done.
Qed.

(** ** Migrations *)

Definition migration_reviewed (m : Migration) : Prop :=
  is_blank (migration_reason m) = false /\ is_blank (migration_review m) = false /\ cardinality_ok m = true.

(** What the loop requires of the migrations, given the identifiers it has seen. *)
Definition migrations_admissible (previous current : list bytes) (ms : list Migration) (ids from to : list bytes) : Prop :=
  NoDup (map migration_id ms ++ ids) /\ Forall migration_reviewed ms /\
  Forall (.∈ previous) (ms ≫= migration_from) /\ NoDup ((ms ≫= migration_from) ++ from) /\
  Forall (.∈ current) (ms ≫= migration_to) /\ NoDup ((ms ≫= migration_to) ++ to).

Lemma NoDup_app_first {A} (l k s : list A) : NoDup ((l ++ k) ++ s) -> NoDup (l ++ s).
Proof.
  rewrite (Permutation_app_comm l k), <- app_assoc. intros H. now apply NoDup_app in H as (_ & _ & H).
Qed.

Lemma migrations_admissible_cons previous current m ms ids from to ids' from' to' :
  ids' ≡ₚ migration_id m :: ids -> from' ≡ₚ migration_from m ++ from -> to' ≡ₚ migration_to m ++ to ->
  migration_reviewed m -> Forall (.∈ previous) (migration_from m) -> Forall (.∈ current) (migration_to m) ->
  migrations_admissible previous current (m :: ms) ids from to <-> migrations_admissible previous current ms ids' from' to'.
Proof.
  intros Hi Hf Ht Hr Hp Hc. unfold migrations_admissible. rewrite Hi, Hf, Ht, <- Permutation_middle, !bind_cons, Forall_cons, !Forall_app.
  simpl. rewrite (Permutation_app_comm (migration_from m)), (Permutation_app_comm (migration_to m)), <- !app_assoc. tauto.
Qed.

Lemma migrations_loop_spec previous current ms : forall ids from to, ordered ids -> ordered from -> ordered to ->
  match migrations_loop previous current ms ids from to with
  | Ok from' => migrations_admissible previous current ms ids from to /\ ordered from' /\ from' ≡ₚ (ms ≫= migration_from) ++ from
  | Err _ => ~ migrations_admissible previous current ms ids from to
  | Panic => False
  end.
Proof.
  induction ms as [|m ms IH]; intros ids from to Hids Hfrom Hto; simpl.
  { unfold migrations_admissible. split_and!; simpl; auto using ordered_NoDup. }
  pose proof (set_insert_spec (migration_id m) ids Hids) as Hi. destruct (set_insert (migration_id m) ids) as [new ids'].
  destruct Hi as (Hids' & _ & Hnew & Hperm).
  destruct (negb new || is_blank (migration_reason m) || is_blank (migration_review m)) eqn:Ebad.
  { intros (Hnd & Hrev & _). apply Forall_cons in Hrev as [(H1 & H2 & _) _]. rewrite H1, H2, !orb_false_r in Ebad.
    apply NoDup_cons in Hnd as [Hx _]. destruct new; [done|]. assert (migration_id m ∉ ids) as Hni by set_solver.
    now apply Hnew in Hni. }
  rewrite !orb_false_iff, negb_false_iff in Ebad. destruct Ebad as [[-> Hr1] Hr2].
  destruct (cardinality_ok m) eqn:Ec; simpl.
  2: { intros (_ & Hrev & _). apply Forall_cons in Hrev as [(_ & _ & H3) _]. congruence. }
  match goal with |- context [insert_all previous ?e (migration_from m) from] =>
    pose proof (insert_all_spec previous e (migration_from m) from Hfrom) as Hf; destruct (insert_all previous e (migration_from m) from) as [from'| |] end;
    [| |done].
  2: { intros (_ & _ & Hp & Hnd & _). apply Hf. rewrite bind_cons in Hp, Hnd. apply Forall_app in Hp as [Hp _].
       split; [done|]. exact (NoDup_app_first _ _ _ Hnd). }
  destruct Hf as (Hofrom & Hpfrom & Hkfrom & Hnfrom). simpl.
  match goal with |- context [insert_all current ?e (migration_to m) to] =>
    pose proof (insert_all_spec current e (migration_to m) to Hto) as Ht; destruct (insert_all current e (migration_to m) to) as [to'| |] end;
    [| |done].
  2: { intros (_ & _ & _ & _ & Hp & Hnd). apply Ht. rewrite bind_cons in Hp, Hnd. apply Forall_app in Hp as [Hp _].
       split; [done|]. exact (NoDup_app_first _ _ _ Hnd). }
  destruct Ht as (Hoto & Hpto & Hkto & Hnto). simpl. specialize (IH ids' from' to' Hids' Hofrom Hoto).
  pose proof (migrations_admissible_cons previous current m ms ids from to ids' from' to' (Hperm eq_refl) Hpfrom Hpto
    (conj Hr1 (conj Hr2 Ec)) Hkfrom Hkto) as Hiff.
  destruct (migrations_loop previous current ms ids' from' to'); [|now rewrite Hiff|done]. destruct IH as (H1 & H2 & H3).
  split_and!; [now apply Hiff|done|]. rewrite H3, Hpfrom, !app_assoc, (Permutation_app_comm (mbind _ _)). done.
Qed.

Lemma set_difference_nil s t : set_difference s t = [] <-> forall x, x ∈ s -> x ∈ t.
Proof.
  unfold set_difference. induction s as [|x s IH]; simpl; [set_solver|].
  destruct (set_contains x t) eqn:E; simpl.
  - apply set_contains_spec in E. rewrite IH. set_solver.
  - split; [done|]. intros H. specialize (H x (list_elem_of_here _ _)). apply set_contains_spec in H. congruence.
Qed.
Lemma elem_of_set_difference x s t : x ∈ set_difference s t <-> x ∈ s /\ x ∉ t.
Proof.
  unfold set_difference. rewrite list_elem_of_In, filter_In, <- list_elem_of_In, negb_true_iff, <- not_true_iff_false, set_contains_spec. done.
Qed.

(** The migration registry is accepted exactly when it accounts for the removed
    identifiers: the migrations have distinct identifiers, reviews and the cardinality
    of their kind; no identifier is migrated twice; the sources are the identifiers of
    the lock that the catalogue no longer has, all of them and no other; and the
    destinations are identifiers of the catalogue. *)
Theorem migrations_exact previous current ms :
  validate_migrations previous current ms = Ok tt <->
    NoDup (map migration_id ms) /\ Forall migration_reviewed ms /\
    NoDup (ms ≫= migration_from) /\ (forall x, x ∈ ms ≫= migration_from <-> x ∈ previous /\ x ∉ current) /\
    NoDup (ms ≫= migration_to) /\ (forall x, x ∈ ms ≫= migration_to -> x ∈ current).
Proof.
  unfold validate_migrations.
  pose proof (migrations_loop_spec previous current ms [] [] [] ltac:(constructor) ltac:(constructor) ltac:(constructor)) as H.
  unfold migrations_admissible in H. rewrite !app_nil_r in H.
  destruct (migrations_loop previous current ms [] [] []) as [from|e|]; [|simpl; split; [done|intros (H1 & H2 & H3 & H4 & H5 & H6)]|done].
  2: { exfalso. apply H. split_and!; try done; apply Forall_forall; [|done]. intros x Hx. now apply H4 in Hx as [? _]. }
  destruct H as ((H1 & H2 & H3 & H4 & H5 & H6) & _ & Hp). simpl.
  assert (forall x, x ∈ from <-> x ∈ ms ≫= migration_from) as Hin by (intros x; now rewrite Hp).
  destruct (set_difference (set_difference previous current) from) eqn:E1.
  - rewrite set_difference_nil in E1. destruct (set_difference from (set_difference previous current)) eqn:E2.
    + rewrite set_difference_nil in E2. split; [intros _|done]. split_and!; try done; [|now apply Forall_forall].
      intros x. rewrite <- Hin, <- elem_of_set_difference. split; auto.
    + split; [done|]. intros (_ & _ & _ & Hx & _).
      assert (set_difference from (set_difference previous current) = []) as Hd; [|congruence].
      apply set_difference_nil. intros x. now rewrite elem_of_set_difference, Hin, Hx.
  - split; [done|]. intros (_ & _ & _ & Hx & _).
    assert (set_difference (set_difference previous current) from = []) as Hd; [|congruence].
    apply set_difference_nil. intros x. now rewrite elem_of_set_difference, Hin, Hx.
Qed.

(** ** Dispositions *)

Definition keys (m : list Disposition) : list bytes := map disposition_id m.

Lemma keys_map_insert d m : keys (map_insert d m) = (set_insert (disposition_id d) (keys m)).2.
Proof.
  induction m as [|e m IH]; simpl; [done|].
  destruct (bytes_cmp (disposition_id d) (disposition_id e)) eqn:E; simpl; [|done|].
  - apply bytes_cmp_eq in E. now rewrite E.
  - rewrite IH. now destruct (set_insert _ _).
Qed.

Lemma map_insert_new d m : contains_key (disposition_id d) m = false -> map_insert d m ≡ₚ d :: m.
Proof.
  induction m as [|e m IH]; simpl; [done|]. unfold bytes_eqb. intros H. apply orb_false_iff in H as [He Hm].
  destruct (bytes_cmp (disposition_id d) (disposition_id e)); [done..|]. rewrite (IH Hm). apply Permutation_swap.
Qed.

(** [m'] extends [m] by exactly [ds], each of the catalogue and none twice. *)
Definition extends (catalogue : list bytes) (ds m m' : list Disposition) : Prop :=
  m' ≡ₚ ds ++ m /\ (ordered (keys m) -> ordered (keys m')) /\ (forall x, x ∈ keys ds -> x ∈ catalogue).

Lemma extends_nil catalogue m : extends catalogue [] m m.
Proof. split_and!; simpl; [done..|]. intros x Hx. now apply elem_of_nil in Hx. Qed.

Lemma extends_trans catalogue ds1 ds2 m m1 m2 :
  extends catalogue ds1 m m1 -> extends catalogue ds2 m1 m2 -> extends catalogue (ds1 ++ ds2) m m2.
Proof.
  intros (P1 & O1 & C1) (P2 & O2 & C2). split_and!; [| auto |].
  - rewrite P2, P1, !app_assoc. f_equiv. apply Permutation_app_comm.
  - intros x. unfold keys in *. rewrite map_app, elem_of_app. intros [H|H]; auto.
Qed.

Lemma insert_disposition_extends catalogue d m m' :
  insert_disposition catalogue (disposition_id d) (disposition_kind d) (disposition_evidence d) m = Ok m' ->
  extends catalogue [d] m m'.
Proof.
  unfold insert_disposition. destruct (set_contains (disposition_id d) catalogue) eqn:Ec; [|done].
  destruct (contains_key (disposition_id d) m) eqn:Ek; [done|]. intros [= <-].
  replace (mkDisposition _ _ _) with d by now destruct d. split_and!.
  - now apply map_insert_new.
  - intros Ho. rewrite keys_map_insert. pose proof (set_insert_spec (disposition_id d) (keys m) Ho) as Hs.
    destruct (set_insert _ _). exact (proj1 Hs).
  - intros x Hx. apply list_elem_of_singleton in Hx as ->. now apply set_contains_spec.
Qed.

Lemma insert_dispositions_extends catalogue ds : forall m m',
  insert_dispositions catalogue ds m = Ok m' -> extends catalogue ds m m'.
Proof.
  induction ds as [|d ds IH]; intros m m'; simpl; [intros [= <-]; apply extends_nil|].
  destruct (insert_disposition _ _ _ _ m) as [m1| |] eqn:E; simpl; [|done..]. intros H.
  apply insert_disposition_extends in E. exact (extends_trans _ [d] ds _ _ _ E (IH _ _ H)).
Qed.

(** What an input artifact contributes. *)
Definition artifact_dispositions (input : bytes * EvidenceCoverage) : list Disposition :=
  map (fun id => mkDisposition id RealPostgres input.1) (real_postgres input.2) ++
  map (fun id => mkDisposition id Scripted input.1) (scripted input.2) ++
  map (fun id => mkDisposition id Indirect input.1) (indirect input.2).

Lemma add_evidence_extends catalogue coverage source m m' :
  add_evidence catalogue coverage source m = Ok m' ->
  exempted coverage = [] /\ extends catalogue (artifact_dispositions (source, coverage)) m m'.
Proof.
  unfold add_evidence. destruct (exempted coverage); [|done].
  destruct (insert_dispositions _ _ m) as [m1| |] eqn:E1; simpl; [|done..].
  destruct (insert_dispositions _ _ m1) as [m2| |] eqn:E2; simpl; [|done..]. intros E3. split; [done|].
  apply insert_dispositions_extends in E1, E2, E3. eauto using extends_trans.
Qed.

Lemma add_inputs_extends catalogue inputs : forall m m', add_inputs catalogue inputs m = Ok m' ->
  Forall (fun input => exempted input.2 = []) inputs /\ extends catalogue (inputs ≫= artifact_dispositions) m m'.
Proof.
  induction inputs as [|[source coverage] inputs IH]; intros m m'; simpl.
  { intros [= <-]. split; [done|apply extends_nil]. }
  destruct (add_evidence _ _ _ m) as [m1| |] eqn:E; simpl; [|done..]. intros H.
  apply add_evidence_extends in E as [E1 E2]. apply IH in H as [H1 H2]. split; [now constructor|].
  exact (extends_trans _ _ _ _ _ _ E2 H2).
Qed.

(** *** The reviewed registry *)

Lemma unique_loop_elem label ids : forall seen out, ordered seen -> unique_loop label ids seen = Ok out ->
  forall x, x ∈ out <-> x ∈ ids \/ x ∈ seen.
Proof.
  induction ids as [|y ids IH]; intros seen out Hs Hu x; simpl in Hu.
  { injection Hu as <-. set_solver. }
  pose proof (set_insert_spec y seen Hs) as Hi. destruct (set_insert y seen) as [new seen']. destruct Hi as (Ho & Hin & _).
  destruct (_ || _); [done|]. rewrite (IH _ _ Ho Hu x), Hin. set_solver.
Qed.
Lemma unique_elem label ids out : unique ids label = Ok out -> forall x, x ∈ out <-> x ∈ ids.
Proof. intros Hu x. rewrite (unique_loop_elem _ _ [] _ ltac:(constructor) Hu). set_solver. Qed.

(** What the reviewed registry stands for. An identifier of the grammars that the
    snapshot lists is covered by real PostgreSQL when the registry says so, and
    indirectly, with the registry's evidence, when it does not; an identifier of a
    supplemental list is covered in the way of that list. Nothing is exempted. *)
Definition reviewed_disposition (r : Registries) (d : Disposition) : Prop :=
  let registry := DISPOSITIONS r in
  let id := disposition_id d in
  let covered kind evidence := disposition_kind d = kind /\ disposition_evidence d = evidence in
  (id ∈ generated_ids /\ id ∈ snapshot_ids (GENERATED_SNAPSHOT r) /\
     (id ∈ generated_real_postgres registry /\
        covered RealPostgres (str "conformance smoke artifact through public Intermediary and PostgreSQL 14-18") \/
      (id ∉ generated_real_postgres registry) /\ covered Indirect (generated_indirect_evidence registry))) \/
  (id ∈ supplemental_real_postgres registry /\ covered RealPostgres (str "real PostgreSQL profile artifact")) \/
  (id ∈ supplemental_scripted registry /\ covered Scripted (str "bounded scripted public-facade profile artifact")) \/
  (id ∈ supplemental_indirect registry /\ covered Indirect
     (str "public authentication policy test proves PLUS-only rejection; client credentials do not yet provide channel binding")).

Lemma reviewed_not_exempted r d : reviewed_disposition r d -> disposition_kind d <> Exempted.
Proof. unfold reviewed_disposition. naive_solver congruence. Qed.

Lemma add_supplemental_extends a kind ids evidence m m' :
  add_supplemental a kind ids evidence m = Ok m' ->
  exists ds, extends (all a) ds m m' /\
    forall d, d ∈ ds <-> disposition_id d ∈ ids /\ disposition_kind d = kind /\ disposition_evidence d = evidence.
Proof.
  unfold add_supplemental. destruct (unique ids _) as [ids'| |] eqn:Eu; simpl; [|done..]. destruct (is_subset ids' _); [|done].
  intros H. apply insert_dispositions_extends in H. eexists; split; [exact H|]. intros d. rewrite list_elem_of_fmap. split.
  - intros (x & -> & Hx). apply (unique_elem _ _ _ Eu) in Hx. done.
  - intros (Hx & Hk & He). exists (disposition_id d). destruct d as [id k e]. cbn in *. subst. split; [done|].
    now apply (unique_elem _ _ _ Eu).
Qed.

(** The identifiers of the grammars that the registry reviews. *)
Lemma reviewed_generated_elem registry real snapshot ids d :
  d ∈ reviewed_generated registry real snapshot ids <->
    disposition_id d ∈ ids /\ disposition_id d ∈ snapshot /\
    (disposition_id d ∈ real /\ disposition_kind d = RealPostgres /\
       disposition_evidence d = str "conformance smoke artifact through public Intermediary and PostgreSQL 14-18" \/
     (disposition_id d ∉ real) /\ disposition_kind d = Indirect /\ disposition_evidence d = generated_indirect_evidence registry).
Proof.
  unfold reviewed_generated. rewrite list_elem_of_fmap.
  assert (forall x, x ∈ List.filter (fun id => set_contains id snapshot) ids <-> x ∈ ids /\ x ∈ snapshot) as Hf.
  { intros x. rewrite list_elem_of_In, filter_In, <- list_elem_of_In, set_contains_spec. done. }
  split.
  - intros (x & -> & [H1 H2]%Hf). destruct (set_contains x real) eqn:E; cbn; split_and!; try done; [left|right].
    + now apply set_contains_spec in E.
    + split_and!; try done. rewrite <- set_contains_spec. congruence.
  - destruct d as [id k e]; cbn. intros (H1 & H2 & [(H3 & -> & ->)|(H3 & -> & ->)]); exists id; (split; [|now apply Hf]).
    + apply set_contains_spec in H3. now rewrite H3.
    + destruct (set_contains id real) eqn:E; [now apply set_contains_spec in E|done].
Qed.

Lemma add_reviewed_extends r a m m' : generated a = generated_ids -> add_reviewed_dispositions r a m = Ok m' ->
  exists ds, extends (all a) ds m m' /\ forall d, d ∈ ds <-> reviewed_disposition r d.
Proof.
  intros Hg. unfold add_reviewed_dispositions. destruct (reviewed_schema _ =? 1); [|done].
  destruct (unique (generated_real_postgres _) _) as [real| |] eqn:Er; simpl; [|done..]. destruct (is_subset real _); [|done].
  destruct (is_blank _); [done|]. destruct (unique (snapshot_ids _) _) as [snapshot| |] eqn:Es; simpl; [|done..].
  destruct (insert_dispositions _ _ m) as [m0| |] eqn:E0; simpl; [|done..].
  destruct (add_supplemental _ _ _ _ m0) as [m1| |] eqn:E1; simpl; [|done..].
  destruct (add_supplemental _ _ _ _ m1) as [m2| |] eqn:E2; simpl; [|done..]. intros E3.
  apply insert_dispositions_extends in E0. apply add_supplemental_extends in E1 as (d1 & E1 & K1), E2 as (d2 & E2 & K2), E3 as (d3 & E3 & K3).
  eexists. split; [eapply extends_trans, extends_trans, extends_trans; eassumption|]. intros d.
  rewrite !elem_of_app, K1, K2, K3, reviewed_generated_elem, Hg. unfold reviewed_disposition.
  rewrite (unique_elem _ _ _ Er), (unique_elem _ _ _ Es). done.
Qed.

(** ** Exemptions *)

Definition unexpired (as_of : bytes) (e : Exemption) : Prop :=
  bytes_cmp (expires_on e) as_of <> Lt /\ exemption_incomplete e = false.

Lemma exemptions_loop_ok catalogue as_of es : forall ids,
  exemptions_loop catalogue es as_of ids = Ok tt -> Forall (unexpired as_of) es.
Proof.
  induction es as [|e es IH]; intros ids; simpl; [done|].
  destruct (validate_date (expires_on e)); simpl; [|done..]. destruct (set_contains (exemption_id e) catalogue); simpl; [|done].
  destruct (set_insert (exemption_id e) ids) as [[] ids']; simpl; [|done].
  destruct (bytes_cmp (expires_on e) as_of) eqn:Ec; [|done|]; destruct (exemption_incomplete e) eqn:Ei; try done;
    (destruct (match scripted_coverage e with Some v => _ | None => false end); [done|]); intros H;
    (constructor; [split; [congruence|done]|eauto]).
Qed.

(** ** The audit *)

Lemma set_union_ordered s t : ordered s -> ordered (set_union s t).
Proof.
  intros Hs. induction t as [|x t IH]; simpl; [done|]. pose proof (set_insert_spec x _ IH) as H.
  destruct (set_insert x _). exact (proj1 H).
Qed.

Lemma generated_ids_ordered : ordered generated_ids.
Proof. apply set_union_ordered. constructor. Qed.

Lemma set_union_elem s t x : ordered s -> x ∈ set_union s t <-> x ∈ s \/ x ∈ t.
Proof.
  intros Hs. induction t as [|y t IH]; simpl; [set_solver|]. pose proof (set_insert_spec y _ (set_union_ordered s t Hs)) as H.
  unfold set_union in *. destruct (set_insert y _). destruct H as (_ & H & _). simpl. rewrite H, IH. set_solver.
Qed.

Lemma supplemental_ids_ok entries ids : supplemental_ids entries = Ok ids -> ids = map entry_id entries.
Proof.
  revert ids. induction entries as [|e entries IH]; intros ids; simpl; [now intros [= <-]|]. destruct (_ || _); [done|].
  destruct (supplemental_ids entries) as [l| |]; simpl; [|done..]. intros [= <-]. now rewrite (IH l eq_refl).
Qed.

Lemma load_authority_ok r as_of a : load_authority r as_of = Ok a ->
  generated a = generated_ids /\ ordered (all a) /\
  (forall x, x ∈ all a <-> x ∈ generated_ids \/ x ∈ map entry_id (supplemental_entries (SUPPLEMENTAL r))) /\
  authority_exemptions a = exemptions (EXEMPTIONS r) /\ Forall (unexpired as_of) (authority_exemptions a).
Proof.
  unfold load_authority. generalize generated_ids generated_ids_ordered. intros g Hg.
  destruct (List.find _ (schema_versions r)); (destruct (validate_date as_of); simpl; [|done..]); [done|].
  destruct (unique _ _); simpl; [|done..]. destruct (supplemental_ids _) as [sids| |] eqn:Esup; simpl; [|done..].
  apply supplemental_ids_ok in Esup. destruct (unique _ _) as [sup| |] eqn:Eu; simpl; [|done..].
  pose proof (unique_elem _ _ _ Eu) as Hsup. clear Eu. destruct (set_intersection _ _); [|done].
  destruct (unique _ _); simpl; [|done..]. destruct (is_subset _ _); simpl; [|done].
  destruct (validate_migrations _ _ _); simpl; [|done..]. unfold validate_exemptions.
  destruct (exemptions_loop _ _ _ _) as [[]| |] eqn:E; simpl; [|done..]. intros [= <-]; simpl.
  apply exemptions_loop_ok in E. split_and!; [done|now apply set_union_ordered| |done..].
  intros x. rewrite (set_union_elem _ _ _ Hg), Hsup, Esup. done.
Qed.

Lemma elem_of_missing x catalogue m : x ∈ missing_ids catalogue m <-> x ∈ catalogue /\ x ∉ keys m.
Proof.
  unfold missing_ids. rewrite list_elem_of_In, filter_In, <- list_elem_of_In, negb_true_iff, <- not_true_iff_false, contains_key_spec. done.
Qed.

Lemma missing_count catalogue m : NoDup catalogue -> NoDup (keys m) -> (forall x, x ∈ keys m -> x ∈ catalogue) ->
  len catalogue = len m + len (missing_ids catalogue m).
Proof.
  intros Hc Hm Hsub. assert (catalogue ≡ₚ keys m ++ missing_ids catalogue m) as Hp.
  { apply NoDup_Permutation; [done| |].
    - apply NoDup_app. split_and!; [done| |now apply NoDup_ListNoDup, List.NoDup_filter, NoDup_ListNoDup].
      intros x Hx H. apply elem_of_missing in H. tauto.
    - intros x. rewrite elem_of_app, elem_of_missing. destruct (decide (x ∈ keys m)); naive_solver. }
  apply Permutation_length in Hp. unfold len, keys in *. rewrite length_app, length_map in Hp. lia.
Qed.

(** C39: A completed audit accounts for every entry of the catalogue, which is every
    transition of the grammars and every supplemental entry. It lists the
    dispositions in identifier order, one per identifier at most: one for each
    registered exemption, those of the input artifacts and, when approved, exactly
    what the reviewed registry stands for (covered by real PostgreSQL only what the
    registry says is, the rest of the snapshot indirectly, the supplemental lists in
    their own ways), and nothing else. None of the artifacts claims an exemption, so
    whatever is exempted rests on a registered exemption with its review metadata that
    has not expired on the audit's date. Every entry is disposed or missing and not
    both, the counts add up, and the audit succeeds when nothing is missing. *)
Theorem audit_accounts r as_of approved inputs res : audit r as_of approved inputs = Ok res ->
  exists a reviewed,
    load_authority r as_of = Ok a /\
    (forall x, x ∈ all a <-> x ∈ generated_ids \/ x ∈ map entry_id (supplemental_entries (SUPPLEMENTAL r))) /\
    (forall d, d ∈ reviewed <-> approved = true /\ reviewed_disposition r d) /\
    dispositions res ≡ₚ map exemption_disposition (exemptions (EXEMPTIONS r)) ++ (inputs ≫= artifact_dispositions) ++ reviewed /\
    ordered (keys (dispositions res)) /\
    (forall d, d ∈ dispositions res -> disposition_kind d = Exempted ->
       exists e, e ∈ exemptions (EXEMPTIONS r) /\ d = exemption_disposition e /\ unexpired as_of e) /\
    (forall x, x ∈ all a <-> x ∈ keys (dispositions res) \/ x ∈ missing res) /\
    (forall x, x ∈ missing res -> x ∉ keys (dispositions res)) /\
    catalogue_entries res = disposed_entries res + missing_entries res /\
    (success res = true <-> missing_entries res = 0).
Proof.
  unfold audit. destruct (load_authority r as_of) as [a| |] eqn:Ea; simpl; [|done..].
  destruct (load_authority_ok _ _ _ Ea) as (Hgen & Hall & Hcat & Hex & Hun).
  destruct (if approved then _ else _) as [m0| |] eqn:E0; simpl; [|done..].
  destruct (add_inputs _ _ m0) as [m1| |] eqn:E1; simpl; [|done..].
  destruct (insert_dispositions _ _ m1) as [m2| |] eqn:E2; simpl; [|done..]. intros [= <-]; simpl.
  assert (exists ds, extends (all a) ds [] m0 /\ forall d, d ∈ ds <-> approved = true /\ reviewed_disposition r d) as (ds & X0 & A0).
  { destruct approved.
    - destruct (add_reviewed_extends _ _ _ _ Hgen E0) as (ds & ? & Hds). exists ds. split; [done|]. intros d. rewrite Hds. tauto.
    - injection E0 as <-. exists []. split; [apply extends_nil|]. intros d. split; [intros Hd; now apply elem_of_nil in Hd|]. now intros [? _]. }
  assert (Forall (fun d => disposition_kind d <> Exempted) ds) as K0
    by (apply Forall_forall; intros d [_ Hd]%A0; eapply reviewed_not_exempted; exact Hd).
  apply add_inputs_extends in E1 as [K1 X1]. apply insert_dispositions_extends in E2 as X2.
  pose proof (extends_trans _ _ _ _ _ _ (extends_trans _ _ _ _ _ _ X0 X1) X2) as (HP & HO & HC).
  specialize (HO ltac:(constructor)). rewrite app_nil_r in HP.
  assert (m2 ≡ₚ map exemption_disposition (exemptions (EXEMPTIONS r)) ++ (inputs ≫= artifact_dispositions) ++ ds) as HP'.
  { rewrite HP, Hex, Permutation_app_comm. f_equiv. apply Permutation_app_comm. }
  assert (forall x, x ∈ keys m2 -> x ∈ all a) as Hsub by (intros x; unfold keys; rewrite HP; apply HC).
  exists a, ds. split; [reflexivity|]. split; [exact Hcat|]. split; [exact A0|]. split; [exact HP'|].
  split; [exact HO|]. clear Hcat A0 Hgen Ea E0. split_and!.
  - intros d Hd Hk. rewrite HP', !elem_of_app in Hd. destruct Hd as [Hd|[Hd|Hd]].
    + apply list_elem_of_fmap in Hd as (e & -> & He). exists e. split_and!; [done..|]. rewrite Hex, Forall_forall in Hun. auto.
    + exfalso. apply list_elem_of_bind in Hd as (i & Hd & _). unfold artifact_dispositions in Hd.
      rewrite !elem_of_app, !list_elem_of_fmap in Hd. naive_solver.
    + rewrite Forall_forall in K0. now apply K0 in Hd.
  - intros x. rewrite elem_of_missing. destruct (decide (x ∈ keys m2)); naive_solver.
  - intros x Hx. apply elem_of_missing in Hx. tauto.
  - apply missing_count; auto using ordered_NoDup.
  - unfold len. destruct (missing_ids (all a) m2); simpl; split; try done.
Qed.

(** Three supplemental entries, covered by an artifact, by the reviewed registry and by
    an exemption; one transition of the grammars covered by real PostgreSQL and another
    indirectly. *)
Definition sample_registries : Registries :=
  mkRegistries (mkSnapshot 1 [str "frontend.Ready.Query"; str "frontend.Ready.Terminate"])
    (mkSnapshot 1 [str "retired"; str "frontend.Ready.Query"; str "frontend.Ready.Terminate"])
    (mkSupplemental 1 [mkEntry (str "sup.covered") (str "c") (str "d"); mkEntry (str "sup.exempt") (str "c") (str "d");
       mkEntry (str "sup.scripted") (str "c") (str "d")])
    (mkMigrations 1 [mkMigration (str "m1") Retire [str "retired"] [] (str "gone") (str "reviewed")])
    (mkExemptions 1 [mkExemption (str "sup.exempt") (str "why") [str "16"] None (str "owner") (str "reviewer") (str "R-1") (str "2030-01-01")])
    (mkReviewed 1 [str "frontend.Ready.Query"] (str "unit tests") [] [str "sup.scripted"] []).
Definition sample_input : bytes * EvidenceCoverage := (str "artifact.json", mkCoverage [str "sup.covered"] [] [] []).

Lemma ok_inv {A E} (x : result A E) (P : A -> bool) :
  match x with Ok a => P a | _ => false end = true -> exists a, x = Ok a /\ P a = true.
Proof. destruct x; [|done..]. eauto. Qed.

Lemma sample_audit : exists res, audit sample_registries (str "2026-01-01") true [sample_input] = Ok res /\
  (disposed_entries res =? 5) = true.
Proof. apply ok_inv. vm_compute. reflexivity. Qed.

Lemma audit_accounts_witness : exists res (reviewed : list Disposition),
  audit sample_registries (str "2026-01-01") true [sample_input] = Ok res /\ disposed_entries res = 5 /\
  (forall d, d ∈ reviewed <-> true = true /\ reviewed_disposition sample_registries d) /\
  catalogue_entries res = disposed_entries res + missing_entries res.
Proof.
  destruct sample_audit as (res & E & H5). destruct (audit_accounts _ _ _ _ _ E) as (a & reviewed & Hall).
  exists res, reviewed. split; [exact E|]. split; [now apply Z.eqb_eq|].
  split; [exact (proj1 (proj2 (proj2 Hall)))|].
  exact (proj1 (proj2 (proj2 (proj2 (proj2 (proj2 (proj2 (proj2 (proj2 Hall))))))))).
Defined.
