(* ===== verification/CatalogueData.v ===== *)
(** The registries checked in under pg-proto-burn-in/catalogue/, and the audit of
    the catalogue they describe. *)

From Stdlib Require Import ZArith Lia String.
From Stdlib Require Import Init.Byte.
From stdpp Require Import prelude.
From S2P Require Import Prelude Scram Text Fsm Grammar Civil Catalogue.

Local Open Scope Z_scope.
Local Open Scope list_scope.

(** ** generated-v1.json *)
Definition generated_v1 : list string := [
  "authentication.Auth.Cleartext"; "authentication.Auth.Error"; "authentication.Auth.Gss";
  "authentication.Auth.KerberosV5"; "authentication.Auth.Md5"; "authentication.Auth.Negotiate";
  "authentication.Auth.Ok"; "authentication.Auth.Sasl"; "authentication.Auth.Sspi";
  "authentication.AwaitingAuthOk.Error"; "authentication.AwaitingAuthOk.Ok";
  "authentication.AwaitingStartupReady.Ready"; "authentication.PasswordResponse.Password";
  "authentication.Sasl.Continue"; "authentication.Sasl.Error"; "authentication.Sasl.Final";
  "authentication.SaslChallenge.Response"; "authentication.SaslFinal.Verified";
  "authentication.SaslInitial.Initial"; "authentication.TokenChallenge.Continue";
  "authentication.TokenChallenge.Error"; "authentication.TokenChallenge.Ok";
  "authentication.TokenResponse.Response"; "backend.BindResponse.Complete"; "backend.BindResponse.Error";
  "backend.Building.Bind"; "backend.Building.Close"; "backend.Building.Describe"; "backend.Building.Execute";
  "backend.Building.Flush"; "backend.Building.Parse"; "backend.Building.Sync"; "backend.CloseResponse.Complete";
  "backend.CloseResponse.Error"; "backend.DescribeResponse.Error"; "backend.DescribeResponse.NoData";
  "backend.DescribeResponse.ParameterDescription"; "backend.DescribeResponse.RowDescription";
  "backend.ExecuteResponse.CommandComplete"; "backend.ExecuteResponse.Continue";
  "backend.ExecuteResponse.CopyBoth"; "backend.ExecuteResponse.CopyIn"; "backend.ExecuteResponse.CopyOut";
  "backend.ExecuteResponse.Error"; "backend.ExecuteResponse.PortalSuspended"; "backend.ExtendedCopyBoth.Error";
  "backend.ExtendedCopyBoth.Fail"; "backend.ExtendedCopyBoth.ReceiveData";
  "backend.ExtendedCopyBoth.ReceiveDone"; "backend.ExtendedCopyBoth.SendData";
  "backend.ExtendedCopyBoth.SendDone"; "backend.ExtendedCopyBothClientDone.Error";
  "backend.ExtendedCopyBothClientDone.SendData"; "backend.ExtendedCopyBothClientDone.SendDone";
  "backend.ExtendedCopyBothDone.CommandComplete"; "backend.ExtendedCopyBothFailed.Error";
  "backend.ExtendedCopyBothServerDone.Fail"; "backend.ExtendedCopyBothServerDone.ReceiveData";
  "backend.ExtendedCopyBothServerDone.ReceiveDone"; "backend.ExtendedCopyIn.Data"; "backend.ExtendedCopyIn.Done";
  "backend.ExtendedCopyIn.Fail"; "backend.ExtendedCopyInDone.CommandComplete";
  "backend.ExtendedCopyInDone.Error"; "backend.ExtendedCopyInFailed.Error"; "backend.ExtendedCopyOut.Data";
  "backend.ExtendedCopyOut.Done"; "backend.ExtendedCopyOut.Error"; "backend.ExtendedCopyOutDone.CommandComplete";
  "backend.ExtendedError.Discard"; "backend.ExtendedError.Sync"; "backend.FunctionReady.Ready";
  "backend.FunctionResponse.Error"; "backend.FunctionResponse.Result"; "backend.ParseResponse.Complete";
  "backend.ParseResponse.Error"; "backend.Ready.Bind"; "backend.Ready.Close"; "backend.Ready.Describe";
  "backend.Ready.Execute"; "backend.Ready.FunctionCall"; "backend.Ready.Parse"; "backend.Ready.Query";
  "backend.Ready.Terminate"; "backend.Simple.Continue"; "backend.Simple.CopyBoth"; "backend.Simple.CopyIn";
  "backend.Simple.CopyOut"; "backend.Simple.Error"; "backend.Simple.Ready"; "backend.SimpleCopyBoth.Error";
  "backend.SimpleCopyBoth.Fail"; "backend.SimpleCopyBoth.ReceiveData"; "backend.SimpleCopyBoth.ReceiveDone";
  "backend.SimpleCopyBoth.SendData"; "backend.SimpleCopyBoth.SendDone"; "backend.SimpleCopyBothClientDone.Error";
  "backend.SimpleCopyBothClientDone.SendData"; "backend.SimpleCopyBothClientDone.SendDone";
  "backend.SimpleCopyBothDone.CommandComplete"; "backend.SimpleCopyBothFailed.Error";
  "backend.SimpleCopyBothServerDone.Fail"; "backend.SimpleCopyBothServerDone.ReceiveData";
  "backend.SimpleCopyBothServerDone.ReceiveDone"; "backend.SimpleCopyIn.Data"; "backend.SimpleCopyIn.Done";
  "backend.SimpleCopyIn.Fail"; "backend.SimpleCopyInDone.CommandComplete"; "backend.SimpleCopyInDone.Error";
  "backend.SimpleCopyInFailed.Error"; "backend.SimpleCopyOut.Data"; "backend.SimpleCopyOut.Done";
  "backend.SimpleCopyOut.Error"; "backend.SimpleCopyOutDone.CommandComplete"; "backend.SimpleCopyReady.Ready";
  "backend.SimpleError.Ready"; "backend.SyncResponse.Ready"; "frontend.AwaitingReady.Continue";
  "frontend.AwaitingReady.Error"; "frontend.AwaitingReady.Ready"; "frontend.BoundBuilding.Bind";
  "frontend.BoundBuilding.Close"; "frontend.BoundBuilding.Describe"; "frontend.BoundBuilding.Execute";
  "frontend.BoundBuilding.Flush"; "frontend.BoundBuilding.Parse"; "frontend.BoundBuilding.Sync";
  "frontend.Building.Bind"; "frontend.Building.Close"; "frontend.Building.Describe"; "frontend.Building.Flush";
  "frontend.Building.Parse"; "frontend.Building.Sync"; "frontend.CopyBoth.Error";
  "frontend.CopyBoth.ReceiveCopyData"; "frontend.CopyBoth.ReceiveCopyDone"; "frontend.CopyBoth.SendCopyData";
  "frontend.CopyBoth.SendCopyDone"; "frontend.CopyBothClientDone.Error";
  "frontend.CopyBothClientDone.ReceiveCopyData"; "frontend.CopyBothClientDone.ReceiveCopyDone";
  "frontend.CopyBothServerDone.SendCopyData"; "frontend.CopyBothServerDone.SendCopyDone";
  "frontend.CopyIn.CopyData"; "frontend.CopyIn.CopyDone"; "frontend.CopyIn.CopyFail"; "frontend.CopyIn.Error";
  "frontend.CopyOut.CopyData"; "frontend.CopyOut.CopyDone"; "frontend.CopyOut.Error";
  "frontend.Draining.Continue"; "frontend.Draining.Ready"; "frontend.FunctionCalling.Error";
  "frontend.FunctionCalling.FunctionResponse"; "frontend.Ready.BeginExtended"; "frontend.Ready.FunctionCall";
  "frontend.Ready.Query"; "frontend.Ready.Reset"; "frontend.Ready.Terminate"; "frontend.ResetComplete.Continue";
  "frontend.ResetComplete.Error"; "frontend.ResetComplete.ReadyClean"; "frontend.ResetComplete.ReadyDirty";
  "frontend.Resetting.Continue"; "frontend.Resetting.DiscardComplete"; "frontend.Resetting.Error";
  "frontend.Simple.Continue"; "frontend.Simple.CopyBoth"; "frontend.Simple.CopyIn"; "frontend.Simple.CopyOut";
  "frontend.Simple.Error"; "frontend.Simple.Ready"; "pre_startup.AwaitingGssReply.Accept";
  "pre_startup.AwaitingGssReply.LegacyError"; "pre_startup.AwaitingGssReply.Reject";
  "pre_startup.AwaitingSslReply.Accept"; "pre_startup.AwaitingSslReply.LegacyError";
  "pre_startup.AwaitingSslReply.Reject"; "pre_startup.GssHandshake.HandshakeComplete";
  "pre_startup.PreStartup.Cancel"; "pre_startup.PreStartup.GssRequest"; "pre_startup.PreStartup.SslRequest";
  "pre_startup.PreStartup.Startup"; "pre_startup.TlsHandshake.HandshakeComplete";
  "server_authentication.Auth.Cleartext"; "server_authentication.Auth.Error"; "server_authentication.Auth.Gss";
  "server_authentication.Auth.KerberosV5"; "server_authentication.Auth.Md5";
  "server_authentication.Auth.Negotiate"; "server_authentication.Auth.Ok"; "server_authentication.Auth.Sasl";
  "server_authentication.Auth.Sspi"; "server_authentication.PasswordResponse.Response";
  "server_authentication.Sasl.Continue"; "server_authentication.Sasl.Error"; "server_authentication.Sasl.Final";
  "server_authentication.SaslInitial.Initial"; "server_authentication.SaslResponse.Response";
  "server_authentication.Startup.Begin"; "server_authentication.Startup.Reject";
  "server_authentication.StartupReady.BackendKeyData"; "server_authentication.StartupReady.ParameterStatus";
  "server_authentication.StartupReady.Ready"; "server_authentication.TokenPolicy.Continue";
  "server_authentication.TokenPolicy.Error"; "server_authentication.TokenPolicy.Verified";
  "server_authentication.TokenResponse.Response"; "server_pre_startup.GssDecision.Accept";
  "server_pre_startup.GssDecision.LegacyError"; "server_pre_startup.GssDecision.Reject";
  "server_pre_startup.GssHandshake.HandshakeComplete"; "server_pre_startup.PreStartup.Cancel";
  "server_pre_startup.PreStartup.GssRequest"; "server_pre_startup.PreStartup.SslRequest";
  "server_pre_startup.PreStartup.Startup"; "server_pre_startup.SslDecision.Accept";
  "server_pre_startup.SslDecision.LegacyError"; "server_pre_startup.SslDecision.Reject";
  "server_pre_startup.TlsHandshake.HandshakeComplete"
]%string.

(** ** catalogue-lock-v1.json *)
Definition catalogue_lock_v1 : list string := [
  "async.backend-key"; "async.notice"; "async.notification"; "async.parameter-status";
  "auth.plaintext.cleartext-password"; "auth.plaintext.md5"; "auth.plaintext.scram-sha-256";
  "auth.plaintext.trust"; "auth.tls.negotiation"; "auth.tls.rejection"; "auth.tls.scram-sha-256-plus";
  "authentication.Auth.Cleartext"; "authentication.Auth.Error"; "authentication.Auth.Gss";
  "authentication.Auth.KerberosV5"; "authentication.Auth.Md5"; "authentication.Auth.Negotiate";
  "authentication.Auth.Ok"; "authentication.Auth.Sasl"; "authentication.Auth.Sspi";
  "authentication.AwaitingAuthOk.Error"; "authentication.AwaitingAuthOk.Ok";
  "authentication.AwaitingStartupReady.Ready"; "authentication.PasswordResponse.Password";
  "authentication.Sasl.Continue"; "authentication.Sasl.Error"; "authentication.Sasl.Final";
  "authentication.SaslChallenge.Response"; "authentication.SaslFinal.Verified";
  "authentication.SaslInitial.Initial"; "authentication.TokenChallenge.Continue";
  "authentication.TokenChallenge.Error"; "authentication.TokenChallenge.Ok";
  "authentication.TokenResponse.Response"; "backend.BindResponse.Complete"; "backend.BindResponse.Error";
  "backend.Building.Bind"; "backend.Building.Close"; "backend.Building.Describe"; "backend.Building.Execute";
  "backend.Building.Flush"; "backend.Building.Parse"; "backend.Building.Sync"; "backend.CloseResponse.Complete";
  "backend.CloseResponse.Error"; "backend.DescribeResponse.Error"; "backend.DescribeResponse.NoData";
  "backend.DescribeResponse.ParameterDescription"; "backend.DescribeResponse.RowDescription";
  "backend.ExecuteResponse.CommandComplete"; "backend.ExecuteResponse.Continue";
  "backend.ExecuteResponse.CopyBoth"; "backend.ExecuteResponse.CopyIn"; "backend.ExecuteResponse.CopyOut";
  "backend.ExecuteResponse.Error"; "backend.ExecuteResponse.PortalSuspended"; "backend.ExtendedCopyBoth.Error";
  "backend.ExtendedCopyBoth.Fail"; "backend.ExtendedCopyBoth.ReceiveData";
  "backend.ExtendedCopyBoth.ReceiveDone"; "backend.ExtendedCopyBoth.SendData";
  "backend.ExtendedCopyBoth.SendDone"; "backend.ExtendedCopyBothClientDone.Error";
  "backend.ExtendedCopyBothClientDone.SendData"; "backend.ExtendedCopyBothClientDone.SendDone";
  "backend.ExtendedCopyBothDone.CommandComplete"; "backend.ExtendedCopyBothFailed.Error";
  "backend.ExtendedCopyBothServerDone.Fail"; "backend.ExtendedCopyBothServerDone.ReceiveData";
  "backend.ExtendedCopyBothServerDone.ReceiveDone"; "backend.ExtendedCopyIn.Data"; "backend.ExtendedCopyIn.Done";
  "backend.ExtendedCopyIn.Fail"; "backend.ExtendedCopyInDone.CommandComplete";
  "backend.ExtendedCopyInDone.Error"; "backend.ExtendedCopyInFailed.Error"; "backend.ExtendedCopyOut.Data";
  "backend.ExtendedCopyOut.Done"; "backend.ExtendedCopyOut.Error"; "backend.ExtendedCopyOutDone.CommandComplete";
  "backend.ExtendedError.Discard"; "backend.ExtendedError.Sync"; "backend.FunctionReady.Ready";
  "backend.FunctionResponse.Error"; "backend.FunctionResponse.Result"; "backend.ParseResponse.Complete";
  "backend.ParseResponse.Error"; "backend.Ready.Bind"; "backend.Ready.Close"; "backend.Ready.Describe";
  "backend.Ready.Execute"; "backend.Ready.FunctionCall"; "backend.Ready.Parse"; "backend.Ready.Query";
  "backend.Ready.Terminate"; "backend.Simple.Continue"; "backend.Simple.CopyBoth"; "backend.Simple.CopyIn";
  "backend.Simple.CopyOut"; "backend.Simple.Error"; "backend.Simple.Ready"; "backend.SimpleCopyBoth.Error";
  "backend.SimpleCopyBoth.Fail"; "backend.SimpleCopyBoth.ReceiveData"; "backend.SimpleCopyBoth.ReceiveDone";
  "backend.SimpleCopyBoth.SendData"; "backend.SimpleCopyBoth.SendDone"; "backend.SimpleCopyBothClientDone.Error";
  "backend.SimpleCopyBothClientDone.SendData"; "backend.SimpleCopyBothClientDone.SendDone";
  "backend.SimpleCopyBothDone.CommandComplete"; "backend.SimpleCopyBothFailed.Error";
  "backend.SimpleCopyBothServerDone.Fail"; "backend.SimpleCopyBothServerDone.ReceiveData";
  "backend.SimpleCopyBothServerDone.ReceiveDone"; "backend.SimpleCopyIn.Data"; "backend.SimpleCopyIn.Done";
  "backend.SimpleCopyIn.Fail"; "backend.SimpleCopyInDone.CommandComplete"; "backend.SimpleCopyInDone.Error";
  "backend.SimpleCopyInFailed.Error"; "backend.SimpleCopyOut.Data"; "backend.SimpleCopyOut.Done";
  "backend.SimpleCopyOut.Error"; "backend.SimpleCopyOutDone.CommandComplete"; "backend.SimpleCopyReady.Ready";
  "backend.SimpleError.Ready"; "backend.SyncResponse.Ready"; "cancellation.registry-rewrite";
  "cancellation.registry-teardown"; "cancellation.selected-session"; "fault.backend-termination";
  "fault.deadlock"; "fault.interrupted-copy"; "fault.postgres-restart"; "fault.resource-exhaustion";
  "frontend.AwaitingReady.Continue"; "frontend.AwaitingReady.Error"; "frontend.AwaitingReady.Ready";
  "frontend.BoundBuilding.Bind"; "frontend.BoundBuilding.Close"; "frontend.BoundBuilding.Describe";
  "frontend.BoundBuilding.Execute"; "frontend.BoundBuilding.Flush"; "frontend.BoundBuilding.Parse";
  "frontend.BoundBuilding.Sync"; "frontend.Building.Bind"; "frontend.Building.Close";
  "frontend.Building.Describe"; "frontend.Building.Flush"; "frontend.Building.Parse"; "frontend.Building.Sync";
  "frontend.CopyBoth.Error"; "frontend.CopyBoth.ReceiveCopyData"; "frontend.CopyBoth.ReceiveCopyDone";
  "frontend.CopyBoth.SendCopyData"; "frontend.CopyBoth.SendCopyDone"; "frontend.CopyBothClientDone.Error";
  "frontend.CopyBothClientDone.ReceiveCopyData"; "frontend.CopyBothClientDone.ReceiveCopyDone";
  "frontend.CopyBothServerDone.SendCopyData"; "frontend.CopyBothServerDone.SendCopyDone";
  "frontend.CopyIn.CopyData"; "frontend.CopyIn.CopyDone"; "frontend.CopyIn.CopyFail"; "frontend.CopyIn.Error";
  "frontend.CopyOut.CopyData"; "frontend.CopyOut.CopyDone"; "frontend.CopyOut.Error";
  "frontend.Draining.Continue"; "frontend.Draining.Ready"; "frontend.FunctionCalling.Error";
  "frontend.FunctionCalling.FunctionResponse"; "frontend.Ready.BeginExtended"; "frontend.Ready.FunctionCall";
  "frontend.Ready.Query"; "frontend.Ready.Reset"; "frontend.Ready.Terminate"; "frontend.ResetComplete.Continue";
  "frontend.ResetComplete.Error"; "frontend.ResetComplete.ReadyClean"; "frontend.ResetComplete.ReadyDirty";
  "frontend.Resetting.Continue"; "frontend.Resetting.DiscardComplete"; "frontend.Resetting.Error";
  "frontend.Simple.Continue"; "frontend.Simple.CopyBoth"; "frontend.Simple.CopyIn"; "frontend.Simple.CopyOut";
  "frontend.Simple.Error"; "frontend.Simple.Ready"; "pre_startup.AwaitingGssReply.Accept";
  "pre_startup.AwaitingGssReply.LegacyError"; "pre_startup.AwaitingGssReply.Reject";
  "pre_startup.AwaitingSslReply.Accept"; "pre_startup.AwaitingSslReply.LegacyError";
  "pre_startup.AwaitingSslReply.Reject"; "pre_startup.GssHandshake.HandshakeComplete";
  "pre_startup.PreStartup.Cancel"; "pre_startup.PreStartup.GssRequest"; "pre_startup.PreStartup.SslRequest";
  "pre_startup.PreStartup.Startup"; "pre_startup.TlsHandshake.HandshakeComplete";
  "replication.physical.cancellation"; "replication.physical.standby-status"; "replication.physical.wal";
  "scripted.authentication.gss"; "scripted.authentication.gss-continue"; "scripted.authentication.kerberos-v5";
  "scripted.authentication.sspi"; "scripted.copy-both.client-half-close-first";
  "scripted.copy-both.server-half-close-first"; "scripted.copy-fail.exact"; "scripted.encryption.gss-request";
  "scripted.encryption.legacy-error"; "scripted.function-call"; "scripted.illegal.copy-data-while-ready";
  "scripted.malformed.invalid-encoding"; "scripted.malformed.invalid-length";
  "scripted.malformed.truncated-frame"; "scripted.malformed.unknown-tag"; "server_authentication.Auth.Cleartext";
  "server_authentication.Auth.Error"; "server_authentication.Auth.Gss"; "server_authentication.Auth.KerberosV5";
  "server_authentication.Auth.Md5"; "server_authentication.Auth.Negotiate"; "server_authentication.Auth.Ok";
  "server_authentication.Auth.Sasl"; "server_authentication.Auth.Sspi";
  "server_authentication.PasswordResponse.Response"; "server_authentication.Sasl.Continue";
  "server_authentication.Sasl.Error"; "server_authentication.Sasl.Final";
  "server_authentication.SaslInitial.Initial"; "server_authentication.SaslResponse.Response";
  "server_authentication.Startup.Begin"; "server_authentication.Startup.Reject";
  "server_authentication.StartupReady.BackendKeyData"; "server_authentication.StartupReady.ParameterStatus";
  "server_authentication.StartupReady.Ready"; "server_authentication.TokenPolicy.Continue";
  "server_authentication.TokenPolicy.Error"; "server_authentication.TokenPolicy.Verified";
  "server_authentication.TokenResponse.Response"; "server_pre_startup.GssDecision.Accept";
  "server_pre_startup.GssDecision.LegacyError"; "server_pre_startup.GssDecision.Reject";
  "server_pre_startup.GssHandshake.HandshakeComplete"; "server_pre_startup.PreStartup.Cancel";
  "server_pre_startup.PreStartup.GssRequest"; "server_pre_startup.PreStartup.SslRequest";
  "server_pre_startup.PreStartup.Startup"; "server_pre_startup.SslDecision.Accept";
  "server_pre_startup.SslDecision.LegacyError"; "server_pre_startup.SslDecision.Reject";
  "server_pre_startup.TlsHandshake.HandshakeComplete"
]%string.

(** ** supplemental-v1.json *)
Definition supplemental_v1 : list (string * string * string) := [
  ("async.backend-key", "asynchronous", "BackendKeyData outside a causal operation");
  ("async.notice", "asynchronous", "NoticeResponse outside a causal operation");
  ("async.notification", "asynchronous", "NotificationResponse outside a causal operation");
  ("async.parameter-status", "asynchronous", "ParameterStatus outside a causal operation");
  ("cancellation.registry-rewrite", "cancellation", "Client cancellation keys are rewritten");
  ("cancellation.registry-teardown", "cancellation", "Cancellation mappings are removed at teardown");
  ("cancellation.selected-session", "cancellation", "Only the selected session receives cancellation");
  ("auth.plaintext.trust", "authentication-profile", "Plaintext trust authentication");
  ("auth.plaintext.cleartext-password", "authentication-profile", "Plaintext cleartext-password authentication");
  ("auth.plaintext.md5", "authentication-profile", "Plaintext MD5 authentication");
  ("auth.plaintext.scram-sha-256", "authentication-profile", "Plaintext SCRAM-SHA-256 authentication");
  ("auth.tls.scram-sha-256-plus", "authentication-profile", "TLS SCRAM-SHA-256-PLUS outcome");
  ("auth.tls.negotiation", "authentication-profile", "TLS negotiation");
  ("auth.tls.rejection", "authentication-profile", "Required TLS rejection");
  ("replication.physical.wal", "replication", "Physical replication WAL CopyData");
  ("replication.physical.standby-status", "replication", "Physical replication standby-status update");
  ("replication.physical.cancellation", "replication", "Physical replication cancellation and teardown");
  ("scripted.authentication.gss", "scripted", "GSS authentication request");
  ("scripted.authentication.gss-continue", "scripted", "GSS continuation");
  ("scripted.authentication.kerberos-v5", "scripted", "KerberosV5 authentication request");
  ("scripted.authentication.sspi", "scripted", "SSPI authentication request");
  ("scripted.copy-both.client-half-close-first", "scripted", "COPY-BOTH client half-close first");
  ("scripted.copy-both.server-half-close-first", "scripted", "COPY-BOTH server half-close first");
  ("scripted.copy-fail.exact", "scripted", "Exact CopyFail reconstruction");
  ("scripted.encryption.gss-request", "scripted", "GSS encryption negotiation");
  ("scripted.encryption.legacy-error", "scripted", "Legacy encryption error");
  ("scripted.function-call", "scripted", "Legacy FunctionCall exchange");
  ("scripted.illegal.copy-data-while-ready", "malformed", "Illegal CopyData sequencing");
  ("scripted.malformed.invalid-encoding", "malformed", "Invalid protocol string encoding");
  ("scripted.malformed.invalid-length", "malformed", "Invalid frame length");
  ("scripted.malformed.truncated-frame", "malformed", "Truncated frame");
  ("scripted.malformed.unknown-tag", "malformed", "Unknown message tag");
  ("fault.backend-termination", "fault", "Selected backend termination");
  ("fault.resource-exhaustion", "fault", "Configured resource exhaustion");
  ("fault.interrupted-copy", "fault", "Interrupted COPY");
  ("fault.deadlock", "fault", "Deadlock fault window");
  ("fault.postgres-restart", "fault", "PostgreSQL restart fault window")
]%string.

(** ** dispositions-v1.json *)
Definition generated_real_postgres_v1 : list string := [
  "backend.BindResponse.Complete"; "backend.BindResponse.Error"; "backend.Building.Bind";
  "backend.Building.Describe"; "backend.Building.Execute"; "backend.Building.Flush"; "backend.Building.Sync";
  "backend.CloseResponse.Complete"; "backend.DescribeResponse.NoData";
  "backend.DescribeResponse.ParameterDescription"; "backend.DescribeResponse.RowDescription";
  "backend.ExecuteResponse.CommandComplete"; "backend.ExecuteResponse.Continue";
  "backend.ExecuteResponse.CopyIn"; "backend.ExecuteResponse.CopyOut"; "backend.ExecuteResponse.Error";
  "backend.ExecuteResponse.PortalSuspended"; "backend.ExtendedCopyIn.Data"; "backend.ExtendedCopyIn.Done";
  "backend.ExtendedCopyInDone.CommandComplete"; "backend.ExtendedCopyInDone.Error";
  "backend.ExtendedCopyOut.Data"; "backend.ExtendedCopyOut.Done"; "backend.ExtendedCopyOutDone.CommandComplete";
  "backend.ParseResponse.Complete"; "backend.ParseResponse.Error"; "backend.Ready.Bind"; "backend.Ready.Close";
  "backend.Ready.Execute"; "backend.Ready.Parse"; "backend.Ready.Query"; "backend.Ready.Terminate";
  "backend.Simple.Continue"; "backend.Simple.Error"; "backend.Simple.Ready"; "backend.SimpleError.Ready";
  "backend.SyncResponse.Ready"
]%string.

Definition supplemental_real_postgres_v1 : list string := [
  "async.backend-key"; "async.notice"; "async.notification"; "async.parameter-status";
  "auth.plaintext.cleartext-password"; "auth.plaintext.md5"; "auth.plaintext.scram-sha-256";
  "auth.plaintext.trust"; "auth.tls.negotiation"; "auth.tls.rejection"; "cancellation.registry-rewrite";
  "cancellation.registry-teardown"; "cancellation.selected-session"; "fault.backend-termination";
  "fault.deadlock"; "fault.interrupted-copy"; "fault.postgres-restart"; "fault.resource-exhaustion";
  "replication.physical.cancellation"; "replication.physical.standby-status"; "replication.physical.wal"
]%string.

Definition supplemental_scripted_v1 : list string := [
  "scripted.authentication.gss"; "scripted.authentication.gss-continue"; "scripted.authentication.kerberos-v5";
  "scripted.authentication.sspi"; "scripted.copy-both.client-half-close-first";
  "scripted.copy-both.server-half-close-first"; "scripted.copy-fail.exact"; "scripted.encryption.gss-request";
  "scripted.encryption.legacy-error"; "scripted.function-call"; "scripted.illegal.copy-data-while-ready";
  "scripted.malformed.invalid-encoding"; "scripted.malformed.invalid-length";
  "scripted.malformed.truncated-frame"; "scripted.malformed.unknown-tag"
]%string.

Definition supplemental_indirect_v1 : list string := [
  "auth.tls.scram-sha-256-plus"
]%string.

Definition generated_indirect_evidence_v1 : string :=
  "Generated dual grammar and state-aware projection tests; transitions not observable at the public intermediary middleware seam remain explicitly indirect".

(** The migration and exemption registries are empty. *)
Definition checked_in : Registries :=
  mkRegistries (mkSnapshot 1 (map str generated_v1)) (mkSnapshot 1 (map str catalogue_lock_v1))
    (mkSupplemental 1 (map (fun '(i, c, d) => mkEntry (str i) (str c) (str d)) supplemental_v1))
    (mkMigrations 1 []) (mkExemptions 1 [])
    (mkReviewed 1 (map str generated_real_postgres_v1) (str generated_indirect_evidence_v1)
       (map str supplemental_real_postgres_v1) (map str supplemental_scripted_v1) (map str supplemental_indirect_v1)).

Lemma grammar_ids_are_the_snapshot : generated_ids = map str generated_v1.
Proof. vm_compute. reflexivity. Qed.

(** ** Properties *)

(** The grammars are the reviewed catalogue. The transitions of the six grammars
    are exactly the identifiers of the checked-in snapshot, in order, so that no
    transition was added, dropped or renamed without review. *)
Theorem generated_catalogue_current :
  generated_ids = map str generated_v1 /\ length generated_v1 = 220%nat /\
  forallb (fun i => existsb (String.eqb i) catalogue_lock_v1) generated_v1 = true.
Proof. split; [exact grammar_ids_are_the_snapshot|]. split; vm_compute; reflexivity. Qed.

(** The catalogue is closed on every day. The audit that the complete run performs
    with the date of its clock passes, with every entry disposed of. *)
Theorem catalogue_audit_passes now : 0 <= now / 86400 <= last_day ->
  exists as_of, utc_date now = Ok as_of /\ run checked_in as_of true [] = Ok tt.
Proof.
  intros Hn. destruct (utc_date_printed now Hn) as (E & Hv & _). eexists. split; [exact E|].
  unfold run, audit, load_authority. rewrite Hv. vm_compute. reflexivity.
Qed.
