(* ===== verification/SoakSchedule.v ===== *)
(** Deterministic soak schedules: the first half of src/soak.rs of pg-proto-burn-in.
    The generator, the weighted choice, the two schedules and the pace of a duration
    budget. [f64] values are those of the Standard Library's IEEE 754 specification. *)

From Stdlib Require Import ZArith Lia String SpecFloat.
From Stdlib Require Import Init.Byte.
From stdpp Require Import prelude.
From S2P Require Import Prelude Scram Text.

Local Open Scope Z_scope.
Local Open Scope list_scope.

(** ** Scenarios *)

Definition CONCURRENCY : Z := 4.

Inductive ScenarioId : Type := Scalar | Rows | SyntaxError.
#[export] Instance ScenarioId_eq : EqDecision ScenarioId.
Proof. solve_decision. Defined.

Record ScenarioDefinition : Type := mkScenario {
  scenario_id : ScenarioId; weight : Z; prerequisites : list bytes; expected_coverage : list bytes;
  assertions : list bytes; postgres_range : bytes; replay_parameters : list bytes
}.

(** The coverage the two query scenarios share. *)
Definition extended_coverage : list bytes := map str
  ["backend.Ready.Parse"; "backend.ParseResponse.Complete"; "backend.Building.Describe";
   "backend.DescribeResponse.ParameterDescription"; "backend.DescribeResponse.RowDescription"; "backend.Building.Bind";
   "backend.BindResponse.Complete"; "backend.Building.Execute"; "backend.ExecuteResponse.Continue";
   "backend.ExecuteResponse.CommandComplete"; "backend.Building.Sync"; "backend.SyncResponse.Ready"]%string.

Definition SCENARIOS : list ScenarioDefinition :=
  [mkScenario Scalar 3 [str "authenticated-ready-session"] extended_coverage [str "value-equals-42"] (str "14-18") [str "expected"];
   mkScenario Rows 2 [str "authenticated-ready-session"] extended_coverage [str "row-count-equals-rows-parameter"] (str "14-18") [str "rows"];
   mkScenario SyntaxError 1 [str "authenticated-ready-session"]
     (map str ["backend.Ready.Query"; "backend.Simple.Error"; "backend.SimpleError.Ready"]%string)
     [str "sqlstate-42601"; str "connection-recovers"] (str "14-18") []].

Inductive Phase : Type := LongLived | ConnectionChurn | BoundedConcurrency.
#[export] Instance Phase_eq : EqDecision Phase.
Proof. solve_decision. Defined.
Definition phases : list Phase := [LongLived; ConnectionChurn; BoundedConcurrency].

(** [BTreeMap<String, i64>] in key order. *)
Record SequenceEntry : Type := mkSequenceEntry {
  ordinal : Z; entry_phase : Phase; scenario : ScenarioId; canonical : bool; parameters : list (bytes * Z)
}.

Inductive Budget : Type := Iterations (n : Z) | DurationSeconds (n : Z).

(** ** The generator: [StableRng] *)

Definition shl64 (x k : Z) : Z := Z.shiftl x k mod 2 ^ 64.

(** [next]: the value, which is also the new state. *)
Definition rng_next (state : Z) : Z :=
  let value := if state =? 0 then 11400714819323198485 else state in
  let value := Z.lxor value (shl64 value 13) in
  let value := Z.lxor value (Z.shiftr value 7) in
  Z.lxor value (shl64 value 17).

Fixpoint select (scenarios : list ScenarioDefinition) (selected : Z) : result ScenarioId bytes :=
  match scenarios with
  | [] => Panic
  | s :: scenarios => if selected <? weight s then Ok (scenario_id s) else select scenarios (selected - weight s)
  end.

(** [unreachable!] after the loop is [Panic], as is a remainder by zero. *)
Definition weighted_scenario (random : Z) : result ScenarioId bytes :=
  let total := foldr (fun s n => weight s + n) 0 SCENARIOS in
  if total =? 0 then Panic else select SCENARIOS (random mod total).

(** ** Schedules *)

Definition push_entry (entries : list SequenceEntry) (phase : Phase) (s : ScenarioId) (canonical : bool) (rng : Z)
    : list SequenceEntry * Z :=
  let (parameters, rng) :=
    if bool_decide (s = Rows) then
      if canonical then ([(str "rows", 7)], rng)
      else let v := rng_next rng in ([(str "rows", v mod 31 + 1)], v)
    else ([], rng) in
  (entries ++ [mkSequenceEntry (len entries) phase s canonical parameters], rng).

Fixpoint push_canonical (scenarios : list ScenarioDefinition) (phase : Phase) (entries : list SequenceEntry) (rng : Z)
    : list SequenceEntry * Z :=
  match scenarios with
  | [] => (entries, rng)
  | s :: scenarios =>
      let (entries, rng) := push_entry entries phase (scenario_id s) true rng in push_canonical scenarios phase entries rng
  end.

Fixpoint push_weighted (n : nat) (phase : Phase) (entries : list SequenceEntry) (rng : Z)
    : result (list SequenceEntry * Z) bytes :=
  match n with
  | O => Ok (entries, rng)
  | S n =>
      let random := rng_next rng in
      let? s := weighted_scenario random in
      let (entries, rng) := push_entry entries phase s false random in
      push_weighted n phase entries rng
  end.

Fixpoint schedule_phases (ps : list Phase) (weighted_per_phase : nat) (entries : list SequenceEntry) (rng : Z)
    : result (list SequenceEntry) bytes :=
  match ps with
  | [] => Ok entries
  | phase :: ps =>
      let (entries, rng) := push_canonical SCENARIOS phase entries rng in
      let? p := push_weighted weighted_per_phase phase entries rng in
      schedule_phases ps weighted_per_phase p.1 p.2
  end.

(** The slots [slot..slot + n] of a phase. *)
Fixpoint duration_slots (n slot : nat) (phase : Phase) (entries : list SequenceEntry) (rng : Z)
    : result (list SequenceEntry * Z) bytes :=
  match n with
  | O => Ok (entries, rng)
  | S n =>
      let canonical_scenario := SCENARIOS !! slot in
      let? p := match canonical_scenario with
                | Some definition => Ok (scenario_id definition, rng)
                | None => let random := rng_next rng in let? s := weighted_scenario random in Ok (s, random)
                end in
      let (entries, rng) := push_entry entries phase p.1 (bool_decide (is_Some canonical_scenario)) p.2 in
      duration_slots n (S slot) phase entries rng
  end.

Fixpoint duration_phases (ps : list Phase) (phase_index slots : nat) (entries : list SequenceEntry) (rng : Z)
    : result (list SequenceEntry) bytes :=
  match ps with
  | [] => Ok entries
  | phase :: ps =>
      let phase_slots := (slots / 3 + (if decide (phase_index < slots mod 3)%nat then 1 else 0))%nat in
      let? p := duration_slots phase_slots 0 phase entries rng in
      duration_phases ps (S phase_index) slots p.1 p.2
  end.

Definition duration_schedule (seed : Z) (slots : nat) : result (list SequenceEntry) bytes :=
  match slots with
  | O => Err (str "--duration-seconds must be positive")
  | _ => duration_phases phases 0 slots [] seed
  end.

(** [usize::try_from] cannot fail on a 64-bit target. *)
Definition schedule (seed : Z) (budget : Budget) : result (list SequenceEntry) bytes :=
  match budget with
  | DurationSeconds value => duration_schedule seed (Z.to_nat value)
  | Iterations value => schedule_phases phases (Z.to_nat value) [] seed
  end.

(** ** The pace of a duration budget *)

Definition f64 : Type := spec_float.
(** [as f64] of an unsigned number: rounded to nearest, ties to even. *)
Definition as_f64 (n : Z) : f64 := binary_normalize 53 1024 n 0 false.
Definition f64_div (a b : f64) : f64 := SFdiv 53 1024 a b.

(** The integer nearest to [n / d], ties to even. *)
Definition round_half_even (n d : Z) : Z :=
  let q := n / d in
  match Z.compare (2 * (n mod d)) d with
  | Lt => q
  | Gt => q + 1
  | Eq => if Z.even q then q else q + 1
  end.

Definition NANOS : Z := 10 ^ 9.
(** A [Duration] in nanoseconds is below this. *)
Definition DURATION_LIMIT : Z := 2 ^ 64 * NANOS.

(** [Duration::from_secs_f64]: nanoseconds; panics on what is negative, not finite or too long. *)
Definition from_secs_f64 (x : f64) : result Z bytes :=
  match x with
  | S754_zero _ => Ok 0
  | S754_infinity _ | S754_nan => Panic
  | S754_finite true _ _ => Panic
  | S754_finite false m e =>
      let nanos := if 0 <=? e then Zpos m * 2 ^ e * NANOS else round_half_even (Zpos m * NANOS) (2 ^ (- e)) in
      if nanos <? DURATION_LIMIT then Ok nanos else Panic
  end.

(** The [pace] of [execute_and_record]. *)
Definition pace_of (budget : Budget) (sequence : list SequenceEntry) : result (option Z) bytes :=
  match budget with
  | DurationSeconds seconds =>
      let? pace := from_secs_f64 (f64_div (as_f64 seconds) (as_f64 (len sequence))) in Ok (Some pace)
  | Iterations _ => Ok None
  end.

Example schedule_42 : match schedule 42 (Iterations 4) with
  | Ok s => (length s, map scenario (take 3 s), map canonical (take 4 s)) = (21%nat, [Scalar; Rows; SyntaxError], [true; true; true; false])
  | _ => False end.
Proof. vm_compute. reflexivity. Qed.
Example schedule_12s : match schedule 9 (DurationSeconds 12) with
  | Ok s => (length s, map ordinal s, pace_of (DurationSeconds 12) s) = (12%nat, [0;1;2;3;4;5;6;7;8;9;10;11], Ok (Some NANOS))
  | _ => False end.
Proof. vm_compute. reflexivity. Qed.

(** ** The pace *)

Lemma digits2_pos_lower p : 2 ^ (Zpos (digits2_pos p) - 1) <= Zpos p.
Proof.
  induction p as [p IH|p IH|]; simpl digits2_pos; [| |done].
  all: rewrite Pos2Z.inj_succ; replace (Z.succ (Zpos (digits2_pos p)) - 1) with (Z.succ (Zpos (digits2_pos p) - 1)) by lia.
  all: rewrite Z.pow_succ_r by lia; lia.
Qed.

Lemma digits2_pos_iter p k : Zpos (digits2_pos (Pos.iter xO p k)) = Zpos (digits2_pos p) + Zpos k.
Proof.
  revert p. induction k as [|k IH] using Pos.peano_ind; intros p; [simpl; lia|].
  rewrite Pos.iter_succ. simpl. rewrite Pos2Z.inj_succ, IH. lia.
Qed.

(** A number below 2^53 is represented exactly, with a 53-bit mantissa. *)
Lemma as_f64_exact p : Zpos p < 2 ^ 53 -> exists m, as_f64 (Zpos p) = S754_finite false m (Zpos (digits2_pos p) - 53).
Proof.
  intros Hp. assert (Zpos (digits2_pos p) <= 53) as Hd.
  { destruct (Z_le_gt_dec (Zpos (digits2_pos p)) 53) as [|Hgt]; [done|]. pose proof (digits2_pos_lower p) as Hl.
    assert (2 ^ 53 <= 2 ^ (Zpos (digits2_pos p) - 1)) by (apply Z.pow_le_mono_r; lia). lia. }
  unfold as_f64, binary_normalize, binary_round. set (d := Zpos (digits2_pos p)) in *.
  assert (fexp 53 1024 (d + 0) = d - 53) as -> by (unfold fexp, emin; lia).
  assert (exists mz, shl_align p 0 (d - 53) = (mz, d - 53) /\ Zpos (digits2_pos mz) = 53) as (mz & -> & Hz).
  { unfold shl_align. rewrite Z.sub_0_r. destruct (d - 53) as [|q|q] eqn:E; [|lia|].
    - exists p. split; [done|]. unfold d in E. lia.
    - exists (Pos.iter xO p q). split; [done|]. rewrite digits2_pos_iter. unfold d in E. lia. }
  exists mz. unfold binary_round_aux, shr_fexp, Zdigits2.
  rewrite Hz. replace (fexp 53 1024 (53 + (d - 53)) - (d - 53)) with 0 by (unfold fexp, emin; lia). simpl.
  rewrite Hz. replace (fexp 53 1024 (53 + (d - 53)) - (d - 53)) with 0 by (unfold fexp, emin; lia). simpl.
  destruct (Z.leb_spec (d - 53) (1024 - 53)); [done|lia].
Qed.

Lemma f64_div_self m e : f64_div (S754_finite false m e) (S754_finite false m e) = as_f64 1.
Proof.
  unfold f64_div, SFdiv, SFdiv_core_binary. rewrite !Z.sub_diag. change (Z.min (fexp 53 1024 0) 0) with (-53).
  change (0 - -53) with 53. cbv iota. rewrite Z.shiftl_mul_pow2 by lia.
  replace (Z.div_eucl (Zpos m * 2 ^ 53) (Zpos m)) with (2 ^ 53, 0).
  - replace (new_location (Zpos m) 0) with loc_Exact; [vm_compute; reflexivity|].
    unfold new_location, new_location_even, new_location_odd. now destruct (Z.even _).
  - pose proof (Z.div_mul (2 ^ 53) (Zpos m) ltac:(lia)) as Hq. pose proof (Z.mod_mul (2 ^ 53) (Zpos m) ltac:(lia)) as Hr.
    rewrite Z.mul_comm in Hq, Hr. unfold Z.div, Z.modulo in Hq, Hr. destruct (Z.div_eucl _ _). congruence.
Qed.

Lemma pace_one_second n : 0 < n < 2 ^ 53 -> from_secs_f64 (f64_div (as_f64 n) (as_f64 n)) = Ok NANOS.
Proof.
  intros Hn. destruct n as [|p|p]; try lia. destruct (as_f64_exact p) as [m ->]; [lia|]. rewrite f64_div_self. reflexivity.
Qed.

(** ** The generator *)

Lemma shl64_testbit x k i : 0 <= k -> 0 <= i -> Z.testbit (shl64 x k) i = (i <? 64) && Z.testbit x (i - k).
Proof.
  intros Hk Hi. unfold shl64. destruct (Z.ltb_spec i 64).
  - rewrite Z.mod_pow2_bits_low, Z.shiftl_spec by lia. done.
  - rewrite Z.mod_pow2_bits_high by lia. done.
Qed.

Lemma shl64_lxor a b k : 0 <= k -> shl64 (Z.lxor a b) k = Z.lxor (shl64 a k) (shl64 b k).
Proof.
  intros Hk. apply Z.bits_inj'. intros i Hi. rewrite Z.lxor_spec, !shl64_testbit, Z.lxor_spec by lia.
  destruct (i <? 64); simpl; [done|]. done.
Qed.

Lemma u64_bits x i : 0 <= x < 2 ^ 64 -> 64 <= i -> Z.testbit x i = false.
Proof.
  intros Hx Hi. destruct (Z.eq_dec x 0) as [->|]; [apply Z.bits_0|]. apply Z.bits_above_log2; [lia|].
  assert (Z.log2 x < 64) by (apply Z.log2_lt_pow2; lia). lia.
Qed.

Lemma u64_of_bits x : 0 <= x -> (forall i, 64 <= i -> Z.testbit x i = false) -> x < 2 ^ 64.
Proof.
  intros Hx Hb. destruct (Z_lt_ge_dec x (2 ^ 64)) as [|Hge]; [done|]. exfalso.
  assert (64 <= Z.log2 x) as Hl by (apply Z.log2_le_pow2; lia). specialize (Hb (Z.log2 x) Hl).
  rewrite Z.bit_log2 in Hb by lia. done.
Qed.

Lemma lxor_u64 a b : 0 <= a < 2 ^ 64 -> 0 <= b < 2 ^ 64 -> 0 <= Z.lxor a b < 2 ^ 64.
Proof.
  intros Ha Hb. assert (0 <= Z.lxor a b) by (apply Z.lxor_nonneg; lia). split; [done|]. apply u64_of_bits; [done|].
  intros i Hi. rewrite Z.lxor_spec, !u64_bits by done. done.
Qed.

Lemma shl64_range x k : 0 <= shl64 x k < 2 ^ 64.
Proof. apply Z.mod_pos_bound. lia. Qed.
Lemma shiftr_range x k : 0 <= k -> 0 <= x < 2 ^ 64 -> 0 <= Z.shiftr x k < 2 ^ 64.
Proof.
  intros Hk Hx. rewrite Z.shiftr_div_pow2 by done. assert (0 < 2 ^ k) by (apply Z.pow_pos_nonneg; lia).
  split; [apply Z.div_pos; lia|]. apply Z.div_lt_upper_bound; nia.
Qed.

(** A linear step without a kernel is injective. *)
Lemma xor_step_inj (f : Z -> Z) a b :
  (forall x y, f (Z.lxor x y) = Z.lxor (f x) (f y)) -> (forall x, 0 <= x < 2 ^ 64 -> x = f x -> x = 0) ->
  0 <= a < 2 ^ 64 -> 0 <= b < 2 ^ 64 -> Z.lxor a (f a) = Z.lxor b (f b) -> a = b.
Proof.
  intros Hlin Hker Ha Hb Heq. apply Z.lxor_eq, Hker; [now apply lxor_u64|]. rewrite Hlin.
  apply Z.lxor_eq. rewrite <- (Z.lxor_nilpotent (Z.lxor a (f a))). rewrite Heq at 2.
  rewrite !Z.lxor_assoc. f_equal. rewrite <- !Z.lxor_assoc, (Z.lxor_comm b (f a)), !Z.lxor_assoc. done.
Qed.

Lemma shl64_kernel k x : 0 < k -> 0 <= x < 2 ^ 64 -> x = shl64 x k -> x = 0.
Proof.
  intros Hk Hx Heq. apply Z.bits_inj_0. intros i. destruct (Z_lt_ge_dec i 0) as [Hneg|Hpos]; [now apply Z.testbit_neg_r|].
  apply Z.ge_le in Hpos. revert i Hpos. apply (Z_lt_induction (fun i => Z.testbit x i = false)).
  intros i IH. destruct (Z_lt_ge_dec i 0) as [Hneg|Hpos]; [now apply Z.testbit_neg_r|].
  rewrite Heq, shl64_testbit by lia. destruct (Z_lt_ge_dec i k).
  - rewrite (Z.testbit_neg_r x) by lia. apply andb_false_r.
  - rewrite IH by lia. apply andb_false_r.
Qed.

Lemma shiftr_kernel k x : 0 < k -> 0 <= x < 2 ^ 64 -> x = Z.shiftr x k -> x = 0.
Proof.
  intros Hk Hx Heq. rewrite Z.shiftr_div_pow2 in Heq by lia. destruct (Z.eq_dec x 0) as [|Hn]; [done|].
  assert (1 < 2 ^ k) by (apply Z.pow_gt_1; lia). pose proof (Z.div_lt x (2 ^ k)). lia.
Qed.

(** The three steps on a state, and the state they start from: zero is replaced. *)
Definition xorshift (x : Z) : Z :=
  let x := Z.lxor x (shl64 x 13) in let x := Z.lxor x (Z.shiftr x 7) in Z.lxor x (shl64 x 17).
Definition rng_state (state : Z) : Z := if state =? 0 then 11400714819323198485 else state.
Lemma rng_next_xorshift state : rng_next state = xorshift (rng_state state).
Proof. done. Qed.
Lemma rng_state_range a : 0 <= a < 2 ^ 64 -> 0 < rng_state a < 2 ^ 64.
Proof. unfold rng_state. destruct (Z.eqb_spec a 0); lia. Qed.

Lemma xor_shl_range z k : 0 <= z < 2 ^ 64 -> 0 <= Z.lxor z (shl64 z k) < 2 ^ 64.
Proof. intros. apply lxor_u64; [done|apply shl64_range]. Qed.
Lemma xor_shr_range z k : 0 <= k -> 0 <= z < 2 ^ 64 -> 0 <= Z.lxor z (Z.shiftr z k) < 2 ^ 64.
Proof. intros. apply lxor_u64; [done|now apply shiftr_range]. Qed.
Lemma xor_shl_inj k a b : 0 < k -> 0 <= a < 2 ^ 64 -> 0 <= b < 2 ^ 64 ->
  Z.lxor a (shl64 a k) = Z.lxor b (shl64 b k) -> a = b.
Proof.
  intros Hk Ha Hb. apply (xor_step_inj (fun z => shl64 z k)); [intros; apply shl64_lxor; lia|intros z; now apply shl64_kernel|done..].
Qed.
Lemma xor_shr_inj k a b : 0 < k -> 0 <= a < 2 ^ 64 -> 0 <= b < 2 ^ 64 ->
  Z.lxor a (Z.shiftr a k) = Z.lxor b (Z.shiftr b k) -> a = b.
Proof.
  intros Hk Ha Hb. apply (xor_step_inj (fun z => Z.shiftr z k)); [intros; apply Z.shiftr_lxor|intros z; now apply shiftr_kernel|done..].
Qed.

Lemma xorshift_range x : 0 <= x < 2 ^ 64 -> 0 <= xorshift x < 2 ^ 64.
Proof. intros Hx. unfold xorshift. apply xor_shl_range, xor_shr_range, xor_shl_range; lia. Qed.
Lemma xorshift_inj x y : 0 <= x < 2 ^ 64 -> 0 <= y < 2 ^ 64 -> xorshift x = xorshift y -> x = y.
Proof.
  intros Hx Hy H. pose proof (xor_shl_range x 13 Hx) as Hx1. pose proof (xor_shl_range y 13 Hy) as Hy1.
  apply xor_shl_inj in H; [|lia|apply xor_shr_range; lia|apply xor_shr_range; lia].
  apply xor_shr_inj in H; [|lia|done..]. apply xor_shl_inj in H; [done|lia|done..].
Qed.

Lemma rng_next_range a : 0 <= a < 2 ^ 64 -> 0 < rng_next a < 2 ^ 64.
Proof.
  intros Ha. apply rng_state_range in Ha. rewrite rng_next_xorshift. pose proof (xorshift_range (rng_state a)).
  destruct (Z.eq_dec (xorshift (rng_state a)) 0) as [H0|]; [|lia]. change 0 with (xorshift 0) in H0. apply xorshift_inj in H0; lia.
Qed.

(** ** Schedules *)

(** No random value reaches the [unreachable!]. *)
Lemma weighted_scenario_ok random : exists s, weighted_scenario random = Ok s.
Proof.
  unfold weighted_scenario. change (foldr _ _ _) with 6. cbn. pose proof (Z.mod_pos_bound random 6 ltac:(lia)).
  destruct (Z.ltb_spec (random mod 6) 3); [now eexists|]. destruct (Z.ltb_spec (random mod 6 - 3) 2); [now eexists|].
  destruct (Z.ltb_spec (random mod 6 - 3 - 2) 1); [now eexists|lia].
Qed.

(** The parameters of an entry: the rows of a [Rows] entry and nothing else. *)
Definition entry_parameters (e : SequenceEntry) : Prop :=
  match scenario e with
  | Rows => exists n, parameters e = [(str "rows", n)] /\ 1 <= n <= 31 /\ (canonical e = true -> n = 7)
  | _ => parameters e = []
  end.

(** What of an entry does not depend on the seed. *)
Definition entry_shape (e : SequenceEntry) : Phase * option ScenarioId :=
  (entry_phase e, if canonical e then Some (scenario e) else None).

Definition well_formed (es : list SequenceEntry) : Prop :=
  map ordinal es = seqZ 0 (len es) /\ Forall entry_parameters es.

(** [es'] is [es] and entries of the given shapes. *)
Definition grows (es es' : list SequenceEntry) (shapes : list (Phase * option ScenarioId)) : Prop :=
  well_formed es -> well_formed es' /\ map entry_shape es' = map entry_shape es ++ shapes.

Lemma grows_refl es : grows es es [].
Proof. intros H. now rewrite app_nil_r. Qed.
Lemma grows_trans es1 es2 es3 s1 s2 : grows es1 es2 s1 -> grows es2 es3 s2 -> grows es1 es3 (s1 ++ s2).
Proof. intros H1 H2 H. destruct (H1 H) as [W1 E1]. destruct (H2 W1) as [W2 E2]. split; [done|]. now rewrite E2, E1, app_assoc. Qed.

Lemma push_entry_grows es phase s c rng :
  grows es (push_entry es phase s c rng).1 [(phase, if c then Some s else None)].
Proof.
  intros [Ho Hf]. unfold push_entry.
  destruct (if bool_decide (s = Rows) then _ else _) as [params rng'] eqn:E. simpl. split; [|now rewrite map_app].
  split.
  - rewrite map_app, Ho. unfold len. rewrite length_app, Nat2Z.inj_add, seqZ_app by lia. simpl. rewrite Z.add_0_l. done.
  - apply Forall_app. split; [done|]. apply Forall_singleton. unfold entry_parameters; simpl.
    pose proof (Z.mod_pos_bound (rng_next rng) 31).
    destruct s; case_bool_decide; try done; [simplify_eq; done| |simplify_eq; done].
    destruct c; simplify_eq; eexists; (split; [reflexivity|]); split; try done; lia.
Qed.

Definition canonical_shapes (phase : Phase) : list (Phase * option ScenarioId) :=
  map (fun s => (phase, Some (scenario_id s))) SCENARIOS.

Lemma push_canonical_grows scenarios phase : forall es rng,
  grows es (push_canonical scenarios phase es rng).1 (map (fun s => (phase, Some (scenario_id s))) scenarios).
Proof.
  induction scenarios as [|s scenarios IH]; intros es rng; simpl; [apply grows_refl|].
  pose proof (push_entry_grows es phase (scenario_id s) true rng) as H. destruct (push_entry es phase _ _ rng) as [es1 rng1].
  exact (grows_trans _ _ _ [_] _ H (IH es1 rng1)).
Qed.

Lemma push_weighted_grows n phase : forall es rng, exists es' rng',
  push_weighted n phase es rng = Ok (es', rng') /\ grows es es' (replicate n (phase, None)).
Proof.
  induction n as [|n IH]; intros es rng; simpl; [do 2 eexists; split; [done|apply grows_refl]|].
  destruct (weighted_scenario_ok (rng_next rng)) as [s ->]. simpl.
  pose proof (push_entry_grows es phase s false (rng_next rng)) as H. destruct (push_entry es phase _ _ _) as [es1 rng1].
  destruct (IH es1 rng1) as (es' & rng' & -> & Hg). do 2 eexists; split; [done|]. exact (grows_trans _ _ _ [_] _ H Hg).
Qed.

Lemma schedule_phases_grows n ps : forall es rng, exists es',
  schedule_phases ps n es rng = Ok es' /\ grows es es' (ps ≫= fun p => canonical_shapes p ++ replicate n (p, None)).
Proof.
  induction ps as [|p ps IH]; intros es rng; cbn [schedule_phases]; [eexists; split; [done|apply grows_refl]|].
  pose proof (push_canonical_grows SCENARIOS p es rng) as Hc. destruct (push_canonical SCENARIOS p es rng) as [es1 rng1].
  destruct (push_weighted_grows n p es1 rng1) as (es2 & rng2 & -> & Hw). cbn.
  destruct (IH es2 rng2) as (es3 & -> & Hs). eexists; split; [done|].
  exact (grows_trans _ _ _ _ _ (grows_trans _ _ _ _ _ Hc Hw) Hs).
Qed.

(** The shapes of a phase with [n] slots: canonical scenarios as far as they go. *)
Definition slot_shapes (phase : Phase) (slot n : nat) : list (Phase * option ScenarioId) :=
  map (fun i => (phase, scenario_id <$> SCENARIOS !! i)) (seq slot n).

Lemma duration_slots_grows n phase : forall slot es rng, exists es' rng',
  duration_slots n slot phase es rng = Ok (es', rng') /\ grows es es' (slot_shapes phase slot n).
Proof.
  induction n as [|n IH]; intros slot es rng; cbn [duration_slots]; [do 2 eexists; split; [done|apply grows_refl]|].
  destruct (SCENARIOS !! slot) as [d|] eqn:E.
  - cbn. pose proof (push_entry_grows es phase (scenario_id d) true rng) as H. destruct (push_entry es phase _ _ _) as [es1 rng1].
    destruct (IH (S slot) es1 rng1) as (es' & rng' & -> & Hg). do 2 eexists; split; [done|].
    change (slot_shapes phase slot (S n)) with ((phase, scenario_id <$> SCENARIOS !! slot) :: slot_shapes phase (S slot) n).
    rewrite E. exact (grows_trans _ _ _ [_] _ H Hg).
  - destruct (weighted_scenario_ok (rng_next rng)) as [s Hs]. rewrite Hs. cbn.
    pose proof (push_entry_grows es phase s false (rng_next rng)) as H. destruct (push_entry es phase _ _ _) as [es1 rng1].
    destruct (IH (S slot) es1 rng1) as (es' & rng' & -> & Hg). do 2 eexists; split; [done|].
    change (slot_shapes phase slot (S n)) with ((phase, scenario_id <$> SCENARIOS !! slot) :: slot_shapes phase (S slot) n).
    rewrite E. exact (grows_trans _ _ _ [_] _ H Hg).
Qed.

(** [slots] divided over the three phases as evenly as possible. *)
Definition phase_share (slots i : nat) : nat := (slots / 3 + (if decide (i < slots mod 3) then 1 else 0))%nat.

Lemma duration_phases_grows slots ps : forall i es rng, exists es',
  duration_phases ps i slots es rng = Ok es' /\
  grows es es' (mjoin (imap (fun j p => slot_shapes p 0 (phase_share slots (i + j))) ps)).
Proof.
  induction ps as [|p ps IH]; intros i es rng; cbn [duration_phases]; [eexists; split; [done|apply grows_refl]|].
  destruct (duration_slots_grows (phase_share slots i) p 0 es rng) as (es1 & rng1 & Hd & Hg). unfold phase_share in Hd at 1.
  rewrite Hd. cbn. destruct (IH (S i) es1 rng1) as (es' & -> & Hs). eexists; split; [done|].
  rewrite Nat.add_0_r. replace (imap _ ps) with (imap (fun j p => slot_shapes p 0 (phase_share slots (S i + j))) ps).
  - exact (grows_trans _ _ _ _ _ Hg Hs).
  - apply imap_ext. intros j q _. simpl. now rewrite Nat.add_succ_r.
Qed.

Lemma phase_shares slots : (phase_share slots 0 + phase_share slots 1 + phase_share slots 2 = slots)%nat.
Proof.
  unfold phase_share. pose proof (Nat.div_mod_eq slots 3). pose proof (Nat.mod_upper_bound slots 3).
  repeat case_decide; lia.
Qed.

Lemma length_shapes es shapes : map entry_shape es = shapes -> length es = length shapes.
Proof. intros <-. now rewrite length_map. Qed.

(** An iteration budget schedules, whatever the seed, the three phases in order,
    each with the canonical cycle of scenarios first and then the budgeted number of
    weighted choices; entries are numbered by position, and carry the parameters their
    scenario needs and no other, within the range the driver can check. *)
Theorem iteration_schedule_shape seed n : 0 <= n ->
  exists es, schedule seed (Iterations n) = Ok es /\
    map entry_shape es = (phases ≫= fun p => [(p, Some Scalar); (p, Some Rows); (p, Some SyntaxError)] ++ replicate (Z.to_nat n) (p, None)) /\
    len es = 3 * (3 + n) /\ map ordinal es = seqZ 0 (len es) /\ Forall entry_parameters es.
Proof.
  intros Hn. destruct (schedule_phases_grows (Z.to_nat n) phases [] seed) as (es & He & Hg). exists es. split; [exact He|].
  destruct (Hg ltac:(now split)) as [[Ho Hf] Hs]. split; [exact Hs|]. split; [|now split].
  apply length_shapes in Hs. unfold len. rewrite Hs. simpl. do 3 (rewrite ?length_app, ?length_replicate; simpl). lia.
Qed.
Lemma iteration_schedule_shape_witness : exists es, schedule 42 (Iterations 4) = Ok es /\ len es = 21.
Proof. destruct (iteration_schedule_shape 42 4 ltac:(lia)) as (es & H & _ & Hl & _). exists es. split; [exact H|exact Hl]. Defined.

(** A duration budget schedules one operation for each second, paced at exactly one
    second: the seconds are divided over the three phases in order, with shares that
    differ by one at most, each share starting with the canonical scenarios as far as
    it goes. Below 2^53 seconds the pace is computed in floating point without error. *)
Theorem duration_schedule_paced seed n : 0 < n < 2 ^ 53 ->
  exists es, schedule seed (DurationSeconds n) = Ok es /\
    map entry_shape es = mjoin (imap (fun i p => slot_shapes p 0 (phase_share (Z.to_nat n) i)) phases) /\
    len es = n /\ map ordinal es = seqZ 0 n /\ Forall entry_parameters es /\
    pace_of (DurationSeconds n) es = Ok (Some NANOS).
Proof.
  intros Hn. destruct (duration_phases_grows (Z.to_nat n) phases 0 [] seed) as (es & He & Hg). exists es.
  split; [unfold schedule, duration_schedule; destruct (Z.to_nat n) eqn:E; [lia|exact He]|].
  destruct (Hg ltac:(now split)) as [[Ho Hf] Hs]. split; [exact Hs|].
  assert (len es = n) as Hl.
  { apply length_shapes in Hs. unfold len. rewrite Hs. pose proof (phase_shares (Z.to_nat n)) as Hp. simpl. unfold slot_shapes.
    rewrite !length_app, !length_map, !length_seq. simpl. lia. }
  rewrite Hl in Ho. split_and!; [done..|]. unfold pace_of. rewrite Hl, pace_one_second by done. done.
Qed.
Lemma duration_schedule_paced_witness : exists es, schedule 9 (DurationSeconds 12) = Ok es /\ len es = 12 /\
  pace_of (DurationSeconds 12) es = Ok (Some NANOS).
Proof. destruct (duration_schedule_paced 9 12 ltac:(lia)) as (es & H & _ & Hl & _ & _ & Hp). exists es. split; [exact H|]. split; [exact Hl|exact Hp]. Defined.

(** The generator permutes the non-zero 64-bit states, so it never falls into the
    zero state that yields zeros only, whatever the seed, and two schedules drawn from
    different states keep differing in them. *)
Theorem rng_permutes_states a : 0 <= a < 2 ^ 64 ->
  0 < rng_next a < 2 ^ 64 /\
  forall b, 0 < a -> 0 < b < 2 ^ 64 -> rng_next a = rng_next b -> a = b.
Proof.
  intros Ha. split; [now apply rng_next_range|]. intros b Ha0 Hb. rewrite !rng_next_xorshift.
  unfold rng_state. destruct (Z.eqb_spec a 0), (Z.eqb_spec b 0); try lia. intros H. apply xorshift_inj in H; lia.
Qed.

(** A schedule read from a file may be empty; with a duration budget the pace is then a
    division by zero, which [from_secs_f64] does not accept. *)
Lemma empty_schedule_panics n : 0 < n < 2 ^ 53 -> pace_of (DurationSeconds n) [] = Panic.
Proof.
  intros Hn. destruct n as [|p|p]; try lia. destruct (as_f64_exact p) as [m Hm]; [lia|]. unfold pace_of. rewrite Hm. reflexivity.
Qed.
