(* ===== verification/Soak.v ===== *)
(** Soak execution, recording and replay: the second half of src/soak.rs of
    pg-proto-burn-in. The operating system, the child processes and the SQL client are
    parameters on a world of any type; what the code does with them is modelled. *)

From Stdlib Require Import ZArith Lia String.
From Stdlib Require Import Init.Byte.
From stdpp Require Import prelude.
From S2P Require Import Prelude Scram Text SoakSchedule.

Local Open Scope Z_scope.
Local Open Scope list_scope.

(** ** Effects: a world, errors as messages *)

Definition M (W A : Type) : Type := W -> result A bytes * W.
Definition ret {W A} (a : A) : M W A := fun w => (Ok a, w).
Definition fail {W A} (e : bytes) : M W A := fun w => (Err e, w).
Definition bind {W A B} (m : M W A) (k : A -> M W B) : M W B :=
  fun w => let (r, w) := m w in
    match r with Ok a => k a w | Err e => (Err e, w) | Panic => (Panic, w) end.
Definition lift {W A} (r : result A bytes) : M W A := fun w => (r, w).
Local Notation "'let!' p := c 'in' k" := (bind c (fun p => k)) (at level 10, p pattern, c at level 100, k at level 200).

(** [to_string] of a signed number *)
Definition to_signed_decimal (n : Z) : bytes := if n <? 0 then str "-" ++ to_decimal (- n) else to_decimal n.

Definition parameter (name : bytes) (ps : list (bytes * Z)) : option Z :=
  snd <$> List.find (fun p => bool_decide (p.1 = name)) ps.

(** ** Arguments *)

Fixpoint position (name : bytes) (arguments : list bytes) : option nat :=
  match arguments with
  | [] => None
  | a :: arguments => if bool_decide (a = name) then Some O else S <$> position name arguments
  end.

(** [option] of lib.rs: the argument after the first one with this name. *)
Definition option_ (arguments : list bytes) (name : bytes) : result bytes bytes :=
  match position name arguments with
  | None => Err (str "missing " ++ name)
  | Some index => match arguments !! S index with Some v => Ok v | None => Err (str "missing value for " ++ name) end
  end.
Definition optional_option (arguments : list bytes) (name : bytes) : option bytes :=
  position name arguments ≫= fun index => arguments !! S index.

(** [str::parse::<u64>], with any error message. *)
Definition parse_u64 (invalid : bytes) (s : bytes) : result Z bytes :=
  match parse_unsigned U64_MAX s with Some n => Ok n | None => Err invalid end.

Definition parse_budget (invalid : bytes) (arguments : list bytes) : result Budget bytes :=
  match option_ arguments (str "--iterations"), option_ arguments (str "--duration-seconds") with
  | Ok value, Err _ => let? n := parse_u64 invalid value in Ok (Iterations n)
  | Err _, Ok value => let? n := parse_u64 invalid value in Ok (DurationSeconds n)
  | _, _ => Err (str "soak requires exactly one budget: --iterations or --duration-seconds")
  end.

(** ** Admission of failures *)

Definition EXPECTED_FAILURE_BUDGET : Z := 2.

Record FailureAdmission : Type := mkAdmission { expected_failures : list bytes; stopped : bool }.
Definition default_admission : FailureAdmission := mkAdmission [] false.
Definition record_expected (failure : bytes) (a : FailureAdmission) : FailureAdmission :=
  let failures := expected_failures a ++ [failure] in mkAdmission failures (EXPECTED_FAILURE_BUDGET <? len failures).
Definition stop_for_invariant (a : FailureAdmission) : FailureAdmission := mkAdmission (expected_failures a) true.

(** ** The driver child *)

(** The SQL client of the driver, and the clock. *)
Record SqlClient (W : Type) : Type := mkClient {
  connect : M W unit;
  query_scalar : M W Z;                              (* SELECT 42::int4 *)
  query_rows : Z -> M W Z;                           (* how many rows generate_series(1, n) gives *)
  query_invalid : W -> option (option bytes) * W;    (* SELEC invalid: the SQLSTATE of the error, if it is one *)
  query_ready : M W Z;                               (* SELECT 1::int4 *)
  sleep : Z -> W -> W;
  disconnect : M W unit                              (* drop, then wait for the connection task *)
}.
Arguments connect {W}. Arguments query_scalar {W}. Arguments query_rows {W}. Arguments query_invalid {W}.
Arguments query_ready {W}. Arguments sleep {W}. Arguments disconnect {W}.

Record DriverExecution : Type := mkExecution { execution_completed : Z; admission : FailureAdmission }.

(** What an entry's checks give: the entry is complete, or failed as an expectation. *)
Inductive Check : Type := Complete | Mismatch (failure : bytes).

Section Driver.
Context {W : Type} (client : SqlClient W).

Definition run_scenario (entry : SequenceEntry) : M W Check :=
  match scenario entry with
  | Scalar =>
      let! value := query_scalar client in
      let expected := default 42 (parameter (str "expected") (parameters entry)) in
      if value =? expected then ret Complete
      else ret (Mismatch (str "assertion-mismatch: scalar expected " ++ to_signed_decimal expected ++ str ", got " ++ to_signed_decimal value))
  | Rows =>
      match parameter (str "rows") (parameters entry) with
      | None => fail (str "rows parameter missing")
      | Some expected =>
          let! rows := query_rows client expected in
          if expected <? 0 then fail (str "out of range integral type conversion attempted")
          else if rows =? expected then ret Complete
          else ret (Mismatch (str "assertion-mismatch: row count mismatch"))
      end
  | SyntaxError =>
      fun w =>
        match query_invalid client w with
        | (None, w) => (Panic, w)
        | (Some code, w) =>
            if bool_decide (code = Some (str "42601")) then
              (let! ready := query_ready client in
               if ready =? 1 then ret Complete else fail (str "connection did not recover")) w
            else (Err (str "syntax error SQLSTATE mismatch"), w)
        end
  end.

Fixpoint run_entries (entries : list SequenceEntry) (pace : option Z) (completed : Z) (a : FailureAdmission)
    : M W (Z * FailureAdmission) :=
  match entries with
  | [] => ret (completed, a)
  | entry :: entries =>
      let! check := run_scenario entry in
      match check with
      | Mismatch failure =>
          let a := record_expected failure a in
          if stopped a then ret (completed, a) else run_entries entries pace completed a
      | Complete =>
          fun w => run_entries entries pace (completed + 1) a (match pace with Some p => sleep client p w | None => w end)
      end
  end.

Definition execute_entries (entries : list SequenceEntry) (pace : option Z) : M W DriverExecution :=
  let! _ := connect client in
  let! p := run_entries entries pace 0 default_admission in
  let! _ := disconnect client in
  ret (mkExecution p.1 p.2).

Record DriverResult : Type := mkDriverResult {
  driver_success : bool; driver_completed : Z; driver_failures : list bytes; admission_stopped : bool; driver_error : option bytes
}.

(** The result it prints and how it exits. *)
Definition driver_outcome (outcome : result DriverExecution bytes) : result (DriverResult * result unit bytes) bytes :=
  match outcome with
  | Ok execution =>
      let failures := expected_failures (admission execution) in
      let recoverable_failure := head failures in
      Ok (mkDriverResult (bool_decide (recoverable_failure = None)) (execution_completed execution) failures
            (stopped (admission execution)) recoverable_failure,
          match failures with [] => Ok tt | failure :: _ => Err failure end)
  | Err e => Ok (mkDriverResult false 0 [] true (Some e), Err e)
  | Panic => Panic
  end.

Definition run_driver_child (entries : list SequenceEntry) (pace_millis : option Z) (w : W)
    : result (DriverResult * result unit bytes) bytes * W :=
  let (outcome, w) := execute_entries entries ((fun ms => ms * 10 ^ 6) <$> pace_millis) w in (driver_outcome outcome, w).

End Driver.

(** ** Resources *)

Record ProcessResources : Type := mkProcess {
  pid : Z; rss_bytes : Z; pss_bytes : Z; virtual_memory_bytes : Z; tasks : Z; file_descriptors : Z; cpu_user_ticks : Z;
  cpu_system_ticks : Z; voluntary_context_switches : Z; involuntary_context_switches : Z; read_bytes : Z; write_bytes : Z;
  sampling_gap : option bytes
}.
Definition default_process : ProcessResources := mkProcess 0 0 0 0 0 0 0 0 0 0 0 0 None.
Definition unavailable_process (pid : Z) (reason : bytes) : ProcessResources :=
  mkProcess pid 0 0 0 0 0 0 0 0 0 0 0 (Some reason).

Record PostgresResources : Type := mkPostgres {
  postgres_process : ProcessResources; memory_bytes : Z; connections : Z; locks : Z; temporary_bytes : Z; wal_bytes : Z;
  postgres_gap : option bytes
}.
Definition default_postgres : PostgresResources := mkPostgres default_process 0 0 0 0 0 None.

Record ResourceCheckpoint : Type := mkCheckpoint {
  stage : bytes; quiescent : bool; intermediary : ProcessResources; driver : ProcessResources; postgres : PostgresResources;
  termination : option bytes
}.

Record ResourceGates : Type := mkGates {
  authoritative : bool; passed : bool; baseline_stage : bytes; checked_stages : Z; intermediary_task_growth : Z;
  intermediary_descriptor_growth : Z; postgres_connections_after_drain : Z; postgres_locks_after_drain : Z; gaps : list bytes
}.
Definition default_gates : ResourceGates := mkGates false false [] 0 0 0 0 0 [].

Definition saturating_sub (a b : Z) : Z := Z.max 0 (a - b).

(** [Iterator::max] *)
Fixpoint max_of (l : list Z) : option Z :=
  match l with
  | [] => None
  | x :: l => Some (match max_of l with Some m => Z.max x m | None => x end)
  end.

Definition evaluate_resource_gates (checkpoints : list ResourceCheckpoint) : ResourceGates :=
  let operational := List.filter (fun c => negb (bool_decide (stage c = str "teardown"))) checkpoints in
  match operational with
  | [] => mkGates false false [] 0 0 0 0 0 [str "no quiescent resource checkpoints were recorded"]
  | baseline :: checked =>
      let gaps := omap (fun c => (fun gap => stage c ++ str ": " ++ gap) <$> sampling_gap (intermediary c)) operational in
      let authoritative := match gaps with [] => true | _ => false end in
      let growth (f : ProcessResources -> Z) :=
        default 0 (max_of (map (fun c => saturating_sub (f (intermediary c)) (f (intermediary baseline))) checked)) in
      let task_growth := growth tasks in
      let descriptor_growth := growth file_descriptors in
      let connections_after := default 0 (max_of (map (fun c => connections (postgres c)) operational)) in
      let locks_after := default 0 (max_of (map (fun c => locks (postgres c)) operational)) in
      let passed := (connections_after =? 0) && (locks_after =? 0) &&
                    (negb authoritative || ((task_growth =? 0) && (descriptor_growth =? 0))) in
      mkGates authoritative passed (stage baseline) (len checked) task_growth descriptor_growth connections_after locks_after gaps
  end.

(** ** Recorded results *)

Record LifecycleEvidence : Type := mkLifecycle { graceful_restart : bool; abrupt_evidence : bool; teardown : bool }.
Definition default_lifecycle : LifecycleEvidence := mkLifecycle false false false.

Record FailureEvidence : Type := mkFailure { failure_kind : bytes; fingerprint : bytes; failure_message : bytes }.
#[export] Instance FailureEvidence_eq : EqDecision FailureEvidence.
Proof. solve_decision. Defined.

Record TracePolicy : Type := mkTracePolicy { mode : bytes; capacity : Z; payloads : bool }.
Record TraceEntry : Type := mkTrace {
  trace_ordinal : Z; trace_phase : Phase; trace_scenario : bytes; parameter_names : list bytes; trace_parameters : list (bytes * bytes)
}.
Record FailureBundle : Type := mkBundle {
  bundle_seed : Z; scenario_prefix : list TraceEntry; configuration : Budget * Z * bool; bundle_coverage : list bytes;
  resource_stages : list bytes; bundle_trace : list TraceEntry; child_logs : list bytes; bundle_replay : bytes
}.
Record AdmissionPolicy : Type := mkPolicy {
  expected_failure_budget : Z; expected_failure_action : bytes; invariant_failure_action : bytes
}.
Definition default_policy : AdmissionPolicy :=
  mkPolicy EXPECTED_FAILURE_BUDGET (str "continue-until-budget-exhausted") (str "stop-admission-immediately").

Record SoakResult : Type := mkSoakResult {
  soak_schema : Z; command : bytes; seed : Z; budget : Budget; max_concurrency : Z; scenario_catalogue : list ScenarioDefinition;
  admission_policy : AdmissionPolicy; sequence : list SequenceEntry; soak_completed : Z; soak_success : bool; replay_command : bytes;
  reduced_from : option Z; soak_checkpoints : list ResourceCheckpoint; soak_lifecycle : LifecycleEvidence;
  failure : option FailureEvidence; reproduced_failure : option bool; resource_gates : ResourceGates;
  trace_policy : TracePolicy; recent_trace : list TraceEntry; failure_bundle : option FailureBundle
}.

(** ** Processes *)

Inductive ChildEvent : Type := Ready (listen_addr : bytes) | Completed.

(** A driver child: its entries and its pace in milliseconds; the time it may take. *)
Record DriverRequest : Type := mkRequest { request_entries : list SequenceEntry; pace_millis : option Z; child_timeout : Z }.

Record Os (W : Type) : Type := mkOs {
  create_dir : M W unit;
  start_container : M W bytes;                       (* the address PostgreSQL listens on *)
  spawn_intermediary : bytes -> Z -> M W Z;          (* upstream, connections: the process *)
  read_event : M W ChildEvent;
  wait_success : M W unit;
  (** Runs driver children together: whether each exited successfully, and what it printed. *)
  drive : bytes -> list DriverRequest -> W -> (nat -> result (bool * DriverResult) bytes) * W;
  resource_driver : bytes -> M W (result ResourceCheckpoint bytes);   (* its output, or its standard error *)
  sample_process : Z -> W -> ProcessResources;
  hold_until_ready : bytes -> M W bool;              (* spawns the hold child; whether it said ready *)
  kill_hold : M W bool;                              (* kills it; whether it exited successfully *)
  write_result : SoakResult -> M W unit              (* result.json and summary.md *)
}.
Arguments create_dir {W}. Arguments start_container {W}. Arguments spawn_intermediary {W}. Arguments read_event {W}.
Arguments wait_success {W}. Arguments drive {W}. Arguments resource_driver {W}. Arguments sample_process {W}.
Arguments hold_until_ready {W}. Arguments kill_hold {W}. Arguments write_result {W}.

Record ExecutionOutcome : Type := mkOutcome {
  completed : Z; resource_checkpoints : list ResourceCheckpoint; lifecycle_evidence : LifecycleEvidence
}.

Definition CHILD_TIMEOUT : Z := 30 * NANOS.
Definition MAX_DURATION : Z := DURATION_LIMIT - 1.

(** [checked_mul] and [saturating_add] of a [Duration]. *)
Definition duration_checked_mul (d n : Z) : option Z := if d * n <? DURATION_LIMIT then Some (d * n) else None.
Definition driver_request (entries : list SequenceEntry) (pace : option Z) : DriverRequest :=
  let total := match pace with
               | Some value => if len entries <=? U32_MAX then duration_checked_mul value (len entries) else None
               | None => None
               end in
  mkRequest entries ((fun p => p / 10 ^ 6) <$> pace) (Z.min MAX_DURATION (default 0 total + CHILD_TIMEOUT)).

(** What [run_child] makes of a child's exit. *)
Definition child_completed (o : result (bool * DriverResult) bytes) : result Z bytes :=
  let? p := o in
  if negb p.1 || negb (driver_success p.2) then Err (default (str "soak driver failed") (driver_error p.2))
  else Ok (driver_completed p.2).

Section Execution.
Context {W : Type} (os : Os W).

Definition run_child (address : bytes) (entries : list SequenceEntry) (pace : option Z) : M W Z :=
  fun w => let (outcome, w) := drive os address [driver_request entries pace] w in (child_completed (outcome O), w).

Definition checkpoint (address : bytes) (intermediary_pid : Z) (stage : bytes) : M W ResourceCheckpoint :=
  let! output := resource_driver os address in
  match output with
  | Err e => fail (str "resource checkpoint failed: " ++ e)
  | Panic => lift Panic
  | Ok c =>
      fun w =>
        let termination :=
          if bool_decide (stage = str "long-lived-drained") then Some (str "graceful-close")
          else if bool_decide (stage = str "connection-churn-drained") then Some (str "graceful-restart")
          else if bool_decide (stage = str "abrupt-termination-drained") then Some (str "abrupt-termination")
          else None in
        (Ok (mkCheckpoint stage ((connections (postgres c) =? 0) && (locks (postgres c) =? 0))
               (sample_process os intermediary_pid w) (driver c) (postgres c) termination), w)
  end.

Definition abrupt_termination (address : bytes) : M W unit :=
  let! ready := hold_until_ready os address in
  if negb ready then fail (str "abrupt-termination child did not become ready")
  else
    let! success := kill_hold os in
    if success then fail (str "abrupt-termination child exited successfully") else ret tt.

Fixpoint run_churn (address : bytes) (churn : list SequenceEntry) (pace : option Z) (completed : Z) : M W Z :=
  match churn with
  | [] => ret completed
  | entry :: churn => let! n := run_child address [entry] pace in run_churn address churn pace (completed + n)
  end.

(** The results of a batch, in order, until the first error. *)
Fixpoint collect (outcome : nat -> result (bool * DriverResult) bytes) (i n : nat) (completed : Z) : result Z bytes :=
  match n with
  | O => Ok completed
  | S n => let? c := child_completed (outcome i) in collect outcome (S i) n (completed + c)
  end.

(** [chunks(CONCURRENCY)]: a batch runs together; its pace is stretched by its size. *)
Fixpoint run_batches (fuel : nat) (address : bytes) (entries : list SequenceEntry) (pace : option Z) (completed : Z) : M W Z :=
  match fuel, entries with
  | O, _ | _, [] => ret completed
  | S fuel, _ =>
      let batch := take (Z.to_nat CONCURRENCY) entries in
      let! batch_pace := lift match pace with
                              | None => Ok None
                              | Some value => match duration_checked_mul value (len batch) with Some p => Ok (Some p) | None => Panic end
                              end in
      fun w =>
        let (outcome, w) := drive os address (map (fun entry => driver_request [entry] batch_pace) batch) w in
        (let! completed := lift (collect outcome 0 (length batch) completed) in
         run_batches fuel address (drop (Z.to_nat CONCURRENCY) entries) pace completed) w
  end.

Definition of_phase (phase : Phase) (sequence : list SequenceEntry) : list SequenceEntry :=
  List.filter (fun entry => bool_decide (entry_phase entry = phase)) sequence.

Definition connection_budget (sequence : list SequenceEntry) : Z :=
  (match of_phase LongLived sequence with [] => 0 | _ => 1 end) + len (of_phase ConnectionChurn sequence) +
  len (of_phase BoundedConcurrency sequence) + 7.

Definition execute (sequence : list SequenceEntry) (pace : option Z) : M W ExecutionOutcome :=
  let! upstream := start_container os in
  let long := of_phase LongLived sequence in
  let churn := of_phase ConnectionChurn sequence in
  let concurrent := of_phase BoundedConcurrency sequence in
  let! intermediary_pid := spawn_intermediary os upstream (connection_budget sequence) in
  let! event := read_event os in
  match event with
  | Completed => fail (str "expected soak intermediary ready event")
  | Ready address =>
      let! c1 := checkpoint address intermediary_pid (str "startup-drained") in
      let! completed := match long with [] => ret 0 | _ => run_child address long pace end in
      let! c2 := checkpoint address intermediary_pid (str "long-lived-drained") in
      let! completed := run_churn address churn pace completed in
      let! c3 := checkpoint address intermediary_pid (str "connection-churn-drained") in
      let! completed := run_batches (length concurrent) address concurrent pace completed in
      let! c4 := checkpoint address intermediary_pid (str "bounded-concurrency-drained") in
      let! _ := abrupt_termination address in
      let! c5 := checkpoint address intermediary_pid (str "abrupt-termination-drained") in
      let! _ := run_child address [] None in
      let! event := read_event os in
      match event with
      | Ready _ => fail (str "expected soak intermediary completion event")
      | Completed =>
          let! _ := wait_success os in
          let c6 := mkCheckpoint (str "teardown") true (unavailable_process intermediary_pid (str "process exited after graceful teardown"))
                      (unavailable_process 0 (str "no driver active at teardown")) default_postgres (Some (str "graceful-teardown")) in
          ret (mkOutcome completed [c1; c2; c3; c4; c5; c6] (mkLifecycle true true true))
      end
  end.

End Execution.

(** ** Traces and redaction *)

Definition scenario_name (s : ScenarioId) : bytes :=
  match s with Scalar => str "scalar" | Rows => str "rows" | SyntaxError => str "syntax-error" end.

Definition to_ascii_lowercase (s : bytes) : bytes :=
  map (fun b => if (65 <=? byte_val b) && (byte_val b <=? 90) then byte_of (byte_val b + 32) else b) s.
Definition sensitive_name (name : bytes) : bool :=
  let name := to_ascii_lowercase name in
  existsb (fun sensitive => contains_str sensitive name)
    (map str ["password"; "secret"; "credential"; "tls"; "cancellation"; "token"]%string).

Definition trace_entry (payload_capture : bool) (entry : SequenceEntry) : TraceEntry :=
  mkTrace (ordinal entry) (entry_phase entry) (scenario_name (scenario entry)) (map fst (parameters entry))
    (if payload_capture then
       map (fun p => (p.1, if sensitive_name p.1 then str "<redacted>" else to_signed_decimal p.2)) (parameters entry)
     else []).
Definition trace_entries (sequence : list SequenceEntry) (payload_capture : bool) : list TraceEntry :=
  map (trace_entry payload_capture) sequence.

Definition redact_entry (entry : SequenceEntry) : SequenceEntry :=
  mkSequenceEntry (ordinal entry) (entry_phase entry) (scenario entry) (canonical entry)
    (map (fun p => (p.1, if sensitive_name p.1 then 0 else p.2)) (parameters entry)).
Definition redact_sensitive_sequence (sequence : list SequenceEntry) : list SequenceEntry := map redact_entry sequence.

(** ** Recording *)

Record RecordRequest : Type := mkRecordRequest {
  request_seed : Z; request_budget : Budget; request_command : bytes; request_reduced_from : option Z;
  expected_failure : option FailureEvidence; payload_capture : bool
}.

(** [{byte:02x}] *)
Definition hex_digit (n : Z) : byte := byte_of (if n <? 10 then 48 + n else 87 + n).
Definition hex_byte (b : byte) : bytes := [hex_digit (byte_val b / 16); hex_digit (byte_val b mod 16)].

Section Record_.
(** [Sha256::digest] *)
Context (digest : bytes -> bytes).

Definition classify_failure (raw_message : bytes) : FailureEvidence :=
  let kind := if starts_with (str "assertion-mismatch:") raw_message then str "assertion-mismatch"
              else if starts_with (str "resource-growth:") raw_message then str "resource-growth"
              else str "execution-error" in
  let message := if bool_decide (kind = str "assertion-mismatch") || bool_decide (kind = str "resource-growth") then raw_message
                 else str "execution details redacted; use the fingerprint and child logs for diagnosis" in
  mkFailure kind (digest raw_message ≫= hex_byte) message.

Definition resource_gate_failure (gates : ResourceGates) : FailureEvidence :=
  classify_failure
    (str "resource-growth: tasks +" ++ to_decimal (intermediary_task_growth gates) ++
     str ", descriptors +" ++ to_decimal (intermediary_descriptor_growth gates) ++
     str ", PostgreSQL connections " ++ to_signed_decimal (postgres_connections_after_drain gates) ++
     str ", locks " ++ to_signed_decimal (postgres_locks_after_drain gates)).

Definition TRACE_CAPACITY : Z := 64.

(** [execute_and_record] between the execution and the write: the result to write and
    what it then returns. [Err] stands for an execution that returned an error. *)
Definition record_outcome (outcome : ExecutionOutcome + bytes) (sequence : list SequenceEntry) (request : RecordRequest)
    : SoakResult * result unit bytes :=
  let completed := match outcome with inl value => completed value | inr _ => 0 end in
  let checkpoints := match outcome with inl value => resource_checkpoints value | inr _ => [] end in
  let lifecycle := match outcome with inl value => lifecycle_evidence value | inr _ => default_lifecycle end in
  let gates := evaluate_resource_gates checkpoints in
  let gate_failure := match outcome with inl _ => negb (passed gates) | inr _ => false end in
  let failure := match outcome with
                 | inr error => Some (classify_failure error)
                 | inl _ => if gate_failure then Some (resource_gate_failure gates) else None
                 end in
  let reproduced := (fun expected => bool_decide (failure = Some expected)) <$> expected_failure request in
  let full_trace := trace_entries sequence (payload_capture request) in
  let recent := rev (take (Z.to_nat TRACE_CAPACITY) (rev full_trace)) in
  let replay := str "pg-proto-burn-in replay --input result.json --output-dir replay" in
  let bundle :=
    (fun _ => mkBundle (request_seed request)
                (take (Z.to_nat (Z.min (saturating_add USIZE_MAX completed 1) (len full_trace))) full_trace)
                (request_budget request, CONCURRENCY, payload_capture request) [] (map stage checkpoints) recent
                [str "child diagnostics redacted; correlate with failure fingerprint"] replay) <$> failure in
  let success := match outcome with inl _ => negb gate_failure | inr _ => false end in
  (mkSoakResult 1 (request_command request) (request_seed request) (request_budget request) CONCURRENCY SCENARIOS default_policy
     (redact_sensitive_sequence sequence) completed success replay (request_reduced_from request) checkpoints lifecycle failure
     reproduced gates
     (mkTracePolicy (if payload_capture request then str "diagnostic" else str "redacted") TRACE_CAPACITY (payload_capture request))
     recent bundle,
   if gate_failure then Err (str "resource-growth: a quiescent resource gate failed")
   else match outcome with inl _ => Ok tt | inr error => Err error end).

Context {W : Type} (os : Os W).

Definition execute_and_record (sequence : list SequenceEntry) (request : RecordRequest) : M W unit :=
  let! _ := create_dir os in
  let! pace := lift (pace_of (request_budget request) sequence) in
  fun w =>
    let (outcome, w) := execute os sequence pace w in
    let finish o w :=
      let (res, returned) := record_outcome o sequence request in (let! _ := write_result os res in lift returned) w in
    match outcome with
    | Ok value => finish (inl value) w
    | Err error => finish (inr error) w
    | Panic => (Panic, w)
    end.

(** [run_soak]; reading a schedule file is a parameter. *)
Definition run_soak (invalid : bytes) (read_schedule : bytes -> M W (list SequenceEntry)) (arguments : list bytes) : M W unit :=
  let! seed := lift (let? v := option_ arguments (str "--seed") in parse_u64 invalid v) in
  let! budget := lift (parse_budget invalid arguments) in
  let! _ := lift (option_ arguments (str "--output-dir")) in
  let payload_capture := bool_decide (str "--capture-payloads" ∈ arguments) in
  let! sequence := match optional_option arguments (str "--schedule") with
                   | Some path => read_schedule path
                   | None => lift (schedule seed budget)
                   end in
  match arguments with
  | [] => fail (str "missing executable path")
  | _ => execute_and_record sequence (mkRecordRequest seed budget (str "soak") None None payload_capture)
  end.

(** ** Reduction *)

(** The bounded search: [fuel] executions at most. *)
Fixpoint reduce_loop (fuel : nat) (sequence : list SequenceEntry) (passing_prefix failing_prefix : Z) (w : W) : result Z bytes * W :=
  match fuel with
  | O => (Ok failing_prefix, w)
  | S fuel =>
      if failing_prefix - passing_prefix <=? 1 then (Ok failing_prefix, w)
      else
        let candidate := passing_prefix + (failing_prefix - passing_prefix) / 2 in
        match execute os (take (Z.to_nat candidate) sequence) None w with
        | (Err _, w) => reduce_loop fuel sequence passing_prefix candidate w
        | (Ok _, w) => reduce_loop fuel sequence candidate failing_prefix w
        | (Panic, w) => (Panic, w)
        end
  end.

Definition reduce_failing_prefix (sequence : list SequenceEntry) : M W (list SequenceEntry) :=
  if len sequence <=? 1 then ret sequence
  else let! n := reduce_loop 8 sequence 0 (len sequence) in ret (take (Z.to_nat n) sequence).

(** [run_replay] after the original evidence is preserved: what it returns, and the
    reduced sequence it writes as [reduction.json], if it does. *)
Definition replay (original : SoakResult) (reduce : bool) (w : W) : result (option (list SequenceEntry)) bytes * W * result unit bytes :=
  let request := mkRecordRequest (seed original) (budget original) (str "replay") None (failure original) (payloads (trace_policy original)) in
  let (exact, w) := execute_and_record (sequence original) request w in
  match exact with
  | Panic => (Panic, w, Panic)
  | Ok _ => (Ok None, w, exact)
  | Err _ =>
      if negb reduce then (Ok None, w, exact)
      else match reduce_failing_prefix (sequence original) w with
           | (Ok reduced, w) => (Ok (Some reduced), w, exact)
           | (Err e, w) => (Err e, w, exact)
           | (Panic, w) => (Panic, w, Panic)
           end
  end.

End Record_.
