(* ===== verification/SoakSpec.v ===== *)
(** What a soak run guarantees: failures are admitted within their budget, every
    connection the intermediary waits for is opened, recorded results agree with the
    outcome and carry no sensitive value, and reduction keeps a failing prefix. *)

From Stdlib Require Import ZArith Lia String.
From Stdlib Require Import Init.Byte.
From stdpp Require Import prelude.
From S2P Require Import Prelude Scram Text SoakSchedule Soak.

Local Open Scope Z_scope.
Local Open Scope list_scope.

(** ** Effects *)

Lemma soak_bind_ok {W A B} (m : M W A) (k : A -> M W B) w b w' :
  bind m k w = (Ok b, w') -> exists a w1, m w = (Ok a, w1) /\ k a w1 = (Ok b, w').
Proof. unfold bind. destruct (m w) as [[a|e|] w1]; [eauto|done..]. Qed.

(** ** The driver *)

Section Driver.
Context {W : Type} (client : SqlClient W).

(** What the loop keeps: failures within the budget, and stopped only when it is spent. *)
Definition admissible (a : FailureAdmission) : Prop :=
  stopped a = (EXPECTED_FAILURE_BUDGET <? len (expected_failures a)).

Lemma record_expected_admissible failure a : admissible (record_expected failure a).
Proof. done. Qed.

Lemma run_entries_counts entries pace : forall completed a w n a' w',
  admissible a -> stopped a = false -> run_entries client entries pace completed a w = (Ok (n, a'), w') ->
  admissible a' /\ len (expected_failures a') <= 3 /\ (stopped a' = false -> n + len (expected_failures a') = completed + len (expected_failures a) + len entries) /\
  completed <= n /\ n + len (expected_failures a') <= completed + len (expected_failures a) + len entries.
Proof.
  induction entries as [|entry entries IH]; intros completed a w n a' w' Ha Hs; cbn [run_entries].
  { unfold ret. intros [= <- <- <-]. split; [done|]. unfold admissible, EXPECTED_FAILURE_BUDGET in Ha. rewrite Hs in Ha.
    symmetry in Ha. apply Z.ltb_ge in Ha. change (len []) with 0. split_and!; lia. }
  intros H. apply soak_bind_ok in H as (check & w1 & _ & H). rewrite len_cons. destruct check as [|failure].
  - apply IH in H as (H1 & H2 & H3 & H4 & H5); [|done..]. split_and!; try done; try lia. intros Hst. specialize (H3 Hst). lia.
  - assert (len (expected_failures (record_expected failure a)) = len (expected_failures a) + 1) as Hl.
    { unfold len; simpl. rewrite length_app. simpl. lia. }
    assert (len (expected_failures a) <= 2) as Hlt.
    { unfold admissible, EXPECTED_FAILURE_BUDGET in Ha. rewrite Hs in Ha. symmetry in Ha. apply Z.ltb_ge in Ha. lia. }
    destruct (stopped (record_expected failure a)) eqn:Est.
    + injection H as <- <- <-. rewrite Hl, Est. pose proof (len_nonneg entries). split_and!; try done; lia.
    + apply IH in H as (H1 & H2 & H3 & H4 & H5); [|done..]. rewrite Hl in *.
      split_and!; try done; try lia. intros Hst. specialize (H3 Hst). lia.
Qed.

(** A driver child admits at most two expected failures and stops at the third;
    until it stops it attempts every entry, so every one is either complete or
    counted as a failure. It reports success exactly when every entry completed. *)
Theorem driver_reports entries pace w w' res exit :
  run_driver_child client entries pace w = (Ok (res, exit), w') ->
  len (driver_failures res) <= 3 /\
  (driver_success res = true <-> driver_completed res = len entries /\ driver_error res = None) /\
  (driver_success res = true <-> exit = Ok tt) /\
  (admission_stopped res = false -> driver_completed res + len (driver_failures res) = len entries).
Proof.
  unfold run_driver_child. destruct (execute_entries client entries _ w) as [outcome w1] eqn:E.
  destruct outcome as [ex|e|]; simpl; [|intros [= <- <- <-]; unfold len; simpl; split_and!; try done; naive_solver|done].
  unfold execute_entries in E. apply soak_bind_ok in E as (_ & w2 & _ & E). apply soak_bind_ok in E as ([n a] & w3 & Hr & E).
  apply soak_bind_ok in E as (_ & w4 & _ & [= <- <-]). intros [= <- <- <-]. simpl.
  apply run_entries_counts in Hr as (Ha & H3 & Heq & _ & Hle); [|done..]. simpl in *. change (len (@nil bytes)) with 0 in *.
  unfold admissible, EXPECTED_FAILURE_BUDGET in Ha.
  destruct (expected_failures a) as [|f fs] eqn:Ef; simpl; rewrite ?bool_decide_true, ?bool_decide_false by done.
  - change (len (@nil bytes)) with 0 in *. rewrite Ha in Heq. specialize (Heq eq_refl). split_and!; try done; try (intros; lia). split; [intros _; split; [lia|done]|done].
  - split_and!; try done; naive_solver.
Qed.

End Driver.

(** ** Resource gates *)

Lemma max_of_le l bound : (forall x, x ∈ l -> x <= bound) -> forall m, max_of l = Some m -> m <= bound.
Proof.
  induction l as [|x l IH]; intros H m; simpl; [done|]. intros [= <-].
  assert (x <= bound) by (apply H; left). destruct (max_of l) as [m'|] eqn:E; [|done].
  assert (m' <= bound) by (apply IH; [intros y Hy; apply H; now right|done]). lia.
Qed.
Lemma max_of_ge l x : x ∈ l -> exists m, max_of l = Some m /\ x <= m.
Proof.
  induction l as [|y l IH]; intros H; [now apply elem_of_nil in H|]. simpl. apply elem_of_cons in H as [->|H].
  - destruct (max_of l); eexists; split; try done; lia.
  - destruct (IH H) as (m & -> & Hm). eexists; split; [done|]. lia.
Qed.

(** A maximum of counts is zero exactly when every count is. *)
Lemma max_zero l : (forall x, x ∈ l -> 0 <= x) -> default 0 (max_of l) = 0 <-> (forall x, x ∈ l -> x = 0).
Proof.
  intros Hpos. split.
  - intros H x Hx. destruct (max_of_ge l x Hx) as (m & Hm & Hle). rewrite Hm in H. simpl in H. specialize (Hpos x Hx). lia.
  - intros H. destruct l as [|y l]; [done|]. destruct (max_of_ge (y :: l) y ltac:(left)) as (m & Hm & Hle). rewrite Hm. simpl.
    assert (m <= 0) by (eapply max_of_le; [|exact Hm]; intros x Hx; rewrite (H x Hx); lia).
    rewrite (H y ltac:(left)) in Hle. lia.
Qed.

Definition operational (checkpoints : list ResourceCheckpoint) : list ResourceCheckpoint :=
  List.filter (fun c => negb (bool_decide (stage c = str "teardown"))) checkpoints.

Lemma gaps_nil (l : list ResourceCheckpoint) :
  omap (fun c => (fun gap => stage c ++ str ": " ++ gap) <$> sampling_gap (intermediary c)) l = [] <->
  forall c, c ∈ l -> sampling_gap (intermediary c) = None.
Proof.
  induction l as [|c l IH]; [split; [intros _ c Hc; now apply elem_of_nil in Hc|done]|].
  simpl. destruct (sampling_gap (intermediary c)) as [g|] eqn:E; simpl.
  - split; [done|]. intros H. specialize (H c ltac:(left)). congruence.
  - unfold omap in IH. rewrite IH. split; intros H d.
    + intros Hd. apply elem_of_cons in Hd as [->|Hd]; auto.
    + intros Hd. apply H. now right.
Qed.

Lemma growth_zero (f : ProcessResources -> Z) baseline (checked : list ResourceCheckpoint) :
  default 0 (max_of (map (fun c => saturating_sub (f (intermediary c)) (f (intermediary baseline))) checked)) = 0 <->
  forall c, c ∈ checked -> f (intermediary c) <= f (intermediary baseline).
Proof.
  rewrite max_zero.
  - split; intros H.
    + intros c Hc. assert (saturating_sub (f (intermediary c)) (f (intermediary baseline)) = 0) as Hz.
      { apply H. apply list_elem_of_fmap. eauto. }
      unfold saturating_sub in Hz. lia.
    + intros x Hx. apply list_elem_of_fmap in Hx as (c & -> & Hc). specialize (H c Hc). unfold saturating_sub. lia.
  - intros x Hx. apply list_elem_of_fmap in Hx as (c & -> & Hc). unfold saturating_sub. lia.
Qed.

(** The resource gates pass exactly when a checkpoint was recorded while the
    intermediary was running, PostgreSQL has no client connection and no lock left at
    any of them, and, when the intermediary could be sampled at all of them, it never
    has more tasks or descriptors than at the first one. *)
Theorem gates_exact checkpoints :
  (forall c, c ∈ operational checkpoints -> 0 <= connections (postgres c) /\ 0 <= locks (postgres c)) ->
  passed (evaluate_resource_gates checkpoints) = true <->
  exists baseline checked, operational checkpoints = baseline :: checked /\
    (forall c, c ∈ operational checkpoints -> connections (postgres c) = 0 /\ locks (postgres c) = 0) /\
    ((forall c, c ∈ operational checkpoints -> sampling_gap (intermediary c) = None) ->
      forall c, c ∈ checked -> tasks (intermediary c) <= tasks (intermediary baseline) /\
                               file_descriptors (intermediary c) <= file_descriptors (intermediary baseline)).
Proof.
  intros Hpos. unfold evaluate_resource_gates. fold (operational checkpoints).
  destruct (operational checkpoints) as [|baseline checked] eqn:E; [split; [done|intros (b & c & H & _); done]|].
  cbv zeta. rewrite <- E in *.
  assert (forall f : PostgresResources -> Z, (forall c, c ∈ operational checkpoints -> 0 <= f (postgres c)) ->
    (default 0 (max_of (map (fun c => f (postgres c)) (operational checkpoints))) =? 0) = true <->
    (forall c, c ∈ operational checkpoints -> f (postgres c) = 0)) as Hzero.
  { intros f Hf. rewrite Z.eqb_eq, max_zero.
    - split; intros H; [intros c Hc; apply H, list_elem_of_fmap; eauto|].
      intros x Hx. apply list_elem_of_fmap in Hx as (c & -> & Hc). auto.
    - intros x Hx. apply list_elem_of_fmap in Hx as (c & -> & Hc). auto. }
  cbn [passed]. rewrite !andb_true_iff, (Hzero connections), (Hzero locks), orb_true_iff, andb_true_iff, !Z.eqb_eq, !growth_zero by (intros c Hc; now apply Hpos in Hc).
  pose proof (gaps_nil (operational checkpoints)) as Hgaps.
  destruct (omap _ (operational checkpoints)) as [|g gs] eqn:Eg; simpl.
  - split.
    + intros [[Hc Hl] [|[Ht Hf]]]; [done|]. exists baseline, checked. split_and!; [exact E|auto|auto].
    + intros (b & ch & Hbc & H1 & H2). rewrite E in Hbc. injection Hbc as <- <-. specialize (H2 (proj1 Hgaps eq_refl)).
      split; [split; intros c Hc; now apply H1|]. right. split; intros c Hc; now apply H2.
  - split.
    + intros [[Hc Hl] _]. exists baseline, checked. split_and!; [exact E|auto|]. intros Hnone. apply Hgaps in Hnone. done.
    + intros (b & ch & _ & H1 & _). split; [split; intros c Hc; now apply H1|now left].
Qed.

(** ** Recorded results *)

(** Entries that differ in the values of sensitive parameters at most. *)
Definition same_but_secrets (e1 e2 : SequenceEntry) : Prop :=
  ordinal e1 = ordinal e2 /\ entry_phase e1 = entry_phase e2 /\ scenario e1 = scenario e2 /\ canonical e1 = canonical e2 /\
  Forall2 (fun p q => p.1 = q.1 /\ (sensitive_name p.1 = false -> p.2 = q.2)) (parameters e1) (parameters e2).

Lemma map_secrets {B} (f : bytes -> B) (g : bytes -> Z -> B) (ps qs : list (bytes * Z)) :
  Forall2 (fun p q => p.1 = q.1 /\ (sensitive_name p.1 = false -> p.2 = q.2)) ps qs ->
  map (fun p => (p.1, if sensitive_name p.1 then f p.1 else g p.1 p.2)) ps = map (fun p => (p.1, if sensitive_name p.1 then f p.1 else g p.1 p.2)) qs.
Proof.
  induction 1 as [|p q ps qs [H1 H2] _ IH]; simpl; [done|]. rewrite IH, <- H1. f_equal.
  destruct (sensitive_name p.1); [done|]. now rewrite H2.
Qed.

Lemma redact_secrets s1 s2 : Forall2 same_but_secrets s1 s2 -> redact_sensitive_sequence s1 = redact_sensitive_sequence s2.
Proof.
  induction 1 as [|e1 e2 s1 s2 (H1 & H2 & H3 & H4 & H5) _ IH]; simpl; [done|]. rewrite IH. f_equal.
  unfold redact_entry. rewrite H1, H2, H3, H4. f_equal. exact (map_secrets (fun _ => 0) (fun _ v => v) _ _ H5).
Qed.

Lemma trace_secrets capture s1 s2 : Forall2 same_but_secrets s1 s2 -> trace_entries s1 capture = trace_entries s2 capture.
Proof.
  induction 1 as [|e1 e2 s1 s2 (H1 & H2 & H3 & H4 & H5) _ IH]; simpl; [done|]. rewrite IH. f_equal.
  unfold trace_entry. rewrite H1, H2, H3. f_equal.
  - induction H5 as [|p q ps qs [Hp _] _ IHp]; simpl; [done|]. now rewrite Hp, IHp.
  - destruct capture; [|done]. exact (map_secrets (fun _ => str "<redacted>") (fun _ v => to_signed_decimal v) _ _ H5).
Qed.

(** Recorded evidence carries no sensitive value: two runs with the same outcome
    whose sequences differ in the values of parameters named like a password, secret,
    credential, TLS material, cancellation key or token record the same result, trace
    and failure bundle, payload capture or not. *)
Theorem record_hides_secrets digest outcome s1 s2 request :
  Forall2 same_but_secrets s1 s2 -> record_outcome digest outcome s1 request = record_outcome digest outcome s2 request.
Proof.
  intros H. unfold record_outcome. rewrite (redact_secrets _ _ H), (trace_secrets _ _ _ H). done.
Qed.

Definition secret_entry (v : Z) : SequenceEntry :=
  mkSequenceEntry 0 LongLived Scalar false [(str "expected", 41); (str "TLS_secret", v)].
Lemma record_hides_secrets_witness :
  record_outcome (fun b => b) (inr (str "assertion-mismatch: scalar expected 41, got 42")) [secret_entry 234567]
    (mkRecordRequest 91 (Iterations 0) (str "soak") None None true) =
  record_outcome (fun b => b) (inr (str "assertion-mismatch: scalar expected 41, got 42")) [secret_entry 1]
    (mkRecordRequest 91 (Iterations 0) (str "soak") None None true).
Proof.
  apply record_hides_secrets. constructor; [|constructor]. split_and!; try done. simpl.
  constructor; [done|]. constructor; [|constructor]. split; [done|]. vm_compute. done.
Defined.

(** The recorded result agrees with the outcome: it is a success exactly when the
    run returns normally, which it does when the execution succeeded and the resource
    gates passed; a failure and its bundle are recorded otherwise; and the recent trace
    is the last 64 operations at most. *)
Theorem record_consistent digest outcome sequence request :
  let (res, returned) := record_outcome digest outcome sequence request in
  (soak_success res = true <-> returned = Ok tt) /\
  (soak_success res = true <-> exists o, outcome = inl o /\ passed (evaluate_resource_gates (resource_checkpoints o)) = true) /\
  (soak_success res = true <-> failure res = None) /\ (failure res = None <-> failure_bundle res = None) /\
  len (recent_trace res) <= 64 /\ recent_trace res `suffix_of` trace_entries sequence (payload_capture request).
Proof.
  unfold record_outcome. cbn [soak_success failure failure_bundle recent_trace].
  assert (forall t : list TraceEntry, len (rev (take (Z.to_nat TRACE_CAPACITY) (rev t))) <= 64 /\ rev (take (Z.to_nat TRACE_CAPACITY) (rev t)) `suffix_of` t) as Ht.
  { intros t. split.
    - unfold len. rewrite length_rev, length_take. unfold TRACE_CAPACITY. lia.
    - exists (rev (drop (Z.to_nat TRACE_CAPACITY) (rev t))). rewrite <- rev_app_distr, take_drop, rev_involutive. done. }
  specialize (Ht (trace_entries sequence (payload_capture request))).
  destruct outcome as [o|e]; [destruct (passed (evaluate_resource_gates (resource_checkpoints o))) eqn:Ep|]; simpl; split_and!; try apply Ht; try done;
    try (split; [done|]; intros (o' & [=] & ?); subst; congruence). split; [eauto|done].
Qed.

(** When the execution fails, how far it got is not recorded: the bundle's scenario
    prefix is the first entry of the sequence, wherever the failure was. *)
Theorem failed_prefix_is_first digest error sequence request :
  match failure_bundle (record_outcome digest (inr error) sequence request).1 with
  | Some bundle => scenario_prefix bundle = take 1 (trace_entries sequence (payload_capture request)) /\ resource_stages bundle = []
  | None => False
  end.
Proof.
  unfold record_outcome. simpl. split; [|done]. destruct (trace_entries sequence (payload_capture request)) as [|t ts]; [done|].
  rewrite len_cons. pose proof (len_nonneg ts). unfold saturating_add, USIZE_MAX. rewrite Z.min_l by lia. done.
Qed.

(** Generated schedules have no sensitive parameter, so what is recorded for replay is
    what was executed. *)
Theorem schedule_recorded_exactly seed budget es :
  0 <= match budget with Iterations n => n | DurationSeconds n => n end < 2 ^ 53 ->
  schedule seed budget = Ok es -> redact_sensitive_sequence es = es.
Proof.
  intros Hn Hs. assert (Forall entry_parameters es) as Hf.
  { destruct budget as [n|n].
    - destruct (schedule_phases_grows (Z.to_nat n) phases [] seed) as (es' & He & Hg). unfold schedule in Hs. rewrite He in Hs.
      injection Hs as ->. now destruct (Hg ltac:(now split)) as [[_ Hf] _].
    - destruct (duration_phases_grows (Z.to_nat n) phases 0 [] seed) as (es' & He & Hg). unfold schedule, duration_schedule in Hs.
      destruct (Z.to_nat n); [done|]. rewrite He in Hs. injection Hs as ->. now destruct (Hg ltac:(now split)) as [[_ Hf] _]. }
  clear Hs Hn. induction Hf as [|e es He _ IH]; simpl; [done|]. rewrite IH. f_equal. unfold redact_entry.
  unfold entry_parameters in He. destruct e as [o p s c ps]; simpl in *. f_equal.
  destruct s; [now subst| |now subst]. destruct He as (n & -> & _). reflexivity.
Qed.

(** ** The connections of an execution *)

(** What an execution asks of the system, as far as connections are concerned. *)
Inductive Event : Type :=
| Spawned (connections : Z)             (* the intermediary, which serves this many *)
| Driven (requests : list DriverRequest)  (* driver children, one connection each *)
| Observed                              (* the resource driver's connection *)
| Held.                                 (* the connection that is terminated *)

Definition event_connections (e : Event) : Z :=
  match e with Spawned _ => 0 | Driven requests => len requests | Observed | Held => 1 end.
Definition total_connections (es : list Event) : Z := foldr (fun e n => event_connections e + n) 0 es.
Definition driven_entries (es : list Event) : list SequenceEntry :=
  es ≫= fun e => match e with Driven requests => requests ≫= request_entries | _ => [] end.

Lemma total_connections_app es fs : total_connections (es ++ fs) = total_connections es + total_connections fs.
Proof. induction es as [|e es IH]; simpl; [done|]. rewrite IH. lia. Qed.

Lemma driven_entries_app es fs : driven_entries (es ++ fs) = driven_entries es ++ driven_entries fs.
Proof. apply bind_app. Qed.

Section Plan.
Context {W : Type} (os : Os W).

Definition logging {A} (events : list Event) (m : M W A) : M (W * list Event) A :=
  fun '(w, log) => let (r, w) := m w in (r, (w, log ++ events)).

(** The same system, keeping a log of what it was asked. *)
Definition logged : Os (W * list Event) :=
  mkOs _ (logging [] (create_dir os)) (logging [] (start_container os))
    (fun upstream n => logging [Spawned n] (spawn_intermediary os upstream n))
    (logging [] (read_event os)) (logging [] (wait_success os))
    (fun address requests '(w, log) => let (o, w) := drive os address requests w in (o, (w, log ++ [Driven requests])))
    (fun address => logging [Observed] (resource_driver os address))
    (fun pid '(w, _) => sample_process os pid w)
    (fun address => logging [Held] (hold_until_ready os address))
    (logging [] (kill_hold os)) (fun r => logging [] (write_result os r)).

(** A computation that succeeds has logged exactly these events. *)
Definition logs {A} (m : M (W * list Event) A) (events : list Event) : Prop :=
  forall w log a w' log', m (w, log) = (Ok a, (w', log')) -> log' = log ++ events.

Lemma logs_logging {A} events (m : M W A) : logs (logging events m) events.
Proof. intros w log a w' log'. unfold logging. destruct (m w) as [r w1]. now intros [= _ _ <-]. Qed.
Lemma logs_ret {A} (a : A) : logs (ret a) [].
Proof. intros w log b w' log' [= _ _ <-]. now rewrite app_nil_r. Qed.
Lemma logs_lift {A} (r : result A bytes) : logs (lift r) [].
Proof. intros w log b w' log' [= _ _ <-]. now rewrite app_nil_r. Qed.
Lemma logs_fail {A} e events : logs (@fail _ A e) events.
Proof. now intros w log a w' log' H. Qed.
Lemma logs_bind {A B} (m : M _ A) (k : A -> M _ B) es fs :
  logs m es -> (forall a, logs (k a) fs) -> logs (bind m k) (es ++ fs).
Proof.
  intros Hm Hk w log b w' log' H. apply soak_bind_ok in H as (a & [w1 log1] & H1 & H2).
  apply Hm in H1 as ->. apply Hk in H2 as ->. now rewrite app_assoc.
Qed.
(** The same, for a first step that logs nothing. *)
Lemma logs_bind_nil {A B} (m : M _ A) (k : A -> M _ B) es : logs m [] -> (forall a, logs (k a) es) -> logs (bind m k) es.
Proof. exact (logs_bind m k [] es). Qed.

Lemma logs_drive {A} address requests (k : (nat -> result (bool * DriverResult) bytes) -> result A bytes) :
  logs (fun w => let (o, w) := drive logged address requests w in (k o, w)) [Driven requests].
Proof. intros w log a w' log'. simpl. destruct (drive os address requests w) as [o w1]. now intros [= _ _ <-]. Qed.

Lemma logs_run_child address entries pace : logs (run_child logged address entries pace) [Driven [driver_request entries pace]].
Proof. exact (logs_drive address _ (fun o => child_completed (o O))). Qed.

Lemma logs_checkpoint address pid stage : logs (checkpoint logged address pid stage) [Observed].
Proof.
  unfold checkpoint. rewrite <- (app_nil_r [Observed]). apply logs_bind; [apply logs_logging|]. intros [c|e|].
  - intros w log a w' log' [= _ _ <-]. now rewrite app_nil_r.
  - apply logs_fail.
  - intros w log a w' log' H. done.
Qed.

Lemma logs_abrupt address : logs (abrupt_termination logged address) [Held].
Proof.
  unfold abrupt_termination. rewrite <- (app_nil_r [Held]). apply logs_bind; [apply logs_logging|]. intros []; simpl; [|apply logs_fail].
  apply logs_bind_nil; [apply logs_logging|]. intros []; [apply logs_fail|apply logs_ret].
Qed.

Lemma logs_churn address churn pace : forall n,
  logs (run_churn logged address churn pace n) (map (fun e => Driven [driver_request [e] pace]) churn).
Proof.
  induction churn as [|e churn IH]; intros n; simpl; [apply logs_ret|].
  apply (logs_bind _ _ [_]); [apply logs_run_child|auto].
Qed.

(** The batches of the last phase. *)
Fixpoint batch_events (fuel : nat) (entries : list SequenceEntry) (pace : option Z) : list Event :=
  match fuel, entries with
  | O, _ | _, [] => []
  | S fuel, _ =>
      let batch := take (Z.to_nat CONCURRENCY) entries in
      let batch_pace := (fun value => value * len batch) <$> pace in
      Driven (map (fun entry => driver_request [entry] batch_pace) batch) :: batch_events fuel (drop (Z.to_nat CONCURRENCY) entries) pace
  end.

Lemma logs_batches address pace fuel : forall entries n,
  logs (run_batches logged fuel address entries pace n) (batch_events fuel entries pace).
Proof.
  induction fuel as [|fuel IH]; intros [|e entries] n; cbn [run_batches batch_events]; try apply logs_ret.
  set (batch := take _ (e :: entries)). intros w log a w' log' H. apply soak_bind_ok in H as (bp & [w1 log1] & H1 & H2).
  unfold lift in H1. injection H1 as Hbp <- <-.
  assert (bp = (fun value => value * len batch) <$> pace) as ->.
  { destruct pace as [v|]; simpl; [|congruence]. unfold duration_checked_mul in Hbp. destruct (_ <? _); [congruence|done]. }
  simpl in H2. destruct (drive os address _ w) as [o w2] eqn:Ed. apply soak_bind_ok in H2 as (m & [w3 log3] & H3 & H4).
  unfold lift in H3. injection H3 as _ <- <-. apply IH in H4 as ->. rewrite <- app_assoc. done.
Qed.

(** Everything an execution asks for, in order. *)
Definition plan_rest (sequence : list SequenceEntry) (pace : option Z) : list Event :=
  let long := of_phase LongLived sequence in
  let concurrent := of_phase BoundedConcurrency sequence in
  [Observed] ++
  match long with [] => [] | _ => [Driven [driver_request long pace]] end ++ [Observed] ++
  map (fun e => Driven [driver_request [e] pace]) (of_phase ConnectionChurn sequence) ++ [Observed] ++
  batch_events (length concurrent) concurrent pace ++ [Observed] ++ [Held] ++ [Observed] ++ [Driven [driver_request [] None]].

Definition plan (sequence : list SequenceEntry) (pace : option Z) : list Event :=
  [Spawned (connection_budget sequence)] ++ plan_rest sequence pace.

Lemma logs_execute sequence pace : logs (execute logged sequence pace) (plan sequence pace).
Proof.
  unfold execute, plan, plan_rest. apply logs_bind_nil; [apply logs_logging|intros upstream].
  apply logs_bind; [apply logs_logging|intros pid]. apply logs_bind_nil; [apply logs_logging|intros [address|]]; [|apply logs_fail].
  apply logs_bind; [apply logs_checkpoint|intros c1].
  apply logs_bind; [destruct (of_phase LongLived sequence); [apply logs_ret|apply logs_run_child]|intros n1].
  apply logs_bind; [apply logs_checkpoint|intros c2]. apply logs_bind; [apply logs_churn|intros n2].
  apply logs_bind; [apply logs_checkpoint|intros c3]. apply logs_bind; [apply logs_batches|intros n3].
  apply logs_bind; [apply logs_checkpoint|intros c4]. apply logs_bind; [apply logs_abrupt|intros _].
  apply logs_bind; [apply logs_checkpoint|intros c5]. rewrite <- (app_nil_r [Driven _]).
  apply logs_bind; [apply logs_run_child|intros _]. apply logs_bind_nil; [apply logs_logging|intros []]; [apply logs_fail|].
  apply logs_bind_nil; [apply logs_logging|intros _]. apply logs_ret.
Qed.

Lemma churn_connections churn pace : total_connections (map (fun e => Driven [driver_request [e] pace]) churn) = len churn.
Proof. induction churn as [|e churn IH]; simpl; [done|]. rewrite IH, !len_cons. done. Qed.
Lemma churn_entries churn pace : driven_entries (map (fun e => Driven [driver_request [e] pace]) churn) = churn.
Proof. induction churn as [|e churn IH]; simpl; [done|]. now rewrite IH. Qed.

Lemma batch_connections pace fuel : forall entries, (length entries <= fuel)%nat ->
  total_connections (batch_events fuel entries pace) = len entries.
Proof.
  induction fuel as [|fuel IH]; intros [|e entries] Hl; cbn [batch_events]; try done; [simpl in Hl; lia|].
  cbn [total_connections foldr event_connections]. fold (total_connections (batch_events fuel (drop (Z.to_nat CONCURRENCY) (e :: entries)) pace)).
  rewrite IH by (rewrite length_drop; simpl in *; lia). unfold len. rewrite length_map, length_take, length_drop. lia.
Qed.

Lemma batch_entries pace fuel : forall entries, (length entries <= fuel)%nat ->
  driven_entries (batch_events fuel entries pace) = entries.
Proof.
  induction fuel as [|fuel IH]; intros [|e entries] Hl; cbn [batch_events]; try done; [simpl in Hl; lia|].
  unfold driven_entries. rewrite bind_cons. fold (driven_entries (batch_events fuel (drop (Z.to_nat CONCURRENCY) (e :: entries)) pace)).
  rewrite IH by (rewrite length_drop; simpl in *; lia).
  assert (forall l p, (map (fun entry => driver_request [entry] p) l ≫= request_entries) = l) as Hmap.
  { intros l p. induction l as [|x l IHl]; [done|]. cbn [map]. rewrite bind_cons, IHl. done. }
  rewrite Hmap, take_drop. done.
Qed.

Lemma plan_connections sequence pace : total_connections (plan_rest sequence pace) = connection_budget sequence.
Proof.
  unfold plan_rest, connection_budget. rewrite !total_connections_app, churn_connections, batch_connections by done.
  destruct (of_phase LongLived sequence); unfold total_connections; simpl; unfold len; simpl; lia.
Qed.

Lemma plan_entries sequence pace : driven_entries (plan sequence pace) =
  of_phase LongLived sequence ++ of_phase ConnectionChurn sequence ++ of_phase BoundedConcurrency sequence.
Proof.
  unfold plan, plan_rest. rewrite !driven_entries_app, churn_entries, batch_entries by done. unfold driven_entries. simpl.
  rewrite !app_nil_r. destruct (of_phase LongLived sequence); simpl; rewrite ?app_nil_r; done.
Qed.

(** The three phases partition a sequence. *)
Lemma phases_partition sequence :
  of_phase LongLived sequence ++ of_phase ConnectionChurn sequence ++ of_phase BoundedConcurrency sequence ≡ₚ sequence.
Proof.
  induction sequence as [|e s IH]; [done|]. unfold of_phase in *. simpl. destruct (entry_phase e); simpl.
  - now rewrite IH.
  - rewrite <- Permutation_middle, IH. done.
  - rewrite <- !Permutation_middle, IH. done.
Qed.

End Plan.

(** C38: A successful execution opens exactly as many connections as the intermediary was
    told to serve before it completes, whatever the schedule: one for the long-lived
    session when there is one, one for each churned and each concurrent entry, five
    observations, the connection that is terminated and the last one. Every entry of
    the sequence is driven exactly once: the long-lived phase first, then the churned
    entries in order, then the batches in order. *)
Theorem connections_match_budget {W} (os : Os W) sequence pace w out w' log :
  execute (logged os) sequence pace (w, []) = (Ok out, (w', log)) ->
  exists rest, log = Spawned (connection_budget sequence) :: rest /\
    total_connections rest = connection_budget sequence /\
    driven_entries log = of_phase LongLived sequence ++ of_phase ConnectionChurn sequence ++ of_phase BoundedConcurrency sequence /\
    driven_entries log ≡ₚ sequence.
Proof.
  intros H. apply logs_execute in H. rewrite app_nil_l in H. rewrite H. exists (plan_rest sequence pace). split; [done|].
  split; [apply plan_connections|]. split; [apply plan_entries|]. rewrite plan_entries. apply phases_partition.
Qed.

(** A system whose children fail exactly when they are given a bad entry; its state is
    whether the intermediary has announced itself. *)
Definition sample_os (bad : SequenceEntry -> bool) : Os bool :=
  mkOs bool (ret tt) (fun _ => (Ok (str "127.0.0.1:5432"), false)) (fun _ _ => ret 7)
    (fun announced => (Ok (if announced then Completed else Ready (str "127.0.0.1:6432")), true)) (ret tt)
    (fun _ requests w => (fun i =>
       let entries := match requests !! i with Some r => request_entries r | None => [] end in
       if existsb bad entries
       then Ok (false, mkDriverResult false 0 [] true (Some (str "connection did not recover")))
       else Ok (true, mkDriverResult true (len entries) [] false None), w))
    (fun _ => ret (Ok (mkCheckpoint [] false default_process default_process default_postgres None)))
    (fun pid _ => mkProcess pid 0 0 0 3 9 0 0 0 0 0 0 None)
    (fun _ => ret true) (ret false) (fun _ => ret tt).

Definition sample_sequence : list SequenceEntry :=
  match schedule 42 (Iterations 2) with Ok es => es | _ => [] end.

Lemma sample_execution : exists out w log,
  execute (logged (sample_os (fun _ => false))) sample_sequence None (false, []) = (Ok out, (w, log)) /\ completed out = 15.
Proof. vm_compute. do 3 eexists. split; reflexivity. Qed.

Lemma connections_match_budget_witness : exists out w log,
  execute (logged (sample_os (fun _ => false))) sample_sequence None (false, []) = (Ok out, (w, log)) /\ driven_entries log ≡ₚ sample_sequence.
Proof.
  destruct sample_execution as (out & w & log & H & _). exists out, w, log. split; [exact H|].
  destruct (connections_match_budget _ _ _ _ _ _ _ H) as (rest & _ & _ & _ & Hp). exact Hp.
Defined.

(** ** Reduction *)

Section Reduction.
Context {W : Type} (os : Os W) (sequence : list SequenceEntry).

Lemma halve g : 1 < g -> 0 < g / 2 < g /\ 2 * (g / 2) <= g /\ g <= 2 * (g / 2) + 1.
Proof. intros H. pose proof (Z.div_mod g 2 ltac:(lia)). pose proof (Z.mod_pos_bound g 2 ltac:(lia)). lia. Qed.

(** Whatever the executions do, the search keeps a prefix that was seen to fail. *)
Lemma reduce_loop_observed fuel : forall p k w n w',
  0 <= p < k -> k <= len sequence -> reduce_loop os fuel sequence p k w = (Ok n, w') ->
  0 < n <= k /\ (n = k \/ exists w1 w2 e, execute os (take (Z.to_nat n) sequence) None w1 = (Err e, w2)).
Proof.
  induction fuel as [|fuel IH]; intros p k w n w' Hp Hk; simpl; [intros [= <- <-]; split; [lia|now left]|].
  destruct (Z.leb_spec (k - p) 1); [intros [= <- <-]; split; [lia|now left]|].
  pose proof (halve (k - p) ltac:(lia)). destruct (execute os _ None w) as [[o|e|] w1] eqn:E; [| |done]; intros Hr.
  - apply IH in Hr as [H1 H2]; [|lia..]. split; [lia|]. destruct H2; auto.
  - apply IH in Hr as [H1 H2]; [|lia..]. split; [lia|]. destruct H2 as [->|H2]; [right; eauto|auto].
Qed.

(** A reduction is a non-empty prefix of the recorded sequence that was executed
    again and failed, or the whole sequence; at most eight executions are tried,
    whatever their results, flaky ones included. *)
Theorem reduction_reproduces w reduced w' :
  sequence <> [] -> reduce_failing_prefix os sequence w = (Ok reduced, w') ->
  reduced `prefix_of` sequence /\ reduced <> [] /\
  (reduced = sequence \/ exists w1 w2 e, execute os reduced None w1 = (Err e, w2)).
Proof.
  intros Hne. unfold reduce_failing_prefix. destruct (Z.leb_spec (len sequence) 1) as [|Hlen].
  { unfold ret. intros [= <- <-]. split_and!; auto. }
  intros H. apply soak_bind_ok in H as (n & w1 & Hr & H). injection H as <- <-.
  apply reduce_loop_observed in Hr as [Hn Ho]; [|lia..]. split; [apply prefix_take|]. split.
  - destruct sequence as [|e es]; [done|]. destruct (Z.to_nat n) eqn:E; [lia|done].
  - destruct Ho as [->|Ho]; [left; unfold len; now rewrite Nat2Z.id, firstn_all|now right].
Qed.

(** Executions whose result is a function of the prefix. *)
Context (verdict : Z -> bool).
Hypothesis deterministic : forall n w, 0 < n < len sequence ->
  match (execute os (take (Z.to_nat n) sequence) None w).1 with
  | Err _ => verdict n = true
  | Ok _ => verdict n = false
  | Panic => False
  end.

Lemma reduce_loop_converges fuel : forall p k i w, (i + fuel = 8)%nat -> 0 <= p < k -> k <= len sequence ->
  (p = 0 \/ verdict p = false) -> (k = len sequence \/ verdict k = true) -> (k - p - 1) * 2 ^ Z.of_nat i < len sequence ->
  exists n w' q, reduce_loop os fuel sequence p k w = (Ok n, w') /\ 0 <= q < n /\ n <= len sequence /\
    (q = 0 \/ verdict q = false) /\ (n = len sequence \/ verdict n = true) /\ (n - q - 1) * 256 < len sequence.
Proof.
  induction fuel as [|fuel IH]; intros p k i w Hi Hp Hk Hvp Hvk Hgap; simpl.
  { exists k, w, p. replace i with 8%nat in Hgap by lia. split_and!; auto; lia. }
  destruct (Z.leb_spec (k - p) 1).
  { exists k, w, p. split_and!; auto; try lia. }
  pose proof (halve (k - p) ltac:(lia)) as Hh. set (c := p + (k - p) / 2) in *.
  assert (forall g, 0 <= g -> 2 * g <= k - p - 1 -> g * 2 ^ Z.of_nat (S i) < len sequence) as Hstep.
  { intros g Hg H2. rewrite Nat2Z.inj_succ, Z.pow_succ_r by lia. assert (0 < 2 ^ Z.of_nat i) by (apply Z.pow_pos_nonneg; lia). nia. }
  pose proof (deterministic c w ltac:(lia)) as Hd. destruct (execute os _ None w) as [[o|e|] w1]; simpl in Hd; [| |done].
  - apply (IH c k (S i)); [lia..|now right|done|]. apply Hstep; lia.
  - apply (IH p c (S i)); [lia..|done|now right|]. apply Hstep; lia.
Qed.

(** When executions are deterministic, the reduction brackets the failure: the
    prefix fails (or is the whole sequence, known to fail), and some shorter prefix
    that passes (or is empty) is at most one 256th of the sequence away. Up to 256
    entries, the entry that makes the difference is the last one of the reduction. *)
Theorem reduction_brackets w : sequence <> [] ->
  exists n q w', reduce_failing_prefix os sequence w = (Ok (take (Z.to_nat n) sequence), w') /\
    0 <= q < n /\ n <= len sequence /\ (q = 0 \/ verdict q = false) /\ (n = len sequence \/ verdict n = true) /\
    (n - q - 1) * 256 < len sequence /\ (len sequence <= 256 -> q = n - 1).
Proof.
  intros Hne. unfold reduce_failing_prefix. destruct (Z.leb_spec (len sequence) 1) as [|Hlen].
  - assert (len sequence = 1) as Hl by (destruct sequence; [done|]; rewrite len_cons in *; pose proof (len_nonneg l); lia).
    exists 1, 0, w. replace (take (Z.to_nat 1) sequence) with sequence; [split_and!; auto; lia|].
    symmetry. apply take_ge. unfold len in Hl. lia.
  - destruct (reduce_loop_converges 8 0 (len sequence) 0 w) as (n & w' & q & Hr & H1 & H2 & H3 & H4 & H5); [lia..|now left|now left| |].
    { simpl. lia. }
    exists n, q, w'. unfold bind. rewrite Hr. split_and!; auto; try lia.
Qed.

End Reduction.

Definition bad_entry (e : SequenceEntry) : bool := ordinal e =? 3.
Lemma sample_deterministic n w : 0 < n < len sample_sequence ->
  match (execute (sample_os bad_entry) (take (Z.to_nat n) sample_sequence) None w).1 with
  | Err _ => (3 <? n) = true
  | Ok _ => (3 <? n) = false
  | Panic => False
  end.
Proof.
  replace (len sample_sequence) with 15 by (vm_compute; reflexivity). intros Hn.
  assert (forallb (fun n => match (execute (sample_os bad_entry) (take (Z.to_nat n) sample_sequence) None w).1 with
    | Err _ => 3 <? n | Ok _ => negb (3 <? n) | Panic => false end) (seqZ 1 14) = true) as H by (destruct w; vm_compute; reflexivity).
  rewrite forallb_forall in H. specialize (H n). rewrite <- list_elem_of_In, elem_of_seqZ in H. specialize (H ltac:(lia)).
  destruct (execute _ _ _ _) as [[o|e|] w1]; simpl in *; [now apply negb_true_iff|done|done].
Qed.

Lemma sample_nonempty : sample_sequence <> [].
Proof. intros H. apply (f_equal len) in H. vm_compute in H. discriminate. Qed.
Lemma sample_reduction : reduce_failing_prefix (sample_os bad_entry) sample_sequence false = (Ok (take 4 sample_sequence), true).
Proof. vm_compute. reflexivity. Qed.

Lemma reduction_reproduces_witness : exists reduced w',
  reduce_failing_prefix (sample_os bad_entry) sample_sequence false = (Ok reduced, w') /\ reduced `prefix_of` sample_sequence.
Proof.
  exists (take 4 sample_sequence), true. split; [exact sample_reduction|].
  exact (proj1 (reduction_reproduces (sample_os bad_entry) sample_sequence false _ true sample_nonempty sample_reduction)).
Defined.

Lemma sample_length : len sample_sequence = 15.
Proof. vm_compute. reflexivity. Qed.
Lemma reduction_brackets_witness : exists n q w',
  reduce_failing_prefix (sample_os bad_entry) sample_sequence false = (Ok (take (Z.to_nat n) sample_sequence), w') /\ q = n - 1.
Proof.
  destruct (reduction_brackets (sample_os bad_entry) sample_sequence (fun n => 3 <? n) sample_deterministic false sample_nonempty)
    as (n & q & w' & H & _ & _ & _ & _ & _ & H3).
  exists n, q, w'. split; [exact H|]. apply H3. rewrite sample_length. lia.
Defined.
