(* ===== verification/Performance.v ===== *)
(** Controlled performance capture and evaluation: src/performance.rs of
    pg-proto-burn-in. Times are microseconds where the code has microseconds and
    nanoseconds for [Duration] and [Instant]; rates are IEEE 754 doubles. The client
    and the clock are parameters. Overflow wraps, as in the release profiles the
    command is delegated to. *)

From Stdlib Require Import ZArith Lia String SpecFloat.
From Stdlib Require Import Init.Byte.
From stdpp Require Import prelude.
From S2P Require Import Prelude Scram Text SoakSchedule Soak.

Local Open Scope Z_scope.
Local Open Scope list_scope.
Local Notation "'let!' p := c 'in' k" := (bind c (fun p => k)) (at level 10, p pattern, c at level 100, k at level 200).

(** ** Doubles *)

Definition f64_add (a b : f64) : f64 := SFadd 53 1024 a b.
Definition f64_sub (a b : f64) : f64 := SFsub 53 1024 a b.
Definition f64_mul (a b : f64) : f64 := SFmul 53 1024 a b.
Definition f64_lt (a b : f64) : bool := SFltb a b.
Definition f64_neg (a : f64) : f64 := SFopp a.

(** [partial_cmp(..).unwrap_or(Equal)], as a test for "at most". *)
Definition f64_le_or_unordered (a b : f64) : bool := match SFcompare a b with Some Gt => false | _ => true end.

(** [clamp] *)
Definition f64_clamp (x low high : f64) : f64 := if f64_lt x low then low else if f64_lt high x then high else x.

(** ** Sorting: a stable insertion sort *)

Section Sort.
Context {A : Type} (le : A -> A -> bool).
Fixpoint sort_insert (x : A) (l : list A) : list A :=
  match l with
  | [] => [x]
  | y :: l' => if le x y then x :: l else y :: sort_insert x l'
  end.
Definition insertion_sort (l : list A) : list A := foldr sort_insert [] l.
End Sort.
Definition sort_u64 (l : list Z) : list Z := insertion_sort Z.leb l.

(** ** Data *)

Record Window : Type := mkWindow { throughput_per_second : f64; p95_micros : Z; p99_micros : Z }.
Record Evidence : Type := mkEvidence { soak_result : bytes; evidence_checkpoints : Z; copy_scenarios : Z }.
Record ClosedLoopInput : Type := mkClosedInput { closed_elapsed : Z; latencies_micros : list Z }.
Record OpenLoopInput : Type := mkOpenInput {
  open_elapsed : Z; scheduled_interval_micros : Z; queue_micros : list Z; execution_micros : list Z; end_to_end_micros : list Z
}.
Record Input : Type := mkInput {
  input_schema : Z; warm_closed_micros : list Z; warm_open_micros : list Z; closed_input : ClosedLoopInput; open_input : OpenLoopInput;
  windows : list Window; evidence : Evidence
}.
Record BaselineKey : Type := mkKey { key_runner : bytes; key_postgres : bytes; key_profile : bytes; key_build : bytes }.
#[export] Instance BaselineKey_eq : EqDecision BaselineKey.
Proof. solve_decision. Defined.
Record Baseline : Type := mkBaseline {
  baseline_schema : Z; baseline_key : BaselineKey; baseline_throughput : f64; baseline_p95 : Z; baseline_p99 : Z; promoted : bool;
  baseline_version : Z
}.
Record Bucket : Type := mkBucket { upper_bound_micros : Z; bucket_count : Z }.
Record Histogram : Type := mkHistogram {
  histogram_count : Z; min_micros : Z; p50 : Z; p95 : Z; p99 : Z; max_micros : Z; logarithmic_buckets : list Bucket
}.
Record Comparison : Type := mkComparison {
  compared_version : option Z; throughput_change_percent : option f64; p95_change_percent : option f64; p99_change_percent : option f64;
  threshold_exceeded : bool; disposition : bytes
}.
Record Drift : Type := mkDrift {
  drift_windows : list Window; median_throughput : f64; median_p95 : Z; median_p99 : Z; first_to_last_percent : f64
}.
(** The phases, drift, comparison and evidence of a report; the environment and the
    build it describes are not modelled. *)
Record Report : Type := mkReport {
  closed_operations : Z; closed_rate : f64; closed_latency : Histogram; open_operations : Z; open_rate : f64; queue : Histogram;
  execution : Histogram; end_to_end_raw : Histogram; end_to_end_corrected : Histogram; drift : Drift; comparison : Comparison;
  report_evidence : Evidence
}.

(** ** Statistics *)

(** [operations as f64 * 1_000_000.0 / elapsed_micros as f64] *)
Definition rate (operations elapsed_micros : Z) : f64 :=
  f64_div (f64_mul (as_f64 operations) (as_f64 1000000)) (as_f64 elapsed_micros).

(** The inner loop after a sample: the synthetic samples, or nothing when out of fuel. *)
Fixpoint synthetic_samples (fuel : nat) (synthetic interval : Z) : option (list Z) :=
  match fuel with
  | O => None
  | S fuel =>
      if interval <=? synthetic then cons synthetic <$> synthetic_samples fuel (saturating_sub synthetic interval) interval
      else Some []
  end.
Fixpoint coordinated_omission_correct (fuel : nat) (values : list Z) (interval : Z) : option (list Z) :=
  match values with
  | [] => Some []
  | value :: values =>
      synthetic ← synthetic_samples fuel (saturating_sub value interval) interval;
      rest ← coordinated_omission_correct fuel values interval;
      Some (value :: synthetic ++ rest)
  end.

(** An index out of range panics. *)
Definition index {A} (l : list A) (i : Z) : result A bytes :=
  match (if i <? 0 then None else l !! Z.to_nat i) with Some x => Ok x | None => Panic end.

Definition div_ceil (a b : Z) : Z := (a + b - 1) / b.
Definition percentile (sorted : list Z) (p : Z) : result Z bytes :=
  index sorted (saturating_sub (div_ceil (p * len sorted) 100) 1).

Definition saturating_mul (a b : Z) : Z := Z.min U64_MAX (a * b).
(** The loop over bucket bounds: a bound doubles, so it passes any maximum in 65 steps. *)
Fixpoint histogram_buckets (fuel : nat) (sorted : list Z) (max upper : Z) : list Bucket :=
  match fuel with
  | O => []
  | S fuel =>
      if upper <? max then
        mkBucket upper (len (List.filter (fun value => value <=? upper) sorted)) :: histogram_buckets fuel sorted max (saturating_mul upper 2)
      else [mkBucket upper (len sorted)]
  end.

Definition histogram (values : list Z) : result Histogram bytes :=
  match values with
  | [] => Err (str "histogram requires at least one sample")
  | _ =>
      let sorted := sort_u64 values in
      let? max := index sorted (len sorted - 1) in
      let? min := index sorted 0 in
      let? p50 := percentile sorted 50 in
      let? p95 := percentile sorted 95 in
      let? p99 := percentile sorted 99 in
      Ok (mkHistogram (len sorted) min p50 p95 p99 max (histogram_buckets 66 sorted max 1))
  end.

Definition median_u64 (values : list Z) : result Z bytes := index (sort_u64 values) (len values / 2).
Definition median_f64 (values : list f64) : result f64 bytes := index (insertion_sort f64_le_or_unordered values) (len values / 2).

(** [(candidate - baseline) * 100.0 / baseline] *)
Definition percent_change (candidate baseline : f64) : f64 := f64_div (f64_mul (f64_sub candidate baseline) (as_f64 100)) baseline.

Definition elapsed_micros (nanos : Z) : Z := Z.max 1 (Z.min U64_MAX (nanos / 1000)).

(** ** Measurement windows *)

Record OpenSample : Type := mkSample { sample_queue : Z; sample_execution : Z; sample_end_to_end : Z }.

(** [l[a..b]] *)
Definition range {A} (a b : Z) (l : list A) : list A := take (Z.to_nat (b - a)) (drop (Z.to_nat a) l).

Definition window_count (closed : list Z) (open : list OpenSample) : Z := Z.max 1 (Z.min (Z.min 2 (len closed)) (len open)).
Definition window_latencies (closed : list Z) (open : list OpenSample) (index : Z) : list Z :=
  let n := window_count closed open in
  range (index * len closed / n) ((index + 1) * len closed / n) closed ++
  map sample_end_to_end (range (index * len open / n) ((index + 1) * len open / n) open).

Definition measurement_window (closed : list Z) (closed_elapsed : Z) (open : list OpenSample) (open_elapsed index : Z)
    : result Window bytes :=
  let latencies := sort_u64 (window_latencies closed open index) in
  let n := window_count closed open in
  let elapsed := (closed_elapsed / n + open_elapsed / n) mod 2 ^ 64 in
  let? p95 := percentile latencies 95 in
  let? p99 := percentile latencies 99 in
  Ok (mkWindow (rate (len latencies) elapsed) p95 p99).

Fixpoint collect_ok {A} (rs : list (result A bytes)) : result (list A) bytes :=
  match rs with
  | [] => Ok []
  | r :: rs => let? a := r in let? l := collect_ok rs in Ok (a :: l)
  end.
Definition measurement_windows (closed : list Z) (closed_elapsed : Z) (open : list OpenSample) (open_elapsed : Z)
    : result (list Window) bytes :=
  collect_ok (map (measurement_window closed closed_elapsed open open_elapsed) (seqZ 0 (window_count closed open))).

(** ** Evaluation *)

Definition validate_input (input : Input) : result unit bytes :=
  if negb (input_schema input =? 1) then Err (str "unsupported performance input schema")
  else
    let open := open_input input in
    if (closed_elapsed (closed_input input) =? 0) || (open_elapsed open =? 0) || (scheduled_interval_micros open =? 0) ||
       negb (len (queue_micros open) =? len (execution_micros open)) ||
       negb (len (queue_micros open) =? len (end_to_end_micros open)) ||
       match windows input with [] => true | _ => false end
    then Err (str "performance input contains incomplete controlled phases")
    else if (evidence_checkpoints (evidence input) =? 0) || (copy_scenarios (evidence input) =? 0)
    then Err (str "performance input must reference soak resources and COPY evidence")
    else Ok tt.

Definition exceeds (throughput_change p95_change p99_change : option f64) : bool :=
  match throughput_change with Some c => f64_lt c (f64_neg (as_f64 10)) | None => false end ||
  match p95_change with Some c => f64_lt (as_f64 20) c | None => false end ||
  match p99_change with Some c => f64_lt (as_f64 20) c | None => false end.

(** The report on an input: rates, histograms, drift and comparison. *)
Definition assemble_report (input : Input) (baseline : option Baseline) (enforce : bool) (throughput : f64) (p95 p99 : Z)
    (first last : Window) (latency queue execution raw corrected : Histogram) : Report :=
  let closed := closed_input input in
  let open := open_input input in
  let throughput_change := (fun b => percent_change throughput (baseline_throughput b)) <$> baseline in
  let p95_change := (fun b => percent_change (as_f64 p95) (as_f64 (baseline_p95 b))) <$> baseline in
  let p99_change := (fun b => percent_change (as_f64 p99) (as_f64 (baseline_p99 b))) <$> baseline in
  let exceeded := exceeds throughput_change p95_change p99_change in
  mkReport (len (latencies_micros closed)) (rate (len (latencies_micros closed)) (closed_elapsed closed)) latency
    (len (end_to_end_micros open)) (rate (len (end_to_end_micros open)) (open_elapsed open)) queue execution raw corrected
    (mkDrift (windows input) throughput p95 p99 (percent_change (throughput_per_second last) (throughput_per_second first)))
    (mkComparison (baseline_version <$> baseline) throughput_change p95_change p99_change exceeded
       (if enforce then if exceeded then str "enforced-fail" else str "enforced-pass" else str "advisory"))
    (evidence input).

(** [build_report]; [None] when the correction does not terminate within the fuel. *)
Definition build_report (fuel : nat) (input : Input) (baseline : option Baseline) (enforce : bool) : option (result Report bytes) :=
  let closed := closed_input input in
  let open := open_input input in
  corrected ← coordinated_omission_correct fuel (end_to_end_micros open) (scheduled_interval_micros open);
  Some (
    let? throughput := median_f64 (map throughput_per_second (windows input)) in
    let? p95 := median_u64 (map p95_micros (windows input)) in
    let? p99 := median_u64 (map p99_micros (windows input)) in
    let? first := index (windows input) 0 in
    let? last := index (windows input) (len (windows input) - 1) in
    let? latency := histogram (latencies_micros closed) in
    let? queue := histogram (queue_micros open) in
    let? execution := histogram (execution_micros open) in
    let? raw := histogram (end_to_end_micros open) in
    let? corrected := histogram corrected in
    Ok (assemble_report input baseline enforce throughput p95 p99 first last latency queue execution raw corrected)).

(** What [run] requires before it evaluates. *)
Definition admit_run (enforce stable_runner linux : bool) (runner build_mode : bytes) : result unit bytes :=
  if enforce && (negb stable_runner || bool_decide (runner = str "github-hosted") || negb linux)
  then Err (str "performance gates require an explicitly stable Linux runner")
  else if bool_decide (build_mode = str "optimized") || bool_decide (build_mode = str "allocator-diagnostic") then Ok tt
  else Err (str "--build-mode must be optimized or allocator-diagnostic").

Definition admit_baseline (runner postgres_version build_mode : bytes) (baseline : option Baseline) : result unit bytes :=
  match baseline with
  | None => Ok tt
  | Some value =>
      if negb (baseline_schema value =? 1) || negb (promoted value)
      then Err (str "baseline must be a promoted schema-version 1 artifact")
      else if negb (bool_decide (runner = str "github-hosted")) &&
              negb (bool_decide (baseline_key value = mkKey runner postgres_version (str "controlled") build_mode))
      then Err (str "baseline key does not match runner, PostgreSQL, profile and build")
      else Ok tt
  end.

(** [run] on the input it read or captured, writes apart. *)
Definition evaluate (fuel : nat) (enforce stable_runner linux : bool) (runner postgres_version build_mode : bytes) (input : Input)
    (baseline : option Baseline) : option (result unit bytes) :=
  match admit_run enforce stable_runner linux runner build_mode with
  | Ok _ =>
      match validate_input input with
      | Ok _ =>
          match admit_baseline runner postgres_version build_mode baseline with
          | Ok _ =>
              report ← build_report fuel input baseline enforce;
              Some (let? report := report in
                    if enforce && threshold_exceeded (comparison report) then Err (str "promoted performance threshold exceeded")
                    else Ok tt)
          | r => Some r
          end
      | r => Some r
      end
  | r => Some r
  end.

(** ** Capture *)

Record Bench (W : Type) : Type := mkBench {
  now : W -> Z * W;                   (* [Instant::now], nanoseconds *)
  sleep_until : Z -> W -> W;
  query_echo : Z -> M W Z             (* SELECT $1::int8 *)
}.
Arguments now {W}. Arguments sleep_until {W}. Arguments query_echo {W}.

Section Loops.
Context {W : Type} (bench : Bench W).

(** The value an operation sends and expects back. *)
Definition expected_value (ordinal : Z) : Z := ordinal mod 31 + 1.

Fixpoint closed_loop (fuel : nat) (deadline ordinal : Z) (samples : list Z) (w : W) : option (result (list Z) bytes * W) :=
  match fuel with
  | O => None
  | S fuel =>
      let '(continue, w) := match samples with
                            | [] => (true, w)
                            | _ => let (t, w) := now bench w in (t <? deadline, w)
                            end in
      if continue then
        let (started, w) := now bench w in
        match query_echo bench (expected_value ordinal) w with
        | (Ok actual, w) =>
            if actual =? expected_value ordinal then
              let (ended, w) := now bench w in
              closed_loop fuel deadline ((ordinal + 1) mod 2 ^ 64) (samples ++ [elapsed_micros (ended - started)]) w
            else Some (Err (str "controlled closed-loop result mismatch"), w)
        | (Err e, w) => Some (Err e, w)
        | (Panic, w) => Some (Panic, w)
        end
      else Some (Ok samples, w)
  end.
Definition run_closed_loop (fuel : nat) (duration seed : Z) (w : W) : option (result (list Z) bytes * W) :=
  let (t, w) := now bench w in closed_loop fuel (t + duration) seed [] w.

Fixpoint open_loop (fuel : nat) (deadline interval scheduled ordinal : Z) (samples : list OpenSample) (w : W)
    : option (result (list OpenSample) bytes * W) :=
  match fuel with
  | O => None
  | S fuel =>
      if match samples with [] => true | _ => scheduled <? deadline end then
        let w := sleep_until bench scheduled w in
        let (started, w) := now bench w in
        let queue := saturating_sub started scheduled in
        match query_echo bench (expected_value ordinal) w with
        | (Ok actual, w) =>
            if actual =? expected_value ordinal then
              let (ended, w) := now bench w in
              let sample := mkSample (elapsed_micros queue) (elapsed_micros (saturating_sub ended started))
                              (elapsed_micros (saturating_sub ended scheduled)) in
              open_loop fuel deadline interval (scheduled + interval) ((ordinal + 1) mod 2 ^ 64) (samples ++ [sample]) w
            else Some (Err (str "controlled open-loop result mismatch"), w)
        | (Err e, w) => Some (Err e, w)
        | (Panic, w) => Some (Panic, w)
        end
      else Some (Ok samples, w)
  end.
Definition run_open_loop (fuel : nat) (duration interval seed : Z) (w : W) : option (result (list OpenSample) bytes * W) :=
  let (t, w) := now bench w in open_loop fuel (t + duration) interval t seed [] w.

End Loops.

(** The rate the open loop aims at: four fifths of saturation, from 1 to 1000 per second. *)
Definition target_rate (saturation : f64) : f64 :=
  f64_clamp (f64_mul saturation (f64_div (as_f64 8) (as_f64 10))) (as_f64 1) (as_f64 1000).
Definition scheduled_interval (saturation : f64) : result Z bytes := from_secs_f64 (f64_div (as_f64 1) (target_rate saturation)).
Definition warm_up_millis (duration_seconds : Z) : Z := Z.max 100 (Z.min 5000 (duration_seconds * 100 mod 2 ^ 64)).

Example rate_is : rate 2500 1000000 = as_f64 2500.
Proof. vm_compute. reflexivity. Qed.
Example interval_500 : scheduled_interval (as_f64 625) = Ok 2000000.
Proof. vm_compute. reflexivity. Qed.
Example corrected_10_3 : coordinated_omission_correct 9 [10; 2] 3 = Some [10; 7; 4; 2].
Proof. reflexivity. Qed.
Example histogram_4 : histogram [7; 1; 100; 3] = Ok (mkHistogram 4 1 3 100 100 100
  [mkBucket 1 1; mkBucket 2 1; mkBucket 4 2; mkBucket 8 3; mkBucket 16 3; mkBucket 32 3; mkBucket 64 3; mkBucket 128 4]).
Proof. vm_compute. reflexivity. Qed.
