(* ===== verification/PerformanceSpec.v ===== *)
(** What the performance evaluation computes: percentiles by nearest rank, cumulative
    histograms, the correction for coordinated omission, windows that partition the
    samples, an open loop that misses no arrival, and gates that fail a run exactly
    when a promoted baseline is exceeded. *)

From Stdlib Require Import ZArith Lia String SpecFloat.
From Stdlib Require Import Init.Byte.
From stdpp Require Import prelude sorting.
From S2P Require Import Prelude Scram Text SoakSchedule Soak Performance.

Local Open Scope Z_scope.
Local Open Scope list_scope.

(** ** Sorting *)

Lemma sort_insert_perm {A} (le : A -> A -> bool) x l : sort_insert le x l ≡ₚ x :: l.
Proof. induction l as [|y l IH]; simpl; [done|]. destruct (le x y); [done|]. rewrite IH. apply Permutation_swap. Qed.
Lemma insertion_sort_perm {A} (le : A -> A -> bool) l : insertion_sort le l ≡ₚ l.
Proof. induction l as [|x l IH]; simpl; [done|]. rewrite sort_insert_perm. unfold insertion_sort in IH. now rewrite IH. Qed.

Lemma sort_insert_sorted x l : StronglySorted Z.le l -> StronglySorted Z.le (sort_insert Z.leb x l).
Proof.
  induction 1 as [|y l Hs IH Hy]; simpl; [repeat constructor|]. destruct (Z.leb_spec x y).
  - constructor; [now constructor|]. constructor; [done|]. eapply Forall_impl; [exact Hy|]. simpl; lia.
  - constructor; [done|]. rewrite sort_insert_perm. constructor; [lia|done].
Qed.
Lemma sort_u64_sorted l : StronglySorted Z.le (sort_u64 l).
Proof. unfold sort_u64. induction l as [|x l IH]; simpl; [constructor|]. now apply sort_insert_sorted. Qed.
Lemma len_sort l : len (sort_u64 l) = len l.
Proof. unfold len. f_equal. apply Permutation_length, insertion_sort_perm. Qed.

Lemma StronglySorted_lookup_le (R : Z -> Z -> Prop) `{!Reflexive R} l : StronglySorted R l -> forall i j x y,
  l !! i = Some x -> l !! j = Some y -> (i <= j)%nat -> R x y.
Proof.
  induction 1 as [|z l Hs IH Hz]; intros i j x y; [done|]. destruct i as [|i], j as [|j]; simpl; try lia.
  - intros [= ->] [= ->] _. done.
  - intros [= ->] Hy _. rewrite Forall_forall in Hz. apply Hz. eapply list_elem_of_lookup_2. exact Hy.
  - intros Hx Hy Hij. apply (IH i j); auto. lia.
Qed.

(** How many values satisfy a test. *)
Definition count (f : Z -> bool) (l : list Z) : Z := len (List.filter f l).

Lemma count_cons f x l : count f (x :: l) = (if f x then 1 else 0) + count f l.
Proof. unfold count. simpl. destruct (f x); [apply len_cons|lia]. Qed.
Lemma count_perm f l k : l ≡ₚ k -> count f l = count f k.
Proof. induction 1; rewrite ?count_cons; lia. Qed.
Lemma count_sort f l : count f (sort_u64 l) = count f l.
Proof. apply count_perm, insertion_sort_perm. Qed.
Lemma count_bounds f l : 0 <= count f l <= len l.
Proof. induction l as [|x l IH]; [done|]. rewrite count_cons, len_cons. destruct (f x); lia. Qed.

(** In a sorted list, at most [i] values are below the one at [i] and more than [i] are not above it. *)
Lemma sorted_rank l : StronglySorted Z.le l -> forall i x, l !! i = Some x ->
  count (fun v => v <? x) l <= Z.of_nat i /\ Z.of_nat i < count (fun v => v <=? x) l.
Proof.
  induction 1 as [|y l Hs IH Hy]; intros i x; [done|]. destruct i as [|i]; simpl; rewrite !count_cons.
  - intros [= ->]. rewrite Z.ltb_irrefl, Z.leb_refl. pose proof (count_bounds (fun v => v <=? x) l).
    assert (count (fun v => v <? x) l = 0) as ->; [|lia].
    clear -Hy. induction Hy as [|z l Hz _ IHl]; [done|]. rewrite count_cons, IHl. destruct (Z.ltb_spec z x); lia.
  - intros Hx. destruct (IH i x Hx). rewrite Forall_forall in Hy. apply list_elem_of_lookup_2 in Hx. specialize (Hy x Hx).
    destruct (Z.ltb_spec y x), (Z.leb_spec y x); lia.
Qed.

(** ** Percentiles *)

Lemma index_ok {A} (l : list A) i : 0 <= i < len l -> exists x, index l i = Ok x /\ l !! Z.to_nat i = Some x.
Proof.
  intros Hi. unfold index. destruct (Z.ltb_spec i 0); [lia|]. destruct (lookup_lt_is_Some_2 l (Z.to_nat i)) as [x Hx]; [unfold len in Hi; lia|].
  rewrite Hx. eauto.
Qed.

Lemma rank_bounds n p : 0 < n -> 0 < p <= 100 ->
  let r := saturating_sub (div_ceil (p * n) 100) 1 in 0 <= r < n /\ 100 * r < p * n <= 100 * (r + 1).
Proof.
  intros Hn Hp. unfold div_ceil. pose proof (Z.div_mod (p * n + 100 - 1) 100 ltac:(lia)).
  pose proof (Z.mod_pos_bound (p * n + 100 - 1) 100 ltac:(lia)). set (q := (p * n + 100 - 1) / 100) in *.
  assert (1 <= q) by nia. assert (q <= n) by nia. unfold saturating_sub. rewrite Z.max_r by lia. cbv zeta. split; lia.
Qed.

Lemma percentile_rank l p : StronglySorted Z.le l -> l <> [] -> 0 < p <= 100 ->
  exists x, percentile l p = Ok x /\ x ∈ l /\ p * len l <= 100 * count (fun v => v <=? x) l /\ 100 * count (fun v => v <? x) l < p * len l.
Proof.
  intros Hs Hne Hp. assert (0 < len l) as Hl by (destruct l; [done|]; rewrite len_cons; pose proof (len_nonneg l); lia).
  destruct (rank_bounds (len l) p Hl Hp) as [Hr Hb]. unfold percentile.
  set (r := saturating_sub (div_ceil (p * len l) 100) 1) in *. destruct (index_ok l r Hr) as (x & -> & Hx). exists x.
  destruct (sorted_rank l Hs _ _ Hx) as [H1 H2]. rewrite Z2Nat.id in * by lia. split_and!; [done|exact (list_elem_of_lookup_2 _ _ _ Hx)|lia|lia].
Qed.

(** ** Histograms *)

Definition cumulative (values : list Z) (b : Bucket) : Prop := bucket_count b = count (fun v => v <=? upper_bound_micros b) values.

Lemma count_all l max : (forall v, v ∈ l -> v <= max) -> count (fun v => v <=? max) l = len l.
Proof.
  induction l as [|x l IH]; intros H; [done|]. rewrite count_cons, len_cons, IH by (intros v Hv; apply H; now right).
  destruct (Z.leb_spec x max) as [|Hx]; [lia|]. specialize (H x ltac:(left)). lia.
Qed.

Lemma histogram_buckets_spec sorted max : (forall v, v ∈ sorted -> v <= max) -> max <= U64_MAX -> forall fuel upper,
  0 < upper -> max <= upper * 2 ^ Z.of_nat fuel ->
  Forall (cumulative sorted) (histogram_buckets (S fuel) sorted max upper) /\
  exists init b, histogram_buckets (S fuel) sorted max upper = init ++ [b] /\ max <= upper_bound_micros b /\ bucket_count b = len sorted.
Proof.
  intros Hmax Hu64. induction fuel as [|fuel IH]; intros upper Hup Hpow; cbn [histogram_buckets];
    (destruct (Z.ltb_spec upper max) as [Hlt|Hge];
      [|split; [constructor; [|constructor]; unfold cumulative; simpl; symmetry; apply count_all; intros v Hv; specialize (Hmax v Hv); lia
               |exists [], (mkBucket upper (len sorted)); done]]).
  - simpl in Hpow. lia.
  - rewrite Nat2Z.inj_succ, Z.pow_succ_r in Hpow by lia. assert (0 < 2 ^ Z.of_nat fuel) by (apply Z.pow_pos_nonneg; lia).
    destruct (IH (saturating_mul upper 2)) as (Hall & init & b & Heq & Hb1 & Hb2).
    + unfold saturating_mul. unfold U64_MAX. lia.
    + unfold saturating_mul. destruct (Z.min_spec U64_MAX (upper * 2)) as [[Hm ->]|[Hm ->]]; nia.
    + cbn [histogram_buckets] in Heq, Hall. split; [constructor; [done|exact Hall]|]. rewrite Heq.
      exists (mkBucket upper (len (List.filter (fun v => v <=? upper) sorted)) :: init), b. done.
Qed.

(** The histogram of any non-empty samples is complete, whatever their size in 64
    bits: minimum and maximum are those of the samples; a percentile is a sample such
    that at least that share of the samples is not above it and less is below it; the
    buckets count the samples up to their bound, and the last one has all of them. *)
Theorem histogram_exact values : values <> [] -> Forall (fun v => 0 <= v <= U64_MAX) values ->
  exists h, histogram values = Ok h /\ histogram_count h = len values /\
    (forall v, v ∈ values -> min_micros h <= v <= max_micros h) /\ min_micros h ∈ values /\ max_micros h ∈ values /\
    (forall p x, (p, x) ∈ [(50, p50 h); (95, p95 h); (99, p99 h)] ->
       x ∈ values /\ p * len values <= 100 * count (fun v => v <=? x) values /\ 100 * count (fun v => v <? x) values < p * len values) /\
    Forall (cumulative values) (logarithmic_buckets h) /\
    exists init b, logarithmic_buckets h = init ++ [b] /\ max_micros h <= upper_bound_micros b /\ bucket_count b = len values.
Proof.
  intros Hne Hu. set (s := sort_u64 values). assert (s ≡ₚ values) as Hperm by apply insertion_sort_perm.
  pose proof (sort_u64_sorted values) as Hsorted. fold s in Hsorted. assert (len s = len values) as Hlen by apply len_sort.
  assert (0 < len s) as Hl by (rewrite Hlen; destruct values; [done|]; rewrite len_cons; pose proof (len_nonneg values); lia).
  assert (s <> []) as Hs by (intros E; rewrite E in Hl; done).
  destruct (index_ok s (len s - 1) ltac:(lia)) as (max & Hmax & Hmaxl). destruct (index_ok s 0 ltac:(lia)) as (min & Hmin & Hminl).
  assert (forall p, 0 < p <= 100 -> exists x, percentile s p = Ok x /\ x ∈ values /\
    p * len values <= 100 * count (fun v => v <=? x) values /\ 100 * count (fun v => v <? x) values < p * len values) as Hpct.
  { intros p Hp. destruct (percentile_rank s p Hsorted Hs Hp) as (x & H1 & H2 & H3 & H4). exists x.
    unfold s in H3, H4. rewrite !count_sort in H3, H4. fold s in H3, H4. rewrite Hlen in *. split_and!; [done|now rewrite <- Hperm|done|done]. }
  destruct (Hpct 50 ltac:(lia)) as (x50 & E50 & H50), (Hpct 95 ltac:(lia)) as (x95 & E95 & H95), (Hpct 99 ltac:(lia)) as (x99 & E99 & H99).
  assert (forall v, v ∈ s -> min <= v <= max) as Hrange.
  { intros v Hv. apply list_elem_of_lookup in Hv as [i Hi]. pose proof (lookup_lt_Some _ _ _ Hi). unfold len in Hmaxl.
    split; [eapply (StronglySorted_lookup_le Z.le); [done|exact Hminl|exact Hi|lia]|].
    eapply (StronglySorted_lookup_le Z.le); [done|exact Hi|exact Hmaxl|lia]. }
  assert (max <= U64_MAX) as Hm64.
  { rewrite Forall_forall in Hu. apply Hu. rewrite <- Hperm. exact (list_elem_of_lookup_2 _ _ _ Hmaxl). }
  destruct (histogram_buckets_spec s max (fun v Hv => proj2 (Hrange v Hv)) Hm64 65 1 ltac:(lia)) as (Hb & init & b & Heq & Hb1 & Hb2).
  { unfold U64_MAX in Hm64. lia. }
  assert (histogram values = Ok (mkHistogram (len s) min x50 x95 x99 max (histogram_buckets 66 s max 1))) as Hh.
  { unfold histogram. destruct values as [|v0 vs]; [done|]. fold s. rewrite Hmax, Hmin, E50, E95, E99. exact eq_refl. }
  revert Hh Hb Heq. generalize (histogram_buckets 66 s max 1). intros bs Hh Hb Heq.
  exists (mkHistogram (len s) min x50 x95 x99 max bs). split; [exact Hh|]. simpl. split_and!; try done.
  - intros v Hv. apply Hrange. now rewrite Hperm.
  - rewrite <- Hperm. exact (list_elem_of_lookup_2 _ _ _ Hminl).
  - rewrite <- Hperm. exact (list_elem_of_lookup_2 _ _ _ Hmaxl).
  - intros p x Hx. rewrite !elem_of_cons, elem_of_nil in Hx. destruct Hx as [[= -> ->]|[[= -> ->]|[[= -> ->]|[]]]]; done.
  - eapply Forall_impl; [exact Hb|]. intros c. unfold cumulative, s. now rewrite count_sort.
  - exists init, b. split_and!; [exact Heq|done|]. now rewrite <- Hlen.
Qed.

Lemma histogram_exact_witness : exists h, histogram [7; 1; 100; 3] = Ok h /\ histogram_count h = 4.
Proof.
  destruct (histogram_exact [7; 1; 100; 3] ltac:(discriminate) ltac:(unfold U64_MAX; repeat constructor; lia)) as (h & H & Hc & _).
  exists h. split; [exact H|exact Hc].
Defined.

(** ** Coordinated omission *)

(** The arrivals a slow operation held up: one for each further interval it took. *)
Definition omitted (value interval : Z) : list Z := map (fun k => value - k * interval) (seqZ 1 (value / interval - 1)).

Lemma map_seqZ_shift {B} (f : Z -> B) n : map f (seqZ 1 n) = map (fun k => f (k + 1)) (seqZ 0 n).
Proof.
  change 1 with (1 + 0) at 1. rewrite <- fmap_add_seqZ. unfold fmap. rewrite <- list_fmap_compose. apply list_fmap_ext.
  intros i k _. unfold compose. f_equal. lia.
Qed.

Lemma synthetic_samples_spec interval : 0 < interval -> forall n fuel value,
  value / interval = Z.of_nat n -> (n < fuel)%nat -> 0 <= value ->
  synthetic_samples fuel value interval = Some (map (fun k => value - k * interval) (seqZ 0 (Z.of_nat n))).
Proof.
  intros Hi. induction n as [|n IH]; intros fuel value Hv Hf Hp; (destruct fuel as [|fuel]; [lia|]); simpl synthetic_samples.
  - pose proof (Z.div_mod value interval ltac:(lia)) as Hd. pose proof (Z.mod_pos_bound value interval Hi).
    rewrite Hv, Z.mul_0_r in Hd. destruct (Z.leb_spec interval value); [lia|done].
  - pose proof (Z.div_mod value interval ltac:(lia)) as Hd. pose proof (Z.mod_pos_bound value interval Hi).
    rewrite Hv, Nat2Z.inj_succ in Hd. destruct (Z.leb_spec interval value); [|nia]. unfold saturating_sub. rewrite Z.max_r by lia.
    rewrite (IH fuel (value - interval)); [|rewrite <- (Z.mul_1_l interval) at 1; replace (value - 1 * interval) with (value + (-1) * interval) by lia; rewrite Z.div_add by lia; lia|lia|lia].
    rewrite Nat2Z.inj_succ, (seqZ_cons 0 (Z.succ _)), Z.pred_succ by lia. cbn [map fmap option_fmap option_map]. rewrite Z.mul_0_l, Z.sub_0_r.
    do 2 f_equal. change (Z.succ 0) with 1. rewrite map_seqZ_shift. apply map_ext. intros k. lia.
Qed.

Lemma correct_spec interval fuel values : 0 < interval ->
  Forall (fun v => 0 <= v /\ v / interval < Z.of_nat fuel) values -> (0 < fuel)%nat ->
  coordinated_omission_correct fuel values interval = Some (values ≫= fun v => v :: omitted v interval).
Proof.
  intros Hi Hv Hf. induction Hv as [|v values [Hv0 Hv1] _ IH]; [done|]. cbn [coordinated_omission_correct].
  pose proof (Z.div_mod v interval ltac:(lia)). pose proof (Z.mod_pos_bound v interval Hi).
  rewrite bind_cons, IH. unfold saturating_sub. destruct (Z_lt_ge_dec v interval) as [Hlt|Hge].
  - rewrite Z.max_l by lia. rewrite (synthetic_samples_spec interval Hi 0) by (try done; lia). unfold omitted.
    replace (v / interval) with 0 by (symmetry; apply Z.div_small; lia). done.
  - rewrite Z.max_r by lia. assert (1 <= v / interval) as H1 by (apply Z.div_le_lower_bound; lia).
    rewrite (synthetic_samples_spec interval Hi (Z.to_nat (v / interval - 1))); [|..].
    + unfold omitted. rewrite Z2Nat.id by lia. simpl. do 3 f_equal. rewrite map_seqZ_shift. apply map_ext. intros k. lia.
    + rewrite Z2Nat.id by lia. replace (v - interval) with (v + (-1) * interval) by lia. rewrite Z.div_add by lia. lia.
    + lia.
    + lia.
Qed.

(** The correction terminates for every interval the input may have and adds, after
    each sample, the latencies of the arrivals it held up: a sample of [v] with arrivals
    every [i] stands for [v], [v - i], [v - 2i] and so on down to one interval, so the
    corrected histogram has one entry for each scheduled arrival. *)
Theorem correction_counts_arrivals values interval fuel :
  0 < interval -> Forall (fun v => 0 <= v /\ v / interval < Z.of_nat fuel) values -> (0 < fuel)%nat ->
  coordinated_omission_correct fuel values interval = Some (values ≫= fun v => v :: omitted v interval) /\
  forall v, v ∈ values -> len (v :: omitted v interval) = Z.max 1 (v / interval) /\
                          Forall (fun s => interval <= s < v) (omitted v interval).
Proof.
  intros Hi Hv Hf. split; [now apply correct_spec|]. intros v Hvv. rewrite Forall_forall in Hv. apply Hv in Hvv as [Hv0 _].
  pose proof (Z.div_mod v interval ltac:(lia)). pose proof (Z.mod_pos_bound v interval Hi).
  assert (0 <= v / interval) by (apply Z.div_pos; lia). split.
  - rewrite len_cons. unfold omitted, len. rewrite length_map, length_seqZ. lia.
  - unfold omitted. apply Forall_fmap, Forall_forall. intros k Hk. apply elem_of_seqZ in Hk. simpl.
    assert ((k + 1) * interval <= v / interval * interval) by (apply Z.mul_le_mono_nonneg_r; lia). nia.
Qed.
Lemma correction_counts_arrivals_witness :
  coordinated_omission_correct 9 [10; 2] 3 = Some [10; 7; 4; 2] /\ len (10 :: omitted 10 3) = 3.
Proof.
  destruct (correction_counts_arrivals [10; 2] 3 9 ltac:(lia) ltac:(repeat constructor; vm_compute; (done || discriminate)) ltac:(lia)) as [H1 H2].
  split; [exact H1|]. exact (proj1 (H2 10 ltac:(left))).
Defined.

(** ** Windows *)

Lemma range_adjacent {A} (l : list A) a b c : 0 <= a <= b -> b <= c -> range a b l ++ range b c l = range a c l.
Proof.
  intros Hab Hbc. unfold range. replace (Z.to_nat (c - a)) with (Z.to_nat (b - a) + Z.to_nat (c - b))%nat by lia.
  rewrite <- take_take_drop. f_equal. rewrite drop_drop. do 2 f_equal. lia.
Qed.
Lemma range_all {A} (l : list A) : range 0 (len l) l = l.
Proof. unfold range, len. rewrite Z.sub_0_r, Nat2Z.id. simpl. apply firstn_all. Qed.

Lemma window_count_cases closed open : window_count closed open = 1 \/ window_count closed open = 2.
Proof. unfold window_count. pose proof (len_nonneg closed). pose proof (len_nonneg open). lia. Qed.

(** The slices of either kind, one for each window, make up all the samples. *)
Lemma slices_partition {A} (l : list A) n : n = 1 \/ n = 2 ->
  mjoin (map (fun i => range (i * len l / n) ((i + 1) * len l / n) l) (seqZ 0 n)) = l.
Proof.
  pose proof (len_nonneg l). intros [->| ->].
  - change (seqZ 0 1) with [0]. cbn [map mjoin list_join]. change (0 + 1) with 1.
    rewrite !Z.div_1_r, app_nil_r, Z.mul_1_l, Z.mul_0_l. apply range_all.
  - change (seqZ 0 2) with [0; 1]. cbn [map mjoin list_join]. rewrite app_nil_r. change (0 + 1) with 1. change (1 + 1) with 2.
    rewrite Z.mul_0_l, Z.div_0_l, Z.mul_1_l by lia. replace (2 * len l / 2) with (len l) by (rewrite Z.mul_comm, Z.div_mul; lia).
    rewrite range_adjacent; [apply range_all|split; [lia|apply Z.div_pos; lia]|apply Z.div_le_upper_bound; lia].
Qed.

Lemma window_nonempty closed open i : 0 < len closed -> 0 < len open -> 0 <= i < window_count closed open ->
  window_latencies closed open i <> [].
Proof.
  intros Hc Ho Hi. unfold window_latencies. set (n := window_count closed open) in *.
  assert (n <= len closed) as Hnc by (unfold n, window_count; lia). assert (n = 1 \/ n = 2) as Hn by apply window_count_cases.
  intros H. apply app_eq_nil in H as [H _]. apply (f_equal length) in H. unfold range in H. rewrite length_take, length_drop in H. simpl in H.
  assert (i * len closed / n < (i + 1) * len closed / n) as Hlt.
  { replace ((i + 1) * len closed) with (i * len closed + len closed) by lia.
    apply Z.lt_le_trans with (i * len closed / n + 1); [lia|]. rewrite <- Z.div_add by lia. apply Z.div_le_mono; lia. }
  assert (0 <= i * len closed / n) by (apply Z.div_pos; nia).
  assert ((i + 1) * len closed / n <= len closed) by (apply Z.div_le_upper_bound; nia). unfold len in *. lia.
Qed.

Lemma collect_ok_spec {A B} (f : A -> result B bytes) (P : A -> B -> Prop) l :
  (forall x, x ∈ l -> exists y, f x = Ok y /\ P x y) -> exists ys, collect_ok (map f l) = Ok ys /\ Forall2 P l ys.
Proof.
  induction l as [|x l IH]; intros H; simpl; [eauto|]. destruct (H x ltac:(left)) as (y & -> & Hy).
  destruct IH as (ys & -> & Hys); [intros z Hz; apply H; now right|]. eauto.
Qed.

(** With samples of both loops the windows are always computed, and they partition
    the samples: in order, every closed-loop sample and every open-loop sample is in
    exactly one window, and each window's percentiles are those of its own samples. *)
Theorem windows_partition closed closed_elapsed open open_elapsed : closed <> [] -> open <> [] ->
  let n := window_count closed open in
  (exists ws, measurement_windows closed closed_elapsed open open_elapsed = Ok ws /\ len ws = n /\
     Forall2 (fun i w => let l := window_latencies closed open i in
       p95_micros w ∈ l /\ 95 * len l <= 100 * count (fun v => v <=? p95_micros w) l /\ 100 * count (fun v => v <? p95_micros w) l < 95 * len l /\
       p99_micros w ∈ l /\ 99 * len l <= 100 * count (fun v => v <=? p99_micros w) l /\ 100 * count (fun v => v <? p99_micros w) l < 99 * len l)
       (seqZ 0 n) ws) /\
  mjoin (map (fun i => range (i * len closed / n) ((i + 1) * len closed / n) closed) (seqZ 0 n)) = closed /\
  mjoin (map (fun i => range (i * len open / n) ((i + 1) * len open / n) open) (seqZ 0 n)) = open.
Proof.
  intros Hc Ho n. split; [|split; apply slices_partition, window_count_cases].
  assert (0 < len closed) by (destruct closed; [done|]; rewrite len_cons; pose proof (len_nonneg closed); lia).
  assert (0 < len open) by (destruct open; [done|]; rewrite len_cons; pose proof (len_nonneg open); lia).
  unfold measurement_windows. fold n.
  match goal with |- exists ws, _ /\ _ /\ Forall2 ?P _ _ => destruct (collect_ok_spec (measurement_window closed closed_elapsed open open_elapsed) P (seqZ 0 n)) as (ws & Hok & Hall) end.
  - intros i Hi. apply elem_of_seqZ in Hi. pose proof (window_nonempty closed open i ltac:(lia) ltac:(lia) ltac:(unfold n in Hi; lia)) as Hne.
    unfold measurement_window. set (l := window_latencies closed open i) in *. set (s := sort_u64 l).
    assert (s ≡ₚ l) as Hp by apply insertion_sort_perm. assert (s <> []) as Hs by (intros E; apply Hne; rewrite E in Hp; now apply Permutation_nil in Hp).
    destruct (percentile_rank s 95 (sort_u64_sorted l) Hs ltac:(lia)) as (x & -> & Hx & Hx1 & Hx2).
    destruct (percentile_rank s 99 (sort_u64_sorted l) Hs ltac:(lia)) as (y & -> & Hy & Hy1 & Hy2).
    unfold s in Hx1, Hx2, Hy1, Hy2. rewrite count_sort, len_sort in Hx1, Hx2, Hy1, Hy2. rewrite Hp in Hx, Hy. eexists. split; [done|]. cbv zeta; simpl. split_and!; first [exact Hx|exact Hx1|exact Hx2|exact Hy|exact Hy1|exact Hy2].
  - exists ws. split_and!; [done| |done]. apply Forall2_length in Hall. rewrite length_seqZ in Hall. unfold len. rewrite <- Hall.
    destruct (window_count_cases closed open) as [E|E]; unfold n; rewrite E; done.
Qed.
Lemma windows_partition_witness : exists ws, measurement_windows [5; 9; 4] 30 [mkSample 1 2 3; mkSample 1 4 6] 40 = Ok ws /\ len ws = 2.
Proof.
  destruct (windows_partition [5; 9; 4] 30 [mkSample 1 2 3; mkSample 1 4 6] 40 ltac:(discriminate) ltac:(discriminate)) as [(ws & H & Hl & _) _].
  exists ws. split; [exact H|exact Hl].
Defined.

(** ** The open loop *)

Section OpenLoop.
Context {W : Type} (bench : Bench W) (interval : Z).
Hypothesis interval_pos : 0 < interval.

(** Arrivals still scheduled before the deadline. *)
Definition arrivals (remaining : Z) : Z := Z.max 0 (div_ceil remaining interval).

Lemma arrivals_step remaining : 0 < remaining -> arrivals remaining = 1 + arrivals (remaining - interval).
Proof.
  intros Hr. unfold arrivals, div_ceil. replace (remaining + interval - 1) with ((remaining - interval + interval - 1) + 1 * interval) by lia.
  rewrite Z.div_add by lia. assert (0 <= (remaining - interval + interval - 1) / interval) by (apply Z.div_pos; lia). lia.
Qed.
Lemma arrivals_none remaining : remaining <= 0 -> arrivals remaining = 0.
Proof.
  intros Hr. unfold arrivals, div_ceil. assert ((remaining + interval - 1) / interval < 1) by (apply Z.div_lt_upper_bound; lia). lia.
Qed.

Lemma open_loop_counts fuel : forall deadline scheduled ordinal samples w,
  (match samples with [] => Z.max 1 (arrivals (deadline - scheduled)) | _ => arrivals (deadline - scheduled) end) < Z.of_nat fuel ->
  exists r w', open_loop bench fuel deadline interval scheduled ordinal samples w = Some (r, w') /\
    forall out, r = Ok out ->
      len out = len samples + match samples with [] => Z.max 1 (arrivals (deadline - scheduled)) | _ => arrivals (deadline - scheduled) end.
Proof.
  induction fuel as [|fuel IH]; intros deadline scheduled ordinal samples w Hf.
  { assert (0 <= arrivals (deadline - scheduled)) by (unfold arrivals; lia). destruct samples; lia. }
  cbn [open_loop]. destruct (match samples with [] => true | _ => scheduled <? deadline end) eqn:Econt.
  - destruct (now bench (sleep_until bench scheduled w)) as [started w1].
    destruct (query_echo bench (expected_value ordinal) w1) as [[actual|e|] w2]; [|do 2 eexists; split; [done|]; discriminate..].
    destruct (actual =? expected_value ordinal); [|do 2 eexists; split; [done|]; discriminate].
    destruct (now bench w2) as [ended w3].
    match goal with |- context [open_loop bench fuel _ _ _ _ ?s _] => set (samples' := s) end.
    assert (match samples' with [] => Z.max 1 (arrivals (deadline - (scheduled + interval))) | _ => arrivals (deadline - (scheduled + interval)) end =
            arrivals (deadline - (scheduled + interval))) as Hs by (unfold samples'; now destruct samples).
    assert (1 + arrivals (deadline - (scheduled + interval)) =
            match samples with [] => Z.max 1 (arrivals (deadline - scheduled)) | _ => arrivals (deadline - scheduled) end) as Hstep.
    { replace (deadline - (scheduled + interval)) with (deadline - scheduled - interval) by lia.
      assert (0 <= arrivals (deadline - scheduled - interval)) by (unfold arrivals; lia).
      destruct (Z_lt_ge_dec 0 (deadline - scheduled)) as [Hpos|Hneg].
      - rewrite (arrivals_step (deadline - scheduled) Hpos). destruct samples; lia.
      - destruct samples; [|apply Z.ltb_lt in Econt; lia]. rewrite !arrivals_none by lia. done. }
    destruct (IH deadline (scheduled + interval) ((ordinal + 1) mod 2 ^ 64) samples' w3) as (r & w' & -> & Hr); [rewrite Hs; lia|].
    do 2 eexists; split; [done|]. intros out Hout. rewrite (Hr out Hout), Hs. unfold samples'. rewrite len_app, <- Hstep.
    change (len [_]) with 1. lia.
  - do 2 eexists; split; [done|]. intros out [= <-]. destruct samples; [done|]. apply Z.ltb_ge in Econt. rewrite arrivals_none by lia. lia.
Qed.

(** The open loop misses no arrival: it ends after the arrivals scheduled before the
    deadline, one every interval, however slow an operation is and whatever the clock
    does; unless an operation fails, it has a sample for each of them (and at least one). *)
Theorem open_loop_misses_nothing fuel duration seed w : Z.max 1 (arrivals duration) < Z.of_nat fuel ->
  exists r w', run_open_loop bench fuel duration interval seed w = Some (r, w') /\
    forall samples, r = Ok samples -> len samples = Z.max 1 (arrivals duration).
Proof.
  intros Hf. unfold run_open_loop. destruct (now bench w) as [t w1].
  assert (t + duration - t = duration) as Ht by lia.
  destruct (open_loop_counts fuel (t + duration) t seed [] w1 ltac:(now rewrite Ht)) as (r & w' & H & Hr). exists r, w'. split; [exact H|].
  intros samples Hs. rewrite (Hr samples Hs). rewrite Ht. done.
Qed.

End OpenLoop.

(** A bench whose every operation takes ten milliseconds. *)
Definition sample_bench : Bench Z :=
  mkBench Z (fun w => (w, w)) (fun t w => Z.max t w) (fun v w => (Ok v, w + 10 * 10 ^ 6)).
Lemma open_loop_misses_nothing_witness : exists r w',
  run_open_loop sample_bench 30 (50 * 10 ^ 6) (2 * 10 ^ 6) 7 0 = Some (r, w') /\ forall samples, r = Ok samples -> len samples = 25.
Proof.
  destruct (open_loop_misses_nothing sample_bench (2 * 10 ^ 6) ltac:(lia) 30 (50 * 10 ^ 6) 7 0 ltac:(vm_compute; reflexivity)) as (r & w' & H & Hr).
  exists r, w'. split; [exact H|exact Hr].
Defined.
Example open_loop_all_arrivals : match run_open_loop sample_bench 30 (50 * 10 ^ 6) (2 * 10 ^ 6) 7 0 with
  | Some (Ok samples, w) => (len samples, w, sample_queue <$> last samples) = (25, 250 * 10 ^ 6, Some 192000) | _ => False end.
Proof. vm_compute. reflexivity. Qed.

(** ** The gates *)

(** Validated inputs evaluate: what the report needs is there, so nothing panics. *)
Lemma median_u64_ok l : l <> [] -> exists m, median_u64 l = Ok m.
Proof.
  intros Hne. assert (0 < len l) as Hl by (destruct l; [done|]; rewrite len_cons; pose proof (len_nonneg l); lia).
  destruct (index_ok (sort_u64 l) (len l / 2)) as (m & H & _); [|eauto]. rewrite len_sort. split; [apply Z.div_pos; lia|apply Z.div_lt; lia].
Qed.
Lemma median_f64_ok l : l <> [] -> exists m, median_f64 l = Ok m.
Proof.
  intros Hne. assert (0 < len l) as Hl by (destruct l; [done|]; rewrite len_cons; pose proof (len_nonneg l); lia).
  assert (len (insertion_sort f64_le_or_unordered l) = len l) as Hs by (unfold len; f_equal; apply Permutation_length, insertion_sort_perm).
  destruct (index_ok (insertion_sort f64_le_or_unordered l) (len l / 2)) as (m & H & _); [|eauto]. rewrite Hs. split; [apply Z.div_pos; lia|apply Z.div_lt; lia].
Qed.

Definition u64s (l : list Z) : Prop := Forall (fun v => 0 <= v <= U64_MAX) l.

Lemma histogram_ok l : l <> [] -> u64s l -> exists h, histogram l = Ok h.
Proof.
  intros Hne Hu. assert (0 < len (sort_u64 l)) as Hl by (rewrite len_sort; destruct l; [done|]; rewrite len_cons; pose proof (len_nonneg l); lia).
  assert (sort_u64 l <> []) as Hs by (intros E; rewrite E in Hl; done).
  destruct (index_ok (sort_u64 l) (len (sort_u64 l) - 1) ltac:(lia)) as (x & Hx & _). destruct (index_ok (sort_u64 l) 0 ltac:(lia)) as (y & Hy & _).
  destruct (percentile_rank _ 50 (sort_u64_sorted l) Hs ltac:(lia)) as (a & Ha & _). destruct (percentile_rank _ 95 (sort_u64_sorted l) Hs ltac:(lia)) as (b & Hb & _).
  destruct (percentile_rank _ 99 (sort_u64_sorted l) Hs ltac:(lia)) as (c & Hc & _).
  unfold histogram. destruct l; [done|]. rewrite Hx, Hy, Ha, Hb, Hc. eexists. exact eq_refl.
Qed.

Lemma len_pos {A} (l : list A) : l <> [] <-> 0 < len l.
Proof. destruct l as [|x l]; [done|]. rewrite len_cons. pose proof (len_nonneg l). split; [lia|done]. Qed.

Lemma validate_input_ok input : validate_input input = Ok tt ->
  scheduled_interval_micros (open_input input) <> 0 /\ windows input <> [] /\
  len (queue_micros (open_input input)) = len (execution_micros (open_input input)) /\
  len (queue_micros (open_input input)) = len (end_to_end_micros (open_input input)).
Proof.
  unfold validate_input. destruct (input_schema input =? 1); [|done]. cbn [negb].
  match goal with |- context [if ?c then Err (str "performance input contains incomplete controlled phases") else _] => destruct c eqn:E; [done|] end.
  intros _. rewrite !orb_false_iff, !negb_false_iff, !Z.eqb_neq, !Z.eqb_eq in E.
  destruct E as [[[[[_ _] Hz] H1] H2] H3]. split_and!; [done| |done|done]. now destruct (windows input).
Qed.

Section Evaluation.
Context (fuel : nat) (input : Input).
Let open := open_input input.
Hypothesis valid : validate_input input = Ok tt.
Hypothesis closed_sampled : latencies_micros (closed_input input) <> [].
Hypothesis open_sampled : queue_micros open <> [].
Hypothesis samples_u64 : u64s (latencies_micros (closed_input input)) /\ u64s (queue_micros open) /\ u64s (execution_micros open) /\
  u64s (end_to_end_micros open) /\ 0 <= scheduled_interval_micros open.
Hypothesis enough_fuel : Forall (fun v => v / scheduled_interval_micros open < Z.of_nat fuel) (end_to_end_micros open) /\ (0 < fuel)%nat.

Lemma interval_positive : 0 < scheduled_interval_micros open.
Proof. destruct (validate_input_ok _ valid) as (H & _). destruct samples_u64 as (_ & _ & _ & _ & H0). unfold open in *. lia. Qed.

Lemma corrected_histogram : exists corrected h,
  coordinated_omission_correct fuel (end_to_end_micros open) (scheduled_interval_micros open) = Some corrected /\ histogram corrected = Ok h.
Proof.
  pose proof interval_positive as Hi. destruct samples_u64 as (_ & _ & _ & Hu & _), enough_fuel as [Hfuel Hf].
  destruct (validate_input_ok _ valid) as (_ & _ & _ & Hl). fold open in Hl. apply len_pos in open_sampled as Hp. rewrite Hl in Hp.
  assert (Forall (fun v => 0 <= v /\ v / scheduled_interval_micros open < Z.of_nat fuel) (end_to_end_micros open)) as Hall.
  { apply Forall_and. split; [|done]. eapply Forall_impl; [exact Hu|]. simpl. lia. }
  eexists. destruct (histogram_ok (end_to_end_micros open ≫= fun v => v :: omitted v (scheduled_interval_micros open))) as [h Hh].
  - apply len_pos in Hp. now destruct (end_to_end_micros open).
  - apply Forall_forall. intros x Hx. apply list_elem_of_bind in Hx as (v & Hx & Hv). unfold u64s in Hu. rewrite Forall_forall in Hu.
    specialize (Hu v Hv). simpl in Hu. apply elem_of_cons in Hx as [->|Hx]; [done|]. apply list_elem_of_fmap in Hx as (k & -> & Hk).
    apply elem_of_seqZ in Hk. pose proof (Z.mul_div_le v (scheduled_interval_micros open) Hi).
    assert (k * scheduled_interval_micros open <= v / scheduled_interval_micros open * scheduled_interval_micros open) by (apply Z.mul_le_mono_nonneg_r; lia).
    nia.
  - exists h. split; [now apply correct_spec|exact Hh].
Qed.

Lemma report_built baseline enforce : exists report, build_report fuel input baseline enforce = Some (Ok report) /\
  (baseline = None -> threshold_exceeded (comparison report) = false).
Proof.
  destruct (validate_input_ok _ valid) as (_ & Hw & Hl1 & Hl2). fold open in Hl1, Hl2. apply len_pos in open_sampled as Hp.
  destruct samples_u64 as (Hu1 & Hu2 & Hu3 & Hu4 & _). destruct corrected_histogram as (corrected & h5 & Hc & Hh5).
  destruct (median_f64_ok (map throughput_per_second (windows input))) as [t Ht]; [now destruct (windows input)|].
  destruct (median_u64_ok (map p95_micros (windows input))) as [a Ha]; [now destruct (windows input)|].
  destruct (median_u64_ok (map p99_micros (windows input))) as [b Hb]; [now destruct (windows input)|].
  apply len_pos in Hw. destruct (index_ok (windows input) 0 ltac:(lia)) as (w0 & Hw0 & _).
  destruct (index_ok (windows input) (len (windows input) - 1) ltac:(lia)) as (w1 & Hw1 & _).
  destruct (histogram_ok _ closed_sampled Hu1) as [h1 Hh1]. destruct (histogram_ok _ open_sampled Hu2) as [h2 Hh2].
  destruct (histogram_ok (execution_micros open)) as [h3 Hh3]; [apply len_pos; lia|done|].
  destruct (histogram_ok (end_to_end_micros open)) as [h4 Hh4]; [apply len_pos; lia|done|].
  eexists. split.
  - unfold build_report. fold open. rewrite Hc. cbn [mbind option_bind]. rewrite Ht, Ha, Hb, Hw0, Hw1, Hh1, Hh2, Hh3, Hh4, Hh5. exact eq_refl.
  - intros ->. reflexivity.
Qed.

(** A run on validated measurements with samples of both loops always yields a
    report, whatever the windows and the baseline; when enforced it fails exactly if the
    report says a threshold is exceeded, which needs a baseline, and an advisory run
    never fails on one. *)
Theorem evaluation_gates enforce stable linux runner version mode baseline :
  admit_run enforce stable linux runner mode = Ok tt -> admit_baseline runner version mode baseline = Ok tt ->
  exists report, build_report fuel input baseline enforce = Some (Ok report) /\
    evaluate fuel enforce stable linux runner version mode input baseline =
      Some (if enforce && threshold_exceeded (comparison report) then Err (str "promoted performance threshold exceeded") else Ok tt) /\
    (baseline = None -> threshold_exceeded (comparison report) = false).
Proof.
  intros Hrun Hbase. destruct (report_built baseline enforce) as (report & Hr & Hn). exists report. split; [exact Hr|]. split; [|exact Hn].
  unfold evaluate. rewrite Hrun, valid, Hbase, Hr. exact eq_refl.
Qed.

End Evaluation.
