(* ===== verification/BurnIn.v ===== *)
(** The observing intermediary of the burn-in harness and the raw protocol packets it
    sends: src/lib.rs of pg-proto-burn-in. The registry and the middleware are
    instances of the interfaces the intermediary takes. *)

From Stdlib Require Import ZArith Lia String.
From Stdlib Require Import Init.Byte.
From stdpp Require Import prelude gmap.
From S2P Require Import Prelude OrdMap Wire Frame Frontend Startup PreStartup Backend Replication Demux Cancel Fsm Grammar Pipeline Scram Intermediary Text Catalogue CatalogueSpec.

Local Open Scope Z_scope.
Local Open Scope list_scope.

(** ** The cancellation registry *)

Record FourByteCancellationRegistry : Type := mkFourByte {
  four_byte_routes : gmap CancelKey CancellationRoute; registrations : Z; rewrites : Z
}.
Definition default_four_byte : FourByteCancellationRegistry := mkFourByte ∅ 0 0.

Inductive FourByteError : Type := ShortCancellationKey | DuplicateCancellationKey.

(** [byte ^ 0x80] and [process_id ^ 0x8000_0000] *)
Definition flip_byte (b : byte) : byte := byte_of (Z.lxor (byte_val b) 128).
Definition rewritten_key (upstream : CancelKey) : option CancelKey :=
  match take 4 (key_secret upstream) with
  | b :: rest =>
      if (length (key_secret upstream) <? 4)%nat then None
      else Some (mkCancelKey (Z.lxor (key_process_id upstream) (2 ^ 31)) (flip_byte b :: rest))
  | [] => None
  end.

(** The mutex is not poisoned: nothing panics while it is held. [HashMap::insert]
    replaces the route of a key that is already there. *)
Definition four_byte_register (route : CancellationRoute) (k : FourByteCancellationRegistry)
    : result CancelKey FourByteError * FourByteCancellationRegistry :=
  match rewritten_key (upstream_key route) with
  | None => (Err ShortCancellationKey, k)
  | Some client =>
      let routes := <[client := route]> (four_byte_routes k) in
      match four_byte_routes k !! client with
      | Some _ => (Err DuplicateCancellationKey, mkFourByte routes (registrations k) (rewrites k))
      | None =>
          (Ok client, mkFourByte routes (registrations k + 1)
             (if bool_decide (client = upstream_key route) then rewrites k else rewrites k + 1))
      end
  end.

#[export] Instance four_byte_registry : IntermediaryCancellationRegistry FourByteCancellationRegistry FourByteError := {
  registry_register := four_byte_register;
  registry_resolve client k := four_byte_routes k !! client;
  registry_detach client k :=
    (four_byte_routes k !! client, mkFourByte (delete client (four_byte_routes k)) (registrations k) (rewrites k))
}.

Record CancellationRegistryResult : Type := mkRegistryResult { all_keys_rewritten : bool; mappings_after_teardown : Z }.
Definition registry_evidence (k : FourByteCancellationRegistry) : CancellationRegistryResult :=
  mkRegistryResult ((0 <? registrations k) && (rewrites k =? registrations k)) (Z.of_nat (size (four_byte_routes k))).

Record CancellationResult : Type := mkCancellation {
  selected_sqlstate : bytes; selected_session_survived : bool; unaffected_value : Z; unaffected_session_survived : bool;
  cancellation_keys_rewritten : bool; cancellation_mappings : Z
}.
Definition validate_cancellation (e : CancellationResult) : bool :=
  negb (negb (bool_decide (selected_sqlstate e = str "57014")) || negb (selected_session_survived e) || negb (unaffected_value e =? 7) ||
        negb (unaffected_session_survived e) || negb (cancellation_keys_rewritten e) || negb (cancellation_mappings e =? 0)).

(** ** The observer *)

Record CoverageState : Type := mkCoverageState {
  transitions : list bytes; causally_unattributed : list bytes; parameter_status : option (bytes * bytes);
  bind_rewrite_statement : option bytes
}.
Definition default_coverage : CoverageState := mkCoverageState [] [] None None.
Definition record_transition (id : bytes) (st : CoverageState) : CoverageState :=
  mkCoverageState (set_insert id (transitions st)).2 (causally_unattributed st) (parameter_status st) (bind_rewrite_statement st).

Record CoverageObserver : Type := mkObserver { rich_rewrites : bool }.

Section Observer.
(** [String::from_utf8_lossy] *)
Context (lossy : bytes -> bytes).

Definition async_kind (message : BackendMessage) : option bytes :=
  match message with
  | B_NoticeResponse _ => Some (str "notice")
  | B_NotificationResponse _ _ _ => Some (str "notification")
  | B_ParameterStatus _ _ => Some (str "parameter-status")
  | B_BackendKeyData _ _ => Some (str "backend-key")
  | _ => None
  end.
Definition observe_async (st : CoverageState) (operation : option OperationId) (message : BackendMessage) : CoverageState :=
  match async_kind message with
  | None => st
  | Some kind =>
      let unattributed := match operation with None => true | Some _ => false end in
      let status := match message with
                    | B_ParameterStatus name value =>
                        if unattributed && bool_decide (name = str "application_name") then Some (lossy name, lossy value)
                        else parameter_status st
                    | _ => parameter_status st
                    end in
      mkCoverageState (transitions st) (if unattributed then (set_insert kind (causally_unattributed st)).2 else causally_unattributed st)
        status (bind_rewrite_statement st)
  end.

Definition TAB_ORIGINAL (text : bytes) : bytes := str "1" ++ [x09] ++ text ++ [x0a].

(** One field of a row description, and whether it was renamed. *)
Definition rewrite_field (field : FieldDescription) : FieldDescription * bool :=
  if bool_decide (field_name field = str "pg_proto_row_description_original") then
    (mkField (str "pg_proto_row_description_rewritten") (table_oid field) (column field) (type_oid field) (type_size field)
       (type_modifier field) (field_format field), true)
  else (field, false).

Definition reconstruct_backend (b : CoverageObserver) (st : CoverageState) (message : BackendMessage) : BackendMessage * CoverageState :=
  if negb (rich_rewrites b) then (message, st)
  else
    match message with
    | B_RowDescription description =>
        let rewritten := map rewrite_field (row_fields description) in
        (B_RowDescription (mkRowDescription (map fst rewritten)),
         if existsb snd rewritten then record_transition (str "rewrite.row-description.mutated") st else st)
    | B_DataRow row =>
        if bool_decide (columns row = [Some (str "314159")])
        then (B_DataRow (mkDataRow [Some (str "271828")]), record_transition (str "rewrite.data-row.mutated") st)
        else (message, st)
    | B_ErrorResponse diagnostic =>
        if existsb (fun f => bool_decide (code f = "C"%byte) && bool_decide (value f = str "22012")) (fields diagnostic)
        then (B_ErrorResponse (mkDiagnostic (fields diagnostic ++ [mkDiagnosticField "D"%byte (str "pg-proto rewrote this diagnostic")])),
              record_transition (str "rewrite.diagnostic-response.mutated") st)
        else (message, st)
    | B_CopyData payload =>
        if bool_decide (payload = TAB_ORIGINAL (str "copy-upstream"))
        then (B_CopyData (TAB_ORIGINAL (str "copy-downstream")), record_transition (str "rewrite.copy-out-payload.mutated") st)
        else (message, st)
    | _ => (message, st)
    end.

Definition observer_frontend (b : CoverageObserver) (st : CoverageState) (message : FrontendMessage) : FrontendMessage * CoverageState :=
  if negb (rich_rewrites b) then (message, st)
  else
    match message with
    | F_Parse parse =>
        if bool_decide (parse_query parse = str "SELECT 41::int4 /* pg_proto_parse_rewrite */") then
          (F_Parse (mkParse (parse_statement parse) (str "SELECT 42::int4 /* pg_proto_parse_rewritten */") (parse_parameter_types parse)),
           record_transition (str "rewrite.parse-query.mutated") st)
        else if bool_decide (parse_query parse = str "SELECT $1::int4 /* pg_proto_bind_rewrite */") then
          (message, mkCoverageState (transitions st) (causally_unattributed st) (parameter_status st) (Some (parse_statement parse)))
        else (message, st)
    | F_Bind bind =>
        if bool_decide (bind_rewrite_statement st = Some (bind_statement bind)) then
          match bind_parameters bind with
          | Some _ :: parameters =>
              (F_Bind (mkBind (bind_portal bind) (bind_statement bind) (bind_parameter_formats bind) (Some (be_bytes 4 42) :: parameters)
                         (bind_result_formats bind)),
               record_transition (str "rewrite.bind-parameter.mutated") st)
          | _ => (message, st)
          end
        else (message, st)
    | F_CopyData payload =>
        if bool_decide (payload = TAB_ORIGINAL (str "copy-original"))
        then (F_CopyData (TAB_ORIGINAL (str "copy-rewritten")), record_transition (str "rewrite.copy-in-payload.mutated") st)
        else (message, st)
    | _ => (message, st)
    end.

Definition observed_stages (d : ProtocolTransitionDirection) : list bytes :=
  match d with
  | TowardsBackend => [str "smoke.extended-select.server-decoded"; str "smoke.extended-select.middleware-observed";
                       str "smoke.extended-select.client-encoded"]
  | TowardsFrontend => [str "smoke.extended-select.postgres-accepted"; str "smoke.extended-select.return-traversed"]
  end.

#[export] Instance coverage_observer {SC CC} : IntermediaryMiddleware CoverageObserver CoverageState SC CC Infallible := {|
  observe_transition b _ _ st observation :=
    (b, foldl (fun st stage => record_transition stage st) (record_transition (str (observed_id observation)) st)
          (observed_stages (direction observation)));
  frontend_operation b _ _ st _ message :=
    let (m, st) := observer_frontend b st message in (Ok (FM_Forward m), (b, st));
  backend_operation b _ _ st operation message :=
    let st := observe_async st operation message in
    let (m, st) := reconstruct_backend b st message in (Ok (BM_Forward m), (b, st));
  flush_backend_operations b _ _ st held _ := (Ok (ReplaceOneToOne (attributed_messages held)), (b, st))
|}.

End Observer.

(** ** Coverage of a smoke run *)

Definition REQUIRED_SMOKE_STAGES : list bytes := map str
  ["smoke.extended-select.driver-emitted"; "smoke.extended-select.server-decoded"; "smoke.extended-select.middleware-observed";
   "smoke.extended-select.client-encoded"; "smoke.extended-select.postgres-accepted"; "smoke.extended-select.return-traversed";
   "smoke.extended-select.driver-validated"]%string.
Definition REQUIRED_SMOKE_COVERAGE : list bytes := map str
  ["backend.BindResponse.Complete"; "backend.BindResponse.Error"; "backend.Building.Bind"; "backend.Building.Describe";
   "backend.Building.Execute"; "backend.Building.Sync"; "backend.CloseResponse.Complete"; "backend.DescribeResponse.ParameterDescription";
   "backend.DescribeResponse.NoData"; "backend.DescribeResponse.RowDescription"; "backend.ExecuteResponse.CommandComplete";
   "backend.ExecuteResponse.Continue"; "backend.ExecuteResponse.CopyIn"; "backend.ExecuteResponse.CopyOut";
   "backend.ExecuteResponse.Error"; "backend.ExecuteResponse.PortalSuspended"; "backend.ExtendedCopyIn.Data";
   "backend.ExtendedCopyIn.Done"; "backend.ExtendedCopyInDone.CommandComplete"; "backend.ExtendedCopyInDone.Error";
   "backend.ExtendedCopyOut.Data"; "backend.ExtendedCopyOut.Done"; "backend.ExtendedCopyOutDone.CommandComplete";
   "backend.Building.Flush"; "backend.ParseResponse.Complete"; "backend.ParseResponse.Error"; "backend.Ready.Bind";
   "backend.Ready.Close"; "backend.Ready.Execute"; "backend.Ready.Parse"; "backend.Ready.Terminate"; "backend.Ready.Query";
   "backend.Simple.Continue"; "backend.Simple.Error"; "backend.SimpleError.Ready"; "backend.Simple.Ready";
   "backend.SyncResponse.Ready"]%string.
Definition OPTIONAL_SMOKE_COVERAGE : list bytes := [str "backend.DescribeResponse.Error"].

Record CoverageReport : Type := mkCoverageReport {
  observed_ids : list bytes; report_stages : list bytes; report_real_postgres : list bytes
}.

Definition coverage_report (observed : list bytes) : result CoverageReport bytes :=
  let stages := set_union [] (List.filter (starts_with (str "smoke.")) observed) in
  let observed := set_union [] (List.filter (fun id => negb (starts_with (str "smoke.") id)) observed) in
  let required := set_union [] REQUIRED_SMOKE_COVERAGE in
  let known := set_union required OPTIONAL_SMOKE_COVERAGE in
  match set_difference observed known with
  | _ :: _ as unknown => Err (str "unknown required coverage IDs: " ++ join (str ", ") unknown)
  | [] =>
      match set_difference required observed with
      | _ :: _ as missing => Err (str "missing required coverage IDs: " ++ join (str ", ") missing)
      | [] =>
          if bool_decide (stages = set_union [] REQUIRED_SMOKE_STAGES) then Ok (mkCoverageReport observed stages observed)
          else Err (str "smoke scenario did not record all seven observation stages")
      end
  end.

Record MiddlewareReconstructionResult : Type := mkReconstruction {
  pass_through : list bytes; identity_rewrite : list bytes; non_identity_rewrite : list bytes; validated : bool
}.
Definition middleware_reconstruction (observed : list bytes) : MiddlewareReconstructionResult :=
  let transitions := List.filter (fun id => negb (starts_with (str "smoke.") id)) observed in
  mkReconstruction transitions transitions [] true.

(** ** Raw packets *)

(** [u32::try_from(..).expect(..)] *)
Definition tagged_message (tag : byte) (body : bytes) : result bytes bytes :=
  if len body + 4 <=? U32_MAX then Ok ([tag] ++ be_bytes 4 (len body + 4) ++ body) else Panic.

Definition standby_status_update (lsn : Z) : result bytes bytes :=
  tagged_message "d"%byte (str "r" ++ be_bytes 8 lsn ++ be_bytes 8 lsn ++ be_bytes 8 lsn ++ be_bytes 8 0 ++ [x00]).

Definition cancellation_packet (process_id secret_key : Z) : bytes :=
  be_bytes 4 16 ++ be_bytes 4 80877102 ++ be_bytes 4 process_id ++ be_bytes 4 secret_key.

Definition replication_startup : bytes :=
  let body := be_bytes 4 196608 ++ str "user" ++ [x00] ++ str "postgres" ++ [x00] ++ str "replication" ++ [x00] ++ str "true" ++ [x00; x00] in
  be_bytes 4 (len body + 4) ++ body.

(** [read_backend_message] on the bytes of the stream: the message and the rest, or
    nothing when the stream ends within it. *)
Definition read_backend_message (stream : bytes) : result (option (byte * bytes * bytes)) bytes :=
  match stream with
  | [] => Ok None
  | tag :: stream =>
      if len stream <? 4 then Ok None
      else
        let length := be_value (take 4 stream) in
        if length <? 4 then Err (str "invalid backend message length")
        else
          let stream := drop 4 stream in
          if len stream <? length - 4 then Ok None
          else Ok (Some (tag, take (Z.to_nat (length - 4)) stream, drop (Z.to_nat (length - 4)) stream))
  end.

(** [body.split(|byte| *byte == 0)] *)
Fixpoint split_zero (body : bytes) : list bytes :=
  match body with
  | [] => [[]]
  | b :: body =>
      if bool_decide (b = x00) then [] :: split_zero body
      else match split_zero body with field :: fields => (b :: field) :: fields | [] => [[b]] end
  end.
(** The first field with code [C] whose value is UTF-8; [utf8] is the validity test. *)
Definition error_sqlstate (utf8 : bytes -> bool) (body : bytes) : option bytes :=
  head (omap (fun field => match field with
                           | b :: rest => if bool_decide (b = "C"%byte) && utf8 rest then Some rest else None
                           | [] => None
                           end) (split_zero body)).
