(* ===== verification/BurnInSpec.v ===== *)
(** What the burn-in's observing intermediary may be relied on for: keys are rewritten
    and routes resolved, observation changes no message, a smoke report means full
    coverage, and the packets written by hand are those of the crate's codecs. *)

From Stdlib Require Import ZArith Lia String.
From Stdlib Require Import Init.Byte.
From stdpp Require Import prelude gmap.
From S2P Require Import Prelude OrdMap Wire Frame Frontend Startup PreStartup Backend Replication Demux Cancel Fsm Grammar Pipeline Scram Intermediary Text Catalogue CatalogueSpec BurnIn.

Local Open Scope Z_scope.
Local Open Scope list_scope.

(** ** The registry *)

Lemma lxor_changes (a m : Z) : m <> 0 -> Z.lxor a m <> a.
Proof. intros Hm H. apply Hm. rewrite <- (Z.lxor_0_l m), <- (Z.lxor_nilpotent a), Z.lxor_assoc, H. reflexivity. Qed.
Lemma lxor_cancel (a b m : Z) : Z.lxor a m = Z.lxor b m -> a = b.
Proof.
  intros H. apply (f_equal (fun x => Z.lxor x m)) in H. rewrite !Z.lxor_assoc, Z.lxor_nilpotent, !Z.lxor_0_r in H. done.
Qed.

Lemma flip_byte_val b : byte_val (flip_byte b) = Z.lxor (byte_val b) 128.
Proof. destruct b; vm_compute; reflexivity. Qed.
Lemma flip_byte_inj a b : flip_byte a = flip_byte b -> a = b.
Proof. intros H. apply (f_equal byte_val) in H. rewrite !flip_byte_val in H. now apply byte_val_inj, (lxor_cancel _ _ 128). Qed.

Lemma rewritten_key_spec upstream client : rewritten_key upstream = Some client ->
  client <> upstream /\ length (key_secret client) = 4%nat /\ (4 <= length (key_secret upstream))%nat.
Proof.
  unfold rewritten_key. destruct (take 4 (key_secret upstream)) as [|b rest] eqn:Et; [done|].
  destruct (Nat.ltb_spec (length (key_secret upstream)) 4) as [|Hl]; [done|]. intros [= <-]. split_and!; [|simpl|done].
  - intros H. apply (f_equal key_process_id) in H. simpl in H. now apply lxor_changes in H.
  - apply (f_equal length) in Et. rewrite length_take_le in Et by done. simpl in Et. lia.
Qed.

(** Two upstream keys get the same client key only if they agree on the process and on
    the first four bytes of the secret. *)
Lemma rewritten_key_inj u1 u2 client : rewritten_key u1 = Some client -> rewritten_key u2 = Some client ->
  key_process_id u1 = key_process_id u2 /\ take 4 (key_secret u1) = take 4 (key_secret u2).
Proof.
  unfold rewritten_key. destruct (take 4 (key_secret u1)) as [|b1 r1]; [done|]. destruct (_ <? 4)%nat; [done|].
  destruct (take 4 (key_secret u2)) as [|b2 r2]; [done|]. destruct (_ <? 4)%nat; [done|]. intros [= <-] [=].
  split; [symmetry; eapply lxor_cancel; eassumption|]. f_equal; [|done]. symmetry. now apply flip_byte_inj.
Qed.

Lemma four_byte_register_ok route k client k' : four_byte_register route k = (Ok client, k') ->
  rewritten_key (upstream_key route) = Some client /\ four_byte_routes k !! client = None /\
  k' = mkFourByte (<[client := route]> (four_byte_routes k)) (registrations k + 1) (rewrites k + 1).
Proof.
  unfold four_byte_register. destruct (rewritten_key (upstream_key route)) as [c|] eqn:E; [|done].
  destruct (four_byte_routes k !! c) eqn:El; [done|]. intros [= <- <-]. split_and!; [done..|].
  apply rewritten_key_spec in E as [Hne _]. now rewrite bool_decide_false.
Qed.

(** Steps of the registry over sessions. *)
Inductive RegistryStep : Type := Register (route : CancellationRoute) | Detach (client : CancelKey).
Definition registry_step (s : RegistryStep) (k : FourByteCancellationRegistry) : FourByteCancellationRegistry :=
  match s with
  | Register route => (registry_register route k).2
  | Detach client => (registry_detach client k).2
  end.

Lemma rewrites_all steps : rewrites (foldl (fun k s => registry_step s k) default_four_byte steps) =
  registrations (foldl (fun k s => registry_step s k) default_four_byte steps).
Proof.
  assert (forall k, rewrites k = registrations k -> rewrites (foldl (fun k s => registry_step s k) k steps) =
    registrations (foldl (fun k s => registry_step s k) k steps)) as H; [|now apply H].
  induction steps as [|s steps IH]; intros k Hk; simpl; [done|]. apply IH. destruct s as [route|client]; simpl; [|done].
  unfold four_byte_register. destruct (rewritten_key (upstream_key route)) as [c|] eqn:E; [|done].
  destruct (four_byte_routes k !! c); simpl; [done|]. apply rewritten_key_spec in E as [Hne _]. rewrite bool_decide_false by done. lia.
Qed.

(** A registered session is resolved under a key that is not the upstream's, other
    sessions are not touched, detaching it restores the routes; and the evidence of
    rewriting is positive as soon as one session was registered. *)
Theorem four_byte_registry_routes route k client k' steps :
  registry_register route k = (Ok client, k') ->
  registry_resolve client k' = Some route /\ client <> upstream_key route /\
  (forall other, other <> client -> registry_resolve other k' = registry_resolve other k) /\
  four_byte_routes (registry_detach client k').2 = four_byte_routes k /\
  let final := foldl (fun k s => registry_step s k) default_four_byte steps in
  all_keys_rewritten (registry_evidence final) = (0 <? registrations final).
Proof.
  intros H. apply four_byte_register_ok in H as (Hr & Hn & ->). simpl. apply rewritten_key_spec in Hr as [Hne _]. split_and!.
  - apply lookup_insert_eq.
  - done.
  - intros other Ho. now apply lookup_insert_ne.
  - now apply delete_insert_id.
  - rewrite rewrites_all, Z.eqb_refl. apply andb_true_r.
Qed.

(** A collision is refused only after the earlier session's route has been replaced:
    cancelling that session then reaches the other one. *)
Theorem refused_registration_replaces route route' k client k' k'' :
  registry_register route k = (Ok client, k') -> rewritten_key (upstream_key route') = Some client ->
  registry_register route' k' = (Err DuplicateCancellationKey, k'') -> registry_resolve client k'' = Some route'.
Proof.
  intros H Hr. apply four_byte_register_ok in H as (_ & _ & ->). simpl. unfold four_byte_register. rewrite Hr. simpl.
  rewrite lookup_insert_eq. intros [= <-]. simpl. apply lookup_insert_eq.
Qed.

(** ** The observer *)

Lemma set_insert_keeps x y s : y ∈ s -> y ∈ (set_insert x s).2.
Proof.
  induction s as [|z s IH]; simpl; [intros H; now apply elem_of_nil in H|]. destruct (bytes_cmp x z) eqn:E; simpl; [done|set_solver|].
  destruct (set_insert x s) as [new s']. simpl in *. rewrite !elem_of_cons. tauto.
Qed.
Lemma set_insert_has x s : x ∈ (set_insert x s).2.
Proof.
  induction s as [|z s IH]; simpl; [left|]. destruct (bytes_cmp x z) eqn:E; simpl; [apply bytes_cmp_eq in E as ->; left|left|].
  destruct (set_insert x s) as [new s']. simpl in *. now right.
Qed.

Lemma record_transition_keeps id st x : x ∈ transitions st -> x ∈ transitions (record_transition id st).
Proof. apply set_insert_keeps. Qed.
Lemma record_transition_has id st : id ∈ transitions (record_transition id st).
Proof. apply set_insert_has. Qed.
Lemma record_all_keeps ids : forall st x, x ∈ transitions st -> x ∈ transitions (foldl (fun st id => record_transition id st) st ids).
Proof. induction ids as [|id ids IH]; intros st x Hx; simpl; [done|]. apply IH, record_transition_keeps, Hx. Qed.
Lemma record_all_has ids : forall st x, x ∈ ids -> x ∈ transitions (foldl (fun st id => record_transition id st) st ids).
Proof.
  induction ids as [|id ids IH]; intros st x Hx; [now apply elem_of_nil in Hx|]. simpl. apply elem_of_cons in Hx as [->|Hx]; [|auto].
  apply record_all_keeps, record_transition_has.
Qed.

(** Without rich rewrites the observer forwards every message unchanged in both
    directions and for every operation, its assertions holding; what it observes is
    recorded and never forgotten. *)
Theorem observer_transparent {SC CC} lossy (sc : SC) (cc : CC) st :
  let b := mkObserver false in
  let mw := coverage_observer (SC := SC) (CC := CC) lossy in
  (forall op m, frontend_operation (IntermediaryMiddleware := mw) b sc cc st op m = (Ok (FM_Forward m), (b, st))) /\
  (forall op m, exists st', backend_operation (IntermediaryMiddleware := mw) b sc cc st op m = (Ok (BM_Forward m), (b, st')) /\ transitions st' = transitions st) /\
  (forall o, let st' := (observe_transition (IntermediaryMiddleware := mw) b sc cc st o).2 in
     str (observed_id o) ∈ transitions st' /\ (forall s, s ∈ observed_stages (direction o) -> s ∈ transitions st') /\
     (forall x, x ∈ transitions st -> x ∈ transitions st')).
Proof.
  simpl. split_and!; [done| |].
  - intros op m. eexists. split; [reflexivity|]. unfold observe_async. now destruct (async_kind m).
  - intros o. split_and!.
    + apply record_all_keeps, record_transition_has.
    + intros s Hs. now apply record_all_has.
    + intros x Hx. apply record_all_keeps, record_transition_keeps, Hx.
Qed.

(** ** Smoke coverage *)

Lemma set_union_spec s t x : ordered s -> x ∈ set_union s t <-> x ∈ s \/ x ∈ t.
Proof.
  intros Hs. induction t as [|y t IH]; simpl; [set_solver|]. pose proof (set_insert_spec y _ (set_union_ordered s t Hs)) as H.
  unfold set_union in *. destruct (set_insert y (foldr _ s t)) as [new s']. destruct H as (_ & H & _). simpl. rewrite H, IH, elem_of_cons. tauto.
Qed.
Lemma of_list_spec t x : x ∈ set_union [] t <-> x ∈ t.
Proof. rewrite set_union_spec by constructor. set_solver. Qed.

Lemma ordered_ext s t : ordered s -> ordered t -> (forall x, x ∈ s <-> x ∈ t) -> s = t.
Proof.
  intros Hs. revert t. induction Hs as [|x s Hs IH Hx]; intros t Ht Hiff.
  - destruct t as [|y t]; [done|]. specialize (Hiff y). rewrite elem_of_nil in Hiff. exfalso. apply Hiff. left.
  - destruct Ht as [|y t Ht Hy]; [specialize (Hiff x); rewrite elem_of_nil in Hiff; exfalso; apply Hiff; left|].
    rewrite Forall_forall in Hx, Hy. assert (x = y) as ->.
    { pose proof (proj1 (Hiff x) ltac:(left)) as H1. pose proof (proj2 (Hiff y) ltac:(left)) as H2.
      apply elem_of_cons in H1 as [->|H1]; [done|]. apply elem_of_cons in H2 as [->|H2]; [done|].
      exfalso. exact (bytes_lt_irrefl x (bytes_lt_trans _ _ _ (Hx y H2) (Hy x H1))). }
    f_equal. apply IH; [done|]. intros z. specialize (Hiff z). rewrite !elem_of_cons in Hiff. split; intros Hz.
    + destruct Hiff as [[->|] _]; [now right| |done]. exfalso. exact (bytes_lt_irrefl y (Hx y Hz)).
    + destruct Hiff as [_ [->|]]; [now right| |done]. exfalso. exact (bytes_lt_irrefl y (Hy y Hz)).
Qed.

Lemma elem_of_filter_bool (f : bytes -> bool) l x : x ∈ List.filter f l <-> x ∈ l /\ f x = true.
Proof. rewrite !list_elem_of_In, filter_In. done. Qed.

(** A smoke run is reported covered exactly when it observed every required
    transition, nothing but required and optional transitions, and exactly the seven
    stages from the driver's request to its validation. *)
Theorem coverage_report_exact observed :
  is_ok (coverage_report observed) = true <->
  (forall x, x ∈ REQUIRED_SMOKE_COVERAGE -> x ∈ observed /\ starts_with (str "smoke.") x = false) /\
  (forall x, x ∈ observed -> starts_with (str "smoke.") x = false -> x ∈ REQUIRED_SMOKE_COVERAGE \/ x ∈ OPTIONAL_SMOKE_COVERAGE) /\
  (forall x, x ∈ REQUIRED_SMOKE_STAGES <-> x ∈ observed /\ starts_with (str "smoke.") x = true).
Proof.
  unfold coverage_report. set (stages := set_union [] (List.filter (starts_with (str "smoke.")) observed)).
  set (obs := set_union [] (List.filter (fun id => negb (starts_with (str "smoke.") id)) observed)).
  assert (forall x, x ∈ stages <-> x ∈ observed /\ starts_with (str "smoke.") x = true) as Hst by (intros x; unfold stages; now rewrite of_list_spec, elem_of_filter_bool).
  assert (forall x, x ∈ obs <-> x ∈ observed /\ starts_with (str "smoke.") x = false) as Hob.
  { intros x. unfold obs. rewrite of_list_spec, elem_of_filter_bool, negb_true_iff. done. }
  assert (ordered (set_union [] REQUIRED_SMOKE_COVERAGE)) as Ho by (apply set_union_ordered; constructor).
  assert (set_difference obs (set_union (set_union [] REQUIRED_SMOKE_COVERAGE) OPTIONAL_SMOKE_COVERAGE) = [] <->
    (forall x, x ∈ observed -> starts_with (str "smoke.") x = false -> x ∈ REQUIRED_SMOKE_COVERAGE \/ x ∈ OPTIONAL_SMOKE_COVERAGE)) as H1.
  { rewrite set_difference_nil. split; intros H x; specialize (H x); rewrite set_union_spec, of_list_spec, Hob in * by done; tauto. }
  assert (set_difference (set_union [] REQUIRED_SMOKE_COVERAGE) obs = [] <->
    (forall x, x ∈ REQUIRED_SMOKE_COVERAGE -> x ∈ observed /\ starts_with (str "smoke.") x = false)) as H2.
  { rewrite set_difference_nil. split; intros H x; specialize (H x); rewrite of_list_spec, Hob in *; tauto. }
  assert (stages = set_union [] REQUIRED_SMOKE_STAGES <-> (forall x, x ∈ REQUIRED_SMOKE_STAGES <-> x ∈ observed /\ starts_with (str "smoke.") x = true)) as H3.
  { split.
    - intros E x. rewrite <- Hst, E, of_list_spec. done.
    - intros H. apply ordered_ext; [apply set_union_ordered; constructor..|]. intros x. rewrite Hst, of_list_spec, H. done. }
  destruct (set_difference obs _) as [|u us]; [|split; [done|]; intros (_ & H & _); apply H1 in H; done].
  destruct (set_difference (set_union [] REQUIRED_SMOKE_COVERAGE) obs) as [|m ms]; [|split; [done|]; intros (H & _); apply H2 in H; done].
  destruct (bool_decide_reflect (stages = set_union [] REQUIRED_SMOKE_STAGES)) as [E|E]; simpl.
  - split; [|done]. intros _. split_and!; [now apply H2|now apply H1|now apply H3].
  - split; [done|]. intros (_ & _ & H). apply H3 in H. done.
Qed.

(** Every required transition is one the grammars have. *)
Theorem smoke_coverage_generated x : x ∈ REQUIRED_SMOKE_COVERAGE ++ OPTIONAL_SMOKE_COVERAGE -> x ∈ generated_ids.
Proof.
  intros Hx. apply set_contains_spec. revert x Hx. apply Forall_forall.
  assert (forallb (fun x => set_contains x generated_ids) (REQUIRED_SMOKE_COVERAGE ++ OPTIONAL_SMOKE_COVERAGE) = true) as H by (vm_compute; reflexivity).
  rewrite forallb_forall in H. apply Forall_forall. intros x Hx. apply H. now apply list_elem_of_In.
Qed.

(** ** Packets *)

Lemma tagged_message_image tag body : len body + 4 <= U32_MAX -> tagged_message tag body = Ok (wire_image (mkFrame tag body)).
Proof. intros H. unfold tagged_message. destruct (Z.leb_spec (len body + 4) U32_MAX); [done|lia]. Qed.

Lemma read_image t b rest : len b + 4 < 2 ^ 32 ->
  read_backend_message (wire_image (mkFrame t b) ++ rest) = Ok (Some (t, b, rest)).
Proof.
  intros Hb. pose proof (len_nonneg b). pose proof (len_nonneg rest). unfold wire_image. cbn [tag body].
  rewrite <- app_comm_cons, <- app_assoc. cbn [read_backend_message]. rewrite !len_app. unfold len at 1. rewrite length_be_bytes.
  destruct (Z.ltb_spec (Z.of_nat 4 + (len b + len rest)) 4); [lia|].
  rewrite take_app_length', drop_app_length' by now rewrite length_be_bytes. rewrite be_value_bytes, Z.mod_small by lia.
  destruct (Z.ltb_spec (len b + 4) 4); [lia|]. rewrite len_app, Z.add_simpl_r. destruct (Z.ltb_spec (len b + len rest) (len b)); [lia|].
  unfold len. rewrite Nat2Z.id, take_app_length, drop_app_length. done.
Qed.

Lemma read_some stream t b rest : read_backend_message stream = Ok (Some (t, b, rest)) -> stream = wire_image (mkFrame t b) ++ rest.
Proof.
  unfold read_backend_message. destruct stream as [|x stream]; [done|]. destruct (Z.ltb_spec (len stream) 4); [done|].
  destruct (Z.ltb_spec (be_value (take 4 stream)) 4); [done|]. set (n := be_value (take 4 stream)) in *.
  destruct (Z.ltb_spec (len (drop 4 stream)) (n - 4)); [done|]. intros [= <- <- <-].
  assert (len (take (Z.to_nat (n - 4)) (drop 4 stream)) = n - 4) as Hl by (unfold len in *; rewrite length_take_le; lia).
  unfold wire_image. cbn [tag body]. rewrite Hl, Z.sub_add, <- app_comm_cons. f_equal. rewrite <- app_assoc, take_drop.
  assert (length (take 4 stream) = 4%nat) as H4 by (unfold len in *; rewrite length_take_le; lia).
  pose proof (be_bytes_value (take 4 stream)) as Hb. rewrite H4 in Hb. fold n in Hb. rewrite Hb. symmetry. apply take_drop.
Qed.

(** The raw packets the harness writes and reads by hand are those of the crate's
    codecs: the standby status is the crate's replication message in a CopyData frame,
    the cancellation packet is the crate's CancelRequest with a four-byte secret, the
    startup packet decodes to protocol 3.0 with its two parameters; and its reader
    takes a message exactly where the frame decoder does, within any limit. *)
Theorem raw_packets_agree :
  (forall lsn, exists f, FrontendMessage_to_frame (F_CopyData (FrontendReplication_encode (StandbyStatus lsn lsn lsn 0 false))) = Ok f /\
     standby_status_update lsn = Ok (wire_image f)) /\
  (forall process_id secret, to_packet (CancelRequest process_id (be_bytes 4 secret)) = Ok (cancellation_packet process_id secret)) /\
  StartupMessage_decode replication_startup = Ok (mkStartup V3_0 [(str "replication", str "true"); (str "user", str "postgres")]) /\
  (forall stream limit t b rest, decode_frame stream limit = (Ok (Some (mkFrame t b)), rest) <->
     read_backend_message stream = Ok (Some (t, b, rest)) /\ len b + 5 <= limit /\ len b + 5 <= MAX_PROTOCOL_FRAME_LEN).
Proof.
  split_and!.
  - intros lsn. eexists. split; [reflexivity|]. unfold standby_status_update. rewrite tagged_message_image.
    + unfold FrontendReplication_encode, put_u64, put_i64, put_uint, put_u8. rewrite <- !app_assoc. reflexivity.
    + rewrite !len_app. unfold len. rewrite !length_be_bytes. vm_compute. discriminate.
  - intros process_id secret. unfold to_packet, cancel_packet. unfold len. rewrite length_be_bytes. cbn [negb].
    change (contains 4 256 (Z.of_nat 4)) with true. change (U32_MAX <? Z.of_nat 4) with false. cbn [negb].
    unfold put_u32, put_uint. rewrite <- !app_assoc. reflexivity.
  - vm_compute. reflexivity.
  - intros stream limit t b rest. split.
    + intros H. apply decode_frame_some in H as (-> & H1 & H2). cbn [tag body] in *. split_and!; [|done..]. apply read_image.
      unfold MAX_PROTOCOL_FRAME_LEN, I32_MAX in H2. lia.
    + intros (H & H1 & H2). apply read_some in H as ->. now apply decode_frame_image.
Qed.
