(* ===== verification/Cli.v ===== *)
(** The burn-in command line: src/cli.rs, src/run_all.rs, src/report.rs and
    src/performance_delegate.rs of pg-proto-burn-in. A parsed command is flattened to
    arguments that the commands read back with [option] and by searching for flags.
    Paths are UTF-8, so their lossy rendering is the path itself. *)

From Stdlib Require Import ZArith Lia String.
From Stdlib Require Import Init.Byte.
From stdpp Require Import prelude.
From S2P Require Import Prelude Scram Text Civil SoakSchedule Soak.

Local Open Scope Z_scope.
Local Open Scope list_scope.

(** ** Commands *)

Inductive Command : Type :=
| Conformance (profile postgres_version output_dir : bytes)
| SoakCommand (seed : Z) (iterations duration_seconds : option Z) (schedule : option bytes) (capture_payloads : bool) (output_dir : bytes)
| Replay (input : bytes) (reduce : bool) (output_dir : bytes)
| CatalogueCommand (as_of : bytes) (approved : bool) (inputs : list bytes) (output_dir : bytes)
| PerformanceCommand (runner : option bytes) (enforce stable_runner : bool) (postgres_version build_mode : bytes)
    (input profile : option bytes) (seed duration_seconds : option Z) (baseline : option bytes) (output_dir : bytes)
| Faults (output_dir : bytes)
| MakeReport (dir : bytes)
| Trends (dir : bytes)
| SoakDriverChild (address sequence : bytes) (pace_millis : option Z)
| ResourceDriverChild (address : bytes)
| ResourceHoldChild (address : bytes)
| IntermediaryChild (address : bytes) (connections : Z) (allow_abrupt_disconnects rich_rewrites : bool) (password tls_root : option bytes)
| DriverChild (address : bytes) (password : option bytes) (rich_rewrites basic : bool) (notify_address : option bytes).

(** ** Flattening *)

Definition push (output : list bytes) (value : bytes) : list bytes := output ++ [value].
Definition pair (output : list bytes) (name value : bytes) : list bytes := push (push output name) value.
Definition optional_pair (output : list bytes) (name : bytes) (value : option bytes) : list bytes :=
  match value with Some value => pair output name value | None => output end.
Definition flag (output : list bytes) (name : bytes) (enabled : bool) : list bytes := if enabled then push output name else output.

Definition into_arguments (command : Command) (executable : bytes) : list bytes :=
  let output := [executable] in
  match command with
  | Conformance profile version dir =>
      let output := push output (str "conformance") in
      let output := pair output (str "--profile") profile in
      let output := pair output (str "--postgres-version") version in
      pair output (str "--output-dir") dir
  | SoakCommand seed iterations duration schedule capture dir =>
      let output := push output (str "soak") in
      let output := pair output (str "--seed") (to_decimal seed) in
      let output := optional_pair output (str "--iterations") (to_decimal <$> iterations) in
      let output := optional_pair output (str "--duration-seconds") (to_decimal <$> duration) in
      let output := optional_pair output (str "--schedule") schedule in
      let output := flag output (str "--capture-payloads") capture in
      pair output (str "--output-dir") dir
  | Replay input reduce dir =>
      let output := push output (str "replay") in
      let output := pair output (str "--input") input in
      let output := flag output (str "--reduce") reduce in
      pair output (str "--output-dir") dir
  | CatalogueCommand as_of approved inputs dir =>
      let output := push output (str "catalogue") in
      let output := pair output (str "--as-of") as_of in
      let output := flag output (str "--approved") approved in
      let output := foldl (fun output input => pair output (str "--input") input) output inputs in
      pair output (str "--output-dir") dir
  | PerformanceCommand runner enforce stable version mode input profile seed duration baseline dir =>
      let output := push output (str "performance") in
      let output := optional_pair output (str "--runner") runner in
      let output := flag output (str "--enforce") enforce in
      let output := flag output (str "--stable-runner") stable in
      let output := pair output (str "--postgres-version") version in
      let output := pair output (str "--build-mode") mode in
      let output := optional_pair output (str "--input") input in
      let output := optional_pair output (str "--profile") profile in
      let output := optional_pair output (str "--seed") (to_decimal <$> seed) in
      let output := optional_pair output (str "--duration-seconds") (to_decimal <$> duration) in
      let output := optional_pair output (str "--baseline") baseline in
      pair output (str "--output-dir") dir
  | Faults dir => pair (push output (str "faults")) (str "--output-dir") dir
  | MakeReport dir => pair (push output (str "make-report")) (str "--dir") dir
  | Trends dir => pair (push output (str "trends")) (str "--dir") dir
  | SoakDriverChild address sequence pace =>
      let output := push output (str "soak-driver-child") in
      let output := pair output (str "--address") address in
      let output := pair output (str "--sequence") sequence in
      optional_pair output (str "--pace-millis") (to_decimal <$> pace)
  | ResourceDriverChild address => pair (push output (str "resource-driver-child")) (str "--address") address
  | ResourceHoldChild address => pair (push output (str "resource-hold-child")) (str "--address") address
  | IntermediaryChild address connections abrupt rich password root =>
      let output := push output (str "intermediary-child") in
      let output := pair output (str "--address") address in
      let output := pair output (str "--connections") (to_decimal connections) in
      let output := flag output (str "--allow-abrupt-disconnects") abrupt in
      let output := flag output (str "--rich-rewrites") rich in
      let output := optional_pair output (str "--password") password in
      optional_pair output (str "--tls-root") root
  | DriverChild address password rich basic notify =>
      let output := push output (str "driver-child") in
      let output := pair output (str "--address") address in
      let output := optional_pair output (str "--password") password in
      let output := flag output (str "--rich-rewrites") rich in
      let output := flag output (str "--basic") basic in
      optional_pair output (str "--notify-address") notify
  end.

(** What clap parsed; the command line's own errors are clap's. *)
Record CliArgs : Type := mkCli {
  run_all : bool; soak_duration_seconds : option Z; run_all_output_dir : option bytes; command : option Command
}.
Definition cli_parse (executable : bytes) (cli : CliArgs) : result (list bytes) bytes :=
  match run_all cli, command cli with
  | true, None =>
      match soak_duration_seconds cli, run_all_output_dir cli with
      | Some duration, Some dir =>
          Ok [executable; str "run-all"; str "--soak-duration-seconds"; to_decimal duration; str "--output-dir"; dir]
      | _, _ => Err (str "--run-all requires --soak-duration-seconds and --output-dir")
      end
  | false, Some command => Ok (into_arguments command executable)
  | true, Some _ => Err (str "--run-all cannot be combined with a subcommand")
  | false, None => Err (str "a subcommand or --run-all is required; use --help")
  end.

(** [arguments.iter().any(|argument| argument == name)] *)
Definition has_flag (arguments : list bytes) (name : bytes) : bool := bool_decide (name ∈ arguments).

(** ** Delegation of performance runs *)

(** The first value after [--build-mode] in the arguments as typed. *)
Fixpoint window_value (name : bytes) (arguments : list bytes) : option bytes :=
  match arguments with
  | a :: ((v :: _) as rest) => if bool_decide (a = name) then Some v else window_value name rest
  | _ => None
  end.
Definition delegate_profile (arguments : list bytes) : result bytes bytes :=
  let build_mode := default (str "optimized") (window_value (str "--build-mode") arguments) in
  if bool_decide (build_mode = str "optimized") then Ok (str "burn-in")
  else if bool_decide (build_mode = str "allocator-diagnostic") then Ok (str "burn-in-diagnostic")
  else Err (str "unsupported performance build mode: " ++ build_mode).

(** ** Running everything *)

(** [root.join(child)] on a UTF-8 path; the children are relative. *)
Definition path (root child : bytes) : bytes :=
  match last root with
  | None => child
  | Some b => if bool_decide (b = "/"%byte) then root ++ child else root ++ str "/" ++ child
  end.

Definition SMOKE_VERSIONS : list bytes := map str ["14"; "15"; "16"; "17"; "18"]%string.
Definition PROFILES : list bytes := map str ["authentication"; "replication"; "rewrites"; "scripted"]%string.
Definition PERFORMANCE_PROFILES : list bytes := map str ["controlled"; "scheduled-soak"; "overnight"; "diagnostic"]%string.

(** The commands [run] starts, in order; the date is the day it reaches the audit. *)
Definition run_all_commands (output_dir soak_duration as_of : bytes) : list (list bytes) :=
  map (fun v => [str "conformance"; str "--profile"; str "smoke"; str "--postgres-version"; v; str "--output-dir"; path output_dir (str "smoke-pg" ++ v)]) SMOKE_VERSIONS ++
  map (fun p => [str "conformance"; str "--profile"; p; str "--output-dir"; path output_dir p]) PROFILES ++
  [[str "faults"; str "--output-dir"; path output_dir (str "faults")]] ++
  map (fun p => [str "performance"; str "--profile"; p; str "--seed"; str "8675309"; str "--duration-seconds"; soak_duration; str "--output-dir";
                 path output_dir (str "performance-" ++ p)]) PERFORMANCE_PROFILES ++
  [[str "soak"; str "--seed"; str "8675309"; str "--duration-seconds"; soak_duration; str "--output-dir"; path output_dir (str "soak")];
   [str "catalogue"; str "--approved"; str "--as-of"; as_of; str "--output-dir"; path output_dir (str "catalogue")];
   [str "make-report"; str "--dir"; output_dir]].

(** The parameters [run] requires before the first command. *)
Definition run_all_arguments (invalid : bytes) (arguments : list bytes) : result (bytes * bytes) bytes :=
  match arguments with
  | [] => Err (str "missing executable path")
  | _ =>
      let? output_dir := option_ arguments (str "--output-dir") in
      let? soak_duration := option_ arguments (str "--soak-duration-seconds") in
      let? n := parse_u64 invalid soak_duration in
      if n =? 0 then Err (str "--soak-duration-seconds must be positive") else Ok (output_dir, soak_duration)
  end.

(** [run]: every command in order until one fails; the system runs a command. *)
Section RunAll.
Context {W : Type} (run_command : list bytes -> W -> bool * W).
Fixpoint run_commands (commands : list (list bytes)) (w : W) : result unit bytes * W :=
  match commands with
  | [] => (Ok tt, w)
  | arguments :: commands =>
      let (success, w) := run_command arguments w in
      if success then run_commands commands w
      else (Err (str "burn-in command failed: pg-proto-burn-in " ++ join (str " ") arguments), w)
  end.
End RunAll.

(** ** The report *)

Definition RUN_DIRECTORIES : list bytes := map str
  ["smoke-pg14"; "smoke-pg15"; "smoke-pg16"; "smoke-pg17"; "smoke-pg18"; "authentication"; "replication"; "rewrites"; "scripted"; "faults";
   "performance-controlled"; "performance-scheduled-soak"; "performance-overnight"; "performance-diagnostic"; "soak"; "catalogue"]%string.

Fixpoint insert_name (x : bytes) (l : list bytes) : list bytes :=
  match l with
  | [] => [x]
  | y :: l' => match bytes_cmp x y with Gt => y :: insert_name x l' | _ => x :: l end
  end.
Definition sort_names (l : list bytes) : list bytes := foldr insert_name [] l.

Definition artifact_line (run_name artifact : bytes) : bytes :=
  str "- [" ++ artifact ++ str "](" ++ run_name ++ str "/" ++ artifact ++ str ")" ++ [x0a].

(** The section of a run; [files] lists the regular files of its directory, if it is one. *)
Definition report_section (files : bytes -> option (list bytes)) (run_name : bytes) : bytes :=
  str "## `" ++ run_name ++ str "`" ++ [x0a; x0a] ++
  match files run_name with
  | None => str "Not run." ++ [x0a; x0a]
  | Some artifacts =>
      match sort_names artifacts with
      | [] => str "No artifacts found." ++ [x0a; x0a]
      | sorted => (sorted ≫= artifact_line run_name) ++ [x0a]
      end
  end.
Definition report (files : bytes -> option (list bytes)) : bytes :=
  str "# pg-proto burn-in report" ++ [x0a; x0a] ++ (RUN_DIRECTORIES ≫= report_section files).
