(* ===== verification/CliSpec.v ===== *)
(** What the flattened command line guarantees: values that do not look like options
    are read back exactly, a soak's budget and seed survive the round trip, running
    everything fills the directories of the report, and the report links every file. *)

From Stdlib Require Import ZArith Lia String Sorted.
From Stdlib Require Import Init.Byte.
From stdpp Require Import prelude.
From S2P Require Import Prelude OrdMap Scram Text Civil SoakSchedule Soak Cli.

Local Open Scope Z_scope.
Local Open Scope list_scope.

(** ** Decimal numbers *)

Lemma decimal_digits_digits fuel : forall n, 0 <= n -> forallb is_ascii_digit (decimal_digits fuel n) = true.
Proof.
  induction fuel as [|fuel IH]; intros n Hn; simpl; [done|]. destruct (Z.ltb_spec n 10); simpl.
  - rewrite digit_is_digit by lia. done.
  - pose proof (Z.mod_pos_bound n 10 ltac:(lia)). rewrite forallb_app, IH by (apply Z.div_pos; lia). simpl. now rewrite digit_is_digit.
Qed.

Lemma parse_digits_snoc max acc s d : 0 <= d < 10 ->
  parse_digits max acc (s ++ [digit d]) =
  match parse_digits max acc s with Some a => if 10 * a + d <=? max then Some (10 * a + d) else None | None => None end.
Proof.
  intros Hd. revert acc. induction s as [|b s IH]; intros acc; simpl.
  - rewrite digit_is_digit, digit_value_digit by done. done.
  - destruct (is_ascii_digit b); [|done]. destruct (_ <=? max); [apply IH|done].
Qed.

Lemma parse_decimal_digits max fuel : forall n, 0 <= n <= max -> n < 2 ^ Z.of_nat fuel -> parse_digits max 0 (decimal_digits fuel n) = Some n.
Proof.
  induction fuel as [|fuel IH]; intros n Hn Hf; [simpl in Hf; assert (n = 0) as -> by lia; done|].
  cbn [decimal_digits]. destruct (Z.ltb_spec n 10).
  - pose proof (parse_digits_snoc max 0 [] n ltac:(lia)) as Hp. cbn [app] in Hp. rewrite Hp. cbn [parse_digits].
    rewrite Z.mul_0_r, Z.add_0_l. destruct (Z.leb_spec n max); [done|lia].
  - pose proof (Z.mod_pos_bound n 10 ltac:(lia)). pose proof (Z.div_mod n 10 ltac:(lia)) as Hdm.
    rewrite Nat2Z.inj_succ, Z.pow_succ_r in Hf by lia.
    rewrite parse_digits_snoc, IH by lia. rewrite <- Hdm. destruct (Z.leb_spec n max); [done|lia].
Qed.

Lemma decimal_digits_nonempty fuel n : exists b s, decimal_digits (S fuel) n = b :: s.
Proof. simpl. destruct (n <? 10); [eauto|]. destruct (decimal_digits fuel (n / 10)); simpl; eauto. Qed.

Lemma parse_to_decimal max n : 0 <= n <= max -> parse_unsigned max (to_decimal n) = Some n.
Proof.
  intros Hn. unfold to_decimal. set (fuel := S (Z.to_nat (Z.log2 n))).
  assert (n < 2 ^ Z.of_nat fuel) as Hf.
  { unfold fuel. rewrite Nat2Z.inj_succ, Z2Nat.id by apply Z.log2_nonneg. destruct (Z.eq_dec n 0) as [->|]; [done|]. apply Z.log2_spec. lia. }
  pose proof (parse_decimal_digits max fuel n Hn Hf) as Hp. pose proof (decimal_digits_digits fuel n ltac:(lia)) as Hd.
  destruct (decimal_digits_nonempty (Z.to_nat (Z.log2 n)) n) as (b & s & E). fold fuel in E. rewrite E in *. unfold parse_unsigned.
  destruct (decide (b = "+"%byte)) as [->|]; [simpl in Hd; discriminate|exact Hp].
Qed.

(** ** Reading back *)

(** A value clap takes as it stands: it does not look like an option. *)
Definition plain (value : bytes) : bool := negb (starts_with (str "--") value).

Lemma plain_digits s : forallb is_ascii_digit s = true -> plain s = true.
Proof.
  unfold plain. destruct s as [|b s]; [done|]. simpl. intros H. apply andb_true_iff in H as [Hb _].
  case_bool_decide as E; [subst b; discriminate|done].
Qed.
Lemma plain_decimal n : 0 <= n -> plain (to_decimal n) = true.
Proof. intros Hn. now apply plain_digits, decimal_digits_digits. Qed.

(** What a command line says: named values and flags. *)
Inductive Item : Type := Named (name value : bytes) | Present (name : bytes).
Definition item_name (i : Item) : bytes := match i with Named name _ | Present name => name end.
Definition item_arguments (i : Item) : list bytes := match i with Named name value => [name; value] | Present name => [name] end.
Definition item_ok (i : Item) : bool :=
  starts_with (str "--") (item_name i) && match i with Named _ value => plain value | Present _ => true end.

Definition named (name : bytes) (value : option bytes) : list Item := match value with Some value => [Named name value] | None => [] end.
Definition present (name : bytes) (enabled : bool) : list Item := if enabled then [Present name] else [].

Definition command_name (c : Command) : bytes :=
  match c with
  | Conformance _ _ _ => str "conformance" | SoakCommand _ _ _ _ _ _ => str "soak" | Replay _ _ _ => str "replay"
  | CatalogueCommand _ _ _ _ => str "catalogue" | PerformanceCommand _ _ _ _ _ _ _ _ _ _ _ => str "performance" | Faults _ => str "faults"
  | MakeReport _ => str "make-report" | Trends _ => str "trends" | SoakDriverChild _ _ _ => str "soak-driver-child"
  | ResourceDriverChild _ => str "resource-driver-child" | ResourceHoldChild _ => str "resource-hold-child"
  | IntermediaryChild _ _ _ _ _ _ => str "intermediary-child" | DriverChild _ _ _ _ _ => str "driver-child"
  end.
Definition command_items (c : Command) : list Item :=
  match c with
  | Conformance profile version dir => [Named (str "--profile") profile; Named (str "--postgres-version") version; Named (str "--output-dir") dir]
  | SoakCommand seed iterations duration schedule capture dir =>
      [Named (str "--seed") (to_decimal seed)] ++ named (str "--iterations") (to_decimal <$> iterations) ++
      named (str "--duration-seconds") (to_decimal <$> duration) ++ named (str "--schedule") schedule ++
      present (str "--capture-payloads") capture ++ [Named (str "--output-dir") dir]
  | Replay input reduce dir => [Named (str "--input") input] ++ present (str "--reduce") reduce ++ [Named (str "--output-dir") dir]
  | CatalogueCommand as_of approved inputs dir =>
      [Named (str "--as-of") as_of] ++ present (str "--approved") approved ++ map (Named (str "--input")) inputs ++ [Named (str "--output-dir") dir]
  | PerformanceCommand runner enforce stable version mode input profile seed duration baseline dir =>
      named (str "--runner") runner ++ present (str "--enforce") enforce ++ present (str "--stable-runner") stable ++
      [Named (str "--postgres-version") version; Named (str "--build-mode") mode] ++ named (str "--input") input ++
      named (str "--profile") profile ++ named (str "--seed") (to_decimal <$> seed) ++ named (str "--duration-seconds") (to_decimal <$> duration) ++
      named (str "--baseline") baseline ++ [Named (str "--output-dir") dir]
  | Faults dir => [Named (str "--output-dir") dir]
  | MakeReport dir | Trends dir => [Named (str "--dir") dir]
  | SoakDriverChild address sequence pace =>
      [Named (str "--address") address; Named (str "--sequence") sequence] ++ named (str "--pace-millis") (to_decimal <$> pace)
  | ResourceDriverChild address | ResourceHoldChild address => [Named (str "--address") address]
  | IntermediaryChild address connections abrupt rich password root =>
      [Named (str "--address") address; Named (str "--connections") (to_decimal connections)] ++
      present (str "--allow-abrupt-disconnects") abrupt ++ present (str "--rich-rewrites") rich ++ named (str "--password") password ++
      named (str "--tls-root") root
  | DriverChild address password rich basic notify =>
      [Named (str "--address") address] ++ named (str "--password") password ++ present (str "--rich-rewrites") rich ++
      present (str "--basic") basic ++ named (str "--notify-address") notify
  end.

Lemma optional_pair_items output name value : optional_pair output name value = output ++ (named name value ≫= item_arguments).
Proof. destruct value; simpl; [|now rewrite app_nil_r]. unfold pair, push. now rewrite <- app_assoc. Qed.
Lemma flag_items output name enabled : flag output name enabled = output ++ (present name enabled ≫= item_arguments).
Proof. destruct enabled; simpl; [done|now rewrite app_nil_r]. Qed.
Lemma pair_items output name value : pair output name value = output ++ ([Named name value] ≫= item_arguments).
Proof. unfold pair, push. now rewrite <- app_assoc. Qed.
Lemma inputs_items inputs : forall output,
  foldl (fun output input => pair output (str "--input") input) output inputs = output ++ (map (Named (str "--input")) inputs ≫= item_arguments).
Proof.
  induction inputs as [|i inputs IH]; intros output; [simpl; now rewrite app_nil_r|]. cbn [foldl map]. rewrite IH, bind_cons, pair_items, <- app_assoc. done.
Qed.

Lemma into_arguments_items c executable : into_arguments c executable = executable :: command_name c :: (command_items c ≫= item_arguments).
Proof.
  change (executable :: command_name c :: (command_items c ≫= item_arguments)) with ([executable] ++ [command_name c] ++ (command_items c ≫= item_arguments)).
  destruct c; cbn [into_arguments command_name command_items]; unfold push at 1;
    rewrite ?optional_pair_items, ?flag_items, ?inputs_items, ?pair_items, ?optional_pair_items, ?flag_items, ?inputs_items, ?pair_items;
    rewrite ?bind_app, <- ?app_assoc; simpl; rewrite ?bind_app, <- ?app_assoc; reflexivity.
Qed.

(** The first item with a name. *)
Fixpoint find_item (name : bytes) (items : list Item) : option Item :=
  match items with
  | [] => None
  | i :: items => if bool_decide (item_name i = name) then Some i else find_item name items
  end.

Lemma find_item_named name items i : find_item name items = Some i -> item_name i = name.
Proof. induction items as [|j items IH]; simpl; [done|]. case_bool_decide; [congruence|done]. Qed.

(** What reading an option sees: everything from its first occurrence on. *)
Fixpoint suffix_from (name : bytes) (arguments : list bytes) : list bytes :=
  match arguments with
  | [] => []
  | a :: rest => if bool_decide (a = name) then arguments else suffix_from name rest
  end.

Lemma option_suffix arguments name : option_ arguments name =
  match suffix_from name arguments with [] => Err (str "missing " ++ name) | [_] => Err (str "missing value for " ++ name) | _ :: v :: _ => Ok v end.
Proof.
  unfold option_. induction arguments as [|a arguments IH]; [done|]. cbn [position suffix_from]. case_bool_decide; [now destruct arguments|].
  rewrite <- IH. destruct (position name arguments); done.
Qed.
Lemma optional_option_suffix arguments name : optional_option arguments name = match suffix_from name arguments with _ :: v :: _ => Some v | _ => None end.
Proof.
  unfold optional_option. induction arguments as [|a arguments IH]; [done|]. cbn [position suffix_from]. case_bool_decide; [now destruct arguments|].
  rewrite <- IH. destruct (position name arguments); done.
Qed.
Lemma has_flag_suffix arguments name : has_flag arguments name = match suffix_from name arguments with [] => false | _ => true end.
Proof.
  unfold has_flag. induction arguments as [|a arguments IH]; [done|]. cbn [suffix_from].
  destruct (decide (a = name)) as [->|E1]; [rewrite (bool_decide_true (name = name)), bool_decide_true by (reflexivity || left); done|].
  rewrite (bool_decide_false (a = name)) by done.
  rewrite <- IH. apply bool_decide_ext. rewrite elem_of_cons. intuition congruence.
Qed.

Lemma plain_not_name name value : starts_with (str "--") name = true -> plain value = true -> value <> name.
Proof. unfold plain. intros H1 H2 ->. now rewrite H1 in H2. Qed.

(** Plain values never hide a name. *)
Lemma suffix_from_items name items : starts_with (str "--") name = true -> forallb item_ok items = true ->
  (find_item name items = None -> suffix_from name (items ≫= item_arguments) = []) /\
  forall i, find_item name items = Some i -> exists rest, suffix_from name (items ≫= item_arguments) = item_arguments i ++ rest.
Proof.
  intros Hn. induction items as [|i items IH]; intros Hok; [done|]. cbn [forallb] in Hok. apply andb_true_iff in Hok as [Hi Hok].
  specialize (IH Hok) as [IH1 IH2]. rewrite bind_cons. cbn [find_item]. unfold item_ok in Hi. apply andb_true_iff in Hi as [_ Hi].
  destruct i as [n v|n]; cbn [item_name item_arguments app suffix_from] in *.
  - case_bool_decide as E; [split; [done|]; intros ? [= <-]; cbn [item_arguments app]; eauto|].
    rewrite bool_decide_false by now apply plain_not_name. done.
  - case_bool_decide as E; [split; [done|]; intros ? [= <-]; cbn [item_arguments app]; eauto|]. done.
Qed.

Lemma command_name_plain c : plain (command_name c) = true.
Proof. now destruct c. Qed.

(** The values a command carries are read as they stand. *)
Definition plain_command (c : Command) : bool := forallb item_ok (command_items c).

(** Every named value of a command is read back from the flattened command line by
    [option], every flag is found exactly when it was given, and an option that was not
    given is missing, as long as no value looks like an option. *)
Theorem command_line_read_back c executable name :
  plain executable = true -> plain_command c = true -> starts_with (str "--") name = true ->
  let arguments := into_arguments c executable in
  match find_item name (command_items c) with
  | Some (Named _ value) => option_ arguments name = Ok value /\ optional_option arguments name = Some value
  | Some (Present _) => has_flag arguments name = true
  | None => option_ arguments name = Err (str "missing " ++ name) /\ optional_option arguments name = None /\ has_flag arguments name = false
  end.
Proof.
  intros He Hc Hn arguments. unfold arguments. rewrite option_suffix, optional_option_suffix, has_flag_suffix, into_arguments_items. cbn [suffix_from].
  rewrite !bool_decide_false by (apply plain_not_name; auto using command_name_plain).
  destruct (suffix_from_items name (command_items c) Hn Hc) as [H1 H2]. destruct (find_item name (command_items c)) as [i|].
  - destruct (H2 i eq_refl) as [rest ->]. destruct i; done.
  - now rewrite H1 by done.
Qed.

Lemma command_line_read_back_witness :
  option_ (into_arguments (PerformanceCommand (Some (str "lab-1")) true true (str "18") (str "optimized") None (Some (str "controlled")) (Some 7) (Some 60) None (str "out"))
             (str "pg-proto-burn-in")) (str "--duration-seconds") = Ok (str "60").
Proof.
  refine (proj1 (command_line_read_back
    (PerformanceCommand (Some (str "lab-1")) true true (str "18") (str "optimized") None (Some (str "controlled")) (Some 7) (Some 60) None (str "out"))
    (str "pg-proto-burn-in") (str "--duration-seconds") _ _ _)); vm_compute; reflexivity.
Defined.

(** ** A soak's arguments *)

(** A budget as clap admits it: exactly one of the two. *)
Definition budget_iterations (b : Budget) : option Z := match b with Iterations n => Some n | DurationSeconds _ => None end.
Definition budget_seconds (b : Budget) : option Z := match b with Iterations _ => None | DurationSeconds n => Some n end.
Definition budget_amount (b : Budget) : Z := match b with Iterations n | DurationSeconds n => n end.
Definition soak_command (seed : Z) (b : Budget) (schedule : option bytes) (capture : bool) (dir : bytes) : Command :=
  SoakCommand seed (budget_iterations b) (budget_seconds b) schedule capture dir.

Lemma soak_items_ok seed b schedule capture dir :
  0 <= seed -> 0 <= budget_amount b -> match schedule with Some path => plain path | None => true end = true -> plain dir = true ->
  plain_command (soak_command seed b schedule capture dir) = true.
Proof.
  intros Hs Hb Hp Hd. unfold plain_command, soak_command. cbn [command_items]. rewrite !forallb_app.
  destruct b as [n|n], schedule as [path|], capture; cbn [budget_iterations budget_seconds budget_amount fmap option_fmap option_map named present forallb] in *;
    unfold item_ok; rewrite ?plain_decimal, ?Hp, ?Hd by done; reflexivity.
Qed.

(** Where the options of a soak are, whatever their values. *)
Definition soak_items (seed : bytes) (iterations duration schedule : option bytes) (capture : bool) (dir : bytes) : list Item :=
  [Named (str "--seed") seed] ++ named (str "--iterations") iterations ++ named (str "--duration-seconds") duration ++
  named (str "--schedule") schedule ++ present (str "--capture-payloads") capture ++ [Named (str "--output-dir") dir].

Lemma soak_items_found seed iterations duration schedule capture dir (items := soak_items seed iterations duration schedule capture dir) :
  find_item (str "--seed") items = Some (Named (str "--seed") seed) /\
  find_item (str "--iterations") items = Named (str "--iterations") <$> iterations /\
  find_item (str "--duration-seconds") items = Named (str "--duration-seconds") <$> duration /\
  find_item (str "--schedule") items = Named (str "--schedule") <$> schedule /\
  find_item (str "--capture-payloads") items = (if capture then Some (Present (str "--capture-payloads")) else None) /\
  find_item (str "--output-dir") items = Some (Named (str "--output-dir") dir).
Proof. destruct iterations, duration, schedule, capture; repeat split; reflexivity. Qed.

(** A soak started from a parsed command line reads back its seed, its one budget, its
    output directory, the schedule it is given and whether payloads are captured. *)
Theorem soak_command_roundtrip invalid executable seed b schedule capture dir
  (arguments := into_arguments (soak_command seed b schedule capture dir) executable) :
  0 <= seed <= U64_MAX -> 0 <= budget_amount b <= U64_MAX -> plain executable = true -> plain dir = true ->
  match schedule with Some path => plain path | None => true end = true ->
  (let? v := option_ arguments (str "--seed") in parse_u64 invalid v) = Ok seed /\
  parse_budget invalid arguments = Ok b /\
  option_ arguments (str "--output-dir") = Ok dir /\
  optional_option arguments (str "--schedule") = schedule /\
  has_flag arguments (str "--capture-payloads") = capture.
Proof.
  intros Hs Hb He Hd Hp.
  pose proof (soak_items_ok seed b schedule capture dir ltac:(lia) ltac:(lia) Hp Hd) as Hc.
  destruct (soak_items_found (to_decimal seed) (to_decimal <$> budget_iterations b) (to_decimal <$> budget_seconds b) schedule capture dir)
    as (F1 & F2 & F3 & F4 & F5 & F6).
  assert (forall name, starts_with (str "--") name = true -> _) as R by (intros name Hn; exact (command_line_read_back _ executable name He Hc Hn)).
  cbn zeta in R. fold arguments in R.
  change (command_items (soak_command seed b schedule capture dir)) with
    (soak_items (to_decimal seed) (to_decimal <$> budget_iterations b) (to_decimal <$> budget_seconds b) schedule capture dir) in R.
  pose proof (R (str "--seed") eq_refl) as R1. pose proof (R (str "--iterations") eq_refl) as R2. pose proof (R (str "--duration-seconds") eq_refl) as R3.
  pose proof (R (str "--schedule") eq_refl) as R4. pose proof (R (str "--capture-payloads") eq_refl) as R5. pose proof (R (str "--output-dir") eq_refl) as R6.
  clear R. rewrite F1 in R1. rewrite F2 in R2. rewrite F3 in R3. rewrite F4 in R4. rewrite F5 in R5. rewrite F6 in R6. clear F1 F2 F3 F4 F5 F6.
  destruct R1 as [-> _], R6 as [-> _]. unfold parse_budget, parse_u64. rewrite parse_to_decimal by done.
  split; [done|]. split; [|split; [done|]; split; [destruct schedule; [apply R4|apply (proj2 R4)]|destruct capture; [exact R5|apply (proj2 R5)]]].
  destruct b as [n|n]; cbn [budget_iterations budget_seconds budget_amount fmap option_fmap option_map] in *; destruct R2 as [-> _], R3 as [-> _];
    rewrite parse_to_decimal by done; reflexivity.
Qed.

Lemma soak_command_roundtrip_witness :
  parse_budget [] (into_arguments (soak_command 8675309 (DurationSeconds 3600) (Some (str "s.json")) true (str "out")) (str "burn-in")) = Ok (DurationSeconds 3600).
Proof.
  refine (proj1 (proj2 (soak_command_roundtrip [] (str "burn-in") 8675309 (DurationSeconds 3600) (Some (str "s.json")) true (str "out") _ _ _ _ _)));
    try reflexivity; cbn; unfold U64_MAX; lia.
Defined.

(** ** Running everything *)

Lemma run_commands_prefix {W} (run_command : list bytes -> W -> bool * W) commands : forall w,
  (forall c w, c ∈ commands -> (run_command c w).1 = true) ->
  run_commands run_command commands w = (Ok tt, foldl (fun w c => (run_command c w).2) w commands).
Proof.
  induction commands as [|c commands IH]; intros w H; [done|]. cbn [run_commands foldl]. pose proof (H c w ltac:(left)) as Hc.
  destruct (run_command c w) as [ok w']; cbn [fst snd] in *. subst ok. apply IH. intros d v Hd. apply H. now right.
Qed.
Lemma run_commands_stops {W} (run_command : list bytes -> W -> bool * W) pre c post : forall w,
  (forall c w, c ∈ pre -> (run_command c w).1 = true) -> (forall w, (run_command c w).1 = false) ->
  run_commands run_command (pre ++ c :: post) w =
    (Err (str "burn-in command failed: pg-proto-burn-in " ++ join (str " ") c),
     (run_command c (foldl (fun w c => (run_command c w).2) w pre)).2).
Proof.
  induction pre as [|d pre IH]; intros w H Hc; cbn [app run_commands foldl].
  - specialize (Hc w). destruct (run_command c w) as [ok w']; cbn [fst snd] in *. now subst ok.
  - pose proof (H d w ltac:(left)) as Hd. destruct (run_command d w) as [ok w']; cbn [fst snd] in *. subst ok. apply IH; [|done].
    intros e v He. apply H. now right.
Qed.

(** The directory a command of the run writes to. *)
Definition output_directory (arguments : list bytes) : option bytes := optional_option arguments (str "--output-dir").

Lemma output_directory_last pre dir : Forall (.≠ str "--output-dir") pre -> output_directory (pre ++ [str "--output-dir"; dir]) = Some dir.
Proof.
  unfold output_directory. rewrite optional_option_suffix. induction 1 as [|a pre Ha _ IH]; cbn [app suffix_from].
  - now rewrite bool_decide_true by done.
  - rewrite bool_decide_false by done. exact IH.
Qed.
Lemma omap_map_some {A B C} (g : B -> option C) (f : A -> B) (h : A -> C) l : (forall x, x ∈ l -> g (f x) = Some (h x)) -> omap g (map f l) = map h l.
Proof. induction l as [|x l IH]; intros H; cbn; [done|]. rewrite (H x) by left. f_equal. apply IH. intros y Hy. apply H. now right. Qed.

(** An argument that is not the name of the output option. *)
Definition other_argument (a : bytes) : bool := bool_decide (a <> str "--output-dir").
Lemma output_directory_of pre dir : forallb other_argument pre = true -> output_directory (pre ++ [str "--output-dir"; dir]) = Some dir.
Proof.
  intros H. apply output_directory_last, Forall_forall. intros a Ha. rewrite forallb_forall in H.
  apply (bool_decide_eq_true_1 _), H. now apply list_elem_of_In.
Qed.
Lemma other_plain a : plain a = true -> other_argument a = true.
Proof. intros H. apply bool_decide_eq_true_2. now apply plain_not_name. Qed.

Lemma run_all_directories_exact dir duration as_of : plain duration = true -> plain as_of = true ->
  omap output_directory (run_all_commands dir duration as_of) = map (path dir) RUN_DIRECTORIES.
Proof.
  intros Hd%other_plain Ha%other_plain.
  change RUN_DIRECTORIES with (map (app (str "smoke-pg")) SMOKE_VERSIONS ++ PROFILES ++ [str "faults"] ++
    map (app (str "performance-")) PERFORMANCE_PROFILES ++ [str "soak"; str "catalogue"]).
  unfold run_all_commands. rewrite !omap_app, !map_app, !map_map. apply f_equal2; [|apply f_equal2; [|apply f_equal2; [|apply f_equal2]]].
  - apply omap_map_some. intros v Hv. apply (output_directory_of [_; _; _; _; v]). cbn [forallb].
    rewrite (other_plain v) by (revert v Hv; apply Forall_forall; repeat constructor). reflexivity.
  - apply omap_map_some. intros v Hv. apply (output_directory_of [_; _; v]). cbn [forallb].
    rewrite (other_plain v) by (revert v Hv; apply Forall_forall; repeat constructor). reflexivity.
  - cbn [omap list_omap map]. pose proof (output_directory_of [str "faults"] (path dir (str "faults")) eq_refl) as E. cbn [app] in E. now rewrite E.
  - apply omap_map_some. intros v Hv. apply (output_directory_of [_; _; v; _; _; _; duration]). cbn [forallb].
    rewrite (other_plain v) by (revert v Hv; apply Forall_forall; repeat constructor). rewrite Hd. reflexivity.
  - cbn [omap list_omap map].
    assert (forallb other_argument [str "soak"; str "--seed"; str "8675309"; str "--duration-seconds"; duration] = true) as Es by (cbn [forallb]; now rewrite Hd).
    assert (forallb other_argument [str "catalogue"; str "--approved"; str "--as-of"; as_of] = true) as Ec by (cbn [forallb]; now rewrite Ha).
    apply output_directory_of with (dir := path dir (str "soak")) in Es. apply output_directory_of with (dir := path dir (str "catalogue")) in Ec.
    cbn [app] in Es, Ec. rewrite Es, Ec.
    assert (output_directory [str "make-report"; str "--dir"; dir] = None) as ->; [|reflexivity].
    unfold output_directory. rewrite optional_option_suffix. cbn [suffix_from].
    rewrite (bool_decide_false (str "make-report" = _)), (bool_decide_false (str "--dir" = _)) by discriminate. now case_bool_decide.
Qed.

(** Reading the parameters of a full run that the command line produced. *)
Lemma run_all_parameters invalid executable duration dir : 0 < duration <= U64_MAX -> plain executable = true -> plain dir = true ->
  exists arguments, cli_parse executable (mkCli true (Some duration) (Some dir) None) = Ok arguments /\
    run_all_arguments invalid arguments = Ok (dir, to_decimal duration).
Proof.
  intros Hn He Hd. eexists. split; [reflexivity|]. unfold run_all_arguments. rewrite !option_suffix. cbn [suffix_from].
  rewrite !(bool_decide_false (executable = _)) by (apply plain_not_name; [reflexivity|done]).
  rewrite !(bool_decide_false (to_decimal duration = _)) by (apply plain_not_name; [reflexivity|apply plain_decimal; lia]).
  pose proof (parse_to_decimal U64_MAX duration ltac:(lia)) as Hp. revert Hp. generalize (to_decimal duration) as text. intros text Hp.
  assert (parse_u64 invalid text = Ok duration) as Hu by (unfold parse_u64; now rewrite Hp). clear Hp.
  rewrite (bool_decide_false (str "run-all" = str "--output-dir")), (bool_decide_false (str "run-all" = str "--soak-duration-seconds")),
    (bool_decide_false (str "--soak-duration-seconds" = str "--output-dir")), !bool_decide_true by (reflexivity || discriminate).
  cbn [bind]. rewrite Hu. destruct (Z.eqb_spec duration 0); [lia|reflexivity].
Qed.

(** A full run accepted on the command line starts its commands in order, stops at the
    first that fails, and writes exactly the directories the report reads, each once. *)
Theorem run_all_fills_report {W} (run_command : list bytes -> W -> bool * W) invalid executable duration dir as_of w :
  0 < duration <= U64_MAX -> plain executable = true -> plain dir = true -> plain as_of = true ->
  (forall arguments w, (run_command arguments w).1 = true) ->
  exists arguments soak_duration,
    cli_parse executable (mkCli true (Some duration) (Some dir) None) = Ok arguments /\
    run_all_arguments invalid arguments = Ok (dir, soak_duration) /\
    omap output_directory (run_all_commands dir soak_duration as_of) = map (path dir) RUN_DIRECTORIES /\
    NoDup RUN_DIRECTORIES /\
    last (run_all_commands dir soak_duration as_of) = Some [str "make-report"; str "--dir"; dir] /\
    run_commands run_command (run_all_commands dir soak_duration as_of) w =
      (Ok tt, foldl (fun w c => (run_command c w).2) w (run_all_commands dir soak_duration as_of)).
Proof.
  intros Hn He Hd Ha Hrun. destruct (run_all_parameters invalid executable duration dir Hn He Hd) as (arguments & H1 & H2).
  exists arguments, (to_decimal duration). split; [done|]. split; [done|]. split; [apply run_all_directories_exact; [apply plain_decimal; lia|done]|].
  split; [apply (bool_decide_eq_true_1 _); vm_compute; reflexivity|]. split; [reflexivity|]. apply run_commands_prefix. intros c v _. apply Hrun.
Qed.

Lemma run_all_fills_report_witness :
  exists arguments soak_duration,
    run_all_arguments [] arguments = Ok (str "out", soak_duration) /\
    omap output_directory (run_all_commands (str "out") soak_duration (str "2026-01-01")) = map (path (str "out")) RUN_DIRECTORIES.
Proof.
  destruct (run_all_fills_report (fun _ n => (true, S n)) [] (str "burn-in") 60 (str "out") (str "2026-01-01") 0%nat ltac:(unfold U64_MAX; lia) eq_refl eq_refl
              eq_refl (fun _ _ => eq_refl)) as (a & s & _ & H & H' & _).
  exists a, s. split; assumption.
Defined.

(** ** The report *)

Lemma insert_name_perm x l : insert_name x l ≡ₚ x :: l.
Proof. induction l as [|y l IH]; simpl; [done|]. destruct (bytes_cmp x y); [done|done|]. rewrite IH. constructor. Qed.
Lemma sort_names_perm l : sort_names l ≡ₚ l.
Proof. induction l as [|x l IH]; simpl; [done|]. rewrite insert_name_perm. now constructor. Qed.

(** Byte order with equality. *)
Definition name_le (a b : bytes) : Prop := bytes_cmp a b <> Gt.
Lemma name_le_gt a b : bytes_cmp a b = Gt -> name_le b a.
Proof. intros H. unfold name_le. rewrite bytes_cmp_antisym, H. discriminate. Qed.
Lemma insert_name_sorted x l : Sorted name_le l -> Sorted name_le (insert_name x l).
Proof.
  induction l as [|y l IH]; intros H; simpl; [repeat constructor|]. destruct (bytes_cmp x y) eqn:E; [| |].
  1,2: constructor; [done|]; constructor; unfold name_le; now rewrite E.
  apply Sorted_inv in H as [Hl Hy]. constructor; [now apply IH|]. apply name_le_gt in E. destruct l as [|z l]; simpl; [now constructor|].
  inversion Hy; subst. destruct (bytes_cmp x z); now constructor.
Qed.
Lemma sort_names_sorted l : Sorted name_le (sort_names l).
Proof. induction l as [|x l IH]; simpl; [constructor|now apply insert_name_sorted]. Qed.

(** What a section says: its run is missing or empty, or each of its files is linked
    exactly once, in name order. *)
Definition section_exact (files : bytes -> option (list bytes)) (run section : bytes) : Prop :=
  exists body, section = str "## `" ++ run ++ str "`" ++ [x0a; x0a] ++ body ++ [x0a] /\
    match files run with
    | None => body = str "Not run." ++ [x0a]
    | Some [] => body = str "No artifacts found." ++ [x0a]
    | Some artifacts => exists names, names ≡ₚ artifacts /\ Sorted name_le names /\ body = concat (map (artifact_line run) names)
    end.

Lemma report_section_exact files run : section_exact files run (report_section files run).
Proof.
  unfold section_exact, report_section. destruct (files run) as [[|a l]|].
  - exists (str "No artifacts found." ++ [x0a]). split; reflexivity.
  - pose proof (sort_names_perm (a :: l)) as Hp. pose proof (sort_names_sorted (a :: l)) as Hs.
    destruct (sort_names (a :: l)) as [|b names] eqn:E; [apply Permutation_length in Hp; discriminate|].
    exists (concat (map (artifact_line run) (b :: names))). split; [|eauto]. now rewrite <- flat_map_concat_map.
  - exists (str "Not run." ++ [x0a]). split; reflexivity.
Qed.

(** The report has one section per run directory, in order, and every section is exact. *)
Theorem report_links_exact files :
  exists sections, report files = str "# pg-proto burn-in report" ++ [x0a; x0a] ++ concat sections /\
    Forall2 (section_exact files) RUN_DIRECTORIES sections.
Proof.
  exists (map (report_section files) RUN_DIRECTORIES). split.
  - unfold report. now rewrite <- flat_map_concat_map.
  - generalize RUN_DIRECTORIES as runs. induction runs as [|run runs IH]; constructor; [apply report_section_exact|exact IH].
Qed.

(** ** Two ambiguities *)

(** A value spelt like a flag is read as the flag: a runner named [--enforce], which clap
    takes in the form [--runner=--enforce], turns enforcement on. *)
Lemma flag_shaped_value_enforces executable version mode dir :
  has_flag (into_arguments (PerformanceCommand (Some (str "--enforce")) false false version mode None None None None None dir) executable) (str "--enforce") = true.
Proof. rewrite has_flag_suffix, into_arguments_items. cbn [suffix_from]. case_bool_decide; [done|]. case_bool_decide; [done|]. reflexivity. Qed.

(** The delegate looks for a separate [--build-mode] argument, so with the form
    [--build-mode=allocator-diagnostic], which clap accepts, the optimized profile is
    built; given as two arguments the diagnostic profile is. *)
Lemma delegate_misses_joined_mode executable :
  plain executable = true ->
  delegate_profile [executable; str "performance"; str "--build-mode=allocator-diagnostic"] = Ok (str "burn-in") /\
  delegate_profile [executable; str "performance"; str "--build-mode"; str "allocator-diagnostic"] = Ok (str "burn-in-diagnostic").
Proof.
  intros He. unfold delegate_profile. cbn [window_value].
  rewrite !(bool_decide_false (executable = _)) by (apply plain_not_name; [reflexivity|done]). split; reflexivity.
Qed.
