(* ===== verification/FsmTyped.v ===== *)
(** The typed half of what the protocol compiler generates (pg-proto-fsm/src/lib.rs,
    [expand]): the event alphabet, the message enums of each phase with their checked
    conversions, the connections they project to, and the typestate sessions of both
    roles. They are shown to agree with the runtime machine of [Fsm]. *)

From Stdlib Require Import ZArith Lia String Sorted OrdersEx.
From stdpp Require Import prelude strings.
From S2P Require Import Prelude Frontend Startup Backend PreStartup Fsm Grammar.
Local Open Scope string_scope.

(** ** Names in order *)

(** Rust compares strings by bytes. *)
Definition name_lt (a b : string) : Prop := String_as_OT.lt a b.

(** [entry(name).or_insert(..)] of a [BTreeMap] whose values are its keys. *)
Fixpoint entry_or_insert (x : string) (names : list string) : list string :=
  match names with
  | [] => [x]
  | y :: ys =>
      match String_as_OT.compare x y with
      | Eq => names
      | Lt => x :: names
      | Gt => y :: entry_or_insert x ys
      end
  end.
Definition ordered_names (l : list string) : list string := foldl (fun names x => entry_or_insert x names) [] l.

Lemma name_compare x y : CompSpec eq name_lt x y (String_as_OT.compare x y).
Proof. apply String_as_OT.compare_spec. Qed.

Lemma entry_or_insert_in x names y : y ∈ entry_or_insert x names <-> y = x \/ y ∈ names.
Proof.
  induction names as [|z zs IH]; simpl; [set_solver|]. destruct (name_compare x z) as [->| |]; [set_solver..|].
  rewrite !elem_of_cons, IH. tauto.
Qed.
Lemma entry_or_insert_sorted x names : StronglySorted name_lt names -> StronglySorted name_lt (entry_or_insert x names).
Proof.
  induction 1 as [|z zs Hs IH Hz]; simpl; [repeat constructor|]. destruct (name_compare x z) as [->|Hlt|Hgt]; [now constructor| |].
  - constructor; [now constructor|]. constructor; [done|]. eapply List.Forall_impl; [|exact Hz]. intros w Hw. unfold name_lt in *. now transitivity z.
  - constructor; [done|]. apply List.Forall_forall. intros w Hw%list_elem_of_In%entry_or_insert_in. destruct Hw as [->|Hw]; [done|].
    rewrite List.Forall_forall in Hz. now apply Hz, list_elem_of_In.
Qed.
Lemma ordered_names_exact l : StronglySorted name_lt (ordered_names l) /\ forall x, x ∈ ordered_names l <-> x ∈ l.
Proof.
  unfold ordered_names. enough (forall names, StronglySorted name_lt names ->
    StronglySorted name_lt (foldl (fun names x => entry_or_insert x names) names l) /\
    forall x, x ∈ foldl (fun names x => entry_or_insert x names) names l <-> x ∈ names \/ x ∈ l) as H.
  { destruct (H [] ltac:(constructor)) as [H1 H2]. split; [done|]. intros x. rewrite H2. set_solver. }
  induction l as [|y l IH]; intros names Hs; simpl; [split; [done|set_solver]|].
  destruct (IH (entry_or_insert y names) ltac:(now apply entry_or_insert_sorted)) as [H1 H2]. split; [done|].
  intros x. rewrite H2, entry_or_insert_in, elem_of_cons. tauto.
Qed.

Section Typed.
Context {I E : Type} (p : Protocol I E).

(** ** Markers *)

Definition ALL_EVENTS : list string := ordered_names (map event (flat_map transitions (states p))).
Definition cleanliness_names : list string := ordered_names (omap cleanliness (flat_map transitions (states p))).

(** ** Messages of a phase *)

(** The transitions of one direction that have a projection. *)
Definition directional (st : State I E) (kind : ChoiceKind) : list (Transition I E) :=
  List.filter (fun t => is_some (projection t) &&
    match choice_of st t, kind with Internal, Internal | External, External => true | _, _ => false end) (transitions st).

(** A value of the generated enum: its variant, and the wrapped wire message. *)
Record PhaseMessage (M : Type) : Type := mkPhaseMessage { message_event : string; into_wire : M }.
#[global] Arguments mkPhaseMessage {M}. #[global] Arguments message_event {M}. #[global] Arguments into_wire {M}.

(** The transport-carrying typestate; its phase and cleanliness are type arguments. *)
Record TypedSession (T : Type) : Type := mkTyped { transport : T; phase : string; index : string }.
#[global] Arguments mkTyped {T}. #[global] Arguments transport {T}. #[global] Arguments phase {T}. #[global] Arguments index {T}.

Section Direction.
Context {M : Type} (kind : ChoiceKind) (project : string -> M -> option string).

(** [TryFrom<Wire>] of a phase's messages. *)
Definition try_from (st : State I E) (message : M) : result (PhaseMessage M) M :=
  match project (name st) message with
  | Some e => if mem e (map event (directional st kind)) then Ok (mkPhaseMessage e message) else Err message
  | None => Err message
  end.

(** [try_map_wire] of a wrapper *)
Definition try_map_wire (st : State I E) (f : M -> M) (m : PhaseMessage M) : result (PhaseMessage M) M :=
  let message := f (into_wire m) in
  if bool_decide (project (name st) message = Some (message_event m)) then Ok (mkPhaseMessage (message_event m) message) else Err message.

(** [project_internal_message] and [project_external_message]: the connection the message
    selects, with the message. *)
Definition project_message {T} (st : State I E) (session : TypedSession T) (m : PhaseMessage M) : result (TypedSession T * PhaseMessage M) Empty_set :=
  match List.find (fun t => bool_decide (event t = message_event m)) (directional st kind) with
  | Some t => Ok (mkTyped (transport session) (target t) (default (index session) (cleanliness t)), m)
  | None => Panic
  end.
End Direction.

(** ** Sessions *)

(** The phase a method of [Session<source>] enters; no such method is a type error. *)
Definition session_method (source m : string) : option string :=
  match List.find (fun s => bool_decide (name s = source)) (states p) with
  | Some st => target <$> List.find (fun t => bool_decide (method t = m)) (transitions st)
  | None => None
  end.
Fixpoint session_methods (source : string) (ms : list string) : option string :=
  match ms with
  | [] => Some source
  | m :: ms => match session_method source m with Some next => session_methods next ms | None => None end
  end.

(** A generated method of a typed session, without and with a payload; the handler works
    on the session's transport. *)
Definition typed_method {T} (t : Transition I E) (session : TypedSession T) : TypedSession T :=
  mkTyped (transport session) (target t) (default (index session) (cleanliness t)).
Definition typed_payload_method {T P O X} (t : Transition I E) (payload : P) (handle : T -> P -> result O X * T) (session : TypedSession T)
    : result (TypedSession T * O) (TypedSession T * X) :=
  match handle (transport session) payload with
  | (Ok output, transport) => Ok (mkTyped transport (target t) (default (index session) (cleanliness t)), output)
  | (Err error, transport) => Err (mkTyped transport (phase session) (index session), error)
  | (Panic, _) => Panic
  end.
Definition with_transport {T} (c : string) (t : T) : TypedSession T := mkTyped t (initial p) c.
Definition map_transport {T U} (f : T -> U) (session : TypedSession T) : TypedSession U := mkTyped (f (transport session)) (phase session) (index session).

(** ** Facts *)

(** The alphabet for exhaustive testing lists exactly the events of the grammar, each once
    and in name order; the same holds for the cleanliness markers. *)
Theorem alphabet_exact :
  StronglySorted name_lt ALL_EVENTS /\ (forall e, e ∈ ALL_EVENTS <-> exists r, r ∈ TRANSITIONS p /\ r_event r = e) /\
  StronglySorted name_lt cleanliness_names /\
  (forall c, c ∈ cleanliness_names <-> exists st t, st ∈ states p /\ t ∈ transitions st /\ cleanliness t = Some c).
Proof.
  unfold ALL_EVENTS, cleanliness_names. destruct (ordered_names_exact (map event (flat_map transitions (states p)))) as [H1 H2].
  destruct (ordered_names_exact (omap cleanliness (flat_map transitions (states p)))) as [H3 H4]. split; [done|]. split; [|split; [done|]].
  - intros e. rewrite H2, list_elem_of_In, in_map_iff. setoid_rewrite in_flat_map. split.
    + intros (t & <- & st & Hst & Ht). exists (describe p st t). split; [|done]. apply TRANSITIONS_in. apply list_elem_of_In in Hst. apply list_elem_of_In in Ht. eauto.
    + intros (r & (st & t & Hst & Ht & ->)%TRANSITIONS_in & <-). exists t. split; [done|]. exists st. now rewrite <- !list_elem_of_In.
  - intros c. rewrite H4, list_elem_of_omap. setoid_rewrite list_elem_of_In. setoid_rewrite in_flat_map. firstorder.
Qed.

(** The declarations the refinement is about. That no two states share a name Rust checks
    of the generated enum, and validation checks the targets and that no two transitions of
    a state share a method. That no two transitions of a state share an event nobody checks:
    the event enum is collected in a map that merges repeated names, so this is a condition
    on the declaration, which the crate's six grammars meet ([crate_grammars_named]). *)
Definition well_named : Prop := NoDup (map name (states p)) /\ deterministic p /\ validate p = Ok tt.

Lemma find_named {A} (key : A -> string) (l : list A) x : NoDup (map key l) -> x ∈ l -> List.find (fun y => bool_decide (key y = key x)) l = Some x.
Proof.
  induction l as [|y l IH]; intros Hn Hx; [now apply elem_of_nil in Hx|]. cbn [map] in Hn. apply NoDup_cons in Hn as [Hy Hn].
  cbn [List.find]. apply elem_of_cons in Hx as [->|Hx]; [now rewrite bool_decide_true by done|].
  rewrite bool_decide_false; [now apply IH|]. intros Heq. apply Hy. rewrite Heq. now apply list_elem_of_fmap_2.
Qed.

Lemma directional_in st kind t : t ∈ directional st kind -> t ∈ transitions st.
Proof. unfold directional. rewrite list_elem_of_In, filter_In, <- list_elem_of_In. tauto. Qed.

Lemma nodup_keys_flat {A} (f : A -> string) (g : A -> list string) (l : list A) a :
  NoDup (flat_map (fun a => map (fun e => (f a, e)) (g a)) l) -> a ∈ l -> NoDup (g a).
Proof.
  induction l as [|b l IH]; intros Hn Ha; [now apply elem_of_nil in Ha|]. cbn [flat_map] in Hn. apply NoDup_app in Hn as (Hb & _ & Hl).
  apply elem_of_cons in Ha as [->|Ha]; [|now apply IH]. now apply (NoDup_fmap_1 (fun e => (f b, e))).
Qed.

Lemma keys_flat : map (fun t => (r_source t, r_event t)) (TRANSITIONS p) =
  flat_map (fun st => map (fun e => (name st, e)) (map event (transitions st))) (states p).
Proof.
  unfold TRANSITIONS. induction (states p) as [|s ss IH]; [done|]. cbn [flat_map]. rewrite map_app, IH, !map_map. reflexivity.
Qed.

Lemma events_distinct st : deterministic p -> st ∈ states p -> NoDup (map event (transitions st)).
Proof.
  unfold deterministic. intros Hd Hst. apply (nodup_keys_flat name (fun st => map event (transitions st)) (states p)); [|exact Hst].
  rewrite <- keys_flat. exact Hd.
Qed.

Lemma NoDup_filter_map {A B} (f : A -> B) (P : A -> bool) l : NoDup (map f l) -> NoDup (map f (List.filter P l)).
Proof.
  induction l as [|x l IH]; intros H; [done|]. cbn [map] in H. apply NoDup_cons in H as [Hx H]. cbn [List.filter]. destruct (P x); [|now apply IH].
  cbn [map]. apply NoDup_cons. split; [|now apply IH]. intros Hin. apply Hx. apply list_elem_of_In in Hin. apply in_map_iff in Hin as (y & Hy & Hin).
  rewrite <- Hy. apply list_elem_of_In, in_map. apply filter_In in Hin. tauto.
Qed.

Section Projection.
Context {M : Type} (kind : ChoiceKind) (project : string -> M -> option string) (st : State I E).
Hypothesis named : well_named.
Hypothesis declared : st ∈ states p.
(** A projected event belongs to a transition of the direction that has a projection. *)
Hypothesis projects : forall m e, project (name st) m = Some e -> exists t, t ∈ directional st kind /\ event t = e.

Lemma directional_found t : t ∈ directional st kind -> List.find (fun u => bool_decide (event u = event t)) (directional st kind) = Some t.
Proof.
  intros Ht. apply find_named; [|done]. apply NoDup_filter_map, events_distinct; [apply named|done].
Qed.

Lemma projected_machine t : t ∈ directional st kind -> fsm_step p (event t) (mkFsm (name st)) = (Ok tt, mkFsm (target t)).
Proof.
  intros Ht%directional_in. unfold fsm_step. cbn [state].
  assert (describe p st t ∈ TRANSITIONS p) as Hr by (apply TRANSITIONS_in; eauto).
  pose proof (transition_unique p _ (proj1 (proj2 named)) Hr) as Hu. cbn [describe r_source r_event] in Hu. now rewrite Hu.
Qed.

Lemma phase_message_refines {T} (session : TypedSession T) m : phase session = name st ->
  match try_from kind project st m with
  | Ok pm => into_wire pm = m /\ exists next,
      project_message kind st session pm = Ok (next, pm) /\ transport next = transport session /\
      step_projected p m project (mkFsm (phase session)) = (Ok (message_event pm), mkFsm (phase next))
  | Err m' => m' = m /\ step_projected p m project (mkFsm (phase session)) = (Err (mkProjectionError (phase session)), mkFsm (phase session))
  | Panic => False
  end.
Proof.
  intros Hp. unfold try_from, step_projected. rewrite Hp. cbn [state].
  destruct (project (name st) m) as [e|] eqn:Em; [|done]. destruct (projects _ _ Em) as (t & Ht & <-).
  unfold mem. rewrite bool_decide_true by now apply list_elem_of_fmap_2. split; [done|].
  unfold project_message. cbn [message_event]. rewrite (directional_found t Ht), (projected_machine t Ht). eauto.
Qed.

(** A mapped message stays a message of its variant, or is given back. *)
Lemma try_map_wire_checked f (m : PhaseMessage M) :
  match try_map_wire project st f m with
  | Ok m' => into_wire m' = f (into_wire m) /\ message_event m' = message_event m /\ try_from kind project st (into_wire m') = Ok m'
  | Err w => w = f (into_wire m) /\ project (name st) w <> Some (message_event m)
  | Panic => False
  end.
Proof.
  unfold try_map_wire. case_bool_decide as E1; [|done]. cbn [into_wire message_event]. split_and!; [done..|]. unfold try_from. rewrite E1.
  destruct (projects _ _ E1) as (t & Ht & <-). unfold mem. rewrite bool_decide_true by now apply list_elem_of_fmap_2. done.
Qed.
End Projection.

Lemma named_state st st' : NoDup (map name (states p)) -> st ∈ states p -> st' ∈ states p -> name st = name st' -> st = st'.
Proof.
  intros Hn H1 H2 He. pose proof (find_named name (states p) st Hn H1) as F1. rewrite He, (find_named name (states p) st' Hn H2) in F1. congruence.
Qed.

Lemma project_internal_directional st m e : well_named -> st ∈ states p -> project_internal p (name st) m = Some e ->
  exists t, t ∈ directional st Internal /\ event t = e.
Proof.
  intros [Hn _] Hst (pat & (st' & t & Hs & Ht & Hname & He & Hc & Hp)%internal_arms_in & _)%first_arm_in.
  assert (st' = st) as -> by (apply named_state; done). exists t. split; [|done]. unfold directional.
  apply list_elem_of_In, filter_In. rewrite <- list_elem_of_In. split; [done|]. rewrite Hc, Hp. done.
Qed.
Lemma project_external_directional st m e : well_named -> st ∈ states p -> project_external p (name st) m = Some e ->
  exists t, t ∈ directional st External /\ event t = e.
Proof.
  intros [Hn _] Hst (pat & (st' & t & Hs & Ht & Hname & He & Hc & Hp)%external_arms_in & _)%first_arm_in.
  assert (st' = st) as -> by (apply named_state; done). exists t. split; [|done]. unfold directional.
  apply list_elem_of_In, filter_In. rewrite <- list_elem_of_In. split; [done|]. rewrite Hc, Hp. done.
Qed.

(** What the generated messages of a phase promise in one direction: converting a wire
    message and projecting it enters the phase the runtime machine enters, with the same
    transport; a message the machine refuses is given back unchanged. *)
Definition projection_refines {M} (kind : ChoiceKind) (project : string -> M -> option string) : Prop :=
  forall T (session : TypedSession T) st m, st ∈ states p -> phase session = name st ->
  match try_from kind project st m with
  | Ok pm => into_wire pm = m /\ exists next,
      project_message kind st session pm = Ok (next, pm) /\ transport next = transport session /\
      step_projected p m project (mkFsm (phase session)) = (Ok (message_event pm), mkFsm (phase next))
  | Err m' => m' = m /\ step_projected p m project (mkFsm (phase session)) = (Err (mkProjectionError (phase session)), mkFsm (phase session))
  | Panic => False
  end.

(** C33: The typed messages of every phase and of both directions refine the runtime machine. *)
Theorem phase_messages_refine : well_named -> projection_refines Internal (project_internal p) /\ projection_refines External (project_external p).
Proof.
  intros H. split; intros T session st m Hst Hp; apply phase_message_refines; try done.
  - intros m' e. now apply project_internal_directional.
  - intros m' e. now apply project_external_directional.
Qed.

(** *** Sessions and the machine *)

Lemma validate_transitions_methods declared (ts : list (Transition I E)) : forall methods,
  validate_transitions declared methods ts = Ok tt -> NoDup (map method ts) /\ forall t, t ∈ ts -> method t ∉ methods.
Proof.
  induction ts as [|t ts IH]; intros methods H; [split; [constructor|]; intros t Ht; now apply elem_of_nil in Ht|].
  cbn [validate_transitions] in H. unfold mem in H. destruct (bool_decide (target t ∈ declared)); [|done]. cbn [negb] in H.
  destruct (bool_decide (method t ∈ methods)) eqn:Em; [done|]. apply bool_decide_eq_false in Em. apply IH in H as [H1 H2]. split.
  - cbn [map]. apply NoDup_cons. split; [|done]. intros Hin. apply list_elem_of_In, in_map_iff in Hin as (u & Hu & Hin).
    apply list_elem_of_In in Hin. apply (H2 u Hin). rewrite Hu. left.
  - intros u [->|Hu]%elem_of_cons; [done|]. intros Hin. apply (H2 u Hu). now right.
Qed.
Lemma validate_methods st : validate p = Ok tt -> st ∈ states p -> NoDup (map method (transitions st)).
Proof.
  unfold validate. destruct (negb (messages p) && _); [done|]. destruct (negb (mem _ _)); [done|].
  generalize (map name (states p)) as declared. intros declared. induction (states p) as [|s ss IH]; intros H Hst; [now apply elem_of_nil in Hst|].
  cbn [validate_states] in H. destruct (validate_choice s) as [[]| |]; [|done..].
  destruct (validate_transitions declared [] (transitions s)) as [[]| |] eqn:E1; [|done..]. apply elem_of_cons in Hst as [->|Hst]; [|now apply IH].
  now apply validate_transitions_methods in E1 as [E1 _].
Qed.

Lemma session_method_in source m next : session_method source m = Some next ->
  exists st t, st ∈ states p /\ t ∈ transitions st /\ name st = source /\ method t = m /\ target t = next.
Proof.
  unfold session_method. destruct (List.find _ (states p)) as [st|] eqn:Es; [|done]. destruct (List.find _ (transitions st)) as [t|] eqn:Et; [|done].
  intros [= <-]. apply find_some in Es as [Hs E1], Et as [Ht E2]. apply bool_decide_eq_true in E1, E2. exists st, t. rewrite !list_elem_of_In. done.
Qed.
Lemma session_method_of st t : well_named -> st ∈ states p -> t ∈ transitions st -> session_method (name st) (method t) = Some (target t).
Proof.
  intros (Hn & _ & Hv) Hst Ht. unfold session_method. rewrite (find_named name _ st) by done.
  rewrite (find_named method _ t); [done|now apply validate_methods|done].
Qed.

Lemma session_methods_snoc ms m s t : forall source,
  session_methods source ms = Some s -> session_method s m = Some t -> session_methods source (ms ++ [m])%list = Some t.
Proof.
  induction ms as [|m' ms IH]; intros source H1 H2; cbn [app session_methods] in *; [injection H1 as ->; now rewrite H2|].
  destruct (session_method source m'); [now apply IH|done].
Qed.
Lemma session_methods_reach ms : (forall source m next, session_method source m = Some next -> exists e, fsm_step p e (mkFsm source) = (Ok tt, mkFsm next)) ->
  forall source s, reachable p source -> session_methods source ms = Some s -> reachable p s.
Proof.
  intros H1. induction ms as [|m ms IH]; intros source s Hr Hs; cbn [session_methods] in Hs; [congruence|].
  destruct (session_method source m) as [next|] eqn:Em; [|done]. apply (IH next); [|done]. destruct (H1 _ _ _ Em) as [e He].
  apply (reach_step p source e next Hr). unfold fsm_step in He. cbn [state] in He. destruct (transition p source e) as [r|] eqn:Er; [|done].
  exists r. split; [done|]. now injection He.
Qed.

(** The typestate API and the runtime machine have the same steps: a method of the session
    in a phase takes the machine there by an event, and every event the machine takes has
    a method that enters the same phase; so they reach the same phases. *)
Theorem typestate_matches_machine : well_named ->
  (forall source m next, session_method source m = Some next -> exists e, fsm_step p e (mkFsm source) = (Ok tt, mkFsm next)) /\
  (forall source e f, fsm_step p e (mkFsm source) = (Ok tt, f) -> exists m, session_method source m = Some (state f)) /\
  (forall s, reachable p s <-> exists ms, session_methods (initial p) ms = Some s).
Proof.
  intros H.
  assert (forall source m next, session_method source m = Some next -> exists e, fsm_step p e (mkFsm source) = (Ok tt, mkFsm next)) as H1.
  { intros source m next (st & t & Hst & Ht & <- & <- & <-)%session_method_in. exists (event t). unfold fsm_step. cbn [state].
    assert (describe p st t ∈ TRANSITIONS p) as Hr by (apply TRANSITIONS_in; eauto).
    pose proof (transition_unique p _ (proj1 (proj2 H)) Hr) as Hu. cbn [describe r_source r_event] in Hu. now rewrite Hu. }
  assert (forall source e f, fsm_step p e (mkFsm source) = (Ok tt, f) -> exists m, session_method source m = Some (state f)) as H2.
  { intros source e f. unfold fsm_step. cbn [state]. destruct (transition p source e) as [r|] eqn:Er; [|done]. intros [= <-].
    apply transition_in in Er as ((st & t & Hst & Ht & ->)%TRANSITIONS_in & <- & _). exists (method t). now apply session_method_of. }
  split; [done|]. split; [done|]. intros s. split.
  - induction 1 as [|s e t _ [ms IH] (r & Er & <-)]; [now exists []|].
    destruct (H2 s e (mkFsm (r_target r))) as [m Hm]; [unfold fsm_step; cbn [state]; now rewrite Er|]. exists (ms ++ [m])%list.
    apply session_methods_snoc with s; done.
  - intros [ms Hms]. revert Hms. apply (session_methods_reach ms); [done|constructor].
Qed.
End Typed.

(** ** The grammars of the crate *)

Lemma well_named_check {I E} (p : Protocol I E) :
  bool_decide (NoDup (map name (states p))) = true ->
  bool_decide (NoDup (map (fun t => (r_source t, r_event t)) (TRANSITIONS p))) = true -> validate p = Ok tt -> well_named p.
Proof. intros H1 H2 H3. apply bool_decide_eq_true in H1, H2. now split_and!. Qed.

Lemma crate_grammars_named :
  well_named frontend /\ well_named backend /\ well_named authentication /\ well_named server_authentication /\
  well_named pre_startup /\ well_named server_pre_startup.
Proof. split_and!; apply well_named_check; vm_compute; reflexivity. Qed.

Lemma typestate_matches_machine_witness : exists ms, session_methods frontend (initial frontend) ms = Some "Simple".
Proof.
  destruct crate_grammars_named as [H _]. apply (proj2 (proj2 (typestate_matches_machine frontend H))).
  apply (reach_step frontend "Ready" "Query"); [constructor|]. eexists. split; vm_compute; reflexivity.
Defined.

(** A query in the idle phase: the typed connection and the machine both enter [Simple]. *)
Definition idle_state : State FrontendMessage BackendMessage := List.hd (mkState "" Mixed []) (states frontend).
Lemma phase_messages_refine_witness :
  name idle_state = "Ready" /\ exists next,
    project_message Internal idle_state (mkTyped tt "Ready" "Pristine") (mkPhaseMessage "Query" (F_Query [])) = Ok (next, mkPhaseMessage "Query" (F_Query [])) /\
    step_projected frontend (F_Query []) (project_internal frontend) (mkFsm "Ready") = (Ok "Query", mkFsm (phase next)).
Proof.
  split; [reflexivity|].
  pose proof (proj1 (phase_messages_refine frontend (proj1 crate_grammars_named)) unit (mkTyped tt "Ready" "Pristine") idle_state (F_Query [])
    ltac:(left) eq_refl) as H.
  change (try_from Internal (project_internal frontend) idle_state (F_Query [])) with (Ok (E := FrontendMessage) (mkPhaseMessage "Query" (F_Query []))) in H.
  destruct H as (_ & next & H1 & _ & H2). exists next. split; assumption.
Defined.
