(* ===== verification/FsmSyntax.v ===== *)
(** The declarations the protocol compiler parses (pg-proto-fsm/src/lib.rs), with their
    association blocks: the message templates, the validation of associations, and the
    trait implementations [expand_associations] generates. The grammar inside a
    declaration is the [Protocol] of [Fsm]. *)

From Stdlib Require Import ZArith Lia String Ascii.
From stdpp Require Import prelude strings.
From S2P Require Import Prelude Fsm.
Local Open Scope string_scope.

(** ** Syntax *)

(** [syn::Type], as far as the placeholder visitor tells types apart: a path of one segment
    without qualifier and arguments, or any other type with the types nested in it, in the
    order [visit_mut] reaches them. *)
Inductive Ty : Type :=
| TyBare (ident : string)
| TyNode (shape : string) (nested : list Ty).

#[global] Instance Ty_inhabited : Inhabited Ty := populate (TyBare "").

Record AssociationLane : Type := mkLane { direction : Ty; role : Ty; wire : Ty; message : Ty }.
Record StateAssociations : Type := mkStateAssociations { state_inbound : list Ty; state_outbound : list Ty }.
Record MessageTypes : Type := mkMessageTypes { internal : Ty; external : Ty }.

Section Syntax.
(** Paths, patterns and visibilities are carried to the generated code as they are. *)
Context {Path Pat Visibility : Type}.

Record Associations : Type := mkAssociations { interface : Path; seal : Path; inbound : AssociationLane; outbound : AssociationLane }.
Record SynTransition : Type := mkSynTransition {
  st_choice : option ChoiceKind; st_event : string; st_method : string; st_payload : option Ty;
  st_target : string; st_cleanliness : option string; st_projection : option Pat
}.
Record SynState : Type := mkSynState {
  ss_name : string; ss_choice : ChoiceKind; ss_transitions : list SynTransition; ss_associations : option StateAssociations
}.
Record SynProtocol : Type := mkSynProtocol {
  sp_visibility : Visibility; sp_module : string; sp_initial : string; sp_messages : option MessageTypes;
  sp_associations : option Associations; sp_states : list SynState
}.

(** ** Message templates *)

(** How [format_ident!] writes an identifier into a name: without the raw prefix. *)
Definition fragment (ident : string) : string :=
  match ident with String "r"%char (String "#"%char rest) => rest | _ => ident end.

(** [visit_type_mut] of [MessagePlaceholderReplacer]; the count is threaded through. *)
Fixpoint visit_type_mut (state : option string) (ty : Ty) (count : nat) : Ty * nat :=
  match ty with
  | TyBare ident =>
      if bool_decide (ident = "internal") then
        (match state with Some state => TyBare (fragment state ++ "InternalMessage") | None => ty end, S count)
      else if bool_decide (ident = "external") then
        (match state with Some state => TyBare (fragment state ++ "ExternalMessage") | None => ty end, S count)
      else (ty, count)
  | TyNode shape nested =>
      let (nested, count) :=
        (fix visit (l : list Ty) (count : nat) : list Ty * nat :=
           match l with
           | [] => ([], count)
           | ty :: l => let (ty, count) := visit_type_mut state ty count in let (l, count) := visit l count in (ty :: l, count)
           end) nested count in
      (TyNode shape nested, count)
  end.
Definition replace_message_placeholder (message : Ty) (state : option string) : Ty * nat := visit_type_mut state message 0.

Definition validate_message_template (message : Ty) : result unit string :=
  match (replace_message_placeholder message None).2 with
  | 1%nat => Ok tt
  | 0%nat => Err "association message type requires exactly one bare `internal` or `external` placeholder"
  | _ => Err "association message type contains more than one message placeholder"
  end.
Definition instantiate_message_type (message : Ty) (state : string) : result Ty string :=
  let (message, count) := replace_message_placeholder message (Some state) in
  if bool_decide (count = 1%nat) then Ok message else Err "association message type requires exactly one message placeholder".

(** ** Validation *)

Section Render.
(** The token text of a type and of a lane, [quote!(..).to_string()]. *)
Context (render : Ty -> string) (render_lane : Ty -> Ty -> Ty -> string).

Definition lane_key (lane : AssociationLane) : string := render_lane (direction lane) (role lane) (wire lane).

Fixpoint association_types_seen (seen : list string) (types : list Ty) : result unit string :=
  match types with
  | [] => Ok tt
  | ty :: types =>
      if mem (render ty) seen then Err "duplicate connection type in association lane" else association_types_seen (render ty :: seen) types
  end.
Definition validate_association_types (types : list Ty) : result unit string := association_types_seen [] types.

(** The inner loop of [validate_associations]; the set of implementations grows. *)
Fixpoint insert_implementations (key : string) (connections : list Ty) (implementations : list (string * string))
    : result (list (string * string)) string :=
  match connections with
  | [] => Ok implementations
  | connection :: connections =>
      if bool_decide ((key, render connection) ∈ implementations)
      then Err "connection type has a duplicate association for this direction, role, and wire type"
      else insert_implementations key connections ((key, render connection) :: implementations)
  end.

Fixpoint validate_state_associations (a : Associations) (states : list SynState) (implementations : list (string * string))
    : result unit string :=
  match states with
  | [] => Ok tt
  | state :: states =>
      match ss_associations state with
      | None => Err "state requires an `associate` block"
      | Some sa =>
          let? _ := validate_association_types (state_inbound sa) in
          let? _ := validate_association_types (state_outbound sa) in
          let? implementations := insert_implementations (lane_key (inbound a)) (state_inbound sa) implementations in
          let? implementations := insert_implementations (lane_key (outbound a)) (state_outbound sa) implementations in
          validate_state_associations a states implementations
      end
  end.

Definition validate_associations (p : SynProtocol) : result unit string :=
  match sp_associations p with
  | Some a =>
      if negb (is_some (sp_messages p)) then Err "associations require a `messages` declaration"
      else
        let? _ := validate_message_template (message (inbound a)) in
        let? _ := validate_message_template (message (outbound a)) in
        validate_state_associations a (sp_states p) []
  | None =>
      if existsb (fun state => is_some (ss_associations state)) (sp_states p)
      then Err "state association requires an `associations` declaration" else Ok tt
  end.

(** The runtime grammar of a declaration; a pattern denotes a test on the messages of its
    transition's direction. *)
Section Denote.
Context {I E : Type} (denote_internal : Pat -> I -> bool) (denote_external : Pat -> E -> bool).
Definition denote_transition (s : SynState) (t : SynTransition) : Transition I E :=
  mkTransition (st_event t) (st_method t) (st_target t) (st_choice t) (st_cleanliness t)
    ((fun pat => match default (ss_choice s) (st_choice t) with
                 | External => on_external (denote_external pat) | _ => on_internal (denote_internal pat) end) <$> st_projection t).
Definition denote_state (s : SynState) : State I E := mkState (ss_name s) (ss_choice s) (map (denote_transition s) (ss_transitions s)).
Definition grammar_of (p : SynProtocol) : Protocol I E :=
  mkProtocol (sp_module p) (sp_initial p) (is_some (sp_messages p)) (map denote_state (sp_states p)).
(** [validate] of a whole declaration *)
Definition validate_declaration (p : SynProtocol) : result unit string :=
  let? _ := validate_associations p in validate (grammar_of p).
End Denote.

(** ** Generated implementations *)

Inductive Impl : Type :=
| SealImpl (seal : Path) (direction role wire connection : Ty)
| InterfaceImpl (interface : Path) (direction role wire connection : Ty) (ProtocolPhase : string) (Message : Ty).

(** The pair of implementations for every connection of one lane of one state. *)
Definition lane_impls (a : Associations) (state : SynState) (lane : AssociationLane) (connections : option (list Ty)) : result (list Impl) string :=
  let? message := instantiate_message_type (message lane) (ss_name state) in
  match connections with
  | None => Panic
  | Some connections =>
      Ok (connections ≫= fun connection =>
        [SealImpl (seal a) (direction lane) (role lane) (wire lane) connection;
         InterfaceImpl (interface a) (direction lane) (role lane) (wire lane) connection (ss_name state) message])
  end.
Fixpoint expand_states (a : Associations) (states : list SynState) : result (list Impl) string :=
  match states with
  | [] => Ok []
  | state :: states =>
      let? i := lane_impls a state (inbound a) (state_inbound <$> ss_associations state) in
      let? o := lane_impls a state (outbound a) (state_outbound <$> ss_associations state) in
      let? rest := expand_states a states in
      Ok (i ++ o ++ rest)%list
  end.
Definition expand_associations (p : SynProtocol) : result (list Impl) string :=
  match sp_associations p with Some a => expand_states a (sp_states p) | None => Ok [] end.
End Render.
End Syntax.
Arguments Associations : clear implicits.
Arguments SynTransition : clear implicits.
Arguments SynState : clear implicits.
Arguments SynProtocol : clear implicits.
Arguments Impl : clear implicits.

(** ** Facts about templates *)

Lemma Ty_nested_ind (P : Ty -> Prop) : (forall i, P (TyBare i)) -> (forall shape nested, Forall P nested -> P (TyNode shape nested)) -> forall ty, P ty.
Proof.
  intros Hb Hn. fix IH 1. intros [i|shape nested]; [apply Hb|apply Hn]. induction nested as [|ty nested IHn]; constructor; [apply IH|apply IHn].
Qed.

(** The bare placeholders of a type, and their replacement by a state's message type. *)
Fixpoint placeholders (ty : Ty) : nat :=
  match ty with
  | TyBare i => if bool_decide (i = "internal") || bool_decide (i = "external") then 1 else 0
  | TyNode _ nested => sum_list (map placeholders nested)
  end.
Definition message_name (state placeholder : string) : string :=
  fragment state ++ (if bool_decide (placeholder = "internal") then "InternalMessage" else "ExternalMessage").
Fixpoint substitute (state : string) (ty : Ty) : Ty :=
  match ty with
  | TyBare i => if bool_decide (i = "internal") || bool_decide (i = "external") then TyBare (message_name state i) else ty
  | TyNode shape nested => TyNode shape (map (substitute state) nested)
  end.

Lemma visit_exact state ty : forall count,
  visit_type_mut state ty count = (match state with Some s => substitute s ty | None => ty end, (count + placeholders ty)%nat).
Proof.
  induction ty as [i|shape nested IH] using Ty_nested_ind; intros count; cbn [visit_type_mut placeholders substitute].
  - case_bool_decide as E1; [subst i; cbn; destruct state; f_equal; lia|]. cbn [orb]. case_bool_decide as E2; [subst i; cbn; destruct state; f_equal; lia|].
    destruct state; f_equal; lia.
  - assert (forall count, (fix visit (l : list Ty) (count : nat) : list Ty * nat :=
        match l with [] => ([], count) | ty :: l => let (ty, count) := visit_type_mut state ty count in let (l, count) := visit l count in (ty :: l, count) end)
        nested count = (match state with Some s => map (substitute s) nested | None => nested end, (count + sum_list (map placeholders nested))%nat)) as Hv.
    { induction IH as [|ty nested Hty _ IHn]; intros n; [destruct state; cbn; f_equal; lia|]. rewrite Hty, IHn. destruct state; cbn; f_equal; lia. }
    rewrite Hv. now destruct state.
Qed.

Lemma template_valid ty : validate_message_template ty = Ok tt <-> placeholders ty = 1%nat.
Proof.
  unfold validate_message_template, replace_message_placeholder. rewrite visit_exact. cbn [snd]. rewrite Nat.add_0_l.
  destruct (placeholders ty) as [|[|n]]; split; intros H; done.
Qed.
Lemma instantiate_exact ty state :
  instantiate_message_type ty state = if bool_decide (placeholders ty = 1%nat) then Ok (substitute state ty)
    else Err "association message type requires exactly one message placeholder".
Proof. unfold instantiate_message_type, replace_message_placeholder. rewrite visit_exact. cbn. done. Qed.

(** ** Coherence *)

Section Coherence.
Context {Path Pat Visibility : Type} (render : Ty -> string) (render_lane : Ty -> Ty -> Ty -> string).

(** What the compiler tells implementations apart by. *)
Definition lane_keys (lane : AssociationLane) (connections : list Ty) : list (string * string) :=
  map (fun c => (lane_key render_lane lane, render c)) connections.
Definition state_keys (a : Associations Path) (s : SynState Pat) : list (string * string) :=
  match ss_associations s with
  | Some sa => (lane_keys (inbound a) (state_inbound sa) ++ lane_keys (outbound a) (state_outbound sa))%list
  | None => []
  end.
Definition interface_key (i : Impl Path) : option (string * string) :=
  match i with InterfaceImpl _ d r w c _ _ => Some (render_lane d r w, render c) | SealImpl _ _ _ _ _ => None end.

Lemma insert_implementations_ok lane connections : forall seen seen',
  insert_implementations render (lane_key render_lane lane) connections seen = Ok seen' ->
  seen' = (reverse (lane_keys lane connections) ++ seen)%list /\ (NoDup seen -> NoDup seen').
Proof.
  induction connections as [|c cs IH]; intros seen seen' H; cbn [insert_implementations] in H; [injection H as <-; split; [done|tauto]|].
  case_bool_decide as Ec; [done|]. apply IH in H as [-> Hn]. split.
  - cbn [lane_keys map]. rewrite reverse_cons, <- (assoc_L (++)). reflexivity.
  - intros Hs. apply Hn. now apply NoDup_cons.
Qed.

Lemma validate_states_keys (a : Associations Path) (states : list (SynState Pat)) : forall seen, NoDup seen ->
  validate_state_associations render render_lane a states seen = Ok tt ->
  NoDup ((states ≫= state_keys a) ++ seen)%list /\ Forall (fun s => is_Some (ss_associations s)) states.
Proof.
  induction states as [|s states IH]; intros seen Hs H; [split; [done|constructor]|]. cbn [validate_state_associations] in H.
  destruct (ss_associations s) as [sa|] eqn:Ea; [|done]. destruct (validate_association_types render (state_inbound sa)) as [[]| |]; [|done..].
  destruct (validate_association_types render (state_outbound sa)) as [[]| |]; [|done..].
  destruct (insert_implementations render _ (state_inbound sa) seen) as [seen1| |] eqn:E1; [|done..].
  destruct (insert_implementations render _ (state_outbound sa) seen1) as [seen2| |] eqn:E2; [|done..].
  apply insert_implementations_ok in E1 as [E1 N1], E2 as [E2 N2]. apply IH in H as [H1 H2]; [|auto]. split; [|constructor; [now rewrite Ea|done]].
  rewrite bind_cons. unfold state_keys at 1. rewrite Ea. subst seen1 seen2.
  rewrite (reverse_Permutation (lane_keys (outbound a) _)), (reverse_Permutation (lane_keys (inbound a) _)) in H1.
  revert H1. apply NoDup_Permutation_proper. solve_Permutation.
Qed.

Lemma lane_impls_ok (a : Associations Path) (state : SynState Pat) lane connections : placeholders (message lane) = 1%nat ->
  exists impls, lane_impls a state lane (Some connections) = Ok impls /\ omap interface_key impls = lane_keys lane connections /\
    forall i, i ∈ impls <-> exists c, c ∈ connections /\
      (i = SealImpl (seal a) (direction lane) (role lane) (wire lane) c \/
       i = InterfaceImpl (interface a) (direction lane) (role lane) (wire lane) c (ss_name state) (substitute (ss_name state) (message lane))).
Proof.
  intros Hm. unfold lane_impls. rewrite instantiate_exact, bool_decide_true by done. eexists. split; [reflexivity|]. split.
  - unfold lane_keys. induction connections as [|c cs IH]; [done|]. rewrite bind_cons. cbn [app omap list_omap interface_key map]. f_equal. exact IH.
  - intros i. rewrite list_elem_of_bind. split.
    + intros (c & Hi & Hc). exists c. split; [done|]. set_solver.
    + intros (c & Hc & Hi). exists c. split; [|done]. set_solver.
Qed.

(** The implementations a state's associations ask for. *)
Definition asked (a : Associations Path) (s : SynState Pat) (i : Impl Path) : Prop :=
  exists sa lane c, ss_associations s = Some sa /\
    (lane = inbound a /\ c ∈ state_inbound sa \/ lane = outbound a /\ c ∈ state_outbound sa) /\
    (i = SealImpl (seal a) (direction lane) (role lane) (wire lane) c \/
     i = InterfaceImpl (interface a) (direction lane) (role lane) (wire lane) c (ss_name s) (substitute (ss_name s) (message lane))).

Lemma expand_states_ok (a : Associations Path) (states : list (SynState Pat)) :
  placeholders (message (inbound a)) = 1%nat -> placeholders (message (outbound a)) = 1%nat ->
  Forall (fun s => is_Some (ss_associations s)) states ->
  exists impls, expand_states a states = Ok impls /\ omap interface_key impls = (states ≫= state_keys a) /\
    forall i, i ∈ impls <-> exists s, s ∈ states /\ asked a s i.
Proof.
  intros Hi Ho. induction 1 as [|s states [sa Ea] _ (rest & Er & Kr & Mr)]; [exists []; split_and!; [done..|]; set_solver|].
  destruct (lane_impls_ok a s (inbound a) (state_inbound sa) Hi) as (li & Ei & Ki & Mi).
  destruct (lane_impls_ok a s (outbound a) (state_outbound sa) Ho) as (lo & Eo & Ko & Mo).
  cbn [expand_states]. rewrite Ea. cbn [fmap option_fmap option_map]. rewrite Ei, Eo, Er. eexists. split; [reflexivity|]. split.
  - rewrite !omap_app, Ki, Ko, Kr, bind_cons. unfold state_keys at 2. rewrite Ea. now rewrite (assoc_L (++)).
  - intros i. rewrite !elem_of_app, Mi, Mo, Mr. setoid_rewrite elem_of_cons. unfold asked. split.
    + intros [(c & Hc & H)|[(c & Hc & H)|(s' & Hs & H)]].
      * exists s. split; [now left|]. exists sa, (inbound a), c. auto.
      * exists s. split; [now left|]. exists sa, (outbound a), c. auto.
      * exists s'. auto.
    + intros (s' & [->|Hs] & H); [|right; right; eauto]. destruct H as (sa' & lane & c & E & Hl & H). rewrite Ea in E. injection E as <-.
      destruct Hl as [[-> Hc]|[-> Hc]]; [left|right; left]; eauto.
Qed.

Lemma associations_ok (p : SynProtocol Path Pat Visibility) : validate_associations render render_lane p = Ok tt ->
  exists impls, expand_associations p = Ok impls.
Proof.
  unfold validate_associations, expand_associations. destruct (sp_associations p) as [a|]; [|eauto].
  destruct (negb _); [done|]. destruct (validate_message_template (message (inbound a))) as [[]| |] eqn:Ei; [|done..].
  destruct (validate_message_template (message (outbound a))) as [[]| |] eqn:Eo; [|done..]. apply template_valid in Ei, Eo.
  intros H. apply validate_states_keys in H as [_ Ha]; [|constructor]. destruct (expand_states_ok a (sp_states p) Ei Eo Ha) as (impls & E & _). eauto.
Qed.

(** C34: The associations of an accepted declaration expand without error or panic to exactly
    the implementations its states ask for, with the state's own message type in the place
    of the one placeholder, and no two of them are for the same connection, direction, role
    and wire type, so the generated code is coherent. *)
Theorem associations_coherent (p : SynProtocol Path Pat Visibility) : validate_associations render render_lane p = Ok tt ->
  exists impls, expand_associations p = Ok impls /\ NoDup (omap interface_key impls) /\
    match sp_associations p with
    | Some a => forall i, i ∈ impls <-> exists s, s ∈ sp_states p /\ asked a s i
    | None => impls = [] /\ Forall (fun s => ss_associations s = None) (sp_states p)
    end.
Proof.
  unfold validate_associations, expand_associations. destruct (sp_associations p) as [a|].
  - destruct (negb _); [done|]. destruct (validate_message_template (message (inbound a))) as [[]| |] eqn:Ei; [|done..].
    destruct (validate_message_template (message (outbound a))) as [[]| |] eqn:Eo; [|done..]. apply template_valid in Ei, Eo.
    intros H. apply validate_states_keys in H as [Hn Ha]; [|constructor]. destruct (expand_states_ok a (sp_states p) Ei Eo Ha) as (impls & E & K & Hm).
    exists impls. split; [done|]. rewrite K. rewrite app_nil_r in Hn. done.
  - destruct (existsb _ _) eqn:Ex; [done|]. intros _. exists []. split_and!; [done|constructor|done|]. apply Forall_forall. intros s Hs.
    destruct (ss_associations s) as [sa|] eqn:Es; [|done]. exfalso. apply not_true_iff_false in Ex. apply Ex, existsb_exists. exists s.
    rewrite <- list_elem_of_In, Es. done.
Qed.
End Coherence.

(** A token text of types, and a declaration with two states and both lanes. *)
Fixpoint sample_render (ty : Ty) : string :=
  match ty with TyBare i => i | TyNode shape nested => shape ++ " < " ++ String.concat " , " (map sample_render nested) ++ " >" end.
Definition sample_render_lane (d r w : Ty) : string := sample_render d ++ " , " ++ sample_render r ++ " , " ++ sample_render w.
Definition sample_declaration : SynProtocol string string string :=
  mkSynProtocol "pub" "toy" "Idle" (Some (mkMessageTypes (TyBare "Request") (TyBare "Reply")))
    (Some (mkAssociations "Phase" "Sealed" (mkLane (TyBare "Inbound") (TyBare "Client") (TyBare "Reply") (TyNode "Option" [TyBare "external"]))
       (mkLane (TyBare "Outbound") (TyBare "Client") (TyBare "Request") (TyBare "internal"))))
    [mkSynState "Idle" Internal [mkSynTransition None "Ask" "ask" None "Busy" None (Some "Request::Ask")]
       (Some (mkStateAssociations [] [TyNode "Conn" [TyBare "Idle"]]));
     mkSynState "Busy" External [mkSynTransition None "Answer" "answer" None "Idle" None (Some "Reply::Answer")]
       (Some (mkStateAssociations [TyNode "Conn" [TyBare "Busy"]] []))].

Lemma associations_coherent_witness :
  exists impls, expand_associations sample_declaration = Ok impls /\ NoDup (omap (interface_key sample_render sample_render_lane) impls) /\
    InterfaceImpl "Phase" (TyBare "Inbound") (TyBare "Client") (TyBare "Reply") (TyNode "Conn" [TyBare "Busy"]) "Busy"
      (TyNode "Option" [TyBare "BusyExternalMessage"]) ∈ impls.
Proof.
  destruct (associations_coherent sample_render sample_render_lane sample_declaration) as (impls & E & Hn & H); [vm_compute; reflexivity|].
  exists impls. split; [exact E|]. split; [exact Hn|]. apply H. eexists. split; [right; left|].
  exists (mkStateAssociations [TyNode "Conn" [TyBare "Busy"]] []), (inbound (default (mkAssociations "" "" (mkLane (TyBare "") (TyBare "") (TyBare "") (TyBare ""))
    (mkLane (TyBare "") (TyBare "") (TyBare "") (TyBare ""))) (sp_associations sample_declaration))), (TyNode "Conn" [TyBare "Busy"]).
  split; [reflexivity|]. split; [left; split; [reflexivity|left]|]. right. vm_compute. reflexivity.
Defined.
