(* ===== verification/FsmDiagram.v ===== *)
(** The railroad diagram of a grammar (pg-proto-fsm/src/lib.rs, [railroad_svg],
    [railroad_state_node] and [transition_node]): the tree of nodes handed to the drawing
    library. The layout and the SVG text are that library's. The recursion over states is
    given fuel; one more than the number of states is shown to be enough. *)

From Stdlib Require Import ZArith Lia String Ascii.
From stdpp Require Import prelude strings.
From S2P Require Import Prelude Fsm FsmTyped FsmSyntax.
Local Open Scope string_scope.

(** ** Labels *)

Definition is_space (c : ascii) : bool := Ascii.eqb c " ".
Fixpoint without_spaces (s : string) : string :=
  match s with EmptyString => EmptyString | String c s => if is_space c then without_spaces s else String c (without_spaces s) end.

(** [str::contains], [str::strip_prefix] and [str::rsplit_once("::")] *)
Fixpoint contains (needle s : string) : bool :=
  String.prefix needle s || match s with EmptyString => false | String _ s => contains needle s end.
Fixpoint strip_prefix (pre s : string) : option string :=
  match pre, s with
  | EmptyString, _ => Some s
  | String a pre, String b s => if Ascii.eqb a b then strip_prefix pre s else None
  | _, EmptyString => None
  end.
Fixpoint rsplit_colons (s : string) : option (string * string) :=
  match s with
  | EmptyString => None
  | String c rest =>
      match rsplit_colons rest with
      | Some (module, name) => Some (String c module, name)
      | None => match strip_prefix "::" s with Some name => Some ("", name) | None => None end
      end
  end.

Definition payload_doc_url (rendered : string) : option string :=
  let payload := without_spaces rendered in
  if contains "bytes::Bytes" payload then Some "https://docs.rs/bytes/1/bytes/struct.Bytes.html"
  else
    match strip_prefix "crate::" payload ≫= rsplit_colons with
    | None => None
    | Some (module, name) =>
        let url kind := Some ("../../" ++ module ++ "/" ++ kind ++ "." ++ name ++ ".html") in
        if bool_decide (module = "codec") then
          if bool_decide (name = "BackendMessage") || bool_decide (name = "TransactionStatus") then url "enum" else url "struct"
        else if bool_decide (module = "server_auth") && bool_decide (name = "SaslInitialResponse") then url "struct"
        else if bool_decide (module = "startup") && bool_decide (name = "StartupMessage") then url "struct"
        else None
    end.

Example payload_links :
  payload_doc_url "crate :: codec :: Query" = Some "../../codec/struct.Query.html" /\
  payload_doc_url "crate :: codec :: BackendMessage" = Some "../../codec/enum.BackendMessage.html" /\
  payload_doc_url "Option < bytes :: Bytes >" = Some "https://docs.rs/bytes/1/bytes/struct.Bytes.html" /\
  payload_doc_url "crate :: demux :: Item" = None /\ payload_doc_url "u32" = None.
Proof. split_and!; vm_compute; reflexivity. Qed.

Record TransitionTerminal : Type := mkTerminal { prefix : string; payload : option string; suffix : string; url : option string }.

(** [chars().count()]: the bytes that do not continue a UTF-8 sequence. *)
Fixpoint chars_count (s : string) : Z :=
  match s with
  | EmptyString => 0
  | String c s => (if (128 <=? Z.of_nat (nat_of_ascii c))%Z && (Z.of_nat (nat_of_ascii c) <? 192)%Z then 0 else 1) + chars_count s
  end%Z.
Definition label_width (t : TransitionTerminal) : Z :=
  (chars_count (prefix t) + match payload t with Some value => chars_count value | None => 0 end + chars_count (suffix t))%Z.
Definition terminal_width (t : TransitionTerminal) : Z := (label_width t * 9 + 24)%Z.

(** ** Nodes *)

(** The nodes of the drawing library the diagram is made of. *)
Inductive Node : Type :=
| Start | End | Empty
| Terminal (label : string) | NonTerminal (label : string) | TransitionNode (t : TransitionTerminal)
| Sequence (nodes : list Node) | Choice (nodes : list Node) | Repeat (inner back : Node).

Inductive Exhausted : Type := OutOfFuel.

Section Diagram.
Context {Pat : Type} (render : Ty -> string) (states : list (SynState Pat)).

Definition transition_node (t : SynTransition Pat) (state_choice : ChoiceKind) : result TransitionTerminal Exhausted :=
  let? choice := match default state_choice (st_choice t) with
                 | Internal => Ok "▷" | External => Ok "◁" | Mixed => Panic
                 end in
  let cleanliness := match st_cleanliness t with Some c => " [" ++ c ++ "]" | None => "" end in
  Ok (match st_payload t with
      | Some payload =>
          let rendered := without_spaces (render payload) in
          mkTerminal (choice ++ " " ++ st_event t ++ "(") (Some rendered) (")" ++ cleanliness) (payload_doc_url (render payload))
      | None => mkTerminal (choice ++ " " ++ st_event t) None cleanliness None
      end).

(** [states_by_name.get(name)]: collecting keeps the last state of a name. *)
Definition state_named (name : string) : option (SynState Pat) := List.find (fun s => bool_decide (ss_name s = name)) (rev states).

Fixpoint terminals (ts : list (SynTransition Pat)) (choice : ChoiceKind) : result (list Node) Exhausted :=
  match ts with
  | [] => Ok []
  | t :: ts => let? n := transition_node t choice in let? rest := terminals ts choice in Ok (TransitionNode n :: rest)
  end.

Definition is_self_loop (s : SynState Pat) (t : SynTransition Pat) : bool := bool_decide (st_target t = ss_name s).

(** The loop over the transitions that leave a state. *)
Fixpoint exits (recurse : string -> list string -> result (Node * list string) Exhausted) (choice : ChoiceKind)
    (ts : list (SynTransition Pat)) (expanded : list string) : result (list Node * list string) Exhausted :=
  match ts with
  | [] => Ok ([], expanded)
  | t :: ts =>
      let? n := transition_node t choice in
      let? (sub, expanded) := recurse (st_target t) expanded in
      let? (rest, expanded) := exits recurse choice ts expanded in
      Ok (Sequence [TransitionNode n; sub] :: rest, expanded)
  end.

Fixpoint railroad_state_node (fuel : nat) (name : string) (expanded : list string) : result (Node * list string) Exhausted :=
  match fuel with
  | O => Err OutOfFuel
  | S fuel =>
      if mem name expanded then Ok (NonTerminal name, expanded)
      else
        let expanded := name :: expanded in
        match state_named name with
        | None => Panic
        | Some state =>
            let? self_loops := terminals (List.filter (is_self_loop state) (ss_transitions state)) (ss_choice state) in
            let? (exits, expanded) := exits (railroad_state_node fuel) (ss_choice state)
                                        (List.filter (fun t => negb (is_self_loop state t)) (ss_transitions state)) expanded in
            let loop := match self_loops with [] => [] | _ => [Repeat (Choice self_loops) Empty] end in
            let leave := match exits with [] => Terminal "end" | _ => Choice exits end in
            Ok (Sequence (NonTerminal name :: loop ++ [leave]), expanded)
        end
  end.

(** The root of the diagram of [railroad_svg]. *)
Definition railroad (initial : string) : result Node Exhausted :=
  let? (node, _) := railroad_state_node (S (length states)) initial [] in
  Ok (Sequence [Start; node; End]).

(** ** What is drawn *)

Fixpoint drawn (n : Node) : list TransitionTerminal :=
  match n with
  | TransitionNode t => [t]
  | Sequence nodes | Choice nodes => flat_map drawn nodes
  | Repeat inner back => (drawn inner ++ drawn back)%list
  | _ => []
  end.

Definition names : list string := map (fun s => ss_name s) states.

Definition label (s : SynState Pat) (t : SynTransition Pat) : TransitionTerminal :=
  match transition_node t (ss_choice s) with Ok n => n | _ => mkTerminal "" None "" None end.
Definition state_labels (name : string) : list TransitionTerminal :=
  match state_named name with Some s => map (label s) (ss_transitions s) | None => [] end.

(** Phases the transitions lead to from one phase. *)
Inductive leads (a : string) : string -> Prop :=
| leads_here : leads a a
| leads_on b s t : leads a b -> state_named b = Some s -> t ∈ ss_transitions s -> leads a (st_target t).

Lemma leads_trans a b c : leads a b -> leads b c -> leads a c.
Proof. intros Hab. induction 1 as [|c s t _ IH Hs Ht]; [done|]. eapply leads_on; eauto. Qed.

Lemma state_named_declared name : name ∈ names -> exists s, state_named name = Some s.
Proof.
  intros H. unfold state_named. destruct (List.find _ (rev states)) as [s|] eqn:Es; [eauto|]. exfalso. unfold names in H.
  apply list_elem_of_In, in_map_iff in H as (s & <- & Hs). apply in_rev in Hs. pose proof (find_none _ _ Es _ Hs) as Hn. cbn in Hn.
  now rewrite bool_decide_true in Hn.
Qed.
Lemma state_named_in name s : state_named name = Some s -> s ∈ states /\ ss_name s = name.
Proof.
  unfold state_named. intros [H1 H2]%find_some. apply bool_decide_eq_true in H2. split; [|done]. now apply list_elem_of_In, in_rev.
Qed.

Section Accepted.
(** What validation establishes. *)
Hypothesis targets_declared : forall s t, s ∈ states -> t ∈ ss_transitions s -> st_target t ∈ names.
Hypothesis directed : forall s t, s ∈ states -> t ∈ ss_transitions s -> default (ss_choice s) (st_choice t) <> Mixed.

Lemma label_ok s t : s ∈ states -> t ∈ ss_transitions s -> transition_node t (ss_choice s) = Ok (label s t).
Proof.
  intros Hs Ht. unfold label. pose proof (directed s t Hs Ht) as Hd. unfold transition_node. now destruct (default (ss_choice s) (st_choice t)).
Qed.

Lemma terminals_ok s ts : s ∈ states -> (forall t, t ∈ ts -> t ∈ ss_transitions s) ->
  exists nodes, terminals ts (ss_choice s) = Ok nodes /\ flat_map drawn nodes = map (label s) ts.
Proof.
  intros Hs. induction ts as [|t ts IH]; intros Hts; [now exists []|]. destruct IH as (nodes & E & D); [intros u Hu; apply Hts; now right|].
  cbn [terminals]. rewrite (label_ok s t Hs) by (apply Hts; left). rewrite E. eexists. split; [reflexivity|]. cbn [flat_map drawn app map]. now rewrite D.
Qed.

(** One visit: the set of expanded phases grows by phases that are closed under transitions
    afterwards and are reached from the visited ones. *)
Record grows (from expanded expanded' new : list string) : Prop := {
  grows_app : expanded' = (new ++ expanded)%list;
  grows_nodup : NoDup expanded';
  grows_declared : forall x, x ∈ expanded' -> x ∈ names;
  grows_visited : forall x, x ∈ from -> x ∈ expanded';
  grows_closed : forall x s t, x ∈ new -> state_named x = Some s -> t ∈ ss_transitions s -> st_target t ∈ expanded';
  grows_reached : forall x, x ∈ new -> exists f, f ∈ from /\ leads f x
}.

Lemma visits_trans A B e e1 e2 n1 n2 : grows A e e1 n1 -> grows B e1 e2 n2 -> grows (A ++ B)%list e e2 (n2 ++ n1)%list.
Proof.
  intros [A1 A2 A3 A4 A5 A6] [B1 B2 B3 B4 B5 B6]. subst. constructor; try done.
  - now rewrite (assoc_L (++)).
  - intros x [H|H]%elem_of_app; [|now apply B4]. apply A4 in H. apply elem_of_app. now right.
  - intros x s t [H|H]%elem_of_app Hs Ht; [now apply (B5 x s t)|]. apply elem_of_app. right. now apply (A5 x s t).
  - intros x [H|H]%elem_of_app; [destruct (B6 x H) as (f & ? & ?)|destruct (A6 x H) as (f & ? & ?)]; exists f; split; try done; apply elem_of_app; auto.
Qed.

(** A function that visits every declared phase when it has room for the rest. *)
Definition visits (recurse : string -> list string -> result (Node * list string) Exhausted) (room : nat) : Prop :=
  forall name expanded, name ∈ names -> NoDup expanded -> (forall x, x ∈ expanded -> x ∈ names) -> (length states < room + length expanded)%nat ->
  exists node expanded' new, recurse name expanded = Ok (node, expanded') /\ grows [name] expanded expanded' new /\
    drawn node ≡ₚ (new ≫= state_labels).

Lemma exits_ok recurse room s ts : visits recurse room -> s ∈ states -> forall expanded,
  (forall t, t ∈ ts -> t ∈ ss_transitions s) -> NoDup expanded -> (forall x, x ∈ expanded -> x ∈ names) -> (length states < room + length expanded)%nat ->
  exists nodes expanded' new, exits recurse (ss_choice s) ts expanded = Ok (nodes, expanded') /\
    grows (map (fun t => st_target t) ts) expanded expanded' new /\ flat_map drawn nodes ≡ₚ (map (label s) ts ++ (new ≫= state_labels))%list.
Proof.
  intros Hr Hs. induction ts as [|t ts IH]; intros expanded Hts Hn Hd Hl.
  { exists [], expanded, []. split; [done|]. split; [|done]. constructor; try done; set_solver. }
  cbn [exits]. rewrite (label_ok s t Hs) by (apply Hts; left).
  destruct (Hr (st_target t) expanded (targets_declared s t Hs (Hts t ltac:(left))) Hn Hd Hl) as (node & e1 & n1 & -> & G1 & D1).
  pose proof (grows_app _ _ _ _ G1) as E1.
  destruct (IH e1) as (nodes & e2 & n2 & -> & G2 & D2).
  { intros u Hu. apply Hts. now right. }
  { exact (grows_nodup _ _ _ _ G1). }
  { exact (grows_declared _ _ _ _ G1). }
  { rewrite E1, length_app. lia. }
  exists (Sequence [TransitionNode (label s t); node] :: nodes), e2, (n2 ++ n1)%list. split; [done|]. split; [exact (visits_trans _ _ _ _ _ _ _ G1 G2)|].
  cbn [flat_map drawn map app]. rewrite app_nil_r, D1, D2, bind_app. solve_Permutation.
Qed.

Lemma filter_split {A B} (f : A -> B) (P : A -> bool) l :
  (map f (List.filter P l) ++ map f (List.filter (fun x => negb (P x)) l))%list ≡ₚ map f l.
Proof. induction l as [|x l IH]; [done|]. cbn [List.filter map]. destruct (P x); cbn [negb map app]; rewrite <- IH; solve_Permutation. Qed.

Lemma railroad_visits fuel : visits (railroad_state_node fuel) fuel.
Proof.
  induction fuel as [|fuel IH]; intros name expanded Hname Hn Hd Hl.
  { exfalso. assert (length expanded <= length names)%nat; [|unfold names in *; rewrite length_map in *; lia].
    apply submseteq_length, NoDup_submseteq; [done|]. intros x. apply Hd. }
  cbn [railroad_state_node]. unfold mem. case_bool_decide as Em.
  { exists (NonTerminal name), expanded, []. split; [done|]. split; [|done]. constructor; try done; set_solver. }
  destruct (state_named_declared name Hname) as [s Es]. rewrite Es. destruct (state_named_in _ _ Es) as [Hs Hsn].
  assert (forall P t, t ∈ List.filter P (ss_transitions s) -> t ∈ ss_transitions s) as Hf by (intros P t; rewrite !list_elem_of_In, filter_In; tauto).
  destruct (terminals_ok s (List.filter (is_self_loop s) (ss_transitions s)) Hs (Hf _)) as (loops & -> & DL).
  destruct (exits_ok _ fuel s (List.filter (fun t => negb (is_self_loop s t)) (ss_transitions s)) IH Hs (name :: expanded) (Hf _)) as (nodes & e' & new & -> & G & D).
  { apply NoDup_cons. done. }
  { intros x [->|Hx]%elem_of_cons; auto. }
  { cbn [length]. lia. }
  eexists _, e', (new ++ [name])%list. split; [reflexivity|]. destruct G as [G1 G2 G3 G4 G5 G6].
  assert (name ∈ e') as Hin by (rewrite G1; apply elem_of_app; right; left). split.
  - constructor; try done.
    + rewrite G1, <- (assoc_L (++)). done.
    + intros x ->%list_elem_of_singleton. done.
    + intros x s' t [Hx| ->%list_elem_of_singleton]%elem_of_app Hs' Ht; [now apply (G5 x s' t)|]. rewrite Es in Hs'. injection Hs' as <-.
      destruct (is_self_loop s t) eqn:El; [apply bool_decide_eq_true in El; now rewrite El, Hsn|].
      apply G4, list_elem_of_In, in_map, filter_In. rewrite <- list_elem_of_In, El. done.
    + intros x [Hx| ->%list_elem_of_singleton]%elem_of_app; exists name; (split; [left|]); [|constructor].
      destruct (G6 x Hx) as (f & Hfrom & Hlead). apply list_elem_of_In, in_map_iff in Hfrom as (t & <- & Ht). apply list_elem_of_In, Hf in Ht.
      eapply leads_trans; [|exact Hlead]. eapply leads_on; [constructor|exact Es|exact Ht].
  - cbn [drawn flat_map app]. rewrite !bind_app, !bind_singleton.
    assert (state_labels name = map (label s) (ss_transitions s)) as -> by (unfold state_labels; now rewrite Es).
    assert ((match loops with [] => [] | _ => [Repeat (Choice loops) Empty] end ≫= drawn) = map (label s) (List.filter (is_self_loop s) (ss_transitions s))) as ->.
    { rewrite <- DL. destruct loops as [|l loops]; [done|]. rewrite bind_singleton. cbn [drawn]. now rewrite app_nil_r. }
    assert (drawn (match nodes with [] => Terminal "end" | _ => Choice nodes end) = flat_map drawn nodes) as -> by now destruct nodes.
    rewrite D, <- (filter_split (label s) (is_self_loop s) (ss_transitions s)), (assoc_L (++)). apply Permutation_app_comm.
Qed.

Lemma railroad_ok initial : initial ∈ names ->
  exists node expanded, railroad_state_node (S (length states)) initial [] = Ok (node, expanded) /\ NoDup expanded /\
    (forall x, x ∈ expanded <-> leads initial x) /\ drawn node ≡ₚ (expanded ≫= state_labels).
Proof.
  intros Hi. destruct (railroad_visits (S (length states)) initial [] Hi) as (node & e & new & E & [G1 G2 G3 G4 G5 G6] & D);
    [constructor|intros x Hx; now apply elem_of_nil in Hx|cbn; lia|].
  rewrite app_nil_r in G1. subst new. exists node, e. split_and!; try done. intros x. split.
  - intros Hx. destruct (G6 x Hx) as (f & ->%list_elem_of_singleton & H). done.
  - induction 1 as [|b s t _ IH Hs Ht]; [apply G4; left|]. now apply (G5 b s t).
Qed.
End Accepted.
End Diagram.

(** ** The diagram of an accepted declaration *)

Lemma validate_choices {I E} (p : Protocol I E) : validate p = Ok tt -> Forall (fun s => validate_choice s = Ok tt) (Fsm.states p).
Proof.
  unfold validate. destruct (negb (messages p) && _); [done|]. destruct (negb (mem _ _)); [done|].
  generalize (map name (Fsm.states p)) as declared. intros declared. induction (Fsm.states p) as [|s ss IH]; intros H; [constructor|].
  cbn [validate_states] in H. destruct (validate_choice s) as [[]| |] eqn:Ec; [|done..].
  destruct (validate_transitions declared [] (transitions s)) as [[]| |]; [|done..]. constructor; auto.
Qed.
Lemma validate_choice_directed {I E} (s : State I E) t : validate_choice s = Ok tt -> t ∈ transitions s -> t_choice t <> Some Mixed -> choice_of s t <> Mixed.
Proof.
  unfold validate_choice, choice_of. intros H Ht Hm. destruct (t_choice t) as [[]|] eqn:Et; cbn; [done..|]. destruct (s_choice s); [done..|].
  destruct (existsb _ _) eqn:Ex; [done|]. exfalso. apply not_true_iff_false in Ex. apply Ex, existsb_exists. exists t. rewrite <- list_elem_of_In, Et. done.
Qed.

Section Declared.
Context {Path Pat Visibility I E : Type} (render : Ty -> string) (denote_internal : Pat -> I -> bool) (denote_external : Pat -> E -> bool).
Context (p : SynProtocol Path Pat Visibility).
Let grammar : Protocol I E := grammar_of denote_internal denote_external p.
Hypothesis valid : validate grammar = Ok tt.
(** The parser reads only [internal] and [external] before an event. *)
Hypothesis parsed : forall s t, s ∈ sp_states p -> t ∈ ss_transitions s -> st_choice t <> Some Mixed.

Lemma grammar_names : map name (Fsm.states grammar) = names (sp_states p).
Proof. unfold grammar, grammar_of, names. cbn [Fsm.states]. rewrite map_map. done. Qed.
Lemma grammar_state s : s ∈ sp_states p -> denote_state denote_internal denote_external s ∈ Fsm.states grammar.
Proof. intros Hs. apply list_elem_of_In, in_map. now apply list_elem_of_In. Qed.
Lemma grammar_transition s t : t ∈ ss_transitions s ->
  denote_transition denote_internal denote_external s t ∈ transitions (denote_state denote_internal denote_external s).
Proof. intros Ht. apply list_elem_of_In, in_map. now apply list_elem_of_In. Qed.

Lemma declared_targets s t : s ∈ sp_states p -> t ∈ ss_transitions s -> st_target t ∈ names (sp_states p).
Proof.
  intros Hs Ht. destruct (validate_inv grammar valid) as [_ H]. rewrite Forall_forall in H. specialize (H _ (grammar_state s Hs)).
  rewrite Forall_forall, grammar_names in H. exact (H _ (grammar_transition s t Ht)).
Qed.
Lemma declared_directed s t : s ∈ sp_states p -> t ∈ ss_transitions s -> default (ss_choice s) (st_choice t) <> Mixed.
Proof.
  intros Hs Ht. pose proof (validate_choices grammar valid) as H. rewrite Forall_forall in H. specialize (H _ (grammar_state s Hs)).
  exact (validate_choice_directed _ _ H (grammar_transition s t Ht) (parsed s t Hs Ht)).
Qed.

Lemma diagram_drawn : exists node, railroad render (sp_states p) (sp_initial p) = Ok (Sequence [Start; node; End]).
Proof.
  destruct (railroad_ok render (sp_states p) declared_targets declared_directed (sp_initial p)) as (node & e & E1 & _).
  { rewrite <- grammar_names. exact (proj1 (validate_inv grammar valid)). }
  exists node. unfold railroad. now rewrite E1.
Qed.

Hypothesis named : well_named grammar.
Lemma state_named_of s : s ∈ sp_states p -> state_named (sp_states p) (ss_name s) = Some s.
Proof.
  intros Hs. unfold state_named. apply (find_named (fun s => ss_name s)).
  - apply (NoDup_Permutation_proper _ (names (sp_states p))); [unfold names; now rewrite map_rev, <- Permutation_rev|].
    rewrite <- grammar_names. apply named.
  - apply list_elem_of_In, in_rev. now rewrite rev_involutive, <- list_elem_of_In.
Qed.

Lemma leads_reachable x : leads (sp_states p) (sp_initial p) x <-> reachable grammar x.
Proof.
  split.
  - induction 1 as [|b s t _ IH Hs Ht]; [apply (reach_initial grammar)|]. destruct (state_named_in _ _ _ Hs) as [Hin <-].
    apply (reach_step grammar (ss_name s) (st_event t) (st_target t) IH).
    set (d := denote_transition denote_internal denote_external s t).
    assert (describe grammar (denote_state denote_internal denote_external s) d ∈ TRANSITIONS grammar) as Hr.
    { apply TRANSITIONS_in. exists (denote_state denote_internal denote_external s), d. split_and!; [now apply grammar_state|now apply grammar_transition|done]. }
    exists (describe grammar (denote_state denote_internal denote_external s) d). split; [|done].
    exact (transition_unique grammar _ (proj1 (proj2 named)) Hr).
  - induction 1 as [|s e t _ IH (r & Er & <-)]; [constructor|]. apply transition_in in Er as ((st & tr & Hst & Htr & ->)%TRANSITIONS_in & <- & _).
    apply list_elem_of_In, in_map_iff in Hst as (s' & <- & Hs'). apply list_elem_of_In in Hs'.
    apply list_elem_of_In, in_map_iff in Htr as (t' & <- & Ht'). apply list_elem_of_In in Ht'.
    cbn [describe r_target target denote_transition]. apply (leads_on _ _ (ss_name s') s' t'); [exact IH|now apply state_named_of|done].
Qed.

Lemma diagram_ok : exists node expanded, railroad render (sp_states p) (sp_initial p) = Ok (Sequence [Start; node; End]) /\ NoDup expanded /\
  (forall x, x ∈ expanded <-> reachable grammar x) /\ drawn node ≡ₚ (expanded ≫= state_labels render (sp_states p)).
Proof.
  destruct (railroad_ok render (sp_states p) declared_targets declared_directed (sp_initial p)) as (node & e & E1 & Hn & He & D).
  { rewrite <- grammar_names. exact (proj1 (validate_inv grammar valid)). }
  exists node, e. unfold railroad. rewrite E1. split_and!; try done. intros x. rewrite He. apply leads_reachable.
Qed.
End Declared.

(** The diagram of an accepted declaration is drawn without panic and within its fuel. It
    expands every phase the machine can reach, and no other, exactly once, and shows every
    transition of these phases exactly once. *)
Theorem diagram_complete {Path Pat Visibility I E} render (denote_internal : Pat -> I -> bool) (denote_external : Pat -> E -> bool)
    (p : SynProtocol Path Pat Visibility) :
  well_named (grammar_of denote_internal denote_external p) ->
  (forall s t, s ∈ sp_states p -> t ∈ ss_transitions s -> st_choice t <> Some Mixed) ->
  exists node expanded, railroad render (sp_states p) (sp_initial p) = Ok (Sequence [Start; node; End]) /\ NoDup expanded /\
    (forall x, x ∈ expanded <-> reachable (grammar_of denote_internal denote_external p) x) /\
    drawn node ≡ₚ (expanded ≫= state_labels render (sp_states p)).
Proof. intros H Hp. exact (diagram_ok render denote_internal denote_external p (proj2 (proj2 H)) Hp H). Qed.

Lemma diagram_complete_witness :
  exists node expanded, railroad sample_render (sp_states sample_declaration) "Idle" = Ok (Sequence [Start; node; End]) /\
    NoDup expanded /\ drawn node ≡ₚ (expanded ≫= state_labels sample_render (sp_states sample_declaration)).
Proof.
  destruct (diagram_complete sample_render (fun (_ : string) (_ : unit) => true) (fun (_ : string) (_ : unit) => true) sample_declaration) as (n & e & H1 & H2 & _ & H3).
  - apply well_named_check; vm_compute; reflexivity.
  - intros s t Hs Ht. repeat (apply elem_of_cons in Hs as [->|Hs]); [..|now apply elem_of_nil in Hs];
      apply list_elem_of_singleton in Ht; subst t; discriminate.
  - exists n, e. split; [exact H1|]. split; [exact H2|exact H3].
Defined.
