(* ===== verification/FsmParse.v ===== *)
(** The parser of protocol declarations: the [Parse] implementations of
    pg-proto-fsm/src/lib.rs over the token trees a procedural macro receives. The parsers
    of Rust types, paths, patterns and visibilities are syn's and are parameters. What a
    parser leaves of a delimited group makes the whole parse fail, as syn does. *)

From Stdlib Require Import ZArith Lia String Ascii.
From stdpp Require Import prelude strings.
From S2P Require Import Prelude Fsm FsmTyped FsmSyntax FsmDiagram.
Local Open Scope string_scope.

(** ** Tokens *)

Inductive Delimiter : Type := Parenthesis | Brace | Bracket.
#[global] Instance Delimiter_eq_dec : EqDecision Delimiter.
Proof. solve_decision. Defined.

(** A punctuation character is joint when another one follows immediately. *)
Inductive TokenTree : Type :=
| TIdent (name : string)
| TPunct (c : ascii) (joint : bool)
| TLiteral (text : string)
| TGroup (d : Delimiter) (tokens : list TokenTree).

(** An error of the library, by what was expected, or one the compiler words itself. *)
Inductive ParseError : Type := Expected (what : string) | Message (text : string).

(** ** Parsers *)

(** The rest of the input, and whether a group was left with unread tokens. *)
Record Input : Type := mkInput { rest : list TokenTree; unexpected : bool }.
Definition P (A : Type) : Type := Input -> result (A * Input) ParseError.

#[global] Instance P_ret : MRet P := fun A a i => Ok (a, i).
#[global] Instance P_bind : MBind P := fun A B f m i => match m i with Ok (a, i) => f a i | Err e => Err e | Panic => Panic end.

Definition fail {A} (text : string) : P A := fun _ => Err (Message text).
Definition is_empty : P bool := fun i => Ok (match rest i with [] => true | _ => false end, i).

(** [parse::<keyword>] and [peek] of a word *)
Definition starts_word (k : string) (ts : list TokenTree) : bool := match ts with TIdent n :: _ => bool_decide (n = k) | _ => false end.
Definition word (k : string) : P unit := fun i =>
  if starts_word k (rest i) then Ok (tt, mkInput (tl (rest i)) (unexpected i)) else Err (Expected k).
Definition peek_word (k : string) : P bool := fun i => Ok (starts_word k (rest i), i).

(** [parse::<Token![..]>] of punctuation: all characters but the last are joint. *)
Fixpoint strip_punct (chars : list ascii) (ts : list TokenTree) : option (list TokenTree) :=
  match chars, ts with
  | [], _ => Some ts
  | [c], TPunct d _ :: ts => if Ascii.eqb c d then Some ts else None
  | c :: chars, TPunct d joint :: ts => if Ascii.eqb c d && joint then strip_punct chars ts else None
  | _, _ => None
  end.
Definition punct (p : string) : P unit := fun i =>
  match strip_punct (list_ascii_of_string p) (rest i) with Some ts => Ok (tt, mkInput ts (unexpected i)) | None => Err (Expected p) end.
Definition peek_punct (p : string) : P bool := fun i => Ok (is_some (strip_punct (list_ascii_of_string p) (rest i)), i).

Definition peek_group (d : Delimiter) : P bool := fun i => Ok (match rest i with TGroup d' _ :: _ => bool_decide (d' = d) | _ => false end, i).

(** [braced!], [bracketed!] and [parenthesized!] with the parser of the content. *)
Definition group {A} (d : Delimiter) (m : P A) : P A := fun i =>
  match rest i with
  | TGroup d' inner :: ts =>
      if bool_decide (d' = d) then
        match m (mkInput inner (unexpected i)) with
        | Ok (a, over) => Ok (a, mkInput ts (unexpected over || negb (bool_decide (length (rest over) = 0%nat))))
        | Err e => Err e
        | Panic => Panic
        end
      else Err (Expected "group")
  | _ => Err (Expected "group")
  end.

(** [parse_terminated(parse, Token![,])]: until the input is empty. Fuel is the number of
    tokens and one. *)
Fixpoint terminated_loop {A} (m : P A) (fuel : nat) : P (list A) := fun i =>
  match fuel, rest i with
  | _, [] => Ok ([], i)
  | O, _ => Panic
  | S fuel, _ =>
      match m i with
      | Ok (a, i) =>
          match rest i with
          | [] => Ok ([a], i)
          | _ => (_ ← punct ","; more ← terminated_loop m fuel; mret (a :: more)) i
          end
      | Err e => Err e
      | Panic => Panic
      end
  end.
Definition parse_terminated {A} (m : P A) : P (list A) := fun i => terminated_loop m (S (length (rest i))) i.

(** [while !content.is_empty() { states.push(content.parse()?) }] *)
Fixpoint many_loop {A} (m : P A) (fuel : nat) : P (list A) := fun i =>
  match fuel, rest i with
  | _, [] => Ok ([], i)
  | O, _ => Panic
  | S fuel, _ => (a ← m; more ← many_loop m fuel; mret (a :: more)) i
  end.
Definition many {A} (m : P A) : P (list A) := fun i => many_loop m (S (length (rest i))) i.

(** ** Declarations *)

Section Parser.
Context {Path Pat Visibility : Type}.
(** syn: which words are identifiers, and the parsers of Rust syntax. *)
Context (accept_as_ident : string -> bool).
Context (syn_type : list TokenTree -> result (Ty * list TokenTree) ParseError).
Context (syn_path : list TokenTree -> result (Path * list TokenTree) ParseError).
Context (syn_pat : list TokenTree -> result (Pat * list TokenTree) ParseError).
Context (syn_visibility : list TokenTree -> result (Visibility * list TokenTree) ParseError).

Definition lift {A} (f : list TokenTree -> result (A * list TokenTree) ParseError) : P A := fun i =>
  match f (rest i) with Ok (a, ts) => Ok (a, mkInput ts (unexpected i)) | Err e => Err e | Panic => Panic end.
Definition parse_type : P Ty := lift syn_type.

Definition ident : P string := fun i =>
  match rest i with
  | TIdent n :: ts => if accept_as_ident n then Ok (n, mkInput ts (unexpected i)) else Err (Expected "identifier")
  | _ => Err (Expected "identifier")
  end.

Definition parse_messages : P (option MessageTypes) :=
  present ← peek_word "messages";
  if (present : bool) then
    _ ← word "messages";
    m ← group Brace (
      internal_name ← ident;
      if bool_decide (internal_name = "internal") then
        _ ← punct ":"; internal ← parse_type; _ ← punct ",";
        external_name ← ident;
        if bool_decide (external_name = "external") then
          _ ← punct ":"; external ← parse_type;
          comma ← peek_punct ",";
          _ ← (if (comma : bool) then punct "," else mret tt);
          mret (mkMessageTypes internal external)
        else fail "expected `external`"
      else fail "expected `internal`");
    mret (Some m)
  else mret None.

Definition field {A} (k : string) (m : P A) : P A := _ ← word k; _ ← punct ":"; a ← m; _ ← punct ";"; mret a.

Definition parse_lane : P AssociationLane :=
  group Brace (
    d ← field "direction" parse_type; r ← field "role" parse_type; w ← field "wire" parse_type; m ← field "message" parse_type;
    done_ ← is_empty;
    if (done_ : bool) then mret (mkLane d r w m) else fail "unexpected association lane configuration").

Definition parse_associations : P (Associations Path) :=
  _ ← word "associations";
  group Brace (
    interface ← field "interface" (lift syn_path); seal ← field "seal" (lift syn_path);
    _ ← word "inbound"; inbound ← parse_lane; _ ← word "outbound"; outbound ← parse_lane;
    done_ ← is_empty;
    if (done_ : bool) then mret (mkAssociations interface seal inbound outbound) else fail "unexpected association configuration").

Definition parse_association_types : P (list Ty) :=
  none ← peek_word "none";
  if (none : bool) then _ ← word "none"; mret []
  else
    list ← peek_group Bracket;
    if (list : bool) then
      group Bracket (types ← parse_terminated parse_type;
                     match types with [] => fail "association list cannot be empty; use `none`" | _ => mret types end)
    else ty ← parse_type; mret [ty].

Definition parse_state_associations : P StateAssociations :=
  _ ← word "associate";
  group Brace (
    i ← field "inbound" parse_association_types; o ← field "outbound" parse_association_types;
    done_ ← is_empty;
    if (done_ : bool) then mret (mkStateAssociations i o) else fail "unexpected state association").

Definition parse_transition : P (SynTransition Pat) :=
  first ← ident;
  '(choice, event) ← (if bool_decide (first = "internal") then event ← ident; mret (Some Internal, event)
                      else if bool_decide (first = "external") then event ← ident; mret (Some External, event)
                      else mret (None, first));
  '(method, payload) ← group Parenthesis (
      method ← ident;
      colon ← peek_punct ":";
      payload ← (if (colon : bool) then _ ← punct ":"; ty ← parse_type; mret (Some ty) else mret None);
      done_ ← is_empty;
      if (done_ : bool) then mret (method, payload) else fail "unexpected transition method tokens");
  _ ← punct "=>";
  target ← ident;
  bracket ← peek_group Bracket;
  cleanliness ← (if (bracket : bool) then c ← group Bracket ident; mret (Some c) else mret None);
  arrow ← peek_punct "<=";
  projection ← (if (arrow : bool) then _ ← punct "<="; pat ← lift syn_pat; mret (Some pat) else mret None);
  mret (mkSynTransition choice event method payload target cleanliness projection).

Definition parse_state : P (SynState Pat) :=
  name ← ident;
  choice_name ← ident;
  choice ← (if bool_decide (choice_name = "internal") then mret Internal
            else if bool_decide (choice_name = "external") then mret External
            else if bool_decide (choice_name = "mixed") then mret Mixed
            else fail "expected `internal`, `external`, or `mixed` choice");
  group Brace (
    associate ← peek_word "associate";
    associations ← (if (associate : bool) then a ← parse_state_associations; mret (Some a) else mret None);
    transitions ← parse_terminated parse_transition;
    mret (mkSynState name choice transitions associations)).

Definition parse_protocol : P (SynProtocol Path Pat Visibility) :=
  visibility ← lift syn_visibility;
  _ ← word "mod";
  module ← ident;
  group Brace (
    _ ← word "initial"; initial ← ident; _ ← punct ";";
    messages ← parse_messages;
    present ← peek_word "associations";
    associations ← (if (present : bool) then a ← parse_associations; mret (Some a) else mret None);
    states ← many parse_state;
    mret (mkSynProtocol visibility module initial messages associations states)).

(** [parse_macro_input!]: nothing is left, of the input or of a group. *)
Definition parse_declaration (tokens : list TokenTree) : result (SynProtocol Path Pat Visibility) ParseError :=
  let? (p, over) := parse_protocol (mkInput tokens false) in
  if unexpected over || negb (bool_decide (length (rest over) = 0%nat)) then Err (Expected "end of input") else Ok p.
End Parser.

(** ** Totality *)

(** A parser never panics and never returns more input than it was given; a consuming one
    returns less. *)
Definition sound {A} (m : P A) : Prop :=
  forall i, match m i with Ok (_, o) => (length (rest o) <= length (rest i))%nat | Err _ => True | Panic => False end.
Definition consumes {A} (m : P A) : Prop :=
  forall i, match m i with Ok (_, o) => (length (rest o) < length (rest i))%nat | Err _ => True | Panic => False end.

Create HintDb parsers discriminated.

Lemma consumes_sound {A} (m : P A) : consumes m -> sound m.
Proof. intros H i. specialize (H i). destruct (m i) as [[]| |]; [lia|done..]. Qed.
Lemma sound_ret {A} (a : A) : sound (mret a).
Proof. intros i. cbn. lia. Qed.
Lemma sound_fail {A} text : sound (@fail A text).
Proof. intros i. done. Qed.
Lemma sound_bind {A B} (m : P A) (f : A -> P B) : sound m -> (forall a, sound (f a)) -> sound (m ≫= f).
Proof.
  intros Hm Hf i. specialize (Hm i). unfold mbind, P_bind. destruct (m i) as [[a o]| |]; [|done..]. specialize (Hf a o).
  destruct (f a o) as [[]| |]; [lia|done..].
Qed.
Lemma consumes_bind {A B} (m : P A) (f : A -> P B) : consumes m -> (forall a, sound (f a)) -> consumes (m ≫= f).
Proof.
  intros Hm Hf i. specialize (Hm i). unfold mbind, P_bind. destruct (m i) as [[a o]| |]; [|done..]. specialize (Hf a o).
  destruct (f a o) as [[]| |]; [lia|done..].
Qed.
Lemma sound_if {A} (b : bool) (m n : P A) : sound m -> sound n -> sound (if b then m else n).
Proof. now destruct b. Qed.
Lemma sound_pair {A B C} (x : A * B) (f : A -> B -> P C) : (forall a b, sound (f a b)) -> sound (let '(a, b) := x in f a b).
Proof. destruct x. eauto. Qed.
Lemma sound_types (types : list Ty) (m : P (list Ty)) : sound m -> sound (match types with [] => m | _ => mret types end).
Proof. destruct types; [done|]. intros _. apply sound_ret. Qed.

Lemma sound_is_empty : sound is_empty.
Proof. intros i. cbn. lia. Qed.
Lemma sound_peek_word k : sound (peek_word k).
Proof. intros i. cbn. lia. Qed.
Lemma sound_peek_punct p : sound (peek_punct p).
Proof. intros i. cbn. lia. Qed.
Lemma sound_peek_group d : sound (peek_group d).
Proof. intros i. cbn. lia. Qed.
Lemma consumes_word k : consumes (word k).
Proof. intros i. unfold word. destruct (rest i) as [|[n| | |] ts]; cbn; try done. destruct (bool_decide _); [cbn; lia|done]. Qed.
Lemma strip_punct_length chars : forall ts ts', strip_punct chars ts = Some ts' -> (length ts' <= length ts)%nat.
Proof.
  induction chars as [|c chars IH]; intros ts ts' H; [injection H as <-; done|]. destruct ts as [|[|d j| |] ts]; try (destruct chars; discriminate H).
  destruct chars as [|c' chars]; cbn [strip_punct] in H; [destruct (Ascii.eqb c d); [injection H as <-; cbn; lia|done]|].
  destruct (Ascii.eqb c d && j); [|done]. apply IH in H. cbn. lia.
Qed.
Lemma sound_punct p : sound (punct p).
Proof.
  intros i. unfold punct. destruct (strip_punct _ (rest i)) as [ts|] eqn:E; [|done]. now apply strip_punct_length in E.
Qed.
Lemma consumes_ident accept : consumes (ident accept).
Proof. intros i. unfold ident. destruct (rest i) as [|[n| | |] ts] eqn:E; try done. destruct (accept n); [cbn; lia|done]. Qed.
Lemma consumes_group {A} d (m : P A) : sound m -> consumes (group d m).
Proof.
  intros Hm i. unfold group. destruct (rest i) as [|[| | |d' inner] ts]; try done. destruct (bool_decide _); [|done].
  specialize (Hm (mkInput inner (unexpected i))). destruct (m _) as [[]| |]; [cbn; lia|done..].
Qed.
Lemma sound_lift {A} (f : list TokenTree -> result (A * list TokenTree) ParseError) :
  (forall ts, match f ts with Ok (_, ts') => (length ts' <= length ts)%nat | Err _ => True | Panic => False end) -> sound (lift f).
Proof. intros H i. unfold lift. specialize (H (rest i)). destruct (f (rest i)) as [[]| |]; done. Qed.

Lemma terminated_loop_sound {A} (m : P A) fuel : sound m -> (forall i, rest i <> [] -> match m i with Ok (_, o) => (length (rest o) < length (rest i))%nat | _ => True end) ->
  forall i, (length (rest i) < fuel)%nat -> match terminated_loop m fuel i with Ok (_, o) => (length (rest o) <= length (rest i))%nat | Err _ => True | Panic => False end.
Proof.
  intros Hs Hc. induction fuel as [|fuel IH]; intros i Hl; [lia|]. cbn [terminated_loop]. destruct (rest i) as [|t ts] eqn:Ei; [cbn; rewrite Ei; cbn; lia|].
  rewrite <- Ei in *. specialize (Hs i). specialize (Hc i ltac:(rewrite Ei; done)). destruct (m i) as [[a o]| |]; [|done..].
  destruct (rest o) as [|t' ts'] eqn:Eo; [cbn; rewrite Eo; cbn; lia|]. rewrite <- Eo in *. unfold mbind, P_bind. pose proof (sound_punct "," o) as Hp.
  destruct (punct "," o) as [[u o']| |]; [|done..]. specialize (IH o' ltac:(lia)). destruct (terminated_loop m fuel o') as [[l o'']| |]; [cbn; lia|done..].
Qed.
Lemma sound_terminated {A} (m : P A) : consumes m -> sound (parse_terminated m).
Proof.
  intros H i. unfold parse_terminated. apply terminated_loop_sound; [now apply consumes_sound| |lia].
  intros j _. specialize (H j). now destruct (m j) as [[]| |].
Qed.
Lemma many_loop_sound {A} (m : P A) fuel : consumes m -> forall i, (length (rest i) < fuel)%nat ->
  match many_loop m fuel i with Ok (_, o) => (length (rest o) <= length (rest i))%nat | Err _ => True | Panic => False end.
Proof.
  intros Hm. induction fuel as [|fuel IH]; intros i Hl; [lia|]. cbn [many_loop]. destruct (rest i) as [|t ts] eqn:Ei; [cbn; rewrite Ei; cbn; lia|].
  rewrite <- Ei in *. unfold mbind, P_bind. specialize (Hm i). destruct (m i) as [[a o]| |]; [|done..]. specialize (IH o ltac:(lia)).
  destruct (many_loop m fuel o) as [[l o']| |]; [cbn; lia|done..].
Qed.
Lemma sound_many {A} (m : P A) : consumes m -> sound (many m).
Proof. intros H i. apply many_loop_sound; [done|lia]. Qed.

#[export] Hint Resolve consumes_word consumes_ident consumes_group consumes_bind : parsers.
#[export] Hint Resolve sound_ret sound_fail sound_bind sound_if sound_pair sound_types sound_is_empty sound_peek_word sound_peek_punct sound_peek_group
  sound_punct sound_terminated sound_many : parsers.
#[export] Hint Resolve consumes_sound | 5 : parsers.

Section Totality.
Context {Path Pat Visibility : Type} (accept_as_ident : string -> bool).
Context (syn_type : list TokenTree -> result (Ty * list TokenTree) ParseError) (syn_path : list TokenTree -> result (Path * list TokenTree) ParseError).
Context (syn_pat : list TokenTree -> result (Pat * list TokenTree) ParseError) (syn_visibility : list TokenTree -> result (Visibility * list TokenTree) ParseError).
(** syn's parsers return errors, not panics, and the input they leave is a part of theirs;
    a type has at least one token. *)
Definition reads {A} (f : list TokenTree -> result (A * list TokenTree) ParseError) : Prop :=
  forall ts, match f ts with Ok (_, ts') => (length ts' <= length ts)%nat | Err _ => True | Panic => False end.
Hypothesis type_reads : forall ts, match syn_type ts with Ok (_, ts') => (length ts' < length ts)%nat | Err _ => True | Panic => False end.
Hypothesis path_reads : reads syn_path.
Hypothesis pat_reads : reads syn_pat.
Hypothesis visibility_reads : reads syn_visibility.

Lemma consumes_type : consumes (parse_type syn_type).
Proof. intros i. unfold parse_type, lift. specialize (type_reads (rest i)). destruct (syn_type (rest i)) as [[]| |]; done. Qed.
Lemma sound_path : sound (lift syn_path).
Proof. now apply sound_lift. Qed.
Lemma sound_pat : sound (lift syn_pat).
Proof. now apply sound_lift. Qed.
Lemma sound_visibility : sound (lift syn_visibility).
Proof. now apply sound_lift. Qed.
#[local] Hint Resolve consumes_type sound_path sound_pat sound_visibility : parsers.

Lemma sound_field {A} k (m : P A) : sound m -> sound (field k m).
Proof. intros H. unfold field. eauto 10 with parsers. Qed.
#[local] Hint Resolve sound_field : parsers.

Lemma sound_messages : sound (parse_messages accept_as_ident syn_type).
Proof. unfold parse_messages. eauto 40 with parsers. Qed.
Lemma sound_lane : sound (parse_lane syn_type).
Proof. unfold parse_lane. eauto 40 with parsers. Qed.
#[local] Hint Resolve sound_messages sound_lane : parsers.
Lemma sound_associations : sound (parse_associations syn_type syn_path).
Proof. unfold parse_associations. eauto 40 with parsers. Qed.
Lemma sound_association_types : sound (parse_association_types syn_type).
Proof. unfold parse_association_types. eauto 40 with parsers. Qed.
#[local] Hint Resolve sound_associations sound_association_types : parsers.
Lemma sound_state_associations : sound (parse_state_associations syn_type).
Proof. unfold parse_state_associations. eauto 40 with parsers. Qed.
#[local] Hint Resolve sound_state_associations : parsers.
Lemma consumes_transition : consumes (parse_transition accept_as_ident syn_type syn_pat).
Proof.
  unfold parse_transition. apply consumes_bind; [auto with parsers|]. intros first. apply sound_bind; [eauto 20 with parsers|]. intros [choice event].
  apply sound_bind; [eauto 30 with parsers|]. intros [method payload]. eauto 40 with parsers.
Qed.
#[local] Hint Resolve consumes_transition : parsers.
Lemma consumes_state : consumes (parse_state accept_as_ident syn_type syn_pat).
Proof. unfold parse_state. eauto 40 with parsers. Qed.
#[local] Hint Resolve consumes_state : parsers.
Lemma sound_protocol : sound (parse_protocol accept_as_ident syn_type syn_path syn_pat syn_visibility).
Proof. unfold parse_protocol. eauto 40 with parsers. Qed.

(** Parsing any token stream ends with a declaration or an error. *)
Lemma parse_total tokens : parse_declaration accept_as_ident syn_type syn_path syn_pat syn_visibility tokens <> Panic.
Proof.
  unfold parse_declaration. pose proof (sound_protocol (mkInput tokens false)) as H.
  destruct (parse_protocol _ _ _ _ _ _) as [[p over]| |]; [|done..]. now destruct (unexpected over || _).
Qed.
End Totality.

(** ** What is parsed *)

(** Every result of a parser satisfies a predicate. *)
Definition yields {A} (m : P A) (Q : A -> Prop) : Prop := forall i a o, m i = Ok (a, o) -> Q a.

Lemma yields_bind {A B} (m : P A) (f : A -> P B) Q : (forall a, yields (f a) Q) -> yields (m ≫= f) Q.
Proof. intros H i b o. unfold mbind, P_bind. destruct (m i) as [[a i']| |]; [|done..]. apply H. Qed.
Lemma yields_bind_when {A B} (m : P A) (f : A -> P B) R Q : yields m R -> (forall a, R a -> yields (f a) Q) -> yields (m ≫= f) Q.
Proof. intros Hm H i b o. unfold mbind, P_bind. destruct (m i) as [[a i']| |] eqn:E; [|done..]. apply H. exact (Hm _ _ _ E). Qed.
Lemma yields_ret {A} (a : A) (Q : A -> Prop) : Q a -> yields (mret a) Q.
Proof. intros H i b o [= <- _]. done. Qed.
Lemma yields_group {A} d (m : P A) Q : yields m Q -> yields (group d m) Q.
Proof.
  intros H i a o. unfold group. destruct (rest i) as [|[| | |d' inner] ts]; try done. destruct (bool_decide _); [|done].
  destruct (m _) as [[b over]| |] eqn:E; [|done..]. intros [= <- _]. exact (H _ _ _ E).
Qed.
Lemma yields_terminated {A} (m : P A) Q : yields m Q -> yields (parse_terminated m) (Forall Q).
Proof.
  intros H i. unfold parse_terminated. generalize (S (length (rest i))) as fuel. intros fuel. revert i.
  induction fuel as [|fuel IH]; intros i l o; cbn [terminated_loop]; (destruct (rest i); [intros [= <- _]; now apply Forall_nil_2|]); [done|].
  destruct (m i) as [[a o1]| |] eqn:E; [|done..]. apply H in E. destruct (rest o1); [intros [= <- _]; now repeat constructor|].
  unfold mbind, P_bind. destruct (punct "," o1) as [[u o2]| |]; [|done..]. destruct (terminated_loop m fuel o2) as [[l' o3]| |] eqn:E2; [|done..].
  intros [= <- _]. constructor; [done|]. exact (IH _ _ _ E2).
Qed.
Lemma yields_many {A} (m : P A) Q : yields m Q -> yields (many m) (Forall Q).
Proof.
  intros H i. unfold many. generalize (S (length (rest i))) as fuel. intros fuel. revert i.
  induction fuel as [|fuel IH]; intros i l o; cbn [many_loop]; (destruct (rest i); [intros [= <- _]; now apply Forall_nil_2|]); [done|].
  unfold mbind, P_bind. destruct (m i) as [[a o1]| |] eqn:E; [|done..]. destruct (many_loop m fuel o1) as [[l' o2]| |] eqn:E2; [|done..].
  intros [= <- _]. constructor; [exact (H _ _ _ E)|exact (IH _ _ _ E2)].
Qed.

Section Parsed.
Context {Path Pat Visibility : Type} (accept_as_ident : string -> bool).
Context (syn_type : list TokenTree -> result (Ty * list TokenTree) ParseError) (syn_path : list TokenTree -> result (Path * list TokenTree) ParseError).
Context (syn_pat : list TokenTree -> result (Pat * list TokenTree) ParseError) (syn_visibility : list TokenTree -> result (Visibility * list TokenTree) ParseError).

Definition directed_transition (t : SynTransition Pat) : Prop := st_choice t <> Some Mixed.

Lemma transition_directed : yields (parse_transition accept_as_ident syn_type syn_pat) directed_transition.
Proof.
  unfold parse_transition. apply yields_bind. intros first. apply yields_bind_when with (R := fun c => c.1 <> Some Mixed).
  - destruct (bool_decide _); [apply yields_bind; intros e; now apply yields_ret|]. destruct (bool_decide _); [apply yields_bind; intros e|]; now apply yields_ret.
  - intros [choice event] Hc. apply yields_bind. intros [method payload]. do 6 (apply yields_bind; intros ?). now apply yields_ret.
Qed.
Lemma state_directed : yields (parse_state accept_as_ident syn_type syn_pat) (fun s => Forall directed_transition (ss_transitions s)).
Proof.
  unfold parse_state. do 3 (apply yields_bind; intros ?). apply yields_group. do 2 (apply yields_bind; intros ?).
  eapply yields_bind_when; [apply yields_terminated, transition_directed|]. intros ts Hts. now apply yields_ret.
Qed.
Lemma protocol_directed : yields (parse_protocol accept_as_ident syn_type syn_path syn_pat syn_visibility)
  (fun p => Forall (fun s => Forall directed_transition (ss_transitions s)) (sp_states p)).
Proof.
  unfold parse_protocol. do 3 (apply yields_bind; intros ?). apply yields_group. do 6 (apply yields_bind; intros ?).
  eapply yields_bind_when; [apply yields_many, state_directed|]. intros ss Hss. now apply yields_ret.
Qed.

(** A parsed declaration has no undirected transition where it must have one. *)
Lemma parsed_directed tokens p : parse_declaration accept_as_ident syn_type syn_path syn_pat syn_visibility tokens = Ok p ->
  forall s t, s ∈ sp_states p -> t ∈ ss_transitions s -> st_choice t <> Some Mixed.
Proof.
  unfold parse_declaration. destruct (parse_protocol _ _ _ _ _ _) as [[q over]| |] eqn:E; [|done..].
  destruct (unexpected over || _); [done|]. intros [= <-] s t Hs Ht. apply protocol_directed in E. rewrite Forall_forall in E.
  specialize (E s Hs). rewrite Forall_forall in E. exact (E t Ht).
Qed.
End Parsed.
