(* ===== verification/FsmParseSpec.v ===== *)
(** What parsing a protocol declaration guarantees: a declaration that is written out is
    read back, parsing always ends, and a declaration that parses and validates yields a
    coherent set of implementations and a complete diagram. *)

From Stdlib Require Import ZArith Lia String Ascii.
From stdpp Require Import prelude strings.
From S2P Require Import Prelude Fsm FsmTyped FsmSyntax FsmDiagram FsmParse.
Local Open Scope string_scope.
Local Open Scope list_scope.

(** ** Writing declarations *)

Definition p1 (c : ascii) : TokenTree := TPunct c false.
Definition comma : TokenTree := p1 ",".
Definition semi : TokenTree := p1 ";".
Definition colon : TokenTree := p1 ":".

Fixpoint separated (l : list (list TokenTree)) : list TokenTree :=
  match l with [] => [] | [x] => x | x :: l => x ++ comma :: separated l end.

Section Writer.
Context {Path Pat Visibility : Type}.
Context (type_tokens : Ty -> list TokenTree) (path_tokens : Path -> list TokenTree) (pat_tokens : Pat -> list TokenTree).
Context (visibility_tokens : Visibility -> list TokenTree).

Definition write_messages (m : option MessageTypes) : list TokenTree :=
  match m with
  | Some m => [TIdent "messages"; TGroup Brace ([TIdent "internal"; colon] ++ type_tokens (internal m) ++
                [comma; TIdent "external"; colon] ++ type_tokens (external m))]
  | None => []
  end.
Definition write_field (k : string) (tokens : list TokenTree) : list TokenTree := [TIdent k; colon] ++ tokens ++ [semi].
Definition write_lane (l : AssociationLane) : list TokenTree :=
  [TGroup Brace (write_field "direction" (type_tokens (direction l)) ++ write_field "role" (type_tokens (role l)) ++
                 write_field "wire" (type_tokens (wire l)) ++ write_field "message" (type_tokens (message l)))].
Definition write_associations (a : option (Associations Path)) : list TokenTree :=
  match a with
  | Some a => [TIdent "associations"; TGroup Brace (write_field "interface" (path_tokens (interface a)) ++ write_field "seal" (path_tokens (seal a)) ++
                [TIdent "inbound"] ++ write_lane (inbound a) ++ [TIdent "outbound"] ++ write_lane (outbound a))]
  | None => []
  end.
Definition write_types (types : list Ty) : list TokenTree :=
  match types with [] => [TIdent "none"] | _ => [TGroup Bracket (separated (map type_tokens types))] end.
Definition write_state_associations (a : option StateAssociations) : list TokenTree :=
  match a with
  | Some a => [TIdent "associate"; TGroup Brace (write_field "inbound" (write_types (state_inbound a)) ++ write_field "outbound" (write_types (state_outbound a)))]
  | None => []
  end.
Definition choice_word (c : ChoiceKind) : string := match c with Internal => "internal" | External => "external" | Mixed => "mixed" end.
Definition write_transition (t : SynTransition Pat) : list TokenTree :=
  match st_choice t with Some c => [TIdent (choice_word c)] | None => [] end ++
  [TIdent (st_event t);
   TGroup Parenthesis (TIdent (st_method t) :: match st_payload t with Some ty => colon :: type_tokens ty | None => [] end);
   TPunct "=" true; p1 ">"; TIdent (st_target t)] ++
  match st_cleanliness t with Some c => [TGroup Bracket [TIdent c]] | None => [] end ++
  match st_projection t with Some pat => [TPunct "<" true; p1 "="] ++ pat_tokens pat | None => [] end.
Definition write_state (s : SynState Pat) : list TokenTree :=
  [TIdent (ss_name s); TIdent (choice_word (ss_choice s));
   TGroup Brace (write_state_associations (ss_associations s) ++ separated (map write_transition (ss_transitions s)))].
Definition write_protocol (p : SynProtocol Path Pat Visibility) : list TokenTree :=
  visibility_tokens (sp_visibility p) ++
  [TIdent "mod"; TIdent (sp_module p);
   TGroup Brace ([TIdent "initial"; TIdent (sp_initial p); semi] ++ write_messages (sp_messages p) ++ write_associations (sp_associations p) ++
                 (sp_states p ≫= write_state))].

(** ** Reading them back *)

Context (accept_as_ident : string -> bool).
Context (syn_type : list TokenTree -> result (Ty * list TokenTree) ParseError) (syn_path : list TokenTree -> result (Path * list TokenTree) ParseError).
Context (syn_pat : list TokenTree -> result (Pat * list TokenTree) ParseError) (syn_visibility : list TokenTree -> result (Visibility * list TokenTree) ParseError).

(** Where the grammar lets a type, a path or a pattern end. *)
Definition ends (ts : list TokenTree) : bool := match ts with [] => true | TPunct c _ :: _ => Ascii.eqb c "," || Ascii.eqb c ";" | _ => false end.

(** syn reads the tokens of a syntax tree back, where the tree may end. *)
Class SynLaws : Prop := {
  type_back ty ts : ends ts = true -> syn_type (type_tokens ty ++ ts) = Ok (ty, ts);
  type_nonempty ty : type_tokens ty <> [];
  path_back p ts : ends ts = true -> syn_path (path_tokens p ++ ts) = Ok (p, ts);
  pat_back p ts : ends ts = true -> syn_pat (pat_tokens p ++ ts) = Ok (p, ts);
  visibility_back v ts : syn_visibility (visibility_tokens v ++ TIdent "mod" :: ts) = Ok (v, TIdent "mod" :: ts);
  direction_words : accept_as_ident "internal" = true /\ accept_as_ident "external" = true /\ accept_as_ident "mixed" = true
}.

(** Declarations the notation can express: names are identifiers, an event is not mistaken
    for a direction, nor a first event or state for a keyword. *)
Definition writable_transition (t : SynTransition Pat) : Prop :=
  accept_as_ident (st_event t) = true /\ accept_as_ident (st_method t) = true /\ accept_as_ident (st_target t) = true /\
  (forall c, st_cleanliness t = Some c -> accept_as_ident c = true) /\
  match st_choice t with None => st_event t <> "internal" /\ st_event t <> "external" | Some Mixed => False | _ => True end.
Definition writable_state (s : SynState Pat) : Prop :=
  accept_as_ident (ss_name s) = true /\ Forall writable_transition (ss_transitions s) /\
  match ss_associations s, ss_transitions s with None, t :: _ => st_choice t = None -> st_event t <> "associate" | _, _ => True end.
Definition writable (p : SynProtocol Path Pat Visibility) : Prop :=
  accept_as_ident (sp_module p) = true /\ accept_as_ident (sp_initial p) = true /\ Forall writable_state (sp_states p) /\
  match sp_states p with s :: _ => ss_name s <> "messages" /\ ss_name s <> "associations" | [] => True end.

Context {laws : SynLaws}.

(** A parser reads exactly these tokens here. *)
Definition takes {A} (m : P A) (i o : Input) (a : A) : Prop := m i = Ok (a, o).

Lemma takes_bind {A B} (m : P A) (f : A -> P B) i i' o a b : takes m i i' a -> takes (f a) i' o b -> takes (m ≫= f) i o b.
Proof. unfold takes, mbind, P_bind. now intros ->. Qed.
Lemma takes_ret {A} (a : A) i : takes (mret a) i i a.
Proof. done. Qed.
Lemma takes_word k ts u : takes (word k) (mkInput (TIdent k :: ts) u) (mkInput ts u) tt.
Proof. unfold takes, word. cbn [rest starts_word]. now rewrite bool_decide_true by done. Qed.
Lemma takes_ident n ts u : accept_as_ident n = true -> takes (ident accept_as_ident) (mkInput (TIdent n :: ts) u) (mkInput ts u) n.
Proof. intros H. unfold takes, ident. cbn [rest]. now rewrite H. Qed.
Lemma takes_colon ts u : takes (punct ":") (mkInput (colon :: ts) u) (mkInput ts u) tt.
Proof. reflexivity. Qed.
Lemma takes_semi ts u : takes (punct ";") (mkInput (semi :: ts) u) (mkInput ts u) tt.
Proof. reflexivity. Qed.
Lemma takes_comma ts u : takes (punct ",") (mkInput (comma :: ts) u) (mkInput ts u) tt.
Proof. reflexivity. Qed.
Lemma takes_group {A} d (m : P A) inner ts u a : takes m (mkInput inner u) (mkInput [] u) a -> takes (group d m) (mkInput (TGroup d inner :: ts) u) (mkInput ts u) a.
Proof. unfold takes, group. intros H. cbn [rest unexpected]. rewrite bool_decide_true, H by done. cbn. now rewrite orb_false_r. Qed.
Lemma takes_type ty ts u : ends ts = true -> takes (parse_type syn_type) (mkInput (type_tokens ty ++ ts) u) (mkInput ts u) ty.
Proof. intros H. unfold takes, parse_type, lift. cbn [rest unexpected]. now rewrite type_back. Qed.
Lemma takes_path p ts u : ends ts = true -> takes (lift syn_path) (mkInput (path_tokens p ++ ts) u) (mkInput ts u) p.
Proof. intros H. unfold takes, lift. cbn [rest unexpected]. now rewrite path_back. Qed.
Lemma takes_pat p ts u : ends ts = true -> takes (lift syn_pat) (mkInput (pat_tokens p ++ ts) u) (mkInput ts u) p.
Proof. intros H. unfold takes, lift. cbn [rest unexpected]. now rewrite pat_back. Qed.
Lemma takes_is_empty u : takes is_empty (mkInput [] u) (mkInput [] u) true.
Proof. reflexivity. Qed.

(** A named field is read by the parser of its value. *)
Lemma takes_field {A} k (m : P A) tokens ts u a : (forall ts, ends ts = true -> takes m (mkInput (tokens ++ ts) u) (mkInput ts u) a) ->
  takes (field k m) (mkInput (write_field k tokens ++ ts) u) (mkInput ts u) a.
Proof.
  intros H. unfold field, write_field. cbn [app]. rewrite <- app_assoc. cbn [app].
  eapply takes_bind; [apply takes_word|]. eapply takes_bind; [apply takes_colon|]. eapply takes_bind; [apply H; reflexivity|].
  eapply takes_bind; [apply takes_semi|]. apply takes_ret.
Qed.

Lemma separated_length {A} (w : A -> list TokenTree) l : (forall a, a ∈ l -> w a <> []) -> (length l <= length (separated (map w l)))%nat.
Proof.
  induction l as [|a l IH]; intros H; [done|]. pose proof (H a ltac:(left)) as Ha. specialize (IH (fun b Hb => H b ltac:(now right))).
  destruct l as [|b l]; [cbn; destruct (w a); [done|cbn; lia]|]. cbn [map separated] in *. rewrite length_app. cbn [length] in *. lia.
Qed.
Lemma terminated_loop_takes {A} (m : P A) (w : A -> list TokenTree) u l :
  (forall a, a ∈ l -> w a <> [] /\ forall ts, ends ts = true -> takes m (mkInput (w a ++ ts) u) (mkInput ts u) a) ->
  forall fuel, (length l < fuel)%nat -> takes (terminated_loop m fuel) (mkInput (separated (map w l)) u) (mkInput [] u) l.
Proof.
  induction l as [|a l IH]; intros H fuel Hf; [destruct fuel; [lia|reflexivity]|]. destruct fuel as [|fuel]; [cbn in Hf; lia|].
  destruct (H a ltac:(left)) as [Hne Ha]. unfold takes. cbn [terminated_loop rest].
  destruct l as [|b l].
  - cbn [map separated]. destruct (w a) as [|t ts] eqn:Ew; [done|]. pose proof (Ha [] eq_refl) as H1. rewrite app_nil_r in H1. unfold takes in H1. now rewrite H1.
  - change (separated (map w (a :: b :: l))) with (w a ++ comma :: separated (map w (b :: l))).
    pose proof (Ha (comma :: separated (map w (b :: l))) eq_refl) as H1. unfold takes in H1.
    destruct (w a ++ comma :: separated (map w (b :: l))) as [|t ts] eqn:Ew; [destruct (w a); discriminate|]. rewrite H1. cbn [rest].
    eapply takes_bind; [apply takes_comma|]. eapply takes_bind; [apply IH; [intros c Hc; apply H; now right|cbn in *; lia]|]. apply takes_ret.
Qed.
Lemma takes_terminated {A} (m : P A) (w : A -> list TokenTree) u l :
  (forall a, a ∈ l -> w a <> [] /\ forall ts, ends ts = true -> takes m (mkInput (w a ++ ts) u) (mkInput ts u) a) ->
  takes (parse_terminated m) (mkInput (separated (map w l)) u) (mkInput [] u) l.
Proof.
  intros H. apply terminated_loop_takes; [done|]. cbn [rest]. pose proof (separated_length w l (fun a Ha => proj1 (H a Ha))). lia.
Qed.

Lemma takes_types types ts u : ends ts = true -> takes (parse_association_types syn_type) (mkInput (write_types types ++ ts) u) (mkInput ts u) types.
Proof.
  intros _. unfold parse_association_types, write_types. destruct types as [|ty types].
  - eapply takes_bind; [reflexivity|]. cbv beta iota. eapply takes_bind; [apply takes_word|]. apply takes_ret.
  - eapply takes_bind; [reflexivity|]. cbv beta iota. eapply takes_bind; [reflexivity|]. cbn [app peek_group rest]. rewrite bool_decide_true by done.
    apply takes_group. eapply takes_bind; [apply takes_terminated; intros a _; split; [apply type_nonempty|]; intros ts' Hts; now apply takes_type|]. apply takes_ret.
Qed.

Lemma takes_lane l ts u : takes (parse_lane syn_type) (mkInput (write_lane l ++ ts) u) (mkInput ts u) l.
Proof.
  unfold parse_lane, write_lane. cbn [app]. apply takes_group. destruct l as [d r w m]. cbn [direction role wire message].
  do 3 (eapply takes_bind; [apply takes_field; intros; now apply takes_type|]).
  eapply takes_bind; [rewrite <- (app_nil_r (write_field "message" _)); apply takes_field; intros; now apply takes_type|].
  eapply takes_bind; [apply takes_is_empty|]. apply takes_ret.
Qed.

Lemma takes_messages m ts u : starts_word "messages" ts = false ->
  takes (parse_messages accept_as_ident syn_type) (mkInput (write_messages m ++ ts) u) (mkInput ts u) m.
Proof.
  intros Hts. unfold parse_messages, write_messages. destruct m as [[int ext]|].
  - destruct direction_words as (Hi & He & _). eapply takes_bind; [reflexivity|]. cbn [app rest starts_word]. rewrite bool_decide_true by done.
    eapply takes_bind; [apply takes_word|]. eapply takes_bind; [|apply takes_ret]. apply takes_group. cbn [internal external].
    eapply takes_bind; [now apply takes_ident|]. rewrite bool_decide_true by done. eapply takes_bind; [apply takes_colon|].
    eapply takes_bind; [now apply takes_type|]. eapply takes_bind; [apply takes_comma|]. eapply takes_bind; [now apply takes_ident|].
    rewrite bool_decide_true by done. eapply takes_bind; [apply takes_colon|].
    eapply takes_bind; [rewrite <- (app_nil_r (type_tokens ext)); now apply takes_type|]. reflexivity.
  - cbn [app]. eapply takes_bind; [unfold takes, peek_word; cbn [rest]; rewrite Hts; reflexivity|]. apply takes_ret.
Qed.

Lemma takes_associations a ts u : takes (parse_associations syn_type syn_path) (mkInput (write_associations (Some a) ++ ts) u) (mkInput ts u) a.
Proof.
  unfold parse_associations, write_associations. destruct a as [int sl inb outb]. cbn [app interface seal inbound outbound].
  eapply takes_bind; [apply takes_word|]. apply takes_group. do 2 (eapply takes_bind; [apply takes_field; intros; now apply takes_path|]).
  eapply takes_bind; [apply takes_word|]. eapply takes_bind; [apply takes_lane|]. eapply takes_bind; [apply takes_word|].
  eapply takes_bind; [rewrite <- (app_nil_r (write_lane outb)); apply takes_lane|]. eapply takes_bind; [apply takes_is_empty|]. apply takes_ret.
Qed.

Lemma takes_state_associations a ts u :
  takes (parse_state_associations syn_type) (mkInput (write_state_associations (Some a) ++ ts) u) (mkInput ts u) a.
Proof.
  unfold parse_state_associations, write_state_associations. destruct a as [inb outb]. cbn [app state_inbound state_outbound].
  eapply takes_bind; [apply takes_word|]. apply takes_group. eapply takes_bind; [apply takes_field; intros; now apply takes_types|].
  eapply takes_bind; [rewrite <- (app_nil_r (write_field "outbound" _)); apply takes_field; intros; now apply takes_types|].
  eapply takes_bind; [apply takes_is_empty|]. apply takes_ret.
Qed.

(** The tokens after a transition or a type do not begin with an optional part. *)
Lemma ends_no_bracket ts u : ends ts = true -> takes (peek_group Bracket) (mkInput ts u) (mkInput ts u) false.
Proof. intros H. unfold takes, peek_group. destruct ts as [|[| | |] ts]; [done..|discriminate]. Qed.
Lemma ends_no_arrow ts u : ends ts = true -> takes (peek_punct "<=") (mkInput ts u) (mkInput ts u) false.
Proof.
  intros H. unfold takes, peek_punct. destruct ts as [|[|c j| |] ts]; try done.
  cbn [rest list_ascii_of_string strip_punct]. destruct (Ascii.eqb_spec "<" c) as [<-|]; [discriminate H|reflexivity].
Qed.

(** The direction and the event of a transition *)
Lemma takes_event t ts u : writable_transition t ->
  exists first after, match st_choice t with Some c => [TIdent (choice_word c)] | None => [] end ++ TIdent (st_event t) :: ts = TIdent first :: after /\
    accept_as_ident first = true /\
    takes (if bool_decide (first = "internal") then event ← ident accept_as_ident; mret (Some Internal, event)
           else if bool_decide (first = "external") then event ← ident accept_as_ident; mret (Some External, event)
           else mret (None, first)) (mkInput after u) (mkInput ts u) (st_choice t, st_event t).
Proof.
  intros (He & _ & _ & _ & Hc). destruct direction_words as (Hi & Hx & _). destruct (st_choice t) as [[]|]; cbn [app choice_word].
  - exists "internal", (TIdent (st_event t) :: ts). split_and!; [done..|]. cbn. eapply takes_bind; [now apply takes_ident|]. apply takes_ret.
  - exists "external", (TIdent (st_event t) :: ts). split_and!; [done..|]. cbn. eapply takes_bind; [now apply takes_ident|]. apply takes_ret.
  - done.
  - exists (st_event t), ts. destruct Hc as [H1 H2]. split_and!; [done..|]. rewrite !bool_decide_false by done. apply takes_ret.
Qed.

Lemma transition_eta (t : SynTransition Pat) :
  mkSynTransition (st_choice t) (st_event t) (st_method t) (st_payload t) (st_target t) (st_cleanliness t) (st_projection t) = t.
Proof. now destruct t. Qed.

Lemma takes_transition t ts u : writable_transition t -> ends ts = true ->
  takes (parse_transition accept_as_ident syn_type syn_pat) (mkInput (write_transition t ++ ts) u) (mkInput ts u) t.
Proof.
  intros Hw Hts. refine (eq_rect _ (takes (parse_transition accept_as_ident syn_type syn_pat) (mkInput (write_transition t ++ ts) u) (mkInput ts u)) _ t (transition_eta t)). pose proof Hw as (_ & Hm & Ht & Hcl & _).
  unfold parse_transition, write_transition. rewrite <- !app_assoc. cbn [app].
  match goal with |- context [TIdent (st_event t) :: ?tl] => destruct (takes_event t tl u Hw) as (first & after & -> & Hf & Hev) end.
  eapply takes_bind; [now apply takes_ident|]. eapply takes_bind; [exact Hev|]. cbv beta iota.
  apply takes_bind with (a := (st_method t, st_payload t)) (i' := mkInput (TPunct "=" true :: p1 ">" :: TIdent (st_target t) ::
    (match st_cleanliness t with Some c => [TGroup Bracket [TIdent c]] | None => [] end ++
     match st_projection t with Some pat => [TPunct "<" true; p1 "="] ++ pat_tokens pat | None => [] end ++ ts)) u).
  { apply takes_group. eapply takes_bind; [now apply takes_ident|]. destruct (st_payload t) as [ty|].
    - eapply takes_bind; [reflexivity|]. eapply takes_bind; [|eapply takes_bind; [apply takes_is_empty|apply takes_ret]].
      eapply takes_bind; [apply takes_colon|]. eapply takes_bind; [rewrite <- (app_nil_r (type_tokens ty)); now apply takes_type|apply takes_ret].
    - reflexivity. }
  cbv beta iota. eapply takes_bind; [reflexivity|]. cbn [rest]. eapply takes_bind; [now apply takes_ident|].
  assert (takes (peek_punct "<=") (mkInput (match st_projection t with Some pat => [TPunct "<" true; p1 "="] ++ pat_tokens pat | None => [] end ++ ts) u)
            (mkInput (match st_projection t with Some pat => [TPunct "<" true; p1 "="] ++ pat_tokens pat | None => [] end ++ ts) u) (is_some (st_projection t))) as Harrow.
  { destruct (st_projection t); [reflexivity|]. now apply ends_no_arrow. }
  assert (forall cl, takes (arrow ← peek_punct "<=";
      projection ← (if (arrow : bool) then _ ← punct "<="; pat ← lift syn_pat; mret (Some pat) else mret None);
      mret (mkSynTransition (st_choice t) (st_event t) (st_method t) (st_payload t) (st_target t) cl projection))
    (mkInput (match st_projection t with Some pat => [TPunct "<" true; p1 "="] ++ pat_tokens pat | None => [] end ++ ts) u) (mkInput ts u)
    (mkSynTransition (st_choice t) (st_event t) (st_method t) (st_payload t) (st_target t) cl (st_projection t))) as Hproj.
  { intros cl. eapply takes_bind; [exact Harrow|]. destruct (st_projection t) as [pat|]; cbn [is_some app]; [|reflexivity].
    eapply takes_bind; [|apply takes_ret]. eapply takes_bind; [reflexivity|]. cbn [rest]. eapply takes_bind; [now apply takes_pat|]. apply takes_ret. }
  destruct (st_cleanliness t) as [c|] eqn:Ec; cbn [app].
  - eapply takes_bind; [reflexivity|]. cbn [rest]. rewrite bool_decide_true by done.
    eapply takes_bind; [eapply takes_bind; [apply takes_group, takes_ident, Hcl; reflexivity|apply takes_ret]|]. apply Hproj.
  - assert (forall pr, takes (peek_group Bracket) (mkInput (match pr with Some pat => [TPunct "<" true; p1 "="] ++ pat_tokens pat | None => [] end ++ ts) u)
      (mkInput (match pr with Some pat => [TPunct "<" true; p1 "="] ++ pat_tokens pat | None => [] end ++ ts) u) false) as Hb
      by (intros [pat|]; [reflexivity|now apply ends_no_bracket]).
    eapply takes_bind; [apply Hb|]. eapply takes_bind; [apply takes_ret|]. apply Hproj.
Qed.

Lemma write_transition_nonempty t : write_transition t <> [].
Proof. unfold write_transition. destruct (st_choice t); discriminate. Qed.
Lemma transitions_not_associate l : match l with t :: _ => st_choice t = None -> st_event t <> "associate" | [] => True end ->
  starts_word "associate" (separated (map write_transition l)) = false.
Proof.
  destruct l as [|t l]; [done|]. intros H. assert (forall more, starts_word "associate" (write_transition t ++ more) = false) as Hs.
  { intros more. unfold write_transition. destruct (st_choice t) as [[]|]; cbn; try done. now rewrite bool_decide_false by auto. }
  destruct l as [|t' l]; [cbn [map separated]; rewrite <- (app_nil_r (write_transition t)); apply Hs|].
  change (separated (map write_transition (t :: t' :: l))) with (write_transition t ++ comma :: separated (map write_transition (t' :: l))). apply Hs.
Qed.

Lemma takes_state s ts u : writable_state s -> takes (parse_state accept_as_ident syn_type syn_pat) (mkInput (write_state s ++ ts) u) (mkInput ts u) s.
Proof.
  intros (Hn & Ht & Ha). destruct s as [n c l a]. cbn [ss_name ss_transitions ss_associations ss_choice] in *. unfold parse_state, write_state. cbn [app ss_name ss_choice ss_transitions ss_associations].
  destruct direction_words as (Hi & He & Hm).
  eapply takes_bind; [now apply takes_ident|]. eapply takes_bind; [apply takes_ident; now destruct c|].
  apply takes_bind with (a := c) (i' := mkInput (TGroup Brace (write_state_associations a ++ separated (map write_transition l)) :: ts) u); [now destruct c|].
  apply takes_group. rewrite Forall_forall in Ht.
  assert (takes (parse_terminated (parse_transition accept_as_ident syn_type syn_pat)) (mkInput (separated (map write_transition l)) u) (mkInput [] u) l) as Hl.
  { apply takes_terminated. intros t Hin. split; [apply write_transition_nonempty|]. intros ts' Hts. apply takes_transition; auto. }
  destruct a as [a|].
  - eapply takes_bind; [reflexivity|]. cbn [app write_state_associations rest starts_word]. rewrite bool_decide_true by done.
    eapply takes_bind; [eapply takes_bind; [exact (takes_state_associations a (separated (map write_transition l)) u)|apply takes_ret]|].
    eapply takes_bind; [exact Hl|]. apply takes_ret.
  - eapply takes_bind; [unfold takes, peek_word; cbn [rest write_state_associations app]; rewrite (transitions_not_associate l Ha); reflexivity|].
    cbv beta iota. eapply takes_bind; [apply takes_ret|]. eapply takes_bind; [exact Hl|]. apply takes_ret.
Qed.

Lemma many_loop_takes l u : Forall writable_state l -> forall fuel, (length l < fuel)%nat ->
  takes (many_loop (parse_state accept_as_ident syn_type syn_pat) fuel) (mkInput (l ≫= write_state) u) (mkInput [] u) l.
Proof.
  induction 1 as [|s l Hs _ IH]; intros fuel Hf; [destruct fuel; [lia|reflexivity]|]. destruct fuel as [|fuel]; [cbn in Hf; lia|].
  rewrite bind_cons. pose proof (takes_state s (l ≫= write_state) u Hs) as H1. unfold takes. cbn [many_loop rest].
  destruct (write_state s ++ (l ≫= write_state)) as [|t ts] eqn:Ew; [discriminate|].
  eapply takes_bind; [exact H1|]. eapply takes_bind; [apply IH; cbn in Hf; lia|]. apply takes_ret.
Qed.
Lemma states_length l : (length l <= length (l ≫= write_state))%nat.
Proof. induction l as [|s l IH]; [done|]. rewrite bind_cons, length_app. cbn [length write_state]. lia. Qed.
Lemma takes_states l u : Forall writable_state l -> takes (many (parse_state accept_as_ident syn_type syn_pat)) (mkInput (l ≫= write_state) u) (mkInput [] u) l.
Proof. intros H. unfold many. apply many_loop_takes; [done|]. cbn [rest]. pose proof (states_length l). lia. Qed.

Lemma takes_protocol p : writable p ->
  takes (parse_protocol accept_as_ident syn_type syn_path syn_pat syn_visibility) (mkInput (write_protocol p) false) (mkInput [] false) p.
Proof.
  intros (Hm & Hi & Hs & Hk). destruct p as [v m ini msg a l]. cbn [sp_module sp_initial sp_states] in *. unfold parse_protocol, write_protocol.
  cbn [sp_visibility sp_module sp_initial sp_messages sp_associations sp_states app].
  eapply takes_bind; [unfold takes, lift; cbn [rest unexpected]; rewrite visibility_back; reflexivity|].
  eapply takes_bind; [apply takes_word|]. eapply takes_bind; [now apply takes_ident|]. apply takes_group.
  eapply takes_bind; [apply takes_word|]. eapply takes_bind; [now apply takes_ident|]. eapply takes_bind; [apply takes_semi|].
  assert (starts_word "messages" (l ≫= write_state) = false /\ starts_word "associations" (l ≫= write_state) = false) as [K1 K2].
  { destruct l as [|s l]; [done|]. rewrite bind_cons. cbn [write_state app starts_word]. destruct Hk. now rewrite !bool_decide_false by done. }
  eapply takes_bind; [apply takes_messages; destruct a; [reflexivity|exact K1]|]. destruct a as [a|].
  - eapply takes_bind; [reflexivity|]. cbn [app write_associations rest starts_word]. rewrite bool_decide_true by done.
    eapply takes_bind; [eapply takes_bind; [exact (takes_associations a (l ≫= write_state) false)|apply takes_ret]|].
    eapply takes_bind; [now apply takes_states|]. apply takes_ret.
  - eapply takes_bind; [unfold takes, peek_word; cbn [rest write_associations app]; rewrite K2; reflexivity|]. cbv beta iota.
    eapply takes_bind; [apply takes_ret|]. eapply takes_bind; [now apply takes_states|]. apply takes_ret.
Qed.

(** A declaration that is written out parses back to itself. *)
Theorem declaration_roundtrip p : writable p -> parse_declaration accept_as_ident syn_type syn_path syn_pat syn_visibility (write_protocol p) = Ok p.
Proof. intros H. unfold parse_declaration. now rewrite (takes_protocol p H). Qed.
End Writer.

(** ** A concrete syntax *)

(** Types as single tokens, other syntax as literals; it satisfies the laws above. *)
Fixpoint token_of (ty : Ty) : TokenTree := match ty with TyBare i => TIdent i | TyNode shape nested => TGroup Bracket (TLiteral shape :: map token_of nested) end.
Fixpoint type_of (t : TokenTree) : option Ty :=
  match t with
  | TIdent i => Some (TyBare i)
  | TGroup Bracket (TLiteral shape :: nested) =>
      TyNode shape <$> (fix all (l : list TokenTree) : option (list Ty) :=
        match l with [] => Some [] | t :: l => match type_of t, all l with Some ty, Some tys => Some (ty :: tys) | _, _ => None end end) nested
  | _ => None
  end.
Definition sample_type (ts : list TokenTree) : result (Ty * list TokenTree) ParseError :=
  match ts with t :: ts => match type_of t with Some ty => Ok (ty, ts) | None => Err (Expected "type") end | [] => Err (Expected "type") end.
Definition sample_literal (ts : list TokenTree) : result (string * list TokenTree) ParseError :=
  match ts with TLiteral s :: ts => Ok (s, ts) | _ => Err (Expected "literal") end.
Definition sample_accept (s : string) : bool := negb (bool_decide (s ∈ ["mod"; "pub"; "fn"; "type"; "_"])).

Lemma type_of_token ty : type_of (token_of ty) = Some ty.
Proof.
  induction ty as [i|shape nested IH] using Ty_nested_ind; [done|]. cbn [token_of type_of].
  match goal with |- TyNode shape <$> ?m = _ => assert (m = Some nested) as -> end; [|done].
  induction IH as [|ty nested Hty _ IHn]; [done|]. cbn [map]. now rewrite Hty, IHn.
Qed.

#[export] Instance sample_laws : SynLaws (fun ty => [token_of ty]) (fun s => [TLiteral s]) (fun s => [TLiteral s]) (fun s => [TLiteral s]) sample_accept sample_type sample_literal sample_literal sample_literal.
Proof.
  constructor; try done. intros ty ts _. cbn. now rewrite type_of_token.
Qed.

Lemma declaration_roundtrip_witness :
  parse_declaration sample_accept sample_type sample_literal sample_literal sample_literal
    (write_protocol (fun ty => [token_of ty]) (fun s => [TLiteral s]) (fun s => [TLiteral s]) (fun s => [TLiteral s]) sample_declaration) = Ok sample_declaration.
Proof.
  apply (@declaration_roundtrip _ _ _ _ _ _ _ _ _ _ _ _ sample_laws). split_and!; try reflexivity.
  - apply Forall_cons. split; [|apply Forall_cons; split; [|apply Forall_nil_2]]; (split; [reflexivity|]; split; [|exact I]);
      (apply Forall_cons; split; [|apply Forall_nil_2]); (split_and!; try reflexivity; first [split; discriminate | discriminate]).
  - split; discriminate.
Defined.
