(* ===== verification/FsmCompile.v ===== *)
(** The procedural macro as a whole (pg-proto-fsm/src/lib.rs, [protocol] and [expand]):
    parsing, validation, association implementations, the names it forms with [format_ident!],
    the transition table and the diagram, composed in the order of the code, with the places
    where it would panic. *)

From Stdlib Require Import ZArith Lia String Ascii.
From stdpp Require Import prelude strings.
From S2P Require Import Prelude Fsm FsmTyped FsmSyntax FsmDiagram FsmParse FsmParseSpec.
Local Open Scope string_scope.

(** How a compilation is refused. *)
Inductive CompileError : Type := ParseFailed (e : ParseError) | Rejected (text : string) | DiagramExhausted.

(** ** Generated names *)

(** Identifier characters. The bytes of a non-ASCII character count as such, as they are in
    any identifier the compiler's lexer produces. *)
Definition in_chars (lo hi : nat) (c : ascii) : bool := (lo <=? nat_of_ascii c)%nat && (nat_of_ascii c <=? hi)%nat.
Definition ident_start (c : ascii) : bool :=
  in_chars 65 90 c || in_chars 97 122 c || Ascii.eqb c "_" || in_chars 128 255 c.
Definition ident_continue (c : ascii) : bool := ident_start c || in_chars 48 57 c.

Fixpoint all_chars (f : ascii -> bool) (s : string) : bool :=
  match s with EmptyString => true | String c s => f c && all_chars f s end.
(** What [Ident::new] accepts. *)
Definition is_identifier (s : string) : bool :=
  match s with EmptyString => false | String c s => ident_start c && all_chars ident_continue s end.

(** [str::to_uppercase] on its ASCII letters. *)
Definition upper (c : ascii) : ascii := if in_chars 97 122 c then ascii_of_nat (nat_of_ascii c - 32) else c.
Fixpoint to_uppercase (s : string) : string :=
  match s with EmptyString => EmptyString | String c s => String (upper c) (to_uppercase s) end.

(** [format_ident!] of the text: the raw form of a name that starts with [r#], a plain
    identifier otherwise; [Ident::new] panics on any other text. *)
Definition format_ident (text : string) : result string CompileError :=
  if is_identifier (fragment text) then Ok text else Panic.

Fixpoint format_idents (texts : list string) : result (list string) CompileError :=
  match texts with
  | [] => Ok []
  | text :: texts => let? i := format_ident text in let? l := format_idents texts in Ok (i :: l)
  end.

(** The names a placeholder type becomes in a state. *)
Fixpoint placeholder_idents (state : string) (ty : Ty) : list string :=
  match ty with
  | TyBare i => if bool_decide (i = "internal") || bool_decide (i = "external") then [message_name state i] else []
  | TyNode _ nested => flat_map (placeholder_idents state) nested
  end.

Section Names.
Context {Path Pat Visibility : Type}.
Implicit Types (p : SynProtocol Path Pat Visibility) (s : SynState Pat).

Definition association_idents p : list string :=
  match sp_associations p with
  | None => []
  | Some a =>
      flat_map (fun s => (placeholder_idents (ss_name s) (message (inbound a)) ++
                         placeholder_idents (ss_name s) (message (outbound a)))%list) (sp_states p)
  end.

(** The transitions of a state with a projection in the direction. *)
Definition projected (kind : ChoiceKind) s : list (SynTransition Pat) :=
  List.filter (fun t => is_some (st_projection t) &&
    match default (ss_choice s) (st_choice t), kind with
    | Internal, Internal | External, External => true
    | _, _ => false
    end) (ss_transitions s).

Definition directional_idents (kind : ChoiceKind) (direction : string) s : list string :=
  List.app
    (map (fun t => fragment (ss_name s) ++ fragment (st_event t) ++ direction ++ "TransitionMessage") (projected kind s))
    [fragment (ss_name s) ++ direction ++ "Projection"].

Definition message_idents p : list string :=
  match sp_messages p with
  | None => []
  | Some _ =>
      flat_map (fun s =>
        (fragment (ss_name s) ++ "InternalMessage") :: (fragment (ss_name s) ++ "ExternalMessage") ::
        List.app (directional_idents Internal "Internal" s) (directional_idents External "External" s)) (sp_states p)
  end.

(** The constant that holds the diagram. *)
Definition diagram_ident p : string := to_uppercase (sp_module p) ++ "_RAILROAD_SVG".

Definition is_raw (ident : string) : bool := String.prefix "r#" ident.

(** The names of a declaration are identifiers, plain or raw, as a lexer gives them. *)
Definition lexed (ident : string) : Prop := is_identifier (fragment ident) = true.
Definition lexed_names p : Prop :=
  lexed (sp_module p) /\ Forall (fun s => lexed (ss_name s) /\ Forall (fun t => lexed (st_event t)) (ss_transitions s)) (sp_states p).
End Names.

Lemma all_chars_app f a b : all_chars f (a ++ b) = all_chars f a && all_chars f b.
Proof. induction a as [|c a IH]; [done|]. change (String c a ++ b) with (String c (a ++ b)). cbn [all_chars]. now rewrite IH, andb_assoc. Qed.
Lemma identifier_continues s : is_identifier s = true -> all_chars ident_continue s = true.
Proof. destruct s as [|c s]; cbn; [done|]. intros [Hc Hs]%andb_true_iff. unfold ident_continue at 1. now rewrite Hc, Hs. Qed.
Lemma identifier_app a b : is_identifier a = true -> all_chars ident_continue b = true -> is_identifier (a ++ b) = true.
Proof.
  destruct a as [|c a]; [done|]. change (String c a ++ b) with (String c (a ++ b)). cbn [is_identifier].
  intros [Hc Ha]%andb_true_iff Hb. now rewrite all_chars_app, Hc, Ha, Hb.
Qed.
Lemma fragment_identifier s : is_identifier s = true -> fragment s = s.
Proof.
  destruct s as [|c [|d s]]; [done|intros _; now destruct c as [[] [] [] [] [] [] [] []]|]. cbn [is_identifier all_chars].
  intros [Hc [Hd _]%andb_true_iff]%andb_true_iff. destruct c as [[] [] [] [] [] [] [] []]; try reflexivity.
  destruct d as [[] [] [] [] [] [] [] []]; try reflexivity. discriminate Hd.
Qed.
Lemma format_identifier s : is_identifier s = true -> format_ident s = Ok s.
Proof. intros H. unfold format_ident. now rewrite (fragment_identifier s H), H. Qed.

(** A suffix of identifier characters after a lexed name is an identifier. *)
Lemma lexed_suffix n t : lexed n -> all_chars ident_continue t = true -> is_identifier (fragment n ++ t) = true.
Proof. apply identifier_app. Qed.

Lemma format_idents_ok l : Forall (fun t => is_identifier t = true) l -> format_idents l = Ok l.
Proof. induction 1 as [|t l Ht _ IH]; cbn; [done|]. now rewrite (format_identifier t Ht), IH. Qed.

Lemma placeholder_identifiers state ty : lexed state -> Forall (fun t => is_identifier t = true) (placeholder_idents state ty).
Proof.
  intros Hs. induction ty as [i|shape nested IH] using Ty_nested_ind; cbn [placeholder_idents].
  - destruct (_ || _); constructor; [|constructor]. unfold message_name. apply lexed_suffix; [done|]. now case_bool_decide.
  - induction IH as [|ty nested Hty _ IHn]; cbn [flat_map]; [constructor|]. apply Forall_app. auto.
Qed.

Lemma flat_map_identifiers {A} (f : A -> list string) (Q : A -> Prop) l : Forall Q l ->
  (forall x, Q x -> Forall (fun t => is_identifier t = true) (f x)) -> Forall (fun t => is_identifier t = true) (flat_map f l).
Proof. intros Hl Hf. induction Hl as [|x l Hx _ IH]; cbn [flat_map]; [constructor|]. apply Forall_app. auto. Qed.

Lemma directional_identifiers {Pat} kind direction (s : SynState Pat) : all_chars ident_continue direction = true ->
  lexed (ss_name s) -> Forall (fun t => lexed (st_event t)) (ss_transitions s) ->
  Forall (fun t => is_identifier t = true) (directional_idents kind direction s).
Proof.
  intros Hd Hn Ht. apply Forall_app. split.
  - apply Forall_forall. intros x (t & <- & Hin)%list_elem_of_In%in_map_iff. unfold projected in Hin.
    apply filter_In in Hin as [Hin%list_elem_of_In _]. rewrite Forall_forall in Ht. specialize (Ht t Hin).
    apply lexed_suffix; [done|]. rewrite all_chars_app, (identifier_continues _ Ht), all_chars_app, Hd. reflexivity.
  - constructor; [|constructor]. apply lexed_suffix; [done|]. rewrite all_chars_app, Hd. reflexivity.
Qed.

(** Uppercasing keeps identifiers. *)
Lemma upper_start c : ident_start c = true -> ident_start (upper c) = true.
Proof. destruct c as [[] [] [] [] [] [] [] []]; intros H; first [exact H|vm_compute; reflexivity|vm_compute in H; discriminate H]. Qed.
Lemma upper_continue c : ident_continue c = true -> ident_continue (upper c) = true.
Proof. destruct c as [[] [] [] [] [] [] [] []]; intros H; first [exact H|vm_compute; reflexivity|vm_compute in H; discriminate H]. Qed.
Lemma uppercase_identifier s : is_identifier s = true -> is_identifier (to_uppercase s) = true.
Proof.
  destruct s as [|c s]; cbn; [done|]. intros [Hc Hs]%andb_true_iff. rewrite (upper_start c Hc). cbn.
  induction s as [|d s IH]; cbn in *; [done|]. apply andb_true_iff in Hs as [Hd Hs]. now rewrite (upper_continue d Hd), IH.
Qed.

Lemma raw_inv ident : is_raw ident = true -> exists rest, ident = String "r" (String "#" rest).
Proof.
  unfold is_raw. destruct ident as [|a [|b rest]]; [done|now destruct a as [[] [] [] [] [] [] [] []]|].
  destruct a as [[] [] [] [] [] [] [] []]; try done. destruct b as [[] [] [] [] [] [] [] []]; try done. eauto.
Qed.
Lemma not_raw_fragment ident : is_raw ident = false -> fragment ident = ident.
Proof.
  destruct ident as [|a [|b rest]]; unfold is_raw; cbn; try done.
  - now destruct a as [[] [] [] [] [] [] [] []].
  - destruct a as [[] [] [] [] [] [] [] []]; try done. destruct b as [[] [] [] [] [] [] [] []]; try done.
    cbn. now destruct rest.
Qed.

(** The diagram's constant has no identifier exactly when the module name is raw. *)
Lemma diagram_ident_panics {Path Pat Visibility} (p : SynProtocol Path Pat Visibility) : lexed (sp_module p) ->
  format_ident (diagram_ident p) = if is_raw (sp_module p) then Panic else Ok (diagram_ident p).
Proof.
  intros Hl. unfold diagram_ident. destruct (is_raw (sp_module p)) eqn:Er.
  - apply raw_inv in Er as [rest ->]. reflexivity.
  - unfold lexed in Hl. rewrite (not_raw_fragment _ Er) in Hl. apply format_identifier, identifier_app; [|reflexivity].
    now apply uppercase_identifier.
Qed.

Lemma raw_diagram_panics {Path Pat Visibility} (p : SynProtocol Path Pat Visibility) : is_raw (sp_module p) = true ->
  format_ident (diagram_ident p) = Panic.
Proof. intros [rest E]%raw_inv. unfold diagram_ident. now rewrite E. Qed.

Lemma lexed_idents {Path Pat Visibility} (p : SynProtocol Path Pat Visibility) : lexed_names p ->
  format_idents (association_idents p) = Ok (association_idents p) /\ format_idents (message_idents p) = Ok (message_idents p).
Proof.
  intros [_ Hs]. split; apply format_idents_ok.
  - unfold association_idents. destruct (sp_associations p); [|constructor]. eapply flat_map_identifiers; [exact Hs|].
    intros s [Hn _]. apply Forall_app. split; now apply placeholder_identifiers.
  - unfold message_idents. destruct (sp_messages p); [|constructor]. eapply flat_map_identifiers; [exact Hs|].
    intros s [Hn Ht]. constructor; [now apply lexed_suffix|]. constructor; [now apply lexed_suffix|].
    apply Forall_app. split; now apply directional_identifiers.
Qed.

(** ** Expansion *)

Section Compile.
Context {Path Pat Visibility I E : Type} (accept_as_ident : string -> bool).
Context (syn_type : list TokenTree -> result (Ty * list TokenTree) ParseError) (syn_path : list TokenTree -> result (Path * list TokenTree) ParseError).
Context (syn_pat : list TokenTree -> result (Pat * list TokenTree) ParseError) (syn_visibility : list TokenTree -> result (Visibility * list TokenTree) ParseError).
Context (render : Ty -> string) (render_lane : Ty -> Ty -> Ty -> string).
Context (denote_internal : Pat -> I -> bool) (denote_external : Pat -> E -> bool).

(** The table with the [unreachable!] of an undirected transition. *)
Definition transition_descriptors (p : Protocol I E) : result (list RuntimeTransition) CompileError :=
  if existsb (fun s => existsb (fun t => bool_decide (choice_of s t = Mixed)) (transitions s)) (Fsm.states p) then Panic else Ok (TRANSITIONS p).

Record Expansion : Type := mkExpansion {
  x_declaration : SynProtocol Path Pat Visibility; x_impls : list (Impl Path); x_message_names : list string;
  x_table : list RuntimeTransition; x_diagram : Node; x_diagram_name : string
}.

Definition expand (p : SynProtocol Path Pat Visibility) : result Expansion CompileError :=
  let grammar := grammar_of denote_internal denote_external p in
  let? _ := map_err Rejected (validate_declaration render render_lane denote_internal denote_external p) in
  let? _ := format_idents (association_idents p) in
  let? impls := map_err Rejected (expand_associations p) in
  let? names := format_idents (message_idents p) in
  let? diagram := map_err (fun _ => DiagramExhausted) (railroad render (sp_states p) (sp_initial p)) in
  let? diagram_name := format_ident (diagram_ident p) in
  let? table := transition_descriptors grammar in
  Ok (mkExpansion p impls names table diagram diagram_name).

Definition protocol (tokens : list TokenTree) : result Expansion CompileError :=
  let? p := map_err ParseFailed (parse_declaration accept_as_ident syn_type syn_path syn_pat syn_visibility tokens) in expand p.

(** syn's parsers return errors, not panics, and leave a part of their input. *)
Hypothesis type_reads : forall ts, match syn_type ts with Ok (_, ts') => (length ts' < length ts)%nat | Err _ => True | Panic => False end.
Hypothesis path_reads : reads syn_path.
Hypothesis pat_reads : reads syn_pat.
Hypothesis visibility_reads : reads syn_visibility.

Lemma expand_accepted (p : SynProtocol Path Pat Visibility) :
  (forall s t, s ∈ sp_states p -> t ∈ ss_transitions s -> st_choice t <> Some Mixed) ->
  validate_declaration render render_lane denote_internal denote_external p = Ok tt ->
  exists impls node, expand p =
    let? _ := format_idents (association_idents p) in
    let? names := format_idents (message_idents p) in
    let? diagram_name := format_ident (diagram_ident p) in
    Ok (mkExpansion p impls names (TRANSITIONS (grammar_of denote_internal denote_external p)) (Sequence [Start; node; End]) diagram_name).
Proof.
  intros Hp Hv. unfold expand. rewrite Hv. cbn [map_err]. unfold validate_declaration in Hv.
  destruct (validate_associations render render_lane p) as [[]| |] eqn:Ea; [|done..].
  destruct (associations_ok render render_lane p Ea) as [impls ->]. cbn [map_err].
  destruct (diagram_drawn render denote_internal denote_external p Hv Hp) as [node ->]. cbn [map_err].
  unfold transition_descriptors. destruct (existsb _ _) eqn:Ex; [|exists impls, node; reflexivity]. exfalso.
  apply existsb_exists in Ex as (s & Hs & (t & Ht & Hc)%existsb_exists). apply bool_decide_eq_true in Hc. revert Hc.
  apply in_map_iff in Hs as (s' & <- & Hs'). apply in_map_iff in Ht as (t' & <- & Ht'). apply list_elem_of_In in Hs'. apply list_elem_of_In in Ht'.
  exact (declared_directed denote_internal denote_external p Hv Hp s' t' Hs' Ht').
Qed.

(** Validation has no panicking place. *)
Lemma insert_implementations_total key l : forall seen, insert_implementations render key l seen <> Panic.
Proof. induction l as [|c l IH]; intros seen; cbn; [done|]. case_bool_decide; [done|apply IH]. Qed.
Lemma association_types_total l : forall seen, association_types_seen render seen l <> Panic.
Proof. induction l as [|c l IH]; intros seen; cbn; [done|]. destruct (mem _ _); [done|apply IH]. Qed.
Lemma state_associations_total (a : Associations Path) (l : list (SynState Pat)) : forall seen, validate_state_associations render render_lane a l seen <> Panic.
Proof.
  induction l as [|s l IH]; intros seen; cbn [validate_state_associations]; [done|]. destruct (ss_associations s) as [sa|]; [|done].
  unfold validate_association_types. pose proof (association_types_total (state_inbound sa) []) as H1. pose proof (association_types_total (state_outbound sa) []) as H2.
  destruct (association_types_seen render [] (state_inbound sa)); [|done..]. destruct (association_types_seen render [] (state_outbound sa)); [|done..].
  pose proof (insert_implementations_total (lane_key render_lane (inbound a)) (state_inbound sa) seen) as H3.
  destruct (insert_implementations render _ (state_inbound sa) seen) as [seen'| |]; [|done..].
  pose proof (insert_implementations_total (lane_key render_lane (outbound a)) (state_outbound sa) seen') as H4.
  destruct (insert_implementations render _ (state_outbound sa) seen'); [apply IH|done..].
Qed.
Lemma template_total ty : validate_message_template ty <> Panic.
Proof. unfold validate_message_template. now destruct (replace_message_placeholder ty None).2 as [|[|]]. Qed.
Lemma validate_transitions_total declared (l : list (Transition I E)) : forall methods, validate_transitions declared methods l <> Panic.
Proof. induction l as [|t l IH]; intros methods; cbn; [done|]. destruct (negb _); [done|]. destruct (mem _ _); [done|apply IH]. Qed.
Lemma validate_total (g : Protocol I E) : validate g <> Panic.
Proof.
  unfold validate. destruct (negb (messages g) && _); [done|]. destruct (negb _); [done|]. generalize (map name (Fsm.states g)) as declared. intros declared.
  induction (Fsm.states g) as [|s l IH]; cbn [validate_states]; [done|]. destruct (validate_choice s) eqn:Ec; [|done|].
  - pose proof (validate_transitions_total declared (transitions s) []). destruct (validate_transitions declared [] (transitions s)); [apply IH|done..].
  - unfold validate_choice in Ec. destruct (s_choice s), (existsb _ _); discriminate.
Qed.
Lemma validate_declaration_total (p : SynProtocol Path Pat Visibility) :
  validate_declaration render render_lane denote_internal denote_external p <> Panic.
Proof.
  unfold validate_declaration. destruct (validate_associations render render_lane p) eqn:Ea; [apply validate_total|done|].
  exfalso. unfold validate_associations in Ea. destruct (sp_associations p) as [a|]; [|now destruct (existsb _ _)].
  destruct (negb _); [done|]. pose proof (template_total (message (inbound a))). destruct (validate_message_template (message (inbound a))); [|done..].
  pose proof (template_total (message (outbound a))). destruct (validate_message_template (message (outbound a))); [|done..].
  exact (state_associations_total a (sp_states p) [] Ea).
Qed.

(** No generated name makes [format_ident] return an error. *)
Lemma format_ident_no_error t e : format_ident t <> Err e.
Proof. unfold format_ident. now destruct (is_identifier _). Qed.
Lemma format_idents_no_error l e : format_idents l <> Err e.
Proof.
  induction l as [|t l IH]; cbn; [done|]. pose proof (format_ident_no_error t e). destruct (format_ident t); [|congruence|done].
  cbn. now destruct (format_idents l).
Qed.

(** C32: What the macro does with any tokens. It expands, and then to the whole table of the
    transitions of what it parsed and validated; or it is refused with the error of the parser
    or of validation; the diagram never runs out of fuel. It panics only on a declaration that
    parses and is valid, and, the names in it being identifiers as a lexer gives them, it does so
    exactly when the module name is raw: the name of the diagram constant is then no identifier. *)
Theorem macro_panics_only_on_raw_module tokens :
  match protocol tokens with
  | Ok x => parse_declaration accept_as_ident syn_type syn_path syn_pat syn_visibility tokens = Ok (x_declaration x) /\
      validate_declaration render render_lane denote_internal denote_external (x_declaration x) = Ok tt /\
      x_table x = TRANSITIONS (grammar_of denote_internal denote_external (x_declaration x)) /\
      is_raw (sp_module (x_declaration x)) = false
  | Err (ParseFailed e) => parse_declaration accept_as_ident syn_type syn_path syn_pat syn_visibility tokens = Err e
  | Err (Rejected e) => exists p, parse_declaration accept_as_ident syn_type syn_path syn_pat syn_visibility tokens = Ok p /\
      validate_declaration render render_lane denote_internal denote_external p = Err e
  | Err DiagramExhausted => False
  | Panic => exists p, parse_declaration accept_as_ident syn_type syn_path syn_pat syn_visibility tokens = Ok p /\
      validate_declaration render render_lane denote_internal denote_external p = Ok tt /\
      (lexed_names p -> is_raw (sp_module p) = true)
  end.
Proof.
  unfold protocol. pose proof (parse_total accept_as_ident syn_type syn_path syn_pat syn_visibility type_reads path_reads pat_reads visibility_reads tokens) as Ht.
  destruct (parse_declaration accept_as_ident syn_type syn_path syn_pat syn_visibility tokens) as [p|e|] eqn:Ep; cbn [map_err]; [|done..].
  pose proof (parsed_directed _ _ _ _ _ _ _ Ep) as Hp.
  destruct (validate_declaration render render_lane denote_internal denote_external p) as [[]|e|] eqn:Ev.
  - destruct (expand_accepted p Hp Ev) as (impls & node & ->).
    assert (Hpanic : format_idents (association_idents p) = Panic \/ format_idents (message_idents p) = Panic \/
        format_ident (diagram_ident p) = Panic -> lexed_names p -> is_raw (sp_module p) = true).
    { intros H Hl. destruct (lexed_idents p Hl) as [E1 E2]. rewrite E1, E2, (diagram_ident_panics p (proj1 Hl)) in H.
      destruct (is_raw (sp_module p)); [done|]. intuition discriminate. }
    pose proof (format_idents_no_error (association_idents p)). pose proof (format_idents_no_error (message_idents p)).
    pose proof (format_ident_no_error (diagram_ident p)).
    destruct (format_idents (association_idents p)) as [l1|e1|] eqn:E1; [|now edestruct H|exists p; split; [done|]; split; [done|]; apply Hpanic; auto].
    destruct (format_idents (message_idents p)) as [l2|e2|] eqn:E2; [|now edestruct H0|exists p; split; [done|]; split; [done|]; apply Hpanic; auto].
    destruct (format_ident (diagram_ident p)) as [d|e3|] eqn:E3; [|now edestruct H1|exists p; split; [done|]; split; [done|]; apply Hpanic; auto].
    cbn. split_and!; [done..|]. destruct (is_raw (sp_module p)) eqn:Er; [|done]. now rewrite (raw_diagram_panics p Er) in E3.
  - unfold expand. rewrite Ev. cbn [map_err]. eauto.
  - now apply validate_declaration_total in Ev.
Qed.
End Compile.

(** The sample declaration, written out, compiles to its table. *)
Definition sample_tokens : list TokenTree :=
  write_protocol (fun ty => [token_of ty]) (fun s => [TLiteral s]) (fun s => [TLiteral s]) (fun s => [TLiteral s]) sample_declaration.
Definition sample_protocol : result (Expansion (Path := string) (Pat := string) (Visibility := string)) CompileError :=
  protocol sample_accept sample_type sample_literal sample_literal sample_literal sample_render sample_render_lane
    (fun _ (_ : unit) => true) (fun _ (_ : unit) => true) sample_tokens.

Lemma macro_panics_only_on_raw_module_witness : exists x, sample_protocol = Ok x /\ x_declaration x = sample_declaration /\ length (x_table x) = 2%nat.
Proof.
  pose proof (macro_panics_only_on_raw_module sample_accept sample_type sample_literal sample_literal sample_literal sample_render sample_render_lane
    (fun _ (_ : unit) => true) (fun _ (_ : unit) => true)
    ltac:(intros [|t ts]; cbn; [exact I|]; destruct (type_of t); [cbn; lia|exact I])
    ltac:(intros [|[] ts]; cbn; try exact I; lia) ltac:(intros [|[] ts]; cbn; try exact I; lia) ltac:(intros [|[] ts]; cbn; try exact I; lia) sample_tokens) as H.
  change (protocol sample_accept sample_type sample_literal sample_literal sample_literal sample_render sample_render_lane
    (fun _ (_ : unit) => true) (fun _ (_ : unit) => true) sample_tokens) with sample_protocol in H.
  destruct sample_protocol as [x|e|] eqn:Ex.
  - exists x. split; [reflexivity|]. destruct H as (H1 & _ & H3 & _).
    assert (x_declaration x = sample_declaration) as Hd.
    { assert (parse_declaration sample_accept sample_type sample_literal sample_literal sample_literal sample_tokens = Ok sample_declaration) as E by (vm_compute; reflexivity).
      rewrite E in H1. injection H1 as H1. symmetry. exact H1. }
    split; [exact Hd|]. rewrite H3, Hd. vm_compute. reflexivity.
  - exfalso. vm_compute in Ex. discriminate Ex.
  - exfalso. vm_compute in Ex. discriminate Ex.
Defined.

(** The same declaration as a module with a raw name. *)
Definition raw_declaration : SynProtocol string string string :=
  mkSynProtocol (sp_visibility sample_declaration) "r#type" (sp_initial sample_declaration) (sp_messages sample_declaration)
    (sp_associations sample_declaration) (sp_states sample_declaration).

(** A raw module name panics the macro although the declaration is valid: the constant would be
    named [R#TYPE_RAILROAD_SVG]. *)
Theorem raw_module_panics :
  parse_declaration sample_accept sample_type sample_literal sample_literal sample_literal
    (write_protocol (fun ty => [token_of ty]) (fun s => [TLiteral s]) (fun s => [TLiteral s]) (fun s => [TLiteral s]) raw_declaration)
    = Ok raw_declaration /\
  diagram_ident raw_declaration = "R#TYPE_RAILROAD_SVG" /\
  protocol sample_accept sample_type sample_literal sample_literal sample_literal sample_render sample_render_lane
    (fun _ (_ : unit) => true) (fun _ (_ : unit) => true)
    (write_protocol (fun ty => [token_of ty]) (fun s => [TLiteral s]) (fun s => [TLiteral s]) (fun s => [TLiteral s]) raw_declaration) = Panic.
Proof. split_and!; vm_compute; reflexivity. Qed.
