(* ===== verification/Scripted.v ===== *)
(** The scripted peers of pg-proto-burn-in/src/scripted.rs, as far as they are data: the
    malformed and illegal packets they send and the packets they build by hand. Each
    malformed case is shown to be refused by the layer of the library it is named after,
    and to pass the layers below. *)

From Stdlib Require Import ZArith Lia String.
From Stdlib Require Import Init.Byte.
From stdpp Require Import prelude gmap.
From S2P Require Import Prelude OrdMap Wire Frame Frontend Startup PreStartup Backend Fsm Grammar Pipeline Scram ClientComponent.

Local Open Scope Z_scope.
Local Open Scope list_scope.

Definition MALFORMED_CAPACITY : Z := 256.

Inductive MalformedCase : Type := InvalidLength | TruncatedFrame | UnknownTag | InvalidEncoding | IllegalSequence.
Definition ALL : list MalformedCase := [InvalidLength; TruncatedFrame; UnknownTag; InvalidEncoding; IllegalSequence].
Definition case_id (c : MalformedCase) : bytes :=
  match c with
  | InvalidLength => str "scripted.malformed.invalid-length"
  | TruncatedFrame => str "scripted.malformed.truncated-frame"
  | UnknownTag => str "scripted.malformed.unknown-tag"
  | InvalidEncoding => str "scripted.malformed.invalid-encoding"
  | IllegalSequence => str "scripted.illegal.copy-data-while-ready"
  end.

Definition malformed_packet (c : MalformedCase) : result bytes Empty_set :=
  match c with
  | InvalidLength => Ok ["Q"%byte; x00; x00; x00; x03]
  | TruncatedFrame => Ok ["Q"%byte; x00; x00; x00; x0c; "S"%byte]
  | UnknownTag => Ok ["?"%byte; x00; x00; x00; x04]
  | IllegalSequence => Ok ["d"%byte; x00; x00; x00; x05; "x"%byte]
  | InvalidEncoding => Panic
  end.
Definition invalid_encoding_startup : bytes := be_bytes 4 16 ++ be_bytes 4 196608 ++ str "user" ++ [x00] ++ [xff; x00] ++ [x00].
Definition startup : bytes := be_bytes 4 20 ++ be_bytes 4 196608 ++ str "user" ++ [x00] ++ str "alice" ++ [x00; x00].

(** The evidence [run] claims, and the cases it runs for it. *)
Definition coverage : list bytes := map str
  ["scripted.authentication.gss"; "scripted.authentication.gss-continue"; "scripted.authentication.kerberos-v5"; "scripted.authentication.sspi";
   "scripted.copy-both.client-half-close-first"; "scripted.copy-both.server-half-close-first"; "scripted.copy-fail.exact";
   "scripted.encryption.gss-request"; "scripted.encryption.legacy-error"; "scripted.function-call"; "scripted.illegal.copy-data-while-ready";
   "scripted.malformed.invalid-encoding"; "scripted.malformed.invalid-length"; "scripted.malformed.truncated-frame";
   "scripted.malformed.unknown-tag"]%string.

Record DiagnosticEvidence : Type := mkDiagnostic {
  evidence_id : bytes; rejected : bool; teardown_complete : bool; transport_capacity_bytes : Z; frame_limit_bytes : Z; diagnostic : bytes
}.
Definition diagnostic_evidence (c : MalformedCase) (diagnostic : bytes) : DiagnosticEvidence :=
  mkDiagnostic (case_id c) true true MALFORMED_CAPACITY MALFORMED_CAPACITY diagnostic.

(** [tagged] and [password_packet]; lengths of a [Vec] fit, so their conversions do. *)
Definition tagged (tag : byte) (body : bytes) : result bytes Empty_set :=
  if len body + 4 <=? U32_MAX then Ok ([tag] ++ be_bytes 4 (len body + 4) ++ body) else Panic.
Definition password_packet (token : bytes) : result bytes Empty_set := tagged "p"%byte token.

(** [read_tagged] on the bytes of a stream: a length under four underflows. *)
Definition read_tagged (stream : bytes) : result (option (byte * bytes * bytes)) Empty_set :=
  match stream with
  | [] => Ok None
  | tag :: stream =>
      if len stream <? 4 then Ok None
      else
        let length := be_value (take 4 stream) in
        if length <? 4 then Panic
        else
          let stream := drop 4 stream in
          if len stream <? length - 4 then Ok None
          else Ok (Some (tag, take (Z.to_nat (length - 4)) stream, drop (Z.to_nat (length - 4)) stream))
  end.

(** ** Facts *)

(** What a refusal of a case is: of the frame decoder, of the end of the stream within a
    frame, of the message decoder, of the route's parameters, of the request ledger. *)
Definition refused (c : MalformedCase) : Prop :=
  match c with
  | InvalidLength => exists packet, malformed_packet c = Ok packet /\
      decode_frame packet MALFORMED_CAPACITY = (Err (Wire.invalid "message length is smaller than its length field"), packet)
  | TruncatedFrame => exists packet, malformed_packet c = Ok packet /\ decode_frame packet MALFORMED_CAPACITY = (Ok None, packet) /\ packet <> []
  | UnknownTag => exists packet frame e, malformed_packet c = Ok packet /\ decode_frame packet MALFORMED_CAPACITY = (Ok (Some frame), []) /\
      Frontend_decode frame = Err e
  | InvalidEncoding => exists message, decode_pre_startup invalid_encoding_startup = (Ok (Some (MsgStartup message)), []) /\
      from_wire message = Err (Wire.invalid "startup parameter value is not UTF-8")
  | IllegalSequence => exists packet frame m, malformed_packet c = Ok packet /\ decode_frame packet MALFORMED_CAPACITY = (Ok (Some frame), []) /\
      Frontend_decode frame = Ok m /\ forall (P : Type) (HP : PipelinePolicy P) (policy : P) handling, 0 < operation_limit policy ->
        accept_frontend m handling (Pipeline_new policy) = (Err (Illegal (Pipeline.state (Pipeline_new policy)) m), Pipeline_new policy)
  end.

(** Every malformed case the harness runs is refused by the library, each by the layer it
    is meant for, with its packet within the frame limit; the evidence claimed for them is
    that of the cases run. *)
Theorem malformed_cases_refused : Forall refused ALL /\ Forall (fun c => case_id c ∈ coverage) ALL /\ NoDup coverage /\
  Forall (fun c => match malformed_packet c with Ok packet => len packet <= MALFORMED_CAPACITY | Err _ => False | Panic => c = InvalidEncoding end) ALL.
Proof.
  split_and!.
  - unfold ALL. repeat (apply Forall_cons; split); [..|apply Forall_nil_2].
    + eexists. split; [reflexivity|]. vm_compute. reflexivity.
    + eexists. split; [reflexivity|]. split; [vm_compute; reflexivity|discriminate].
    + eexists _, (mkFrame "?"%byte []), _. split; [reflexivity|]. split; [vm_compute; reflexivity|reflexivity].
    + exists (mkStartup V3_0 [(str "user", [xff])]). split; vm_compute; reflexivity.
    + eexists _, (mkFrame "d"%byte ["x"%byte]), (F_CopyData ["x"%byte]). split; [reflexivity|]. split; [vm_compute; reflexivity|]. split; [reflexivity|].
      intros P HP policy handling Hl. unfold accept_frontend, prepare_frontend, Pipeline_new. cbn [operations Pipeline.policy].
      change (len []) with 0. destruct (Z.eqb_spec 0 (operation_limit policy)); [lia|]. reflexivity.
  - repeat (apply Forall_cons; split); [..|apply Forall_nil_2]; apply (bool_decide_eq_true_1 _); vm_compute; reflexivity.
  - apply (bool_decide_eq_true_1 _). vm_compute. reflexivity.
  - repeat (apply Forall_cons; split); [..|apply Forall_nil_2]; vm_compute; (reflexivity || discriminate).
Qed.

(** The packets built by hand are the library's: a tagged packet is the image of its frame
    and is read back whole, a token is sent as a password response, and the startup packet
    asks for protocol 3.0 as alice. *)
Theorem scripted_packets_agree :
  (forall tag body rest, len body + 4 <= U32_MAX ->
     exists packet, tagged tag body = Ok packet /\ packet = wire_image (mkFrame tag body) /\ read_tagged (packet ++ rest) = Ok (Some (tag, body, rest))) /\
  (forall token, len token + 4 <= U32_MAX ->
     exists f packet, FrontendMessage_to_frame (F_PasswordResponse token) = Ok f /\ password_packet token = Ok packet /\ packet = wire_image f) /\
  decode_pre_startup startup = (Ok (Some (MsgStartup (mkStartup V3_0 [(str "user", str "alice")]))), []).
Proof.
  split_and!.
  - intros t b rest H. unfold tagged. destruct (Z.leb_spec (len b + 4) U32_MAX); [|lia]. eexists. split; [reflexivity|]. split; [reflexivity|].
    pose proof (len_nonneg b). pose proof (len_nonneg rest). rewrite <- !app_assoc. cbn [app read_tagged]. rewrite !len_app. unfold len at 1. rewrite length_be_bytes.
    destruct (Z.ltb_spec (Z.of_nat 4 + (len b + len rest)) 4); [lia|].
    rewrite take_app_length', drop_app_length' by now rewrite length_be_bytes. rewrite be_value_bytes, Z.mod_small by (unfold U32_MAX in *; lia).
    destruct (Z.ltb_spec (len b + 4) 4); [lia|]. rewrite len_app, Z.add_simpl_r. destruct (Z.ltb_spec (len b + len rest) (len b)); [lia|].
    unfold len. rewrite Nat2Z.id, take_app_length, drop_app_length. done.
  - intros token H. eexists _, _. split; [reflexivity|]. unfold password_packet, tagged. destruct (Z.leb_spec (len token + 4) U32_MAX); [|lia]. split; reflexivity.
  - vm_compute. reflexivity.
Qed.
